(* ===== verification/_CoqProject ===== *)
-Q . S2P
Prelude.v
Arbmath.v
Host.v
Storage.v
StorageFacts.v
Refine.v
MemEnv.v
StorageBytes.v
Queue.v
Blockhash.v
IndexedSet.v
AddressSet.v
AddressTable.v
Readers.v
Merkle.v
MerkleAccumulator.v
L2Pricing.v
Transfer.v
BatchPoster.v
L1Pricing.v
L1PricingFacts.v
Retryables.v
RetryablesFacts.v
MemoryModel.v
DataPricer.v
StylusParams.v
Programs.v
ProgramsFacts.v
MerkleTree.v
IncomingMessage.v
ArbosState.v
Zeroheavy.v
InternalTx.v
ParseL2.v
Bls.v
DasTree.v
Inbox.v
DasReader.v
Blobs.v
InboxFacts.v
InboxBackends.v
BatchSegments.v
BatchPosting.v
TxProcessor.v
TxProcessorFacts.v
TxFees.v
TxRetryables.v
TxRedeem.v
Backlog.v
BacklogFacts.v
ConnectionLimiter.v
FeedClients.v
FeedCatchup.v
BlockProcessor.v
BlockFacts.v
SequencedBlock.v
BlockRecorder.v
