(* ===== verification/Prelude.v ===== *)
(** * Verification of ArbOS and of the sequencer inbox of Arbitrum Stylus

    ArbOS is the part of an Arbitrum chain that prices gas and calldata, keeps
    retryable tickets, and runs Stylus programs. It is Go code under src/arbos,
    called by the EVM of go-ethereum around transactions, and keeps all its state
    in the storage of one account. The transactions reach it as messages: the
    batch poster packs them into batches, as calldata, as blobs or as certificates
    of a data availability committee, and both the node and the replay binary,
    which proves blocks, read the batches back. The sequencer makes blocks of the
    transactions it receives and publishes their messages on a feed. This library
    models that code as executable definitions and proves what each component
    promises to the others.

    ** How the code is modelled

    - Integers are [Z] with the wrap-around of their Go type written out
      ([uwrap], [swrap], and the operators of this file); [big.Int] is [Z];
      [common.Hash] and [common.Address] are 256-bit and 160-bit numbers; byte
      slices are lists of [Z], big-endian ([be], [be_bytes]).
    - A function that can fail returns an [outcome]: a value, an [error], or a
      panic. A method that works on the state is a computation of the monad [M]
      of Host.v, which threads the state database and the burner (the gas meter)
      and ends in an [outcome].
    - go-ethereum and keccak are not under src/ and are parameters: the class
      [Env] with its laws [EnvLaws] (a slot keeps the last value written, balances
      and slots do not interfere, logs are kept in order, a digest has 256 bits).
      The coding of its events ([TxHost]), RLP ([RLP]), the
      native Stylus library with brotli ([StylusEnv]), ABI coding
      ([InternalTxAbi]), the precompiles of a chain ([GethEnv]), signed
      transactions ([GethTxs]), brotli and RLP streams ([Codecs],
      [BatchCodecs]), the curve of BLS signatures ([BLS12381]), KZG commitments
      ([BlobCodecs]), the clients of the parent chain ([L1Client], [PosterLib]),
      the machine of the prover ([Wavmio]), the execution of a transaction with
      headers and signers ([BlockHost]), the recording database ([RecordingDB]) and
      the connections of the feed ([FeedIO]) are further classes, their documented
      behaviour classes of laws. MemEnv.v is a concrete environment, in which
      the witnesses of the properties run; the other classes have concrete
      instances beside their witnesses.
    - [runs G m d r d'] (Host.v) is total correctness: with [G] gas, [m] ends
      on [d] with the outcome [r] and the database [d']. [refines] (Refine.v)
      lifts it to an abstract state with a representation predicate.

    ** The files and what they show

    - Arbmath.v: util/arbmath (saturating arithmetic, basis points, byte
      helpers). The closed forms of the saturating operations, including where
      the signed ones do not saturate at the largest value.
    - Host.v, Storage.v, StorageFacts.v, StorageBytes.v: arbos/burn,
      precompiles/context.go and arbos/storage/storage.go. Two keys of spaces
      share no slot unless keccak collides; typed cells and byte strings are
      read back as written.
    - Queue.v, Blockhash.v, IndexedSet.v, AddressSet.v, AddressTable.v: the
      containers of ArbOS (arbos/storage/queue.go, arbos/blockhash,
      arbos/addressSet, arbos/addressTable). The queue refines a list, the set a
      finite set, the table a list without duplicates; the ring of block hashes
      returns what was recorded.
    - Merkle.v, MerkleAccumulator.v, MerkleTree.v: arbos/merkleAccumulator and
      util/merkletree. The accumulator and the tree have the root of a reference
      definition; a proof binds to its leaf unless two different inputs on its
      path and on the path in the tree have the same keccak hash; trees survive
      summaries and serialization.
    - L2Pricing.v: arbos/l2pricing. The base fee after an update, in closed form.
    - Transfer.v, BatchPoster.v, L1Pricing.v, L1PricingFacts.v:
      arbos/util/transfer.go and arbos/l1pricing. A settlement with a batch poster
      in full, and that it pays out no more than the fees that were collected.
    - Retryables.v, RetryablesFacts.v: arbos/retryables. The timeout queue holds
      every ticket as often as its windows ask for, across all operations; expired
      tickets are reaped, deleted ones leave nothing behind.
    - MemoryModel.v, DataPricer.v, StylusParams.v, Programs.v, ProgramsFacts.v:
      arbos/programs. Activation, expiry, keepalive, caching and calls of
      programs, and what they cost.
    - ArbosState.v, InternalTx.v: arbos/arbosState/arbosstate.go and
      arbos/internal_tx.go, which compose the components. What an upgrade of
      ArbOS changes, when it is applied, and what a batch posting report does.
    - TxProcessor.v, TxProcessorFacts.v, TxFees.v, TxRetryables.v, TxRedeem.v:
      arbos/tx_processor.go, the hooks around a transaction, on top of all of
      these. What a transaction pays for its calldata and its gas, and who gets
      it; what the submission of a retryable pays, refunds, creates and
      announces; how its redeem is scheduled and settled, also when an account
      that should give a refund has no funds.
    - Readers.v, IncomingMessage.v, ParseL2.v: the readers of arbos/util/util.go,
      arbos/arbostypes and arbos/parse_l2.go, with the sequencer's
      [messageFromTxes]. A serialized message is parsed back; a message of
      transactions gives exactly the transactions it holds, nested batches
      included; a batch posting report reaches the L1 pricer.
    - Zeroheavy.v: zeroheavy. The coding is reversible and its decoder ends on
      every input.
    - Inbox.v, InboxFacts.v: arbstate/inbox.go. The multiplexer delivers the
      messages of a batch in order, and its cache is not observable.
    - Bls.v, DasTree.v, DasReader.v: blsSignatures, das/dastree and
      arbstate/das_reader.go. A certificate that enough members signed gives its
      payload; a payload has the certified hash; what the node recorded is what
      the replay binary recovers.
    - Blobs.v: util/blobs. Blobs decode to what was encoded.
    - InboxBackends.v: arbnode/sequencer_inbox.go, the backend of
      arbnode/inbox_tracker.go and cmd/replay/main.go. The replay binary reads the
      messages that the node read.
    - BatchSegments.v, BatchPosting.v: arbnode/batch_poster.go. The bytes of a
      batch are read back as the messages added to it; what a poster posts over
      any number of polls are the messages of its stream, each once and in order;
      a batch with the maximum number of segments is stuck whatever is tried.
    - BlockProcessor.v, BlockFacts.v: arbos/block_processor.go, the production of
      a block. The loop over transactions and redeems ends; the block includes the
      transactions that are reported without an error, fits in its gas limit and
      creates no ether.
    - SequencedBlock.v: the block of the sequencer is the block that every node
      makes of its message, with [messageFromTxes] and the parser in between.
    - BlockRecorder.v: execution/gethexec/block_recorder.go. The references on
      states are those that the recorder holds.
    - Backlog.v, BacklogFacts.v: broadcaster/backlog and broadcaster/message. The
      backlog of the feed is the window of the messages that are not confirmed.
    - ConnectionLimiter.v, FeedClients.v, FeedCatchup.v: wsbroadcastserver and
      broadcaster/broadcaster.go. The counts of the limiter are exact; a client
      that connects while messages are appended misses none of them; what breaks
      when a confirmation comes in between.

    ** Loops

    A loop over a counter or a list is structural. The other loops have fuel:
    the halving of [ApproxSquareRoot] 64 rounds, one per bit
    ([sqrt_halve_enough_fuel]); an upgrade of ArbOS 21, one more than there are
    versions ([UpgradeArbosVersion_loop_refines]); the readers of trees and of
    zero-heavy data the bytes that are left, since every round takes one
    ([FromReader_loop_serialize], [nextBit_loop_spec]); the halving and doubling
    of tree capacities the binary logarithm ([trep_empty_append],
    [FromAccumulator_pad_hash]). Nested batches of L2 messages have the 16 levels
    of the code, the messages of one the bytes that are left, since each takes
    eight ([ParseL2Transactions_total]); the segments of a batch one more than
    the maximum; the layers of a data availability tree its number of leaves,
    reading it back the size at its root ([Content_of_recorded]); the blobs of
    a batch its bytes ([blobs_roundtrip]); adding messages to a batch the
    messages that there are; the production of a block as many turns as the gas
    of its transactions pays for ([processTxes_loop]); reading the backlog and
    sending it to a client the number of segments ever made ([Get_within],
    [writeBacklog_from]). The cited lemmas prove that the result is reached with
    that fuel. The preparation of headers for recording runs over the range that
    is left, which is less than all 64-bit numbers.

    ** Assumptions of the properties

    Keccak does not collide on the storage pages in use ([collision_free],
    [spaces_ok]); a burner affords the gas a property names; counters and
    amounts stay below the bounds a property states. Every property has a
    witness that meets its hypotheses in the environment of MemEnv.v.

    ** What is not modelled

    The execution of transactions by go-ethereum and its databases; the
    precompiles, thin wrappers of the components found by reflection; the
    databases, threads and services of the node, the sequencer, the committee and
    staking, and the network of the feed, which are I/O and concurrency;
    the Rust prover and runtime. Tracing and logging have no effect on the
    modelled state and are left out, and so is the cache of storage key hashes,
    which returns what keccak returns. *)
From Stdlib Require Import ZArith Lia String List.
From stdpp Require Import base list numbers.
Open Scope Z_scope.

(** ** Go machine integers

    A [w]-bit Go integer is a [Z]; every arithmetic operator of the source is
    the operator of [Z] followed by the wrap-around of its type. *)

(** The value of [z] converted to an unsigned [w]-bit type. *)
Definition uwrap (w z : Z) : Z := z mod 2 ^ w.

(** The value of [z] converted to a signed (two's complement) [w]-bit type. *)
Definition swrap (w z : Z) : Z := (z + 2 ^ (w - 1)) mod 2 ^ w - 2 ^ (w - 1).

Definition in_u (w z : Z) : Prop := 0 <= z < 2 ^ w.
Definition in_s (w z : Z) : Prop := - 2 ^ (w - 1) <= z < 2 ^ (w - 1).

Declare Scope go_scope.
Delimit Scope go_scope with go.
Notation u64 := (uwrap 64).
Notation i64 := (swrap 64).
Notation "x +u64 y" := (uwrap 64 (x + y)) (at level 50, left associativity) : go_scope.
Notation "x -u64 y" := (uwrap 64 (x - y)) (at level 50, left associativity) : go_scope.
Notation "x *u64 y" := (uwrap 64 (x * y)) (at level 40, left associativity) : go_scope.
Open Scope go_scope.

Lemma pow2_pos w : 0 <= w -> 0 < 2 ^ w.
Proof. intros. apply Z.pow_pos_nonneg; lia. Qed.

Lemma pow2_double w : 0 < w -> 2 ^ w = 2 * 2 ^ (w - 1).
Proof. intros. rewrite <- Z.pow_succ_r by lia. f_equal. lia. Qed.

Lemma uwrap_range w z : 0 <= w -> in_u w (uwrap w z).
Proof. intros. apply Z.mod_pos_bound, pow2_pos; lia. Qed.

Lemma uwrap_id w z : in_u w z -> uwrap w z = z.
Proof. intros. apply Z.mod_small. exact H. Qed.

Lemma swrap_range w z : 0 < w -> in_s w (swrap w z).
Proof.
  intros. unfold in_s, swrap.
  pose proof (Z.mod_pos_bound (z + 2 ^ (w - 1)) (2 ^ w) (pow2_pos w ltac:(lia))).
  rewrite (pow2_double w) in * by lia. lia.
Qed.

Lemma swrap_id w z : 0 < w -> in_s w z -> swrap w z = z.
Proof.
  intros Hw [H1 H2]. unfold swrap. rewrite Z.mod_small; [lia|].
  rewrite (pow2_double w) by lia. lia.
Qed.

Lemma uwrap_eqm w z : 0 <= w -> exists k, uwrap w z = z + k * 2 ^ w.
Proof.
  intros. exists (- (z / 2 ^ w)). unfold uwrap.
  pose proof (Z.div_mod z (2 ^ w) ltac:(pose proof (pow2_pos w); lia)). lia.
Qed.

Lemma swrap_eqm w z : 0 < w -> exists k, swrap w z = z + k * 2 ^ w.
Proof.
  intros. exists (- ((z + 2 ^ (w - 1)) / 2 ^ w)). unfold swrap.
  pose proof (Z.div_mod (z + 2 ^ (w - 1)) (2 ^ w) ltac:(pose proof (pow2_pos w); lia)). lia.
Qed.

(** Case analysis on the number of wraps of a sum or difference of two words. *)
Lemma uwrap_add_cases w a b :
  0 <= w -> in_u w a -> in_u w b ->
  (a + b < 2 ^ w /\ uwrap w (a + b) = a + b) \/
  (2 ^ w <= a + b /\ uwrap w (a + b) = a + b - 2 ^ w).
Proof.
  unfold in_u. intros Hw Ha Hb. destruct (Z_lt_ge_dec (a + b) (2 ^ w)) as [Hlt|Hge].
  - left. split; [lia|]. apply uwrap_id. unfold in_u. lia.
  - right. split; [lia|]. unfold uwrap.
    symmetry. apply (Z.mod_unique_pos _ _ 1); lia.
Qed.

Lemma uwrap_sub_cases w a b :
  0 <= w -> in_u w a -> in_u w b ->
  (b <= a /\ uwrap w (a - b) = a - b) \/
  (a < b /\ uwrap w (a - b) = a - b + 2 ^ w).
Proof.
  unfold in_u. intros Hw Ha Hb. destruct (Z_lt_ge_dec a b) as [Hlt|Hge].
  - right. split; [lia|]. unfold uwrap.
    symmetry. apply (Z.mod_unique_pos _ _ (-1)); lia.
  - left. split; [lia|]. apply uwrap_id. unfold in_u. lia.
Qed.

Lemma swrap_add_cases w a b :
  0 < w -> in_s w a -> in_s w b ->
  (in_s w (a + b) /\ swrap w (a + b) = a + b) \/
  (2 ^ (w - 1) <= a + b /\ swrap w (a + b) = a + b - 2 ^ w) \/
  (a + b < - 2 ^ (w - 1) /\ swrap w (a + b) = a + b + 2 ^ w).
Proof.
  unfold in_s. intros Hw Ha Hb. pose proof (pow2_double w Hw).
  destruct (Z_lt_ge_dec (a + b) (2 ^ (w - 1))); [destruct (Z_lt_ge_dec (a + b) (- 2 ^ (w - 1)))|].
  - right; right. split; [lia|]. unfold swrap.
    assert ((a + b + 2 ^ (w - 1)) mod 2 ^ w = a + b + 2 ^ (w - 1) + 2 ^ w) as ->; [|lia].
    symmetry. apply (Z.mod_unique_pos _ _ (-1)); lia.
  - left. split; [lia|]. apply swrap_id; unfold in_s; lia.
  - right; left. split; [lia|]. unfold swrap.
    assert ((a + b + 2 ^ (w - 1)) mod 2 ^ w = a + b + 2 ^ (w - 1) - 2 ^ w) as ->; [|lia].
    symmetry. apply (Z.mod_unique_pos _ _ 1); lia.
Qed.

(** Reinterpreting a word under the other signedness and back (Go's
    conversions between [int64] and [uint64] keep the bits). *)
Lemma swrap_uwrap w z : 0 < w -> in_s w z -> swrap w (uwrap w z) = z.
Proof.
  intros Hw Hz. unfold swrap, uwrap.
  rewrite Z.add_mod_idemp_l by (pose proof (pow2_pos w); lia).
  pose proof (swrap_id w z Hw Hz) as Hid. exact Hid.
Qed.

Lemma uwrap_swrap w z : 0 < w -> in_u w z -> uwrap w (swrap w z) = z.
Proof.
  intros Hw Hz. destruct (swrap_eqm w z Hw) as [k ->].
  unfold uwrap. rewrite Z.mod_add by (pose proof (pow2_pos w); lia). apply Z.mod_small, Hz.
Qed.

Lemma uwrap_uwrap_le w1 w2 z : 0 <= w1 <= w2 -> uwrap w1 (uwrap w2 z) = uwrap w1 z.
Proof.
  intros. unfold uwrap. apply Z.mod_mod_divide.
  exists (2 ^ (w2 - w1)). rewrite <- Z.pow_add_r by lia. f_equal. lia.
Qed.

(** ** Bytes, big-endian

    A byte slice is a list of [Z] in [0, 256). *)

Fixpoint be_acc (acc : Z) (l : list Z) : Z :=
  match l with
  | [] => acc
  | b :: l => be_acc (acc * 256 + b) l
  end.

(** The number a byte slice denotes, most significant byte first. *)
Definition be (l : list Z) : Z := be_acc 0 l.

(** The [n] low bytes of [z], most significant first. *)
Fixpoint be_bytes (n : nat) (z : Z) : list Z :=
  match n with
  | O => []
  | S n => be_bytes n (z / 256) ++ [z mod 256]
  end.

Lemma be_bytes_S n z : be_bytes (S n) z = be_bytes n (z / 256) ++ [z mod 256].
Proof. reflexivity. Qed.

Definition is_byte (b : Z) : Prop := 0 <= b < 256.

Lemma be_acc_app acc l1 l2 : be_acc acc (l1 ++ l2) = be_acc (be_acc acc l1) l2.
Proof. revert acc. induction l1; intros; simpl; auto. Qed.

Lemma be_acc_shift acc l : be_acc acc l = acc * 256 ^ Z.of_nat (length l) + be_acc 0 l.
Proof.
  revert acc. induction l as [|b l IH]; intros acc; cbn [be_acc length].
  - rewrite Z.pow_0_r. lia.
  - rewrite IH, (IH (0 * 256 + b)), Nat2Z.inj_succ, Z.pow_succ_r by lia. lia.
Qed.

Lemma be_acc_be acc l : be_acc acc l = acc * 256 ^ Z.of_nat (length l) + be l.
Proof. apply be_acc_shift. Qed.

Lemma be_snoc l b : be (l ++ [b]) = be l * 256 + b.
Proof. unfold be. rewrite be_acc_app. reflexivity. Qed.

Lemma be_app l1 l2 : be (l1 ++ l2) = be l1 * 256 ^ Z.of_nat (length l2) + be l2.
Proof. unfold be. rewrite be_acc_app. apply be_acc_shift. Qed.

Lemma length_be_bytes n z : length (be_bytes n z) = n.
Proof. revert z. induction n; intros; cbn; auto. rewrite length_app, IHn. cbn. lia. Qed.

Lemma be_bytes_is_byte n z : Forall is_byte (be_bytes n z).
Proof.
  revert z. induction n; intros; cbn; [constructor|].
  apply Forall_app. split; [apply IHn|]. constructor; [|constructor].
  apply Z.mod_pos_bound. lia.
Qed.

Lemma be_be_bytes n z : be (be_bytes n z) = z mod 256 ^ Z.of_nat n.
Proof.
  revert z. induction n; intros z; cbn [be_bytes].
  - cbn. rewrite Z.mod_1_r. reflexivity.
  - rewrite be_snoc, IHn, Nat2Z.inj_succ, Z.pow_succ_r by lia.
    rewrite Z.rem_mul_r by (try apply Z.pow_nonzero; lia). lia.
Qed.

Lemma be_range l : Forall is_byte l -> 0 <= be l < 256 ^ Z.of_nat (length l).
Proof.
  induction l as [|b l IH] using rev_ind; intros H.
  - cbn. lia.
  - apply Forall_app in H as [H1 H2]. inversion H2; subst. unfold is_byte in *.
    rewrite be_snoc, length_app, Nat2Z.inj_add, Z.pow_add_r by lia. specialize (IH H1).
    change (256 ^ Z.of_nat (length [b])) with 256. lia.
Qed.

Lemma be_bytes_be l n : length l = n -> Forall is_byte l -> be_bytes n (be l) = l.
Proof.
  intros <-. induction l as [|b l IH] using rev_ind; intros H; [reflexivity|].
  apply Forall_app in H as [H1 H2]. inversion H2; subst. unfold is_byte in *.
  rewrite length_app, Nat.add_comm. cbn [length Nat.add be_bytes]. rewrite be_snoc.
  rewrite Z.div_add_l, (Z.div_small b) by lia. rewrite Z.add_0_r, IH by auto.
  rewrite Z.add_comm, Z.mod_add, Z.mod_small by lia. reflexivity.
Qed.

Lemma be_bytes_inj n x y :
  0 <= x < 256 ^ Z.of_nat n -> 0 <= y < 256 ^ Z.of_nat n ->
  be_bytes n x = be_bytes n y -> x = y.
Proof.
  intros Hx Hy H. apply (f_equal be) in H. rewrite !be_be_bytes in H.
  rewrite !Z.mod_small in H by lia. exact H.
Qed.

(** The bytes of a Go string. *)
Definition bytes_of_string (s : string) : list Z :=
  map (fun c => Z.of_N (Ascii.N_of_ascii c)) (list_ascii_of_string s).

(** ** Outcomes of a Go call

    A Go function of the modelled code returns, returns a non-nil [error], or
    panics. *)

Inductive error : Type :=
| ErrOutOfGas
| ErrWriteProtection
| ErrInsufficientBalance
| ErrInsufficientFunds
| ErrInvalidTime
| ErrAlreadyExists
| ErrNotExist
| ErrExecutionReverted
| ErrDepth
| ErrSolidity (name : string) (args : list Z)   (* a Solidity custom error *)
| ErrNew (msg : string)
| ErrWrap (msg : string) (e : error).              (* fmt.Errorf("msg: %w", e) *)

Inductive outcome (A : Type) : Type :=
| Ok (a : A)
| Err (e : error)
| Panic (msg : string).
Arguments Ok {A} _.
Arguments Err {A} _.
Arguments Panic {A} _.

Definition obind {A B} (m : outcome A) (k : A -> outcome B) : outcome B :=
  match m with
  | Ok a => k a
  | Err e => Err e
  | Panic s => Panic s
  end.

Notation "'let?' x := m 'in' k" := (obind m (fun x => k))
  (at level 10, x pattern, m at level 100, k at level 200) : go_scope.

(** An operation on a state [s] that may fail; the state is kept on an error. *)
Notation "'let^' ( x , s ) := m 'in' k" :=
  (match m with
   | (Ok x, s) => k
   | (Err e, s) => (Err e, s)
   | (Panic msg, s) => (Panic msg, s)
   end) (at level 10, x name, s name, m at level 100, k at level 200) : go_scope.

(** The result is a value or an error. *)
Definition no_panic {A} (o : outcome A) : Prop := match o with Panic _ => False | _ => True end.

Lemma no_panic_bind {A B} (m : outcome A) (k : A -> outcome B) :
  no_panic m -> (forall a, no_panic (k a)) -> no_panic (obind m k).
Proof. destruct m; cbn; auto. Qed.

(** Integer division of Go: a zero divisor panics. *)
Definition go_div (x y : Z) : outcome Z :=
  if y =? 0 then Panic "integer divide by zero" else Ok (x / y).

(** Division of signed [w]-bit integers truncates towards zero and wraps. *)
Definition go_quot (w x y : Z) : outcome Z :=
  if y =? 0 then Panic "integer divide by zero" else Ok (swrap w (Z.quot x y)).

(** [big.Int.Div]: Euclidean division, a zero divisor panics. *)
Definition big_div (x y : Z) : outcome Z :=
  if y =? 0 then Panic "division by zero" else Ok (Z.sgn y * (x / Z.abs y)).

Lemma go_div_ok x y : y <> 0 -> go_div x y = Ok (x / y).
Proof. intros. unfold go_div. destruct (Z.eqb_spec y 0); [lia|reflexivity]. Qed.

Lemma go_quot_ok w x y : y <> 0 -> go_quot w x y = Ok (swrap w (Z.quot x y)).
Proof. intros. unfold go_quot. destruct (Z.eqb_spec y 0); [lia|reflexivity]. Qed.

Lemma big_div_pos x y : 0 < y -> big_div x y = Ok (x / y).
Proof.
  intros. unfold big_div. destruct (Z.eqb_spec y 0); [lia|].
  rewrite Z.sgn_pos, Z.abs_eq by lia. f_equal. lia.
Qed.

(** ** Tactics and hints *)

Create HintDb go discriminated.

Lemma u64_range z : in_u 64 (u64 z).
Proof. apply uwrap_range. lia. Qed.

Lemma i64_range z : in_s 64 (i64 z).
Proof. apply swrap_range. lia. Qed.

#[export] Hint Resolve u64_range i64_range : go.

(** Case analysis on every boolean comparison of [Z] in the goal. *)
Ltac zbool :=
  repeat match goal with
    | |- context [?a =? ?b] => destruct (Z.eqb_spec a b)
    | |- context [?a <=? ?b] => destruct (Z.leb_spec a b)
    | |- context [?a <? ?b] => destruct (Z.ltb_spec a b)
    | |- context [?a >=? ?b] => rewrite (Z.geb_leb a b)
    | |- context [?a >? ?b] => rewrite (Z.gtb_ltb a b)
    end.
