(* ===== verification/Arbmath.v ===== *)
(** * util/arbmath: saturating arithmetic, basis points, bit and byte helpers

    Models util/arbmath/math.go, bips.go, bits.go, uint24.go, time.go and
    moving_average.go. A function that is generic over [Signed] or [Unsigned]
    takes the width [w] of its type argument. The floating-point helpers are
    not modelled. *)
From Stdlib Require Import ZArith Lia String List.
From stdpp Require Import base list numbers.
From S2P Require Import Prelude.
Open Scope Z_scope.

(** ** math.go *)

(** [bits.Len64]: the number of bits of a 64-bit word. *)
Definition bits_Len64 (value : Z) : Z := if value =? 0 then 0 else Z.log2 value + 1.

Definition LeadingZeros64 (value : Z) : Z := 64 - bits_Len64 value.

Definition Log2ceil (value : Z) : Z := u64 (64 - LeadingZeros64 value).

Definition NextPowerOf2 (value : Z) : Z := u64 (Z.shiftl 1 (Log2ceil value)).

Definition NextOrCurrentPowerOf2 (value : Z) : Z :=
  let power := NextPowerOf2 value in
  if power =? 2 *u64 value then power / 2 else power.

Definition MinInt (value ceiling : Z) : Z :=
  if ceiling <? value then ceiling else value.

Definition MaxInt_loop (max : Z) (values : list Z) : Z :=
  fold_left (fun max value => if max <? value then value else max) values max.

Definition MaxInt (values : list Z) : outcome Z :=
  match values with
  | [] => Panic "index out of range [0] with length 0"
  | v :: rest => Ok (MaxInt_loop v rest)
  end.

(** [MaxInt] at the two-argument calls of the code. *)
Definition MaxInt2 (a b : Z) : Z := MaxInt_loop a [b].


Definition MaxUint64 : Z := 2 ^ 64 - 1.

Definition IsUint64 (value : Z) : bool := (0 <=? value) && (value <? 2 ^ 64).

Definition UintToBig (value : Z) : Z := value.

Definition BigToUintSaturating (value : Z) : Z :=
  if value <? 0 then 0
  else if negb (IsUint64 value) then MaxUint64
  else u64 value.

Definition BigEquals (first second : Z) : bool := first =? second.
Definition BigLessThan (first second : Z) : bool := first <? second.

Definition BigAdd (augend addend : Z) : Z := augend + addend.
Definition BigSub (minuend subtrahend : Z) : Z := minuend - subtrahend.
Definition BigMul (multiplicand multiplier : Z) : Z := multiplicand * multiplier.
Definition BigDiv (dividend divisor : Z) : outcome Z := big_div dividend divisor.
Definition BigAddByUint (augend addend : Z) : Z := augend + UintToBig addend.

Definition BigMin (first second : Z) : Z := if BigLessThan first second then first else second.

Definition BigMulByFrac (value numerator denominator : Z) : outcome Z :=
  big_div (value * numerator) denominator.

Definition BigMulByUint (multiplicand multiplier : Z) : Z := multiplicand * multiplier.
Definition BigDivByUint (dividend divisor : Z) : outcome Z := BigDiv dividend (UintToBig divisor).

(** [^T(0)] of an unsigned type, [^T(0) >> 1] and [(^T(0) >> 1) + 1] of a
    signed one. In a signed type [^T(0)] is [-1] and its arithmetic shift is
    [-1] again. *)
Definition UMax (w : Z) : Z := uwrap w (Z.lnot 0).
Definition notT (w : Z) : Z := swrap w (Z.lnot 0).
Definition notT_shr1 (w : Z) : Z := swrap w (Z.shiftr (notT w) 1).
Definition notT_shr1_add1 (w : Z) : Z := swrap w (notT_shr1 w + 1).

Definition SaturatingAdd (w a b : Z) : Z :=
  let sum := swrap w (a + b) in
  let sum := if (0 <? b) && (sum <? a) then notT_shr1 w else sum in
  let sum := if (b <? 0) && (a <? sum) then notT_shr1_add1 w else sum in
  sum.

Definition SaturatingUAdd (w a b : Z) : Z :=
  let sum := uwrap w (a + b) in
  if (sum <? a) || (sum <? b) then UMax w else sum.

Definition SaturatingSub (minuend subtrahend : Z) : Z :=
  SaturatingAdd 64 minuend (i64 (- subtrahend)).

Definition SaturatingUSub (w a b : Z) : Z :=
  if a <=? b then 0 else uwrap w (a - b).

Definition SaturatingUMul (w a b : Z) : Z :=
  let product := uwrap w (a * b) in
  if negb (b =? 0) && negb (product / b =? a) then UMax w else product.

(** The quotient is evaluated only when [b] is not zero, as [&&] does. *)
Definition SaturatingMul (w a b : Z) : Z :=
  let product := swrap w (a * b) in
  if negb (b =? 0) && negb (swrap w (Z.quot product b) =? a) then
    if ((0 <? a) && (0 <? b)) || ((a <? 0) && (b <? 0))
    then notT_shr1 w
    else notT_shr1_add1 w
  else product.

(** [SaturatingCast[S, T]] from an unsigned [wT]-bit to a signed [wS]-bit type. *)
Definition SaturatingCast (wS wT value : Z) : Z :=
  let tBig := wS <=? wT in
  let sMax := Z.shiftr (uwrap wT (uwrap wT (Z.shiftl 1 wS) - 1)) 1 in
  if tBig && (sMax <? value) then swrap wS sMax else swrap wS value.

(** [SaturatingUCast[T, S]] from a signed [wS]-bit to an unsigned [wT]-bit type. *)
Definition SaturatingUCast (wT wS value : Z) : Z :=
  if value <=? 0 then 0
  else
    let tSmall := wT <? wS in
    if tSmall && (swrap wS (UMax wT) <=? value) then UMax wT else uwrap wT value.

(** [SaturatingUUCast[U, T]] from an unsigned [wT]-bit to an unsigned [wU]-bit type. *)
Definition SaturatingUUCast (wU wT value : Z) : Z :=
  let tBig := wU <? wT in
  if tBig && (uwrap wT (UMax wU) <? value) then UMax wU else uwrap wU value.

Definition SaturatingNeg (w value : Z) : Z :=
  if value =? notT w then notT_shr1 w else swrap w (- value).

Definition DivCeil (w value divisor : Z) : outcome Z :=
  if divisor =? 0 then Panic "integer divide by zero"
  else if value mod divisor =? 0 then Ok (value / divisor)
  else Ok (uwrap w (value / divisor + 1)).

(** ** bips.go *)

Definition OneInBips : Z := 10000.
Definition OneInUBips : Z := 10000.

Definition NaturalToBips (natural : Z) : Z := SaturatingMul 64 natural OneInBips.

Definition BigMulByBips (value bips : Z) : outcome Z := BigMulByFrac value bips OneInBips.

Definition UintMulByBips (value bips : Z) : Z := (value *u64 (u64 bips)) / (u64 OneInBips).
Definition SaturatingCastToBips (value : Z) : Z := SaturatingCast 64 64 value.
Definition Bips_Uint64 (bips : Z) : Z := u64 bips.

(** The Horner loop of [ApproxExpBasisPoints], [n] iterations from index [i]. *)
Fixpoint ApproxExp_loop (n : nat) (i degree x res : Z) : outcome Z :=
  match n with
  | O => Ok res
  | S n =>
      let? q := go_div (SaturatingUMul 64 res x) ((degree -u64 i) *u64 OneInBips) in
      ApproxExp_loop n (i + 1) degree x (OneInBips +u64 q)
  end.

Definition ApproxExpBasisPoints (value degree : Z) : outcome Z :=
  let negative := value <? 0 in
  let input := if negative then i64 (- value) else value in
  let x := u64 input in
  let bips := u64 OneInBips in
  let? q := go_div x degree in
  let? res := ApproxExp_loop (Z.to_nat (degree - 1)) 1 degree x (bips +u64 q) in
  if negative then
    let? q := go_div (bips *u64 bips) res in
    Ok (SaturatingCast 64 64 q)
  else Ok (SaturatingCast 64 64 res).

(** The halving loop of [ApproxSquareRoot]; a 64-bit word is halved at most 64
    times, so [64] rounds of fuel are enough ([sqrt_halve_enough_fuel]). *)
Fixpoint sqrt_halve (fuel : nat) (value approx : Z) : Z :=
  match fuel with
  | O => approx
  | S fuel =>
      if value <? SaturatingUMul 64 approx approx / 2
      then sqrt_halve fuel value (approx / 2)
      else approx
  end.

Definition sqrt_newton (value approx : Z) : outcome Z :=
  let? q := go_div value approx in
  if q <? approx
  then Ok (SaturatingUAdd 64 q ((approx -u64 q) / 2))
  else Ok (SaturatingUAdd 64 approx ((q -u64 approx) / 2)).

Definition ApproxSquareRoot (value : Z) : outcome Z :=
  if value =? 0 then Ok 0
  else
    let approx := sqrt_halve 64 value value in
    let? approx := sqrt_newton value approx in
    let? approx := sqrt_newton value approx in
    let? approx := sqrt_newton value approx in
    sqrt_newton value approx.

(** ** time.go *)

Definition DaysToSeconds (days : Z) : Z := ((days *u64 24) *u64 60) *u64 60.

(** ** bits.go *)

Definition ConcatByteSlices (slices : list (list Z)) : list Z :=
  fold_left (fun unrolled slice => unrolled ++ slice) slices [].

Definition WordsForBytes (nbytes : Z) : Z := (nbytes +u64 31) / 32.

(** go-ethereum's [math.U256Bytes]: the low 256 bits in 32 bytes. *)
Definition U256Bytes (n : Z) : list Z := be_bytes 32 n.

Definition UintToBytes (value : Z) : list Z := be_bytes 8 value.
Definition Uint32ToBytes (value : Z) : list Z := be_bytes 4 value.
Definition Uint16ToBytes (value : Z) : list Z := be_bytes 2 value.
Definition Uint8ToBytes (value : Z) : list Z := [value].
Definition BoolToBytes (value : bool) : list Z :=
  if value then Uint8ToBytes 1 else Uint8ToBytes 0.

(** [binary.BigEndian.UintN] reads the first bytes of the slice and panics
    when there are fewer. *)
Definition BigEndian_read (n : nat) (value : list Z) : outcome Z :=
  if Nat.leb n (length value) then Ok (be (take n value))
  else Panic "index out of range".

Definition BytesToUint (value : list Z) : outcome Z := BigEndian_read 8 value.
Definition BytesToUint32 (value : list Z) : outcome Z := BigEndian_read 4 value.
Definition BytesToUint16 (value : list Z) : outcome Z := BigEndian_read 2 value.
Definition BytesToUint8 (value : list Z) : outcome Z :=
  match value with
  | [] => Panic "index out of range [0] with length 0"
  | b :: _ => Ok b
  end.
Definition BytesToBool (value : list Z) : outcome bool :=
  match value with
  | [] => Panic "index out of range [0] with length 0"
  | b :: _ => Ok (negb (b =? 0))
  end.

(** The bit of a 256-bit word that is [bit] places from the left:
    [data[bit/8] ^= 1 << (7 - bit%8)], where byte 0 is the highest. *)
Definition FlipBit (data bit : Z) : Z :=
  Z.lxor data (Z.shiftl 1 (8 * (31 - bit / 8) + (7 - bit mod 8))).

Definition BoolToUint32 (value : bool) : Z := if value then 1 else 0.

(** ** uint24.go *)

Definition MaxUint24 : Z := 2 ^ 24 - 1.

(** [IntToUint24] returns the clipped value together with the error. *)
Definition IntToUint24 (value : Z) : Z * option error :=
  if MaxUint24 <? value then (MaxUint24, Some (ErrNew "value out of range"))
  else (uwrap 32 value, None).

Definition BytesToUint24 (value : list Z) : outcome Z :=
  BigEndian_read 4 (ConcatByteSlices [[0]; value]).

Definition Uint24ToBytes (value : Z) : list Z := drop 1 (be_bytes 4 value).

(** ** moving_average.go, at an unsigned type of [w] bits *)

Record MovingAverage := mkMovingAverage {
  ma_buffer : list Z;
  ma_period : nat;            (* the capacity of the buffer *)
  ma_bufferPosition : nat;
  ma_sum : Z
}.

Definition NewMovingAverage (period : Z) : outcome MovingAverage :=
  if period <=? 0
  then Err (ErrNew "MovingAverage period must be positive")
  else Ok (mkMovingAverage [] (Z.to_nat period) 0 0).

Definition MovingAverage_Update (w : Z) (a : MovingAverage) (value : Z) : outcome MovingAverage :=
  let period := ma_period a in
  if Nat.eqb period 0 then Ok a
  else if Nat.ltb (length (ma_buffer a)) period then
    Ok (mkMovingAverage (ma_buffer a ++ [value]) period (ma_bufferPosition a)
          (uwrap w (ma_sum a + value)))
  else
    match ma_buffer a !! ma_bufferPosition a with
    | None => Panic "index out of range"
    | Some old =>
        let sum := uwrap w (ma_sum a + value) in
        let sum := uwrap w (sum - old) in
        Ok (mkMovingAverage (<[ma_bufferPosition a := value]> (ma_buffer a)) period
              ((ma_bufferPosition a + 1) mod period)%nat sum)
    end.

Definition MovingAverage_Average (a : MovingAverage) : Z :=
  if Nat.eqb (length (ma_buffer a)) 0 then 0
  else ma_sum a / Z.of_nat (length (ma_buffer a)).

(** ** Behaviour of the saturating operations *)

Lemma UMax_eq w : 0 <= w -> UMax w = 2 ^ w - 1.
Proof.
  intros. unfold UMax, uwrap. change (Z.lnot 0) with (-1).
  pose proof (pow2_pos w H). symmetry. apply (Z.mod_unique_pos _ _ (-1)); lia.
Qed.

Lemma notT_eq w : 0 < w -> notT w = -1.
Proof.
  intros. apply swrap_id; [lia|]. change (Z.lnot 0) with (-1).
  unfold in_s. pose proof (pow2_pos (w - 1)). lia.
Qed.

Lemma notT_shr1_eq w : 0 < w -> notT_shr1 w = -1.
Proof.
  intros. unfold notT_shr1. rewrite notT_eq by lia. change (Z.shiftr (-1) 1) with (-1).
  apply swrap_id; [lia|]. unfold in_s. pose proof (pow2_pos (w - 1)). lia.
Qed.

Lemma notT_shr1_add1_eq w : 0 < w -> notT_shr1_add1 w = 0.
Proof.
  intros. unfold notT_shr1_add1. rewrite notT_shr1_eq by lia.
  apply swrap_id; [lia|]. unfold in_s. pose proof (pow2_pos (w - 1)). lia.
Qed.

Lemma BigMin_min a b : BigMin a b = Z.min a b.
Proof. unfold BigMin, BigLessThan. destruct (Z.ltb_spec a b); lia. Qed.

Lemma IsUint64_true v : in_u 64 v -> IsUint64 v = true.
Proof. unfold IsUint64, in_u. intros. apply andb_true_intro. lia. Qed.

Lemma IsUint64_spec v : BoolSpec (in_u 64 v) (~ in_u 64 v) (IsUint64 v).
Proof.
  unfold IsUint64, in_u. destruct (Z.leb_spec 0 v), (Z.ltb_spec v (2 ^ 64)); constructor; lia.
Qed.

Lemma SaturatingUAdd_min w a b :
  0 <= w -> in_u w a -> in_u w b -> SaturatingUAdd w a b = Z.min (a + b) (2 ^ w - 1).
Proof.
  intros Hw Ha Hb. unfold SaturatingUAdd. rewrite UMax_eq by lia.
  destruct (uwrap_add_cases w a b Hw Ha Hb) as [[? ->]|[? ->]];
    unfold in_u in *; zbool; simpl; lia.
Qed.

Lemma SaturatingUSub_max w a b :
  0 <= w -> in_u w a -> in_u w b -> SaturatingUSub w a b = Z.max 0 (a - b).
Proof.
  intros Hw Ha Hb. unfold SaturatingUSub. zbool; [lia|].
  rewrite uwrap_id; unfold in_u in *; lia.
Qed.

Lemma SaturatingUMul_min w a b :
  0 <= w -> in_u w a -> in_u w b -> SaturatingUMul w a b = Z.min (a * b) (2 ^ w - 1).
Proof.
  intros Hw Ha Hb. unfold SaturatingUMul. rewrite UMax_eq by lia.
  unfold in_u in *. destruct (Z.eqb_spec b 0) as [->|Hb0]; simpl.
  - rewrite Z.mul_0_r, uwrap_id; unfold in_u; pose proof (pow2_pos w); lia.
  - destruct (Z_lt_ge_dec (a * b) (2 ^ w)) as [Hlt|Hge].
    + rewrite uwrap_id by (unfold in_u; nia). rewrite Z.div_mul by lia.
      rewrite Z.eqb_refl. simpl. lia.
    + destruct (uwrap_range w (a * b) Hw) as [Hlo Hhi].
      assert (uwrap w (a * b) / b < a) by (apply Z.div_lt_upper_bound; nia).
      zbool; simpl; lia.
Qed.

Lemma SaturatingUUCast_min wU wT v :
  0 <= wU -> 0 <= wT -> in_u wT v -> SaturatingUUCast wU wT v = Z.min v (2 ^ wU - 1).
Proof.
  intros HU HT Hv. unfold SaturatingUUCast. rewrite UMax_eq by lia. unfold in_u in *.
  pose proof (pow2_pos wU HU). destruct (Z.ltb_spec wU wT) as [Hlt|Hge].
  - assert (2 ^ wU <= 2 ^ wT) by (apply Z.pow_le_mono_r; lia).
    rewrite (uwrap_id wT) by (unfold in_u; lia). zbool; simpl; [lia|].
    rewrite uwrap_id; unfold in_u; lia.
  - simpl. assert (2 ^ wT <= 2 ^ wU) by (apply Z.pow_le_mono_r; lia).
    rewrite uwrap_id; unfold in_u; lia.
Qed.

Lemma SaturatingCast_min w v :
  0 < w -> in_u w v -> SaturatingCast w w v = Z.min v (2 ^ (w - 1) - 1).
Proof.
  intros Hw Hv. unfold SaturatingCast. rewrite Z.leb_refl. simpl.
  rewrite Z.shiftl_mul_pow2, Z.mul_1_l by lia.
  assert (uwrap w (2 ^ w) = 0) as -> by (unfold uwrap; apply Z.mod_same; pose proof (pow2_pos w); lia).
  pose proof (pow2_double w Hw) as Hd. pose proof (pow2_pos (w - 1) ltac:(lia)).
  assert (uwrap w (0 - 1) = 2 ^ w - 1) as ->
    by (unfold uwrap; symmetry; apply (Z.mod_unique_pos _ _ (-1)); lia).
  rewrite Z.shiftr_div_pow2 by lia.
  assert ((2 ^ w - 1) / 2 ^ 1 = 2 ^ (w - 1) - 1) as ->
    by (change (2 ^ 1) with 2; symmetry; apply (Z.div_unique _ _ _ 1); lia).
  unfold in_u in *. zbool; rewrite swrap_id; unfold in_s; lia.
Qed.

Lemma SaturatingUCast_max w v :
  0 < w -> in_s w v -> SaturatingUCast w w v = Z.max 0 v.
Proof.
  intros Hw Hv. unfold SaturatingUCast, in_s in *. rewrite Z.ltb_irrefl. simpl.
  zbool; [lia|]. rewrite uwrap_id; [lia|]. unfold in_u. rewrite (pow2_double w) by lia. lia.
Qed.

Lemma SaturatingAdd_cases w a b :
  SaturatingAdd w a b =
  let sum := swrap w (a + b) in
  if (0 <? b) && (sum <? a) then notT_shr1 w
  else if (b <? 0) && (a <? sum) then notT_shr1_add1 w else sum.
Proof.
  unfold SaturatingAdd. cbv zeta. destruct (Z.ltb_spec 0 b); simpl; [|reflexivity].
  destruct (Z.ltb_spec b 0); [lia|]. simpl. reflexivity.
Qed.

(** The signed saturating operations agree with the exact ones when the exact
    result is representable; on overflow they return [-1] and [0] (the values
    of [^T(0) >> 1] and [(^T(0) >> 1) + 1] in a signed type), not the extreme
    values of the type. *)
Lemma SaturatingAdd_exact w a b :
  0 < w -> in_s w a -> in_s w b -> in_s w (a + b) -> SaturatingAdd w a b = a + b.
Proof.
  intros Hw Ha Hb Hab. rewrite SaturatingAdd_cases; cbv zeta. rewrite swrap_id by auto.
  zbool; simpl; lia.
Qed.

Lemma SaturatingAdd_overflow w a b :
  0 < w -> in_s w a -> in_s w b -> 2 ^ (w - 1) <= a + b -> SaturatingAdd w a b = -1.
Proof.
  intros Hw Ha Hb Hab. rewrite SaturatingAdd_cases; cbv zeta.
  rewrite notT_shr1_eq, notT_shr1_add1_eq by lia. pose proof (pow2_double w Hw).
  unfold in_s in *.
  destruct (swrap_add_cases w a b Hw Ha Hb) as [[? ?]|[[? ->]|[? ?]]]; unfold in_s in *; [lia| |lia].
  zbool; simpl; lia.
Qed.

Lemma SaturatingAdd_underflow w a b :
  0 < w -> in_s w a -> in_s w b -> a + b < - 2 ^ (w - 1) -> SaturatingAdd w a b = 0.
Proof.
  intros Hw Ha Hb Hab. rewrite SaturatingAdd_cases; cbv zeta.
  rewrite notT_shr1_eq, notT_shr1_add1_eq by lia. pose proof (pow2_double w Hw).
  unfold in_s in *.
  destruct (swrap_add_cases w a b Hw Ha Hb) as [[? ?]|[[? ?]|[? ->]]]; unfold in_s in *; [lia|lia|].
  zbool; simpl; lia.
Qed.

Lemma SaturatingSub_exact a b :
  in_s 64 a -> in_s 64 b -> - 2 ^ 63 < b -> in_s 64 (a - b) -> SaturatingSub a b = a - b.
Proof.
  intros Ha Hb Hm Hab. unfold SaturatingSub.
  assert (in_s 64 (- b)) by (unfold in_s in *; lia).
  rewrite swrap_id by (auto; lia). rewrite SaturatingAdd_exact; auto; lia.
Qed.

Lemma SaturatingMul_exact w a b :
  0 < w -> in_s w a -> in_s w b -> in_s w (a * b) -> SaturatingMul w a b = a * b.
Proof.
  intros Hw Ha Hb Hab. unfold SaturatingMul. rewrite (swrap_id w (a * b)) by auto.
  destruct (Z.eqb_spec b 0) as [->|Hb0]; simpl; [reflexivity|].
  rewrite Z.quot_mul, swrap_id, Z.eqb_refl by auto. reflexivity.
Qed.

(** The truncated quotient of a wrapped product never gives back [a] when the
    product overflows, except for [a = MinInt], [b = -1]. *)
Lemma wrapped_quot_ne w a b :
  0 < w -> in_s w a -> in_s w b -> b <> 0 -> b <> -1 -> ~ in_s w (a * b) ->
  swrap w (Z.quot (swrap w (a * b)) b) <> a.
Proof.
  intros Hw Ha Hb Hb0 Hb1 Hov Heq.
  destruct (swrap_eqm w (a * b) Hw) as [k Hk].
  pose proof (swrap_range w (a * b) Hw) as Hp.
  set (p := swrap w (a * b)) in *.
  pose proof (Z.quot_rem' p b) as Hqr. pose proof (Z.rem_bound_abs p b Hb0) as Hr.
  pose proof (pow2_double w Hw) as Hd. pose proof (pow2_pos (w - 1) ltac:(lia)) as Hpos.
  unfold in_s in *.
  assert (Hq : - 2 ^ (w - 1) <= Z.quot p b < 2 ^ (w - 1)).
  { destruct (Z.eq_dec b 1) as [->|Hb2]; [rewrite Z.quot_1_r; exact Hp|].
    pose proof (Z.quot_abs p b Hb0).
    assert (Z.abs p ÷ Z.abs b <= Z.abs p ÷ 2) by (apply Z.quot_le_compat_l; lia).
    pose proof (Z.mul_quot_le (Z.abs p) 2 ltac:(lia) ltac:(lia)). lia. }
  rewrite swrap_id in Heq by (unfold in_s; lia). rewrite Heq in Hqr.
  assert (k = 0) by nia. subst k. lia.
Qed.

Lemma SaturatingMul_overflow w a b :
  0 < w -> in_s w a -> in_s w b -> b <> -1 -> ~ in_s w (a * b) ->
  SaturatingMul w a b = if 0 <? a * b then -1 else 0.
Proof.
  intros Hw Ha Hb Hb1 Hov. unfold SaturatingMul.
  rewrite notT_shr1_eq, notT_shr1_add1_eq by lia.
  destruct (Z.eqb_spec b 0) as [->|Hb0].
  { exfalso. apply Hov. unfold in_s. pose proof (pow2_pos (w - 1)). lia. }
  pose proof (wrapped_quot_ne w a b Hw Ha Hb Hb0 Hb1 Hov) as Hne.
  apply Z.eqb_neq in Hne. rewrite Hne. simpl.
  zbool; simpl; try reflexivity; nia.
Qed.

(** The one product whose overflow goes unnoticed: [MinInt / -1] wraps back to
    [MinInt]. *)
Lemma SaturatingMul_MinInt_neg1 w :
  1 < w -> SaturatingMul w (- 2 ^ (w - 1)) (-1) = - 2 ^ (w - 1).
Proof.
  intros Hw. unfold SaturatingMul. pose proof (pow2_double w ltac:(lia)) as Hd.
  pose proof (pow2_pos (w - 1) ltac:(lia)).
  assert (swrap w (- 2 ^ (w - 1) * -1) = - 2 ^ (w - 1)) as Hw1.
  { unfold swrap. replace (- 2 ^ (w - 1) * -1 + 2 ^ (w - 1)) with (2 ^ w) by lia.
    rewrite Z.mod_same by lia. lia. }
  rewrite Hw1.
  assert (Z.quot (- 2 ^ (w - 1)) (-1) = - 2 ^ (w - 1) * -1) as ->.
  { change (-1) with (- (1)). rewrite Z.quot_opp_opp, Z.quot_1_r by lia. lia. }
  rewrite Hw1, Z.eqb_refl. reflexivity.
Qed.

Lemma SaturatingNeg_exact w v :
  0 < w -> in_s w v -> v <> -1 -> v <> - 2 ^ (w - 1) -> SaturatingNeg w v = - v.
Proof.
  intros Hw Hv Hn Hm. unfold SaturatingNeg. rewrite notT_eq by lia. zbool; [lia|].
  apply swrap_id; unfold in_s in *; lia.
Qed.

Lemma DivCeil_ceil w v d :
  0 <= w -> in_u w v -> 0 < d -> DivCeil w v d = Ok ((v + d - 1) / d).
Proof.
  intros Hw Hv Hd. unfold DivCeil, in_u in *.
  destruct (Z.eqb_spec d 0); [lia|].
  pose proof (Z.div_mod v d ltac:(lia)) as Hdm. pose proof (Z.mod_pos_bound v d Hd) as Hm.
  destruct (Z.eqb_spec (v mod d) 0) as [H0|H0]; f_equal.
  - apply (Z.div_unique _ _ _ (d - 1)); lia.
  - rewrite uwrap_id.
    + apply (Z.div_unique _ _ _ (v mod d - 1)); lia.
    + assert (0 <= v / d) by (apply Z.div_pos; lia). unfold in_u. nia.
Qed.

(** ** The exponential approximation

    [exp_horner n x res] is the Horner evaluation the loop performs, on
    unbounded integers: at the step with [n] divisions left the accumulator is
    multiplied by [x] (clipped to 64 bits) and divided by [n] (in bips). *)
Fixpoint exp_horner (n : nat) (x res : Z) : Z :=
  match n with
  | O => res
  | S m => exp_horner m x (10000 + Z.min (res * x) (2 ^ 64 - 1) / (Z.of_nat n * 10000))
  end.

(** The value of [ApproxExpBasisPoints] at a non-negative argument. *)
Definition exp_bips (x degree : Z) : Z :=
  Z.min (exp_horner (Z.to_nat (degree - 1)) x (10000 + x / degree)) (2 ^ 63 - 1).

Lemma horner_step_bounds n x res :
  0 < n -> 0 <= x -> 0 <= res ->
  10000 <= 10000 + Z.min (res * x) (2 ^ 64 - 1) / (n * 10000) < 2 ^ 64.
Proof.
  intros Hn Hx Hres. assert (0 <= res * x) by nia.
  assert (0 <= Z.min (res * x) (2 ^ 64 - 1) / (n * 10000)) by (apply Z.div_pos; lia).
  assert (Z.min (res * x) (2 ^ 64 - 1) / (n * 10000) <= (2 ^ 64 - 1) / 10000).
  { transitivity (Z.min (res * x) (2 ^ 64 - 1) / 10000).
    - apply Z.div_le_compat_l; lia.
    - apply Z.div_le_mono; lia. }
  assert ((2 ^ 64 - 1) / 10000 < 2 ^ 64 - 10000) by reflexivity. lia.
Qed.

Lemma ApproxExp_loop_horner n : forall i degree x res,
  i + Z.of_nat n = degree -> 0 < i -> degree * 10000 < 2 ^ 64 ->
  in_u 64 x -> in_u 64 res ->
  ApproxExp_loop n i degree x res = Ok (exp_horner n x res).
Proof.
  induction n as [|n IH]; intros i degree x res Hi Hpos Hdeg Hx Hres; [reflexivity|].
  cbn [ApproxExp_loop exp_horner]. unfold in_u, OneInBips in *.
  assert ((degree -u64 i) = Z.of_nat (S n)) as -> by (rewrite uwrap_id; unfold in_u; lia).
  assert ((Z.of_nat (S n) *u64 10000) = Z.of_nat (S n) * 10000) as ->
    by (apply uwrap_id; unfold in_u; lia).
  rewrite go_div_ok, SaturatingUMul_min by (unfold in_u; lia). cbn [obind].
  pose proof (horner_step_bounds (Z.of_nat (S n)) x res ltac:(lia) ltac:(lia) ltac:(lia)).
  rewrite (uwrap_id 64 (10000 + _)) by (unfold in_u; lia).
  apply IH; unfold in_u; lia.
Qed.

Lemma exp_horner_bounds n x res :
  0 <= x -> 10000 <= res < 2 ^ 64 -> 10000 <= exp_horner n x res < 2 ^ 64.
Proof.
  revert res. induction n as [|n IH]; intros res Hx Hres; cbn [exp_horner]; [lia|].
  apply IH; [lia|]. apply horner_step_bounds; lia.
Qed.

Lemma exp_horner_mono n x x' res res' :
  0 <= x <= x' -> 0 <= res <= res' -> exp_horner n x res <= exp_horner n x' res'.
Proof.
  revert res res'. induction n as [|n IH]; intros res res' Hx Hres; cbn [exp_horner]; [lia|].
  apply IH; [lia|]. split.
  - pose proof (horner_step_bounds (Z.of_nat (S n)) x res). lia.
  - apply Zplus_le_compat_l, Z.div_le_mono; [lia|]. nia.
Qed.

Lemma exp_bips_bounds x degree :
  0 <= x < 2 ^ 63 -> 0 < degree -> 10000 <= exp_bips x degree < 2 ^ 63.
Proof.
  intros Hx Hd. unfold exp_bips.
  assert (0 <= x / degree <= x) by (split; [apply Z.div_pos|apply Z.div_le_upper_bound]; nia).
  pose proof (exp_horner_bounds (Z.to_nat (degree - 1)) x (10000 + x / degree)). lia.
Qed.

Lemma exp_bips_mono x y degree :
  0 <= x <= y -> 0 < degree -> exp_bips x degree <= exp_bips y degree.
Proof.
  intros Hx Hd. unfold exp_bips. apply Z.min_le_compat_r, exp_horner_mono; [lia|].
  assert (x / degree <= y / degree) by (apply Z.div_le_mono; lia).
  assert (0 <= x / degree) by (apply Z.div_pos; lia). lia.
Qed.

Lemma ApproxExpBasisPoints_nonneg x degree :
  0 <= x < 2 ^ 63 -> 0 < degree -> degree * 10000 < 2 ^ 64 ->
  ApproxExpBasisPoints x degree = Ok (exp_bips x degree).
Proof.
  intros Hx Hd Hdeg. unfold ApproxExpBasisPoints, exp_bips.
  destruct (Z.ltb_spec x 0); [lia|]. cbv zeta.
  rewrite (uwrap_id 64 x) by (unfold in_u; lia). change (u64 OneInBips) with 10000.
  rewrite go_div_ok by lia. cbn [obind].
  assert (0 <= x / degree <= x) by (split; [apply Z.div_pos|apply Z.div_le_upper_bound]; nia).
  rewrite (uwrap_id 64 (10000 + _)) by (unfold in_u; lia).
  rewrite ApproxExp_loop_horner by (unfold in_u; lia). cbn [obind].
  pose proof (exp_horner_bounds (Z.to_nat (degree - 1)) x (10000 + x / degree)).
  rewrite SaturatingCast_min by (unfold in_u; lia). reflexivity.
Qed.

(** ** Byte encodings *)

Lemma BigEndian_read_bytes n v rest :
  BigEndian_read n (be_bytes n v ++ rest) = Ok (v mod 256 ^ Z.of_nat n).
Proof.
  unfold BigEndian_read. rewrite length_app, length_be_bytes.
  rewrite (proj2 (Nat.leb_le _ _)) by lia.
  rewrite take_app_length' by (rewrite length_be_bytes; reflexivity).
  rewrite be_be_bytes. reflexivity.
Qed.

Lemma Uint24ToBytes_eq v : Uint24ToBytes v = be_bytes 3 v.
Proof. unfold Uint24ToBytes. cbn [be_bytes app drop]. reflexivity. Qed.

Lemma BytesToUint24_bytes v rest :
  BytesToUint24 (be_bytes 3 v ++ rest) = Ok (v mod 2 ^ 24).
Proof.
  unfold BytesToUint24, ConcatByteSlices, BigEndian_read. cbn [fold_left app].
  cbn [length]. rewrite length_app, length_be_bytes.
  rewrite (proj2 (Nat.leb_le _ _)) by lia. cbn [take].
  rewrite take_app_length' by (rewrite length_be_bytes; reflexivity).
  change (0 :: be_bytes 3 v) with ([0] ++ be_bytes 3 v).
  rewrite be_app, be_be_bytes. cbn [be be_acc]. reflexivity.
Qed.

Lemma ConcatByteSlices_concat slices : ConcatByteSlices slices = concat slices.
Proof.
  unfold ConcatByteSlices.
  assert (forall acc, fold_left (fun u s => u ++ s) slices acc = acc ++ concat slices) as H.
  { induction slices as [|s sl IH]; intros acc; cbn; [now rewrite app_nil_r|].
    rewrite IH, app_assoc. reflexivity. }
  apply H.
Qed.

(** The halving loop of [ApproxSquareRoot] has ended when its fuel runs out. *)
Lemma sqrt_halve_enough_fuel (fuel : nat) : forall value approx (more : nat), 0 <= value ->
  0 <= approx < 2 ^ Z.of_nat fuel ->
  sqrt_halve (fuel + more) value approx = sqrt_halve fuel value approx.
Proof.
  induction fuel as [|fuel IH]; intros value approx more Hv Ha.
  - change (2 ^ Z.of_nat 0) with 1 in Ha. replace approx with 0 by lia. destruct more; [reflexivity|]. cbn [Nat.add sqrt_halve].
    now replace (value <? SaturatingUMul 64 0 0 / 2) with false by (symmetry; apply Z.ltb_ge; exact Hv).
  - cbn [Nat.add sqrt_halve]. case_match; [|reflexivity]. apply IH; [exact Hv|].
    rewrite Nat2Z.inj_succ, Z.pow_succ_r in Ha by lia.
    split; [apply Z.div_pos; lia|apply Z.div_lt_upper_bound; lia].
Qed.

Lemma FlipBit_FlipBit data bit : FlipBit (FlipBit data bit) bit = data.
Proof. unfold FlipBit. now rewrite Z.lxor_assoc, Z.lxor_nilpotent, Z.lxor_0_r. Qed.

(** Between two powers of two, the upper one included. *)
Lemma NextOrCurrentPowerOf2_spec v k : 0 <= k < 62 -> 2 ^ k < v <= 2 ^ (k + 1) -> NextOrCurrentPowerOf2 v = 2 ^ (k + 1).
Proof.
  intros Hk Hv. assert (2 ^ k > 0) as Hp by lia.
  assert (2 ^ (k + 2) <= 2 ^ 63 /\ 2 ^ (k + 2) = 2 * 2 ^ (k + 1) /\ 2 ^ (k + 1) = 2 * 2 ^ k) as (Hb & H2 & H1).
  { split; [apply Z.pow_le_mono_r; lia|]. split; rewrite <- Z.pow_succ_r by lia; f_equal; lia. }
  assert (forall j, 0 <= j < 63 -> v <> 0 -> Z.log2 v = j -> NextPowerOf2 v = 2 ^ (j + 1)) as Hn.
  { intros j Hj Hv0 Hl. unfold NextPowerOf2, Log2ceil, LeadingZeros64, bits_Len64. rewrite (proj2 (Z.eqb_neq v 0) Hv0), Hl.
    replace (64 - (64 - (j + 1))) with (j + 1) by lia. rewrite Z.shiftl_1_l, (uwrap_id 64 (j + 1)) by (unfold in_u; lia).
    apply uwrap_id. split; [lia|]. apply Z.pow_lt_mono_r; lia. }
  unfold NextOrCurrentPowerOf2. cbv zeta. rewrite (uwrap_id 64 (2 * v)) by (unfold in_u; lia).
  destruct (Z.eq_dec v (2 ^ (k + 1))) as [->|Hne].
  - rewrite (Hn (k + 1)) by (try apply Z.log2_pow2; lia). replace (k + 1 + 1) with (k + 2) by lia.
    rewrite (proj2 (Z.eqb_eq (2 ^ (k + 2)) (2 * 2 ^ (k + 1))) H2), H2. rewrite Z.mul_comm. apply Z.div_mul. lia.
  - rewrite (Hn k) by (try apply Z.log2_unique; lia). rewrite (proj2 (Z.eqb_neq _ _)) by lia. reflexivity.
Qed.
