(* ===== verification/Host.v ===== *)
(** * The environment of ArbOS: the state database, keccak, burners, effects

    What the modelled code calls and the repository does not contain is the
    class [Env]: the account database of the execution client ([vm.StateDB])
    and [crypto.Keccak256]. [EnvLaws] is what the code relies on. The burners
    of arbos/burn/burn.go and precompiles/context.go are the two instances of
    the class [Burner], the source's interface of the same name. An effectful
    Go function is a computation of the monad [M], which threads the database
    and the burner and ends in an [outcome].

    The calls that only feed a tracer ([TracingInfo], [log]) have no effect on
    the modelled state and are left out. *)
From Stdlib Require Import ZArith Lia String List.
From stdpp Require Import base list numbers.
From S2P Require Import Prelude.
Open Scope Z_scope.

(** ** Burners *)

(** The interface [burn.Burner]. The pointer that [GasLeft] returns is the pair
    of the value it points to and of [StoreGasLeft], the write through it. *)
Class Burner (B : Type) := {
  Burn : Z -> B -> outcome unit * B;
  Burned : B -> Z;
  GasLeft : B -> outcome Z;
  StoreGasLeft : Z -> B -> B;
  BurnOut : B -> outcome unit * B;
  Restrict : option error -> B -> outcome unit;
  HandleError : error -> outcome unit;
  ReadOnly : B -> bool
}.

(** What a client may rely on: [affords b n] says that [n] more units of gas
    can be burnt without an error. *)
Class BurnerLaws (B : Type) `{Burner B} := {
  affords : B -> Z -> Prop;
  affords_le b n m : affords b n -> m <= n -> affords b m;
  burn_affords b n c :
    affords b n -> 0 <= c <= n ->
    exists b', Burn c b = (Ok tt, b') /\ affords b' (n - c) /\ ReadOnly b' = ReadOnly b;
  burn_total b c :
    exists r b', Burn c b = (r, b') /\ ReadOnly b' = ReadOnly b /\
      (r = Ok tt \/ r = Err ErrOutOfGas);
  store_affords b n g c :
    GasLeft b = Ok g -> affords b n -> 0 <= c <= n ->
    n <= g /\ affords (StoreGasLeft (g - c) b) (n - c) /\ ReadOnly (StoreGasLeft (g - c) b) = ReadOnly b
}.

(** arbos/burn/burn.go *)
Record SystemBurner := mkSystemBurner { sb_gasBurnt : Z; sb_readOnly : bool }.

Definition SystemBurner_Burn (amount : Z) (b : SystemBurner) : outcome unit * SystemBurner :=
  (Ok tt, mkSystemBurner (sb_gasBurnt b +u64 amount) (sb_readOnly b)).

Definition SystemBurner_Burned (b : SystemBurner) : Z := sb_gasBurnt b.

Definition SystemBurner_BurnOut (b : SystemBurner) : outcome unit * SystemBurner :=
  (Panic "called BurnOut on a system burner", b).

Definition SystemBurner_GasLeft (b : SystemBurner) : outcome Z :=
  Panic "called GasLeft on a system burner".

(** [Restrict] only logs. *)
Definition SystemBurner_Restrict (err : option error) (b : SystemBurner) : outcome unit := Ok tt.

Definition SystemBurner_HandleError (err : error) : outcome unit :=
  Panic "fatal error in system burner".

Definition SystemBurner_ReadOnly (b : SystemBurner) : bool := sb_readOnly b.

#[export] Instance SystemBurner_Burner : Burner SystemBurner := {|
  Burn := SystemBurner_Burn;
  Burned := SystemBurner_Burned;
  GasLeft := SystemBurner_GasLeft;
  StoreGasLeft := fun _ b => b;
  BurnOut := SystemBurner_BurnOut;
  Restrict := SystemBurner_Restrict;
  HandleError := SystemBurner_HandleError;
  ReadOnly := SystemBurner_ReadOnly
|}.

(** precompiles/context.go: the metered burner of a precompile call. *)
Record Context := mkContext { ctx_gasSupplied : Z; ctx_gasLeft : Z; ctx_readOnly : bool }.

Definition Context_BurnOut (c : Context) : outcome unit * Context :=
  (Err ErrOutOfGas, mkContext (ctx_gasSupplied c) 0 (ctx_readOnly c)).

Definition Context_Burn (amount : Z) (c : Context) : outcome unit * Context :=
  if ctx_gasLeft c <? amount then Context_BurnOut c
  else (Ok tt, mkContext (ctx_gasSupplied c) (ctx_gasLeft c -u64 amount) (ctx_readOnly c)).

Definition Context_Burned (c : Context) : Z := ctx_gasSupplied c -u64 ctx_gasLeft c.

Definition Context_GasLeft (c : Context) : outcome Z := Ok (ctx_gasLeft c).
Definition Context_StoreGasLeft (gas : Z) (c : Context) : Context :=
  mkContext (ctx_gasSupplied c) gas (ctx_readOnly c).

(** [log.Crit] ends the process. *)
Definition Context_Restrict (err : option error) (c : Context) : outcome unit :=
  Panic "A metered burner was used for access-controlled work".

Definition Context_HandleError (err : error) : outcome unit := Err err.

Definition Context_ReadOnly (c : Context) : bool := ctx_readOnly c.

#[export] Instance Context_Burner : Burner Context := {|
  Burn := Context_Burn;
  Burned := Context_Burned;
  GasLeft := Context_GasLeft;
  StoreGasLeft := Context_StoreGasLeft;
  BurnOut := Context_BurnOut;
  Restrict := Context_Restrict;
  HandleError := Context_HandleError;
  ReadOnly := Context_ReadOnly
|}.

#[export] Instance SystemBurner_laws : BurnerLaws SystemBurner.
Proof.
  refine {| affords := fun _ _ => True |}; [trivial| | |discriminate].
  - intros b n c _ _. eexists. split; [reflexivity|]. split; [exact I|reflexivity].
  - intros b c. do 2 eexists. split; [reflexivity|]. split; [reflexivity|]. auto.
Defined.

#[export] Instance Context_laws : BurnerLaws Context.
Proof.
  refine {| affords := fun c n => n <= ctx_gasLeft c < 2 ^ 64 |}.
  - intros; lia.
  - intros [sup left ro] n c Hn Hc. cbn in *. unfold Context_Burn. cbn.
    destruct (Z.ltb_spec left c); [lia|]. eexists. split; [reflexivity|].
    cbn. rewrite uwrap_id by (unfold in_u; lia). lia || (split; [lia|reflexivity]).
  - intros [sup left ro] c. cbn. unfold Context_Burn. cbn.
    destruct (left <? c); do 2 eexists; (split; [reflexivity|]); cbn; auto.
  - intros [sup left ro] n g c Hg Hn Hc. cbn in *. injection Hg as <-. split; [lia|]. split; [lia|reflexivity].
Defined.

(** ** The environment *)

(** [types.Log] *)
Record EthLog := mkEthLog { log_Address : Z; log_Topics : list Z; log_Data : list Z }.

(** [common.Address] is a 160-bit and [common.Hash] a 256-bit unsigned [Z];
    [keccak256] hashes the concatenation of its arguments. *)
Class Env := {
  DB : Type;
  GetState : DB -> Z -> Z -> Z;
  SetState : DB -> Z -> Z -> Z -> DB;
  GetBalance : DB -> Z -> Z;
  AddBalance : DB -> Z -> Z -> DB;
  SubBalance : DB -> Z -> Z -> DB;
  GetCodeHash : DB -> Z -> Z;
  SetNonce : DB -> Z -> Z -> DB;
  AddLog : DB -> EthLog -> DB;
  GetCurrentTxLogs : DB -> list EthLog;
  keccak256 : list Z -> Z;
  BurnerT : Type;
  env_Burner :: Burner BurnerT
}.

(** The documented behaviour of the state database and of keccak: a slot keeps
    the last value written to it, balances, storage and logs do not interfere,
    logs are kept in order, a digest has 256 bits. *)
Class EnvLaws (E : Env) := {
  env_BurnerLaws :: BurnerLaws BurnerT;
  GetState_SetState d a s v a' s' :
    GetState (SetState d a s v) a' s' =
      if decide (a = a' /\ s = s') then v else GetState d a' s';
  GetState_AddBalance d a v a' s' : GetState (AddBalance d a v) a' s' = GetState d a' s';
  GetState_SubBalance d a v a' s' : GetState (SubBalance d a v) a' s' = GetState d a' s';
  GetState_SetNonce d a v a' s' : GetState (SetNonce d a v) a' s' = GetState d a' s';
  GetBalance_SetState d a s v a' : GetBalance (SetState d a s v) a' = GetBalance d a';
  GetBalance_AddBalance d a v a' :
    GetBalance (AddBalance d a v) a' = if decide (a = a') then GetBalance d a + v else GetBalance d a';
  GetBalance_SubBalance d a v a' :
    GetBalance (SubBalance d a v) a' = if decide (a = a') then GetBalance d a - v else GetBalance d a';
  GetBalance_SetNonce d a v a' : GetBalance (SetNonce d a v) a' = GetBalance d a';
  GetState_AddLog d l a' s' : GetState (AddLog d l) a' s' = GetState d a' s';
  GetBalance_AddLog d l a' : GetBalance (AddLog d l) a' = GetBalance d a';
  logs_SetState d a s v : GetCurrentTxLogs (SetState d a s v) = GetCurrentTxLogs d;
  logs_AddBalance d a v : GetCurrentTxLogs (AddBalance d a v) = GetCurrentTxLogs d;
  logs_SubBalance d a v : GetCurrentTxLogs (SubBalance d a v) = GetCurrentTxLogs d;
  logs_SetNonce d a v : GetCurrentTxLogs (SetNonce d a v) = GetCurrentTxLogs d;
  logs_AddLog d l : GetCurrentTxLogs (AddLog d l) = GetCurrentTxLogs d ++ [l];
  keccak256_range x : in_u 256 (keccak256 x)
}.

(** ** The effect monad *)

Section Monad.
Context {E : Env}.

Record World := mkWorld { wdb : DB; wburner : BurnerT }.

Definition M (A : Type) : Type := World -> outcome A * World.

Definition ret {A} (a : A) : M A := fun w => (Ok a, w).
Definition fail {A} (e : error) : M A := fun w => (Err e, w).
Definition panic {A} (s : string) : M A := fun w => (Panic s, w).
Definition lift {A} (o : outcome A) : M A := fun w => (o, w).

Definition bind {A B} (m : M A) (k : A -> M B) : M B :=
  fun w =>
    match m w with
    | (Ok a, w') => k a w'
    | (Err e, w') => (Err e, w')
    | (Panic s, w') => (Panic s, w')
    end.

(** [x, err := m()] with the error kept as a value; a panic propagates. *)
Definition attempt {A} (m : M A) : M (outcome A) :=
  fun w =>
    match m w with
    | (Ok a, w') => (Ok (Ok a), w')
    | (Err e, w') => (Ok (Err e), w')
    | (Panic s, w') => (Panic s, w')
    end.

(** [_ = m()] *)
Definition ignore {A} (m : M A) : M unit := bind (attempt m) (fun _ => ret tt).

(** [x, _ := m()], where [m] returns [zero] beside an error. *)
Definition value_or {A} (zero : A) (m : M A) : M A :=
  bind (attempt m) (fun r => match r with Ok a => ret a | _ => ret zero end).

Definition db_read {A} (f : DB -> A) : M A := fun w => (Ok (f (wdb w)), w).
Definition db_write (f : DB -> DB) : M unit := fun w => (Ok tt, mkWorld (f (wdb w)) (wburner w)).
(** A call of the client that returns a value and changes the database. *)
Definition db_call {A} (f : DB -> A * DB) : M A :=
  fun w => let '(a, d) := f (wdb w) in (Ok a, mkWorld d (wburner w)).

Definition burn (amount : Z) : M unit :=
  fun w => let '(r, b) := Burn amount (wburner w) in (r, mkWorld (wdb w) b).
Definition read_only : M bool := fun w => (Ok (ReadOnly (wburner w)), w).
Definition handle_error (e : error) : M unit := fun w => (HandleError e, w).

(** [burner.GasLeft()], and a write through the pointer it returns. *)
Definition gas_left : M Z := fun w => (GasLeft (wburner w), w).
Definition store_gas_left (gas : Z) : M unit :=
  fun w => (Ok tt, mkWorld (wdb w) (StoreGasLeft gas (wburner w))).
Definition restrict (err : option error) : M unit := fun w => (Restrict err (wburner w), w).

(** [x, err := m()] followed by [if err != nil { return onErr }]. *)
Definition catch {A B} (m : M A) (onErr : error -> M B) (k : A -> M B) : M B :=
  bind (attempt m) (fun r => match r with Ok a => k a | Err e => onErr e | Panic s => panic s end).

(** [defer f()]: [f] runs when [m] returns or panics. *)
Definition defer {A} (f : DB -> DB) (m : M A) : M A :=
  fun w => let '(r, w') := m w in (r, mkWorld (f (wdb w')) (wburner w')).

(** ** Runs

    [runs G m d r d']: with any writable burner that affords [G] units of gas,
    [m] started on the database [d] ends with the outcome [r] on the database
    [d'] and has burnt at most [G]. *)
Context {EL : EnvLaws E}.

Definition runs {A} (G : Z) (m : M A) (d : DB) (r : outcome A) (d' : DB) : Prop :=
  0 <= G /\
  forall b n, affords b n -> G <= n -> ReadOnly b = false ->
  exists b', m (mkWorld d b) = (r, mkWorld d' b') /\ affords b' (n - G) /\ ReadOnly b' = false.

Lemma runs_le {A} G G' (m : M A) d r d' : runs G m d r d' -> G <= G' -> runs G' m d r d'.
Proof.
  intros [Hpos H] Hle. split; [lia|]. intros b n Ha Hn Hro. destruct (H b n Ha ltac:(lia) Hro) as (b' & ? & Hb & ?).
  exists b'. split; [done|]. split; [|done]. eapply affords_le; [exact Hb|lia].
Qed.

Lemma runs_ret {A} (a : A) d : runs 0 (ret a) d (Ok a) d.
Proof.
  split; [lia|]. intros b n Ha Hn Hro. exists b. split; [reflexivity|]. split; [|done].
  eapply affords_le; [exact Ha|lia].
Qed.

Lemma runs_lift {A} (o : outcome A) d : runs 0 (lift o) d o d.
Proof.
  split; [lia|]. intros b n Ha Hn Hro. exists b. split; [reflexivity|]. split; [|done].
  eapply affords_le; [exact Ha|lia].
Qed.

Lemma runs_fail {A} e d : runs 0 (@fail A e) d (Err e) d.
Proof. exact (runs_lift (Err e) d). Qed.

Lemma runs_panic {A} s d : runs 0 (@panic A s) d (Panic s) d.
Proof. exact (runs_lift (Panic s) d). Qed.

Lemma runs_bind {A B} G1 G2 (m : M A) (k : A -> M B) d a d1 r d2 :
  runs G1 m d (Ok a) d1 -> runs G2 (k a) d1 r d2 ->
  runs (G1 + G2) (bind m k) d r d2.
Proof.
  intros [P1 H1] [P2 H2]. split; [lia|]. intros b n Ha Hn Hro.
  destruct (H1 b n Ha ltac:(lia) Hro) as (b1 & E1 & A1 & R1).
  destruct (H2 b1 (n - G1) A1 ltac:(lia) R1) as (b2 & E2 & A2 & R2).
  exists b2. unfold bind. rewrite E1, E2. split; [reflexivity|]. split; [|done].
  eapply affords_le; [exact A2|lia].
Qed.

Lemma runs_bind_free {A B} G (m : M A) (k : A -> M B) d a d1 r d2 :
  runs 0 m d (Ok a) d1 -> runs G (k a) d1 r d2 -> runs G (bind m k) d r d2.
Proof. intros H1 H2. exact (runs_bind 0 G m k d a d1 r d2 H1 H2). Qed.

Lemma runs_bind_err {A B} G (m : M A) (k : A -> M B) d e d1 :
  runs G m d (Err e) d1 -> runs G (bind m k) d (Err e) d1.
Proof.
  intros [Hpos H]. split; [lia|]. intros b n Ha Hn Hro. destruct (H b n Ha Hn Hro) as (b1 & E1 & A1 & R1).
  exists b1. unfold bind. rewrite E1. done.
Qed.

Lemma runs_bind_panic {A B} G (m : M A) (k : A -> M B) d s d1 :
  runs G m d (Panic s) d1 -> runs G (bind m k) d (Panic s) d1.
Proof.
  intros [Hpos H]. split; [lia|]. intros b n Ha Hn Hro. destruct (H b n Ha Hn Hro) as (b1 & E1 & A1 & R1).
  exists b1. unfold bind. rewrite E1. done.
Qed.

Lemma runs_attempt_ok {A} G (m : M A) d a d' :
  runs G m d (Ok a) d' -> runs G (attempt m) d (Ok (Ok a)) d'.
Proof.
  intros [Hpos H]. split; [lia|]. intros b n Ha Hn Hro. destruct (H b n Ha Hn Hro) as (b1 & E1 & A1 & R1).
  exists b1. unfold attempt. rewrite E1. done.
Qed.

Lemma runs_attempt_err {A} G (m : M A) d e d' :
  runs G m d (Err e) d' -> runs G (attempt m) d (Ok (Err e)) d'.
Proof.
  intros [Hpos H]. split; [lia|]. intros b n Ha Hn Hro. destruct (H b n Ha Hn Hro) as (b1 & E1 & A1 & R1).
  exists b1. unfold attempt. rewrite E1. done.
Qed.

Lemma runs_ignore {A} G (m : M A) d a d' :
  runs G m d (Ok a) d' -> runs G (ignore m) d (Ok tt) d'.
Proof.
  intros H. unfold ignore. replace G with (G + 0) by lia.
  eapply runs_bind; [apply runs_attempt_ok, H|apply runs_ret].
Qed.

Lemma runs_value_or {A} G (m : M A) zero d a d' :
  runs G m d (Ok a) d' -> runs G (value_or zero m) d (Ok a) d'.
Proof.
  intros H. unfold value_or. replace G with (G + 0) by lia.
  eapply runs_bind; [apply runs_attempt_ok, H|apply runs_ret].
Qed.

Lemma runs_catch_ok {A B} G1 G2 (m : M A) onErr (k : A -> M B) d a d1 r d2 :
  runs G1 m d (Ok a) d1 -> runs G2 (k a) d1 r d2 -> runs (G1 + G2) (catch m onErr k) d r d2.
Proof. intros H1 H2. eapply runs_bind; [apply runs_attempt_ok, H1|exact H2]. Qed.

Lemma runs_catch_err {A B} G1 G2 (m : M A) onErr (k : A -> M B) d e d1 r d2 :
  runs G1 m d (Err e) d1 -> runs G2 (onErr e) d1 r d2 -> runs (G1 + G2) (catch m onErr k) d r d2.
Proof. intros H1 H2. eapply runs_bind; [apply runs_attempt_err, H1|exact H2]. Qed.

Lemma runs_defer {A} G (f : DB -> DB) (m : M A) d r d' :
  runs G m d r d' -> runs G (defer f m) d r (f d').
Proof.
  intros [Hpos H]. split; [lia|]. intros b n Ha Hn Hro. destruct (H b n Ha Hn Hro) as (b1 & E1 & A1 & R1).
  exists b1. unfold defer. rewrite E1. done.
Qed.

Lemma runs_db_read {A} (f : DB -> A) d : runs 0 (db_read f) d (Ok (f d)) d.
Proof.
  split; [lia|]. intros b n Ha Hn Hro. exists b. split; [reflexivity|]. split; [|done].
  eapply affords_le; [exact Ha|lia].
Qed.

Lemma runs_db_write (f : DB -> DB) d : runs 0 (db_write f) d (Ok tt) (f d).
Proof.
  split; [lia|]. intros b n Ha Hn Hro. exists b. split; [reflexivity|]. split; [|done].
  eapply affords_le; [exact Ha|lia].
Qed.

Lemma runs_db_call {A} (f : DB -> A * DB) d : runs 0 (db_call f) d (Ok (f d).1) (f d).2.
Proof.
  split; [lia|]. intros b n Ha Hn Hro. exists b. unfold db_call. cbn. destruct (f d). split; [reflexivity|]. split; [|done].
  eapply affords_le; [exact Ha|lia].
Qed.

Lemma runs_burn c d : 0 <= c -> runs c (burn c) d (Ok tt) d.
Proof.
  intros Hc. split; [lia|]. intros b n Ha Hn Hro. destruct (burn_affords b n c Ha ltac:(lia)) as (b' & E1 & A1 & R1).
  exists b'. unfold burn. cbn. rewrite E1. split; [reflexivity|]. split; [done|congruence].
Qed.

Lemma runs_read_only d : runs 0 read_only d (Ok false) d.
Proof.
  split; [lia|]. intros b n Ha Hn Hro. exists b. unfold read_only. cbn. rewrite Hro.
  split; [reflexivity|]. split; [|done]. eapply affords_le; [exact Ha|lia].
Qed.

Lemma runs_det {A} G G' (m : M A) d r r' d1 d2 b :
  affords b G -> affords b G' -> ReadOnly b = false ->
  runs G m d r d1 -> runs G' m d r' d2 -> r = r' /\ d1 = d2.
Proof.
  intros Ha Ha' Hro [_ H1] [_ H2].
  destruct (H1 b G Ha ltac:(lia) Hro) as (b1 & E1 & _).
  destruct (H2 b G' Ha' ltac:(lia) Hro) as (b2 & E2 & _).
  rewrite E1 in E2. inversion E2. done.
Qed.

End Monad.

Arguments World E : clear implicits.
Arguments mkWorld {E} _ _.

Notation "'let*' x := m 'in' k" := (bind m (fun x => k))
  (at level 10, x pattern, m at level 100, k at level 200) : go_scope.
Notation "m ;;; k" := (bind m (fun _ => k))
  (at level 100, right associativity) : go_scope.

Create HintDb runs discriminated.
#[export] Hint Resolve runs_ret runs_lift runs_fail runs_panic runs_db_read runs_db_write
  runs_read_only runs_ignore runs_value_or runs_attempt_ok : runs.

(** One step of a sequence: run the head with a lemma of the database [runs]. *)
Ltac rstep := eapply runs_bind; [solve [eauto 3 with runs]|].
Ltac rstep_by tac := eapply runs_bind; [solve [tac]|].
