(* ===== verification/Storage.v ===== *)
(** * arbos/storage/storage.go: the hierarchical key-value store of ArbOS

    A [Storage] is a storage space of the ArbOS account: its contents live in
    the flat slot space of the account, the slot of a key being computed by
    [mapAddress] from the storage key of the space. The typed cells
    ([StorageBackedUint64] and the others) are views on one slot. The database
    and the burner a [Storage] of the source points to are the world of the
    monad [M]. The cache of key hashes ([cachedKeccak]) is left out: it stores
    [keccak256] of its key and returns it unchanged, so [mapAddress] calls
    [keccak256] itself. *)
From Stdlib Require Import ZArith Lia String List.
From stdpp Require Import base list numbers.
From S2P Require Import Prelude Arbmath Host.
Open Scope Z_scope.

(** ** Words and addresses

    The conversions of [common.Hash] and [common.Address]: big-endian, cropped
    from the left, padded with zeroes on the left. *)

Definition BytesToHash (b : list Z) : Z := be b mod 2 ^ 256.
Definition BytesToAddress (b : list Z) : Z := be b mod 2 ^ 160.
Definition Hash_Bytes (h : Z) : list Z := be_bytes 32 h.
Definition Address_Bytes (a : Z) : list Z := be_bytes 20 a.

(** [big.Int.Bytes] gives the bytes of the absolute value. *)
Definition BigToHash (b : Z) : Z := Z.abs b mod 2 ^ 256.

(** [big.Int.BitLen] *)
Definition BitLen (z : Z) : Z := if z =? 0 then 0 else Z.log2 (Z.abs z) + 1.

(** arbos/util/util.go *)
Definition AddressToHash (address : Z) : Z := BytesToHash (Address_Bytes address).
Definition UintToHash (val : Z) : Z := BigToHash val.

(** Gas costs (EIP-2028, EIP-2200, EIP-2929). *)
Definition TxDataNonZeroGasEIP2028 : Z := 16.
Definition SloadGasEIP2200 : Z := 800.
Definition SstoreSetGasEIP2200 : Z := 20000.
Definition SstoreResetGasEIP2200 : Z := 5000.
Definition ColdAccountAccessCostEIP2929 : Z := 2600.
Definition WarmStorageReadCostEIP2929 : Z := 100.

Definition StorageReadCost : Z := SloadGasEIP2200.
Definition StorageWriteCost : Z := SstoreSetGasEIP2200.
Definition StorageWriteZeroCost : Z := SstoreResetGasEIP2200.
Definition StorageCodeHashCost : Z := ColdAccountAccessCostEIP2929.

Section Storage.
Context {E : Env}.

Record Storage := mkStorage {
  sto_account : Z;
  sto_storageKey : list Z;
  sto_hashCache : bool          (* whether the space uses the hash cache *)
}.

Definition ArbosStateAddress : Z := 0xA4B05FFFFFFFFFFFFFFFFFFFFFFFFFFFFFFFFFFF.

Definition NewGeth : M Storage :=
  db_write (fun d => SetNonce d ArbosStateAddress 1) ;;;
  ret (mkStorage ArbosStateAddress [] true).

Definition mapAddress (s : Storage) (key : Z) : Z :=
  let keyBytes := Hash_Bytes key in
  let boundary := 31%nat in
  let hashed := Hash_Bytes (keccak256 (sto_storageKey s ++ take boundary keyBytes)) in
  let mapped := take boundary hashed ++ drop boundary keyBytes in
  BytesToHash mapped.

Definition writeCost (value : Z) : Z :=
  if value =? 0 then StorageWriteZeroCost else StorageWriteCost.

(** Gets a storage slot for free. *)
Definition Storage_GetFree (s : Storage) (key : Z) : M Z :=
  db_read (fun d => GetState d (sto_account s) (mapAddress s key)).

Definition Storage_Get (s : Storage) (key : Z) : M Z :=
  burn StorageReadCost ;;;
  Storage_GetFree s key.

Definition Storage_GetUint64 (s : Storage) (key : Z) : M Z :=
  let* value := Storage_Get s key in
  ret (u64 value).

Definition Storage_GetByUint64 (s : Storage) (key : Z) : M Z :=
  Storage_Get s (UintToHash key).

Definition Storage_GetUint64ByUint64 (s : Storage) (key : Z) : M Z :=
  Storage_GetUint64 s (UintToHash key).

Definition Storage_Set (s : Storage) (key value : Z) : M unit :=
  let* ro := read_only in
  if (ro : bool) then fail ErrWriteProtection
  else
    burn (writeCost value) ;;;
    db_write (fun d => SetState d (sto_account s) (mapAddress s key) value).

Definition Storage_SetByUint64 (s : Storage) (key value : Z) : M unit :=
  Storage_Set s (UintToHash key) value.

Definition Storage_SetUint64ByUint64 (s : Storage) (key value : Z) : M unit :=
  Storage_Set s (UintToHash key) (UintToHash value).

Definition Storage_Clear (s : Storage) (key : Z) : M unit := Storage_Set s key 0.

Definition Storage_ClearByUint64 (s : Storage) (key : Z) : M unit :=
  Storage_Set s (UintToHash key) 0.

Definition Storage_Swap (s : Storage) (key newValue : Z) : M Z :=
  let* oldValue := Storage_Get s key in
  Storage_Set s key newValue ;;;
  ret oldValue.

Definition OpenCachedSubStorage (s : Storage) (id : list Z) : Storage :=
  mkStorage (sto_account s) (Hash_Bytes (keccak256 (sto_storageKey s ++ id))) true.

Definition OpenSubStorage (s : Storage) (id : list Z) : Storage :=
  mkStorage (sto_account s) (Hash_Bytes (keccak256 (sto_storageKey s ++ id))) false.

Definition WithoutCache (s : Storage) : Storage :=
  mkStorage (sto_account s) (sto_storageKey s) false.

(** *** Byte strings: the length at key 0, 32 bytes per key from 1 on, the
    remainder right-aligned in the last key. *)

(** The loop [for bytesLeft > 0] of [ClearBytes], [n] iterations. *)
Fixpoint ClearBytes_loop (n : nat) (s : Storage) (bytesLeft offset : Z) : M unit :=
  match n with
  | O => ret tt
  | S n =>
      if 0 <? bytesLeft then
        Storage_ClearByUint64 s offset ;;;
        ClearBytes_loop n s (if bytesLeft <? 32 then 0 else bytesLeft -u64 32) (offset +u64 1)
      else ret tt
  end.

(** [bytesLeft] drops by 32 in each iteration, so [bytesLeft / 32 + 1]
    iterations reach zero. *)
Definition ClearBytes (s : Storage) : M unit :=
  let* bytesLeft := Storage_GetUint64ByUint64 s 0 in
  ClearBytes_loop (Z.to_nat (bytesLeft / 32 + 1)) s bytesLeft 1 ;;;
  Storage_ClearByUint64 s 0.

(** The loop [for len(b) >= 32] of [SetBytes] and the final write. *)
Fixpoint SetBytes_loop (n : nat) (s : Storage) (b : list Z) (offset : Z) : M unit :=
  match n with
  | O => Storage_SetByUint64 s offset (BytesToHash b)
  | S n =>
      if 32 <=? Z.of_nat (length b) then
        Storage_SetByUint64 s offset (BytesToHash (take 32 b)) ;;;
        SetBytes_loop n s (drop 32 b) (offset +u64 1)
      else Storage_SetByUint64 s offset (BytesToHash b)
  end.

Definition SetBytes (s : Storage) (b : list Z) : M unit :=
  ClearBytes s ;;;
  Storage_SetUint64ByUint64 s 0 (u64 (Z.of_nat (length b))) ;;;
  SetBytes_loop (length b / 32)%nat s b 1.

Fixpoint GetBytes_loop (n : nat) (s : Storage) (acc : list Z) (bytesLeft offset : Z) : M (list Z) :=
  match n with
  | O =>
      let* next := Storage_GetByUint64 s offset in
      ret (acc ++ drop (Z.to_nat (32 - bytesLeft)) (Hash_Bytes next))
  | S n =>
      if 32 <=? bytesLeft then
        let* next := Storage_GetByUint64 s offset in
        GetBytes_loop n s (acc ++ Hash_Bytes next) (bytesLeft -u64 32) (offset +u64 1)
      else
        let* next := Storage_GetByUint64 s offset in
        ret (acc ++ drop (Z.to_nat (32 - bytesLeft)) (Hash_Bytes next))
  end.

Definition GetBytes (s : Storage) : M (list Z) :=
  let* bytesLeft := Storage_GetUint64ByUint64 s 0 in
  GetBytes_loop (Z.to_nat (bytesLeft / 32)) s [] bytesLeft 1.

Definition GetBytesSize (s : Storage) : M Z := Storage_GetUint64ByUint64 s 0.

(** [Keccak] burns 30 gas plus 6 for each 32-byte word. *)
Definition Storage_Keccak (data : list (list Z)) : M (list Z) :=
  let byteCount := fold_left (fun n part => n + Z.of_nat (length part)) data 0 in
  let cost := 30 +u64 (6 *u64 WordsForBytes (u64 byteCount)) in
  burn cost ;;;
  ret (Hash_Bytes (keccak256 (concat data))).

Definition Storage_KeccakHash (data : list (list Z)) : M Z :=
  let* bytes := Storage_Keccak data in
  ret (BytesToHash bytes).

(** ** Storage slots and the typed cells *)

Record StorageSlot := mkStorageSlot { slot_account : Z; slot_slot : Z }.

Definition NewSlot (s : Storage) (offset : Z) : StorageSlot :=
  mkStorageSlot (sto_account s) (mapAddress s (UintToHash offset)).

Definition StorageSlot_Get (ss : StorageSlot) : M Z :=
  burn StorageReadCost ;;;
  db_read (fun d => GetState d (slot_account ss) (slot_slot ss)).

Definition StorageSlot_Set (ss : StorageSlot) (value : Z) : M unit :=
  let* ro := read_only in
  if (ro : bool) then fail ErrWriteProtection
  else
    burn (writeCost value) ;;;
    db_write (fun d => SetState d (slot_account ss) (slot_slot ss) value).

(** An [int64] is stored as the [uint64] with the same bits. *)
Definition OpenStorageBackedInt64 (s : Storage) (offset : Z) : StorageSlot := NewSlot s offset.

Definition StorageBackedInt64_Get (sbu : StorageSlot) : M Z :=
  let* raw := StorageSlot_Get sbu in
  if negb (IsUint64 raw) then panic "invalid value found in StorageBackedInt64 storage"
  else ret (i64 (u64 raw)).

Definition StorageBackedInt64_Set (sbu : StorageSlot) (value : Z) : M unit :=
  StorageSlot_Set sbu (UintToHash (u64 value)).

Definition StorageBackedUint64_Get (sbu : StorageSlot) : M Z :=
  let* raw := StorageSlot_Get sbu in
  if negb (IsUint64 raw) then panic "expected uint64 compatible value in storage"
  else ret (u64 raw).

Definition OpenStorageBackedUint64 (s : Storage) (offset : Z) : StorageSlot := NewSlot s offset.

Definition StorageBackedUint64_Set (sbu : StorageSlot) (value : Z) : M unit :=
  StorageSlot_Set sbu (BigToHash value).

Definition StorageBackedUint64_Clear (sbu : StorageSlot) : M unit :=
  StorageBackedUint64_Set sbu 0.

Definition StorageBackedUint64_Increment (sbu : StorageSlot) : M Z :=
  let* old := StorageBackedUint64_Get sbu in
  if (old +u64 1) <? old then panic "Overflow in StorageBackedUint64::Increment"
  else
    StorageBackedUint64_Set sbu (old +u64 1) ;;;
    ret (old +u64 1).

Definition StorageBackedUint64_Decrement (sbu : StorageSlot) : M Z :=
  let* old := StorageBackedUint64_Get sbu in
  if old =? 0 then panic "Underflow in StorageBackedUint64::Decrement"
  else
    StorageBackedUint64_Set sbu (old -u64 1) ;;;
    ret (old -u64 1).

Definition OpenStorageBackedUint32 (s : Storage) (offset : Z) : StorageSlot := NewSlot s offset.

Definition StorageBackedUint32_Get (sbu : StorageSlot) : M Z :=
  let* raw := StorageSlot_Get sbu in
  if negb (IsUint64 raw) || (2 ^ 32 - 1 <? u64 raw)
  then panic "expected uint32 compatible value in storage"
  else ret (uwrap 32 (u64 raw)).

Definition StorageBackedUint32_Set (sbu : StorageSlot) (value : Z) : M unit :=
  StorageSlot_Set sbu (BigToHash value).

Definition twoToThe256 : Z := 2 ^ 256.
Definition twoToThe256MinusOne : Z := twoToThe256 - 1.
Definition twoToThe255 : Z := 2 ^ 255.
Definition twoToThe255MinusOne : Z := twoToThe255 - 1.

Definition OpenStorageBackedBigUint (s : Storage) (offset : Z) : StorageSlot := NewSlot s offset.

Definition StorageBackedBigUint_Get (sbbu : StorageSlot) : M Z := StorageSlot_Get sbbu.

Definition StorageBackedBigUint_SetChecked (sbbu : StorageSlot) (val : Z) : M unit :=
  if val <? 0 then handle_error (ErrNew "underflow in StorageBackedBigUint.Set")
  else if 256 <? BitLen val then handle_error (ErrNew "overflow in StorageBackedBigUint.Set")
  else StorageSlot_Set sbbu (BigToHash val).

Definition StorageBackedBigUint_SetSaturatingWithWarning (sbbu : StorageSlot) (val : Z) : M unit :=
  let val :=
    if val <? 0 then 0
    else if 256 <? BitLen val then twoToThe256MinusOne
    else val in
  StorageSlot_Set sbbu (BigToHash val).

Definition OpenStorageBackedBigInt (s : Storage) (offset : Z) : StorageSlot := NewSlot s offset.

Definition StorageBackedBigInt_Get (sbbi : StorageSlot) : M Z :=
  let* asBig := StorageSlot_Get sbbi in
  if Z.testbit asBig 255 then ret (asBig - twoToThe256) else ret asBig.

Definition StorageBackedBigInt_SetChecked (sbbi : StorageSlot) (val : Z) : M unit :=
  if val <? 0 then
    let val := val + twoToThe256 in
    if (BitLen val <? 256) || (val <=? 0)
    then handle_error (ErrNew "underflow in StorageBackedBigInt.Set")
    else StorageSlot_Set sbbi (BigToHash val)
  else if 256 <=? BitLen val
  then handle_error (ErrNew "overflow in StorageBackedBigInt.Set")
  else StorageSlot_Set sbbi (BigToHash val).

Definition StorageBackedBigInt_SetSaturatingWithWarning (sbbi : StorageSlot) (val : Z) : M unit :=
  let val :=
    if val <? 0 then
      let val := val + twoToThe256 in
      if (BitLen val <? 256) || (val <=? 0) then twoToThe255 else val
    else if 256 <=? BitLen val then twoToThe255MinusOne
    else val in
  StorageSlot_Set sbbi (BigToHash val).

Definition StorageBackedBigInt_Set_preVersion7 (sbbi : StorageSlot) (val : Z) : M unit :=
  StorageSlot_Set sbbi (BigToHash val).

Definition OpenStorageBackedAddress (s : Storage) (offset : Z) : StorageSlot := NewSlot s offset.

Definition StorageBackedAddress_Get (sba : StorageSlot) : M Z :=
  let* value := StorageSlot_Get sba in
  ret (BytesToAddress (Hash_Bytes value)).

Definition StorageBackedAddress_Set (sba : StorageSlot) (val : Z) : M unit :=
  StorageSlot_Set sba (AddressToHash val).

Definition NilAddressRepresentation : Z := BigToHash (Z.shiftl 1 255).

Definition OpenStorageBackedAddressOrNil (s : Storage) (offset : Z) : StorageSlot := NewSlot s offset.

Definition StorageBackedAddressOrNil_Get (sba : StorageSlot) : M (option Z) :=
  let* asHash := StorageSlot_Get sba in
  if asHash =? NilAddressRepresentation then ret None
  else ret (Some (BytesToAddress (Hash_Bytes asHash))).

Definition StorageBackedAddressOrNil_Set (sba : StorageSlot) (val : option Z) : M unit :=
  match val with
  | None => StorageSlot_Set sba NilAddressRepresentation
  | Some a => StorageSlot_Set sba (BytesToHash (Address_Bytes a))
  end.

Definition OpenStorageBackedBytes (s : Storage) (id : list Z) : Storage := OpenSubStorage s id.
Definition StorageBackedBytes_Get (sbb : Storage) : M (list Z) := GetBytes sbb.
Definition StorageBackedBytes_Set (sbb : Storage) (val : list Z) : M unit := SetBytes sbb val.
Definition StorageBackedBytes_Size (sbb : Storage) : M Z := GetBytesSize sbb.

End Storage.

Arguments mapAddress : simpl never.
Arguments Hash_Bytes : simpl never.
Arguments BigToHash : simpl never.
Arguments BytesToHash : simpl never.
Arguments BytesToAddress : simpl never.
#[global] Strategy 1000 [mapAddress Hash_Bytes BytesToHash BytesToAddress BigToHash be_bytes be].

(** ** MemoryBackedUint64: the in-memory implementation of [WrappedUint64] *)

Record MemoryBackedUint64 := mkMemoryBackedUint64 { mbu_contents : Z }.

Definition MemoryBackedUint64_Get (mbu : MemoryBackedUint64) : Z := mbu_contents mbu.

Definition MemoryBackedUint64_Set (mbu : MemoryBackedUint64) (val : Z) : MemoryBackedUint64 :=
  mkMemoryBackedUint64 val.

Definition MemoryBackedUint64_Increment (mbu : MemoryBackedUint64)
  : outcome (Z * MemoryBackedUint64) :=
  let old := mbu_contents mbu in
  if (old +u64 1) <? old then Panic "Overflow in MemoryBackedUint64::Increment"
  else Ok (old +u64 1, MemoryBackedUint64_Set mbu (old +u64 1)).

