(* ===== verification/StorageFacts.v ===== *)
(** * Lemmas on storage: slot arithmetic, separation of spaces, runs of the
    storage operations, round trips of the typed cells.

    Client components reason with [slot_get] and [slot_set] on the slots [skey]
    of their keys; two keys share no slot as long as keccak does not collide on
    the pages in use ([collision_free]). *)
From Stdlib Require Import ZArith Lia String List.
From stdpp Require Import base list numbers.
From S2P Require Import Prelude Arbmath Host Storage.
Open Scope Z_scope.

Lemma BigToHash_id v : in_u 256 v -> BigToHash v = v.
Proof. unfold in_u, BigToHash. intros. rewrite Z.abs_eq by lia. apply Z.mod_small. lia. Qed.

Lemma UintToHash_id v : in_u 64 v -> UintToHash v = v.
Proof. intros. apply BigToHash_id. unfold in_u in *. lia. Qed.

Lemma BytesToHash_bytes h : in_u 256 h -> BytesToHash (Hash_Bytes h) = h.
Proof.
  intros H. unfold BytesToHash, Hash_Bytes. rewrite be_be_bytes.
  change (256 ^ Z.of_nat 32) with (2 ^ 256). rewrite Z.mod_mod by lia.
  apply Z.mod_small. exact H.
Qed.

Lemma length_Hash_Bytes h : length (Hash_Bytes h) = 32%nat.
Proof. apply length_be_bytes. Qed.

Lemma AddressToHash_id a : in_u 160 a -> AddressToHash a = a.
Proof.
  intros H. unfold AddressToHash, BytesToHash, Address_Bytes. rewrite be_be_bytes.
  change (256 ^ Z.of_nat 20) with (2 ^ 160). unfold in_u in H. rewrite !(Z.mod_small a) by lia. reflexivity.
Qed.

Lemma BytesToAddress_bytes a : in_u 160 a -> BytesToAddress (Hash_Bytes a) = a.
Proof.
  intros H. unfold BytesToAddress, Hash_Bytes. rewrite be_be_bytes.
  change (256 ^ Z.of_nat 32) with (2 ^ 256). unfold in_u in H. rewrite !(Z.mod_small a) by lia. reflexivity.
Qed.

Lemma in_u_64_256 v : in_u 64 v -> in_u 256 v.
Proof. unfold in_u. lia. Qed.

Lemma in_u_160_256 v : in_u 160 v -> in_u 256 v.
Proof. unfold in_u. lia. Qed.

#[export] Hint Resolve in_u_64_256 in_u_160_256 : go.

Section Facts.
Context {E : Env} {EL : EnvLaws E}.

#[export] Instance StorageSlot_eq_dec : EqDecision StorageSlot.
Proof. intros [a s] [a' s']. unfold Decision. destruct (decide (a = a')), (decide (s = s')); [left|right..]; congruence. Defined.

(** The slot of a key of a space. *)
Definition skey (s : Storage) (k : Z) : StorageSlot := mkStorageSlot (sto_account s) (mapAddress s k).

Definition slot_get (d : DB) (x : StorageSlot) : Z := GetState d (slot_account x) (slot_slot x).
Definition slot_set (d : DB) (x : StorageSlot) (v : Z) : DB :=
  SetState d (slot_account x) (slot_slot x) v.

Lemma slot_get_set d x v y :
  slot_get (slot_set d x v) y = if decide (x = y) then v else slot_get d y.
Proof.
  unfold slot_get, slot_set. rewrite GetState_SetState.
  destruct x as [a s], y as [a' s']; cbn.
  repeat case_decide; try reflexivity; destruct_and?; naive_solver.
Qed.

Lemma slot_get_set_eq d x v : slot_get (slot_set d x v) x = v.
Proof. rewrite slot_get_set. case_decide; congruence. Qed.

Lemma slot_get_set_ne d x v y : x <> y -> slot_get (slot_set d x v) y = slot_get d y.
Proof. intros. rewrite slot_get_set. case_decide; congruence. Qed.

Lemma GetBalance_slot_set d x v a : GetBalance (slot_set d x v) a = GetBalance d a.
Proof. apply GetBalance_SetState. Qed.

Lemma NewSlot_skey s off : in_u 64 off -> NewSlot s off = skey s off.
Proof. intros. unfold NewSlot, skey. rewrite UintToHash_id by auto. reflexivity. Qed.

(** The slots of a space depend on its account and storage key only. *)
Lemma skey_same s s' k :
  sto_account s = sto_account s' -> sto_storageKey s = sto_storageKey s' -> skey s k = skey s' k.
Proof. intros H1 H2. unfold skey, mapAddress. rewrite H1, H2. reflexivity. Qed.

Lemma skey_WithoutCache s k : skey (WithoutCache s) k = skey s k.
Proof. apply skey_same; reflexivity. Qed.

(** A space without the cache is the same space. *)
Lemma mapAddress_WithoutCache s k : mapAddress (WithoutCache s) k = mapAddress s k.
Proof. unfold mapAddress. reflexivity. Qed.

Lemma Storage_GetByUint64_WithoutCache s k :
  Storage_GetByUint64 (WithoutCache s) k = Storage_GetByUint64 s k.
Proof. unfold Storage_GetByUint64, Storage_Get, Storage_GetFree. rewrite mapAddress_WithoutCache. reflexivity. Qed.

Lemma Storage_Set_WithoutCache s k v : Storage_Set (WithoutCache s) k v = Storage_Set s k v.
Proof. unfold Storage_Set. rewrite mapAddress_WithoutCache. reflexivity. Qed.

Lemma Storage_SetByUint64_WithoutCache s k v :
  Storage_SetByUint64 (WithoutCache s) k v = Storage_SetByUint64 s k v.
Proof. apply Storage_Set_WithoutCache. Qed.

Lemma Storage_ClearByUint64_WithoutCache s k :
  Storage_ClearByUint64 (WithoutCache s) k = Storage_ClearByUint64 s k.
Proof. apply Storage_Set_WithoutCache. Qed.

Lemma NewSlot_WithoutCache s k : NewSlot (WithoutCache s) k = NewSlot s k.
Proof. unfold NewSlot. rewrite mapAddress_WithoutCache. reflexivity. Qed.

(** ** Pages and separation *)

(** The bytes hashed for a key: the storage key and the page number. *)
Definition page (sk : list Z) (k : Z) : list Z := sk ++ be_bytes 31 (k / 256).

Lemma mapAddress_eq s k :
  in_u 256 k -> mapAddress s k = keccak256 (page (sto_storageKey s) k) / 256 * 256 + k mod 256.
Proof.
  intros Hk. unfold mapAddress, BytesToHash, Hash_Bytes, page.
  rewrite (be_bytes_S 31 k).
  rewrite take_app_length' by (rewrite length_be_bytes; reflexivity).
  rewrite drop_app_length' by (rewrite length_be_bytes; reflexivity).
  set (h := keccak256 _). pose proof (keccak256_range (sto_storageKey s ++ be_bytes 31 (k / 256))) as Hh.
  fold h in Hh. rewrite (be_bytes_S 31 h).
  rewrite take_app_length' by (rewrite length_be_bytes; reflexivity).
  rewrite be_snoc, be_be_bytes. unfold in_u in *.
  pose proof (Z.mod_pos_bound k 256 ltac:(lia)).
  assert (0 <= h / 256 < 2 ^ 248) by (split; [apply Z.div_pos|apply Z.div_lt_upper_bound]; lia).
  change (256 ^ Z.of_nat 31) with (2 ^ 248). rewrite (Z.mod_small (h / 256)) by lia.
  apply Z.mod_small. lia.
Qed.

(** Keccak, truncated to a page address, has no collision on the inputs [D]. *)
Definition collision_free (D : list Z -> Prop) : Prop :=
  forall x y, D x -> D y -> keccak256 x / 256 = keccak256 y / 256 -> x = y.

(** The pages of the keys [P] (pairs of a storage key and a key). *)
Definition pages (P : list Z -> Z -> Prop) (x : list Z) : Prop :=
  exists sk k, P sk k /\ in_u 256 k /\ x = page sk k.

Lemma page_inj sk k sk' k' :
  in_u 256 k -> in_u 256 k' -> page sk k = page sk' k' -> sk = sk' /\ k / 256 = k' / 256.
Proof.
  unfold page, in_u. intros Hk Hk' H.
  apply app_inj_2 in H as [H1 H2]; [|rewrite !length_be_bytes; reflexivity].
  split; [exact H1|]. eapply be_bytes_inj; [..|exact H2];
    (split; [apply Z.div_pos|apply Z.div_lt_upper_bound]; cbn; lia).
Qed.

Lemma byte_split h h' r r' :
  0 <= r < 256 -> 0 <= r' < 256 -> h * 256 + r = h' * 256 + r' -> h = h' /\ r = r'.
Proof. lia. Qed.

Lemma slot_slot_skey s k : slot_slot (skey s k) = mapAddress s k.
Proof. reflexivity. Qed.

Lemma skey_inj P s k s' k' :
  collision_free (pages P) ->
  P (sto_storageKey s) k -> P (sto_storageKey s') k' -> in_u 256 k -> in_u 256 k' ->
  skey s k = skey s' k' -> sto_storageKey s = sto_storageKey s' /\ k = k'.
Proof.
  intros HC HP HP' Hk Hk' H. apply (f_equal slot_slot) in H.
  rewrite !slot_slot_skey, !mapAddress_eq in H by auto.
  apply byte_split in H as [Hpg Hmod]; [|apply Z.mod_pos_bound; lia..].
  apply HC in Hpg; [|exists (sto_storageKey s), k|exists (sto_storageKey s'), k']; auto.
  destruct (page_inj _ _ _ _ Hk Hk' Hpg) as [Hsk Hdiv]. split; [exact Hsk|].
  rewrite (Z.div_mod k 256), (Z.div_mod k' 256) by lia. lia.
Qed.

(** ** Frames *)

(** [d'] differs from [d] in slots of [P] only; balances and logs are unchanged. *)
Definition frame (P : StorageSlot -> Prop) (d d' : DB) : Prop :=
  (forall x, ~ P x -> slot_get d' x = slot_get d x) /\
  (forall a, GetBalance d' a = GetBalance d a) /\
  GetCurrentTxLogs d' = GetCurrentTxLogs d.

#[export] Instance frame_preorder P : PreOrder (frame P).
Proof.
  split.
  - intros d. repeat split.
  - intros d1 d2 d3 (A1 & B1 & C1) (A2 & B2 & C2). split; [|split]; intros; [rewrite A2, A1|rewrite B2, B1|rewrite C2, C1]; auto.
Qed.

Lemma frame_set (P : StorageSlot -> Prop) d x v : P x -> frame P d (slot_set d x v).
Proof.
  intros Hx. split; [|split]; intros; [|apply GetBalance_slot_set|apply logs_SetState].
  apply slot_get_set_ne. intros ->. auto.
Qed.

Lemma frame_set_trans (P : StorageSlot -> Prop) d d' x v :
  P x -> frame P d d' -> frame P d (slot_set d' x v).
Proof. intros Hx H. etransitivity; [exact H|]. apply frame_set, Hx. Qed.

Lemma frame_weaken (P Q : StorageSlot -> Prop) d d' :
  (forall x, P x -> Q x) -> frame P d d' -> frame Q d d'.
Proof. intros HPQ [A B]. split; auto. Qed.
End Facts.

(** ** Runs of the storage operations *)
Section Runs.
Context {E : Env} {EL : EnvLaws E}.

Lemma writeCost_bounds v : 0 <= writeCost v <= 20000.
Proof. unfold writeCost. destruct (v =? 0); cbv; split; discriminate. Qed.

Lemma StorageSlot_Get_runs x d : runs 800 (StorageSlot_Get x) d (Ok (slot_get d x)) d.
Proof.
  unfold StorageSlot_Get. change 800 with (StorageReadCost + 0).
  eapply runs_bind; [apply runs_burn; cbv; discriminate|].
  apply (runs_db_read (fun d => slot_get d x)).
Qed.

Lemma StorageSlot_Set_runs x v d : runs 20000 (StorageSlot_Set x v) d (Ok tt) (slot_set d x v).
Proof.
  pose proof (writeCost_bounds v). apply (runs_le (0 + (writeCost v + 0))); [|lia].
  unfold StorageSlot_Set. eapply runs_bind; [apply runs_read_only|].
  eapply runs_bind; [apply runs_burn; lia|].
  apply (runs_db_write (fun d => slot_set d x v)).
Qed.

Lemma Storage_GetFree_runs s k d : runs 0 (Storage_GetFree s k) d (Ok (slot_get d (skey s k))) d.
Proof. apply (runs_db_read (fun d => slot_get d (skey s k))). Qed.

Lemma Storage_Get_runs s k d : runs 800 (Storage_Get s k) d (Ok (slot_get d (skey s k))) d.
Proof. exact (StorageSlot_Get_runs (skey s k) d). Qed.

Lemma Storage_Set_runs s k v d :
  runs 20000 (Storage_Set s k v) d (Ok tt) (slot_set d (skey s k) v).
Proof. exact (StorageSlot_Set_runs (skey s k) v d). Qed.

Lemma Storage_GetByUint64_runs s k d :
  in_u 64 k -> runs 800 (Storage_GetByUint64 s k) d (Ok (slot_get d (skey s k))) d.
Proof. intros. unfold Storage_GetByUint64. rewrite UintToHash_id by auto. apply Storage_Get_runs. Qed.

Lemma Storage_GetUint64_runs s k d :
  in_u 64 (slot_get d (skey s k)) ->
  runs 800 (Storage_GetUint64 s k) d (Ok (slot_get d (skey s k))) d.
Proof.
  intros. unfold Storage_GetUint64. change 800 with (800 + 0).
  eapply runs_bind; [apply Storage_Get_runs|]. rewrite uwrap_id by auto. apply runs_ret.
Qed.

Lemma Storage_GetUint64ByUint64_runs s k d :
  in_u 64 k -> in_u 64 (slot_get d (skey s k)) ->
  runs 800 (Storage_GetUint64ByUint64 s k) d (Ok (slot_get d (skey s k))) d.
Proof.
  intros. unfold Storage_GetUint64ByUint64. rewrite UintToHash_id by auto.
  apply Storage_GetUint64_runs; auto.
Qed.

Lemma Storage_SetByUint64_runs s k v d :
  in_u 64 k -> runs 20000 (Storage_SetByUint64 s k v) d (Ok tt) (slot_set d (skey s k) v).
Proof. intros. unfold Storage_SetByUint64. rewrite UintToHash_id by auto. apply Storage_Set_runs. Qed.

Lemma Storage_SetUint64ByUint64_runs s k v d :
  in_u 64 k -> in_u 64 v ->
  runs 20000 (Storage_SetUint64ByUint64 s k v) d (Ok tt) (slot_set d (skey s k) v).
Proof.
  intros. unfold Storage_SetUint64ByUint64. rewrite !UintToHash_id by auto. apply Storage_Set_runs.
Qed.

Lemma Storage_Clear_runs s k d :
  runs 20000 (Storage_Clear s k) d (Ok tt) (slot_set d (skey s k) 0).
Proof. apply Storage_Set_runs. Qed.

Lemma Storage_ClearByUint64_runs s k d :
  in_u 64 k -> runs 20000 (Storage_ClearByUint64 s k) d (Ok tt) (slot_set d (skey s k) 0).
Proof. apply Storage_SetByUint64_runs. Qed.

Lemma Storage_Swap_runs s k v d :
  runs 20800 (Storage_Swap s k v) d (Ok (slot_get d (skey s k))) (slot_set d (skey s k) v).
Proof.
  unfold Storage_Swap. change 20800 with (800 + (20000 + 0)).
  eapply runs_bind; [apply Storage_Get_runs|].
  eapply runs_bind; [apply Storage_Set_runs|apply runs_ret].
Qed.

Lemma StorageBackedUint64_Get_runs x d :
  in_u 64 (slot_get d x) -> runs 800 (StorageBackedUint64_Get x) d (Ok (slot_get d x)) d.
Proof.
  intros H. unfold StorageBackedUint64_Get. change 800 with (800 + 0).
  eapply runs_bind; [apply StorageSlot_Get_runs|].
  rewrite IsUint64_true, uwrap_id by auto. apply runs_ret.
Qed.

Lemma StorageBackedUint64_Set_runs x v d :
  in_u 64 v -> runs 20000 (StorageBackedUint64_Set x v) d (Ok tt) (slot_set d x v).
Proof.
  intros. unfold StorageBackedUint64_Set. rewrite BigToHash_id by auto with go.
  apply StorageSlot_Set_runs.
Qed.

Lemma StorageBackedUint64_Increment_runs x d :
  0 <= slot_get d x < 2 ^ 64 - 1 ->
  runs 20800 (StorageBackedUint64_Increment x) d (Ok (slot_get d x + 1))
    (slot_set d x (slot_get d x + 1)).
Proof.
  intros H. unfold StorageBackedUint64_Increment. change 20800 with (800 + (20000 + 0)).
  eapply runs_bind; [apply StorageBackedUint64_Get_runs; unfold in_u; lia|].
  rewrite uwrap_id by (unfold in_u; lia). destruct (Z.ltb_spec (slot_get d x + 1) (slot_get d x)); [lia|].
  eapply runs_bind; [apply StorageBackedUint64_Set_runs; unfold in_u; lia|apply runs_ret].
Qed.

Lemma StorageBackedUint64_Increment_overflow x d :
  slot_get d x = 2 ^ 64 - 1 ->
  runs 800 (StorageBackedUint64_Increment x) d
    (Panic "Overflow in StorageBackedUint64::Increment") d.
Proof.
  intros H. unfold StorageBackedUint64_Increment. change 800 with (800 + 0).
  eapply runs_bind; [apply StorageBackedUint64_Get_runs; rewrite H; unfold in_u; lia|].
  rewrite H. apply runs_panic.
Qed.

Lemma StorageBackedUint64_Decrement_runs x d :
  0 < slot_get d x < 2 ^ 64 ->
  runs 20800 (StorageBackedUint64_Decrement x) d (Ok (slot_get d x - 1))
    (slot_set d x (slot_get d x - 1)).
Proof.
  intros H. unfold StorageBackedUint64_Decrement. change 20800 with (800 + (20000 + 0)).
  eapply runs_bind; [apply StorageBackedUint64_Get_runs; unfold in_u; lia|].
  destruct (Z.eqb_spec (slot_get d x) 0); [lia|]. rewrite uwrap_id by (unfold in_u; lia).
  eapply runs_bind; [apply StorageBackedUint64_Set_runs; unfold in_u; lia|apply runs_ret].
Qed.

Lemma StorageBackedAddress_Get_runs x d :
  in_u 160 (slot_get d x) -> runs 800 (StorageBackedAddress_Get x) d (Ok (slot_get d x)) d.
Proof.
  intros H. unfold StorageBackedAddress_Get. change 800 with (800 + 0).
  eapply runs_bind; [apply StorageSlot_Get_runs|]. rewrite BytesToAddress_bytes by auto.
  apply runs_ret.
Qed.

Lemma StorageBackedAddress_Set_runs x v d :
  in_u 160 v -> runs 20000 (StorageBackedAddress_Set x v) d (Ok tt) (slot_set d x v).
Proof.
  intros. unfold StorageBackedAddress_Set. rewrite AddressToHash_id by auto.
  apply StorageSlot_Set_runs.
Qed.

Lemma Storage_Keccak_runs data d G :
  Z.of_nat (length (concat data)) < 2 ^ 32 ->
  G = 30 + 6 * ((Z.of_nat (length (concat data)) + 31) / 32) ->
  runs G (Storage_Keccak data) d (Ok (Hash_Bytes (keccak256 (concat data)))) d.
Proof.
  intros Hl ->. unfold Storage_Keccak.
  assert (forall l n, fold_left (fun n (part : list Z) => n + Z.of_nat (length part)) l n
    = n + Z.of_nat (length (concat l))) as Hf.
  { induction l as [|x l IH]; intros n; cbn [fold_left concat length]; [lia|].
    rewrite IH, length_app. lia. }
  rewrite Hf, Z.add_0_l. set (n := Z.of_nat _) in *. assert (0 <= n) by lia.
  assert (0 <= (n + 31) / 32 < 2 ^ 32) by (split; [apply Z.div_pos|apply Z.div_lt_upper_bound]; lia).
  unfold WordsForBytes. rewrite (uwrap_id 64 n), (uwrap_id 64 (n + 31)) by (unfold in_u; lia).
  rewrite (uwrap_id 64 (6 * _)), (uwrap_id 64 (30 + _)) by (unfold in_u; lia).
  apply (runs_le (30 + 6 * ((n + 31) / 32) + 0)); [|lia].
  eapply runs_bind; [apply runs_burn; lia|apply runs_ret].
Qed.

Lemma Storage_KeccakHash_runs data d G :
  Z.of_nat (length (concat data)) < 2 ^ 32 ->
  G = 30 + 6 * ((Z.of_nat (length (concat data)) + 31) / 32) ->
  runs G (Storage_KeccakHash data) d (Ok (keccak256 (concat data))) d.
Proof.
  intros Hl HG. apply (runs_le (G + 0)); [|lia]. unfold Storage_KeccakHash.
  eapply runs_bind; [apply Storage_Keccak_runs; assumption|].
  rewrite BytesToHash_bytes by apply keccak256_range. apply runs_ret.
Qed.

Lemma NilAddressRepresentation_eq : NilAddressRepresentation = 2 ^ 255.
Proof. reflexivity. Qed.

End Runs.

#[export] Hint Resolve StorageSlot_Get_runs StorageSlot_Set_runs Storage_GetFree_runs
  Storage_Get_runs Storage_Set_runs Storage_GetByUint64_runs Storage_GetUint64_runs
  Storage_GetUint64ByUint64_runs Storage_SetByUint64_runs Storage_SetUint64ByUint64_runs
  Storage_Clear_runs Storage_ClearByUint64_runs Storage_Swap_runs
  StorageBackedUint64_Get_runs StorageBackedUint64_Set_runs StorageBackedUint64_Increment_runs
  StorageBackedUint64_Decrement_runs StorageBackedAddress_Get_runs
  StorageBackedAddress_Set_runs : runs.

(** ** The typed cells *)

Lemma BitLen_le z n : 0 <= n -> (BitLen z <= n <-> Z.abs z < 2 ^ n).
Proof.
  intros Hn. unfold BitLen. destruct (Z.eqb_spec z 0) as [->|Hz].
  - split; intros; [apply pow2_pos; lia|lia].
  - pose proof (Z.log2_lt_pow2 (Z.abs z) n ltac:(lia)). lia.
Qed.

Lemma testbit_top x : in_u 256 x -> Z.testbit x 255 = (2 ^ 255 <=? x).
Proof.
  intros [H0 H1]. apply Bool.eq_true_iff_eq. rewrite Z.testbit_true, Z.leb_le by lia.
  assert (0 <= x / 2 ^ 255 < 2) by (split; [apply Z.div_pos|apply Z.div_lt_upper_bound]; lia).
  rewrite Z.mod_small by lia. split; intros Hx.
  - destruct (Z_lt_ge_dec x (2 ^ 255)); [|lia]. rewrite Z.div_small in Hx by lia. lia.
  - assert (1 <= x / 2 ^ 255) by (apply Z.div_le_lower_bound; lia). lia.
Qed.

(** Two's complement: the word a signed cell stores, and what it is read as. *)
Definition bigint_decode (x : Z) : Z := if 2 ^ 255 <=? x then x - 2 ^ 256 else x.

Definition clamp (lo hi v : Z) : Z := Z.max lo (Z.min v hi).

Section Cells.
Context {E : Env} {EL : EnvLaws E}.

Lemma StorageBackedBigInt_Get_runs x d :
  in_u 256 (slot_get d x) ->
  runs 800 (StorageBackedBigInt_Get x) d (Ok (bigint_decode (slot_get d x))) d.
Proof.
  intros H. unfold StorageBackedBigInt_Get, bigint_decode. change 800 with (800 + 0).
  eapply runs_bind; [apply StorageSlot_Get_runs|]. cbv beta. rewrite testbit_top by auto.
  destruct (2 ^ 255 <=? slot_get d x); apply runs_ret.
Qed.

Lemma StorageBackedBigInt_SetSaturating_runs x v d :
  exists u, runs 20000 (StorageBackedBigInt_SetSaturatingWithWarning x v) d (Ok tt) (slot_set d x u) /\
    in_u 256 u /\ bigint_decode u = clamp (- 2 ^ 255) (2 ^ 255 - 1) v.
Proof.
  unfold StorageBackedBigInt_SetSaturatingWithWarning, clamp, bigint_decode.
  unfold twoToThe256, twoToThe255MinusOne, twoToThe255.
  pose proof (BitLen_le (v + 2 ^ 256) 255 ltac:(lia)). pose proof (BitLen_le v 255 ltac:(lia)).
  set (w := if v <? 0 then _ else _).
  assert (Hw : in_u 256 w /\ (if 2 ^ 255 <=? w then w - 2 ^ 256 else w) = Z.max (- 2 ^ 255) (Z.min v (2 ^ 255 - 1))).
  { unfold in_u. subst w. destruct (Z.ltb_spec v 0).
    - destruct (Z.ltb_spec (BitLen (v + 2 ^ 256)) 256), (Z.leb_spec (v + 2 ^ 256) 0);
        cbn [orb]; zbool; lia.
    - destruct (Z.leb_spec 256 (BitLen v)); zbool; lia. }
  exists w. rewrite BigToHash_id by apply Hw. split; [apply StorageSlot_Set_runs|exact Hw].
Qed.

Lemma StorageBackedBigInt_SetChecked_runs x v d :
  - 2 ^ 255 <= v < 2 ^ 255 ->
  exists u, runs 20000 (StorageBackedBigInt_SetChecked x v) d (Ok tt) (slot_set d x u) /\
    in_u 256 u /\ bigint_decode u = v.
Proof.
  intros Hv. unfold StorageBackedBigInt_SetChecked, bigint_decode, twoToThe256.
  pose proof (BitLen_le (v + 2 ^ 256) 255 ltac:(lia)). pose proof (BitLen_le v 255 ltac:(lia)).
  destruct (Z.ltb_spec v 0).
  - exists (v + 2 ^ 256). destruct (Z.ltb_spec (BitLen (v + 2 ^ 256)) 256); [lia|].
    destruct (Z.leb_spec (v + 2 ^ 256) 0); [lia|]. cbn [orb].
    rewrite BigToHash_id by (unfold in_u; lia).
    split; [apply StorageSlot_Set_runs|]. unfold in_u. zbool; lia.
  - exists v. destruct (Z.leb_spec 256 (BitLen v)); [lia|].
    rewrite BigToHash_id by (unfold in_u; lia).
    split; [apply StorageSlot_Set_runs|]. unfold in_u. zbool; lia.
Qed.

Lemma StorageBackedBigUint_SetChecked_runs x v d :
  in_u 256 v -> runs 20000 (StorageBackedBigUint_SetChecked x v) d (Ok tt) (slot_set d x v).
Proof.
  intros [H0 H1]. unfold StorageBackedBigUint_SetChecked.
  pose proof (BitLen_le v 256 ltac:(lia)). zbool; [lia|lia|].
  rewrite BigToHash_id by (unfold in_u; lia). apply StorageSlot_Set_runs.
Qed.

Lemma StorageBackedBigUint_SetSaturating_runs x v d :
  runs 20000 (StorageBackedBigUint_SetSaturatingWithWarning x v) d (Ok tt)
    (slot_set d x (clamp 0 (2 ^ 256 - 1) v)).
Proof.
  unfold StorageBackedBigUint_SetSaturatingWithWarning, clamp, twoToThe256MinusOne, twoToThe256.
  pose proof (BitLen_le v 256 ltac:(lia)).
  set (w := if v <? 0 then _ else _).
  assert (w = Z.max 0 (Z.min v (2 ^ 256 - 1))) as -> by (subst w; zbool; lia).
  rewrite BigToHash_id by (unfold in_u; lia). apply StorageSlot_Set_runs.
Qed.

Lemma StorageBackedInt64_Set_runs x v d :
  runs 20000 (StorageBackedInt64_Set x v) d (Ok tt) (slot_set d x (u64 v)).
Proof.
  unfold StorageBackedInt64_Set. rewrite UintToHash_id by auto with go. apply StorageSlot_Set_runs.
Qed.

Lemma StorageBackedInt64_Get_runs x d :
  in_u 64 (slot_get d x) -> runs 800 (StorageBackedInt64_Get x) d (Ok (i64 (slot_get d x))) d.
Proof.
  intros H. unfold StorageBackedInt64_Get. change 800 with (800 + 0).
  eapply runs_bind; [apply StorageSlot_Get_runs|].
  rewrite IsUint64_true, (uwrap_id 64) by auto. apply runs_ret.
Qed.

Lemma StorageBackedAddressOrNil_Set_runs x o d :
  (forall a, o = Some a -> in_u 160 a) ->
  exists u, runs 20000 (StorageBackedAddressOrNil_Set x o) d (Ok tt) (slot_set d x u) /\
    u = match o with Some a => a | None => 2 ^ 255 end.
Proof.
  intros H. destruct o as [a|]; cbn [StorageBackedAddressOrNil_Set].
  - exists a. change (BytesToHash (Address_Bytes a)) with (AddressToHash a).
    rewrite AddressToHash_id by auto. split; [apply StorageSlot_Set_runs|reflexivity].
  - exists (2 ^ 255). rewrite NilAddressRepresentation_eq. split; [apply StorageSlot_Set_runs|reflexivity].
Qed.

Lemma StorageBackedAddressOrNil_Get_runs x d o :
  slot_get d x = match o with Some a => a | None => 2 ^ 255 end ->
  (forall a, o = Some a -> in_u 160 a) ->
  runs 800 (StorageBackedAddressOrNil_Get x) d (Ok o) d.
Proof.
  intros Hx H. unfold StorageBackedAddressOrNil_Get. change 800 with (800 + 0).
  eapply runs_bind; [apply StorageSlot_Get_runs|]. cbv beta.
  rewrite Hx, NilAddressRepresentation_eq. destruct o as [a|].
  - pose proof (H a eq_refl) as [Ha1 Ha2]. destruct (Z.eqb_spec a (2 ^ 255)); [lia|].
    rewrite BytesToAddress_bytes by (unfold in_u; lia). apply runs_ret.
  - rewrite Z.eqb_refl. apply runs_ret.
Qed.
End Cells.

#[export] Hint Resolve StorageBackedBigInt_Get_runs StorageBackedBigUint_SetChecked_runs
  StorageBackedBigUint_SetSaturating_runs StorageBackedInt64_Get_runs
  StorageBackedInt64_Set_runs StorageBackedAddressOrNil_Get_runs : runs.

(** ** Integer keys of one space *)

(** The keys [UintToHash n] of the space with storage key [sk]. *)
Definition uint_keys (sk : list Z) (sk' : list Z) (k : Z) : Prop := sk' = sk /\ in_u 64 k.

Section UintKeys.
Context {E : Env} {EL : EnvLaws E}.

(** The slots of the keys between [lo] and [hi]. *)
Definition keys_between (s : Storage) (lo hi : Z) (x : StorageSlot) : Prop :=
  exists k, lo <= k <= hi /\ x = skey s k.

Lemma skey_uint_inj s k k' :
  collision_free (pages (uint_keys (sto_storageKey s))) ->
  in_u 64 k -> in_u 64 k' -> skey s k = skey s k' -> k = k'.
Proof.
  intros NC Hk Hk' H. eapply (skey_inj _ s k s k' NC) in H; unfold uint_keys; auto with go.
  apply H.
Qed.

Lemma keys_between_not s lo hi k :
  collision_free (pages (uint_keys (sto_storageKey s))) ->
  0 <= lo -> hi < 2 ^ 64 -> in_u 64 k -> ~ (lo <= k <= hi) -> ~ keys_between s lo hi (skey s k).
Proof.
  intros NC Hlo Hhi Hk Hn (k' & Hk' & H). apply skey_uint_inj in H; auto.
  - subst. auto.
  - unfold in_u. lia.
Qed.

Lemma frame_between_get s lo hi d d' k :
  collision_free (pages (uint_keys (sto_storageKey s))) ->
  frame (keys_between s lo hi) d d' ->
  0 <= lo -> hi < 2 ^ 64 -> in_u 64 k -> ~ (lo <= k <= hi) ->
  slot_get d' (skey s k) = slot_get d (skey s k).
Proof. intros NC [HF _] Hlo Hhi Hk Hn. apply HF. apply keys_between_not; auto. Qed.

Lemma keys_between_weaken s lo hi lo' hi' x :
  lo' <= lo -> hi <= hi' -> keys_between s lo hi x -> keys_between s lo' hi' x.
Proof. intros H1 H2 (k & Hk & ->). exists k. split; [lia|reflexivity]. Qed.
Lemma skey_uint_ne s k k' :
  collision_free (pages (uint_keys (sto_storageKey s))) ->
  in_u 64 k -> in_u 64 k' -> k <> k' -> skey s k <> skey s k'.
Proof. intros NC H1 H2 Hne H. apply Hne. eapply skey_uint_inj; eauto. Qed.
End UintKeys.

(** Bounds of machine integers. *)
Ltac uint := unfold in_u, in_s in *; lia.

Create Rewrite HintDb storage.
#[export] Hint Rewrite @Storage_GetByUint64_WithoutCache @Storage_Set_WithoutCache
  @Storage_SetByUint64_WithoutCache @Storage_ClearByUint64_WithoutCache
  @NewSlot_WithoutCache @skey_WithoutCache : storage.

(** ** Families of spaces

    The spaces of a component: distinct storage keys, and no two pages of keys
    below [2 ^ 160] that collide. *)
Section Spaces.
Context {E : Env} {EL : EnvLaws E}.

Definition spaces_keys (sps : list Storage) (sk : list Z) (k : Z) : Prop :=
  sk ∈ map sto_storageKey sps /\ in_u 160 k.

Definition spaces_ok (sps : list Storage) : Prop :=
  NoDup (map sto_storageKey sps) /\ collision_free (pages (spaces_keys sps)).

Lemma spaces_skey_inj sps s s' k k' :
  spaces_ok sps -> s ∈ sps -> s' ∈ sps -> in_u 160 k -> in_u 160 k' ->
  skey s k = skey s' k' -> sto_storageKey s = sto_storageKey s' /\ k = k'.
Proof.
  intros [_ NC] Hs Hs' Hk Hk' H. apply (skey_inj _ _ _ _ _ NC) in H; auto with go;
    split; auto; apply list_elem_of_fmap; eauto.
Qed.

Lemma spaces_key_ne sps i j s s' :
  spaces_ok sps -> sps !! i = Some s -> sps !! j = Some s' -> i <> j -> sto_storageKey s <> sto_storageKey s'.
Proof.
  intros [Hnd _] Hi Hj Hne He. apply Hne. eapply (NoDup_lookup _ i j (sto_storageKey s) Hnd).
  - change (map sto_storageKey sps) with (sto_storageKey <$> sps). rewrite list_lookup_fmap, Hi. reflexivity.
  - change (map sto_storageKey sps) with (sto_storageKey <$> sps). rewrite list_lookup_fmap, Hj, He. reflexivity.
Qed.

(** Slots of different spaces, or of different keys of one space, differ. *)
Lemma spaces_slot_ne sps i j s s' k k' :
  spaces_ok sps -> sps !! i = Some s -> sps !! j = Some s' -> in_u 160 k -> in_u 160 k' ->
  i <> j \/ k <> k' -> skey s k <> skey s' k'.
Proof.
  intros H Hi Hj Hk Hk' Hor He.
  apply (spaces_skey_inj sps) in He as [He1 He2]; auto; try (eapply list_elem_of_lookup_2; eauto).
  destruct Hor as [Hne|Hne]; [|auto]. exact (spaces_key_ne sps i j s s' H Hi Hj Hne He1).
Qed.

Lemma spaces_uint_keys sps s : spaces_ok sps -> s ∈ sps ->
  collision_free (pages (uint_keys (sto_storageKey s))).
Proof.
  intros [_ NC] Hs x y (sk & k & [-> Hk] & Hk' & ->) (sk2 & k2 & [-> Hk2] & Hk2' & ->) H.
  assert (forall k, in_u 64 k -> spaces_keys sps (sto_storageKey s) k).
  { intros k0 [H0 H1]. split; [apply list_elem_of_fmap; eauto|]. split; [exact H0|].
    eapply Z.lt_trans; [exact H1|reflexivity]. }
  apply NC; [do 2 eexists; eauto|do 2 eexists; eauto|exact H].
Qed.

(** The slots of the 64-bit keys of a space. *)
Definition uint_slots (s : Storage) (x : StorageSlot) : Prop := exists k, in_u 64 k /\ x = skey s k.

Lemma uint_slots_disjoint sps i j s s' x :
  spaces_ok sps -> sps !! i = Some s -> sps !! j = Some s' -> i <> j -> uint_slots s x -> ~ uint_slots s' x.
Proof.
  intros H Hi Hj Hne (k & [Hk0 Hk1] & ->) (k' & [Hk0' Hk1'] & He). revert He.
  apply (spaces_slot_ne sps i j _ _ _ _ H Hi Hj); [split; lia|split; lia|left; exact Hne].
Qed.

Lemma frame_keys_between s lo hi d d' : 0 <= lo -> hi < 2 ^ 64 ->
  frame (keys_between s lo hi) d d' -> frame (uint_slots s) d d'.
Proof. intros Hlo Hhi. apply frame_weaken. intros x (k & Hk & ->). exists k. split; [split; lia|reflexivity]. Qed.

Lemma frame_set_uint s d k v : in_u 64 k -> frame (uint_slots s) d (slot_set d (skey s k) v).
Proof. intros Hk. apply frame_set. exists k. auto. Qed.
End Spaces.
