(* ===== verification/Refine.v ===== *)
(** * Refinement of storage by an abstract state

    [refines I m st r st']: on every database that represents the abstract
    state [st] under [I], and with enough gas, the computation [m] ends with
    the outcome [r] on a database that represents [st']. The rules below let a
    Go function be followed on the abstract state, one call at a time. *)
From Stdlib Require Import ZArith Lia String List.
From stdpp Require Import base list numbers.
From S2P Require Import Prelude Arbmath Host Storage StorageFacts.
Open Scope Z_scope.

Section Refines.
Context {E : Env} {EL : EnvLaws E} {St : Type} (I : St -> DB -> Prop).

Definition refines {A} (m : M A) (st : St) (r : outcome A) (st' : St) : Prop :=
  forall d, I st d -> exists G d', runs G m d r d' /\ I st' d'.

Lemma refines_ret {A} (a : A) st : refines (ret a) st (Ok a) st.
Proof. intros d H. exists 0, d. split; [apply runs_ret|exact H]. Qed.

Lemma refines_lift {A} (o : outcome A) st : refines (lift o) st o st.
Proof. intros d H. exists 0, d. split; [apply runs_lift|exact H]. Qed.

Lemma refines_fail {A} e st : refines (@fail E A e) st (Err e) st.
Proof. intros d H. exists 0, d. split; [apply runs_fail|exact H]. Qed.

Lemma refines_panic {A} msg st : refines (@panic E A msg) st (Panic msg) st.
Proof. intros d H. exists 0, d. split; [apply runs_panic|exact H]. Qed.

Lemma refines_bind {A B} (m : M A) (k : A -> M B) st a st1 r st2 :
  refines m st (Ok a) st1 -> refines (k a) st1 r st2 -> refines (bind m k) st r st2.
Proof.
  intros H1 H2 d H. destruct (H1 d H) as (G1 & d1 & R1 & I1). destruct (H2 d1 I1) as (G2 & d2 & R2 & I2).
  exists (G1 + G2), d2. split; [eapply runs_bind; eauto|exact I2].
Qed.

Lemma refines_bind_err {A B} (m : M A) (k : A -> M B) st e st1 :
  refines m st (Err e) st1 -> refines (bind m k) st (Err e) st1.
Proof.
  intros H1 d H. destruct (H1 d H) as (G1 & d1 & R1 & I1).
  exists G1, d1. split; [apply runs_bind_err, R1|exact I1].
Qed.

Lemma refines_ignore {A} (m : M A) st a st' : refines m st (Ok a) st' -> refines (ignore m) st (Ok tt) st'.
Proof.
  intros H1 d H. destruct (H1 d H) as (G1 & d1 & R1 & I1).
  exists G1, d1. split; [eapply runs_ignore, R1|exact I1].
Qed.

Lemma refines_value_or {A} (m : M A) z st a st' :
  refines m st (Ok a) st' -> refines (value_or z m) st (Ok a) st'.
Proof.
  intros H1 d H. destruct (H1 d H) as (G1 & d1 & R1 & I1).
  exists G1, d1. split; [apply runs_value_or, R1|exact I1].
Qed.

Lemma refines_attempt {A} (m : M A) st a st' :
  refines m st (Ok a) st' -> refines (attempt m) st (Ok (Ok a)) st'.
Proof.
  intros H1 d H. destruct (H1 d H) as (G1 & d1 & R1 & I1).
  exists G1, d1. split; [apply runs_attempt_ok, R1|exact I1].
Qed.

Lemma refines_attempt_err {A} (m : M A) st e st' :
  refines m st (Err e) st' -> refines (attempt m) st (Ok (Err e)) st'.
Proof.
  intros H1 d H. destruct (H1 d H) as (G1 & d1 & R1 & I1).
  exists G1, d1. split; [apply runs_attempt_err, R1|exact I1].
Qed.

Lemma refines_catch {A B} (m : M A) onErr (k : A -> M B) st a st1 r st2 :
  refines m st (Ok a) st1 -> refines (k a) st1 r st2 -> refines (catch m onErr k) st r st2.
Proof. intros H1 H2. eapply refines_bind; [apply refines_attempt, H1|exact H2]. Qed.

Lemma refines_catch_err {A B} (m : M A) onErr (k : A -> M B) st e st1 r st2 :
  refines m st (Err e) st1 -> refines (onErr e) st1 r st2 -> refines (catch m onErr k) st r st2.
Proof. intros H1 H2. eapply refines_bind; [apply refines_attempt_err, H1|exact H2]. Qed.

Lemma refines_burn c st : 0 <= c -> refines (burn c) st (Ok tt) st.
Proof. intros Hc d H. exists c, d. split; [apply runs_burn, Hc|exact H]. Qed.

Lemma refines_bind_panic {A B} (m : M A) (k : A -> M B) st msg st1 :
  refines m st (Panic msg) st1 -> refines (bind m k) st (Panic msg) st1.
Proof.
  intros H1 d H. destruct (H1 d H) as (G1 & d1 & R1 & I1).
  exists G1, d1. split; [apply runs_bind_panic, R1|exact I1].
Qed.

(** Reads that leave the database as it is. *)
Lemma refines_read {A} G (m : M A) st a :
  (forall d, I st d -> runs G m d (Ok a) d) -> refines m st (Ok a) st.
Proof. intros H d Hd. exists G, d. auto. Qed.

(** Writes. *)
Lemma refines_write {A} G (m : M A) st a st' :
  (forall d, I st d -> exists d', runs G m d (Ok a) d' /\ I st' d') -> refines m st (Ok a) st'.
Proof. intros H d Hd. destruct (H d Hd) as (d' & R & Hd'). exists G, d'. auto. Qed.

(** ** Weakest preconditions

    [wp m st Q]: from [st] the computation ends, with an outcome and a state that
    satisfy [Q]. The branches of the code become cases of the proof. *)
Definition wp {A} (m : M A) (st : St) (Q : outcome A -> St -> Prop) : Prop :=
  exists r st', refines m st r st' /\ Q r st'.

Lemma wp_refines {A} (m : M A) st r st' Q : refines m st r st' -> Q r st' -> wp m st Q.
Proof. intros H HQ. exists r, st'. auto. Qed.

Lemma wp_ret {A} (a : A) st (Q : outcome A -> St -> Prop) : Q (Ok a) st -> wp (ret a) st Q.
Proof. apply wp_refines, refines_ret. Qed.

Lemma wp_conseq {A} (m : M A) st (Q Q' : outcome A -> St -> Prop) : wp m st Q -> (forall r st', Q r st' -> Q' r st') -> wp m st Q'.
Proof. intros (r & st' & H & HQ) HQQ. exists r, st'. auto. Qed.

Lemma wp_bind {A B} (m : M A) (k : A -> M B) st Q :
  wp m st (fun r st1 => match r with
                        | Ok a => wp (k a) st1 Q
                        | Err e => Q (Err e) st1
                        | Panic s => Q (Panic s) st1
                        end) -> wp (bind m k) st Q.
Proof.
  intros ([a|e|s] & st1 & H1 & HQ).
  - destruct HQ as (r & st2 & H2 & HQ). exists r, st2. split; [eapply refines_bind; eauto|exact HQ].
  - exists (Err e), st1. split; [apply refines_bind_err, H1|exact HQ].
  - exists (Panic s), st1. split; [apply refines_bind_panic, H1|exact HQ].
Qed.

(** A step whose outcome is known. *)
Lemma wp_seq {A B} (m : M A) (k : A -> M B) st a st1 Q :
  refines m st (Ok a) st1 -> wp (k a) st1 Q -> wp (bind m k) st Q.
Proof. intros H1 H2. apply wp_bind. exists (Ok a), st1. auto. Qed.
End Refines.

(** Update of a function at a point. *)
Definition fupd (f : Z -> Z) (x v : Z) : Z -> Z := fun y => if decide (x = y) then v else f y.

Lemma fupd_eq f x v : fupd f x v x = v.
Proof. unfold fupd. rewrite decide_True; auto. Qed.

Lemma fupd_ne f x v y : x <> y -> fupd f x v y = f y.
Proof. intros. unfold fupd. rewrite decide_False; auto. Qed.

(** ** Words of a family of spaces

    The simplest abstract state: the word at every 64-bit key of the spaces
    [sps], by the position of the space. Nothing else changes with respect to
    the database [d0], balances included. *)
Section Words.
Context {E : Env} {EL : EnvLaws E} (sps : list Storage) (NC : spaces_ok sps) (d0 : DB).

Definition words := nat -> Z -> Z.

Definition words_at (c : words) (d : DB) : Prop :=
  (forall i s k, sps !! i = Some s -> in_u 64 k -> slot_get d (skey s k) = c i k) /\
  frame (fun x => exists s, s ∈ sps /\ uint_slots s x) d0 d.

Definition wupd (c : words) (i : nat) (k v : Z) : words :=
  fun j k' => if decide (i = j /\ k = k') then v else c j k'.

Lemma words_at_ext c c' d :
  (forall i k, (i < length sps)%nat -> in_u 64 k -> c i k = c' i k) -> words_at c d -> words_at c' d.
Proof.
  intros He [H HF]. split; [|exact HF]. intros i s k Hi Hk.
  rewrite <- He by (auto; eapply lookup_lt_Some, Hi). auto.
Qed.

Lemma refines_words_ext {A} (m : M A) c r c1 c2 :
  (forall i k, (i < length sps)%nat -> in_u 64 k -> c1 i k = c2 i k) ->
  refines words_at m c r c1 -> refines words_at m c r c2.
Proof.
  intros He H d Hd. destruct (H d Hd) as (G & d' & R & Hd'). exists G, d'.
  split; [exact R|exact (words_at_ext c1 c2 d' He Hd')].
Qed.

Lemma words_at_set c d i s k v : sps !! i = Some s -> in_u 64 k ->
  words_at c d -> words_at (wupd c i k v) (slot_set d (skey s k) v).
Proof.
  intros Hi Hk [H HF]. split.
  - intros j s' k' Hj Hk'. unfold wupd. destruct (decide (i = j /\ k = k')) as [[<- <-]|Hne].
    + rewrite Hi in Hj. injection Hj as <-. apply slot_get_set_eq.
    + rewrite slot_get_set_ne; [apply H; auto|].
      apply (spaces_slot_ne sps i j); auto; try (unfold in_u in *; lia).
  - apply frame_set_trans; [|exact HF]. exists s. split; [eapply list_elem_of_lookup_2, Hi|]. exists k. auto.
Qed.

Lemma refines_word_set {A} (m : M A) (a : A) G c i s k v : sps !! i = Some s -> in_u 64 k ->
  (forall d, runs G m d (Ok a) (slot_set d (skey s k) v)) -> refines words_at m c (Ok a) (wupd c i k v).
Proof. intros Hi Hk R d Hd. exists G, (slot_set d (skey s k) v). split; [apply R|apply words_at_set; auto]. Qed.

Lemma refines_word_get {A} (m : M A) (f : Z -> A) G c i s k : sps !! i = Some s -> in_u 64 k ->
  (forall d, slot_get d (skey s k) = c i k -> runs G m d (Ok (f (c i k))) d) ->
  refines words_at m c (Ok (f (c i k))) c.
Proof. intros Hi Hk R d Hd. exists G, d. split; [apply R, (proj1 Hd); auto|exact Hd]. Qed.

Lemma words_at_balance c d a : words_at c d -> GetBalance d a = GetBalance d0 a.
Proof. intros (_ & _ & H & _). apply H. Qed.
End Words.
