(* ===== verification/MemEnv.v ===== *)
(** * A concrete environment

    An in-memory state database (finite maps of slots and balances, logs) and a
    256-bit digest that is injective, after truncation to a page address, on
    the pages of finitely many storage spaces. It satisfies [EnvLaws], so the
    theorems of the development apply to it and their hypotheses can be met;
    the digest stands for keccak256 in executable examples only. *)
From Stdlib Require Import ZArith Lia String List.
From stdpp Require Import base list numbers gmap.
From S2P Require Import Prelude Arbmath Host Storage StorageFacts.
Open Scope Z_scope.

Record MemDB := mkMemDB {
  mem_state : gmap (Z * Z) Z;
  mem_balance : gmap Z Z;
  mem_nonce : gmap Z Z;
  mem_logs : list EthLog
}.

Definition mem_GetState (d : MemDB) (a s : Z) : Z := default 0 (mem_state d !! (a, s)).
Definition mem_SetState (d : MemDB) (a s v : Z) : MemDB :=
  mkMemDB (<[(a, s) := v]> (mem_state d)) (mem_balance d) (mem_nonce d) (mem_logs d).
Definition mem_GetBalance (d : MemDB) (a : Z) : Z := default 0 (mem_balance d !! a).
Definition mem_AddBalance (d : MemDB) (a v : Z) : MemDB :=
  mkMemDB (mem_state d) (<[a := mem_GetBalance d a + v]> (mem_balance d)) (mem_nonce d) (mem_logs d).
Definition mem_SubBalance (d : MemDB) (a v : Z) : MemDB :=
  mkMemDB (mem_state d) (<[a := mem_GetBalance d a - v]> (mem_balance d)) (mem_nonce d) (mem_logs d).
Definition mem_SetNonce (d : MemDB) (a v : Z) : MemDB :=
  mkMemDB (mem_state d) (mem_balance d) (<[a := v]> (mem_nonce d)) (mem_logs d).
Definition mem_AddLog (d : MemDB) (l : EthLog) : MemDB :=
  mkMemDB (mem_state d) (mem_balance d) (mem_nonce d) (mem_logs d ++ [l]).

Definition mem_empty : MemDB := mkMemDB ∅ ∅ ∅ [].

(** The digest: the 200 low bits of the input and a tag of 48 bits taken from
    the bytes before the last 31, shifted over the byte 1 (no digest is zero). *)
Definition digest_tag (x : Z) : Z := x / 2 ^ 248 / 256 mod 2 ^ 48.
Definition digest (l : list Z) : Z :=
  let x := be_acc 1 l in
  256 * (x mod 2 ^ 200 + 2 ^ 200 * digest_tag x) + 1.

(** The tag of the pages of the space with storage key [sk]. *)
Definition space_tag (sk : list Z) : Z := be_acc 1 sk / 256 mod 2 ^ 48.

Lemma digest_page sk k :
  0 <= k < 2 ^ 208 -> digest (page sk k) = (k / 256 + 2 ^ 200 * space_tag sk) * 256 + 1.
Proof.
  intros Hk. unfold digest, page, digest_tag, space_tag.
  rewrite be_acc_app, be_acc_be, length_be_bytes, be_be_bytes. change (256 ^ Z.of_nat 31) with (2 ^ 248).
  assert (0 <= k / 256 < 2 ^ 200) by (split; [apply Z.div_pos|apply Z.div_lt_upper_bound]; lia).
  rewrite (Z.mod_small (k / 256) (2 ^ 248)) by lia.
  set (h := be_acc 1 sk).
  rewrite Z.div_add_l, (Z.div_small (k / 256)), Z.add_0_r by lia.
  replace (h * 2 ^ 248 + k / 256) with (k / 256 + (h * 2 ^ 48) * 2 ^ 200) by lia.
  rewrite Z.mod_add, Z.mod_small by lia. lia.
Qed.

Lemma digest_nonzero l : digest l <> 0.
Proof. unfold digest. lia. Qed.

Lemma digest_range l : in_u 256 (digest l).
Proof.
  unfold digest, digest_tag, in_u.
  pose proof (Z.mod_pos_bound (be_acc 1 l) (2 ^ 200) ltac:(lia)).
  pose proof (Z.mod_pos_bound (be_acc 1 l / 2 ^ 248 / 256) (2 ^ 48) ltac:(lia)). lia.
Qed.

Definition MemEnv (B : Type) {BI : Burner B} : Env := {|
  DB := MemDB;
  GetState := mem_GetState;
  SetState := mem_SetState;
  GetBalance := mem_GetBalance;
  AddBalance := mem_AddBalance;
  SubBalance := mem_SubBalance;
  GetCodeHash := fun _ _ => 0;
  SetNonce := mem_SetNonce;
  AddLog := mem_AddLog;
  GetCurrentTxLogs := mem_logs;
  keccak256 := digest;
  BurnerT := B
|}.

#[export] Instance MemEnvLaws (B : Type) {BI : Burner B} {BL : BurnerLaws B} : EnvLaws (MemEnv B).
Proof.
  split; cbn; try exact BL; intros;
    unfold mem_GetState, mem_SetState, mem_GetBalance, mem_AddBalance, mem_SubBalance,
      mem_SetNonce, mem_GetBalance; cbn; try reflexivity.
  - rewrite lookup_insert. repeat case_decide; naive_solver.
  - rewrite lookup_insert. repeat case_decide; naive_solver.
  - rewrite lookup_insert. repeat case_decide; naive_solver.
  - apply digest_range.
Defined.

(** The digest does not collide on spaces with distinct tags, for keys below
    [2 ^ 208] (integers and addresses). *)
Lemma digest_collision_free B {BI : Burner B} (P : list Z -> Z -> Prop) (sks : list (list Z)) :
  (forall sk k, P sk k -> sk ∈ sks /\ 0 <= k < 2 ^ 208) ->
  (forall sk sk', sk ∈ sks -> sk' ∈ sks -> space_tag sk = space_tag sk' -> sk = sk') ->
  collision_free (E := MemEnv B) (pages P).
Proof.
  intros HP Htag x y (sk & k & Hk & _ & ->) (sk' & k' & Hk' & _ & ->) H.
  apply HP in Hk as [Hin Hk], Hk' as [Hin' Hk']. change (@keccak256 (MemEnv B)) with digest in H.
  rewrite !digest_page in H by lia. rewrite !Z.div_add_l, !(Z.div_small 1), !Z.add_0_r in H by lia.
  assert (0 <= k / 256 < 2 ^ 200) by (split; [apply Z.div_pos|apply Z.div_lt_upper_bound]; lia).
  assert (0 <= k' / 256 < 2 ^ 200) by (split; [apply Z.div_pos|apply Z.div_lt_upper_bound]; lia).
  assert (k / 256 = k' / 256 /\ space_tag sk = space_tag sk') as [Hkk Ht] by lia.
  rewrite (Htag _ _ Hin Hin' Ht). unfold page. rewrite Hkk. reflexivity.
Qed.

Lemma uint_keys_collision_free B {BI : Burner B} sk :
  collision_free (E := MemEnv B) (pages (uint_keys sk)).
Proof.
  apply (digest_collision_free B _ [sk]).
  - intros sk' k [-> [H0 H1]]. split; [set_solver|lia].
  - intros a b Ha Hb _. set_solver.
Qed.

(** The environment of the examples: an unmetered burner. *)
Definition TestEnv : Env := MemEnv SystemBurner.

Definition test_db : @DB TestEnv := mem_empty.

#[export] Instance TestEnvLaws : EnvLaws TestEnv := MemEnvLaws SystemBurner.

Lemma test_uint_keys sk : collision_free (E := TestEnv) (pages (uint_keys sk)).
Proof. apply uint_keys_collision_free. Qed.

(** Spaces with distinct tags do not collide. *)
Lemma test_spaces_ok (sps : list Storage) :
  NoDup (map (fun s => space_tag (sto_storageKey s)) sps) -> spaces_ok (E := TestEnv) sps.
Proof.
  intros Hnd. rewrite <- (map_map sto_storageKey space_tag) in Hnd. split; [eapply NoDup_fmap_1, Hnd|].
  apply (digest_collision_free SystemBurner _ (map sto_storageKey sps)).
  - intros sk k [H1 [H2 H3]]. split; [exact H1|lia].
  - intros a b Ha Hb Ht. apply list_elem_of_lookup in Ha as [i Hi], Hb as [j Hj].
    assert (i = j) as <-; [|congruence]. change (NoDup (space_tag <$> map sto_storageKey sps)) in Hnd.
    eapply (NoDup_lookup _ i j (space_tag a) Hnd); rewrite list_lookup_fmap; [rewrite Hi|rewrite Hj, Ht]; reflexivity.
Qed.
