(* ===== verification/StorageBytes.v ===== *)
(** * The byte strings of arbos/storage/storage.go

    [SetBytes], [GetBytes], [GetBytesSize] and [ClearBytes] against the
    abstract contents of a space: the byte string [b] is stored when key 0
    holds its length, the keys from 1 on hold its 32-byte chunks and the last
    key the right-aligned remainder. *)
From Stdlib Require Import ZArith Lia String List.
From stdpp Require Import base list numbers.
From S2P Require Import Prelude Arbmath Host Storage StorageFacts MemEnv.
Open Scope Z_scope.

Lemma be_replicate_0 n l : be (replicate n 0 ++ l) = be l.
Proof. induction n; [reflexivity|]. exact IHn. Qed.

(** A short byte string read back from a word it was right-aligned in. *)
Lemma Hash_Bytes_short l :
  Forall is_byte l -> (length l <= 32)%nat ->
  drop (32 - length l) (Hash_Bytes (BytesToHash l)) = l.
Proof.
  intros Hb Hl. unfold Hash_Bytes, BytesToHash.
  assert (be l mod 2 ^ 256 = be (replicate (32 - length l) 0 ++ l)) as ->.
  { rewrite be_replicate_0. apply Z.mod_small. pose proof (be_range l Hb) as [H0 H1].
    split; [exact H0|]. eapply Z.lt_le_trans; [exact H1|].
    change (2 ^ 256) with (256 ^ 32). apply Z.pow_le_mono_r; lia. }
  rewrite be_bytes_be.
  - apply drop_app_length'. rewrite length_replicate. reflexivity.
  - rewrite length_app, length_replicate. lia.
  - apply Forall_app. split; [|exact Hb]. apply Forall_replicate. unfold is_byte. lia.
Qed.

Lemma Hash_Bytes_chunk l :
  Forall is_byte l -> length l = 32%nat -> Hash_Bytes (BytesToHash l) = l.
Proof.
  intros Hb Hl. pose proof (Hash_Bytes_short l Hb ltac:(lia)) as H.
  rewrite Hl, Nat.sub_diag in H. exact H.
Qed.

Section Bytes.
Context {E : Env} {EL : EnvLaws E}.
Variable s : Storage.
Hypothesis NC : collision_free (pages (uint_keys (sto_storageKey s))).

(** [n] full chunks of [b] and its remainder, from key [off] on. *)
Fixpoint chunks_at (n : nat) (d : DB) (b : list Z) (off : Z) : Prop :=
  match n with
  | O => slot_get d (skey s off) = BytesToHash b
  | S n => slot_get d (skey s off) = BytesToHash (take 32 b) /\ chunks_at n d (drop 32 b) (off + 1)
  end.

(** The space holds the byte string [b]. *)
Definition bytes_at (d : DB) (b : list Z) : Prop :=
  slot_get d (skey s 0) = Z.of_nat (length b) /\ chunks_at (length b / 32)%nat d b 1.

Lemma chunks_at_ext n d d' b off :
  (forall k, off <= k <= off + Z.of_nat n -> slot_get d' (skey s k) = slot_get d (skey s k)) ->
  chunks_at n d b off -> chunks_at n d' b off.
Proof.
  revert b off. induction n as [|n IH]; intros b off Hext; cbn [chunks_at].
  - rewrite Hext by lia. auto.
  - intros [H1 H2]. split; [rewrite Hext by lia; exact H1|].
    apply IH; [|exact H2]. intros k Hk. apply Hext. lia.
Qed.

Lemma SetBytes_loop_runs n : forall b off d,
  (length b / 32)%nat = n -> 0 <= off -> off + Z.of_nat n < 2 ^ 64 ->
  exists d', runs (20000 * (Z.of_nat n + 1)) (SetBytes_loop n s b off) d (Ok tt) d' /\
    chunks_at n d' b off /\ frame (keys_between s off (off + Z.of_nat n)) d d'.
Proof.
  induction n as [|n IH]; intros b off d Hn Hoff Hmax; cbn [SetBytes_loop chunks_at].
  - exists (slot_set d (skey s off) (BytesToHash b)). split; [|split].
    + apply Storage_SetByUint64_runs. unfold in_u. lia.
    + apply slot_get_set_eq.
    + apply frame_set. exists off. split; [lia|reflexivity].
  - assert (32 <= length b)%nat by (apply Nat.div_str_pos_iff; lia).
    destruct (Z.leb_spec 32 (Z.of_nat (length b))); [|lia].
    destruct (IH (drop 32 b) (off + 1) (slot_set d (skey s off) (BytesToHash (take 32 b))))
      as (d' & R & C & F); [|lia|lia|].
    { rewrite length_drop. replace (length b) with (length b - 32 + 1 * 32)%nat in Hn by lia.
      rewrite Nat.div_add in Hn by lia. lia. }
    exists d'. split; [|split].
    + replace (20000 * (Z.of_nat (S n) + 1)) with (20000 + 20000 * (Z.of_nat n + 1)) by lia.
      eapply runs_bind; [apply Storage_SetByUint64_runs; unfold in_u; lia|].
      rewrite uwrap_id by (unfold in_u; lia). exact R.
    + split; [|exact C]. erewrite frame_between_get; [apply slot_get_set_eq|exact NC|exact F|..];
        unfold in_u; lia.
    + etransitivity; [apply frame_set with (x := skey s off)|].
      * exists off. split; [lia|reflexivity].
      * eapply frame_weaken; [|exact F]. intros x. apply keys_between_weaken; lia.
Qed.

Lemma GetBytes_loop_runs n : forall b acc off d,
  Forall is_byte b -> (length b / 32)%nat = n -> 0 <= off -> off + Z.of_nat n < 2 ^ 64 ->
  Z.of_nat (length b) < 2 ^ 64 -> chunks_at n d b off ->
  runs (800 * (Z.of_nat n + 1)) (GetBytes_loop n s acc (Z.of_nat (length b)) off) d (Ok (acc ++ b)) d.
Proof.
  induction n as [|n IH]; intros b acc off d Hb Hn Hoff Hmax Hlen HC; cbn [GetBytes_loop chunks_at] in *.
  - change (800 * (Z.of_nat 0 + 1)) with (800 + 0).
    eapply runs_bind; [apply Storage_GetByUint64_runs; unfold in_u; lia|]. cbv beta. rewrite HC.
    assert (length b < 32)%nat by (apply Nat.div_small_iff; lia).
    replace (Z.to_nat (32 - Z.of_nat (length b))) with (32 - length b)%nat by lia.
    rewrite Hash_Bytes_short by (auto; lia). apply runs_ret.
  - destruct HC as [HC1 HC2].
    assert (32 <= length b)%nat by (apply Nat.div_str_pos_iff; lia).
    destruct (Z.leb_spec 32 (Z.of_nat (length b))); [|lia].
    replace (800 * (Z.of_nat (S n) + 1)) with (800 + 800 * (Z.of_nat n + 1)) by lia.
    eapply runs_bind; [apply Storage_GetByUint64_runs; unfold in_u; lia|]. cbv beta. rewrite HC1.
    rewrite !uwrap_id by (unfold in_u; lia).
    rewrite Hash_Bytes_chunk; [|apply Forall_take, Hb|rewrite length_take; lia].
    assert (acc ++ b = (acc ++ take 32 b) ++ drop 32 b) as ->
      by (rewrite <- app_assoc, take_drop; reflexivity).
    replace (Z.of_nat (length b) - 32) with (Z.of_nat (length (drop 32 b)))
      by (rewrite length_drop; lia).
    apply IH; auto.
    + apply Forall_drop, Hb.
    + rewrite length_drop. replace (length b) with (length b - 32 + 1 * 32)%nat in Hn by lia.
      rewrite Nat.div_add in Hn by lia. lia.
    + lia.
    + lia.
    + rewrite length_drop. lia.
Qed.

(** The slots of the keys from [off] on that hold the bytes of a string of
    length [L]. *)
Definition occupied (off L : Z) (x : StorageSlot) : Prop :=
  exists k, off <= k /\ 32 * (k - off) < L /\ x = skey s k.

Lemma ClearBytes_loop_runs n : forall L off d,
  0 <= L < 2 ^ 64 -> L < 32 * Z.of_nat n -> 0 <= off -> off + Z.of_nat n < 2 ^ 64 ->
  exists d', runs (20000 * Z.of_nat n) (ClearBytes_loop n s L off) d (Ok tt) d' /\
    (forall k, off <= k -> 32 * (k - off) < L -> slot_get d' (skey s k) = 0) /\
    frame (occupied off L) d d'.
Proof.
  induction n as [|n IH]; intros L off d HL Hn Hoff Hmax; cbn [ClearBytes_loop]; [lia|].
  destruct (Z.ltb_spec 0 L).
  - set (L' := if L <? 32 then 0 else L -u64 32).
    assert (L' = Z.max 0 (L - 32)) as HL'.
    { subst L'. zbool; [lia|]. rewrite uwrap_id; unfold in_u; lia. }
    destruct n as [|n].
    { exists (slot_set d (skey s off) 0). split; [|split].
      - change (20000 * Z.of_nat 1) with (20000 + 0).
        eapply runs_bind; [apply Storage_ClearByUint64_runs; unfold in_u; lia|apply runs_ret].
      - intros k Hk1 Hk2. assert (k = off) as -> by lia. apply slot_get_set_eq.
      - apply frame_set. exists off. repeat split; lia || reflexivity. }
    destruct (IH L' (off + 1) (slot_set d (skey s off) 0)) as (d' & R & C & F); [lia..|].
    exists d'. split; [|split].
    + replace (20000 * Z.of_nat (S (S n))) with (20000 + 20000 * Z.of_nat (S n)) by lia.
      eapply runs_bind; [apply Storage_ClearByUint64_runs; unfold in_u; lia|].
      rewrite (uwrap_id 64 (off + 1)) by (unfold in_u; lia). exact R.
    + intros k Hk1 Hk2. destruct (Z.eq_dec k off) as [->|Hne]; [|apply C; lia].
      destruct F as [F _]. rewrite F; [apply slot_get_set_eq|].
      intros (k' & H1 & H2 & Heq). apply skey_uint_inj in Heq; [lia|exact NC|unfold in_u; lia..].
    + etransitivity; [apply frame_set with (x := skey s off)|].
      * exists off. repeat split; lia || reflexivity.
      * eapply frame_weaken; [|exact F]. intros x (k & H1 & H2 & ->).
        exists k. repeat split; lia || reflexivity.
  - exists d. split; [|split].
    + eapply runs_le; [apply runs_ret|lia].
    + intros. lia.
    + reflexivity.
Qed.

(** Gas that covers [ClearBytes] on a stored length [L], and [SetBytes] of
    [len] bytes over it. *)
Definition clear_gas (L : Z) : Z := 800 + (20000 * (L / 32 + 1) + 20000).
Definition set_gas (L len : Z) : Z := clear_gas L + (20000 + 20000 * (len / 32 + 1)).

Lemma ClearBytes_runs d L :
  slot_get d (skey s 0) = L -> in_u 64 L ->
  exists d', runs (clear_gas L) (ClearBytes s) d (Ok tt) d' /\
    slot_get d' (skey s 0) = 0 /\
    (forall k, 1 <= k -> 32 * (k - 1) < L -> slot_get d' (skey s k) = 0) /\
    frame (fun x => x = skey s 0 \/ occupied 1 L x) d d'.
Proof.
  intros HL [HL0 HL1]. assert (0 <= L / 32 < 2 ^ 59) by (split; [apply Z.div_pos|apply Z.div_lt_upper_bound]; lia).
  pose proof (Z.div_mod L 32 ltac:(lia)). pose proof (Z.mod_pos_bound L 32 ltac:(lia)).
  destruct (ClearBytes_loop_runs (Z.to_nat (L / 32 + 1)) L 1 d) as (d1 & R & C & F); [lia..|].
  rewrite Z2Nat.id in * by lia.
  exists (slot_set d1 (skey s 0) 0). split; [|split; [|split]].
  - unfold ClearBytes, clear_gas.
    eapply runs_bind; [apply Storage_GetUint64ByUint64_runs; rewrite ?HL; unfold in_u; lia|].
    rewrite HL. eapply runs_bind; [exact R|]. apply Storage_ClearByUint64_runs. unfold in_u; lia.
  - apply slot_get_set_eq.
  - intros k Hk1 Hk2. rewrite slot_get_set_ne; [apply C; lia|].
    intros Heq. apply skey_uint_inj in Heq; [lia|exact NC|unfold in_u; lia..].
  - apply frame_set_trans; [left; reflexivity|].
    eapply frame_weaken; [|exact F]. auto.
Qed.

Lemma occupied_between L x :
  x = skey s 0 \/ occupied 1 L x -> 0 <= L -> keys_between s 0 (L / 32 + 1) x.
Proof.
  intros [->|(k & H1 & H2 & ->)] HL; [exists 0|exists k]; (split; [|reflexivity]).
  - pose proof (Z.div_pos L 32). lia.
  - assert (k - 1 <= L / 32) by (apply Z.div_le_lower_bound; lia). lia.
Qed.

Lemma SetBytes_runs d b L :
  slot_get d (skey s 0) = L -> in_u 64 L -> in_u 64 (Z.of_nat (length b)) ->
  exists d', runs (set_gas L (Z.of_nat (length b))) (SetBytes s b) d (Ok tt) d' /\
    bytes_at d' b /\ frame (keys_between s 0 (Z.max L (Z.of_nat (length b)) / 32 + 1)) d d'.
Proof.
  intros HL HLr Hlen. destruct (ClearBytes_runs d L HL HLr) as (d1 & R1 & _ & _ & F1).
  set (len := Z.of_nat (length b)) in *. unfold in_u in *.
  assert (Z.of_nat (length b / 32)%nat = len / 32) as Hdiv by (subst len; rewrite Nat2Z.inj_div; reflexivity).
  assert (0 <= len / 32 < 2 ^ 59) by (split; [apply Z.div_pos|apply Z.div_lt_upper_bound]; lia).
  destruct (SetBytes_loop_runs (length b / 32)%nat b 1 (slot_set d1 (skey s 0) len))
    as (d2 & R2 & C2 & F2); [reflexivity|lia|lia|].
  rewrite Hdiv in *. exists d2. split; [|split].
  - unfold SetBytes, set_gas. eapply runs_bind; [exact R1|].
    rewrite uwrap_id by exact Hlen.
    eapply runs_bind; [apply Storage_SetUint64ByUint64_runs; unfold in_u; lia|exact R2].
  - split; [|exact C2]. erewrite frame_between_get; [apply slot_get_set_eq|exact NC|exact F2|..];
      unfold in_u; lia.
  - assert (L / 32 <= Z.max L len / 32 /\ len / 32 <= Z.max L len / 32) by (split; apply Z.div_le_mono; lia).
    etransitivity.
    { eapply frame_weaken; [|exact F1]. intros x Hx. apply occupied_between in Hx; [|lia].
      revert Hx. apply keys_between_weaken; lia. }
    etransitivity; [apply frame_set with (x := skey s 0); exists 0; split; [lia|reflexivity]|].
    eapply frame_weaken; [|exact F2]. intros x. apply keys_between_weaken; lia.
Qed.

Lemma GetBytes_runs d b :
  bytes_at d b -> Forall is_byte b -> in_u 64 (Z.of_nat (length b)) ->
  runs (800 + 800 * (Z.of_nat (length b) / 32 + 1)) (GetBytes s) d (Ok b) d.
Proof.
  intros [H0 HC] Hb Hlen. unfold in_u in *. unfold GetBytes.
  assert (0 <= Z.of_nat (length b) / 32 < 2 ^ 59)
    by (split; [apply Z.div_pos|apply Z.div_lt_upper_bound]; lia).
  eapply runs_bind; [apply Storage_GetUint64ByUint64_runs; rewrite ?H0; unfold in_u; lia|].
  rewrite H0. replace (Z.to_nat (Z.of_nat (length b) / 32)) with (length b / 32)%nat
    by (rewrite <- (Nat2Z.id (length b / 32)), Nat2Z.inj_div; reflexivity).
  assert (Z.of_nat (length b / 32)%nat = Z.of_nat (length b) / 32) as <- by (rewrite Nat2Z.inj_div; reflexivity).
  apply (GetBytes_loop_runs _ b []); auto; rewrite ?Nat2Z.inj_div; change (Z.of_nat 32) with 32; lia.
Qed.

Lemma GetBytesSize_runs d b :
  bytes_at d b -> in_u 64 (Z.of_nat (length b)) ->
  runs 800 (GetBytesSize s) d (Ok (Z.of_nat (length b))) d.
Proof.
  intros [H0 HC] Hlen. unfold GetBytesSize. rewrite <- H0.
  apply Storage_GetUint64ByUint64_runs; [unfold in_u; lia|rewrite H0; exact Hlen].
Qed.

Lemma chunks_at_zero d n : forall b off,
  (length b / 32)%nat = n -> chunks_at n d b off -> Forall is_byte b -> (length b mod 32 = 0)%nat ->
  slot_get d (skey s (off + Z.of_nat n)) = 0.
Proof.
  induction n as [|n IH]; intros b off Hn HC Hb Hm; cbn [chunks_at] in HC.
  - assert (length b = 0)%nat as Hl
      by (pose proof (Nat.div_mod_eq (length b) 32); lia).
    destruct b; [|discriminate Hl]. rewrite Z.add_0_r, HC. reflexivity.
  - destruct HC as [_ HC].
    assert (32 <= length b)%nat by (apply Nat.div_str_pos_iff; lia).
    replace (off + Z.of_nat (S n)) with (off + 1 + Z.of_nat n) by lia.
    assert (length (drop 32 b) + 1 * 32 = length b)%nat as Hd by (rewrite length_drop; lia).
    rewrite <- Hd in Hn, Hm. rewrite Nat.div_add in Hn by lia. rewrite Nat.Div0.mod_add in Hm.
    apply (IH (drop 32 b)); auto; [lia|]. apply Forall_drop, Hb.
Qed.
End Bytes.

(** ** Properties *)

#[local] Existing Instance TestEnv.

(** A byte string written with [SetBytes], over whatever byte string the
    space held before, is what [GetBytes] returns, [GetBytesSize] gives its
    length, and no slot outside the space's keys 0 .. max/32+1 changes. *)
Theorem SetBytes_GetBytes_roundtrip {E : Env} {EL : EnvLaws E} (s : Storage) (d : DB) (b : list Z) :
  collision_free (pages (uint_keys (sto_storageKey s))) ->
  in_u 64 (slot_get d (skey s 0)) -> Forall is_byte b -> Z.of_nat (length b) < 2 ^ 64 ->
  exists d',
    runs (set_gas (slot_get d (skey s 0)) (Z.of_nat (length b))) (SetBytes s b) d (Ok tt) d' /\
    runs (800 + 800 * (Z.of_nat (length b) / 32 + 1)) (GetBytes s) d' (Ok b) d' /\
    runs 800 (GetBytesSize s) d' (Ok (Z.of_nat (length b))) d' /\
    frame (keys_between s 0 (Z.max (slot_get d (skey s 0)) (Z.of_nat (length b)) / 32 + 1)) d d'.
Proof.
  intros NC H0 Hb Hl. assert (in_u 64 (Z.of_nat (length b))) by (unfold in_u; lia).
  destruct (SetBytes_runs s NC d b _ eq_refl H0) as (d' & R & B & F); [auto|].
  exists d'. split; [exact R|]. split; [apply GetBytes_runs; auto|].
  split; [eapply GetBytesSize_runs; eauto|exact F].
Qed.

(** [ClearBytes] after [SetBytes] erases the string: every key of the
    space that the string occupied, the length and the key of the remainder
    included, reads zero, and the size is zero. *)
Theorem SetBytes_ClearBytes_erases {E : Env} {EL : EnvLaws E} (s : Storage) (d : DB) (b : list Z) :
  collision_free (pages (uint_keys (sto_storageKey s))) ->
  in_u 64 (slot_get d (skey s 0)) -> Forall is_byte b -> Z.of_nat (length b) < 2 ^ 64 ->
  exists d' d'',
    runs (set_gas (slot_get d (skey s 0)) (Z.of_nat (length b))) (SetBytes s b) d (Ok tt) d' /\
    runs (clear_gas (Z.of_nat (length b))) (ClearBytes s) d' (Ok tt) d'' /\
    runs 800 (GetBytesSize s) d'' (Ok 0) d'' /\
    (forall k, 0 <= k <= Z.of_nat (length b) / 32 + 1 -> slot_get d'' (skey s k) = 0).
Proof.
  intros NC H0 Hb Hl. assert (in_u 64 (Z.of_nat (length b))) as Hlen by (unfold in_u; lia).
  destruct (SetBytes_runs s NC d b _ eq_refl H0 Hlen) as (d1 & R1 & [B0 BC] & _).
  destruct (ClearBytes_runs s NC d1 _ B0 Hlen) as (d2 & R2 & Z0 & Zk & F).
  exists d1, d2. split; [exact R1|]. split; [exact R2|]. split.
  { rewrite <- Z0. apply Storage_GetUint64ByUint64_runs; rewrite ?Z0; unfold in_u; lia. }
  intros k Hk. destruct (Z.eq_dec k 0) as [->|Hk0]; [exact Z0|].
  destruct (Z_lt_ge_dec (32 * (k - 1)) (Z.of_nat (length b))); [apply Zk; lia|].
  assert (k = 1 + Z.of_nat (length b / 32)%nat /\ (length b mod 32 = 0)%nat) as [-> Hm].
  { rewrite Nat2Z.inj_div. change (Z.of_nat 32) with 32 in *.
    pose proof (Nat.div_mod_eq (length b) 32).
    assert (Z.of_nat (length b) / 32 = Z.of_nat (length b / 32)%nat) by (rewrite Nat2Z.inj_div; reflexivity).
    lia. }
  pose proof (Nat.div_mod_eq (length b) 32).
  destruct F as [F _]. rewrite F; [apply (chunks_at_zero s d1 _ b); auto|].
  intros [Heq|(k' & H1 & H2 & Heq)]; apply skey_uint_inj in Heq;
    try exact NC; unfold in_u in *; lia.
Qed.

Lemma SetBytes_GetBytes_roundtrip_witness :
  let s := mkStorage 1 [7] false in
  exists d' : @DB (TestEnv),
    runs (E := TestEnv) (set_gas 0 3) (SetBytes s [1; 2; 3]) mem_empty (Ok tt) d' /\
    runs (800 + 800 * (3 / 32 + 1)) (GetBytes s) d' (Ok [1; 2; 3]) d'.
Proof.
  destruct (SetBytes_GetBytes_roundtrip (E := TestEnv) (mkStorage 1 [7] false) mem_empty [1; 2; 3])
    as (d' & H1 & H2 & _).
  - apply test_uint_keys.
  - vm_compute. split; congruence.
  - repeat constructor; unfold is_byte; lia.
  - reflexivity.
  - exists d'. split; [exact H1|exact H2].
Defined.

Lemma SetBytes_ClearBytes_erases_witness :
  let s := mkStorage 1 [7] false in
  exists d' d'' : @DB (TestEnv),
    runs (E := TestEnv) (set_gas 0 3) (SetBytes s [1; 2; 3]) mem_empty (Ok tt) d' /\
    runs (clear_gas 3) (ClearBytes s) d' (Ok tt) d''.
Proof.
  destruct (SetBytes_ClearBytes_erases (E := TestEnv) (mkStorage 1 [7] false) mem_empty [1; 2; 3])
    as (d' & d'' & H1 & H2 & _).
  - apply test_uint_keys.
  - vm_compute. split; congruence.
  - repeat constructor; unfold is_byte; lia.
  - reflexivity.
  - exists d', d''. split; [exact H1|exact H2].
Defined.
