(* ===== verification/Queue.v ===== *)
(** * arbos/storage/queue.go: a FIFO queue in a storage space

    Key 0 of the space holds the offset of the next put, key 1 the offset of
    the next get, and the elements lie at the keys between them. The queue is
    related to a list by [queue_at] and refines the list operations
    [queue_spec]. *)
From Stdlib Require Import ZArith Lia String List.
From stdpp Require Import base list numbers.
From S2P Require Import Prelude Arbmath Host Storage StorageFacts MemEnv.
Open Scope Z_scope.

Record Queue := mkQueue {
  q_storage : Storage;
  q_nextPutOffset : StorageSlot;
  q_nextGetOffset : StorageSlot
}.

Section Operations.
Context {E : Env}.

Definition InitializeQueue (sto : Storage) : M unit :=
  Storage_SetUint64ByUint64 sto 0 2 ;;;
  Storage_SetUint64ByUint64 sto 1 2.

Definition OpenQueue (sto : Storage) : Queue :=
  mkQueue (WithoutCache sto) (OpenStorageBackedUint64 sto 0) (OpenStorageBackedUint64 sto 1).

Definition Queue_IsEmpty (q : Queue) : M bool :=
  let* put := StorageBackedUint64_Get (q_nextPutOffset q) in
  let* get := StorageBackedUint64_Get (q_nextGetOffset q) in
  ret (put =? get).

Definition Queue_Size (q : Queue) : M Z :=
  let* put := StorageBackedUint64_Get (q_nextPutOffset q) in
  let* get := StorageBackedUint64_Get (q_nextGetOffset q) in
  ret (put -u64 get).

Definition Queue_Peek (q : Queue) : M (option Z) :=
  let* empty := Queue_IsEmpty q in
  if (empty : bool) then ret None
  else
    let* next := StorageBackedUint64_Get (q_nextGetOffset q) in
    let* res := Storage_GetByUint64 (q_storage q) next in
    ret (Some res).

Definition Queue_Get (q : Queue) : M (option Z) :=
  let* empty := Queue_IsEmpty q in
  if (empty : bool) then ret None
  else
    let* newOffset := StorageBackedUint64_Increment (q_nextGetOffset q) in
    let* res := Storage_Swap (q_storage q) (UintToHash (newOffset -u64 1)) 0 in
    ret (Some res).

Definition Queue_Put (q : Queue) (val : Z) : M unit :=
  let* newOffset := StorageBackedUint64_Increment (q_nextPutOffset q) in
  Storage_SetByUint64 (q_storage q) (newOffset -u64 1) val.

Definition Queue_Shift (q : Queue) : M bool :=
  let* put := StorageBackedUint64_Get (q_nextPutOffset q) in
  let* get := StorageBackedUint64_Get (q_nextGetOffset q) in
  if negb (put =? get) then ret false
  else
    StorageBackedUint64_Set (q_nextGetOffset q) 2 ;;;
    StorageBackedUint64_Set (q_nextPutOffset q) 2 ;;;
    ret true.

(** [n] iterations are left when [index = size - n]. *)
Fixpoint Queue_ForEach_loop (n : nat) (q : Queue) (closure : Z -> Z -> M bool)
  (size offset index : Z) : M unit :=
  match n with
  | O => ret tt
  | S n =>
      if index <? size then
        let* entry := Storage_GetByUint64 (q_storage q) (offset +u64 index) in
        let* done := closure index entry in
        if (done : bool) then ret tt
        else Queue_ForEach_loop n q closure size offset (index +u64 1)
      else ret tt
  end.

Definition Queue_ForEach (q : Queue) (closure : Z -> Z -> M bool) : M unit :=
  let* size := Queue_Size q in
  let* offset := StorageBackedUint64_Get (q_nextGetOffset q) in
  Queue_ForEach_loop (Z.to_nat size) q closure size offset 0.

(** ** The operations as one labelled step *)

Inductive queue_op := QPut (val : Z) | QGet | QPeek | QIsEmpty | QSize | QShift.

Inductive queue_res := RUnit | RHash (h : option Z) | RBool (b : bool) | RUint (n : Z).

Definition queue_step (q : Queue) (op : queue_op) : M queue_res :=
  match op with
  | QPut v => Queue_Put q v ;;; ret RUnit
  | QGet => let* r := Queue_Get q in ret (RHash r)
  | QPeek => let* r := Queue_Peek q in ret (RHash r)
  | QIsEmpty => let* r := Queue_IsEmpty q in ret (RBool r)
  | QSize => let* r := Queue_Size q in ret (RUint r)
  | QShift => let* r := Queue_Shift q in ret (RBool r)
  end.

Fixpoint queue_steps (q : Queue) (ops : list queue_op) : M (list queue_res) :=
  match ops with
  | [] => ret []
  | op :: ops =>
      let* r := queue_step q op in
      let* rs := queue_steps q ops in
      ret (r :: rs)
  end.
End Operations.

(** The specification: a list, oldest element first. *)
Definition queue_spec (op : queue_op) (l : list Z) : queue_res * list Z :=
  match op with
  | QPut v => (RUnit, l ++ [v])
  | QGet => (RHash (head l), tail l)
  | QPeek => (RHash (head l), l)
  | QIsEmpty => (RBool (match l with [] => true | _ => false end), l)
  | QSize => (RUint (Z.of_nat (length l)), l)
  | QShift => (RBool (match l with [] => true | _ => false end), l)
  end.

Fixpoint queue_specs (ops : list queue_op) (l : list Z) : list queue_res * list Z :=
  match ops with
  | [] => ([], l)
  | op :: ops =>
      let '(r, l1) := queue_spec op l in
      let '(rs, l2) := queue_specs ops l1 in
      (r :: rs, l2)
  end.

(** What [ForEach] does with a closure [f] that does not touch the storage. *)
Fixpoint foreach_spec (f : Z -> Z -> outcome bool) (i : Z) (l : list Z) : outcome unit :=
  match l with
  | [] => Ok tt
  | v :: l => let? done := f i v in if (done : bool) then Ok tt else foreach_spec f (i + 1) l
  end.

Section Refinement.
Context {E : Env} {EL : EnvLaws E} (s : Storage).
Hypothesis NC : collision_free (pages (uint_keys (sto_storageKey s))).

Notation q := (OpenQueue s).

(** The space holds the queue [l], its first element at key [get]. *)
Record queue_at (d : DB) (get : Z) (l : list Z) : Prop := {
  qa_put : slot_get d (skey s 0) = get + Z.of_nat (length l);
  qa_get : slot_get d (skey s 1) = get;
  qa_elems i v : l !! i = Some v -> slot_get d (skey s (get + Z.of_nat i)) = v;
  qa_low : 2 <= get;
  qa_high : get + Z.of_nat (length l) < 2 ^ 64
}.

Lemma q_put_slot : q_nextPutOffset q = skey s 0.
Proof. apply NewSlot_skey. unfold in_u. lia. Qed.

Lemma q_get_slot : q_nextGetOffset q = skey s 1.
Proof. apply NewSlot_skey. unfold in_u. lia. Qed.

Lemma skey_q k : skey (q_storage q) k = skey s k.
Proof. apply skey_WithoutCache. Qed.

Lemma q_SetByUint64_runs k v d :
  in_u 64 k -> runs 20000 (Storage_SetByUint64 (q_storage q) k v) d (Ok tt) (slot_set d (skey s k) v).
Proof. rewrite <- skey_q. apply Storage_SetByUint64_runs. Qed.

Lemma q_GetByUint64_runs k d :
  in_u 64 k -> runs 800 (Storage_GetByUint64 (q_storage q) k) d (Ok (slot_get d (skey s k))) d.
Proof. rewrite <- skey_q. apply Storage_GetByUint64_runs. Qed.

Lemma q_Swap_runs k v d :
  runs 20800 (Storage_Swap (q_storage q) k v) d (Ok (slot_get d (skey s k))) (slot_set d (skey s k) v).
Proof. rewrite <- skey_q. apply Storage_Swap_runs. Qed.

Lemma skey_ne k k' : in_u 64 k -> in_u 64 k' -> k <> k' -> skey s k <> skey s k'.
Proof. apply skey_uint_ne, NC. Qed.

Lemma queue_at_offsets d get l : queue_at d get l ->
  runs 800 (StorageBackedUint64_Get (q_nextPutOffset q)) d (Ok (get + Z.of_nat (length l))) d /\
  runs 800 (StorageBackedUint64_Get (q_nextGetOffset q)) d (Ok get) d.
Proof.
  intros [Hp Hg _ Hlo Hhi]. rewrite q_put_slot, q_get_slot. split.
  - rewrite <- Hp. apply StorageBackedUint64_Get_runs. rewrite Hp. uint.
  - rewrite <- Hg. apply StorageBackedUint64_Get_runs. rewrite Hg. uint.
Qed.

Lemma Queue_IsEmpty_runs d get l : queue_at d get l ->
  runs 1600 (Queue_IsEmpty q) d (Ok (match l with [] => true | _ => false end)) d.
Proof.
  intros H. destruct (queue_at_offsets _ _ _ H) as [Hp Hg].
  unfold Queue_IsEmpty. change 1600 with (800 + (800 + 0)).
  eapply runs_bind; [exact Hp|]. eapply runs_bind; [exact Hg|].
  assert ((get + Z.of_nat (length l) =? get) = match l with [] => true | _ => false end) as ->.
  { destruct l; cbn [length]; [apply Z.eqb_eq|apply Z.eqb_neq]; lia. }
  apply runs_ret.
Qed.

Lemma Queue_Size_runs d get l : queue_at d get l ->
  runs 1600 (Queue_Size q) d (Ok (Z.of_nat (length l))) d.
Proof.
  intros H. destruct (queue_at_offsets _ _ _ H) as [Hp Hg]. destruct H.
  unfold Queue_Size. change 1600 with (800 + (800 + 0)).
  eapply runs_bind; [exact Hp|]. eapply runs_bind; [exact Hg|].
  replace (get + Z.of_nat (length l) - get) with (Z.of_nat (length l)) by lia.
  rewrite uwrap_id by uint. apply runs_ret.
Qed.

Lemma Queue_Peek_runs d get l : queue_at d get l -> runs 3200 (Queue_Peek q) d (Ok (head l)) d.
Proof.
  intros H. destruct (queue_at_offsets _ _ _ H) as [Hp Hg]. pose proof (qa_elems _ _ _ H 0%nat) as He.
  unfold Queue_Peek. change 3200 with (1600 + 1600).
  eapply runs_bind; [eapply Queue_IsEmpty_runs, H|]. destruct l as [|v l].
  - eapply runs_le; [apply runs_ret|lia].
  - change 1600 with (800 + (800 + 0)). eapply runs_bind; [exact Hg|].
    eapply runs_bind; [apply q_GetByUint64_runs; destruct H; cbn [length] in *; uint|].
    specialize (He v eq_refl). rewrite Z.add_0_r in He. rewrite He. apply runs_ret.
Qed.

Lemma Queue_Put_runs d get l v : queue_at d get l -> get + Z.of_nat (length l) < 2 ^ 64 - 1 ->
  exists d', runs 40800 (Queue_Put q v) d (Ok tt) d' /\ queue_at d' get (l ++ [v]) /\ frame (uint_slots s) d d'.
Proof.
  intros [Hp Hg He Hlo Hhi] Hroom. unfold Queue_Put. rewrite q_put_slot.
  set (n := Z.of_nat (length l)) in *.
  exists (slot_set (slot_set d (skey s 0) (get + n + 1)) (skey s (get + n)) v). split; [|split].
  - change 40800 with (20800 + 20000).
    eapply runs_bind; [apply StorageBackedUint64_Increment_runs; lia|]. rewrite Hp.
    rewrite uwrap_id by uint. replace (get + n + 1 - 1) with (get + n) by lia.
    apply q_SetByUint64_runs. uint.
  - split; auto; rewrite ?length_app; cbn [length].
    + rewrite slot_get_set_ne, slot_get_set_eq by (apply skey_ne; uint). lia.
    + rewrite !slot_get_set_ne by (apply skey_ne; uint). exact Hg.
    + intros i w. rewrite lookup_snoc_Some. intros [[Hi Hl]|[-> <-]].
      * rewrite !slot_get_set_ne by (apply skey_ne; uint). auto.
      * apply slot_get_set_eq.
    + lia.
  - transitivity (slot_set d (skey s 0) (get + n + 1)); apply frame_set_uint; uint.
Qed.

Lemma Queue_Get_runs d get l : queue_at d get l ->
  exists d' get', runs 43200 (Queue_Get q) d (Ok (head l)) d' /\ queue_at d' get' (tail l) /\
    get' + Z.of_nat (length (tail l)) = get + Z.of_nat (length l) /\ frame (uint_slots s) d d'.
Proof.
  intros H. unfold Queue_Get. pose proof (Queue_IsEmpty_runs _ _ _ H) as HE.
  destruct H as [Hp Hg He Hlo Hhi]. destruct l as [|v l]; cbn [head tail length] in *.
  - exists d, get. split; [|split; [split; auto|split; [lia|reflexivity]]].
    change 43200 with (1600 + 41600). eapply runs_bind; [exact HE|].
    eapply runs_le; [apply runs_ret|lia].
  - pose proof (He 0%nat v eq_refl) as Hv. rewrite Z.add_0_r in Hv.
    exists (slot_set (slot_set d (skey s 1) (get + 1)) (skey s get) 0), (get + 1).
    split; [|split; [split|split; [lia|]]].
    + change 43200 with (1600 + (20800 + (20800 + 0))). eapply runs_bind; [exact HE|].
      rewrite q_get_slot. eapply runs_bind; [apply StorageBackedUint64_Increment_runs; lia|].
      rewrite Hg, uwrap_id, UintToHash_id by uint. replace (get + 1 - 1) with get by lia.
      eapply runs_bind; [apply q_Swap_runs|].
      rewrite slot_get_set_ne, Hv by (apply skey_ne; uint). apply runs_ret.
    + rewrite !slot_get_set_ne by (apply skey_ne; uint). lia.
    + rewrite slot_get_set_ne, slot_get_set_eq by (apply skey_ne; uint). lia.
    + intros i w Hi. assert (i < length l)%nat by (eapply lookup_lt_Some; eauto).
      rewrite !slot_get_set_ne by (apply skey_ne; uint).
      replace (get + 1 + Z.of_nat i) with (get + Z.of_nat (S i)) by lia. auto.
    + lia.
    + lia.
    + transitivity (slot_set d (skey s 1) (get + 1)); apply frame_set_uint; uint.
Qed.

Lemma Queue_Shift_runs d get l : queue_at d get l ->
  exists d' get', runs 41600 (Queue_Shift q) d (Ok (match l with [] => true | _ => false end)) d' /\
    queue_at d' get' l /\ get' <= get /\ (l = [] -> get' = 2).
Proof.
  intros H. destruct (queue_at_offsets _ _ _ H) as [Rp Rg]. unfold Queue_Shift.
  change 41600 with (800 + (800 + 40000)). destruct l as [|v l].
  - destruct H as [Hp Hg He Hlo Hhi].
    exists (slot_set (slot_set d (skey s 1) 2) (skey s 0) 2), 2. split; [|split; [split|]]; auto.
    + eapply runs_bind; [exact Rp|]. eapply runs_bind; [exact Rg|]. cbn [length]. rewrite Z.add_0_r, Z.eqb_refl. cbn [negb].
      rewrite q_put_slot, q_get_slot. change 40000 with (20000 + (20000 + 0)).
      do 2 (eapply runs_bind; [apply StorageBackedUint64_Set_runs; uint|]). apply runs_ret.
    + apply slot_get_set_eq.
    + rewrite slot_get_set_ne by (apply skey_ne; uint). apply slot_get_set_eq.
    + intros i w Hi. discriminate.
    + lia.
    + cbn. lia.
  - exists d, get. split; [|split; [exact H|split; [lia|discriminate]]].
    eapply runs_bind; [exact Rp|]. eapply runs_bind; [exact Rg|].
    destruct (Z.eqb_spec (get + Z.of_nat (length (v :: l))) get); [cbn [length] in *; lia|].
    eapply runs_le; [apply runs_ret|lia].
Qed.

Lemma InitializeQueue_runs d :
  exists d', runs 40000 (InitializeQueue s) d (Ok tt) d' /\ queue_at d' 2 [] /\ frame (uint_slots s) d d'.
Proof.
  exists (slot_set (slot_set d (skey s 0) 2) (skey s 1) 2). split; [|split].
  - change 40000 with (20000 + 20000). unfold InitializeQueue.
    eapply runs_bind; apply Storage_SetUint64ByUint64_runs; uint.
  - split; cbn [length]; try lia.
    + rewrite slot_get_set_ne by (apply skey_ne; uint). apply slot_get_set_eq.
    + apply slot_get_set_eq.
    + discriminate.
  - transitivity (slot_set d (skey s 0) 2); apply frame_set_uint; uint.
Qed.

(** One step of any operation simulates the list. *)
Lemma queue_step_runs op d get l : queue_at d get l -> get + Z.of_nat (length l) < 2 ^ 64 - 1 ->
  exists d' get', runs 43200 (queue_step q op) d (Ok (fst (queue_spec op l))) d' /\
    queue_at d' get' (snd (queue_spec op l)) /\
    get' + Z.of_nat (length (snd (queue_spec op l))) <= get + Z.of_nat (length l) + 1.
Proof.
  intros H Hroom. change 43200 with (43200 + 0).
  destruct op as [v| | | | |]; cbn [queue_step queue_spec fst snd].
  - destruct (Queue_Put_runs d get l v H Hroom) as (d' & R & Q & _). exists d', get.
    split; [|split; [exact Q|rewrite length_app; cbn; lia]].
    eapply runs_bind; [eapply runs_le; [exact R|lia]|apply runs_ret].
  - destruct (Queue_Get_runs d get l H) as (d' & get' & R & Q & Hs & _). exists d', get'.
    split; [|split; [exact Q|lia]]. eapply runs_bind; [exact R|apply runs_ret].
  - exists d, get. split; [|split; [exact H|lia]].
    eapply runs_bind; [eapply runs_le; [eapply Queue_Peek_runs, H|lia]|apply runs_ret].
  - exists d, get. split; [|split; [exact H|lia]].
    eapply runs_bind; [eapply runs_le; [eapply Queue_IsEmpty_runs, H|lia]|apply runs_ret].
  - exists d, get. split; [|split; [exact H|lia]].
    eapply runs_bind; [eapply runs_le; [eapply Queue_Size_runs, H|lia]|apply runs_ret].
  - destruct (Queue_Shift_runs d get l H) as (d' & get' & R & Q & Hg & _). exists d', get'.
    split; [|split; [exact Q|lia]].
    eapply runs_bind; [eapply runs_le; [exact R|lia]|apply runs_ret].
Qed.

Lemma queue_steps_runs ops : forall d get l, queue_at d get l ->
  get + Z.of_nat (length l) + Z.of_nat (length ops) < 2 ^ 64 ->
  exists d' get', runs (43200 * Z.of_nat (length ops)) (queue_steps q ops) d
      (Ok (fst (queue_specs ops l))) d' /\
    queue_at d' get' (snd (queue_specs ops l)).
Proof.
  induction ops as [|op ops IH]; intros d get l H Hroom; cbn [queue_steps queue_specs length] in *.
  - exists d, get. split; [apply runs_ret|exact H].
  - destruct (queue_step_runs op d get l H ltac:(lia)) as (d1 & g1 & R1 & Q1 & B1).
    destruct (queue_spec op l) as [r l1]. cbn [fst snd] in *.
    destruct (IH d1 g1 l1 Q1 ltac:(lia)) as (d2 & g2 & R2 & Q2).
    destruct (queue_specs ops l1) as [rs l2]. cbn [fst snd] in *.
    exists d2, g2. split; [|exact Q2].
    replace (43200 * Z.of_nat (S (length ops))) with (43200 + (43200 * Z.of_nat (length ops) + 0)) by lia.
    eapply runs_bind; [exact R1|]. eapply runs_bind; [exact R2|]. apply runs_ret.
Qed.

Lemma Queue_ForEach_loop_runs f d get n : forall l i,
  length l = n -> 0 <= i -> get + i + Z.of_nat n < 2 ^ 64 -> 2 <= get ->
  (forall j v, l !! j = Some v -> slot_get d (skey s (get + i + Z.of_nat j)) = v) ->
  runs (800 * Z.of_nat n)
    (Queue_ForEach_loop n q (fun i v => lift (f i v)) (i + Z.of_nat n) get i) d
    (foreach_spec f i l) d.
Proof.
  induction n as [|n IH]; intros l i Hl Hi Hmax Hget He; cbn [Queue_ForEach_loop].
  - destruct l; [|discriminate]. apply runs_ret.
  - destruct l as [|v l]; [discriminate|]. injection Hl as Hl. cbn [foreach_spec].
    destruct (Z.ltb_spec i (i + Z.of_nat (S n))); [|lia].
    replace (800 * Z.of_nat (S n)) with (800 + 800 * Z.of_nat n) by lia.
    rewrite (uwrap_id 64 (get + i)) by uint.
    eapply runs_bind; [apply q_GetByUint64_runs; uint|].
    pose proof (He 0%nat v eq_refl) as Hv. rewrite Z.add_0_r in Hv. rewrite Hv.
    replace (800 * Z.of_nat n) with (0 + 800 * Z.of_nat n) by lia.
    destruct (f i v) as [done|e|m]; cbn [obind].
    + eapply runs_bind; [apply runs_lift|]. destruct done; [eapply runs_le; [apply runs_ret|lia]|].
      rewrite uwrap_id by uint. replace (i + Z.of_nat (S n)) with (i + 1 + Z.of_nat n) by lia.
      apply IH; auto; [lia|lia|]. intros j w Hj.
      replace (get + (i + 1) + Z.of_nat j) with (get + i + Z.of_nat (S j)) by lia. auto.
    + eapply runs_le; [apply runs_bind_err, runs_lift|lia].
    + eapply runs_le; [apply runs_bind_panic, runs_lift|lia].
Qed.

Lemma Queue_ForEach_runs f d get l : queue_at d get l ->
  runs (2400 + 800 * Z.of_nat (length l)) (Queue_ForEach q (fun i v => lift (f i v))) d
    (foreach_spec f 0 l) d.
Proof.
  intros H. destruct (queue_at_offsets _ _ _ H) as [_ Hg]. unfold Queue_ForEach.
  replace (2400 + 800 * Z.of_nat (length l)) with (1600 + (800 + 800 * Z.of_nat (length l))) by lia.
  eapply runs_bind; [eapply Queue_Size_runs, H|]. eapply runs_bind; [exact Hg|].
  rewrite Nat2Z.id. destruct H as [Hp _ He Hlo Hhi].
  apply (Queue_ForEach_loop_runs f d get (length l) l 0); auto; try lia.
  intros j v Hj. rewrite Z.add_0_r. auto.
Qed.
End Refinement.

(** ** Properties *)

#[local] Existing Instance TestEnv.

(** C28: a queue that was initialized behaves as a FIFO list under any sequence
    of puts, gets, peeks, emptiness tests, size queries and shifts: every
    operation returns what the list operation returns, up to the number of
    operations for which the 64-bit offsets cannot overflow. *)
Theorem Queue_refines_list {E : Env} {EL : EnvLaws E} (s : Storage) (d : DB) (ops : list queue_op) :
  collision_free (pages (uint_keys (sto_storageKey s))) ->
  Z.of_nat (length ops) < 2 ^ 64 - 2 ->
  exists d' get,
    runs (40000 + 43200 * Z.of_nat (length ops))
      (InitializeQueue s ;;; queue_steps (OpenQueue s) ops) d (Ok (fst (queue_specs ops []))) d' /\
    queue_at s d' get (snd (queue_specs ops [])).
Proof.
  intros NC Hn. destruct (InitializeQueue_runs s NC d) as (d1 & R1 & Q1 & _).
  destruct (queue_steps_runs s NC ops d1 2 [] Q1) as (d2 & get & R2 & Q2); [cbn [length]; lia|].
  exists d2, get. split; [|exact Q2]. eapply runs_bind; [exact R1|exact R2].
Qed.

Lemma Queue_refines_list_witness :
  let s := mkStorage 1 [7] false in
  exists d' get,
    runs (40000 + 43200 * 4)
      (InitializeQueue s ;;; queue_steps (OpenQueue s) [QPut 5; QPut 6; QGet; QSize]) test_db
      (Ok [RUnit; RUnit; RHash (Some 5); RUint 1]) d' /\
    queue_at s d' get [6].
Proof.
  apply (Queue_refines_list (mkStorage 1 [7] false) test_db
    [QPut 5; QPut 6; QGet; QSize]).
  - apply test_uint_keys.
  - reflexivity.
Defined.

(** [ForEach] calls the closure on the elements of the queue, oldest
    first, with their positions, stops at the first element for which the
    closure is done or fails, returns the closure's error, and leaves the queue
    as it is. *)
Theorem Queue_ForEach_visits {E : Env} {EL : EnvLaws E} (s : Storage) (d : DB) (get : Z)
  (l : list Z) (f : Z -> Z -> outcome bool) :
  queue_at s d get l ->
  runs (2400 + 800 * Z.of_nat (length l)) (Queue_ForEach (OpenQueue s) (fun i v => lift (f i v))) d
    (foreach_spec f 0 l) d.
Proof. apply Queue_ForEach_runs. Qed.

Definition queue_example : @DB TestEnv :=
  let s := mkStorage 1 [7] false in
  let put d k v := slot_set d (skey s k) v in
  put (put (put (put test_db 0 4) 1 2) 2 50) 3 60.

Lemma Queue_ForEach_visits_witness :
  runs (2400 + 800 * 2)
    (Queue_ForEach (OpenQueue (mkStorage 1 [7] false))
       (fun i v => lift (if v =? 60 then Err (ErrNew "found") else Ok false)))
    queue_example (Err (ErrNew "found")) queue_example.
Proof.
  apply (Queue_ForEach_visits (mkStorage 1 [7] false) queue_example 2 [50; 60]
    (fun i v => if v =? 60 then Err (ErrNew "found") else Ok false)).
  split; [vm_compute; reflexivity..| |vm_compute; congruence|vm_compute; reflexivity].
  intros [|[|i]] v [= <-]; vm_compute; reflexivity.
Defined.
