(* ===== verification/Blockhash.v ===== *)
(** * arbos/blockhash/blockhash.go: the hashes of the last 256 L1 blocks

    Key 0 of the space holds the number of the next L1 block, key [1 + r] the
    hash of the last recorded block whose number is [r] modulo 256. *)
From Stdlib Require Import ZArith Lia String List.
From stdpp Require Import base list numbers.
From S2P Require Import Prelude Arbmath Host Storage StorageFacts MemEnv.
Open Scope Z_scope.

Record Blockhashes := mkBlockhashes {
  bh_backingStorage : Storage;
  bh_l1BlockNumber : StorageSlot
}.

Section Operations.
Context {E : Env}.

Definition InitializeBlockhashes (backingStorage : Storage) : M unit := ret tt.

Definition OpenBlockhashes (backingStorage : Storage) : Blockhashes :=
  mkBlockhashes (WithoutCache backingStorage) (OpenStorageBackedUint64 backingStorage 0).

Definition L1BlockNumber (bh : Blockhashes) : M Z := StorageBackedUint64_Get (bh_l1BlockNumber bh).

Definition BlockHash (bh : Blockhashes) (number : Z) : M Z :=
  let* currentNumber := StorageBackedUint64_Get (bh_l1BlockNumber bh) in
  if (currentNumber <=? number) || (number +u64 256 <? currentNumber)
  then fail (ErrNew "invalid block number for BlockHash")
  else Storage_GetByUint64 (bh_backingStorage bh) (1 +u64 (number mod 256)).

(** The bytes hashed for a skipped block. *)
Definition nextNumBuf (nextNumber arbosVersion : Z) : list Z :=
  if 8 <=? arbosVersion then rev (be_bytes 8 nextNumber) else repeat 0 8.

Fixpoint RecordNewL1Block_loop (n : nat) (bh : Blockhashes)
  (nextNumber number blockHash arbosVersion : Z) : M unit :=
  match n with
  | O => ret tt
  | S n =>
      if nextNumber +u64 1 <? number then
        let nextNumber := nextNumber +u64 1 in
        let* fill := Storage_KeccakHash [Hash_Bytes blockHash; nextNumBuf nextNumber arbosVersion] in
        Storage_SetByUint64 (bh_backingStorage bh) (1 +u64 (nextNumber mod 256)) fill ;;;
        RecordNewL1Block_loop n bh nextNumber number blockHash arbosVersion
      else ret tt
  end.

(** At most [number - nextNumber] iterations, where [nextNumber] is the value
    before the loop. *)
Definition RecordNewL1Block (bh : Blockhashes) (number blockHash arbosVersion : Z) : M unit :=
  let* nextNumber := StorageBackedUint64_Get (bh_l1BlockNumber bh) in
  if number <? nextNumber then ret tt
  else
    let nextNumber := if nextNumber +u64 256 <? number then number -u64 256 else nextNumber in
    RecordNewL1Block_loop (Z.to_nat (number - nextNumber)) bh nextNumber number blockHash arbosVersion ;;;
    Storage_SetByUint64 (bh_backingStorage bh) (1 +u64 (number mod 256)) blockHash ;;;
    StorageBackedUint64_Set (bh_l1BlockNumber bh) (number +u64 1).
End Operations.

Section Facts.
Context {E : Env} {EL : EnvLaws E} (s : Storage).
Hypothesis NC : collision_free (pages (uint_keys (sto_storageKey s))).

Notation bh := (OpenBlockhashes s).

(** The space records [ring r] for the residue [r], the next block is [cur]. *)
Record blockhashes_at (d : DB) (cur : Z) (ring : Z -> Z) : Prop := {
  ba_cur : slot_get d (skey s 0) = cur;
  ba_ring r : 0 <= r < 256 -> slot_get d (skey s (1 + r)) = ring r;
  ba_range : in_u 64 cur
}.

Definition ring_set (ring : Z -> Z) (number h : Z) : Z -> Z :=
  fun r => if r =? number mod 256 then h else ring r.

(** The hash invented for a skipped block. *)
Definition fill_hash (blockHash arbosVersion number : Z) : Z :=
  keccak256 (Hash_Bytes blockHash ++ nextNumBuf number arbosVersion).

(** The ring after the hashes of [n] numbers from [from] on are filled. *)
Fixpoint ring_fill (n : nat) (ring : Z -> Z) (from h v : Z) : Z -> Z :=
  match n with
  | O => ring
  | S n => ring_fill n (ring_set ring from (fill_hash h v from)) (from + 1) h v
  end.

Lemma mod256 z : 0 <= z mod 256 < 256.
Proof. apply Z.mod_pos_bound. lia. Qed.

Lemma blockhashes_at_set d cur ring number h : blockhashes_at d cur ring ->
  blockhashes_at (slot_set d (skey s (1 + number mod 256)) h) cur (ring_set ring number h).
Proof.
  intros [Hc Hr Hb]. pose proof (mod256 number). split; [|intros r Hr'|exact Hb].
  - rewrite slot_get_set_ne by (apply skey_uint_ne; auto; uint). exact Hc.
  - unfold ring_set. destruct (Z.eqb_spec r (number mod 256)) as [->|Hne]; [apply slot_get_set_eq|].
    rewrite slot_get_set_ne by (apply skey_uint_ne; auto; uint). auto.
Qed.

Lemma bh_set_runs number h d :
  runs 20000 (Storage_SetByUint64 (bh_backingStorage bh) (1 +u64 (number mod 256)) h) d (Ok tt)
    (slot_set d (skey s (1 + number mod 256)) h).
Proof.
  pose proof (mod256 number). rewrite uwrap_id by uint. rewrite <- skey_WithoutCache.
  apply Storage_SetByUint64_runs. uint.
Qed.

Lemma length_nextNumBuf n v : length (nextNumBuf n v) = 8%nat.
Proof.
  unfold nextNumBuf. destruct (8 <=? v); [rewrite length_rev, length_be_bytes; reflexivity|reflexivity].
Qed.

Lemma RecordNewL1Block_loop_runs n : forall d cur ring from number h v,
  blockhashes_at d cur ring -> 0 <= from -> number < 2 ^ 64 ->
  Z.of_nat n = number - from ->
  exists d', runs (20042 * Z.of_nat n) (RecordNewL1Block_loop n bh from number h v) d (Ok tt) d' /\
    blockhashes_at d' cur (ring_fill (n - 1) ring (from + 1) h v).
Proof.
  induction n as [|n IH]; intros d cur ring from number h v H Hf Hn Hlen; cbn [RecordNewL1Block_loop].
  - exists d. split; [apply runs_ret|exact H].
  - rewrite (uwrap_id 64 (from + 1)) by uint. destruct (Z.ltb_spec (from + 1) number).
    + destruct (IH (slot_set d (skey s (1 + (from + 1) mod 256)) (fill_hash h v (from + 1))) cur _
        (from + 1) number h v (blockhashes_at_set _ _ _ _ _ H)) as (d' & R & Q); [lia..|].
      exists d'. split.
      * replace (20042 * Z.of_nat (S n)) with (42 + (20000 + 20042 * Z.of_nat n)) by lia.
        eapply runs_bind.
        { apply Storage_KeccakHash_runs; cbn [concat]; rewrite !length_app, length_nextNumBuf, length_Hash_Bytes; reflexivity. }
        eapply runs_bind; [apply bh_set_runs|]. cbn [concat]. rewrite app_nil_r. exact R.
      * destruct n as [|n]; [lia|]. cbn [Nat.sub ring_fill] in *. rewrite Nat.sub_0_r in *. exact Q.
    + assert (n = 0%nat) as -> by lia. exists d. split; [|exact H]. eapply runs_le; [apply runs_ret|lia].
Qed.

(** The block before the first one the loop fills. *)
Definition fill_start (cur number : Z) : Z := if cur + 256 <? number then number - 256 else cur.

Lemma RecordNewL1Block_runs d cur ring number h v :
  blockhashes_at d cur ring -> cur <= number -> number + 256 < 2 ^ 64 ->
  let start := fill_start cur number in
  exists d', runs (800 + (20042 * (number - start) + 40000)) (RecordNewL1Block bh number h v) d (Ok tt) d' /\
    blockhashes_at d' (number + 1)
      (ring_set (ring_fill (Z.to_nat (number - start) - 1) ring (start + 1) h v) number h).
Proof.
  intros H Hcn Hmax start. pose proof (ba_range _ _ _ H) as Hcur. pose proof (ba_cur _ _ _ H) as Hc.
  assert (0 <= start <= number) as Hs by (subst start; unfold fill_start; zbool; uint).
  destruct (RecordNewL1Block_loop_runs (Z.to_nat (number - start)) d cur ring start number h v H)
    as (d1 & R & Q); [lia..|].
  apply (blockhashes_at_set _ _ _ number h) in Q.
  set (d2 := slot_set d1 (skey s (1 + number mod 256)) h) in *.
  exists (slot_set d2 (skey s 0) (number + 1)). split.
  - unfold RecordNewL1Block. change (bh_l1BlockNumber bh) with (NewSlot s 0). rewrite NewSlot_skey by uint.
    eapply runs_bind; [apply StorageBackedUint64_Get_runs; rewrite Hc; exact Hcur|]. rewrite Hc.
    destruct (Z.ltb_spec number cur); [lia|]. rewrite (uwrap_id 64 (cur + 256)) by uint.
    assert ((if cur + 256 <? number then number -u64 256 else cur) = start) as ->.
    { subst start. unfold fill_start. zbool; [rewrite uwrap_id; uint|reflexivity]. }
    eapply runs_bind; [rewrite Z2Nat.id in R by lia; exact R|]. change 40000 with (20000 + 20000).
    eapply runs_bind; [apply bh_set_runs|]. rewrite uwrap_id by uint.
    apply StorageBackedUint64_Set_runs. uint.
  - destruct Q as [Qc Qr Qb]. split; [apply slot_get_set_eq|intros r Hr|uint].
    rewrite slot_get_set_ne by (apply skey_uint_ne; auto; uint). auto.
Qed.

Lemma BlockHash_runs d cur ring number :
  blockhashes_at d cur ring -> 0 <= number -> number + 256 < 2 ^ 64 ->
  runs 1600 (BlockHash bh number) d
    (if (number <? cur) && (cur <=? number + 256) then Ok (ring (number mod 256))
     else Err (ErrNew "invalid block number for BlockHash")) d.
Proof.
  intros [Hc Hr Hb] Hn Hmax. unfold BlockHash.
  change (bh_l1BlockNumber bh) with (NewSlot s 0). rewrite NewSlot_skey by uint.
  change 1600 with (800 + 800).
  eapply runs_bind; [apply StorageBackedUint64_Get_runs; rewrite Hc; exact Hb|]. rewrite Hc.
  rewrite (uwrap_id 64 (number + 256)) by uint. pose proof (mod256 number).
  zbool; cbn [orb andb]; try lia; try (eapply runs_le; [apply runs_fail|lia]).
  rewrite uwrap_id, <- Hr, <- skey_WithoutCache by uint. apply Storage_GetByUint64_runs. uint.
Qed.

(** ** What the ring holds for a number of the window *)

Lemma mod256_inj a b : a mod 256 = b mod 256 -> - 256 < a - b < 256 -> a = b.
Proof.
  intros H Hd. pose proof (Z.div_mod a 256 ltac:(lia)). pose proof (Z.div_mod b 256 ltac:(lia)).
  assert (a / 256 = b / 256) by lia. lia.
Qed.

Lemma ring_fill_spec n : forall ring from h v k,
  (n <= 256)%nat -> from + Z.of_nat n - 256 <= k < from + Z.of_nat n ->
  ring_fill n ring from h v (k mod 256) = if from <=? k then fill_hash h v k else ring (k mod 256).
Proof.
  induction n as [|n IH]; intros ring from h v k Hn Hk; cbn [ring_fill].
  - destruct (Z.leb_spec from k); [lia|reflexivity].
  - destruct (Z.eq_dec k from) as [->|Hne].
    + destruct (Z.leb_spec from from); [|lia].
      rewrite IH by lia. destruct (Z.leb_spec (from + 1) from); [lia|].
      unfold ring_set. rewrite Z.eqb_refl. reflexivity.
    + rewrite IH by lia. zbool; try lia; try reflexivity.
      unfold ring_set. destruct (Z.eqb_spec (k mod 256) (from mod 256)) as [He|]; [|reflexivity].
      apply mod256_inj in He; lia.
Qed.

(** The hash reported for block [k] after block [number] was recorded on a
    ring whose next number was [cur]. *)
Definition recorded_hash (cur : Z) (ring : Z -> Z) (number h v k : Z) : Z :=
  if k =? number then h
  else if fill_start cur number <? k then fill_hash h v k
  else ring (k mod 256).

Lemma recorded_ring cur ring number h v k :
  0 <= cur <= number -> number - 256 < k <= number ->
  let start := fill_start cur number in
  ring_set (ring_fill (Z.to_nat (number - start) - 1) ring (start + 1) h v) number h (k mod 256)
  = recorded_hash cur ring number h v k.
Proof.
  intros Hc Hk start. unfold ring_set, recorded_hash.
  assert (start <= number /\ number - start <= 256 /\ cur <= number) as (? & ? & ?)
    by (subst start; unfold fill_start; zbool; lia).
  destruct (Z.eqb_spec k number) as [->|Hne]; [rewrite Z.eqb_refl; reflexivity|].
  destruct (Z.eqb_spec (k mod 256) (number mod 256)) as [He|]; [apply mod256_inj in He; lia|].
  fold start. destruct (Z_le_gt_dec number (start + 1)).
  - replace (Z.to_nat (number - start) - 1)%nat with 0%nat by lia. cbn [ring_fill].
    destruct (Z.ltb_spec start k); [lia|reflexivity].
  - rewrite ring_fill_spec by lia. zbool; try reflexivity; lia.
Qed.
End Facts.

(** ** Properties *)

#[local] Existing Instance TestEnv.

Lemma blockhashes_at_db {E : Env} {EL : EnvLaws E} s d :
  in_u 64 (slot_get d (skey s 0)) ->
  blockhashes_at s d (slot_get d (skey s 0)) (fun r => slot_get d (skey s (1 + r))).
Proof. intros. split; auto. Qed.

Lemma L1BlockNumber_runs {E : Env} {EL : EnvLaws E} s d cur ring :
  blockhashes_at s d cur ring -> runs 800 (L1BlockNumber (OpenBlockhashes s)) d (Ok cur) d.
Proof.
  intros [Hc _ Hb]. unfold L1BlockNumber. change (bh_l1BlockNumber _) with (NewSlot s 0).
  rewrite NewSlot_skey by uint. rewrite <- Hc. apply StorageBackedUint64_Get_runs. rewrite Hc. exact Hb.
Qed.

(** After [RecordNewL1Block] of a new block [number], [L1BlockNumber] is
    [number + 1], [BlockHash] gives, for each of the last 256 numbers, the
    recorded hash, the hash derived for a skipped block, or what the ring held
    before, and it rejects every number outside that window. *)
Theorem RecordNewL1Block_BlockHash {E : Env} {EL : EnvLaws E} (s : Storage) (d : DB)
  (number h v : Z) :
  collision_free (pages (uint_keys (sto_storageKey s))) ->
  in_u 64 (slot_get d (skey s 0)) -> slot_get d (skey s 0) <= number -> number + 256 < 2 ^ 64 ->
  let cur := slot_get d (skey s 0) in
  let ring r := slot_get d (skey s (1 + r)) in
  let bh := OpenBlockhashes s in
  exists G d',
    runs G (RecordNewL1Block bh number h v) d (Ok tt) d' /\
    runs 800 (L1BlockNumber bh) d' (Ok (number + 1)) d' /\
    forall k, 0 <= k -> k + 256 < 2 ^ 64 ->
      runs 1600 (BlockHash bh k) d'
        (if (number - 256 <? k) && (k <=? number) then Ok (recorded_hash cur ring number h v k)
         else Err (ErrNew "invalid block number for BlockHash")) d'.
Proof.
  intros NC Hb Hle Hmax cur ring bh.
  destruct (RecordNewL1Block_runs s NC d cur ring number h v (blockhashes_at_db s d Hb) Hle Hmax)
    as (d' & R & Q).
  do 2 eexists. split; [exact R|]. split; [eapply L1BlockNumber_runs, Q|]. intros k Hk Hk'.
  pose proof (BlockHash_runs s d' _ _ k Q Hk Hk') as HB. revert HB. unfold in_u in Hb.
  destruct (Z.ltb_spec k (number + 1)), (Z.leb_spec (number + 1) (k + 256)),
    (Z.ltb_spec (number - 256) k), (Z.leb_spec k number); cbn [andb]; intros HB; try lia; try exact HB.
  rewrite recorded_ring in HB by (subst cur; lia). exact HB.
Qed.

Definition blockhash_example : @DB TestEnv :=
  let s := mkStorage 1 [7] false in
  slot_set (slot_set test_db (skey s 0) 300) (skey s (1 + 44)) 77.

Lemma RecordNewL1Block_BlockHash_witness :
  let bh := OpenBlockhashes (mkStorage 1 [7] false) in
  exists G d',
    runs G (RecordNewL1Block bh 302 99 9) blockhash_example (Ok tt) d' /\
    runs 1600 (BlockHash bh 302) d' (Ok 99) d' /\
    runs 1600 (BlockHash bh 300) d' (Ok 77) d' /\
    runs 1600 (BlockHash bh 46) d' (Err (ErrNew "invalid block number for BlockHash")) d'.
Proof.
  destruct (RecordNewL1Block_BlockHash (mkStorage 1 [7] false) blockhash_example 302 99 9)
    as (G & d' & R & _ & H).
  - apply test_uint_keys.
  - vm_compute. split; congruence.
  - vm_compute. congruence.
  - reflexivity.
  - exists G, d'. split; [exact R|]. split; [|split].
    + apply (H 302); lia.
    + apply (H 300); lia.
    + apply (H 46); lia.
Defined.

(** A block number below the next one changes nothing. *)
Theorem RecordNewL1Block_old {E : Env} {EL : EnvLaws E} (s : Storage) (d : DB) (number h v : Z) :
  in_u 64 (slot_get d (skey s 0)) -> number < slot_get d (skey s 0) ->
  runs 800 (RecordNewL1Block (OpenBlockhashes s) number h v) d (Ok tt) d.
Proof.
  intros Hb Hlt. unfold RecordNewL1Block. change (bh_l1BlockNumber _) with (NewSlot s 0).
  rewrite NewSlot_skey by uint. change 800 with (800 + 0).
  eapply runs_bind; [apply StorageBackedUint64_Get_runs, Hb|].
  destruct (Z.ltb_spec number (slot_get d (skey s 0))); [apply runs_ret|lia].
Qed.

Lemma RecordNewL1Block_old_witness :
  runs 800 (RecordNewL1Block (OpenBlockhashes (mkStorage 1 [7] false)) 299 99 9) blockhash_example
    (Ok tt) blockhash_example.
Proof.
  apply (RecordNewL1Block_old (mkStorage 1 [7] false) blockhash_example 299 99 9).
  - vm_compute. split; congruence.
  - reflexivity.
Defined.

(** the first of the blocks that a new block skips over is not filled in:
    when block [number] is recorded and the next expected block was
    [cur < number], the hash then reported for [cur] is the one that was
    reported for block [cur - 256] before. *)
Theorem RecordNewL1Block_first_skipped_stale {E : Env} {EL : EnvLaws E} (s : Storage) (d : DB)
  (cur number h v : Z) :
  collision_free (pages (uint_keys (sto_storageKey s))) ->
  slot_get d (skey s 0) = cur -> 256 <= cur -> cur < number <= cur + 255 -> number + 256 < 2 ^ 64 ->
  exists x G d',
    runs 1600 (BlockHash (OpenBlockhashes s) (cur - 256)) d (Ok x) d /\
    runs G (RecordNewL1Block (OpenBlockhashes s) number h v) d (Ok tt) d' /\
    runs 1600 (BlockHash (OpenBlockhashes s) cur) d' (Ok x) d'.
Proof.
  intros NC Hc Hlo Hn Hmax. assert (in_u 64 (slot_get d (skey s 0))) as Hb by uint.
  pose proof (blockhashes_at_db s d Hb) as Q0.
  destruct (RecordNewL1Block_runs s NC d _ _ number h v Q0 ltac:(lia) Hmax) as (d' & R & Q).
  exists (slot_get d (skey s (1 + cur mod 256))). do 2 eexists. split; [|split; [exact R|]].
  - pose proof (BlockHash_runs s d _ _ (cur - 256) Q0 ltac:(lia) ltac:(lia)) as HB.
    rewrite Hc in HB. replace ((cur - 256) mod 256) with (cur mod 256) in HB.
    2: { replace (cur - 256) with (cur + (-1) * 256) by lia. rewrite Z.mod_add by lia. reflexivity. }
    revert HB. zbool; cbn [andb]; try lia; intros HB; exact HB.
  - pose proof (BlockHash_runs s d' _ _ cur Q ltac:(lia) ltac:(lia)) as HB.
    rewrite recorded_ring in HB by lia. unfold recorded_hash, fill_start in HB. rewrite Hc in HB.
    destruct (Z.ltb_spec (cur + 256) number); [lia|].
    revert HB. zbool; cbn [andb]; try lia; intros HB; exact HB.
Qed.

Lemma RecordNewL1Block_first_skipped_stale_witness :
  exists x G d',
    runs 1600 (BlockHash (OpenBlockhashes (mkStorage 1 [7] false)) 44) blockhash_example (Ok x) blockhash_example /\
    runs G (RecordNewL1Block (OpenBlockhashes (mkStorage 1 [7] false)) 302 99 9) blockhash_example (Ok tt) d' /\
    runs 1600 (BlockHash (OpenBlockhashes (mkStorage 1 [7] false)) 300) d' (Ok x) d'.
Proof.
  apply (RecordNewL1Block_first_skipped_stale (mkStorage 1 [7] false) blockhash_example 300 302 99 9).
  - apply test_uint_keys.
  - vm_compute. reflexivity.
  - lia.
  - lia.
  - lia.
Defined.
