(* ===== verification/IndexedSet.v ===== *)
(** * An indexed list of addresses with a reverse mapping

    The layout that arbos/addressSet and arbos/addressTable share: a count at
    key 0 of a space, the entries at the keys from 1 on, and a sub-space that
    maps an entry to its position. The mapping may have further, stale,
    entries. *)
From Stdlib Require Import ZArith Lia String List.
From stdpp Require Import base list numbers gmap.
From S2P Require Import Prelude Arbmath Host Storage StorageFacts MemEnv.
Open Scope Z_scope.

(** The member list after the removal of position [i]: the last member takes
    its place. *)
Definition swap_remove (i : nat) (l : list Z) : list Z :=
  match last l with
  | Some z => take (length l - 1) (<[i := z]> l)
  | None => []
  end.

Lemma swap_remove_lookup i l z j b :
  (i < length l)%nat -> last l = Some z ->
  swap_remove i l !! j = Some b <->
  (j < length l - 1)%nat /\ (j = i /\ b = z \/ j <> i /\ l !! j = Some b).
Proof.
  intros Hi Hz. unfold swap_remove. rewrite Hz. rewrite lookup_take_Some.
  destruct (decide (j = i)) as [->|Hne].
  - rewrite list_lookup_insert_eq by auto. split; [intros [[= ->] ?]; auto|].
    intros [? [[_ ->]|[? _]]]; [auto|congruence].
  - rewrite list_lookup_insert_ne by auto. split; [intros [? ?]; auto|].
    intros [? [[? _]|[_ ?]]]; [congruence|auto].
Qed.

Lemma length_swap_remove i l : (i < length l)%nat -> length (swap_remove i l) = (length l - 1)%nat.
Proof.
  intros Hi. unfold swap_remove. destruct (last l) eqn:Hz.
  - rewrite length_take, length_insert. lia.
  - apply last_None in Hz as ->. reflexivity.
Qed.

Lemma swap_remove_elem i l a b :
  NoDup l -> l !! i = Some a -> b ∈ swap_remove i l <-> b ∈ l /\ b <> a.
Proof.
  intros Hnd Hi. pose proof (lookup_lt_Some _ _ _ Hi) as Hlt.
  destruct (last l) as [z|] eqn:Hz; [|apply last_None in Hz as ->; discriminate].
  pose proof Hz as Hz'. rewrite last_lookup in Hz'. rewrite !list_elem_of_lookup.
  setoid_rewrite swap_remove_lookup; [|eassumption..]. split.
  - intros (j & Hj & [[-> ->]|[Hne Hb]]); split; eauto; intros ->.
    + assert (i = pred (length l)) by (eapply NoDup_lookup; eauto). lia.
    + apply Hne. eapply NoDup_lookup; eauto.
  - intros [(j & Hj) Hba]. pose proof (lookup_lt_Some _ _ _ Hj).
    assert (j <> i) by congruence. destruct (decide (j = pred (length l))) as [->|].
    + exists i. split; [lia|]. left. split; congruence.
    + exists j. split; [lia|]. auto.
Qed.

Section Index.
Context {E : Env} {EL : EnvLaws E} {s : Storage} {id : list Z}.

Notation by_ := (OpenSubStorage s id).


(** The keys in use: integers in the space, addresses in [byAddress]. *)
Definition ix_keys (sk : list Z) (k : Z) : Prop :=
  (sk = sto_storageKey s /\ in_u 64 k) \/ (sk = sto_storageKey by_ /\ in_u 160 k).

Definition ix_space : Prop :=
  collision_free (pages ix_keys) /\ sto_storageKey by_ <> sto_storageKey s.

Hypothesis NC : ix_space.

Lemma list_ne k k' : in_u 64 k -> in_u 64 k' -> k <> k' -> skey s k <> skey s k'.
Proof.
  intros Hk Hk' Hne H. destruct NC as [Hc _].
  apply (skey_inj _ _ _ _ _ Hc) in H as [_ H]; unfold ix_keys; auto with go.
Qed.

Lemma map_ne a b : in_u 160 a -> in_u 160 b -> a <> b -> skey by_ a <> skey by_ b.
Proof.
  intros Hk Hk' Hne H. destruct NC as [Hc _].
  apply (skey_inj _ _ _ _ _ Hc) in H as [_ H]; unfold ix_keys; auto with go.
Qed.

Lemma list_map_ne k a : in_u 64 k -> in_u 160 a -> skey s k <> skey by_ a.
Proof.
  intros Hk Ha H. destruct NC as [Hc Hd].
  apply (skey_inj _ _ _ _ _ Hc) in H as [H _]; unfold ix_keys; auto with go.
Qed.

Lemma map_list_ne k a : in_u 64 k -> in_u 160 a -> skey by_ a <> skey s k.
Proof. intros Hk Ha H. exact (list_map_ne k a Hk Ha (eq_sym H)). Qed.

Definition ix_pos (d : DB) (a : Z) : Z := slot_get d (skey by_ a).
Definition ix_elem (d : DB) (k : Z) : Z := slot_get d (skey s k).

Lemma ix_pos_map d a b v : in_u 160 a -> in_u 160 b ->
  ix_pos (slot_set d (skey by_ a) v) b = if decide (a = b) then v else ix_pos d b.
Proof.
  intros. unfold ix_pos. case_decide; subst; [apply slot_get_set_eq|].
  apply slot_get_set_ne, map_ne; auto.
Qed.

Lemma ix_pos_list d k a v : in_u 64 k -> in_u 160 a -> ix_pos (slot_set d (skey s k) v) a = ix_pos d a.
Proof. intros. apply slot_get_set_ne, list_map_ne; auto. Qed.

Lemma ix_elem_list d k k' v : in_u 64 k -> in_u 64 k' ->
  ix_elem (slot_set d (skey s k) v) k' = if decide (k = k') then v else ix_elem d k'.
Proof.
  intros. unfold ix_elem. case_decide; subst; [apply slot_get_set_eq|].
  apply slot_get_set_ne, list_ne; auto.
Qed.

Lemma ix_elem_map d k a v : in_u 64 k -> in_u 160 a -> ix_elem (slot_set d (skey by_ a) v) k = ix_elem d k.
Proof. intros. apply slot_get_set_ne, map_list_ne; auto. Qed.

(** The space holds the members [l], in the order of their positions; the
    mapping also has an entry for each address of [st] ("stale"). *)
Record ix_at (d : DB) (l st : list Z) : Prop := {
  aa_size : ix_elem d 0 = Z.of_nat (length l);
  aa_elem i a : l !! i = Some a -> ix_elem d (Z.of_nat i + 1) = a;
  aa_pos i a : l !! i = Some a -> ix_pos d a = Z.of_nat i + 1;
  aa_stale a : a ∈ st -> (a ∉ l) /\ in_u 64 (ix_pos d a) /\ ix_pos d a <> 0;
  aa_out a : in_u 160 a -> a ∉ l -> a ∉ st -> ix_pos d a = 0;
  aa_addr a : a ∈ l \/ a ∈ st -> in_u 160 a;
  aa_len : Z.of_nat (length l) < 2 ^ 64 - 1
}.

Lemma ix_at_inj d l st i j a : ix_at d l st -> l !! i = Some a -> l !! j = Some a -> i = j.
Proof. intros H Hi Hj. apply (aa_pos _ _ _ H) in Hi, Hj. lia. Qed.

Lemma ix_at_nodup d l st : ix_at d l st -> NoDup l.
Proof. intros H. apply NoDup_alt. intros i j a. eapply ix_at_inj, H. Qed.

Lemma ix_at_pos d l st a : ix_at d l st -> in_u 160 a ->
  in_u 64 (ix_pos d a) /\ (ix_pos d a <> 0 <-> a ∈ l \/ a ∈ st).
Proof.
  intros H Ha. destruct (decide (a ∈ l)) as [Hl|Hl].
  - apply list_elem_of_lookup in Hl as [i Hi]. pose proof (lookup_lt_Some _ _ _ Hi).
    rewrite (aa_pos _ _ _ H i a Hi). pose proof (aa_len _ _ _ H).
    split; [uint|]. split; [|lia]. left. eapply list_elem_of_lookup_2, Hi.
  - destruct (decide (a ∈ st)) as [Hs|Hs].
    + destruct (aa_stale _ _ _ H a Hs) as (_ & Hr & Hz). split; [exact Hr|]. tauto.
    + rewrite (aa_out _ _ _ H a) by auto. split; [uint|]. split; [lia|tauto].
Qed.

Lemma ix_lookup_u64 d l st i a : ix_at d l st -> l !! i = Some a -> in_u 64 (Z.of_nat i + 1).
Proof. intros H Hi. apply lookup_lt_Some in Hi. pose proof (aa_len _ _ _ H). uint. Qed.

Lemma AddressToHash_bytes a : in_u 160 a -> BytesToHash (Address_Bytes a) = a.
Proof. exact (AddressToHash_id a). Qed.

(** Reads of the two sub-spaces after writes to them. *)
Ltac ix_reads' :=
  repeat first
    [ rewrite ix_pos_list by (assumption || uint)
    | rewrite ix_pos_map by (assumption || uint)
    | rewrite ix_elem_map by (assumption || uint)
    | rewrite ix_elem_list by (assumption || uint) ].

Lemma ix_at_add d l st st' a :
  ix_at d l st -> in_u 160 a -> a ∉ l -> Z.of_nat (length l) < 2 ^ 64 - 2 ->
  (forall b, b ∈ st' <-> b ∈ st /\ b <> a) ->
  let n := Z.of_nat (length l) in
  ix_at (slot_set (slot_set (slot_set d (skey by_ a) (n + 1)) (skey s (n + 1)) a) (skey s 0) (n + 1))
    (l ++ [a]) st'.
Proof.
  intros H Ha Hl Hlen Hst n. destruct H as [Hs He Hp Ht Ho Hr _]. split.
  - ix_reads'. rewrite decide_True by auto. rewrite length_app. cbn [length]. lia.
  - intros i b Hb. pose proof (lookup_lt_Some _ _ _ Hb) as Hi. rewrite length_app in Hi. cbn in Hi.
    ix_reads'. rewrite decide_False by lia.
    apply lookup_snoc_Some in Hb as [[Hi' Hb]|[-> <-]]; [|rewrite decide_True by lia; reflexivity].
    rewrite decide_False by lia. auto.
  - intros i b Hb. assert (in_u 160 b) as Hbr.
    { apply list_elem_of_lookup_2 in Hb. apply elem_of_app in Hb as [Hb| ->%list_elem_of_singleton]; auto. }
    ix_reads'. apply lookup_snoc_Some in Hb as [[Hi' Hb]|[-> <-]]; [|rewrite decide_True; auto].
    rewrite decide_False by (intros ->; apply Hl; eapply list_elem_of_lookup_2, Hb). auto.
  - intros b Hb. apply Hst in Hb as [Hb Hba]. destruct (Ht b Hb) as (Hbl & Hbp & Hbz).
    assert (in_u 160 b) by auto. ix_reads'. rewrite decide_False by auto.
    split; [|auto]. rewrite elem_of_app, list_elem_of_singleton. tauto.
  - intros b Hb Hbl Hbs. rewrite elem_of_app, list_elem_of_singleton in Hbl. ix_reads'.
    rewrite decide_False by (intros ->; tauto).
    apply Ho; auto. intros Hb'. apply Hbs, Hst. split; [exact Hb'|]. intros ->. tauto.
  - intros b. rewrite elem_of_app, list_elem_of_singleton, Hst. intros [[Hb| ->]|[Hb _]]; auto.
  - rewrite length_app. cbn [length]. lia.
Qed.

Lemma ix_at_remove d d' l st i a z :
  ix_at d l st -> l !! i = Some a -> last l = Some z ->
  let n := Z.of_nat (length l) in
  ix_elem d' 0 = n - 1 ->
  (forall k, 1 <= k < n -> ix_elem d' k = if decide (k = Z.of_nat i + 1) then z else ix_elem d k) ->
  (forall b, in_u 160 b -> ix_pos d' b =
    if decide (b = a) then 0 else if decide (b = z) then Z.of_nat i + 1 else ix_pos d b) ->
  ix_at d' (swap_remove i l) st.
Proof.
  intros H Hi Hz n Hs He Hp. pose proof (ix_at_nodup _ _ _ H) as Hnd.
  pose proof (lookup_lt_Some _ _ _ Hi) as Hlt. pose proof Hz as Hz'. rewrite last_lookup in Hz'.
  assert (forall b, b ∈ swap_remove i l <-> b ∈ l /\ b <> a) as Hin by (intros; eapply swap_remove_elem; eauto).
  assert (forall j b, l !! j = Some b -> in_u 160 b) as Hr
    by (intros j b Hb; apply (aa_addr _ _ _ H); left; eapply list_elem_of_lookup_2, Hb).
  pose proof (aa_len _ _ _ H) as Hlen. split.
  - rewrite Hs, length_swap_remove by auto. lia.
  - intros j b Hj. apply (swap_remove_lookup i l z j b Hlt Hz) in Hj as [Hj Hb].
    rewrite He by lia. destruct Hb as [[-> ->]|[Hne Hb]]; [rewrite decide_True; auto|].
    rewrite decide_False by lia. apply (aa_elem _ _ _ H _ _ Hb).
  - intros j b Hj. apply (swap_remove_lookup i l z j b Hlt Hz) in Hj as [Hj Hb].
    destruct Hb as [[-> ->]|[Hne Hb]]; rewrite Hp by (eapply Hr; eassumption).
    + rewrite decide_False, decide_True; auto. intros ->.
      pose proof (ix_at_inj _ _ _ _ _ _ H Hi Hz'). lia.
    + rewrite !decide_False; [apply (aa_pos _ _ _ H _ _ Hb)|..]; intros ->.
      * pose proof (ix_at_inj _ _ _ _ _ _ H Hb Hz'). lia.
      * apply Hne. eapply ix_at_inj; eauto.
  - intros b Hb. destruct (aa_stale _ _ _ H b Hb) as (Hbl & Hbp & Hbz).
    assert (in_u 160 b) by (apply (aa_addr _ _ _ H); auto). rewrite Hp by auto.
    rewrite !decide_False by (intros ->; apply Hbl; eapply list_elem_of_lookup_2; eauto).
    rewrite Hin. tauto.
  - intros b Hb Hbl Hbs. rewrite Hin in Hbl. rewrite Hp by auto.
    destruct (decide (b = a)) as [->|Hba]; [reflexivity|].
    rewrite decide_False by (intros ->; apply Hbl; split; auto; eapply list_elem_of_lookup_2; eauto).
    apply (aa_out _ _ _ H); tauto.
  - intros b. rewrite Hin. intros Hb. apply (aa_addr _ _ _ H). tauto.
  - rewrite length_swap_remove by auto. lia.
Qed.

Lemma ix_at_nil d st :
  ix_elem d 0 = 0 ->
  (forall a, a ∈ st -> in_u 160 a /\ in_u 64 (ix_pos d a) /\ ix_pos d a <> 0) ->
  (forall a, in_u 160 a -> a ∉ st -> ix_pos d a = 0) -> ix_at d [] st.
Proof.
  clear NC. intros Hs Ht Ho. split; try (cbn; lia || discriminate); auto.
  - intros a Ha. split; [apply not_elem_of_nil|]. apply Ht, Ha.
  - intros a [Ha|Ha]; [inversion Ha|apply Ht, Ha].
Qed.

Lemma ix_at_ext d d' l st :
  (forall x, slot_get d' x = slot_get d x) -> ix_at d l st -> ix_at d' l st.
Proof.
  clear NC. intros Hx [Hs He Hp Ht Ho Hr Hl].
  assert (forall k, ix_elem d' k = ix_elem d k) as Ee by (intros; apply Hx).
  assert (forall a, ix_pos d' a = ix_pos d a) as Ep by (intros; apply Hx).
  split; intros; rewrite ?Ee, ?Ep; auto.
Qed.

(** The slots of the layout. *)
Definition ix_slots (x : StorageSlot) : Prop :=
  (exists k, in_u 64 k /\ x = skey s k) \/ (exists a, in_u 160 a /\ x = skey by_ a).

Lemma ix_at_agree d d' l st :
  (forall x, ix_slots x -> slot_get d' x = slot_get d x) -> ix_at d l st -> ix_at d' l st.
Proof.
  clear NC. intros Hf [Hs He Hp Ht Ho Hr Hl].
  assert (forall k, in_u 64 k -> ix_elem d' k = ix_elem d k) as Ee by (intros; apply Hf; left; eauto).
  assert (forall a, in_u 160 a -> ix_pos d' a = ix_pos d a) as Ep by (intros; apply Hf; right; eauto).
  split; auto.
  - rewrite Ee by uint. exact Hs.
  - intros i a Hi. pose proof (lookup_lt_Some _ _ _ Hi). rewrite Ee by uint. auto.
  - intros i a Hi. rewrite Ep; [auto|]. apply Hr. left. eapply list_elem_of_lookup_2, Hi.
  - intros a Ha. rewrite Ep by auto. auto.
  - intros a Ha. rewrite Ep by auto. auto.
Qed.

Lemma ix_at_frame P d d' l st :
  (forall x, ix_slots x -> ~ P x) -> frame P d d' -> ix_at d l st -> ix_at d' l st.
Proof. clear NC. intros Hn [Hf _]. apply ix_at_agree. intros x Hx. apply Hf, Hn, Hx. Qed.
End Index.

Arguments ix_at {E} s id d l st.
Arguments ix_pos {E} s id d a.
Arguments ix_elem {E} s d k.
Arguments ix_space {E} s id.
Arguments ix_keys {E} s id sk k.
Arguments ix_slots {E} s id x.

Lemma spaces_ix_space {E : Env} {EL : EnvLaws E} sps s id i j :
  spaces_ok sps -> sps !! i = Some s -> sps !! j = Some (OpenSubStorage s id) -> i <> j -> ix_space s id.
Proof.
  intros H Hi Hj Hne. split; [|apply (spaces_key_ne sps j i _ _ H Hj Hi); auto].
  destruct H as [Hnd NC]. assert (forall sk k, ix_keys s id sk k -> spaces_keys sps sk k) as Hk.
  { intros sk k [[-> [Hk0 Hk1]]|[-> Hk]]; split; try apply list_elem_of_fmap.
    - exists s. split; [reflexivity|eapply list_elem_of_lookup_2, Hi].
    - split; [exact Hk0|]. eapply Z.lt_trans; [exact Hk1|reflexivity].
    - exists (OpenSubStorage s id). split; [reflexivity|eapply list_elem_of_lookup_2, Hj].
    - exact Hk. }
  intros x y (sk & k & H1 & H2 & ->) (sk' & k' & H1' & H2' & ->).
  apply NC; [exists sk, k|exists sk', k']; auto.
Qed.

(** Reads of the two sub-spaces after writes to them; [NC] separates them. *)
Ltac ix_reads NC :=
  repeat first
    [ rewrite (ix_pos_list NC) by (assumption || uint)
    | rewrite (ix_pos_map NC) by (assumption || uint)
    | rewrite (ix_elem_map NC) by (assumption || uint)
    | rewrite (ix_elem_list NC) by (assumption || uint) ].

Lemma test_ix_space id : (id = [] \/ id = [0]) -> ix_space (E := TestEnv) (mkStorage 1 [7] false) id.
Proof.
  intros Hid. split; [|destruct Hid as [->| ->]; vm_compute; discriminate].
  apply (digest_collision_free SystemBurner _
    [[7]; sto_storageKey (OpenSubStorage (E := TestEnv) (mkStorage 1 [7] false) id)]).
  - intros sk k [[-> [Hk1 Hk2]]|[-> [Hk1 Hk2]]]; (split; [set_solver|lia]).
  - intros a b Ha Hb Ht. rewrite !elem_of_cons in Ha, Hb.
    destruct Ha as [->|[->|Ha]]; destruct Hb as [->|[->|Hb]]; try reflexivity;
      try (apply elem_of_nil in Ha; contradiction); try (apply elem_of_nil in Hb; contradiction);
      exfalso; revert Ht; destruct Hid as [->| ->]; vm_compute; discriminate.
Qed.
