(* ===== verification/AddressSet.v ===== *)
(** * arbos/addressSet/addressSet.go: a set of addresses

    The size is at key 0 of the space, the members at the keys from 1 on, and
    the sub-space [byAddress] maps a member to its position. The state is
    related to the list of members by [aset_at], which also allows for the
    stale entries of the mapping that ArbOS versions before 11 left behind. *)
From Stdlib Require Import ZArith Lia String List.
From stdpp Require Import base list numbers gmap.
From S2P Require Import Prelude Arbmath Host Storage StorageFacts IndexedSet MemEnv.
Open Scope Z_scope.

Record AddressSet := mkAddressSet {
  as_backingStorage : Storage;
  as_size : StorageSlot;
  as_byAddress : Storage
}.

Section Operations.
Context {E : Env}.

Definition AddressSet_Initialize (sto : Storage) : M unit := Storage_SetUint64ByUint64 sto 0 0.

Definition OpenAddressSet (sto : Storage) : AddressSet :=
  mkAddressSet (WithoutCache sto) (OpenStorageBackedUint64 sto 0) (OpenSubStorage sto [0]).

Definition AddressSet_Size (aset : AddressSet) : M Z := StorageBackedUint64_Get (as_size aset).

Definition AddressSet_IsMember (aset : AddressSet) (addr : Z) : M bool :=
  let* value := Storage_Get (as_byAddress aset) (AddressToHash addr) in
  ret (negb (value =? 0)).

Definition AddressSet_GetAnyMember (aset : AddressSet) : M (option Z) :=
  let* size := StorageBackedUint64_Get (as_size aset) in
  if size =? 0 then ret None
  else StorageBackedAddressOrNil_Get (OpenStorageBackedAddressOrNil (as_backingStorage aset) 1).

(** The loop [for i := uint64(1); i <= size; i++], [n] iterations left. *)
Fixpoint AddressSet_Clear_loop (n : nat) (aset : AddressSet) (i size : Z) : M unit :=
  match n with
  | O => ret tt
  | S n =>
      if i <=? size then
        let* contents := value_or 0 (Storage_GetByUint64 (as_backingStorage aset) i) in
        ignore (Storage_ClearByUint64 (as_backingStorage aset) i) ;;;
        Storage_Clear (as_byAddress aset) contents ;;;
        AddressSet_Clear_loop n aset (i +u64 1) size
      else ret tt
  end.

Definition AddressSet_Clear (aset : AddressSet) : M unit :=
  let* size := StorageBackedUint64_Get (as_size aset) in
  if size =? 0 then ret tt
  else
    AddressSet_Clear_loop (Z.to_nat size) aset 1 size ;;;
    StorageBackedUint64_Clear (as_size aset).

(** The loop [for i := range ret]: [i] counts up, [n] entries are left. *)
Fixpoint AddressSet_AllMembers_loop (n : nat) (aset : AddressSet) (i : Z) : M (list Z) :=
  match n with
  | O => ret []
  | S n =>
      let* a := StorageBackedAddress_Get (OpenStorageBackedAddress (as_backingStorage aset) (u64 (i + 1))) in
      let* rest := AddressSet_AllMembers_loop n aset (i + 1) in
      ret (a :: rest)
  end.

Definition AddressSet_AllMembers (aset : AddressSet) (maxNumToReturn : Z) : M (list Z) :=
  let* size := StorageBackedUint64_Get (as_size aset) in
  let size := if maxNumToReturn <? size then maxNumToReturn else size in
  AddressSet_AllMembers_loop (Z.to_nat size) aset 0.

Fixpoint AddressSet_ClearList_loop (n : nat) (aset : AddressSet) (i size : Z) : M unit :=
  match n with
  | O => ret tt
  | S n =>
      if i <=? size then
        Storage_ClearByUint64 (as_backingStorage aset) i ;;;
        AddressSet_ClearList_loop n aset (i +u64 1) size
      else ret tt
  end.

Definition AddressSet_ClearList (aset : AddressSet) : M unit :=
  let* size := StorageBackedUint64_Get (as_size aset) in
  if size =? 0 then ret tt
  else
    AddressSet_ClearList_loop (Z.to_nat size) aset 1 size ;;;
    StorageBackedUint64_Clear (as_size aset).

Definition AddressSet_Add (aset : AddressSet) (addr : Z) : M unit :=
  let* present := AddressSet_IsMember aset addr in
  if (present : bool) then ret tt
  else
    let* size := StorageBackedUint64_Get (as_size aset) in
    let slot := UintToHash (1 +u64 size) in
    let addrAsHash := BytesToHash (Address_Bytes addr) in
    Storage_Set (as_byAddress aset) addrAsHash slot ;;;
    StorageBackedAddress_Set (OpenStorageBackedAddress (as_backingStorage aset) (1 +u64 size)) addr ;;;
    (let* _ := StorageBackedUint64_Increment (as_size aset) in ret tt).

Definition AddressSet_RectifyMapping (aset : AddressSet) (addr : Z) : M unit :=
  let* isOwner := attempt (AddressSet_IsMember aset addr) in
  match isOwner with
  | Ok true =>
      let addrAsHash := BytesToHash (Address_Bytes addr) in
      let* slot := Storage_GetUint64 (as_byAddress aset) addrAsHash in
      let* atSlot := Storage_GetByUint64 (as_backingStorage aset) slot in
      let* size := StorageBackedUint64_Get (as_size aset) in
      if (atSlot =? addrAsHash) && (slot <=? size)
      then fail (ErrNew "RectifyMapping: Owner address is correctly mapped")
      else
        Storage_Clear (as_byAddress aset) addrAsHash ;;;
        AddressSet_Add aset addr
  | _ => fail (ErrNew "RectifyMapping: Address is not an owner")
  end.

Definition AddressSet_Remove (aset : AddressSet) (addr arbosVersion : Z) : M unit :=
  let addrAsHash := BytesToHash (Address_Bytes addr) in
  let* slot := Storage_GetUint64 (as_byAddress aset) addrAsHash in
  if slot =? 0 then ret tt
  else
    Storage_Clear (as_byAddress aset) addrAsHash ;;;
    let* size := StorageBackedUint64_Get (as_size aset) in
    (if slot <? size then
       let* atSize := Storage_GetByUint64 (as_backingStorage aset) size in
       Storage_SetByUint64 (as_backingStorage aset) slot atSize ;;;
       if 11 <=? arbosVersion
       then Storage_Set (as_byAddress aset) atSize (UintToHash slot)
       else ret tt
     else ret tt) ;;;
    Storage_ClearByUint64 (as_backingStorage aset) size ;;;
    (let* _ := StorageBackedUint64_Decrement (as_size aset) in ret tt).
End Operations.

(** The layout of the set: the sub-space of the mapping has the id [0]. *)
Notation aset_at s := (ix_at s [0]).
Notation aset_pos s := (ix_pos s [0]).
Notation aset_elem s := (ix_elem s).
Notation aset_space s := (ix_space s [0]).

Section Facts.
Context {E : Env} {EL : EnvLaws E} (s : Storage).
Hypothesis NC : aset_space s.

Notation by_ := (OpenSubStorage s [0]).
Notation aset := (OpenAddressSet s).

Lemma as_size_slot : as_size aset = skey s 0.
Proof. apply NewSlot_skey. uint. Qed.

Lemma AddressSet_Size_runs d l st : aset_at s d l st ->
  runs 800 (AddressSet_Size aset) d (Ok (Z.of_nat (length l))) d.
Proof.
  intros H. unfold AddressSet_Size. rewrite as_size_slot, <- (aa_size _ _ _ H).
  apply StorageBackedUint64_Get_runs. fold (aset_elem s d 0). rewrite (aa_size _ _ _ H).
  pose proof (aa_len _ _ _ H). uint.
Qed.

Lemma AddressSet_IsMember_runs d l st a : aset_at s d l st -> in_u 160 a ->
  runs 800 (AddressSet_IsMember aset a) d (Ok (bool_decide (a ∈ l \/ a ∈ st))) d.
Proof.
  intros H Ha. unfold AddressSet_IsMember. rewrite AddressToHash_id by auto.
  change 800 with (800 + 0). eapply runs_bind; [apply Storage_Get_runs|].
  change (slot_get d (skey (as_byAddress aset) a)) with (aset_pos s d a).
  destruct (ix_at_pos d l st a H Ha) as [_ Hiff].
  assert (negb (aset_pos s d a =? 0) = bool_decide (a ∈ l \/ a ∈ st)) as ->; [|apply runs_ret].
  destruct (Z.eqb_spec (aset_pos s d a) 0); cbn; symmetry;
    [apply bool_decide_eq_false|apply bool_decide_eq_true]; tauto.
Qed.


Lemma AddressSet_Add_runs d l st a :
  aset_at s d l st -> in_u 160 a -> Z.of_nat (length l) < 2 ^ 64 - 2 ->
  exists d', runs 62400 (AddressSet_Add aset a) d (Ok tt) d' /\ frame (ix_slots s [0]) d d' /\
    if decide (a ∈ l \/ a ∈ st) then d' = d else aset_at s d' (l ++ [a]) st.
Proof.
  intros H Ha Hlen. pose proof (aa_size _ _ _ H) as Hs. unfold AddressSet_Add.
  pose proof (AddressSet_IsMember_runs d l st a H Ha) as HM.
  pose proof (AddressSet_Size_runs d l st H) as HS. unfold AddressSet_Size in HS.
  destruct (decide (a ∈ l \/ a ∈ st)) as [Hin|Hin].
  - exists d. split; [|split; reflexivity]. rewrite bool_decide_eq_true_2 in HM by auto.
    change 62400 with (800 + 61600). eapply runs_bind; [exact HM|].
    eapply runs_le; [apply runs_ret|lia].
  - set (n := Z.of_nat (length l)) in *. eexists. split; [|split].
    3: { apply (ix_at_add NC d l st st a); auto. intros b. split; [|tauto]. intros Hb. split; [auto|]. intros ->. tauto. }
    2: { apply frame_set_trans; [left; exists 0; split; [uint|reflexivity]|].
         apply frame_set_trans; [left; exists (n + 1); split; [uint|reflexivity]|].
         apply frame_set. right. exists a. auto. }
    rewrite bool_decide_eq_false_2 in HM by auto.
    change 62400 with (800 + (800 + (20000 + (20000 + (20800 + 0))))).
    eapply runs_bind; [exact HM|]. eapply runs_bind; [exact HS|]. cbv zeta.
    rewrite (Z.add_comm 1 n), (uwrap_id 64 (n + 1)), UintToHash_id, AddressToHash_bytes by (auto || uint).
    eapply runs_bind; [apply Storage_Set_runs|].
    unfold OpenStorageBackedAddress. cbn [OpenAddressSet as_backingStorage as_byAddress].
    rewrite NewSlot_WithoutCache, NewSlot_skey by uint.
    eapply runs_bind; [apply StorageBackedAddress_Set_runs; auto|]. rewrite as_size_slot.
    set (d2 := slot_set _ (skey s (n + 1)) a).
    assert (slot_get d2 (skey s 0) = n) as Hd2.
    { change (aset_elem s d2 0 = n). subst d2. ix_reads NC. rewrite decide_False by lia. exact Hs. }
    eapply runs_bind; [apply StorageBackedUint64_Increment_runs; rewrite Hd2; lia|].
    rewrite Hd2. apply runs_ret.
Qed.

Lemma by_GetUint64_runs d l st a : aset_at s d l st -> in_u 160 a ->
  runs 800 (Storage_GetUint64 by_ (BytesToHash (Address_Bytes a))) d (Ok (aset_pos s d a)) d.
Proof.
  intros H Ha. rewrite AddressToHash_bytes by auto. apply Storage_GetUint64_runs.
  apply (proj1 (ix_at_pos d l st a H Ha)).
Qed.

Lemma AddressSet_Remove_absent d l st a v :
  aset_at s d l st -> in_u 160 a -> a ∉ l -> a ∉ st ->
  runs 800 (AddressSet_Remove aset a v) d (Ok tt) d.
Proof.
  intros H Ha Hl Hs. unfold AddressSet_Remove. change 800 with (800 + 0).
  eapply runs_bind; [apply (by_GetUint64_runs d l st a H Ha)|].
  rewrite (aa_out _ _ _ H a Ha Hl Hs). apply runs_ret.
Qed.

(** The database after the removal of [a] at position [k] of [n], [z] being
    the member at position [n]. *)
Definition removed_db (v : Z) (d : DB) (a z k n : Z) : DB :=
  let d1 := slot_set d (skey by_ a) 0 in
  let d2 := if k <? n then
      let d' := slot_set d1 (skey s k) z in
      if 11 <=? v then slot_set d' (skey by_ z) k else d'
    else d1 in
  slot_set (slot_set d2 (skey s n) 0) (skey s 0) (n - 1).

Lemma removed_db_at v d l st i a z :
  11 <= v -> aset_at s d l st -> l !! i = Some a -> last l = Some z ->
  aset_at s (removed_db v d a z (Z.of_nat i + 1) (Z.of_nat (length l))) (swap_remove i l) st.
Proof.
  intros Hv H Hi Hz. pose proof (lookup_lt_Some _ _ _ Hi) as Hlt. pose proof Hz as Hz'.
  rewrite last_lookup in Hz'. pose proof (aa_len _ _ _ H) as Hlen.
  assert (in_u 160 a /\ in_u 160 z) as [Ha Hzr]
    by (split; apply (aa_addr _ _ _ H); left; eapply list_elem_of_lookup_2; eassumption).
  set (n := Z.of_nat (length l)) in *. set (k := Z.of_nat i + 1).
  apply (ix_at_remove d _ l st i a z H Hi Hz); fold n k; unfold removed_db;
    rewrite (proj2 (Z.leb_le 11 v)) by exact Hv.
  - ix_reads NC. rewrite decide_True; auto.
  - intros j Hj. destruct (Z.ltb_spec k n); ix_reads NC; rewrite ?decide_False by lia; [|reflexivity].
    destruct (decide (k = j)); [rewrite decide_True; auto|rewrite decide_False; auto].
  - intros b Hb. destruct (Z.ltb_spec k n) as [Hkn|Hkn]; ix_reads NC.
    + destruct (decide (z = b)) as [->|]; destruct (decide (a = b)) as [->|];
        repeat case_decide; subst; try congruence.
      exfalso. pose proof (ix_at_inj _ _ _ _ _ _ H Hi Hz'). lia.
    + assert (i = pred (length l)) by lia. subst i. assert (a = z) by congruence. subst z.
      destruct (decide (a = b)) as [->|]; repeat case_decide; congruence.
Qed.

Lemma AddressSet_Remove_db d l st i a z v :
  aset_at s d l st -> l !! i = Some a -> last l = Some z ->
  runs 103200 (AddressSet_Remove aset a v) d (Ok tt)
    (removed_db v d a z (Z.of_nat i + 1) (Z.of_nat (length l))).
Proof.
  intros H Hi Hz. pose proof (lookup_lt_Some _ _ _ Hi) as Hlt. rewrite last_lookup in Hz.
  assert (in_u 160 a /\ in_u 160 z) as [Ha Hzr]
    by (split; apply (aa_addr _ _ _ H); left; eapply list_elem_of_lookup_2; eassumption).
  pose proof (aa_pos _ _ _ H _ _ Hi) as Hp. pose proof (aa_elem _ _ _ H _ _ Hz) as Hez.
  pose proof (aa_size _ _ _ H) as Hs. pose proof (aa_len _ _ _ H) as Hlen. unfold removed_db.
  set (n := Z.of_nat (length l)) in *. replace (Z.of_nat (pred (length l)) + 1) with n in Hez by lia.
  set (d1 := slot_set d (skey by_ a) 0). set (k := Z.of_nat i + 1) in *.
  set (d2 := if k <? n then _ else d1). set (d3 := slot_set d2 (skey s n) 0).
  assert (slot_get d1 (skey s 0) = n) as Hs1 by (change (aset_elem s d1 0 = n); subst d1; ix_reads NC; exact Hs).
  assert (slot_get d1 (skey s n) = z) as Hz1 by (change (aset_elem s d1 n = z); subst d1; ix_reads NC; auto).
  assert (slot_get d3 (skey s 0) = n) as Hs3.
  { change (aset_elem s d3 0 = n). subst d3 d2 d1.
    destruct (Z.ltb_spec k n), (11 <=? v); ix_reads NC; rewrite ?decide_False by lia; exact Hs. }
  unfold AddressSet_Remove. change 103200 with (800 + (20000 + (800 + (40800 + (20000 + (20800 + 0)))))).
  eapply runs_bind; [apply (by_GetUint64_runs d l st a H Ha)|]. rewrite Hp.
  destruct (Z.eqb_spec k 0); [lia|]. rewrite AddressToHash_bytes by auto.
  cbn [OpenAddressSet as_backingStorage as_byAddress]. rewrite as_size_slot.
  eapply runs_bind; [apply Storage_Clear_runs|]. fold d1.
  eapply runs_bind; [apply StorageBackedUint64_Get_runs; rewrite Hs1; uint|]. rewrite Hs1.
  eapply runs_bind with (d1 := d2).
  - subst d2. destruct (Z.ltb_spec k n); [|eapply runs_le; [apply runs_ret|lia]].
    rewrite Storage_GetByUint64_WithoutCache. change 40800 with (800 + (20000 + 20000)).
    eapply runs_bind; [apply Storage_GetByUint64_runs; uint|]. rewrite Hz1, Storage_SetByUint64_WithoutCache.
    eapply runs_bind; [apply Storage_SetByUint64_runs; uint|].
    destruct (11 <=? v); [|eapply runs_le; [apply runs_ret|lia]].
    rewrite UintToHash_id by uint. apply Storage_Set_runs.
  - rewrite Storage_ClearByUint64_WithoutCache.
    eapply runs_bind; [apply Storage_ClearByUint64_runs; uint|]. fold d3.
    eapply runs_bind; [apply StorageBackedUint64_Decrement_runs; rewrite Hs3; lia|].
    rewrite Hs3. apply runs_ret.
Qed.

Lemma AddressSet_Remove_runs d l st i a v :
  aset_at s d l st -> l !! i = Some a -> 11 <= v ->
  exists d', runs 103200 (AddressSet_Remove aset a v) d (Ok tt) d' /\ aset_at s d' (swap_remove i l) st.
Proof.
  intros H Hi Hv.
  destruct (last l) as [z|] eqn:Hz; [|apply last_None in Hz; subst l; discriminate].
  eexists. split; [apply (AddressSet_Remove_db d l st i a z v); auto|].
  apply removed_db_at; auto.
Qed.

Lemma removed_db_before_11 v d l i a z :
  v < 11 -> aset_at s d l [] -> l !! i = Some a -> last l = Some z ->
  Z.of_nat i + 1 < Z.of_nat (length l) ->
  let d' := removed_db v d a z (Z.of_nat i + 1) (Z.of_nat (length l)) in
  aset_elem s d' 0 = Z.of_nat (length l) - 1 /\ aset_elem s d' (Z.of_nat i + 1) = z /\
  aset_pos s d' z = Z.of_nat (length l).
Proof.
  intros Hv H Hi Hz Hin. pose proof (aa_len _ _ _ H) as Hlen. rewrite last_lookup in Hz.
  assert (in_u 160 a /\ in_u 160 z) as [Ha Hzr]
    by (split; apply (aa_addr _ _ _ H); left; eapply list_elem_of_lookup_2; eassumption).
  unfold removed_db. rewrite (proj2 (Z.ltb_lt _ _) Hin), (proj2 (Z.leb_gt 11 v)) by exact Hv. cbv zeta.
  set (n := Z.of_nat (length l)) in *. set (k := Z.of_nat i + 1) in *.
  repeat split; ix_reads NC.
  - rewrite decide_True; auto.
  - rewrite !decide_False, decide_True by lia. reflexivity.
  - rewrite decide_False; [rewrite (aa_pos _ _ _ H _ _ Hz); lia|].
    intros ->. pose proof (ix_at_inj _ _ _ _ _ _ H Hi Hz). lia.
Qed.

Lemma AddressSet_Clear_loop_runs l : forall d i,
  (forall j b, l !! j = Some b -> aset_elem s d (i + Z.of_nat j) = b /\ in_u 160 b) ->
  1 <= i -> i + Z.of_nat (length l) < 2 ^ 64 ->
  exists d', runs (40800 * Z.of_nat (length l))
      (AddressSet_Clear_loop (length l) aset i (i + Z.of_nat (length l) - 1)) d (Ok tt) d' /\
    aset_elem s d' 0 = aset_elem s d 0 /\
    (forall b, in_u 160 b -> aset_pos s d' b = if decide (b ∈ l) then 0 else aset_pos s d b).
Proof.
  induction l as [|a l IH]; intros d i He Hi Hmax; cbn [length] in *; cbn [AddressSet_Clear_loop].
  - exists d. split; [apply runs_ret|]. split; [reflexivity|]. intros. rewrite decide_False by (inversion 1). reflexivity.
  - destruct (He 0%nat a eq_refl) as [Hea Ha]. rewrite Z.add_0_r in Hea.
    set (d1 := slot_set (slot_set d (skey s i) 0) (skey by_ a) 0).
    destruct (IH d1 (i + 1)) as (d' & R & Q0 & Qp); [|lia|lia|].
    { intros j b Hj. destruct (He (S j) b Hj) as [Heb Hb]. pose proof (lookup_lt_Some _ _ _ Hj).
      split; [|exact Hb]. subst d1. ix_reads NC. rewrite decide_False by lia. rewrite <- Heb. f_equal. lia. }
    exists d'. split; [|split].
    + replace (40800 * Z.of_nat (S (length l))) with (800 + (20000 + (20000 + 40800 * Z.of_nat (length l)))) by lia.
      destruct (Z.leb_spec i (i + Z.of_nat (S (length l)) - 1)); [|lia].
      cbn [OpenAddressSet as_backingStorage as_byAddress]. autorewrite with storage.
      eapply runs_bind; [apply runs_value_or, Storage_GetByUint64_runs; uint|].
      change (slot_get d (skey s i)) with (aset_elem s d i). rewrite Hea.
      eapply runs_bind; [eapply runs_ignore;
        apply Storage_ClearByUint64_runs; uint|].
      eapply runs_bind; [apply Storage_Clear_runs|]. rewrite uwrap_id by uint.
      replace (i + Z.of_nat (S (length l)) - 1) with (i + 1 + Z.of_nat (length l) - 1) by lia. exact R.
    + rewrite Q0. subst d1. ix_reads NC. rewrite decide_False by lia. reflexivity.
    + intros b Hb. rewrite Qp by auto. subst d1. ix_reads NC.
      destruct (decide (a = b)) as [->|Hne]; [rewrite (decide_True (P := b ∈ b :: l)) by left; case_decide; reflexivity|].
      destruct (decide (b ∈ l)) as [Hin|Hin]; [rewrite decide_True by (right; auto)|
        rewrite decide_False by (intros [->|?]%elem_of_cons; auto)]; reflexivity.
Qed.

Lemma AddressSet_Clear_runs d l st : aset_at s d l st ->
  exists d', runs (20800 + 40800 * Z.of_nat (length l)) (AddressSet_Clear aset) d (Ok tt) d' /\
    aset_at s d' [] st.
Proof.
  intros H. pose proof (AddressSet_Size_runs d l st H) as HS. unfold AddressSet_Size in HS.
  pose proof (aa_len _ _ _ H) as Hlen. unfold AddressSet_Clear. destruct l as [|a l].
  { exists d. split; [|exact H]. cbn [length]. change (20800 + 40800 * Z.of_nat 0) with (800 + 20000).
    eapply runs_bind; [exact HS|]. eapply runs_le; [apply runs_ret|lia]. }
  set (l' := a :: l) in *.
  destruct (AddressSet_Clear_loop_runs l' d 1) as (d' & R & Q0 & Qp); [|lia|lia|].
  { intros j b Hj. split; [rewrite Z.add_comm; apply (aa_elem _ _ _ H _ _ Hj)|].
    apply (aa_addr _ _ _ H). left. eapply list_elem_of_lookup_2, Hj. }
  exists (slot_set d' (skey s 0) 0). split.
  - replace (20800 + 40800 * Z.of_nat (length l')) with (800 + (40800 * Z.of_nat (length l') + 20000)) by lia.
    eapply runs_bind; [exact HS|]. destruct (Z.eqb_spec (Z.of_nat (length l')) 0); [discriminate|].
    rewrite Nat2Z.id. replace (1 + Z.of_nat (length l') - 1) with (Z.of_nat (length l')) in R by lia.
    eapply runs_bind; [exact R|]. rewrite as_size_slot. apply StorageBackedUint64_Set_runs. uint.
  - apply ix_at_nil; [ix_reads NC; rewrite decide_True; auto|..].
    + intros b Hb. destruct (aa_stale _ _ _ H b Hb) as (Hbl & Hbp & Hbz).
      assert (in_u 160 b) by (apply (aa_addr _ _ _ H); auto). ix_reads NC.
      rewrite Qp, decide_False by auto. auto.
    + intros b Hb Hbs. ix_reads NC. rewrite Qp by auto. case_decide; [reflexivity|].
      apply (aa_out _ _ _ H); auto.
Qed.

Lemma AddressSet_ClearList_loop_runs n : forall d i,
  1 <= i -> i + Z.of_nat n < 2 ^ 64 ->
  exists d', runs (20000 * Z.of_nat n)
      (AddressSet_ClearList_loop n aset i (i + Z.of_nat n - 1)) d (Ok tt) d' /\
    (forall b, in_u 160 b -> aset_pos s d' b = aset_pos s d b).
Proof.
  induction n as [|n IH]; intros d i Hi Hmax; cbn [AddressSet_ClearList_loop].
  - exists d. split; [apply runs_ret|reflexivity].
  - destruct (IH (slot_set d (skey s i) 0) (i + 1)) as (d' & R & Qp); [lia..|].
    exists d'. split; [|intros b Hb; rewrite Qp by auto; ix_reads NC; reflexivity].
    replace (20000 * Z.of_nat (S n)) with (20000 + 20000 * Z.of_nat n) by lia.
    destruct (Z.leb_spec i (i + Z.of_nat (S n) - 1)); [|lia].
    cbn [OpenAddressSet as_backingStorage]. rewrite Storage_ClearByUint64_WithoutCache.
    eapply runs_bind; [apply Storage_ClearByUint64_runs; uint|]. rewrite uwrap_id by uint.
    replace (i + Z.of_nat (S n) - 1) with (i + 1 + Z.of_nat n - 1) by lia. exact R.
Qed.

Lemma AddressSet_ClearList_runs d l st : aset_at s d l st ->
  exists d', runs (20800 + 20000 * Z.of_nat (length l)) (AddressSet_ClearList aset) d (Ok tt) d' /\
    aset_at s d' [] (l ++ st).
Proof.
  intros H. pose proof (AddressSet_Size_runs d l st H) as HS. unfold AddressSet_Size in HS.
  pose proof (aa_len _ _ _ H) as Hlen. unfold AddressSet_ClearList. destruct l as [|a l].
  { exists d. split; [|exact H]. cbn [length]. change (20800 + 20000 * Z.of_nat 0) with (800 + 20000).
    eapply runs_bind; [exact HS|]. eapply runs_le; [apply runs_ret|lia]. }
  set (l' := a :: l) in *.
  destruct (AddressSet_ClearList_loop_runs (length l') d 1) as (d' & R & Qp); [lia..|].
  exists (slot_set d' (skey s 0) 0). split.
  - replace (20800 + 20000 * Z.of_nat (length l')) with (800 + (20000 * Z.of_nat (length l') + 20000)) by lia.
    eapply runs_bind; [exact HS|]. destruct (Z.eqb_spec (Z.of_nat (length l')) 0); [discriminate|].
    rewrite Nat2Z.id. replace (1 + Z.of_nat (length l') - 1) with (Z.of_nat (length l')) in R by lia.
    eapply runs_bind; [exact R|]. rewrite as_size_slot. apply StorageBackedUint64_Set_runs. uint.
  - apply ix_at_nil; [ix_reads NC; rewrite decide_True; auto|..].
    + intros b Hb. apply elem_of_app in Hb. assert (in_u 160 b) by (apply (aa_addr _ _ _ H), Hb).
      ix_reads NC. rewrite Qp by auto. split; [auto|].
      destruct (ix_at_pos d l' st b H ltac:(auto)) as [? Hiff]. tauto.
    + intros b Hb Hbs. rewrite elem_of_app in Hbs. ix_reads NC. rewrite Qp by auto.
      apply (aa_out _ _ _ H); tauto.
Qed.

Lemma AddressSet_AllMembers_loop_runs d l st n : forall i,
  aset_at s d l st -> (i + n <= length l)%nat ->
  runs (800 * Z.of_nat n) (AddressSet_AllMembers_loop n aset (Z.of_nat i)) d (Ok (take n (drop i l))) d.
Proof.
  induction n as [|n IH]; intros i H Hi; cbn [AddressSet_AllMembers_loop]; [apply runs_ret|].
  destruct (lookup_lt_is_Some_2 l i) as [a Ha]; [lia|].
  rewrite (drop_S _ _ _ Ha). cbn [take].
  replace (800 * Z.of_nat (S n)) with (800 + (800 * Z.of_nat n + 0)) by lia.
  pose proof (ix_lookup_u64 _ _ _ _ _ H Ha) as Hu. rewrite uwrap_id by exact Hu.
  unfold OpenStorageBackedAddress. cbn [OpenAddressSet as_backingStorage].
  rewrite NewSlot_WithoutCache, NewSlot_skey by exact Hu. pose proof (aa_elem _ _ _ H _ _ Ha) as He.
  eapply runs_bind; [apply StorageBackedAddress_Get_runs; fold (aset_elem s d (Z.of_nat i + 1)); rewrite He;
    apply (aa_addr _ _ _ H); left; eapply list_elem_of_lookup_2, Ha|].
  fold (aset_elem s d (Z.of_nat i + 1)). rewrite He. replace (Z.of_nat i + 1) with (Z.of_nat (S i)) by lia.
  eapply runs_bind; [apply IH; [exact H|lia]|]. apply runs_ret.
Qed.

Lemma AddressSet_AllMembers_runs d l st m : aset_at s d l st -> 0 <= m ->
  runs (800 + 800 * Z.min (Z.of_nat (length l)) m) (AddressSet_AllMembers aset m) d
    (Ok (take (Z.to_nat m) l)) d.
Proof.
  intros H Hm. pose proof (AddressSet_Size_runs d l st H) as HS. unfold AddressSet_AllMembers.
  eapply runs_bind; [exact HS|]. cbv zeta.
  pose proof (AddressSet_AllMembers_loop_runs d l st (Nat.min (length l) (Z.to_nat m)) 0 H ltac:(lia)) as R.
  replace (Z.to_nat _) with (Nat.min (length l) (Z.to_nat m)) by (zbool; lia).
  replace (800 * Z.min _ m) with (800 * Z.of_nat (Nat.min (length l) (Z.to_nat m))) by lia.
  rewrite drop_0 in R. replace (take (Z.to_nat m) l) with (take (Nat.min (length l) (Z.to_nat m)) l); [exact R|].
  destruct (Nat.min_spec (length l) (Z.to_nat m)) as [[? ->]|[? ->]]; [|reflexivity].
  rewrite !take_ge by lia. reflexivity.
Qed.

Lemma AddressSet_GetAnyMember_runs d l st : aset_at s d l st ->
  runs 1600 (AddressSet_GetAnyMember aset) d (Ok (head l)) d.
Proof.
  intros H. unfold AddressSet_GetAnyMember. change 1600 with (800 + 800).
  eapply runs_bind; [apply (AddressSet_Size_runs d l st H)|].
  destruct l as [|a l]; [eapply runs_le; [apply runs_ret|lia]|].
  destruct (Z.eqb_spec (Z.of_nat (length (a :: l))) 0); [discriminate|].
  unfold OpenStorageBackedAddressOrNil. cbn [OpenAddressSet as_backingStorage head].
  rewrite NewSlot_WithoutCache, NewSlot_skey by uint.
  apply StorageBackedAddressOrNil_Get_runs; [apply (aa_elem _ _ _ H 0%nat a eq_refl)|].
  intros b [= <-]. apply (aa_addr _ _ _ H). left. left.
Qed.

Lemma AddressSet_Initialize_runs d :
  (forall a, in_u 160 a -> aset_pos s d a = 0) ->
  exists d', runs 20000 (AddressSet_Initialize s) d (Ok tt) d' /\ frame (ix_slots s [0]) d d' /\ aset_at s d' [] [].
Proof.
  intros Hp. exists (slot_set d (skey s 0) 0). split; [apply Storage_SetUint64ByUint64_runs; uint|].
  split; [apply frame_set; left; exists 0; split; [uint|reflexivity]|].
  apply ix_at_nil.
  - ix_reads NC. rewrite decide_True; auto.
  - intros a Ha. inversion Ha.
  - intros a Ha _. ix_reads NC. auto.
Qed.

(** [RectifyMapping] of a stale address enters it anew; a member that is
    mapped correctly and an address that is not mapped are rejected. *)
Lemma AddressSet_RectifyMapping_runs d l st st' a :
  aset_at s d l st -> in_u 160 a -> a ∈ st -> Z.of_nat (length l) < 2 ^ 64 - 2 ->
  (forall b, b ∈ st' <-> b ∈ st /\ b <> a) ->
  exists d', runs 85600 (AddressSet_RectifyMapping aset a) d (Ok tt) d' /\ aset_at s d' (l ++ [a]) st'.
Proof.
  intros H Ha Hst Hlen Hst'. destruct (aa_stale _ _ _ H a Hst) as (Hl & Hp & Hz).
  pose proof (AddressSet_IsMember_runs d l st a H Ha) as HM. rewrite bool_decide_eq_true_2 in HM by auto.
  set (d1 := slot_set d (skey by_ a) 0).
  assert (aset_at s d1 l st') as H1.
  { destruct H as [? He ? ? Ho Hr ?]. split; subst d1; try (intros; ix_reads NC; auto; fail).
    - intros i b Hb. pose proof (lookup_lt_Some _ _ _ Hb). ix_reads NC. auto.
    - intros i b Hb. assert (in_u 160 b) by (apply Hr; left; eapply list_elem_of_lookup_2, Hb).
      ix_reads NC. rewrite decide_False by (intros ->; apply Hl; eapply list_elem_of_lookup_2, Hb). auto.
    - intros b [Hb Hne]%Hst'. assert (in_u 160 b) by auto. ix_reads NC. rewrite decide_False by auto. auto.
    - intros b Hb Hbl Hbs. ix_reads NC. destruct (decide (a = b)); [reflexivity|].
      apply Ho; auto. intros Hb'. apply Hbs, Hst'. auto.
    - intros b. rewrite Hst'. intros [Hb|[Hb _]]; auto. }
  destruct (AddressSet_Add_runs d1 l st' a H1 Ha Hlen) as (d' & R & _ & Q).
  rewrite decide_False in Q by (rewrite Hst'; tauto).
  exists d'. split; [|exact Q]. unfold AddressSet_RectifyMapping.
  change 85600 with (800 + (800 + (800 + (800 + (20000 + 62400))))).
  eapply runs_bind; [apply runs_attempt_ok, HM|]. cbv beta iota zeta.
  eapply runs_bind; [apply (by_GetUint64_runs d l st a H Ha)|].
  rewrite AddressToHash_bytes by auto. cbn [OpenAddressSet as_backingStorage as_byAddress].
  rewrite Storage_GetByUint64_WithoutCache.
  eapply runs_bind; [apply Storage_GetByUint64_runs, Hp|].
  eapply runs_bind; [apply (AddressSet_Size_runs d l st H)|].
  match goal with |- context [if ?c then _ else _] => assert (c = false) as -> end.
  { apply andb_false_iff. destruct (Z.leb_spec (aset_pos s d a) (Z.of_nat (length l))) as [Hle|]; [left|auto].
    apply Z.eqb_neq. fold (aset_elem s d (aset_pos s d a)). unfold in_u in Hp.
    destruct (lookup_lt_is_Some_2 l (Z.to_nat (aset_pos s d a - 1))) as [b Hb]; [lia|].
    pose proof (aa_elem _ _ _ H _ _ Hb) as He. rewrite Z2Nat.id in He by lia.
    replace (aset_pos s d a - 1 + 1) with (aset_pos s d a) in He by lia. rewrite He.
    intros ->. apply Hl. eapply list_elem_of_lookup_2, Hb. }
  eapply runs_bind; [apply Storage_Clear_runs|exact R].
Qed.

Lemma AddressSet_RectifyMapping_rejects d l st a :
  aset_at s d l st -> in_u 160 a -> a ∉ st ->
  exists msg, runs 3200 (AddressSet_RectifyMapping aset a) d (Err (ErrNew msg)) d.
Proof.
  intros H Ha Hs. pose proof (AddressSet_IsMember_runs d l st a H Ha) as HM.
  unfold AddressSet_RectifyMapping. change 3200 with (800 + (800 + (800 + (800 + 0)))).
  destruct (decide (a ∈ l)) as [Hl|Hl].
  - rewrite bool_decide_eq_true_2 in HM by auto. eexists.
    eapply runs_bind; [apply runs_attempt_ok, HM|]. cbv beta iota zeta.
    eapply runs_bind; [apply (by_GetUint64_runs d l st a H Ha)|].
    rewrite AddressToHash_bytes by auto. cbn [OpenAddressSet as_backingStorage as_byAddress].
    rewrite Storage_GetByUint64_WithoutCache. apply list_elem_of_lookup in Hl as [i Hi].
    rewrite (aa_pos _ _ _ H _ _ Hi). pose proof (lookup_lt_Some _ _ _ Hi). pose proof (aa_len _ _ _ H).
    eapply runs_bind; [apply Storage_GetByUint64_runs; uint|].
    eapply runs_bind; [apply (AddressSet_Size_runs d l st H)|].
    fold (aset_elem s d (Z.of_nat i + 1)). rewrite (aa_elem _ _ _ H _ _ Hi), Z.eqb_refl.
    destruct (Z.leb_spec (Z.of_nat i + 1) (Z.of_nat (length l))); [|lia]. apply runs_fail.
  - rewrite bool_decide_eq_false_2 in HM by tauto. eexists.
    eapply runs_bind; [apply runs_attempt_ok, HM|]. eapply runs_le; [apply runs_fail|lia].
Qed.
End Facts.

(** ** Refinement of a finite set *)

Inductive aset_op := AAdd (addr : Z) | ARemove (addr : Z) | AClear.

Definition aset_op_addr (op : aset_op) : Prop :=
  match op with AAdd a | ARemove a => in_u 160 a | AClear => True end.

Definition aset_step {E : Env} (v : Z) (aset : AddressSet) (op : aset_op) : M unit :=
  match op with
  | AAdd a => AddressSet_Add aset a
  | ARemove a => AddressSet_Remove aset a v
  | AClear => AddressSet_Clear aset
  end.

Fixpoint aset_steps {E : Env} (v : Z) (aset : AddressSet) (ops : list aset_op) : M unit :=
  match ops with
  | [] => ret tt
  | op :: ops => aset_step v aset op ;;; aset_steps v aset ops
  end.

Definition aset_spec (X : gset Z) (op : aset_op) : gset Z :=
  match op with
  | AAdd a => {[ a ]} ∪ X
  | ARemove a => X ∖ {[ a ]}
  | AClear => ∅
  end.

(** Rectify the mapping of every address of a list. *)
Fixpoint rectify_all {E : Env} (aset : AddressSet) (l : list Z) : M unit :=
  match l with
  | [] => ret tt
  | a :: l => AddressSet_RectifyMapping aset a ;;; rectify_all aset l
  end.

Section Refinement.
Context {E : Env} {EL : EnvLaws E} (s : Storage).
Hypothesis NC : aset_space s.
Notation aset := (OpenAddressSet s).

(** The members are those of the set [X], and no mapping is stale. *)
Definition aset_set (d : DB) (X : gset Z) (l : list Z) : Prop :=
  aset_at s d l [] /\ forall a, a ∈ l <-> a ∈ X.

Lemma aset_step_runs v op d X l :
  11 <= v -> aset_set d X l -> aset_op_addr op -> Z.of_nat (length l) < 2 ^ 64 - 2 ->
  exists G d' l', runs G (aset_step v aset op) d (Ok tt) d' /\ aset_set d' (aset_spec X op) l' /\
    (length l' <= S (length l))%nat.
Proof.
  intros Hv [H HX] Ha Hlen. destruct op as [a|a|]; cbn [aset_step aset_spec aset_op_addr] in *.
  - destruct (AddressSet_Add_runs s NC d l [] a H Ha Hlen) as (d' & R & _ & Q). do 2 eexists.
    case_decide as Hin.
    + subst d'. exists l. split; [exact R|]. split; [|lia]. split; [exact H|].
      intros b. rewrite HX. destruct Hin as [Hin|Hin]; [|inversion Hin]. apply HX in Hin. set_solver.
    + exists (l ++ [a]). split; [exact R|]. split; [|rewrite length_app; cbn; lia]. split; [exact Q|].
      intros b. rewrite elem_of_app, list_elem_of_singleton, HX. set_solver.
  - destruct (decide (a ∈ l)) as [Hin|Hin].
    + pose proof Hin as Hin'. apply list_elem_of_lookup in Hin' as [i Hi].
      destruct (AddressSet_Remove_runs s NC d l [] i a v H Hi Hv) as (d' & R & Q).
      exists 103200, d', (swap_remove i l). split; [exact R|].
      split; [|rewrite length_swap_remove by (eapply lookup_lt_Some, Hi); lia].
      split; [exact Q|]. intros b.
      rewrite (swap_remove_elem i l a b (ix_at_nodup _ _ _ H) Hi), HX. set_solver.
    + exists 800, d, l. split; [apply (AddressSet_Remove_absent s d l []); auto; set_solver|].
      split; [|lia]. split; [exact H|]. intros b. rewrite HX. rewrite HX in Hin. set_solver.
  - destruct (AddressSet_Clear_runs s NC d l [] H) as (d' & R & Q). do 2 eexists. exists [].
    split; [exact R|]. split; [split; [exact Q|set_solver]|cbn; lia].
Qed.

Lemma aset_steps_runs v ops : forall d X l,
  11 <= v -> aset_set d X l -> Forall aset_op_addr ops ->
  Z.of_nat (length l + length ops) < 2 ^ 64 - 1 ->
  exists G d' l', runs G (aset_steps v aset ops) d (Ok tt) d' /\ aset_set d' (fold_left aset_spec ops X) l'.
Proof.
  induction ops as [|op ops IH]; intros d X l Hv H Ha Hlen; cbn [aset_steps fold_left length] in *.
  - exists 0, d, l. split; [apply runs_ret|exact H].
  - apply Forall_cons in Ha as [Ha1 Ha2].
    destruct (aset_step_runs v op d X l Hv H Ha1 ltac:(lia)) as (G1 & d1 & l1 & R1 & H1 & L1).
    destruct (IH d1 _ l1 Hv H1 Ha2 ltac:(lia)) as (G2 & d2 & l2 & R2 & H2).
    exists (G1 + G2), d2, l2. split; [eapply runs_bind; eauto|exact H2].
Qed.

Lemma rectify_all_runs p : forall d l st,
  aset_at s d l st -> NoDup p -> (forall a, a ∈ p <-> a ∈ st) ->
  Z.of_nat (length l + length p) < 2 ^ 64 - 1 ->
  exists G d', runs G (rectify_all aset p) d (Ok tt) d' /\ aset_at s d' (l ++ p) [].
Proof.
  induction p as [|a p IH]; intros d l st H Hnd Hp Hlen; cbn [rectify_all length] in *.
  - exists 0, d. split; [apply runs_ret|]. rewrite app_nil_r.
    assert (st = []) as -> by (destruct st as [|b st]; auto; exfalso; apply (not_elem_of_nil b), Hp; left).
    exact H.
  - apply NoDup_cons in Hnd as [Hap Hnd]. assert (a ∈ st) as Hst by (apply Hp; left).
    assert (in_u 160 a) as Ha by (apply (aa_addr _ _ _ H); auto).
    destruct (AddressSet_RectifyMapping_runs s NC d l st p a H Ha Hst ltac:(lia)) as (d1 & R1 & H1).
    { intros b. rewrite <- Hp, elem_of_cons. split; [intros Hb; split; [auto|intros ->; auto]|tauto]. }
    destruct (IH d1 (l ++ [a]) p H1 Hnd ltac:(reflexivity)) as (G & d2 & R2 & H2).
    { rewrite length_app. cbn. lia. }
    rewrite <- app_assoc in H2. do 2 eexists. split; [eapply runs_bind; [exact R1|exact R2]|exact H2].
Qed.
End Refinement.

(** ** Properties *)

#[local] Existing Instance TestEnv.

(** C21: from ArbOS version 11 on, an initialized address set under any
    sequence of additions, removals and clears is the finite set these
    operations describe: membership, size and the list of all members (which
    has no duplicates) are those of the set. *)
Theorem AddressSet_refines_set {E : Env} {EL : EnvLaws E} (s : Storage) (d : DB) (v : Z)
  (ops : list aset_op) :
  aset_space s -> (forall a, in_u 160 a -> aset_pos s d a = 0) -> 11 <= v ->
  Forall aset_op_addr ops -> Z.of_nat (length ops) < 2 ^ 64 - 1 ->
  let aset := OpenAddressSet s in
  let X := fold_left aset_spec ops ∅ in
  exists G d' l,
    runs G (AddressSet_Initialize s ;;; aset_steps v aset ops) d (Ok tt) d' /\
    NoDup l /\ list_to_set l = X /\
    runs 800 (AddressSet_Size aset) d' (Ok (Z.of_nat (size X))) d' /\
    (forall a, in_u 160 a -> runs 800 (AddressSet_IsMember aset a) d' (Ok (bool_decide (a ∈ X))) d') /\
    runs 1600 (AddressSet_GetAnyMember aset) d' (Ok (head l)) d' /\
    runs (800 + 800 * Z.of_nat (length l)) (AddressSet_AllMembers aset (2 ^ 64 - 1)) d' (Ok l) d'.
Proof.
  intros NC Hd Hv Ha Hlen aset X. destruct (AddressSet_Initialize_runs s NC d Hd) as (d1 & R1 & _ & H1).
  destruct (aset_steps_runs s NC v ops d1 ∅ [] Hv) as (G & d2 & l & R2 & H2 & HX);
    [split; [exact H1|set_solver]|auto|cbn; lia|].
  fold X in HX. pose proof (ix_at_nodup _ _ _ H2) as Hnd. pose proof (aa_len _ _ _ H2) as Hl.
  assert (list_to_set l = X) as HlX by (apply set_eq; intros a; rewrite elem_of_list_to_set; apply HX).
  exists (20000 + G), d2, l. split; [eapply runs_bind; [exact R1|exact R2]|].
  split; [exact Hnd|]. split; [exact HlX|]. split; [|split; [|split]].
  - rewrite <- HlX, size_list_to_set by exact Hnd. apply (AddressSet_Size_runs s d2 l [] H2).
  - intros a Har. pose proof (AddressSet_IsMember_runs s d2 l [] a H2 Har) as R.
    rewrite (bool_decide_ext _ (a ∈ X)) in R; [exact R|]. rewrite <- HX. set_solver.
  - apply (AddressSet_GetAnyMember_runs s d2 l [] H2).
  - pose proof (AddressSet_AllMembers_runs s d2 l [] (2 ^ 64 - 1) H2 ltac:(lia)) as R.
    rewrite take_ge in R by lia. rewrite Z.min_l in R by lia. exact R.
Qed.

Lemma test_aset_space : aset_space (mkStorage 1 [7] false).
Proof. apply test_ix_space. auto. Qed.

Lemma AddressSet_refines_set_witness :
  let aset := OpenAddressSet (mkStorage 1 [7] false) in
  exists G d' l,
    runs G (AddressSet_Initialize (mkStorage 1 [7] false) ;;;
            aset_steps 11 aset [AAdd 5; AAdd 6; AAdd 8; ARemove 5]) test_db (Ok tt) d' /\
    list_to_set l = ({[6; 8]} : gset Z) /\
    runs (800 + 800 * Z.of_nat (length l)) (AddressSet_AllMembers aset (2 ^ 64 - 1)) d' (Ok l) d'.
Proof.
  destruct (AddressSet_refines_set (mkStorage 1 [7] false) test_db 11 [AAdd 5; AAdd 6; AAdd 8; ARemove 5])
    as (G & d' & l & R & _ & Hl & _ & _ & _ & HA).
  - apply test_aset_space.
  - intros a _. reflexivity.
  - lia.
  - repeat constructor; cbn; lia.
  - reflexivity.
  - exists G, d', l. split; [exact R|]. split; [|exact HA]. rewrite Hl. vm_compute. reflexivity.
Defined.

(** The repair of a mapping that older versions corrupted: [ClearList]
    followed by [RectifyMapping] of every mapped address, in any order, gives a
    consistent set of exactly these addresses, in that order. *)
Theorem AddressSet_rectify_restores {E : Env} {EL : EnvLaws E} (s : Storage) (d : DB)
  (l st p : list Z) :
  aset_space s -> aset_at s d l st -> NoDup p -> (forall a, a ∈ p <-> a ∈ l ++ st) ->
  Z.of_nat (length p) < 2 ^ 64 - 1 ->
  exists G d',
    runs G (AddressSet_ClearList (OpenAddressSet s) ;;; rectify_all (OpenAddressSet s) p) d (Ok tt) d' /\
    aset_at s d' p [].
Proof.
  intros NC H Hnd Hp Hlen. destruct (AddressSet_ClearList_runs s NC d l st H) as (d1 & R1 & H1).
  destruct (rectify_all_runs s NC p d1 [] (l ++ st) H1 Hnd Hp Hlen) as (G & d2 & R2 & H2).
  do 2 eexists. split; [eapply runs_bind; [exact R1|exact R2]|exact H2].
Qed.

Definition rectify_example : @DB TestEnv :=
  slot_set test_db (skey (OpenSubStorage (mkStorage 1 [7] false) [0]) 8) 3.

Lemma AddressSet_rectify_restores_witness :
  exists G d',
    runs G (AddressSet_ClearList (OpenAddressSet (mkStorage 1 [7] false)) ;;;
            rectify_all (OpenAddressSet (mkStorage 1 [7] false)) [8]) rectify_example (Ok tt) d' /\
    aset_at (mkStorage 1 [7] false) d' [8] [].
Proof.
  apply (AddressSet_rectify_restores (mkStorage 1 [7] false) rectify_example [] [8] [8]).
  - apply test_aset_space.
  - apply ix_at_nil.
    + vm_compute. reflexivity.
    + intros a ->%list_elem_of_singleton. vm_compute. repeat split; congruence.
    + intros a Ha Hne. rewrite list_elem_of_singleton in Hne. unfold rectify_example.
      rewrite (ix_pos_map test_aset_space) by (auto; split; reflexivity || lia).
      rewrite decide_False by auto. reflexivity.
  - apply NoDup_singleton.
  - intros a. reflexivity.
  - reflexivity.
Defined.

(** before version 11, [Remove] of a member that is not the last one moves
    the last member into its place but leaves that member's entry of the
    mapping at the old position, beyond the new size, so the space no longer
    represents any set without stale entries. *)
Theorem AddressSet_Remove_before_11_stale {E : Env} {EL : EnvLaws E} (s : Storage) (d : DB)
  (v : Z) (l : list Z) (i : nat) (a z : Z) :
  aset_space s -> v < 11 -> aset_at s d l [] -> l !! i = Some a -> last l = Some z ->
  Z.of_nat i + 1 < Z.of_nat (length l) ->
  exists d', runs 103200 (AddressSet_Remove (OpenAddressSet s) a v) d (Ok tt) d' /\
    aset_elem s d' 0 = Z.of_nat (length l) - 1 /\ aset_elem s d' (Z.of_nat i + 1) = z /\
    aset_pos s d' z = Z.of_nat (length l) /\ (forall l', ~ aset_at s d' l' []).
Proof.
  intros NC Hv H Hi Hz Hin. eexists. split; [apply (AddressSet_Remove_db s NC d l []); eauto|].
  destruct (removed_db_before_11 s NC v d l i a z Hv H Hi Hz Hin) as (Q0 & Qe & Qp).
  split; [exact Q0|]. split; [exact Qe|]. split; [exact Qp|].
  intros l' H'. pose proof (aa_size _ _ _ H') as Hs'. rewrite Q0 in Hs'.
  assert (in_u 160 z) as Hzr.
  { rewrite last_lookup in Hz. apply (aa_addr _ _ _ H). left. eapply list_elem_of_lookup_2, Hz. }
  destruct (ix_at_pos _ l' [] z H' Hzr) as [_ Hiff]. rewrite Qp in Hiff.
  destruct (proj1 Hiff ltac:(lia)) as [Hl|Hl]; [|inversion Hl].
  apply list_elem_of_lookup in Hl as [j Hj]. pose proof (aa_pos _ _ _ H' _ _ Hj) as Hp'.
  rewrite Qp in Hp'. apply lookup_lt_Some in Hj. lia.
Qed.

Definition aset_example : @DB TestEnv :=
  let s := mkStorage 1 [7] false in
  let add d a n := slot_set (slot_set (slot_set d (skey (OpenSubStorage s [0]) a) (n + 1)) (skey s (n + 1)) a)
    (skey s 0) (n + 1) in
  add (add test_db 5 0) 6 1.

Lemma aset_example_at : aset_at (mkStorage 1 [7] false) aset_example [5; 6] [].
Proof.
  apply (ix_at_add test_aset_space _ [5] [] [] 6); [|split; lia|set_solver|reflexivity|set_solver].
  apply (ix_at_add test_aset_space _ [] [] [] 5); [|split; lia|set_solver|reflexivity|set_solver].
  apply ix_at_nil; [reflexivity|intros a Ha; inversion Ha|reflexivity].
Qed.

Lemma AddressSet_Remove_before_11_stale_witness :
  exists d', runs 103200 (AddressSet_Remove (OpenAddressSet (mkStorage 1 [7] false)) 5 10) aset_example (Ok tt) d' /\
    aset_elem (mkStorage 1 [7] false) d' 0 = 1 /\ aset_elem (mkStorage 1 [7] false) d' 1 = 6 /\
    aset_pos (mkStorage 1 [7] false) d' 6 = 2 /\ (forall l', ~ aset_at (mkStorage 1 [7] false) d' l' []).
Proof.
  apply (AddressSet_Remove_before_11_stale (mkStorage 1 [7] false) aset_example 10 [5; 6] 0 5 6).
  - apply test_aset_space.
  - lia.
  - apply aset_example_at.
  - reflexivity.
  - reflexivity.
  - reflexivity.
Defined.
