(* ===== verification/AddressTable.v ===== *)
(** * arbos/addressTable/addressTable.go: the address registry

    A table of addresses in the order of their registration, with the reverse
    mapping in a sub-space (the layout of IndexedSet.v), and the compression of
    an address to its RLP-encoded index. The RLP codec of go-ethereum is the
    class [RLP]. *)
From Stdlib Require Import ZArith Lia String List.
From stdpp Require Import base list numbers gmap.
From S2P Require Import Prelude Arbmath Host Storage StorageFacts IndexedSet MemEnv.
Open Scope Z_scope.

(** The functions of the package rlp that are called. A stream decoder takes
    the input limit and the buffer, and returns the value and the number of
    bytes it read. *)
Class RLP := {
  rlp_AppendUint64 : Z -> list Z;
  rlp_EncodeToBytes : list Z -> outcome (list Z);
  rlp_Stream_Bytes : Z -> list Z -> outcome (list Z * Z);
  rlp_Stream_Uint64 : Z -> list Z -> outcome (Z * Z)
}.

(** RLP: what was encoded is decoded from the front of a stream; an integer
    below [2 ^ 64] is encoded as the string of its at most 8 bytes. *)
Class RLPLaws (R : RLP) := {
  rlp_bytes_roundtrip b rest :
    length b = 20%nat -> Forall is_byte b ->
    exists e, rlp_EncodeToBytes b = Ok e /\
      rlp_Stream_Bytes 21 (e ++ rest) = Ok (b, Z.of_nat (length e));
  rlp_uint_roundtrip n rest :
    in_u 64 n ->
    rlp_Stream_Uint64 9 (rlp_AppendUint64 n ++ rest) = Ok (n, Z.of_nat (length (rlp_AppendUint64 n)));
  rlp_uint_string n rest :
    in_u 64 n ->
    exists c k, rlp_Stream_Bytes 21 (rlp_AppendUint64 n ++ rest) = Ok (c, k) /\ (length c <= 8)%nat
}.

Record AddressTable := mkAddressTable {
  at_backingStorage : Storage;
  at_byAddress : Storage;
  at_numItems : StorageSlot
}.

Section Operations.
Context {E : Env} {R : RLP}.

Definition AddressTable_Initialize (sto : Storage) : M unit := ret tt.

Definition AddressTable_Open (sto : Storage) : AddressTable :=
  mkAddressTable (WithoutCache sto) (OpenSubStorage sto []) (OpenStorageBackedUint64 sto 0).

Definition AddressTable_Register (atab : AddressTable) (addr : Z) : M Z :=
  let addrAsHash := BytesToHash (Address_Bytes addr) in
  let* rev := Storage_Get (at_byAddress atab) addrAsHash in
  if negb (rev =? 0) then ret (u64 rev -u64 1)
  else
    let* newNumItems := StorageBackedUint64_Increment (at_numItems atab) in
    Storage_SetByUint64 (at_backingStorage atab) newNumItems addrAsHash ;;;
    Storage_Set (at_byAddress atab) addrAsHash (UintToHash newNumItems) ;;;
    ret (newNumItems -u64 1).

Definition AddressTable_Lookup (atab : AddressTable) (addr : Z) : M (Z * bool) :=
  let addrAsHash := BytesToHash (Address_Bytes addr) in
  let* res := Storage_GetUint64 (at_byAddress atab) addrAsHash in
  if res =? 0 then ret (0, false) else ret (res -u64 1, true).

Definition AddressTable_Size (atab : AddressTable) : M Z :=
  StorageBackedUint64_Get (at_numItems atab).

Definition AddressTable_LookupIndex (atab : AddressTable) (index : Z) : M (Z * bool) :=
  let* items := StorageBackedUint64_Get (at_numItems atab) in
  if items <=? index then ret (0, false)
  else
    let* value := Storage_GetByUint64 (at_backingStorage atab) (index +u64 1) in
    ret (BytesToAddress (Hash_Bytes value), true).

Definition AddressTable_Compress (atab : AddressTable) (addr : Z) : M (list Z) :=
  let* (index, exists_) := AddressTable_Lookup atab addr in
  if (exists_ : bool) then ret (rlp_AppendUint64 index)
  else
    match rlp_EncodeToBytes (Address_Bytes addr) with
    | Ok buf => ret buf
    | Err _ | Panic _ => panic "rlp encoding error"
    end.

Definition AddressTable_Decompress (atab : AddressTable) (buf : list Z) : M (Z * Z) :=
  let* (input, numBytesRead) := lift (rlp_Stream_Bytes 21 buf) in
  if Z.of_nat (length input) =? 20 then ret (BytesToAddress input, numBytesRead)
  else
    let* (index, numBytesRead) := lift (rlp_Stream_Uint64 9 buf) in
    let* (addr, exists_) := AddressTable_LookupIndex atab index in
    if negb exists_ then fail (ErrNew "invalid index in compressed address")
    else ret (addr, numBytesRead).
End Operations.

(** ** The table as a list without duplicates *)

(** The index of an address. *)
Fixpoint index_of (a : Z) (l : list Z) : option nat :=
  match l with
  | [] => None
  | b :: l => if decide (a = b) then Some 0%nat else S <$> index_of a l
  end.

Definition register_spec (a : Z) (l : list Z) : Z * list Z :=
  match index_of a l with
  | Some i => (Z.of_nat i, l)
  | None => (Z.of_nat (length l), l ++ [a])
  end.

Lemma index_of_Some a l i : index_of a l = Some i -> l !! i = Some a.
Proof.
  revert i. induction l as [|b l IH]; intros i H; cbn in H; [discriminate|].
  case_decide as Hab; [injection H as <-; subst; reflexivity|].
  destruct (index_of a l) as [j|]; [|discriminate]. injection H as <-. cbn. auto.
Qed.

Lemma index_of_None a l : index_of a l = None -> a ∉ l.
Proof.
  induction l as [|b l IH]; cbn; intros H; [apply not_elem_of_nil|].
  case_decide as Hab; [discriminate|]. destruct (index_of a l); [discriminate|].
  rewrite elem_of_cons. intros [?|?]; [auto|]. apply IH; auto.
Qed.

Section Facts.
Context {E : Env} {EL : EnvLaws E} {R : RLP} (s : Storage).
Hypothesis NC : ix_space s [].

Notation by_ := (OpenSubStorage s []).
Notation atab := (AddressTable_Open s).

(** The table holds [l], in the order of the indices. *)
Definition table_at (d : DB) (l : list Z) : Prop := ix_at s [] d l [].

Lemma at_numItems_slot : at_numItems atab = skey s 0.
Proof. apply NewSlot_skey. uint. Qed.

Lemma AddressTable_Size_runs d l : table_at d l ->
  runs 800 (AddressTable_Size atab) d (Ok (Z.of_nat (length l))) d.
Proof.
  intros H. unfold AddressTable_Size. rewrite at_numItems_slot, <- (aa_size _ _ _ H).
  apply StorageBackedUint64_Get_runs. change (in_u 64 (ix_elem s d 0)). rewrite (aa_size _ _ _ H).
  pose proof (aa_len _ _ _ H). uint.
Qed.

Lemma table_pos d l a : table_at d l -> in_u 160 a ->
  ix_pos s [] d a = match index_of a l with Some i => Z.of_nat i + 1 | None => 0 end.
Proof.
  intros H Ha. destruct (index_of a l) as [i|] eqn:Hi.
  - apply (aa_pos _ _ _ H), index_of_Some, Hi.
  - apply (aa_out _ _ _ H); [exact Ha|apply index_of_None, Hi|apply not_elem_of_nil].
Qed.

Lemma AddressTable_Lookup_runs d l a : table_at d l -> in_u 160 a ->
  runs 800 (AddressTable_Lookup atab a) d
    (Ok (match index_of a l with Some i => (Z.of_nat i, true) | None => (0, false) end)) d.
Proof.
  intros H Ha. unfold AddressTable_Lookup. rewrite AddressToHash_bytes by auto.
  change 800 with (800 + 0). eapply runs_bind; [apply Storage_GetUint64_runs; apply (ix_at_pos d l [] a H Ha)|].
  change (slot_get d (skey (at_byAddress atab) a)) with (ix_pos s [] d a).
  rewrite (table_pos d l a H Ha). destruct (index_of a l) as [i|] eqn:Hi; [|apply runs_ret].
  destruct (Z.eqb_spec (Z.of_nat i + 1) 0); [lia|]. apply index_of_Some, lookup_lt_Some in Hi.
  pose proof (aa_len _ _ _ H). replace (Z.of_nat i + 1 - 1) with (Z.of_nat i) by lia.
  rewrite uwrap_id by uint. apply runs_ret.
Qed.

Lemma AddressTable_LookupIndex_runs d l k : table_at d l -> in_u 64 k ->
  runs 1600 (AddressTable_LookupIndex atab k) d
    (Ok (match l !! Z.to_nat k with Some a => (a, true) | None => (0, false) end)) d.
Proof.
  intros H Hk. unfold AddressTable_LookupIndex. change 1600 with (800 + 800).
  eapply runs_bind; [apply (AddressTable_Size_runs d l H)|]. unfold in_u in Hk.
  destruct (Z.leb_spec (Z.of_nat (length l)) k).
  - rewrite lookup_ge_None_2 by lia. eapply runs_le; [apply runs_ret|lia].
  - destruct (lookup_lt_is_Some_2 l (Z.to_nat k)) as [a Ha]; [lia|]. rewrite Ha.
    pose proof (aa_elem _ _ _ H _ _ Ha) as He. rewrite Z2Nat.id in He by lia.
    pose proof (aa_len _ _ _ H). rewrite uwrap_id by uint. cbn [AddressTable_Open at_backingStorage].
    rewrite Storage_GetByUint64_WithoutCache. change 800 with (800 + 0).
    eapply runs_bind; [apply Storage_GetByUint64_runs; uint|].
    change (slot_get d (skey s (k + 1))) with (ix_elem s d (k + 1)). rewrite He.
    rewrite BytesToAddress_bytes; [apply runs_ret|].
    apply (aa_addr _ _ _ H). left. eapply list_elem_of_lookup_2, Ha.
Qed.

Lemma table_add_comm d a n : in_u 160 a -> 0 <= n < 2 ^ 64 - 1 ->
  forall x, slot_get (slot_set (slot_set (slot_set d (skey s 0) (n + 1)) (skey s (n + 1)) a) (skey by_ a) (n + 1)) x =
  slot_get (slot_set (slot_set (slot_set d (skey by_ a) (n + 1)) (skey s (n + 1)) a) (skey s 0) (n + 1)) x.
Proof.
  intros Ha Hn x. assert (skey s 0 <> skey by_ a) by (apply list_map_ne; auto; uint).
  assert (skey s (n + 1) <> skey by_ a) by (apply list_map_ne; auto; uint).
  assert (skey s 0 <> skey s (n + 1)) by (apply (list_ne (id := [])); auto; uint).
  rewrite !slot_get_set. repeat case_decide; subst; try congruence.
Qed.

Lemma AddressTable_Register_runs d l a : table_at d l -> in_u 160 a -> Z.of_nat (length l) < 2 ^ 64 - 2 ->
  exists d', runs 61600 (AddressTable_Register atab a) d (Ok (fst (register_spec a l))) d' /\
    table_at d' (snd (register_spec a l)).
Proof.
  intros H Ha Hlen. unfold AddressTable_Register, register_spec. rewrite AddressToHash_bytes by auto.
  pose proof (table_pos d l a H Ha) as Hp. pose proof (ix_at_pos d l [] a H Ha) as [Hpr _].
  change 61600 with (800 + (20800 + (20000 + (20000 + 0)))).
  destruct (index_of a l) as [i|] eqn:Hi; cbn [fst snd].
  - exists d. split; [|exact H]. eapply runs_bind; [apply Storage_Get_runs|].
    change (slot_get d (skey (at_byAddress atab) a)) with (ix_pos s [] d a). rewrite Hp in *.
    destruct (Z.eqb_spec (Z.of_nat i + 1) 0); [lia|]. cbn [negb]. rewrite (uwrap_id 64 (_ + 1)) by exact Hpr.
    replace (Z.of_nat i + 1 - 1) with (Z.of_nat i) by lia. rewrite uwrap_id by uint.
    eapply runs_le; [apply runs_ret|lia].
  - set (n := Z.of_nat (length l)) in *. pose proof (aa_size _ _ _ H) as Hs. fold n in Hs. eexists. split.
    + eapply runs_bind; [apply Storage_Get_runs|].
      change (slot_get d (skey (at_byAddress atab) a)) with (ix_pos s [] d a). rewrite Hp.
      cbn [Z.eqb negb]. rewrite at_numItems_slot. change (slot_get d (skey s 0) = n) in Hs.
      eapply runs_bind; [apply StorageBackedUint64_Increment_runs; rewrite Hs; lia|]. rewrite Hs.
      cbn [AddressTable_Open at_backingStorage at_byAddress]. rewrite Storage_SetByUint64_WithoutCache.
      eapply runs_bind; [apply Storage_SetByUint64_runs; uint|]. rewrite UintToHash_id by uint.
      eapply runs_bind; [apply Storage_Set_runs|]. replace (n + 1 - 1) with n by lia.
      rewrite uwrap_id by uint. apply runs_ret.
    + eapply ix_at_ext; [|apply (ix_at_add NC d l [] [] a); auto; [apply index_of_None, Hi|set_solver]].
      intros x. apply (table_add_comm d a n); [exact Ha|lia].
Qed.

Context {RL : RLPLaws R}.

(** The bytes of a compressed address. *)
Definition compressed (a : Z) (l : list Z) (buf : list Z) : Prop :=
  match index_of a l with
  | Some i => buf = rlp_AppendUint64 (Z.of_nat i)
  | None => rlp_EncodeToBytes (Address_Bytes a) = Ok buf
  end.

Lemma AddressTable_Compress_runs d l a : table_at d l -> in_u 160 a ->
  exists buf, runs 800 (AddressTable_Compress atab a) d (Ok buf) d /\ compressed a l buf.
Proof.
  intros H Ha. unfold AddressTable_Compress, compressed.
  pose proof (AddressTable_Lookup_runs d l a H Ha) as RL'.
  destruct (rlp_bytes_roundtrip (Address_Bytes a) []) as (e & He & _);
    [apply length_be_bytes|apply be_bytes_is_byte|].
  destruct (index_of a l) as [i|].
  - eexists. split; [|reflexivity]. change 800 with (800 + 0).
    eapply runs_bind; [exact RL'|apply runs_ret].
  - exists e. split; [|exact He]. change 800 with (800 + 0).
    eapply runs_bind; [exact RL'|]. rewrite He. apply runs_ret.
Qed.

Lemma AddressTable_Decompress_runs d l a buf rest : table_at d l -> in_u 160 a -> compressed a l buf ->
  runs 1600 (AddressTable_Decompress atab (buf ++ rest)) d (Ok (a, Z.of_nat (length buf))) d.
Proof.
  intros H Ha Hc. unfold AddressTable_Decompress, compressed in *.
  destruct (index_of a l) as [i|] eqn:Hi.
  - subst buf. pose proof (index_of_Some _ _ _ Hi) as Hl. pose proof (lookup_lt_Some _ _ _ Hl).
    pose proof (aa_len _ _ _ H). assert (in_u 64 (Z.of_nat i)) as Hu by uint.
    destruct (rlp_uint_string (Z.of_nat i) rest Hu) as (c & k & -> & Hlen).
    change 1600 with (0 + (0 + (1600 + 0))). eapply runs_bind; [apply runs_lift|].
    cbv beta iota. destruct (Z.eqb_spec (Z.of_nat (length c)) 20); [lia|]. cbv beta iota.
    rewrite (rlp_uint_roundtrip (Z.of_nat i) rest Hu). eapply runs_bind; [apply runs_lift|]. cbv beta iota.
    eapply runs_bind; [apply (AddressTable_LookupIndex_runs d l); auto|].
    cbv beta iota. rewrite Nat2Z.id, Hl. apply runs_ret.
  - destruct (rlp_bytes_roundtrip (Address_Bytes a) rest) as (e & He & Hd);
      [apply length_be_bytes|apply be_bytes_is_byte|].
    rewrite He in Hc. injection Hc as ->. rewrite Hd.
    change 1600 with (0 + 1600). eapply runs_bind; [apply runs_lift|]. cbv beta iota.
    unfold Address_Bytes at 1. rewrite length_be_bytes. cbn [Z.of_nat Z.eqb Pos.of_succ_nat Pos.succ Pos.eqb].
    unfold BytesToAddress, Address_Bytes. rewrite be_be_bytes. change (256 ^ Z.of_nat 20) with (2 ^ 160).
    unfold in_u in Ha. rewrite Z.mod_mod, Z.mod_small by lia. eapply runs_le; [apply runs_ret|lia].
Qed.
End Facts.

(** ** RLP for strings of less than 56 bytes, an instance of [RLP] *)

Definition short_encode (b : list Z) : list Z :=
  match b with
  | [x] => if x <? 128 then [x] else [129; x]
  | _ => (128 + Z.of_nat (length b)) :: b
  end.

Definition short_decode (buf : list Z) : outcome (list Z * Z) :=
  match buf with
  | [] => Err (ErrNew "EOF")
  | x :: r =>
      if x <? 128 then Ok ([x], 1)
      else
        let n := x - 128 in
        if (55 <? n) || (Z.of_nat (length r) <? n) then Err (ErrNew "unexpected EOF")
        else Ok (take (Z.to_nat n) r, 1 + n)
  end.

Lemma short_roundtrip b rest : (length b <= 55)%nat -> Forall is_byte b ->
  short_decode (short_encode b ++ rest) = Ok (b, Z.of_nat (length (short_encode b))).
Proof.
  intros Hl Hb. assert (forall b, (length b <= 55)%nat ->
    short_decode (((128 + Z.of_nat (length b)) :: b) ++ rest) = Ok (b, Z.of_nat (S (length b)))) as Hs.
  { intros c Hc. cbn [short_decode app]. rewrite length_app. zbool; cbn [orb]; try lia.
    replace (128 + Z.of_nat (length c) - 128) with (Z.of_nat (length c)) by lia.
    rewrite Nat2Z.id, take_app_length. f_equal. f_equal. lia. }
  destruct b as [|x [|y b]]; [apply (Hs [])|..|apply (Hs (x :: y :: b)), Hl]; [cbn; lia|].
  apply Forall_inv in Hb. unfold is_byte in Hb. cbn [short_encode].
  destruct (Z.ltb_spec x 128); [|apply (Hs [x]); cbn; lia].
  cbn [app short_decode length]. destruct (Z.ltb_spec x 128); [reflexivity|lia].
Qed.

(** The bytes of an integer without leading zeroes. *)
Fixpoint strip0 (l : list Z) : list Z :=
  match l with
  | x :: l' => if x =? 0 then strip0 l' else l
  | [] => []
  end.

Lemma strip0_spec l : Forall is_byte l ->
  be (strip0 l) = be l /\ Forall is_byte (strip0 l) /\ (length (strip0 l) <= length l)%nat.
Proof.
  induction l as [|x l IH]; intros H; cbn [strip0]; [auto|].
  destruct (Z.eqb_spec x 0) as [->|]; [|auto]. apply Forall_inv_tail in H.
  destruct (IH H) as (H1 & H2 & H3). split; [exact H1|]. split; [exact H2|]. cbn [length]. lia.
Qed.

#[local] Instance ShortRLP : RLP := {|
  rlp_AppendUint64 := fun n => short_encode (strip0 (be_bytes 8 n));
  rlp_EncodeToBytes := fun b => Ok (short_encode b);
  rlp_Stream_Bytes := fun _ => short_decode;
  rlp_Stream_Uint64 := fun _ buf =>
    let? (c, k) := short_decode buf in
    if 8 <? Z.of_nat (length c) then Err (ErrNew "rlp: input string too long for uint64") else Ok (be c, k)
|}.

#[local] Instance ShortRLPLaws : RLPLaws ShortRLP.
Proof.
  assert (forall n, be (strip0 (be_bytes 8 n)) = n mod 2 ^ 64 /\ Forall is_byte (strip0 (be_bytes 8 n)) /\
    (length (strip0 (be_bytes 8 n)) <= 8)%nat) as Hn.
  { intros n. destruct (strip0_spec (be_bytes 8 n) (be_bytes_is_byte 8 n)) as (H1 & H2 & H3).
    rewrite be_be_bytes in H1. rewrite length_be_bytes in H3. auto. }
  split; cbn [rlp_AppendUint64 rlp_EncodeToBytes rlp_Stream_Bytes rlp_Stream_Uint64 ShortRLP].
  - intros b rest Hl Hb. eexists. split; [reflexivity|]. apply short_roundtrip; [lia|exact Hb].
  - intros n rest Hr. destruct (Hn n) as (H1 & H2 & H3).
    rewrite short_roundtrip by (lia || auto). cbn [obind].
    destruct (Z.ltb_spec 8 (Z.of_nat (length (strip0 (be_bytes 8 n))))); [lia|].
    rewrite H1, Z.mod_small by exact Hr. reflexivity.
  - intros n rest Hr. destruct (Hn n) as (H1 & H2 & H3). do 2 eexists.
    rewrite short_roundtrip by (lia || auto). split; [reflexivity|exact H3].
Qed.

(** ** Properties *)

#[local] Existing Instance TestEnv.

Lemma index_of_app a l l' i : index_of a l = Some i -> index_of a (l ++ l') = Some i.
Proof.
  revert i. induction l as [|b l IH]; intros i H; cbn in *; [discriminate|].
  case_decide; [exact H|]. destruct (index_of a l) as [j|]; [|discriminate].
  rewrite (IH j eq_refl). exact H.
Qed.

Lemma index_of_snoc a l : index_of a l = None -> index_of a (l ++ [a]) = Some (length l).
Proof.
  induction l as [|b l IH]; cbn; intros H; [rewrite decide_True; auto|].
  case_decide; [discriminate|]. destruct (index_of a l); [discriminate|]. rewrite IH by auto. reflexivity.
Qed.

Lemma register_spec_index a l :
  exists i, fst (register_spec a l) = Z.of_nat i /\ index_of a (snd (register_spec a l)) = Some i /\
    forall b j, index_of b l = Some j -> index_of b (snd (register_spec a l)) = Some j.
Proof.
  unfold register_spec. destruct (index_of a l) as [i|] eqn:Hi; cbn [fst snd]; eexists.
  - split; [reflexivity|]. auto.
  - split; [reflexivity|]. split; [apply index_of_snoc, Hi|]. intros. apply index_of_app. auto.
Qed.

(** [Register] gives an address its index (a fresh one, the old size, when
    the address is new), after which [Lookup] of the address and [LookupIndex]
    of the index agree, [Size] is the number of addresses and every address
    registered before keeps its index. *)
Theorem AddressTable_Register_Lookup {E : Env} {EL : EnvLaws E} (s : Storage) (d : DB)
  (l : list Z) (a : Z) :
  ix_space s [] -> table_at s d l -> in_u 160 a -> Z.of_nat (length l) < 2 ^ 64 - 2 ->
  let atab := AddressTable_Open s in
  exists d' i l',
    runs 61600 (AddressTable_Register atab a) d (Ok (Z.of_nat i)) d' /\ table_at s d' l' /\
    runs 800 (AddressTable_Lookup atab a) d' (Ok (Z.of_nat i, true)) d' /\
    runs 1600 (AddressTable_LookupIndex atab (Z.of_nat i)) d' (Ok (a, true)) d' /\
    runs 800 (AddressTable_Size atab) d' (Ok (Z.of_nat (length l'))) d' /\
    (if decide (a ∈ l) then l' = l else i = length l /\ l' = l ++ [a]) /\
    (forall b j, in_u 160 b -> index_of b l = Some j ->
      runs 800 (AddressTable_Lookup atab b) d' (Ok (Z.of_nat j, true)) d').
Proof.
  intros NC H Ha Hlen atab. destruct (AddressTable_Register_runs s NC d l a H Ha Hlen) as (d' & Rr & H').
  destruct (register_spec_index a l) as (i & Hf & Hi & Hk). rewrite Hf in Rr.
  exists d', i, (snd (register_spec a l)). split; [exact Rr|]. split; [exact H'|]. split.
  { pose proof (AddressTable_Lookup_runs s d' _ a H' Ha) as RL. rewrite Hi in RL. exact RL. }
  pose proof (index_of_Some _ _ _ Hi) as Hl. pose proof (lookup_lt_Some _ _ _ Hl). pose proof (aa_len _ _ _ H').
  split; [|split; [apply AddressTable_Size_runs, H'|split]].
  - pose proof (AddressTable_LookupIndex_runs s d' _ (Z.of_nat i) H' ltac:(uint)) as RI.
    rewrite Nat2Z.id, Hl in RI. exact RI.
  - unfold register_spec in *. destruct (index_of a l) as [j|] eqn:Hj; cbn [fst snd] in *.
    + rewrite decide_True; [reflexivity|]. eapply list_elem_of_lookup_2, index_of_Some, Hj.
    + rewrite decide_False by (apply index_of_None, Hj). split; [lia|reflexivity].
  - intros b j Hb Hj. pose proof (AddressTable_Lookup_runs s d' _ b H' Hb) as RL.
    rewrite (Hk b j Hj) in RL. exact RL.
Qed.

Lemma test_table_empty : table_at (mkStorage 1 [7] false) test_db [].
Proof. apply ix_at_nil; [reflexivity|intros a Ha; inversion Ha|reflexivity]. Qed.

Lemma AddressTable_Register_Lookup_witness :
  let atab := AddressTable_Open (mkStorage 1 [7] false) in
  exists d' i l',
    runs 61600 (AddressTable_Register atab 9) test_db (Ok (Z.of_nat i)) d' /\
    runs 1600 (AddressTable_LookupIndex atab (Z.of_nat i)) d' (Ok (9, true)) d' /\
    i = 0%nat /\ l' = [9].
Proof.
  destruct (AddressTable_Register_Lookup (mkStorage 1 [7] false) test_db [] 9)
    as (d' & i & l' & H1 & _ & _ & H2 & _ & H3 & _).
  - apply test_ix_space. auto.
  - apply test_table_empty.
  - split; [lia|reflexivity].
  - reflexivity.
  - exists d', i, l'. rewrite decide_False in H3 by apply not_elem_of_nil. auto.
Defined.

(** [Decompress] recovers any address from what [Compress] made of it,
    whether the address is registered (its index is sent) or not (the address
    itself is sent), and reports the number of bytes of the compressed form,
    whatever follows it in the buffer. *)
Theorem AddressTable_Compress_Decompress {E : Env} {EL : EnvLaws E} {R : RLP} {RL : RLPLaws R}
  (s : Storage) (d : DB) (l : list Z) (a : Z) :
  table_at s d l -> in_u 160 a ->
  exists buf,
    runs 800 (AddressTable_Compress (AddressTable_Open s) a) d (Ok buf) d /\
    forall rest,
      runs 1600 (AddressTable_Decompress (AddressTable_Open s) (buf ++ rest)) d
        (Ok (a, Z.of_nat (length buf))) d.
Proof.
  intros H Ha. destruct (AddressTable_Compress_runs s d l a H Ha) as (buf & Rc & Hc).
  exists buf. split; [exact Rc|]. intros rest. apply (AddressTable_Decompress_runs s d l); auto.
Qed.

Lemma AddressTable_Compress_Decompress_witness :
  let s := mkStorage 1 [7] false in
  exists buf,
    runs 800 (AddressTable_Compress (AddressTable_Open s) 9) test_db (Ok buf) test_db /\
    forall rest,
      runs 1600 (AddressTable_Decompress (AddressTable_Open s) (buf ++ rest)) test_db
        (Ok (9, Z.of_nat (length buf))) test_db.
Proof.
  apply (AddressTable_Compress_Decompress (mkStorage 1 [7] false) test_db [] 9).
  - apply test_table_empty.
  - split; [lia|reflexivity].
Defined.
