(* ===== verification/Readers.v ===== *)
(** * arbos/util/util.go: reading and writing of words and byte strings

    The functions from an [io.Reader] and to an [io.Writer] that the parsers of
    messages, trees and certificates share. A reader is the list of the bytes it
    still delivers (a [bytes.Reader]) and a writer the list of the bytes written
    so far (a [bytes.Buffer], whose writes do not fail). [reads p b v] says that
    the parser [p] reads the bytes [b] as the value [v]. *)
From Stdlib Require Import ZArith Lia String List.
From stdpp Require Import base list numbers.
From S2P Require Import Prelude Arbmath Host Storage StorageFacts.
Open Scope Z_scope.

Definition EOF : error := ErrNew "EOF".
Definition ErrUnexpectedEOF : error := ErrNew "unexpected EOF".

(** [errors.Is(err, io.EOF)]. *)
Fixpoint Is_EOF (err : error) : bool :=
  match err with
  | ErrNew "EOF" => true
  | ErrWrap _ err => Is_EOF err
  | _ => false
  end.

(** One call of [Read] with a buffer of one byte. *)
Definition ReadByte (rd : list Z) : outcome (Z * list Z) :=
  match rd with [] => Err EOF | b :: rd => Ok (b, rd) end.

(** [io.ReadFull] of [n] bytes. *)
Definition ReadFull (rd : list Z) (n : nat) : outcome (list Z * list Z) :=
  if Nat.ltb (length rd) n then
    match rd with [] => Err EOF | _ => Err ErrUnexpectedEOF end
  else Ok (firstn n rd, skipn n rd).

Definition HashFromReader (rd : list Z) : outcome (Z * list Z) :=
  let? (buf, rd) := ReadFull rd 32 in Ok (BytesToHash buf, rd).

Definition Uint256FromReader (rd : list Z) : outcome (Z * list Z) :=
  let? (asHash, rd) := HashFromReader rd in Ok (asHash, rd).

Definition HashToWriter (val : Z) (wr : list Z) : list Z := wr ++ Hash_Bytes val.

Definition AddressFromReader (rd : list Z) : outcome (Z * list Z) :=
  let? (buf, rd) := ReadFull rd 20 in Ok (BytesToAddress buf, rd).

Definition AddressFrom256FromReader (rd : list Z) : outcome (Z * list Z) :=
  let? (h, rd) := HashFromReader rd in Ok (BytesToAddress (drop 12 (Hash_Bytes h)), rd).

Definition AddressToWriter (val : Z) (wr : list Z) : list Z := wr ++ Address_Bytes val.

Definition AddressTo256ToWriter (val : Z) (wr : list Z) : list Z :=
  AddressToWriter val (wr ++ repeat 0 12).

Definition Uint64FromReader (rd : list Z) : outcome (Z * list Z) :=
  let? (buf, rd) := ReadFull rd 8 in Ok (be buf, rd).

Definition Uint64ToWriter (val : Z) (wr : list Z) : list Z := wr ++ be_bytes 8 val.

Definition BytestringFromReader (rd : list Z) (maxBytesToRead : Z) : outcome (list Z * list Z) :=
  let? (size, rd) := Uint64FromReader rd in
  if maxBytesToRead <? size then Err (ErrNew "size too large in ByteStringFromReader")
  else ReadFull rd (Z.to_nat size).

(** The aliasing of an L1 contract's address on L2 and its inverse. *)
Definition AddressAliasOffset : Z := 0x1111000000000000000000000000000000001111.
Definition InverseAddressAliasOffset : Z := Z.shiftl 1 160 - AddressAliasOffset.

(** [big.Int.Bytes]: the absolute value in as few bytes as it takes. *)
Definition big_Bytes (x : Z) : list Z :=
  be_bytes (Z.to_nat ((Z.log2_up (Z.abs x + 1) + 7) / 8)) (Z.abs x).

Definition RemapL1Address (l1Addr : Z) : Z :=
  let sumBytes := big_Bytes (be (Address_Bytes l1Addr) + AddressAliasOffset) in
  let sumBytes := if (20 <? length sumBytes)%nat then drop (length sumBytes - 20) sumBytes else sumBytes in
  BytesToAddress sumBytes.

Definition InverseRemapL1Address (l1Addr : Z) : Z :=
  let sumBytes := big_Bytes (be (Address_Bytes l1Addr) + InverseAddressAliasOffset) in
  let sumBytes := if (20 <? length sumBytes)%nat then drop (length sumBytes - 20) sumBytes else sumBytes in
  BytesToAddress sumBytes.

(** The parser [p] reads the bytes [b], and no more, as [v]. *)
Definition reads {A} (p : list Z -> outcome (A * list Z)) (b : list Z) (v : A) : Prop :=
  forall rest, p (b ++ rest) = Ok (v, rest).

Lemma ReadFull_reads b : reads (fun rd => ReadFull rd (length b)) b b.
Proof.
  intros rest. unfold ReadFull. rewrite length_app. rewrite (proj2 (Nat.ltb_ge _ _)) by lia.
  now rewrite take_app_length, drop_app_length.
Qed.

(** A parser that runs on a fixed number of bytes. *)
Lemma reads_full {A} (f : list Z -> A) n b : length b = n ->
  reads (fun rd => let? (buf, rd) := ReadFull rd n in Ok (f buf, rd)) b (f b).
Proof. intros <- rest. now rewrite (ReadFull_reads b rest). Qed.

Lemma HashFromReader_bytes h rest : in_u 256 h -> HashFromReader (Hash_Bytes h ++ rest) = Ok (h, rest).
Proof.
  intros Hh. rewrite <- (BytesToHash_bytes h Hh) at 2.
  apply (reads_full BytesToHash 32), length_Hash_Bytes.
Qed.

Lemma Uint64FromReader_bytes v rest : in_u 64 v -> Uint64FromReader (be_bytes 8 v ++ rest) = Ok (v, rest).
Proof.
  intros Hv. rewrite <- (Z.mod_small v (256 ^ Z.of_nat 8) Hv) at 2. rewrite <- (be_be_bytes 8 v).
  apply (reads_full be 8), length_be_bytes.
Qed.

Lemma BytesToAddress_Address_Bytes a : in_u 160 a -> BytesToAddress (Address_Bytes a) = a.
Proof.
  intros Ha. unfold BytesToAddress, Address_Bytes. rewrite be_be_bytes. change (256 ^ Z.of_nat 20) with (2 ^ 160).
  rewrite Z.mod_mod by lia. apply Z.mod_small, Ha.
Qed.

Lemma AddressFromReader_bytes a rest : in_u 160 a -> AddressFromReader (Address_Bytes a ++ rest) = Ok (a, rest).
Proof.
  intros Ha. rewrite <- (BytesToAddress_Address_Bytes a Ha) at 2.
  apply (reads_full BytesToAddress 20), length_be_bytes.
Qed.

Lemma be_bytes_pad n m v : 0 <= v < 256 ^ Z.of_nat n -> be_bytes (m + n) v = repeat 0 m ++ be_bytes n v.
Proof.
  intros Hv. rewrite <- (be_bytes_be (repeat 0 m ++ be_bytes n v) (m + n)).
  - f_equal. rewrite be_app, be_be_bytes, (Z.mod_small v) by exact Hv.
    assert (be (repeat 0 m) = 0) as ->; [|lia].
    clear. induction m as [|m IH]; [reflexivity|]. replace (S m) with (m + 1)%nat by lia.
    rewrite repeat_app, be_app, IH. reflexivity.
  - rewrite length_app, repeat_length, length_be_bytes. reflexivity.
  - apply Forall_app. split; [|apply be_bytes_is_byte]. apply list.Forall_forall. intros x Hx.
    apply list_elem_of_In, repeat_spec in Hx. subst. unfold is_byte. lia.
Qed.

Lemma AddressFrom256FromReader_bytes a rest : in_u 160 a ->
  AddressFrom256FromReader (repeat 0 12 ++ Address_Bytes a ++ rest) = Ok (a, rest).
Proof.
  intros Ha. rewrite app_assoc. unfold Address_Bytes. rewrite <- (be_bytes_pad 20 12 a Ha).
  unfold AddressFrom256FromReader. rewrite HashFromReader_bytes by (unfold in_u in *; lia). cbn [obind].
  change (Hash_Bytes a) with (be_bytes (12 + 20) a). rewrite (be_bytes_pad 20 12 a Ha).
  rewrite drop_app_length' by reflexivity. do 2 f_equal. exact (BytesToAddress_Address_Bytes a Ha).
Qed.

Lemma BytestringFromReader_bytes val max rest : Z.of_nat (length val) <= max -> max < 2 ^ 64 ->
  BytestringFromReader (be_bytes 8 (Z.of_nat (length val)) ++ val ++ rest) max = Ok (val, rest).
Proof.
  intros Hm Hmax. unfold BytestringFromReader. rewrite Uint64FromReader_bytes by (unfold in_u; lia). cbn [obind].
  destruct (Z.ltb_spec max (Z.of_nat (length val))); [lia|]. rewrite Nat2Z.id. apply ReadFull_reads.
Qed.

Create Rewrite HintDb readers.
#[export] Hint Rewrite HashFromReader_bytes Uint64FromReader_bytes AddressFromReader_bytes
  AddressFrom256FromReader_bytes using (assumption || (unfold in_u in *; lia)) : readers.

(** ** What a successful read says of the bytes that were read *)

Lemma ReadFull_inv rd n b rest : ReadFull rd n = Ok (b, rest) -> rd = b ++ rest /\ length b = n.
Proof.
  unfold ReadFull. destruct (Nat.ltb_spec (length rd) n); [now destruct rd|]. intros [= <- <-].
  now rewrite take_drop, length_take_le.
Qed.

Lemma HashFromReader_inv rd h rest : Forall is_byte rd -> HashFromReader rd = Ok (h, rest) ->
  rd = Hash_Bytes h ++ rest /\ in_u 256 h /\ Forall is_byte rest.
Proof.
  intros Hb. unfold HashFromReader. destruct (ReadFull rd 32) as [[b r]| |] eqn:Hr; [|discriminate..]. cbn [obind].
  intros [= <- <-]. apply ReadFull_inv in Hr as [-> Hl]. apply Forall_app in Hb as [Hb Hrest].
  pose proof (be_range b Hb) as Hbr. rewrite Hl in Hbr. change (256 ^ Z.of_nat 32) with (2 ^ 256) in Hbr.
  unfold BytesToHash. rewrite Z.mod_small by lia. split; [|auto]. unfold Hash_Bytes. now rewrite (be_bytes_be b 32 Hl Hb).
Qed.

Lemma Uint64FromReader_inv rd v rest : Forall is_byte rd -> Uint64FromReader rd = Ok (v, rest) ->
  rd = be_bytes 8 v ++ rest /\ in_u 64 v /\ Forall is_byte rest.
Proof.
  intros Hb. unfold Uint64FromReader. destruct (ReadFull rd 8) as [[b r]| |] eqn:Hr; [|discriminate..]. cbn [obind].
  intros [= <- <-]. apply ReadFull_inv in Hr as [-> Hl]. apply Forall_app in Hb as [Hb Hrest].
  pose proof (be_range b Hb) as Hbr. rewrite Hl in Hbr. rewrite (be_bytes_be b 8 Hl Hb). auto.
Qed.

Lemma AddressFrom256FromReader_pad pad a rest : length pad = 12%nat -> Forall is_byte pad -> in_u 160 a ->
  AddressFrom256FromReader (pad ++ Address_Bytes a ++ rest) = Ok (a, rest).
Proof.
  intros Hl Hp Ha. rewrite app_assoc. set (b := pad ++ Address_Bytes a).
  assert (length b = 32%nat) as Hb by (unfold b, Address_Bytes; rewrite length_app, length_be_bytes; lia).
  assert (Forall is_byte b) as Hbb by (apply Forall_app; split; [exact Hp|apply be_bytes_is_byte]).
  pose proof (be_range b Hbb) as Hr. rewrite Hb in Hr.
  assert (Hash_Bytes (be b) = b) as Hh by exact (be_bytes_be b 32 Hb Hbb).
  unfold AddressFrom256FromReader. rewrite <- Hh at 1. rewrite (HashFromReader_bytes _ _ Hr). cbn [obind].
  rewrite Hh. unfold b. rewrite drop_app_length' by (symmetry; exact Hl). do 2 f_equal. exact (BytesToAddress_Address_Bytes a Ha).
Qed.

Lemma AddressFrom256FromReader_inv rd a rest : Forall is_byte rd -> AddressFrom256FromReader rd = Ok (a, rest) ->
  exists pad, rd = pad ++ Address_Bytes a ++ rest /\ length pad = 12%nat /\ Forall is_byte pad /\
    in_u 160 a /\ Forall is_byte rest.
Proof.
  intros Hb. unfold AddressFrom256FromReader. destruct (HashFromReader rd) as [[h r]| |] eqn:Hr; [|discriminate..].
  cbn [obind]. intros Heq. apply (HashFromReader_inv _ _ _ Hb) in Hr as (-> & Hh & Hrest).
  assert (a = BytesToAddress (drop 12 (Hash_Bytes h)) /\ rest = r) as [-> ->] by (split; congruence).
  set (b := Hash_Bytes h). assert (length b = 32%nat) as Hl by apply length_Hash_Bytes.
  assert (Forall is_byte b) as Hbb by apply be_bytes_is_byte.
  exists (take 12 b). assert (length (drop 12 b) = 20%nat) as Hd by (rewrite length_drop; lia).
  pose proof (be_range (drop 12 b) (Forall_drop _ _ _ Hbb)) as Hr. rewrite Hd in Hr.
  change (256 ^ Z.of_nat 20) with (2 ^ 160) in Hr.
  assert (Address_Bytes (BytesToAddress (drop 12 b)) = drop 12 b) as ->.
  { unfold BytesToAddress. rewrite Z.mod_small by lia. exact (be_bytes_be _ 20 Hd (Forall_drop _ _ _ Hbb)). }
  rewrite app_assoc, take_drop. split; [reflexivity|]. split; [rewrite length_take; lia|].
  split; [apply Forall_take, Hbb|]. split; [|exact Hrest]. apply Z.mod_pos_bound. lia.
Qed.

Lemma BytestringFromReader_inv rd max b rest : Forall is_byte rd -> BytestringFromReader rd max = Ok (b, rest) ->
  rd = be_bytes 8 (Z.of_nat (length b)) ++ b ++ rest /\ Z.of_nat (length b) <= max /\
  Forall is_byte b /\ Forall is_byte rest.
Proof.
  intros Hb. unfold BytestringFromReader. destruct (Uint64FromReader rd) as [[v r]| |] eqn:Hr; [|discriminate..].
  cbn [obind]. apply (Uint64FromReader_inv _ _ _ Hb) in Hr as (-> & Hv & Hrest).
  destruct (Z.ltb_spec max v); [discriminate|]. intros Hf. apply ReadFull_inv in Hf as [-> Hl].
  apply Forall_app in Hrest as [Hb1 Hb2]. rewrite Hl, Z2Nat.id by apply Hv. auto.
Qed.

Lemma BytestringFromReader_shorter rd max b rest : BytestringFromReader rd max = Ok (b, rest) ->
  (length b + length rest + 8 = length rd)%nat.
Proof.
  unfold BytestringFromReader, Uint64FromReader. destruct (ReadFull rd 8) as [[buf r]| |] eqn:Hr; [|discriminate..].
  cbn [obind]. apply ReadFull_inv in Hr as [-> Hl]. destruct (max <? be buf); [discriminate|].
  intros Hf. apply ReadFull_inv in Hf as [-> _]. rewrite !length_app. lia.
Qed.

(** Reading does not panic. *)
Lemma ReadFull_no_panic rd n : no_panic (ReadFull rd n).
Proof. unfold ReadFull. destruct (Nat.ltb _ _); [now destruct rd|exact I]. Qed.

Lemma reader_no_panic rd : no_panic (HashFromReader rd) /\ no_panic (AddressFromReader rd) /\
  no_panic (AddressFrom256FromReader rd) /\ no_panic (Uint64FromReader rd) /\
  forall max, no_panic (BytestringFromReader rd max).
Proof.
  assert (no_panic (HashFromReader rd) /\ no_panic (Uint64FromReader rd)) as [H1 H2].
  { split; (apply no_panic_bind; [apply ReadFull_no_panic|now intros []]). }
  repeat split; [exact H1| | |exact H2|]; try (apply no_panic_bind; [apply ReadFull_no_panic || exact H1|now intros []]).
  intros max. apply no_panic_bind; [exact H2|]. intros [v r]. destruct (max <? v); [exact I|apply ReadFull_no_panic].
Qed.

Lemma be_big_Bytes x : be (big_Bytes x) = Z.abs x.
Proof.
  unfold big_Bytes. rewrite be_be_bytes. apply Z.mod_small. split; [lia|].
  set (k := Z.log2_up (Z.abs x + 1)). assert (0 <= k) by apply Z.log2_up_nonneg.
  rewrite Z2Nat.id by (apply Z.div_pos; lia).
  apply Z.lt_le_trans with (2 ^ k).
  - destruct (Z.eq_dec x 0) as [->|]; [lia|]. pose proof (proj2 (Z.log2_up_spec (Z.abs x + 1) ltac:(lia))) as Hk. fold k in Hk. lia.
  - change 256 with (2 ^ 8). rewrite <- Z.pow_mul_r by (try apply Z.div_pos; lia).
    apply Z.pow_le_mono_r; [lia|]. pose proof (Z.div_mod (k + 7) 8 ltac:(lia)).
    pose proof (Z.mod_pos_bound (k + 7) 8 ltac:(lia)). lia.
Qed.

(** Cropping a number's bytes on the left to an address's length changes nothing. *)
Lemma BytesToAddress_crop b :
  BytesToAddress (if (20 <? length b)%nat then drop (length b - 20) b else b) = be b mod 2 ^ 160.
Proof.
  destruct (Nat.ltb_spec 20 (length b)); [|reflexivity]. unfold BytesToAddress.
  rewrite <- (take_drop (length b - 20) b) at 3. rewrite be_app, length_drop.
  replace (length b - (length b - 20))%nat with 20%nat by lia. change (256 ^ Z.of_nat 20) with (2 ^ 160).
  now rewrite Z.add_comm, Z.mod_add by lia.
Qed.

Lemma RemapL1Address_spec a : in_u 160 a -> RemapL1Address a = (a + AddressAliasOffset) mod 2 ^ 160.
Proof.
  intros Ha. unfold RemapL1Address. cbv zeta. rewrite BytesToAddress_crop, be_big_Bytes.
  unfold Address_Bytes. rewrite be_be_bytes, (Z.mod_small a) by exact Ha.
  unfold AddressAliasOffset, in_u in *. now rewrite Z.abs_eq by lia.
Qed.

Lemma InverseRemapL1Address_spec a : in_u 160 a ->
  InverseRemapL1Address a = (a - AddressAliasOffset) mod 2 ^ 160.
Proof.
  intros Ha. unfold InverseRemapL1Address. cbv zeta. rewrite BytesToAddress_crop, be_big_Bytes.
  unfold Address_Bytes. rewrite be_be_bytes, (Z.mod_small a) by exact Ha.
  unfold InverseAddressAliasOffset, AddressAliasOffset, in_u in *.
  rewrite Z.shiftl_mul_pow2, Z.mul_1_l, Z.abs_eq by lia.
  rewrite <- (Z.mod_add (a - _) 1 (2 ^ 160)) by lia. f_equal. lia.
Qed.

(** The alias of an L1 contract on L2 is undone by the inverse map, and two
    contracts never share an alias. *)
Lemma InverseRemap_Remap a : in_u 160 a -> InverseRemapL1Address (RemapL1Address a) = a.
Proof.
  intros Ha. rewrite (RemapL1Address_spec a Ha), InverseRemapL1Address_spec by (apply Z.mod_pos_bound; lia).
  rewrite Zminus_mod_idemp_l, Z.add_simpl_r. apply Z.mod_small, Ha.
Qed.
