(* ===== verification/Merkle.v ===== *)
(** * Merkle roots and the binary counter of complete subtrees

    The reference definition of the root of an append-only Merkle tree in
    which an absent subtree has the zero hash, and the theory of the list of
    partial hashes ([push], [combine]) that an accumulator keeps: one entry
    per level, the root of a complete subtree or zero. *)
From Stdlib Require Import ZArith Lia String List.
From stdpp Require Import base list numbers.
From S2P Require Import Prelude Arbmath Host Storage StorageFacts.
Open Scope Z_scope.

Section Merkle.
Context {E : Env} {EL : EnvLaws E}.

(** The hash of an inner node. *)
Definition node (l r : Z) : Z := keccak256 (Hash_Bytes l ++ Hash_Bytes r).

(** The hash of a leaf. *)
Definition leaf (item : Z) : Z := keccak256 (Hash_Bytes item).

(** The root of the tree of depth [d] over the leaf hashes [l]. *)
Fixpoint mroot (d : nat) (l : list Z) : Z :=
  match l with
  | [] => 0
  | h :: _ =>
      match d with
      | O => h
      | S d => node (mroot d (take (2 ^ d) l)) (mroot d (drop (2 ^ d) l))
      end
  end.

(** The depth of the tree over [n] leaves. *)
Definition depth (n : nat) : nat := Z.to_nat (Z.log2_up (Z.of_nat n)).

(** The root of the tree over the leaf hashes [l]. *)
Definition merkle_root (l : list Z) : Z := mroot (depth (length l)) l.

(** Add the root [h] of a complete subtree at the lowest level. *)
Fixpoint push (ps : list Z) (h : Z) : list Z :=
  match ps with
  | [] => [h]
  | p :: ps => if p =? 0 then h :: ps else 0 :: push ps (node p h)
  end.

(** The inner nodes that [push] creates, with their levels. *)
Fixpoint push_nodes (level : Z) (ps : list Z) (h : Z) : list (Z * Z) :=
  match ps with
  | [] => []
  | p :: ps => if p =? 0 then [] else (level + 1, node p h) :: push_nodes (level + 1) ps (node p h)
  end.

(** [h] extended [n] times by an absent right sibling. *)
Fixpoint pad (n : nat) (h : Z) : Z :=
  match n with
  | O => h
  | S n => pad n (node h 0)
  end.

(** Combine the partials from level [i] on with the root [acc] of what lies to
    their right, given with its depth. *)
Fixpoint combine (i : nat) (ps : list Z) (acc : option (Z * nat)) : option Z :=
  match ps with
  | [] => fst <$> acc
  | p :: ps =>
      if p =? 0 then combine (S i) ps acc
      else
        match acc with
        | None => combine (S i) ps (Some (p, i))
        | Some (h, c) => combine (S i) ps (Some (node p (pad (i - c) h), S i))
        end
  end.

(** ** Partials that represent a list of leaves *)

(** [rep i ps l]: the partials [ps], from level [i] on, represent the leaves
    [l]; the last partial is not zero. *)
Fixpoint rep (i : nat) (ps : list Z) (l : list Z) : Prop :=
  match ps with
  | [] => l = []
  | p :: ps' =>
      (ps' = [] -> p <> 0) /\
      exists l1 l2, l = l1 ++ l2 /\ rep (S i) ps' l1 /\
        (p = 0 /\ l2 = [] \/ p <> 0 /\ length l2 = (2 ^ i)%nat /\ p = mroot i l2)
  end.

(** No complete aligned subtree over [l] has the hash zero. *)
Definition nonzero_nodes (l : list Z) : Prop :=
  forall i l1 l2 l3, l = l1 ++ l2 ++ l3 -> length l2 = (2 ^ i)%nat -> mroot i l2 <> 0.

Lemma pow2_nat_pos i : (0 < 2 ^ i)%nat.
Proof. apply Nat.neq_0_lt_0, Nat.pow_nonzero. lia. Qed.

Lemma mroot_0 h : mroot 0 [h] = h.
Proof. reflexivity. Qed.

Lemma mroot_S d l : l <> [] -> mroot (S d) l = node (mroot d (take (2 ^ d) l)) (mroot d (drop (2 ^ d) l)).
Proof. destruct l; [congruence|reflexivity]. Qed.

Lemma mroot_app d l1 l2 : length l1 = (2 ^ d)%nat ->
  mroot (S d) (l1 ++ l2) = node (mroot d l1) (mroot d l2).
Proof.
  intros H. rewrite mroot_S; [rewrite <- H, take_app_length, drop_app_length; reflexivity|].
  pose proof (pow2_nat_pos d). destruct l1; [cbn in H; lia|discriminate].
Qed.

Lemma mroot_nil d : mroot d [] = 0.
Proof. destruct d; reflexivity. Qed.

Lemma mroot_pad n : forall d l, l <> [] -> (length l <= 2 ^ d)%nat ->
  pad n (mroot d l) = mroot (d + n) l.
Proof.
  induction n as [|n IH]; intros d l Hl Hd; cbn [pad]; [rewrite Nat.add_0_r; reflexivity|].
  replace (node (mroot d l) 0) with (mroot (S d) l).
  - rewrite IH; [f_equal; lia|auto|]. cbn. lia.
  - rewrite mroot_S by auto. rewrite take_ge, drop_ge, mroot_nil by lia. reflexivity.
Qed.

Lemma rep_push ps : forall i l c h,
  rep i ps l -> length c = (2 ^ i)%nat -> h = mroot i c -> h <> 0 ->
  (forall j l1 l2, l ++ c = l1 ++ l2 -> length l2 = (2 ^ j)%nat -> mroot j l2 <> 0) ->
  rep i (push ps h) (l ++ c).
Proof.
  induction ps as [|p ps IH]; intros i l c h Hr Hc Hh Hnz Hall; cbn [push rep] in *.
  - subst l. split; [auto|]. exists [], c. split; [reflexivity|]. split; [reflexivity|]. auto.
  - destruct Hr as [Hlast (l1 & l2 & -> & Hr & Hp)]. destruct (Z.eqb_spec p 0) as [->|Hp0]; cbn [rep].
    + destruct Hp as [[_ ->]|[? _]]; [|congruence]. rewrite app_nil_r. split; [auto|].
      exists l1, c. split; [reflexivity|]. split; [exact Hr|]. auto.
    + destruct Hp as [[? _]|(_ & Hl2 & Hp)]; [congruence|].
      assert (mroot (S i) (l2 ++ c) = node p h) as Hn by (rewrite mroot_app by auto; subst; reflexivity).
      assert (length (l2 ++ c) = 2 ^ S i)%nat as Hlen by (rewrite length_app, Hl2, Hc; cbn; lia).
      split; [intros He; exfalso; destruct ps as [|q ps]; cbn [push] in He; [|destruct (q =? 0)]; discriminate|].
      exists (l1 ++ l2 ++ c), []. split; [rewrite app_nil_r, <- app_assoc; reflexivity|]. split; [|auto].
      apply IH; auto.
      * rewrite <- Hn. apply (Hall (S i) l1); [rewrite <- app_assoc; reflexivity|exact Hlen].
      * intros j l1' l2' He. apply (Hall j l1'). rewrite <- He, <- app_assoc. reflexivity.
Qed.

(** The size of the represented list determines the number of partials. *)
Lemma rep_length ps : forall i l, rep i ps l -> ps <> [] ->
  (2 ^ (i + length ps - 1) <= length l < 2 ^ (i + length ps))%nat.
Proof.
  induction ps as [|p ps IH]; intros i l Hr Hne; [congruence|]. cbn [rep length] in *.
  destruct Hr as [Hlast (l1 & l2 & -> & Hr & Hp)]. rewrite length_app.
  pose proof (pow2_nat_pos i) as Hpos. destruct ps as [|q ps].
  - cbn [rep] in Hr. subst l1. specialize (Hlast eq_refl).
    destruct Hp as [[? _]|(_ & Hl2 & _)]; [congruence|]. cbn [length].
    replace (i + 1 - 1)%nat with i by lia. replace (i + 1)%nat with (S i) by lia. cbn. lia.
  - destruct (IH (S i) l1 Hr ltac:(discriminate)) as [H1 H2]. cbn [length] in *.
    replace (i + S (S (length ps)))%nat with (S i + S (length ps))%nat by lia.
    assert (length l1 + 2 ^ i < 2 ^ (S i + S (length ps)))%nat; [|destruct Hp as [[_ ->]|(_ & -> & _)]; cbn [length]; lia].
    (* both are multiples of [2 ^ S i] *)
    assert (exists m, length l1 = m * 2 ^ S i)%nat as [m Hm].
    { clear -Hr Hpos. remember (q :: ps) as qs eqn:Hq. clear Hq. revert Hr. generalize (S i). clear i Hpos.
      revert l1. induction qs as [|x qs IHq]; intros l1 j Hr; cbn [rep] in Hr.
      - subst. exists 0%nat. reflexivity.
      - destruct Hr as [_ (l1' & l2' & -> & Hr & Hx)]. destruct (IHq _ _ Hr) as [m Hm]. rewrite length_app, Hm.
        destruct Hx as [[_ ->]|(_ & -> & _)]; cbn [length Nat.pow].
        + exists (2 * m)%nat. lia.
        + exists (2 * m + 1)%nat. lia. }
    rewrite Hm in *. replace (S i + S (length ps))%nat with (S (length ps) + S i)%nat in * by lia.
    rewrite Nat.pow_add_r in *. assert (m < 2 ^ S (length ps))%nat by (eapply Nat.mul_lt_mono_pos_r; [|exact H2]; apply pow2_nat_pos).
    assert ((m + 1) * 2 ^ S i <= 2 ^ S (length ps) * 2 ^ S i)%nat by (apply Nat.mul_le_mono_r; lia).
    cbn [Nat.pow] in *. lia.
Qed.

Lemma pow2_nat_Z c : Z.of_nat (2 ^ c) = 2 ^ Z.of_nat c.
Proof. rewrite Nat2Z.inj_pow. reflexivity. Qed.

Lemma depth_unique c n :
  (0 < n)%nat -> (n <= 2 ^ c)%nat -> (c = 0%nat \/ 2 ^ (c - 1) < n)%nat -> depth n = c.
Proof.
  intros Hn Hle Hc. unfold depth. destruct Hc as [->|Hc].
  - cbn in Hle. replace n with 1%nat by lia. reflexivity.
  - destruct c as [|c]; [cbn in *; lia|]. replace (S c - 1)%nat with c in Hc by lia.
    rewrite (Z.log2_up_unique _ (Z.of_nat (S c))); [lia|lia|].
    replace (Z.pred (Z.of_nat (S c))) with (Z.of_nat c) by lia. rewrite <- !pow2_nat_Z. lia.
Qed.

(** What lies to the right of the partials still to be combined. *)
Definition acc_root (i : nat) (acc : option (Z * nat)) (r : list Z) : Prop :=
  match acc with
  | None => r = []
  | Some (h, c) =>
      r <> [] /\ (c <= i)%nat /\ (length r <= 2 ^ c)%nat /\ (c = 0%nat \/ 2 ^ (c - 1) < length r)%nat /\
      h = mroot c r
  end.

Lemma combine_root ps : forall i l acc r,
  rep i ps l -> acc_root i acc r -> l ++ r <> [] ->
  combine i ps acc = Some (merkle_root (l ++ r)).
Proof.
  induction ps as [|p ps IH]; intros i l acc r Hr Hacc Hne; cbn [combine rep] in *.
  - subst l. cbn [app] in *. destruct acc as [[h c]|]; [|congruence].
    destruct Hacc as (_ & _ & Hlen & Hc & ->). unfold merkle_root. cbn.
    rewrite (depth_unique c); [reflexivity| |exact Hlen|exact Hc]. destruct r; [congruence|cbn; lia].
  - destruct Hr as [_ (l1 & l2 & -> & Hr & Hp)]. destruct (Z.eqb_spec p 0) as [->|Hp0].
    + destruct Hp as [[_ ->]|[? _]]; [|congruence]. rewrite app_nil_r in *. apply IH; auto.
      destruct acc as [[h c]|]; [|exact Hacc]. cbn in *. intuition lia.
    + destruct Hp as [[? _]|(_ & Hl2 & ->)]; [congruence|]. pose proof (pow2_nat_pos i).
      assert (l2 <> []) by (intros ->; cbn in Hl2; lia). rewrite <- app_assoc.
      assert ((l1 ++ l2) ++ r <> [] -> l1 ++ l2 ++ r <> []) as Hne' by (rewrite app_assoc; auto).
      destruct acc as [[h c]|]; apply IH; auto.
      * destruct Hacc as (Hrne & Hci & Hlen & Hc & ->). cbn [acc_root].
        assert (length r <= 2 ^ i)%nat by (etransitivity; [exact Hlen|apply Nat.pow_le_mono_r; lia]).
        assert (0 < length r)%nat by (destruct r; [congruence|cbn; lia]).
        rewrite mroot_pad by auto. replace (c + (i - c))%nat with i by lia.
        rewrite length_app, Hl2. cbn [Nat.pow]. replace (S i - 1)%nat with i by lia.
        split; [intros He; apply app_eq_nil in He; tauto|]. split; [lia|]. split; [lia|]. split; [lia|].
        rewrite mroot_app by auto. reflexivity.
      * cbn [acc_root] in *. subst r. rewrite app_nil_r. split; [auto|]. split; [lia|].
        rewrite Hl2. split; [lia|]. split; [|reflexivity].
        destruct i as [|i]; [auto|]. right. replace (S i - 1)%nat with i by lia. cbn. pose proof (pow2_nat_pos i). lia.
Qed.

Lemma combine_merkle_root ps l : rep 0 ps l -> l <> [] -> combine 0 ps None = Some (merkle_root l).
Proof.
  intros Hr Hl. rewrite (combine_root ps 0 l None []); [rewrite app_nil_r; reflexivity|exact Hr|reflexivity|].
  rewrite app_nil_r. exact Hl.
Qed.

(** [CalcNumPartials] of the size is the number of partials. *)
Lemma rep_bitlen ps l : rep 0 ps l -> Z.of_nat (length l) < 2 ^ 64 ->
  Log2ceil (Z.of_nat (length l)) = Z.of_nat (length ps) /\ Z.of_nat (length ps) <= 64.
Proof.
  intros Hr Hlt. unfold Log2ceil, LeadingZeros64, bits_Len64. destruct ps as [|p ps].
  - cbn [rep] in Hr. subst l. split; [reflexivity|cbn; lia].
  - destruct (rep_length (p :: ps) 0 l Hr ltac:(discriminate)) as [H1 H2]. cbn [Nat.add] in *.
    set (n := length (p :: ps)) in *. assert (0 < n)%nat by (subst n; cbn; lia).
    pose proof (pow2_nat_pos (n - 1)). destruct (Z.eqb_spec (Z.of_nat (length l)) 0); [lia|].
    assert (Z.log2 (Z.of_nat (length l)) = Z.of_nat (n - 1)) as ->.
    { apply Z.log2_unique; [lia|]. replace (Z.succ (Z.of_nat (n - 1))) with (Z.of_nat n) by lia.
      rewrite <- !pow2_nat_Z. lia. }
    assert (Z.of_nat (n - 1) < 64) by (apply (Z.pow_lt_mono_r_iff 2); [lia|lia|rewrite <- pow2_nat_Z; lia]).
    replace (64 - (64 - (Z.of_nat (n - 1) + 1))) with (Z.of_nat n) by lia. split; [apply uwrap_id; uint|lia].
Qed.

(** The inner nodes reported by a push are the complete subtrees that end at
    the new leaf. *)
Lemma push_nodes_spec ps : forall i l c h,
  rep i ps l -> length c = (2 ^ i)%nat -> h = mroot i c ->
  forall lev x, In (lev, x) (push_nodes (Z.of_nat i) ps h) ->
  exists j l1 l2, lev = Z.of_nat j /\ (i < j)%nat /\ l ++ c = l1 ++ l2 /\ length l2 = (2 ^ j)%nat /\ x = mroot j l2.
Proof.
  induction ps as [|p ps IH]; intros i l c h Hr Hc Hh lev x Hin; cbn [push_nodes rep] in *; [contradiction|].
  destruct Hr as [_ (l1 & l2 & -> & Hr & Hp)]. destruct (Z.eqb_spec p 0) as [->|Hp0]; [contradiction|].
  destruct Hp as [[? _]|(_ & Hl2 & Hp)]; [congruence|].
  assert (mroot (S i) (l2 ++ c) = node p h) as Hn by (rewrite mroot_app by auto; subst; reflexivity).
  assert (length (l2 ++ c) = 2 ^ S i)%nat as Hlen by (rewrite length_app, Hl2, Hc; cbn; lia).
  replace (Z.of_nat i + 1) with (Z.of_nat (S i)) in Hin by lia. destruct Hin as [[= <- <-]|Hin].
  - exists (S i), l1, (l2 ++ c). rewrite <- app_assoc. auto.
  - destruct (IH (S i) l1 (l2 ++ c) _ Hr Hlen (eq_sym Hn) lev x Hin) as (j & m1 & m2 & ? & ? & He & ? & ?).
    exists j, m1, m2. rewrite <- app_assoc. repeat split; auto; lia.
Qed.
End Merkle.
