(* ===== verification/MerkleAccumulator.v ===== *)
(** * arbos/merkleAccumulator/merkleAccumulator.go

    The accumulator of the outgoing messages, kept in ArbOS storage (size at
    key 0, partials from key 2 on) or in memory. Both kinds are the record
    [MerkleAccumulator]; an operation returns the updated record. The hashes
    behind the pointers of the in-memory partials are never written to (a new
    pointer is stored instead), so a clone that shares them shares values. *)
From Stdlib Require Import ZArith Lia String List.
From stdpp Require Import base list numbers.
From S2P Require Import Prelude Arbmath Host Storage StorageFacts Merkle MemEnv.
Open Scope Z_scope.

(** The interface [storage.WrappedUint64] and its two implementations. *)
Inductive WrappedUint64 :=
| WrappedStorage (x : StorageSlot)
| WrappedMemory (m : MemoryBackedUint64).

Record MerkleAccumulator := mkMerkleAccumulator {
  ma_backingStorage : option Storage;
  ma_size : WrappedUint64;
  ma_partials : list (option Z)
}.

Record MerkleTreeNodeEvent := mkMerkleTreeNodeEvent {
  Event_Level : Z;
  Event_NumLeaves : Z;
  Event_Hash : Z
}.

Definition set_ma_size (acc : MerkleAccumulator) (w : WrappedUint64) : MerkleAccumulator :=
  mkMerkleAccumulator (ma_backingStorage acc) w (ma_partials acc).

Definition set_ma_partials (acc : MerkleAccumulator) (ps : list (option Z)) : MerkleAccumulator :=
  mkMerkleAccumulator (ma_backingStorage acc) (ma_size acc) ps.

Definition CalcNumPartials (size : Z) : Z := Log2ceil size.

Section Operations.
Context {E : Env}.

Definition Wrapped_Get (w : WrappedUint64) : M Z :=
  match w with
  | WrappedStorage x => StorageBackedUint64_Get x
  | WrappedMemory m => ret (MemoryBackedUint64_Get m)
  end.

Definition Wrapped_Increment (w : WrappedUint64) : M (Z * WrappedUint64) :=
  match w with
  | WrappedStorage x => let* n := StorageBackedUint64_Increment x in ret (n, w)
  | WrappedMemory m =>
      let* (n, m) := lift (MemoryBackedUint64_Increment m) in ret (n, WrappedMemory m)
  end.

Definition InitializeMerkleAccumulator (sto : Storage) : M unit := ret tt.

Definition OpenMerkleAccumulator (sto : Storage) : MerkleAccumulator :=
  mkMerkleAccumulator (Some sto) (WrappedStorage (OpenStorageBackedUint64 sto 0)) [].

Definition NewNonpersistentMerkleAccumulator : MerkleAccumulator :=
  mkMerkleAccumulator None (WrappedMemory (mkMemoryBackedUint64 0)) [].

(** The loop over the partials; a nil pointer panics. *)
Fixpoint FromPartials_loop (partials : list (option Z)) (size levelSize : Z) : outcome Z :=
  match partials with
  | [] => Ok size
  | None :: _ => Panic "nil pointer dereference"
  | Some p :: partials =>
      FromPartials_loop partials (if negb (p =? 0) then size +u64 levelSize else size) (levelSize *u64 2)
  end.

Definition NewNonpersistentMerkleAccumulatorFromPartials (partials : list (option Z))
  : outcome MerkleAccumulator :=
  let? size := FromPartials_loop partials 0 1 in
  Ok (mkMerkleAccumulator None (WrappedMemory (MemoryBackedUint64_Set (mkMemoryBackedUint64 0) size)) partials).

Definition MerkleAccumulator_Keccak (acc : MerkleAccumulator) (data : list (list Z)) : M (list Z) :=
  match ma_backingStorage acc with
  | Some _ => Storage_Keccak data
  | None => ret (Hash_Bytes (keccak256 (concat data)))
  end.

Definition MerkleAccumulator_KeccakHash (acc : MerkleAccumulator) (data : list (list Z)) : M Z :=
  match ma_backingStorage acc with
  | Some _ => Storage_KeccakHash data
  | None => ret (keccak256 (concat data))
  end.

Definition MerkleAccumulator_getPartial (acc : MerkleAccumulator) (level : Z)
  : M (Z * MerkleAccumulator) :=
  match ma_backingStorage acc with
  | None =>
      match ma_partials acc !! Z.to_nat level with
      | None => panic "index out of range"
      | Some None => ret (0, set_ma_partials acc (<[Z.to_nat level := Some 0]> (ma_partials acc)))
      | Some (Some h) => ret (h, acc)
      end
  | Some sto => let* r := Storage_GetByUint64 sto (2 +u64 level) in ret (r, acc)
  end.

(** The loops that read the [n] partials from [level] on. *)
Fixpoint getPartials_loop (n : nat) (acc : MerkleAccumulator) (level : Z)
  : M (list Z * MerkleAccumulator) :=
  match n with
  | O => ret ([], acc)
  | S n =>
      let* (p, acc) := MerkleAccumulator_getPartial acc level in
      let* (rest, acc) := getPartials_loop n acc (level +u64 1) in
      ret (p :: rest, acc)
  end.

Definition MerkleAccumulator_GetPartials (acc : MerkleAccumulator) : M (list Z * MerkleAccumulator) :=
  let* size := Wrapped_Get (ma_size acc) in
  getPartials_loop (Z.to_nat (CalcNumPartials size)) acc 0.

(** The clone and the original after the reads. *)
Definition MerkleAccumulator_NonPersistentClone (acc : MerkleAccumulator)
  : M (MerkleAccumulator * MerkleAccumulator) :=
  let* size := Wrapped_Get (ma_size acc) in
  let numPartials := CalcNumPartials size in
  let* (partials, acc) := getPartials_loop (Z.to_nat numPartials) acc 0 in
  ret (mkMerkleAccumulator None (WrappedMemory (MemoryBackedUint64_Set (mkMemoryBackedUint64 0) size))
         (map Some partials), acc).

Definition MerkleAccumulator_setPartial (acc : MerkleAccumulator) (level val : Z) : M MerkleAccumulator :=
  match ma_backingStorage acc with
  | Some sto => Storage_SetByUint64 sto (2 +u64 level) val ;;; ret acc
  | None =>
      if level =? Z.of_nat (length (ma_partials acc))
      then ret (set_ma_partials acc (ma_partials acc ++ [Some val]))
      else if Z.of_nat (length (ma_partials acc)) <? level then panic "index out of range"
      else ret (set_ma_partials acc (<[Z.to_nat level := Some val]> (ma_partials acc)))
  end.

(** The loop of [Append]; every iteration but the last goes up one level. *)
Fixpoint Append_loop (n : nat) (acc : MerkleAccumulator) (size level : Z) (soFar : list Z)
  (events : list MerkleTreeNodeEvent) : M (list MerkleTreeNodeEvent * MerkleAccumulator) :=
  match n with
  | O => panic "unreachable"
  | S n =>
      if level =? CalcNumPartials (size -u64 1) then
        let* acc := MerkleAccumulator_setPartial acc level (BytesToHash soFar) in
        ret (events, acc)
      else
        let* (thisLevel, acc) := MerkleAccumulator_getPartial acc level in
        if thisLevel =? 0 then
          let* acc := MerkleAccumulator_setPartial acc level (BytesToHash soFar) in
          ret (events, acc)
        else
          let* soFar := MerkleAccumulator_Keccak acc [Hash_Bytes thisLevel; soFar] in
          let* acc := MerkleAccumulator_setPartial acc level 0 in
          let level := level +u64 1 in
          Append_loop n acc size level soFar
            (events ++ [mkMerkleTreeNodeEvent level (size -u64 1) (BytesToHash soFar)])
  end.

(** There are at most 64 partials, so 65 iterations are enough. *)
Definition MerkleAccumulator_Append (acc : MerkleAccumulator) (itemHash : Z)
  : M (list MerkleTreeNodeEvent * MerkleAccumulator) :=
  let* (size, w) := Wrapped_Increment (ma_size acc) in
  Append_loop 65 (set_ma_size acc w) size 0 (Hash_Bytes (keccak256 (Hash_Bytes itemHash))) [].

Definition MerkleAccumulator_Size (acc : MerkleAccumulator) : M Z := Wrapped_Get (ma_size acc).

(** The inner loop [for capacityInHash < capacity]. *)
Fixpoint Root_pad_loop (n : nat) (acc : MerkleAccumulator) (hashSoFar capacityInHash capacity : Z)
  : M (Z * Z) :=
  match n with
  | O => ret (hashSoFar, capacityInHash)
  | S n =>
      if capacityInHash <? capacity then
        let* h := MerkleAccumulator_KeccakHash acc [Hash_Bytes hashSoFar; repeat 0 32] in
        Root_pad_loop n acc h (capacityInHash *u64 2) capacity
      else ret (hashSoFar, capacityInHash)
  end.

(** The outer loop, [n] levels left. *)
Fixpoint Root_loop (n : nat) (acc : MerkleAccumulator) (level : Z) (hashSoFar : option Z)
  (capacityInHash capacity : Z) : M (option Z * MerkleAccumulator) :=
  match n with
  | O => ret (hashSoFar, acc)
  | S n =>
      let* (partial, acc) := MerkleAccumulator_getPartial acc level in
      if negb (partial =? 0) then
        match hashSoFar with
        | None => Root_loop n acc (level +u64 1) (Some partial) capacity (capacity *u64 2)
        | Some h =>
            let* (h, _) := Root_pad_loop 64 acc h capacityInHash capacity in
            let* h := MerkleAccumulator_KeccakHash acc [Hash_Bytes partial; Hash_Bytes h] in
            Root_loop n acc (level +u64 1) (Some h) (2 *u64 capacity) (capacity *u64 2)
        end
      else Root_loop n acc (level +u64 1) hashSoFar capacityInHash (capacity *u64 2)
  end.

Definition MerkleAccumulator_Root (acc : MerkleAccumulator) : M (Z * MerkleAccumulator) :=
  let* size := Wrapped_Get (ma_size acc) in
  if size =? 0 then ret (0, acc)
  else
    let* (hashSoFar, acc) := Root_loop (Z.to_nat (CalcNumPartials size)) acc 0 None 0 1 in
    match hashSoFar with
    | Some h => ret (h, acc)
    | None => panic "nil pointer dereference"
    end.

Definition MerkleAccumulator_StateForExport (acc : MerkleAccumulator)
  : M (Z * Z * list Z * MerkleAccumulator) :=
  let* (root, acc) := MerkleAccumulator_Root acc in
  let* size := Wrapped_Get (ma_size acc) in
  let* (partials, acc) := getPartials_loop (Z.to_nat (CalcNumPartials size)) acc 0 in
  ret (size, root, partials, acc).

(** Append a list of items; the events of all of them. *)
Fixpoint Append_all (acc : MerkleAccumulator) (items : list Z)
  : M (list MerkleTreeNodeEvent * MerkleAccumulator) :=
  match items with
  | [] => ret ([], acc)
  | item :: items =>
      let* (evs, acc) := MerkleAccumulator_Append acc item in
      let* (evs', acc) := Append_all acc items in
      ret (evs ++ evs', acc)
  end.
End Operations.

Section Facts.
Context {E : Env} {EL : EnvLaws E}.

(** The accumulator [acc] on the database [d] has the size [n] and the
    partials [ps]. *)
Definition acc_at (acc : MerkleAccumulator) (d : DB) (n : Z) (ps : list Z) : Prop :=
  (length ps <= 64)%nat /\
  match acc with
  | mkMerkleAccumulator (Some s) (WrappedStorage x) _ =>
      collision_free (pages (uint_keys (sto_storageKey s))) /\ x = skey s 0 /\ slot_get d x = n /\
      forall i p, ps !! i = Some p -> slot_get d (skey s (2 + Z.of_nat i)) = p
  | mkMerkleAccumulator None (WrappedMemory m) partials =>
      mbu_contents m = n /\ map (default 0) partials = ps
  | _ => False
  end.

Ltac acc_cases acc H :=
  destruct acc as [[s|] [x|m] partials]; cbv beta iota in H; try contradiction.

Lemma Wrapped_Get_runs acc d n ps : acc_at acc d n ps -> in_u 64 n ->
  runs 800 (Wrapped_Get (ma_size acc)) d (Ok n) d.
Proof.
  intros [_ H] Hn. acc_cases acc H; cbn [ma_size Wrapped_Get].
  - destruct H as (_ & _ & <- & _). apply StorageBackedUint64_Get_runs, Hn.
  - destruct H as [<- _]. eapply runs_le; [apply runs_ret|lia].
Qed.

Lemma Wrapped_Increment_runs acc d n ps : acc_at acc d n ps -> 0 <= n < 2 ^ 64 - 1 ->
  exists w d', runs 20800 (Wrapped_Increment (ma_size acc)) d (Ok (n + 1, w)) d' /\
    acc_at (set_ma_size acc w) d' (n + 1) ps.
Proof.
  intros [Hl H] Hn. acc_cases acc H; cbn [ma_size Wrapped_Increment set_ma_size].
  - destruct H as (NC & -> & <- & Hp).
    exists (WrappedStorage (skey s 0)), (slot_set d (skey s 0) (slot_get d (skey s 0) + 1)). split.
    + change 20800 with (20800 + 0).
      eapply runs_bind; [apply StorageBackedUint64_Increment_runs, Hn|apply runs_ret].
    + split; [exact Hl|]. cbn. split; [exact NC|]. split; [reflexivity|]. split; [apply slot_get_set_eq|].
      intros i p Hi. pose proof (lookup_lt_Some _ _ _ Hi).
      rewrite slot_get_set_ne by (apply skey_uint_ne; auto; uint). auto.
  - destruct H as [<- Hp]. exists (WrappedMemory (mkMemoryBackedUint64 (mbu_contents m + 1))), d.
    unfold MemoryBackedUint64_Increment, MemoryBackedUint64_Set. rewrite uwrap_id by uint.
    destruct (Z.ltb_spec (mbu_contents m + 1) (mbu_contents m)); [lia|]. split.
    + apply (runs_le (0 + 0)); [|lia]. eapply runs_bind; [apply runs_lift|apply runs_ret].
    + split; [exact Hl|]. cbn. auto.
Qed.

Lemma getPartial_runs acc d n ps i p : acc_at acc d n ps -> ps !! i = Some p ->
  exists acc', runs 800 (MerkleAccumulator_getPartial acc (Z.of_nat i)) d (Ok (p, acc')) d /\
    acc_at acc' d n ps.
Proof.
  intros [Hl H] Hi. pose proof (lookup_lt_Some _ _ _ Hi) as Hlt. unfold MerkleAccumulator_getPartial.
  acc_cases acc H; cbn [ma_backingStorage ma_partials].
  - destruct H as (NC & Hx & Hn & Hp). exists (mkMerkleAccumulator (Some s) (WrappedStorage x) partials).
    split; [|split; [exact Hl|auto]].
    rewrite uwrap_id by uint. change 800 with (800 + 0).
    eapply runs_bind; [apply Storage_GetByUint64_runs; uint|]. rewrite (Hp i p Hi). apply runs_ret.
  - destruct H as [Hn <-]. rewrite Nat2Z.id. rewrite list_lookup_fmap in Hi.
    destruct (partials !! i) as [[h|]|] eqn:Hpi; cbn in Hi; [..|discriminate]; injection Hi as <-.
    + eexists. split; [eapply runs_le; [apply runs_ret|lia]|]. split; [exact Hl|cbn; auto].
    + eexists. split; [eapply runs_le; [apply runs_ret|lia]|]. cbn [set_ma_partials ma_backingStorage ma_size].
      split; [exact Hl|]. cbn. split; [exact Hn|].
      change (@map (option Z) Z (default 0)) with (fmap (M := list) (A := option Z) (B := Z) (default 0)).
      rewrite list_fmap_insert. apply list_insert_id. rewrite list_lookup_fmap, Hpi. reflexivity.
Qed.

Lemma setPartial_runs acc d n pre p ps v : acc_at acc d n (pre ++ p :: ps) ->
  exists acc' d', runs 20000 (MerkleAccumulator_setPartial acc (Z.of_nat (length pre)) v) d (Ok acc') d' /\
    acc_at acc' d' n (pre ++ v :: ps).
Proof.
  intros [Hl H]. assert (length (pre ++ v :: ps) = length (pre ++ p :: ps)) as Hlen
    by (rewrite !length_app; reflexivity).
  assert (<[length pre := v]> (pre ++ p :: ps) = pre ++ v :: ps) as Hins
    by (rewrite insert_app_r_alt, Nat.sub_diag by lia; reflexivity).
  assert (length pre < 64)%nat by (rewrite length_app in Hl; cbn in Hl; lia).
  unfold MerkleAccumulator_setPartial. acc_cases acc H; cbn [ma_backingStorage ma_partials].
  - destruct H as (NC & -> & Hn & Hp).
    exists (mkMerkleAccumulator (Some s) (WrappedStorage (skey s 0)) partials).
    exists (slot_set d (skey s (2 + Z.of_nat (length pre))) v). split; [|split; [lia|]].
    + rewrite uwrap_id by uint. change 20000 with (20000 + 0).
      eapply runs_bind; [apply Storage_SetByUint64_runs; uint|apply runs_ret].
    + split; [exact NC|]. split; [reflexivity|].
      split; [rewrite slot_get_set_ne by (apply skey_uint_ne; auto; uint); exact Hn|].
      rewrite <- Hins. intros i q Hi. pose proof (lookup_lt_Some _ _ _ Hi) as Hlt. rewrite length_insert in Hlt.
      destruct (decide (i = length pre)) as [->|Hne].
      * rewrite list_lookup_insert_eq in Hi by exact Hlt. injection Hi as <-. apply slot_get_set_eq.
      * rewrite list_lookup_insert_ne in Hi by auto.
        rewrite slot_get_set_ne by (apply skey_uint_ne; auto; uint). auto.
  - destruct H as [Hn Hp]. assert (length partials = length (pre ++ p :: ps)) as Hpl
      by (rewrite <- Hp, length_map; reflexivity).
    rewrite length_app in Hpl. cbn [length] in Hpl. rewrite Nat2Z.id.
    destruct (Z.eqb_spec (Z.of_nat (length pre)) (Z.of_nat (length partials))); [lia|].
    destruct (Z.ltb_spec (Z.of_nat (length partials)) (Z.of_nat (length pre))); [lia|].
    do 2 eexists. split; [eapply runs_le; [apply runs_ret|lia]|]. split; [lia|].
    cbn [set_ma_partials ma_backingStorage ma_size]. split; [exact Hn|].
    change (@map (option Z) Z (default 0)) with (fmap (M := list) (A := option Z) (B := Z) (default 0)) in *.
    rewrite list_fmap_insert, Hp. exact Hins.
Qed.

Lemma setPartial_snoc_runs acc d n ps v : acc_at acc d n ps -> (length ps < 64)%nat ->
  exists acc' d', runs 20000 (MerkleAccumulator_setPartial acc (Z.of_nat (length ps)) v) d (Ok acc') d' /\
    acc_at acc' d' n (ps ++ [v]).
Proof.
  intros [Hl H] Hlt. assert (length (ps ++ [v]) <= 64)%nat by (rewrite length_app; cbn; lia).
  unfold MerkleAccumulator_setPartial. acc_cases acc H; cbn [ma_backingStorage ma_partials].
  - destruct H as (NC & -> & Hn & Hp).
    exists (mkMerkleAccumulator (Some s) (WrappedStorage (skey s 0)) partials).
    exists (slot_set d (skey s (2 + Z.of_nat (length ps))) v). split; [|split; [lia|]].
    + rewrite uwrap_id by uint. change 20000 with (20000 + 0).
      eapply runs_bind; [apply Storage_SetByUint64_runs; uint|apply runs_ret].
    + split; [exact NC|]. split; [reflexivity|].
      split; [rewrite slot_get_set_ne by (apply skey_uint_ne; auto; uint); exact Hn|].
      intros i q [[Hi' Hi]|[-> <-]]%lookup_snoc_Some; [|apply slot_get_set_eq].
      rewrite slot_get_set_ne by (apply skey_uint_ne; auto; uint). auto.
  - destruct H as [Hn <-]. rewrite length_map, Z.eqb_refl.
    do 2 eexists. split; [eapply runs_le; [apply runs_ret|lia]|]. split; [lia|].
    cbn [set_ma_partials ma_backingStorage ma_size]. split; [exact Hn|]. rewrite map_app. reflexivity.
Qed.

Lemma length_node_input l r : Z.of_nat (length (concat [Hash_Bytes l; Hash_Bytes r])) = 64.
Proof. cbn [concat]. rewrite !length_app, !length_Hash_Bytes. reflexivity. Qed.

Lemma Keccak_runs acc l r d :
  runs 42 (MerkleAccumulator_Keccak acc [Hash_Bytes l; Hash_Bytes r]) d (Ok (Hash_Bytes (node l r))) d.
Proof.
  pose proof (length_node_input l r) as Hlen. unfold MerkleAccumulator_Keccak, node.
  replace (Hash_Bytes l ++ Hash_Bytes r) with (concat [Hash_Bytes l; Hash_Bytes r])
    by (cbn [concat]; rewrite app_nil_r; reflexivity).
  destruct (ma_backingStorage acc); [|eapply runs_le; [apply runs_ret|lia]].
  apply Storage_Keccak_runs; rewrite Hlen; reflexivity.
Qed.

Lemma KeccakHash_runs acc l r d :
  runs 42 (MerkleAccumulator_KeccakHash acc [Hash_Bytes l; Hash_Bytes r]) d (Ok (node l r)) d.
Proof.
  pose proof (length_node_input l r) as Hlen. unfold MerkleAccumulator_KeccakHash, node.
  replace (Hash_Bytes l ++ Hash_Bytes r) with (concat [Hash_Bytes l; Hash_Bytes r])
    by (cbn [concat]; rewrite app_nil_r; reflexivity).
  destruct (ma_backingStorage acc); [|eapply runs_le; [apply runs_ret|lia]].
  apply Storage_KeccakHash_runs; rewrite Hlen; reflexivity.
Qed.

(** The events of the nodes that a push creates. *)
Definition node_events (n : Z) (ns : list (Z * Z)) : list MerkleTreeNodeEvent :=
  map (fun '(lev, h) => mkMerkleTreeNodeEvent lev (n - 1) h) ns.

Lemma node_range l r : in_u 256 (node l r).
Proof. apply keccak256_range. Qed.

Lemma Append_loop_runs fuel : forall acc d n pre ps h evs,
  acc_at acc d n (pre ++ ps) -> in_u 256 h -> 1 <= n < 2 ^ 64 ->
  CalcNumPartials (n - 1) = Z.of_nat (length (pre ++ ps)) -> (length ps < fuel)%nat ->
  (length (pre ++ push ps h) <= 64)%nat ->
  exists acc' d', runs (20842 * Z.of_nat (length ps) + 20800)
      (Append_loop fuel acc n (Z.of_nat (length pre)) (Hash_Bytes h) evs) d
      (Ok (evs ++ node_events n (push_nodes (Z.of_nat (length pre)) ps h), acc')) d' /\
    acc_at acc' d' n (pre ++ push ps h).
Proof.
  induction fuel as [|fuel IH]; intros acc d n pre ps h evs H Hh Hn Hnum Hf H64; [lia|].
  cbn [Append_loop]. rewrite uwrap_id, Hnum, BytesToHash_bytes, length_app by (auto; uint).
  destruct ps as [|p ps]; cbn [push push_nodes length] in *.
  - rewrite app_nil_r in *. rewrite Nat.add_0_r, Z.eqb_refl. unfold node_events. cbn [map]. rewrite ?app_nil_r.
    rewrite length_app in H64. cbn in H64.
    destruct (setPartial_snoc_runs acc d n pre h H ltac:(lia)) as (acc' & d' & R & H').
    exists acc', d'. split; [|exact H']. apply (runs_le (20000 + 0)); [|lia].
    eapply runs_bind; [exact R|apply runs_ret].
  - destruct (Z.eqb_spec (Z.of_nat (length pre)) (Z.of_nat (length pre + S (length ps)))); [lia|].
    destruct (getPartial_runs acc d n _ (length pre) p H) as (acc1 & R1 & H1).
    { rewrite lookup_app_r, Nat.sub_diag by lia. reflexivity. }
    replace (20842 * Z.of_nat (S (length ps)) + 20800)
      with (800 + (42 + (20000 + (20842 * Z.of_nat (length ps) + 20800)))) by lia.
    destruct (Z.eqb_spec p 0) as [->|Hp].
    + destruct (setPartial_runs acc1 d n pre 0 ps h H1) as (acc' & d' & R & H').
      exists acc', d'. split; [|exact H']. eapply runs_bind; [exact R1|]. unfold node_events. cbn [map Z.eqb].
      rewrite app_nil_r.
      apply (runs_le (20000 + 0)); [|lia]. eapply runs_bind; [exact R|apply runs_ret].
    + destruct (setPartial_runs acc1 d n pre p ps 0 H1) as (acc2 & d2 & R2 & H2).
      replace (pre ++ 0 :: ps) with ((pre ++ [0]) ++ ps) in H2 by (rewrite <- app_assoc; reflexivity).
      assert (length (pre ++ [0]) = S (length pre)) as Hpre by (rewrite length_app; cbn; lia).
      destruct (IH acc2 d2 n (pre ++ [0]) ps (node p h)
        (evs ++ [mkMerkleTreeNodeEvent (Z.of_nat (length pre) + 1) (n - 1) (node p h)]) H2) as (acc' & d' & R & H').
      { apply node_range. } { exact Hn. } { rewrite Hnum, !length_app. cbn [length]. lia. } { lia. }
      { rewrite <- app_assoc. exact H64. }
      rewrite Hpre in R. replace (Z.of_nat (S (length pre))) with (Z.of_nat (length pre) + 1) in R by lia.
      rewrite <- !app_assoc in *. exists acc', d'. split; [|exact H'].
      eapply runs_bind; [exact R1|]. cbv beta iota. destruct (Z.eqb_spec p 0); [contradiction|].
      cbv beta iota.       eapply runs_bind; [apply Keccak_runs|]. eapply runs_bind; [exact R2|].
      rewrite uwrap_id by (rewrite length_app in H64; uint). rewrite BytesToHash_bytes by apply node_range.
      exact R.
Qed.

Lemma Hash_Bytes_0 : Hash_Bytes 0 = repeat 0 32.
Proof. vm_compute. reflexivity. Qed.

Lemma pow2_double_u64 c : (c < 63)%nat -> 2 ^ Z.of_nat c *u64 2 = 2 ^ Z.of_nat (S c).
Proof.
  intros Hc. rewrite Nat2Z.inj_succ, Z.pow_succ_r, Z.mul_comm by lia. apply uwrap_id. split; [lia|].
  rewrite <- Z.pow_succ_r by lia. apply Z.pow_lt_mono_r; lia.
Qed.

Lemma Root_pad_loop_runs acc d m : forall fuel c h, (m <= fuel)%nat -> (c + m <= 63)%nat ->
  runs (42 * Z.of_nat m) (Root_pad_loop fuel acc h (2 ^ Z.of_nat c) (2 ^ Z.of_nat (c + m))) d
    (Ok (pad m h, 2 ^ Z.of_nat (c + m))) d.
Proof.
  induction m as [|m IH]; intros fuel c h Hf Hc.
  - rewrite Nat.add_0_r. destruct fuel; cbn [Root_pad_loop pad]; [|rewrite Z.ltb_irrefl]; apply runs_ret.
  - destruct fuel as [|fuel]; [lia|]. cbn [Root_pad_loop pad].
    destruct (Z.ltb_spec (2 ^ Z.of_nat c) (2 ^ Z.of_nat (c + S m))) as [_|Hge].
    + replace (42 * Z.of_nat (S m)) with (42 + 42 * Z.of_nat m) by lia. rewrite <- Hash_Bytes_0.
      eapply runs_bind; [apply KeccakHash_runs|]. rewrite pow2_double_u64 by lia.
      replace (c + S m)%nat with (S c + m)%nat by lia. apply IH; lia.
    + exfalso. apply Z.pow_le_mono_r_iff in Hge; lia.
Qed.

(** The loop variables [hashSoFar] and [capacityInHash]. *)
Definition root_vars (o : option (Z * nat)) (cap : Z) : Prop :=
  match o with None => True | Some (_, c) => cap = 2 ^ Z.of_nat c end.

Lemma Root_loop_runs ps : forall acc d n pre o cap,
  acc_at acc d n (pre ++ ps) -> (length (pre ++ ps) <= 63)%nat ->
  root_vars o cap -> (forall h c, o = Some (h, c) -> (c <= length pre)%nat) ->
  exists acc', runs (3530 * Z.of_nat (length ps))
      (Root_loop (length ps) acc (Z.of_nat (length pre)) (fst <$> o) cap (2 ^ Z.of_nat (length pre))) d
      (Ok (combine (length pre) ps o, acc')) d /\ acc_at acc' d n (pre ++ ps).
Proof.
  induction ps as [|p ps IH]; intros acc d n pre o cap H H63 Hv Hc; cbn [Root_loop combine length].
  - exists acc. split; [apply runs_ret|exact H].
  - destruct (getPartial_runs acc d n _ (length pre) p H) as (acc1 & R1 & H1).
    { rewrite lookup_app_r, Nat.sub_diag by lia. reflexivity. }
    rewrite length_app in H63. cbn [length] in H63.
    replace (pre ++ p :: ps) with ((pre ++ [p]) ++ ps) in * by (rewrite <- app_assoc; reflexivity).
    assert (length (pre ++ [p]) = S (length pre)) as Hpre by (rewrite length_app; cbn; lia).
    assert (length ((pre ++ [p]) ++ ps) <= 63)%nat as H63' by (rewrite length_app; lia).
    replace (3530 * Z.of_nat (S (length ps))) with (800 + (2730 + 3530 * Z.of_nat (length ps))) by lia.
    assert (forall o' cap', root_vars o' cap' -> (forall h c, o' = Some (h, c) -> (c <= S (length pre))%nat) ->
      exists acc', runs (3530 * Z.of_nat (length ps)) (Root_loop (length ps) acc1 (Z.of_nat (length pre) +u64 1)
        (fst <$> o') cap' (2 ^ Z.of_nat (length pre) *u64 2)) d (Ok (combine (S (length pre)) ps o', acc')) d /\
        acc_at acc' d n ((pre ++ [p]) ++ ps)) as Hrec.
    { intros o' cap' Hv' Hc'. rewrite pow2_double_u64, uwrap_id by (uint || lia).
      replace (Z.of_nat (length pre) + 1) with (Z.of_nat (S (length pre))) by lia. rewrite <- Hpre in *.
      apply IH; auto. }
    destruct (Z.eqb_spec p 0) as [->|Hp].
    + destruct (Hrec o cap Hv) as (acc' & R & H'); [intros h c He; specialize (Hc h c He); lia|].
      exists acc'. split; [|exact H']. eapply runs_bind; [exact R1|]. eapply runs_le; [exact R|lia].
    + destruct o as [[h c]|].
      * destruct (Hrec (Some (node p (pad (length pre - c) h), S (length pre))) (2 ^ Z.of_nat (S (length pre))))
          as (acc' & R & H'); [reflexivity|intros ? ? [= <- <-]; lia|].
        exists acc'. split; [|exact H']. eapply runs_bind; [exact R1|]. cbv beta iota.
        destruct (Z.eqb_spec p 0); [contradiction|]. cbn [negb fmap option_fmap option_map fst].
        specialize (Hc h c eq_refl). cbn in Hv. subst cap.
        pose proof (Root_pad_loop_runs acc1 d (length pre - c) 64 c h ltac:(lia) ltac:(lia)) as Rp.
        replace (c + (length pre - c))%nat with (length pre) in Rp by lia.
        replace (2730 + 3530 * Z.of_nat (length ps)) with (2688 + (42 + 3530 * Z.of_nat (length ps))) by lia.
        eapply runs_bind; [eapply runs_le; [exact Rp|lia]|]. cbv beta iota.
        eapply runs_bind; [apply KeccakHash_runs|]. rewrite (Z.mul_comm 2), pow2_double_u64 by lia.
        rewrite pow2_double_u64 in R by lia. exact R.
      * destruct (Hrec (Some (p, length pre)) (2 ^ Z.of_nat (length pre))) as (acc' & R & H');
          [reflexivity|intros ? ? [= <- <-]; lia|].
        exists acc'. split; [|exact H']. eapply runs_bind; [exact R1|]. cbv beta iota.
        destruct (Z.eqb_spec p 0); [contradiction|]. eapply runs_le; [exact R|lia].
Qed.

Lemma getPartials_loop_runs ps : forall acc d n pre,
  acc_at acc d n (pre ++ ps) ->
  exists acc', runs (800 * Z.of_nat (length ps)) (getPartials_loop (length ps) acc (Z.of_nat (length pre))) d
      (Ok (ps, acc')) d /\ acc_at acc' d n (pre ++ ps).
Proof.
  induction ps as [|p ps IH]; intros acc d n pre H; cbn [getPartials_loop length].
  - exists acc. split; [apply runs_ret|exact H].
  - destruct (getPartial_runs acc d n _ (length pre) p H) as (acc1 & R1 & H1).
    { rewrite lookup_app_r, Nat.sub_diag by lia. reflexivity. }
    pose proof (proj1 H) as Hl. rewrite length_app in Hl. cbn [length] in Hl.
    replace (pre ++ p :: ps) with ((pre ++ [p]) ++ ps) in * by (rewrite <- app_assoc; reflexivity).
    destruct (IH acc1 d n (pre ++ [p]) H1) as (acc' & R & H'). exists acc'. split; [|exact H'].
    replace (800 * Z.of_nat (S (length ps))) with (800 + (800 * Z.of_nat (length ps) + 0)) by lia.
    eapply runs_bind; [exact R1|]. cbv beta iota. rewrite uwrap_id by uint.
    replace (Z.of_nat (length pre) + 1) with (Z.of_nat (length (pre ++ [p]))) by (rewrite length_app; cbn; lia).
    eapply runs_bind; [exact R|]. apply runs_ret.
Qed.

(** The accumulator holds the leaf hashes [l]. *)
Definition macc (acc : MerkleAccumulator) (d : DB) (l : list Z) : Prop :=
  exists ps, acc_at acc d (Z.of_nat (length l)) ps /\ rep 0 ps l.

Lemma rep_63 ps l : rep 0 ps l -> Z.of_nat (length l) < 2 ^ 63 -> (length ps <= 63)%nat.
Proof.
  intros Hr Hl. destruct ps as [|p ps]; [cbn; lia|].
  destruct (rep_length _ 0 l Hr ltac:(discriminate)) as [H1 _]. cbn [Nat.add] in H1.
  apply Nat2Z.inj_le in H1. rewrite pow2_nat_Z in H1.
  assert (Z.of_nat (length (p :: ps) - 1) < 63) by (apply (Z.pow_lt_mono_r_iff 2); lia). lia.
Qed.

Lemma macc_num acc d l : macc acc d l -> Z.of_nat (length l) < 2 ^ 63 ->
  exists ps, acc_at acc d (Z.of_nat (length l)) ps /\ rep 0 ps l /\
    CalcNumPartials (Z.of_nat (length l)) = Z.of_nat (length ps) /\ (length ps <= 63)%nat.
Proof.
  intros (ps & H & Hr) Hl. exists ps. split; [exact H|]. split; [exact Hr|].
  split; [apply (rep_bitlen ps l Hr); lia|]. eapply rep_63; eauto.
Qed.

Lemma nonzero_nodes_prefix l1 l2 : nonzero_nodes (l1 ++ l2) -> nonzero_nodes l1.
Proof.
  intros H i a b c He Hb. apply (H i a b (c ++ l2)); [|exact Hb]. rewrite He, <- !app_assoc. reflexivity.
Qed.

Definition append_gas : Z := 20800 + (20842 * 63 + 20800).

Lemma Append_runs acc d l item :
  macc acc d l -> Z.of_nat (length l) < 2 ^ 63 - 1 -> nonzero_nodes (l ++ [leaf item]) ->
  exists acc' d' ps,
    runs append_gas (MerkleAccumulator_Append acc item) d
      (Ok (node_events (Z.of_nat (length l) + 1) (push_nodes 0 ps (leaf item)), acc')) d' /\
    rep 0 ps l /\ macc acc' d' (l ++ [leaf item]).
Proof.
  intros H Hl Hnz. destruct (macc_num acc d l H ltac:(lia)) as (ps & Ha & Hr & Hnum & H63).
  destruct (Wrapped_Increment_runs acc d _ ps Ha ltac:(lia)) as (w & d1 & R1 & H1).
  assert (leaf item <> 0) as Hleaf by (apply (Hnz 0%nat l [leaf item] []); [rewrite app_nil_r|]; reflexivity).
  assert (rep 0 (push ps (leaf item)) (l ++ [leaf item])) as Hr'.
  { apply rep_push; auto. intros j a b He Hb. apply (Hnz j a b []); [rewrite app_nil_r|]; auto. }
  assert (length (push ps (leaf item)) <= 63)%nat as H63'
    by (eapply rep_63; [exact Hr'|rewrite length_app; cbn; lia]).
  destruct (Append_loop_runs 65 (set_ma_size acc w) d1 (Z.of_nat (length l) + 1) [] ps (leaf item) [] H1)
    as (acc' & d' & R & H'); [apply keccak256_range|lia|..|lia|cbn; lia|].
  { replace (Z.of_nat (length l) + 1 - 1) with (Z.of_nat (length l)) by lia. exact Hnum. }
  exists acc', d', ps. split; [|split; [exact Hr|]].
  - eapply runs_bind; [exact R1|]. eapply runs_le; [exact R|lia].
  - exists (push ps (leaf item)). split; [|exact Hr']. rewrite length_app. cbn [length].
    rewrite Nat2Z.inj_add. exact H'.
Qed.

Lemma Append_all_runs items : forall acc d l,
  macc acc d l -> Z.of_nat (length l + length items) < 2 ^ 63 -> nonzero_nodes (l ++ map leaf items) ->
  exists evs acc' d', runs (append_gas * Z.of_nat (length items)) (Append_all acc items) d (Ok (evs, acc')) d' /\
    macc acc' d' (l ++ map leaf items).
Proof.
  induction items as [|item items IH]; intros acc d l H Hl Hnz; cbn [Append_all map length] in *.
  - exists [], acc, d. rewrite app_nil_r. split; [apply runs_ret|exact H].
  - replace (l ++ leaf item :: map leaf items) with ((l ++ [leaf item]) ++ map leaf items) in *
      by (rewrite <- app_assoc; reflexivity).
    destruct (Append_runs acc d l item H ltac:(lia) (nonzero_nodes_prefix _ _ Hnz))
      as (acc1 & d1 & ps & R1 & _ & H1).
    destruct (IH acc1 d1 _ H1) as (evs & acc' & d' & R & H'); [rewrite length_app; cbn; lia|exact Hnz|].
    do 3 eexists. split; [|exact H'].
    replace (append_gas * Z.of_nat (S (length items)))
      with (append_gas + (append_gas * Z.of_nat (length items) + 0)) by lia.
    eapply runs_bind; [exact R1|]. eapply runs_bind; [exact R|]. apply runs_ret.
Qed.

Lemma Root_runs acc d l : macc acc d l -> Z.of_nat (length l) < 2 ^ 63 ->
  exists acc', runs (800 + 3530 * 63) (MerkleAccumulator_Root acc) d (Ok (merkle_root l, acc')) d /\
    macc acc' d l.
Proof.
  intros H Hl. destruct (macc_num acc d l H Hl) as (ps & Ha & Hr & Hnum & H63).
  pose proof (Wrapped_Get_runs acc d _ ps Ha ltac:(uint)) as RG. unfold MerkleAccumulator_Root.
  destruct (Z.eqb_spec (Z.of_nat (length l)) 0) as [He|Hne].
  - exists acc. split; [|exact H]. eapply runs_bind; [exact RG|]. rewrite He. cbn [Z.eqb].
    destruct l; [|discriminate]. eapply runs_le; [apply runs_ret|lia].
  - destruct (Root_loop_runs ps acc d _ [] None 0 Ha H63 I ltac:(discriminate)) as (acc' & R & H').
    cbn [length] in R. rewrite (combine_merkle_root ps l Hr) in R by (intros ->; cbn in Hne; lia).
    exists acc'. split; [|exists ps; auto]. eapply runs_bind; [exact RG|].
    destruct (Z.eqb_spec (Z.of_nat (length l)) 0); [contradiction|]. rewrite Hnum, Nat2Z.id.
    apply (runs_le (3530 * Z.of_nat (length ps) + 0)); [|lia]. eapply runs_bind; [exact R|]. apply runs_ret.
Qed.

Lemma GetPartials_runs acc d l : macc acc d l -> Z.of_nat (length l) < 2 ^ 63 ->
  exists ps acc', runs (800 + 800 * 63) (MerkleAccumulator_GetPartials acc) d (Ok (ps, acc')) d /\
    rep 0 ps l /\ macc acc' d l.
Proof.
  intros H Hl. destruct (macc_num acc d l H Hl) as (ps & Ha & Hr & Hnum & H63).
  destruct (getPartials_loop_runs ps acc d _ [] Ha) as (acc' & R & H'). exists ps, acc'.
  split; [|split; [exact Hr|exists ps; auto]].
  eapply runs_bind; [eapply Wrapped_Get_runs; [exact Ha|uint]|]. rewrite Hnum, Nat2Z.id.
  eapply runs_le; [exact R|lia].
Qed.

(** An in-memory accumulator with the partials of [l]. *)
Lemma macc_memory d ps l : rep 0 ps l -> Z.of_nat (length l) < 2 ^ 63 ->
  macc (mkMerkleAccumulator None (WrappedMemory (mkMemoryBackedUint64 (Z.of_nat (length l)))) (map Some ps)) d l.
Proof.
  intros Hr Hl. exists ps. split; [|exact Hr]. split; [pose proof (rep_63 ps l Hr Hl); lia|].
  cbn. split; [reflexivity|]. rewrite map_map. apply map_id.
Qed.

Lemma NonPersistentClone_runs acc d l : macc acc d l -> Z.of_nat (length l) < 2 ^ 63 ->
  exists clone acc', runs (800 + 800 * 63) (MerkleAccumulator_NonPersistentClone acc) d (Ok (clone, acc')) d /\
    ma_backingStorage clone = None /\ (forall d', macc clone d' l) /\ macc acc' d l.
Proof.
  intros H Hl. destruct (macc_num acc d l H Hl) as (ps & Ha & Hr & Hnum & H63).
  destruct (getPartials_loop_runs ps acc d _ [] Ha) as (acc' & R & H').
  eexists (mkMerkleAccumulator None (WrappedMemory (mkMemoryBackedUint64 (Z.of_nat (length l)))) (map Some ps)), acc'.
  split; [|split; [reflexivity|split; [intros d'; apply (macc_memory d' ps l Hr Hl)|exists ps; auto]]].
  eapply runs_bind; [eapply Wrapped_Get_runs; [exact Ha|uint]|]. cbv zeta. rewrite Hnum, Nat2Z.id.
  apply (runs_le (800 * Z.of_nat (length ps) + 0)); [|lia]. eapply runs_bind; [exact R|]. apply runs_ret.
Qed.

Lemma FromPartials_loop_size ps : forall i l size,
  rep i ps l -> (i + length ps <= 63)%nat -> 0 <= size -> size + Z.of_nat (length l) < 2 ^ 64 ->
  FromPartials_loop (map Some ps) size (2 ^ Z.of_nat i) = Ok (size + Z.of_nat (length l)).
Proof.
  induction ps as [|p ps IH]; intros i l size Hr Hi Hs Hmax; cbn [rep map FromPartials_loop length] in *.
  - subst l. cbn. f_equal. lia.
  - destruct Hr as [_ (l1 & l2 & -> & Hr & Hp)]. rewrite length_app in *.
    rewrite pow2_double_u64 by lia. destruct (Z.eqb_spec p 0) as [->|Hne]; cbn [negb].
    + destruct Hp as [[_ ->]|[? _]]; [|congruence]. cbn [length] in *. rewrite (IH (S i) l1) by (auto; lia).
      f_equal. lia.
    + destruct Hp as [[? _]|(_ & Hl2 & _)]; [congruence|]. rewrite Hl2, Nat2Z.inj_add, pow2_nat_Z in *.
      pose proof (pow2_pos (Z.of_nat i) ltac:(lia)). rewrite uwrap_id by uint.
      rewrite (IH (S i) l1) by (auto; lia). f_equal. lia.
Qed.

Lemma FromPartials_macc ps l d : rep 0 ps l -> Z.of_nat (length l) < 2 ^ 63 ->
  exists acc, NewNonpersistentMerkleAccumulatorFromPartials (map Some ps) = Ok acc /\ macc acc d l.
Proof.
  intros Hr Hl. unfold NewNonpersistentMerkleAccumulatorFromPartials.
  pose proof (FromPartials_loop_size ps 0 l 0 Hr (rep_63 ps l Hr Hl) ltac:(lia) ltac:(lia)) as HS.
  change (2 ^ Z.of_nat 0) with 1 in HS. rewrite HS.
  eexists. split; [reflexivity|]. apply (macc_memory d ps l Hr Hl).
Qed.

Lemma macc_open s d : collision_free (pages (uint_keys (sto_storageKey s))) ->
  slot_get d (skey s 0) = 0 -> macc (OpenMerkleAccumulator s) d [].
Proof.
  intros NC H0. exists []. split; [|reflexivity]. split; [cbn; lia|]. cbn.
  split; [exact NC|]. split; [apply NewSlot_skey; uint|].
  split; [unfold OpenStorageBackedUint64; rewrite NewSlot_skey by uint; exact H0|discriminate].
Qed.

Lemma macc_new d : macc NewNonpersistentMerkleAccumulator d [].
Proof. exists []. split; [|reflexivity]. split; [cbn; lia|]. cbn. auto. Qed.
End Facts.

(** ** Properties *)

#[local] Existing Instance TestEnv.

(** An accumulator without leaves: a storage space whose size is zero, or a
    new in-memory accumulator. *)
Definition empty_accumulator {E : Env} (acc : MerkleAccumulator) (d : DB) : Prop :=
  acc = NewNonpersistentMerkleAccumulator \/
  exists s, acc = OpenMerkleAccumulator s /\ collision_free (pages (uint_keys (sto_storageKey s))) /\
    slot_get d (skey s 0) = 0.

Lemma macc_empty {E : Env} {EL : EnvLaws E} acc d : empty_accumulator acc d -> macc acc d [].
Proof. intros [->|(s & -> & NC & H0)]; [apply macc_new|apply macc_open; auto]. Qed.

(** C14: for the accumulator in storage and for the one in memory alike, the
    root after appending any items is the root of the Merkle tree over the
    hashed items with absent subtrees hashed as zero, and the size is their
    number, provided no node of the tree hashes to zero. *)
Theorem MerkleAccumulator_root {E : Env} {EL : EnvLaws E} (acc : MerkleAccumulator) (d : DB)
  (items : list Z) :
  empty_accumulator acc d -> Z.of_nat (length items) < 2 ^ 63 -> nonzero_nodes (map leaf items) ->
  exists evs acc' d' acc'',
    runs (append_gas * Z.of_nat (length items)) (Append_all acc items) d (Ok (evs, acc')) d' /\
    runs 800 (MerkleAccumulator_Size acc') d' (Ok (Z.of_nat (length items))) d' /\
    runs (800 + 3530 * 63) (MerkleAccumulator_Root acc') d' (Ok (merkle_root (map leaf items), acc'')) d'.
Proof.
  intros H Hl Hnz. destruct (Append_all_runs items acc d [] (macc_empty acc d H) Hl Hnz) as (evs & acc' & d' & R & H').
  cbn [app] in H'. assert (Z.of_nat (length (map leaf items)) < 2 ^ 63) as Hl' by (rewrite length_map; exact Hl).
  destruct (Root_runs acc' d' _ H' Hl') as (acc'' & Rr & _). exists evs, acc', d', acc''.
  split; [exact R|]. split; [|exact Rr]. destruct H' as (ps & Ha & _). rewrite length_map in Ha.
  eapply Wrapped_Get_runs; [exact Ha|uint].
Qed.

Lemma test_nonzero_nodes items : nonzero_nodes (map (leaf (E := TestEnv)) items).
Proof.
  intros i l1 l2 l3 He Hl. destruct l2 as [|h l2]; [pose proof (pow2_nat_pos i); cbn in Hl; lia|].
  destruct i as [|i]; cbn [mroot]; [|apply digest_nonzero].
  assert (h ∈ map (leaf (E := TestEnv)) items) as Hin
    by (rewrite He; apply elem_of_app; right; left).
  apply list_elem_of_In, in_map_iff in Hin as (x & <- & _). apply digest_nonzero.
Qed.

Lemma MerkleAccumulator_root_witness :
  let acc := OpenMerkleAccumulator (mkStorage 1 [7] false) in
  exists evs acc' d' acc'',
    runs (append_gas * 3) (Append_all acc [5; 6; 7]) test_db (Ok (evs, acc')) d' /\
    runs 800 (MerkleAccumulator_Size acc') d' (Ok 3) d' /\
    runs (800 + 3530 * 63) (MerkleAccumulator_Root acc') d'
      (Ok (node (node (leaf 5) (leaf 6)) (node (leaf 7) 0), acc'')) d'.
Proof.
  apply (MerkleAccumulator_root (OpenMerkleAccumulator (mkStorage 1 [7] false)) test_db [5; 6; 7]).
  - right. eexists. split; [reflexivity|]. split; [apply test_uint_keys|reflexivity].
  - reflexivity.
  - apply test_nonzero_nodes.
Defined.

(** A non-persistent clone of an accumulator, and the accumulator rebuilt
    from its partials, have the size and the root of the original. *)
Theorem MerkleAccumulator_clone_and_partials {E : Env} {EL : EnvLaws E} (acc : MerkleAccumulator)
  (d : DB) (items : list Z) :
  empty_accumulator acc d -> Z.of_nat (length items) < 2 ^ 63 -> nonzero_nodes (map leaf items) ->
  exists evs acc1 d1 clone acc2 ps acc3 rebuilt,
    runs (append_gas * Z.of_nat (length items)) (Append_all acc items) d (Ok (evs, acc1)) d1 /\
    runs (800 + 800 * 63) (MerkleAccumulator_NonPersistentClone acc1) d1 (Ok (clone, acc2)) d1 /\
    runs (800 + 800 * 63) (MerkleAccumulator_GetPartials acc1) d1 (Ok (ps, acc3)) d1 /\
    NewNonpersistentMerkleAccumulatorFromPartials (map Some ps) = Ok rebuilt /\
    forall d' acc', In acc' [clone; rebuilt] ->
      ma_backingStorage acc' = None /\
      runs 800 (MerkleAccumulator_Size acc') d' (Ok (Z.of_nat (length items))) d' /\
      exists acc'', runs (800 + 3530 * 63) (MerkleAccumulator_Root acc') d'
        (Ok (merkle_root (map leaf items), acc'')) d'.
Proof.
  intros H Hl Hnz. destruct (Append_all_runs items acc d [] (macc_empty acc d H) Hl Hnz) as (evs & acc1 & d1 & R & H1).
  cbn [app] in H1. assert (Z.of_nat (length (map leaf items)) < 2 ^ 63) as Hl' by (rewrite length_map; exact Hl).
  destruct (NonPersistentClone_runs acc1 d1 _ H1 Hl') as (clone & acc2 & R2 & Hnone & Hc & _).
  destruct (GetPartials_runs acc1 d1 _ H1 Hl') as (ps & acc3 & R3 & Hr & _).
  destruct (FromPartials_macc ps _ d1 Hr Hl') as (rebuilt & Hreb & _).
  exists evs, acc1, d1, clone, acc2, ps, acc3, rebuilt. do 4 (split; [assumption|]).
  intros d' acc' Hin. assert (macc acc' d' (map leaf items) /\ ma_backingStorage acc' = None) as [Hm Hb].
  { destruct Hin as [<-|[<-|[]]]; [auto|]. destruct (FromPartials_macc ps _ d' Hr Hl') as (r & Hr' & Hm).
    rewrite Hreb in Hr'. injection Hr' as <-. split; [exact Hm|].
    unfold NewNonpersistentMerkleAccumulatorFromPartials in Hreb.
    destruct (FromPartials_loop _ _ _); [|discriminate..]. injection Hreb as <-. reflexivity. }
  split; [exact Hb|]. destruct (Root_runs acc' d' _ Hm Hl') as (acc'' & Rr & _). split; [|eauto].
  destruct Hm as (ps' & Ha & _). rewrite length_map in Ha. eapply Wrapped_Get_runs; [exact Ha|uint].
Qed.

Lemma MerkleAccumulator_clone_and_partials_witness :
  exists evs acc1 d1 clone acc2,
    runs (append_gas * 3) (Append_all NewNonpersistentMerkleAccumulator [5; 6; 7]) test_db (Ok (evs, acc1)) d1 /\
    runs (800 + 800 * 63) (MerkleAccumulator_NonPersistentClone acc1) d1 (Ok (clone, acc2)) d1 /\
    exists acc'', runs (800 + 3530 * 63) (MerkleAccumulator_Root clone) test_db
      (Ok (node (node (leaf 5) (leaf 6)) (node (leaf 7) 0), acc'')) test_db.
Proof.
  destruct (MerkleAccumulator_clone_and_partials NewNonpersistentMerkleAccumulator test_db [5; 6; 7])
    as (evs & acc1 & d1 & clone & acc2 & ps & acc3 & rebuilt & H1 & H2 & _ & _ & H3).
  - left. reflexivity.
  - reflexivity.
  - apply test_nonzero_nodes.
  - exists evs, acc1, d1, clone, acc2. split; [exact H1|]. split; [exact H2|].
    apply (H3 test_db clone). left. reflexivity.
Defined.

(** each event of [Append] carries the index of the new leaf and the root
    of the complete subtree of [2 ^ Level] leaves that ends at it. *)
Theorem MerkleAccumulator_append_events {E : Env} {EL : EnvLaws E} (acc : MerkleAccumulator) (d : DB)
  (l : list Z) (item : Z) :
  macc acc d l -> Z.of_nat (length l) < 2 ^ 63 - 1 -> nonzero_nodes (l ++ [leaf item]) ->
  exists evs acc' d',
    runs append_gas (MerkleAccumulator_Append acc item) d (Ok (evs, acc')) d' /\
    macc acc' d' (l ++ [leaf item]) /\
    forall e, In e evs ->
      Event_NumLeaves e = Z.of_nat (length l) /\
      exists level l1 l2, Event_Level e = Z.of_nat level /\ l ++ [leaf item] = l1 ++ l2 /\
        length l2 = (2 ^ level)%nat /\ Event_Hash e = mroot level l2.
Proof.
  intros H Hl Hnz. destruct (Append_runs acc d l item H Hl Hnz) as (acc' & d' & ps & R & Hr & H').
  do 3 eexists. split; [exact R|]. split; [exact H'|]. intros e He.
  unfold node_events in He. apply in_map_iff in He as ([lev x] & <- & Hin). cbn [Event_NumLeaves Event_Level Event_Hash].
  split; [lia|]. destruct (push_nodes_spec ps 0 l [leaf item] (leaf item) Hr eq_refl eq_refl lev x Hin)
    as (j & l1 & l2 & ? & _ & ? & ? & ?). exists j, l1, l2. auto.
Qed.

Lemma MerkleAccumulator_append_events_witness :
  exists evs acc' d',
    runs append_gas (MerkleAccumulator_Append NewNonpersistentMerkleAccumulator 5) test_db (Ok (evs, acc')) d' /\
    macc acc' d' [leaf 5].
Proof.
  destruct (MerkleAccumulator_append_events NewNonpersistentMerkleAccumulator test_db [] 5)
    as (evs & acc' & d' & H1 & H2 & _).
  - apply macc_new.
  - reflexivity.
  - apply (test_nonzero_nodes [5]).
  - exists evs, acc', d'. split; [exact H1|exact H2].
Defined.
