(* ===== verification/L2Pricing.v ===== *)
(** * arbos/l2pricing: the L2 gas price

    [L2PricingState] is seven cells of a storage space (l2pricing.go);
    [UpdatePricingModel] (model.go) pays off the gas backlog and sets the base
    fee from what is left of it. *)
From Stdlib Require Import ZArith Lia String List.
From stdpp Require Import base list numbers.
From S2P Require Import Prelude Arbmath Host Storage StorageFacts MemEnv.
Open Scope Z_scope.

Record L2PricingState := mkL2PricingState {
  l2_storage : Storage;
  l2_speedLimitPerSecond : StorageSlot;
  l2_perBlockGasLimit : StorageSlot;
  l2_baseFeeWei : StorageSlot;
  l2_minBaseFeeWei : StorageSlot;
  l2_gasBacklog : StorageSlot;
  l2_pricingInertia : StorageSlot;
  l2_backlogTolerance : StorageSlot
}.

Definition speedLimitPerSecondOffset : Z := 0.
Definition perBlockGasLimitOffset : Z := 1.
Definition baseFeeWeiOffset : Z := 2.
Definition minBaseFeeWeiOffset : Z := 3.
Definition gasBacklogOffset : Z := 4.
Definition pricingInertiaOffset : Z := 5.
Definition backlogToleranceOffset : Z := 6.

Definition GethBlockGasLimit : Z := Z.shiftl 1 50.

Definition InitialSpeedLimitPerSecondV0 : Z := 1000000.
Definition InitialPerBlockGasLimitV0 : Z := 20 * 1000000.
Definition InitialSpeedLimitPerSecondV6 : Z := 7000000.
Definition InitialPerBlockGasLimitV6 : Z := 32 * 1000000.
Definition InitialMinimumBaseFeeWei : Z := 1000000000 / 10.
Definition InitialBaseFeeWei : Z := InitialMinimumBaseFeeWei.
Definition InitialPricingInertia : Z := 102.
Definition InitialBacklogTolerance : Z := 10.

Section Operations.
Context {E : Env}.

Definition InitializeL2PricingState (sto : Storage) : M unit :=
  ignore (Storage_SetUint64ByUint64 sto speedLimitPerSecondOffset InitialSpeedLimitPerSecondV0) ;;;
  ignore (Storage_SetUint64ByUint64 sto perBlockGasLimitOffset InitialPerBlockGasLimitV0) ;;;
  ignore (Storage_SetUint64ByUint64 sto baseFeeWeiOffset InitialBaseFeeWei) ;;;
  ignore (Storage_SetUint64ByUint64 sto gasBacklogOffset 0) ;;;
  ignore (Storage_SetUint64ByUint64 sto pricingInertiaOffset InitialPricingInertia) ;;;
  ignore (Storage_SetUint64ByUint64 sto backlogToleranceOffset InitialBacklogTolerance) ;;;
  Storage_SetUint64ByUint64 sto minBaseFeeWeiOffset InitialMinimumBaseFeeWei.

Definition OpenL2PricingState (sto : Storage) : L2PricingState :=
  mkL2PricingState sto
    (OpenStorageBackedUint64 sto speedLimitPerSecondOffset)
    (OpenStorageBackedUint64 sto perBlockGasLimitOffset)
    (OpenStorageBackedBigUint sto baseFeeWeiOffset)
    (OpenStorageBackedBigUint sto minBaseFeeWeiOffset)
    (OpenStorageBackedUint64 sto gasBacklogOffset)
    (OpenStorageBackedUint64 sto pricingInertiaOffset)
    (OpenStorageBackedUint64 sto backlogToleranceOffset).

Definition BaseFeeWei (ps : L2PricingState) : M Z := StorageBackedBigUint_Get (l2_baseFeeWei ps).
Definition SetBaseFeeWei (ps : L2PricingState) (val : Z) : M unit :=
  StorageBackedBigUint_SetSaturatingWithWarning (l2_baseFeeWei ps) val.
Definition MinBaseFeeWei (ps : L2PricingState) : M Z := StorageBackedBigUint_Get (l2_minBaseFeeWei ps).
Definition SetMinBaseFeeWei (ps : L2PricingState) (val : Z) : M unit :=
  StorageBackedBigUint_SetChecked (l2_minBaseFeeWei ps) val.
Definition SpeedLimitPerSecond (ps : L2PricingState) : M Z :=
  StorageBackedUint64_Get (l2_speedLimitPerSecond ps).
Definition SetSpeedLimitPerSecond (ps : L2PricingState) (limit : Z) : M unit :=
  StorageBackedUint64_Set (l2_speedLimitPerSecond ps) limit.
Definition PerBlockGasLimit (ps : L2PricingState) : M Z := StorageBackedUint64_Get (l2_perBlockGasLimit ps).
Definition SetMaxPerBlockGasLimit (ps : L2PricingState) (limit : Z) : M unit :=
  StorageBackedUint64_Set (l2_perBlockGasLimit ps) limit.
Definition GasBacklog (ps : L2PricingState) : M Z := StorageBackedUint64_Get (l2_gasBacklog ps).
Definition SetGasBacklog (ps : L2PricingState) (backlog : Z) : M unit :=
  StorageBackedUint64_Set (l2_gasBacklog ps) backlog.
Definition PricingInertia (ps : L2PricingState) : M Z := StorageBackedUint64_Get (l2_pricingInertia ps).
Definition SetPricingInertia (ps : L2PricingState) (val : Z) : M unit :=
  StorageBackedUint64_Set (l2_pricingInertia ps) val.
Definition BacklogTolerance (ps : L2PricingState) : M Z := StorageBackedUint64_Get (l2_backlogTolerance ps).
Definition SetBacklogTolerance (ps : L2PricingState) (val : Z) : M unit :=
  StorageBackedUint64_Set (l2_backlogTolerance ps) val.
Definition L2PricingState_Restrict (ps : L2PricingState) (err : option error) : M unit := restrict err.

Definition AddToGasPool (ps : L2PricingState) (gas : Z) : M unit :=
  let* backlog := GasBacklog ps in
  let backlog := SaturatingUCast 64 64 (SaturatingSub (i64 backlog) gas) in
  SetGasBacklog ps backlog.

(** A failed read of the minimum leaves a nil [big.Int], which panics when it
    is used. *)
Definition UpdatePricingModel (ps : L2PricingState) (l2BaseFee timePassed : Z) (debug : bool) : M unit :=
  let* speedLimit := value_or 0 (SpeedLimitPerSecond ps) in
  ignore (AddToGasPool ps (i64 (timePassed *u64 speedLimit))) ;;;
  let* inertia := value_or 0 (PricingInertia ps) in
  let* tolerance := value_or 0 (BacklogTolerance ps) in
  let* backlog := value_or 0 (GasBacklog ps) in
  let* minBaseFee := attempt (MinBaseFeeWei ps) in
  match minBaseFee with
  | Ok minBaseFee =>
      let* baseFee :=
        if (tolerance *u64 speedLimit) <? backlog then
          let excess := i64 (backlog -u64 (tolerance *u64 speedLimit)) in
          let* exponentBips := lift (go_quot 64 (NaturalToBips excess) (i64 (inertia *u64 speedLimit))) in
          let* e := lift (ApproxExpBasisPoints exponentBips 4) in
          lift (BigMulByBips minBaseFee e)
        else ret minBaseFee in
      ignore (SetBaseFeeWei ps baseFee)
  | _ => panic "nil pointer dereference"
  end.
End Operations.

(** ** The price as a function of the backlog *)

Definition l2_price (minFee speed inertia tolerance backlog : Z) : Z :=
  if tolerance * speed <? backlog
  then minFee * exp_bips (10000 * (backlog - tolerance * speed) / (inertia * speed)) 4 / 10000
  else minFee.

Lemma l2_price_ge_min minFee speed inertia tolerance backlog :
  0 <= minFee -> 0 < speed -> 0 < inertia -> 10000 * (backlog - tolerance * speed) < 2 ^ 63 ->
  minFee <= l2_price minFee speed inertia tolerance backlog.
Proof.
  intros Hm Hs Hi Hb. unfold l2_price. destruct (Z.ltb_spec (tolerance * speed) backlog); [|lia].
  set (x := 10000 * (backlog - tolerance * speed)) in *. assert (0 < inertia * speed) by nia.
  assert (0 <= x / (inertia * speed) <= x) by (split; [apply Z.div_pos|apply Z.div_le_upper_bound]; nia).
  pose proof (exp_bips_bounds (x / (inertia * speed)) 4 ltac:(lia) ltac:(lia)).
  apply Z.div_le_lower_bound; nia.
Qed.

Lemma l2_price_mono minFee speed inertia tolerance b b' :
  0 <= minFee -> 0 < speed -> 0 < inertia -> b <= b' -> 10000 * (b' - tolerance * speed) < 2 ^ 63 ->
  l2_price minFee speed inertia tolerance b <= l2_price minFee speed inertia tolerance b'.
Proof.
  intros Hm Hs Hi Hb Hmax. unfold l2_price at 1.
  destruct (Z.ltb_spec (tolerance * speed) b); [|apply l2_price_ge_min; auto].
  unfold l2_price. destruct (Z.ltb_spec (tolerance * speed) b'); [|lia].
  apply Z.div_le_mono; [lia|]. apply Z.mul_le_mono_nonneg_l; [lia|]. apply exp_bips_mono; [|lia].
  assert (0 < inertia * speed) by nia. split; [apply Z.div_pos; lia|]. apply Z.div_le_mono; lia.
Qed.

Section Facts.
Context {E : Env} {EL : EnvLaws E} (s : Storage).
Hypothesis NC : collision_free (pages (uint_keys (sto_storageKey s))).
Notation ps := (OpenL2PricingState s).

(** The parameters and the backlog in the space. *)
Record l2_at (d : DB) (speed minFee backlog inertia tolerance : Z) : Prop := {
  l2a_speed : slot_get d (skey s 0) = speed;
  l2a_min : slot_get d (skey s 3) = minFee;
  l2a_backlog : slot_get d (skey s 4) = backlog;
  l2a_inertia : slot_get d (skey s 5) = inertia;
  l2a_tolerance : slot_get d (skey s 6) = tolerance;
  l2a_range : in_u 64 speed /\ in_u 256 minFee /\ in_u 64 backlog /\ in_u 64 inertia /\ in_u 64 tolerance
}.

Lemma l2_slots :
  l2_speedLimitPerSecond ps = skey s 0 /\ l2_baseFeeWei ps = skey s 2 /\ l2_minBaseFeeWei ps = skey s 3 /\
  l2_gasBacklog ps = skey s 4 /\ l2_pricingInertia ps = skey s 5 /\ l2_backlogTolerance ps = skey s 6.
Proof. repeat split; apply NewSlot_skey; unfold in_u; cbv; split; congruence. Qed.

(** The backlog after [gas] units were added to the pool. *)
Definition paid_backlog (backlog gas : Z) : Z := SaturatingUCast 64 64 (SaturatingSub (i64 backlog) gas).

Lemma paid_backlog_exact backlog gas :
  0 <= backlog < 2 ^ 63 -> - 2 ^ 63 < gas < 2 ^ 63 -> backlog - gas < 2 ^ 63 ->
  paid_backlog backlog gas = Z.max 0 (backlog - gas).
Proof.
  intros Hb Hg Hd. unfold paid_backlog. rewrite (swrap_id 64 backlog) by (unfold in_s; lia).
  rewrite SaturatingSub_exact by (unfold in_s; lia). apply SaturatingUCast_max; [lia|unfold in_s; lia].
Qed.

Lemma AddToGasPool_runs d backlog gas :
  slot_get d (skey s 4) = backlog -> in_u 64 backlog -> in_u 64 (paid_backlog backlog gas) ->
  runs 20800 (AddToGasPool ps gas) d (Ok tt) (slot_set d (skey s 4) (paid_backlog backlog gas)).
Proof.
  intros Hb Hr Hp. destruct l2_slots as (_ & _ & _ & Hs & _). unfold AddToGasPool, GasBacklog, SetGasBacklog.
  rewrite Hs. change 20800 with (800 + 20000).
  eapply runs_bind; [apply StorageBackedUint64_Get_runs; rewrite Hb; exact Hr|]. rewrite Hb.
  apply StorageBackedUint64_Set_runs, Hp.
Qed.

Lemma SaturatingUCast_range v : in_u 64 (SaturatingUCast 64 64 v).
Proof.
  unfold SaturatingUCast. rewrite Z.ltb_irrefl. cbn [andb]. destruct (v <=? 0); [uint|apply u64_range].
Qed.

Lemma paid_backlog_range backlog gas : in_u 64 (paid_backlog backlog gas).
Proof. apply SaturatingUCast_range. Qed.

Lemma AddToGasPool_at d speed minFee backlog inertia tolerance gas :
  l2_at d speed minFee backlog inertia tolerance ->
  let b := paid_backlog backlog gas in
  runs 20800 (AddToGasPool ps gas) d (Ok tt) (slot_set d (skey s 4) b) /\
  l2_at (slot_set d (skey s 4) b) speed minFee b inertia tolerance.
Proof.
  intros [H0 H3 H4 H5 H6 (R0 & R3 & R4 & R5 & R6)] b. pose proof (paid_backlog_range backlog gas) as Rb.
  split; [apply AddToGasPool_runs; auto|].
  split; try (rewrite slot_get_set_ne by (apply skey_uint_ne; auto; uint); assumption).
  - apply slot_get_set_eq.
  - auto.
Qed.

(** The outcome of the price computation for the paid backlog [b]. *)
Definition price_outcome (speed minFee b inertia tolerance : Z) : outcome Z :=
  if (tolerance *u64 speed) <? b then
    let excess := i64 (b -u64 (tolerance *u64 speed)) in
    let? exponentBips := go_quot 64 (NaturalToBips excess) (i64 (inertia *u64 speed)) in
    let? e := ApproxExpBasisPoints exponentBips 4 in
    BigMulByBips minFee e
  else Ok minFee.

Lemma UpdatePricingModel_runs d speed minFee backlog inertia tolerance fee0 timePassed debug fee :
  l2_at d speed minFee backlog inertia tolerance ->
  let b := paid_backlog backlog (i64 (timePassed *u64 speed)) in
  price_outcome speed minFee b inertia tolerance = Ok fee -> 0 <= fee ->
  exists d', runs 44800 (UpdatePricingModel ps fee0 timePassed debug) d (Ok tt) d' /\
    slot_get d' (skey s 2) = Z.min fee (2 ^ 256 - 1) /\ l2_at d' speed minFee b inertia tolerance.
Proof.
  intros H b Hfee Hpos. destruct l2_slots as (S0 & S2 & S3 & S4 & S5 & S6).
  destruct (AddToGasPool_at d _ _ _ _ _ (i64 (timePassed *u64 speed)) H) as [RA HA]. fold b in RA, HA.
  set (d1 := slot_set d (skey s 4) b) in *.
  pose proof (l2a_range _ _ _ _ _ _ H) as (R0 & R3 & R4 & R5 & R6).
  pose proof (paid_backlog_range backlog (i64 (timePassed *u64 speed))) as Rb. fold b in Rb.
  destruct H as [H0 _ _ _ _ _]. destruct HA as [A0 A3 A4 A5 A6 _].
  exists (slot_set d1 (skey s 2) (Z.min fee (2 ^ 256 - 1))). split; [|split; [apply slot_get_set_eq|]].
  - unfold UpdatePricingModel, SpeedLimitPerSecond, PricingInertia, BacklogTolerance, GasBacklog, MinBaseFeeWei.
    rewrite S0, S3, S4, S5, S6. change 44800 with (800 + (20800 + (800 + (800 + (800 + (800 + (0 + 20000))))))).
    eapply runs_bind; [apply runs_value_or, StorageBackedUint64_Get_runs; rewrite H0; exact R0|]. rewrite H0.
    eapply runs_bind; [eapply runs_ignore, RA|].
    eapply runs_bind; [apply runs_value_or, StorageBackedUint64_Get_runs; rewrite A5; exact R5|]. rewrite A5.
    eapply runs_bind; [apply runs_value_or, StorageBackedUint64_Get_runs; rewrite A6; exact R6|]. rewrite A6.
    eapply runs_bind; [apply runs_value_or, StorageBackedUint64_Get_runs; rewrite A4; exact Rb|]. rewrite A4.
    eapply runs_bind; [apply runs_attempt_ok, StorageSlot_Get_runs|]. rewrite A3. cbv beta iota.
    eapply runs_bind with (a := fee) (d1 := d1).
    + unfold price_outcome in Hfee. cbv zeta in Hfee |- *. destruct (_ <? b); [|injection Hfee as <-; apply runs_ret].
      destruct (go_quot _ _ _) as [x|?|?]; [|discriminate..]. cbn [obind] in Hfee.
      destruct (ApproxExpBasisPoints x 4) as [e|?|?] eqn:He; [|discriminate..]. cbn [obind] in Hfee.
      change 0 with (0 + (0 + 0)). eapply runs_bind; [apply runs_lift|]. rewrite He.
      eapply runs_bind; [apply runs_lift|]. rewrite Hfee. apply runs_lift.
    + unfold SetBaseFeeWei. rewrite S2. eapply runs_ignore.
      replace (Z.min fee (2 ^ 256 - 1)) with (clamp 0 (2 ^ 256 - 1) fee) by (unfold clamp; lia).
      apply StorageBackedBigUint_SetSaturating_runs.
  - split; try (rewrite slot_get_set_ne by (apply skey_uint_ne; auto; uint); assumption). auto.
Qed.

(** Without overflow the outcome is the price. *)
Lemma price_outcome_exact speed minFee b inertia tolerance :
  0 < speed -> 0 < inertia -> 0 <= tolerance -> 0 <= minFee ->
  inertia * speed < 2 ^ 63 -> tolerance * speed < 2 ^ 63 -> 0 <= b < 2 ^ 63 ->
  10000 * (b - tolerance * speed) < 2 ^ 63 ->
  price_outcome speed minFee b inertia tolerance = Ok (l2_price minFee speed inertia tolerance b).
Proof.
  intros Hs Hi Ht Hm His Hts Hb Hmax. unfold price_outcome, l2_price.
  rewrite (uwrap_id 64 (tolerance * speed)), (uwrap_id 64 (inertia * speed)) by (unfold in_u; nia).
  destruct (Z.ltb_spec (tolerance * speed) b); [|reflexivity]. cbv zeta.
  rewrite uwrap_id, !swrap_id by (lia || unfold in_u, in_s; nia).
  unfold NaturalToBips, OneInBips. rewrite SaturatingMul_exact by (unfold in_s; lia).
  assert (0 < inertia * speed) by nia. set (x := 10000 * (b - tolerance * speed)) in *.
  replace ((b - tolerance * speed) * 10000) with x by lia.
  assert (0 <= x / (inertia * speed) <= x) by (split; [apply Z.div_pos|apply Z.div_le_upper_bound]; nia).
  rewrite go_quot_ok by lia. rewrite Z.quot_div_nonneg, swrap_id by (lia || unfold in_s; lia). cbn [obind].
  rewrite ApproxExpBasisPoints_nonneg by lia. cbn [obind]. unfold BigMulByBips, BigMulByFrac, OneInBips.
  apply big_div_pos. lia.
Qed.

(** When the excess in bips exceeds [int64], the exponent is zero. *)
Lemma price_outcome_overflow speed minFee b inertia tolerance :
  0 < speed -> 0 < inertia -> 0 <= tolerance -> 0 <= minFee ->
  1 < inertia * speed < 2 ^ 63 -> tolerance * speed < 2 ^ 63 -> 0 <= b < 2 ^ 63 ->
  2 ^ 63 <= 10000 * (b - tolerance * speed) ->
  price_outcome speed minFee b inertia tolerance = Ok minFee.
Proof.
  intros Hs Hi Ht Hm His Hts Hb Hmax. unfold price_outcome.
  rewrite (uwrap_id 64 (tolerance * speed)), (uwrap_id 64 (inertia * speed)) by (unfold in_u; nia).
  destruct (Z.ltb_spec (tolerance * speed) b); [|reflexivity]. cbv zeta.
  rewrite uwrap_id, !swrap_id by (lia || unfold in_u, in_s; nia).
  unfold NaturalToBips, OneInBips. rewrite SaturatingMul_overflow by (unfold in_s; lia).
  destruct (Z.ltb_spec 0 ((b - tolerance * speed) * 10000)); [|lia].
  rewrite go_quot_ok by lia. replace (Z.quot (-1) (inertia * speed)) with 0.
  2: { symmetry. change (-1) with (- (1)). rewrite Z.quot_opp_l, Z.quot_small by lia. reflexivity. }
  cbn [obind]. change (swrap 64 0) with 0. change (ApproxExpBasisPoints 0 4) with (@Ok Z 10000). cbn [obind].
  unfold BigMulByBips, BigMulByFrac, OneInBips. rewrite big_div_pos, Z.div_mul by lia. reflexivity.
Qed.
End Facts.

(** ** Properties *)

#[local] Existing Instance TestEnv.

(** The parameters for which no intermediate product overflows. *)
Definition l2_sane (speed backlog inertia tolerance timePassed : Z) : Prop :=
  0 < speed /\ 0 < inertia /\ inertia * speed < 2 ^ 63 /\ tolerance * speed < 2 ^ 63 /\
  0 <= timePassed /\ timePassed * speed < 2 ^ 63 /\ backlog < 2 ^ 63.

Lemma paid_backlog_sane speed backlog inertia tolerance timePassed :
  l2_sane speed backlog inertia tolerance timePassed -> in_u 64 backlog ->
  paid_backlog backlog (i64 (timePassed *u64 speed)) = Z.max 0 (backlog - timePassed * speed).
Proof.
  intros (Hs & Hi & His & Hts & Ht & Htp & Hb) [Hb0 _]. assert (0 <= timePassed * speed) by nia.
  rewrite uwrap_id, swrap_id by (lia || unfold in_u, in_s; lia). apply paid_backlog_exact; lia.
Qed.

Lemma UpdatePricingModel_sane {E : Env} {EL : EnvLaws E} (s : Storage) d speed minFee backlog inertia
  tolerance fee0 timePassed debug :
  collision_free (pages (uint_keys (sto_storageKey s))) ->
  l2_at s d speed minFee backlog inertia tolerance ->
  l2_sane speed backlog inertia tolerance timePassed ->
  let b := Z.max 0 (backlog - timePassed * speed) in
  10000 * (b - tolerance * speed) < 2 ^ 63 ->
  exists d', runs 44800 (UpdatePricingModel (OpenL2PricingState s) fee0 timePassed debug) d (Ok tt) d' /\
    slot_get d' (skey s 2) = Z.min (l2_price minFee speed inertia tolerance b) (2 ^ 256 - 1) /\
    l2_at s d' speed minFee b inertia tolerance.
Proof.
  intros NC H Hs b Hmax. pose proof (l2a_range _ _ _ _ _ _ _ H) as (R0 & R3 & R4 & R5 & R6).
  pose proof (paid_backlog_sane _ _ _ _ _ Hs R4) as Hp. destruct Hs as (Hs & Hi & His & Hts & Ht & Htp & Hb).
  assert (0 <= b < 2 ^ 63) by (subst b; unfold in_u in R4; nia).
  destruct (UpdatePricingModel_runs s NC d _ _ _ _ _ fee0 timePassed debug
    (l2_price minFee speed inertia tolerance b) H) as (d' & R & Q & H').
  - rewrite Hp. apply price_outcome_exact; unfold in_u in *; auto; lia.
  - pose proof (l2_price_ge_min minFee speed inertia tolerance b). unfold in_u in R3. lia.
  - exists d'. rewrite Hp in H'. auto.
Qed.

(** C29: [UpdatePricingModel] first pays [timePassed * speedLimit] off the
    backlog, down to zero, and then sets the base fee to the price of the rest:
    the minimum base fee as long as the backlog is within the tolerance, and
    the minimum times the approximate exponential of the excess beyond it; the
    base fee is never below the minimum. *)
Theorem UpdatePricingModel_price {E : Env} {EL : EnvLaws E} (s : Storage) (d : DB)
  (speed minFee backlog inertia tolerance fee0 timePassed : Z) (debug : bool) :
  collision_free (pages (uint_keys (sto_storageKey s))) ->
  l2_at s d speed minFee backlog inertia tolerance ->
  l2_sane speed backlog inertia tolerance timePassed ->
  let b := Z.max 0 (backlog - timePassed * speed) in
  10000 * (b - tolerance * speed) < 2 ^ 63 ->
  let ps := OpenL2PricingState s in
  exists d' fee,
    runs 44800 (UpdatePricingModel ps fee0 timePassed debug) d (Ok tt) d' /\
    runs 800 (GasBacklog ps) d' (Ok b) d' /\
    runs 800 (BaseFeeWei ps) d' (Ok fee) d' /\
    fee = Z.min (l2_price minFee speed inertia tolerance b) (2 ^ 256 - 1) /\
    minFee <= fee /\ (b <= tolerance * speed -> fee = minFee).
Proof.
  intros NC H Hs b Hmax ps.
  destruct (UpdatePricingModel_sane s d _ _ _ _ _ fee0 timePassed debug NC H Hs Hmax) as (d' & R & Q & H').
  fold b in Q, H'. destruct (l2_slots s) as (_ & S2 & _ & S4 & _).
  pose proof (l2a_range _ _ _ _ _ _ _ H) as (_ & [R3 R3'] & _). destruct Hs as (Hs & Hi & _).
  pose proof (l2_price_ge_min minFee speed inertia tolerance b R3 Hs Hi Hmax).
  do 2 eexists. split; [exact R|]. split; [|split; [|split; [reflexivity|split; [lia|]]]].
  - unfold ps, GasBacklog. rewrite S4. rewrite <- (l2a_backlog _ _ _ _ _ _ _ H').
    apply StorageBackedUint64_Get_runs. rewrite (l2a_backlog _ _ _ _ _ _ _ H').
    apply (l2a_range _ _ _ _ _ _ _ H').
  - unfold ps, BaseFeeWei, StorageBackedBigUint_Get. rewrite S2, <- Q. apply StorageSlot_Get_runs.
  - intros Hle. unfold l2_price. destruct (Z.ltb_spec (tolerance * speed) b); lia.
Qed.

Definition l2_example (backlog : Z) : @DB TestEnv :=
  let s := mkStorage 1 [7] false in
  let put d k v := slot_set d (skey s k) v in
  put (put (put (put (put test_db 0 7000000) 3 100000000) 4 backlog) 5 102) 6 10.

Lemma l2_example_at backlog : in_u 64 backlog ->
  l2_at (mkStorage 1 [7] false) (l2_example backlog) 7000000 100000000 backlog 102 10.
Proof.
  intros Hb. assert (collision_free (pages (uint_keys (sto_storageKey (mkStorage 1 [7] false))))) as NC
    by apply test_uint_keys.
  unfold l2_example. split; repeat rewrite slot_get_set_ne by (apply skey_uint_ne; auto; uint);
    rewrite ?slot_get_set_eq; try reflexivity. unfold in_u in *. lia.
Qed.

Lemma UpdatePricingModel_price_witness :
  let ps := OpenL2PricingState (mkStorage 1 [7] false) in
  exists d' fee,
    runs 44800 (UpdatePricingModel ps 0 1 false) (l2_example 800000000) (Ok tt) d' /\
    runs 800 (GasBacklog ps) d' (Ok 793000000) d' /\ runs 800 (BaseFeeWei ps) d' (Ok fee) d' /\
    fee = 274200000.
Proof.
  destruct (UpdatePricingModel_price (mkStorage 1 [7] false) (l2_example 800000000)
    7000000 100000000 800000000 102 10 0 1 false) as (d' & fee & H1 & H2 & H3 & H4 & _).
  - apply test_uint_keys.
  - apply l2_example_at. unfold in_u. lia.
  - unfold l2_sane. lia.
  - lia.
  - exists d', fee. split; [exact H1|]. split; [exact H2|]. split; [exact H3|]. rewrite H4. vm_compute. reflexivity.
Defined.

(** The base fee grows with the backlog: of two states with the same
    parameters, the one with the larger backlog gets a base fee at least as
    high. *)
Theorem UpdatePricingModel_monotone {E : Env} {EL : EnvLaws E} (s : Storage) (d1 d2 : DB)
  (speed minFee b1 b2 inertia tolerance fee0 timePassed : Z) (debug : bool) :
  collision_free (pages (uint_keys (sto_storageKey s))) ->
  l2_at s d1 speed minFee b1 inertia tolerance -> l2_at s d2 speed minFee b2 inertia tolerance ->
  b1 <= b2 -> l2_sane speed b2 inertia tolerance timePassed ->
  10000 * (Z.max 0 (b2 - timePassed * speed) - tolerance * speed) < 2 ^ 63 ->
  let ps := OpenL2PricingState s in
  exists d1' d2' fee1 fee2,
    runs 44800 (UpdatePricingModel ps fee0 timePassed debug) d1 (Ok tt) d1' /\
    runs 44800 (UpdatePricingModel ps fee0 timePassed debug) d2 (Ok tt) d2' /\
    runs 800 (BaseFeeWei ps) d1' (Ok fee1) d1' /\ runs 800 (BaseFeeWei ps) d2' (Ok fee2) d2' /\
    fee1 <= fee2.
Proof.
  intros NC H1 H2 Hb Hs Hmax ps.
  assert (l2_sane speed b1 inertia tolerance timePassed) as Hs1 by (unfold l2_sane in *; lia).
  destruct (UpdatePricingModel_sane s d1 _ _ _ _ _ fee0 timePassed debug NC H1 Hs1) as (d1' & R1 & Q1 & _); [lia|].
  destruct (UpdatePricingModel_sane s d2 _ _ _ _ _ fee0 timePassed debug NC H2 Hs Hmax) as (d2' & R2 & Q2 & _).
  destruct (l2_slots s) as (_ & S2 & _). exists d1', d2'. do 2 eexists. split; [exact R1|]. split; [exact R2|].
  unfold ps, BaseFeeWei, StorageBackedBigUint_Get. rewrite S2.
  split; [apply StorageSlot_Get_runs|]. split; [apply StorageSlot_Get_runs|]. rewrite Q1, Q2.
  pose proof (l2a_range _ _ _ _ _ _ _ H1) as (_ & [R3 _] & _). destruct Hs as (Hs & Hi & _).
  apply Z.min_le_compat_r, l2_price_mono; auto; lia.
Qed.

Lemma UpdatePricingModel_monotone_witness :
  let ps := OpenL2PricingState (mkStorage 1 [7] false) in
  exists d1' d2' fee1 fee2,
    runs 44800 (UpdatePricingModel ps 0 1 false) (l2_example 400000000) (Ok tt) d1' /\
    runs 44800 (UpdatePricingModel ps 0 1 false) (l2_example 800000000) (Ok tt) d2' /\
    runs 800 (BaseFeeWei ps) d1' (Ok fee1) d1' /\ runs 800 (BaseFeeWei ps) d2' (Ok fee2) d2' /\
    fee1 <= fee2.
Proof.
  apply (UpdatePricingModel_monotone (mkStorage 1 [7] false) (l2_example 400000000) (l2_example 800000000)
    7000000 100000000 400000000 800000000 102 10 0 1 false).
  - apply test_uint_keys.
  - apply l2_example_at. unfold in_u. lia.
  - apply l2_example_at. unfold in_u. lia.
  - lia.
  - unfold l2_sane. lia.
  - lia.
Defined.

(** C40: a backlog so large that its excess, in basis points, exceeds [int64]
    does not give the highest price: the overflow makes the exponent zero and
    the base fee falls back to the minimum. *)
Theorem UpdatePricingModel_excess_overflow {E : Env} {EL : EnvLaws E} (s : Storage) (d : DB)
  (speed minFee backlog inertia tolerance fee0 timePassed : Z) (debug : bool) :
  collision_free (pages (uint_keys (sto_storageKey s))) ->
  l2_at s d speed minFee backlog inertia tolerance ->
  l2_sane speed backlog inertia tolerance timePassed -> 1 < inertia * speed ->
  2 ^ 63 <= 10000 * (Z.max 0 (backlog - timePassed * speed) - tolerance * speed) ->
  exists d', runs 44800 (UpdatePricingModel (OpenL2PricingState s) fee0 timePassed debug) d (Ok tt) d' /\
    runs 800 (BaseFeeWei (OpenL2PricingState s)) d' (Ok minFee) d'.
Proof.
  intros NC H Hs Hi1 Hmax. pose proof (l2a_range _ _ _ _ _ _ _ H) as (R0 & R3 & R4 & R5 & R6).
  pose proof (paid_backlog_sane _ _ _ _ _ Hs R4) as Hp. destruct Hs as (Hs & Hi & His & Hts & Ht & Htp & Hb).
  assert (0 <= timePassed * speed) by nia.
  destruct (UpdatePricingModel_runs s NC d _ _ _ _ _ fee0 timePassed debug minFee H) as (d' & R & Q & H').
  - rewrite Hp. apply price_outcome_overflow; unfold in_u in *; auto; lia.
  - unfold in_u in R3. lia.
  - exists d'. split; [exact R|]. destruct (l2_slots s) as (_ & S2 & _).
    unfold BaseFeeWei, StorageBackedBigUint_Get. rewrite S2. unfold in_u in R3. rewrite Z.min_l in Q by lia.
    rewrite <- Q. apply StorageSlot_Get_runs.
Qed.

Lemma UpdatePricingModel_excess_overflow_witness :
  exists d', runs 44800 (UpdatePricingModel (OpenL2PricingState (mkStorage 1 [7] false)) 0 1 false)
      (l2_example (2 ^ 62)) (Ok tt) d' /\
    runs 800 (BaseFeeWei (OpenL2PricingState (mkStorage 1 [7] false))) d' (Ok 100000000) d'.
Proof.
  apply (UpdatePricingModel_excess_overflow (mkStorage 1 [7] false) (l2_example (2 ^ 62))
    7000000 100000000 (2 ^ 62) 102 10 0 1 false).
  - apply test_uint_keys.
  - apply l2_example_at. unfold in_u. lia.
  - unfold l2_sane. lia.
  - lia.
  - lia.
Defined.

(** [AddToGasPool] of a negative amount (gas that was used) adds it to the
    backlog as long as the sum fits [int64]; beyond that the backlog is not
    clipped to the maximum but reset to zero. *)
Theorem AddToGasPool_backlog {E : Env} {EL : EnvLaws E} (s : Storage) (d : DB) (gas : Z) :
  let backlog := slot_get d (skey s 4) in
  0 <= backlog < 2 ^ 63 -> - 2 ^ 63 < gas < 2 ^ 63 ->
  runs 20800 (AddToGasPool (OpenL2PricingState s) gas) d (Ok tt)
    (slot_set d (skey s 4) (if backlog - gas <? 2 ^ 63 then Z.max 0 (backlog - gas) else 0)).
Proof.
  intros backlog Hb Hg.
  replace (if backlog - gas <? 2 ^ 63 then Z.max 0 (backlog - gas) else 0) with (paid_backlog backlog gas).
  - apply AddToGasPool_runs; [reflexivity|unfold in_u; lia|apply paid_backlog_range].
  - destruct (Z.ltb_spec (backlog - gas) (2 ^ 63)); [apply paid_backlog_exact; lia|].
    unfold paid_backlog, SaturatingSub. rewrite !swrap_id by (lia || unfold in_s; lia).
    rewrite SaturatingAdd_overflow by (unfold in_s; lia). reflexivity.
Qed.

Lemma AddToGasPool_backlog_witness :
  exists d',
    runs 20800 (AddToGasPool (OpenL2PricingState (mkStorage 1 [7] false)) (- 2 ^ 62)) (l2_example (2 ^ 62)) (Ok tt) d' /\
    slot_get d' (skey (mkStorage 1 [7] false) 4) = 0.
Proof.
  eexists. split.
  - apply (AddToGasPool_backlog (mkStorage 1 [7] false) (l2_example (2 ^ 62)) (- 2 ^ 62)).
    + vm_compute. split; congruence.
    + lia.
  - rewrite slot_get_set_eq. vm_compute. reflexivity.
Defined.
