(* ===== verification/Transfer.v ===== *)
(** * arbos/util/transfer.go: balance changes outside of a call *)
From Stdlib Require Import ZArith Lia String List.
From stdpp Require Import base list numbers.
From S2P Require Import Prelude Arbmath Host Storage StorageFacts MemEnv.
Open Scope Z_scope.

(** arbos/util/tracing.go *)
Inductive TracingScenario := TracingBeforeEVM | TracingDuringEVM | TracingAfterEVM.

#[export] Instance TracingScenario_eq_dec : EqDecision TracingScenario.
Proof. solve_decision. Defined.

(** What the code reads of the EVM: whether a tracer is configured, and the
    call depth. The calls to the tracer do not change the state. *)
Record EVM := mkEVM { evm_tracer : bool; evm_depth : Z }.

Section Operations.
Context {E : Env}.

Definition TransferBalance (from to : option Z) (amount : Z) (evm : EVM)
  (scenario : TracingScenario) (purpose : string) : M unit :=
  if amount <? 0 then panic "Tried to transfer negative amount"
  else
    (match from with
     | Some a =>
         let* balance := db_read (fun d => GetBalance d a) in
         if BigLessThan balance amount then fail ErrInsufficientBalance
         else db_write (fun d => SubBalance d a amount)
     | None => ret tt
     end) ;;;
    (match to with
     | Some a => db_write (fun d => AddBalance d a amount)
     | None => ret tt
     end) ;;;
    if evm_tracer evm && negb (evm_depth evm =? 0) && negb (bool_decide (scenario = TracingDuringEVM))
    then fail (ErrNew "tracing scenario mismatch")
    else ret tt.

Definition MintBalance (to : option Z) (amount : Z) (evm : EVM) (scenario : TracingScenario)
  (purpose : string) : M unit :=
  let* r := attempt (TransferBalance None to amount evm scenario purpose) in
  match r with
  | Err _ => panic "impossible error"
  | _ => ret tt
  end.

Definition BurnBalance (from : option Z) (amount : Z) (evm : EVM) (scenario : TracingScenario)
  (purpose : string) : M unit :=
  TransferBalance from None amount evm scenario purpose.
End Operations.

Section Facts.
Context {E : Env} {EL : EnvLaws E}.

(** The scenario fits the depth of the call. *)
Definition scenario_ok (evm : EVM) (scenario : TracingScenario) : Prop :=
  evm_tracer evm = false \/ evm_depth evm = 0 \/ scenario = TracingDuringEVM.

Lemma scenario_ok_false evm sc : scenario_ok evm sc ->
  evm_tracer evm && negb (evm_depth evm =? 0) && negb (bool_decide (sc = TracingDuringEVM)) = false.
Proof.
  intros [->|[->| ->]]; [reflexivity|rewrite andb_false_r; reflexivity|].
  rewrite bool_decide_eq_true_2 by reflexivity. apply andb_false_r.
Qed.

Definition transfer_db (d : DB) (from to amount : Z) : DB :=
  AddBalance (SubBalance d from amount) to amount.

Lemma TransferBalance_runs d from to amount evm sc purpose :
  0 <= amount <= GetBalance d from -> scenario_ok evm sc ->
  runs 0 (TransferBalance (Some from) (Some to) amount evm sc purpose) d (Ok tt) (transfer_db d from to amount).
Proof.
  intros Ha Hs. unfold TransferBalance. destruct (Z.ltb_spec amount 0); [lia|].
  change 0 with ((0 + 0) + (0 + 0)). eapply runs_bind.
  - eapply runs_bind; [apply (runs_db_read (fun d => GetBalance d from))|]. unfold BigLessThan.
    destruct (Z.ltb_spec (GetBalance d from) amount); [lia|].
    apply (runs_db_write (fun d => SubBalance d from amount)).
  - eapply runs_bind; [apply (runs_db_write (fun d => AddBalance d to amount))|].
    rewrite scenario_ok_false by auto. apply runs_ret.
Qed.

Lemma TransferBalance_insufficient d from to amount evm sc purpose :
  GetBalance d from < amount -> 0 <= amount ->
  runs 0 (TransferBalance (Some from) to amount evm sc purpose) d (Err ErrInsufficientBalance) d.
Proof.
  intros Hb Ha. unfold TransferBalance. destruct (Z.ltb_spec amount 0); [lia|].
  apply runs_bind_err. change 0 with (0 + 0).
  eapply runs_bind; [apply (runs_db_read (fun d => GetBalance d from))|]. unfold BigLessThan.
  destruct (Z.ltb_spec (GetBalance d from) amount); [apply runs_fail|lia].
Qed.

Lemma slot_get_transfer d from to amount x : slot_get (transfer_db d from to amount) x = slot_get d x.
Proof. unfold transfer_db, slot_get. rewrite GetState_AddBalance, GetState_SubBalance. reflexivity. Qed.

Lemma GetBalance_transfer d from to amount a :
  GetBalance (transfer_db d from to amount) a =
  GetBalance d a - (if decide (from = a) then amount else 0) + (if decide (to = a) then amount else 0).
Proof.
  unfold transfer_db. rewrite GetBalance_AddBalance, !GetBalance_SubBalance.
  repeat case_decide; subst; try congruence; lia.
Qed.
End Facts.

(** ** Properties *)

#[local] Existing Instance TestEnv.

(** A transfer between two accounts moves exactly the amount when the
    sender can pay, and otherwise fails with the insufficient-balance error and
    changes nothing; no other balance and no storage changes. *)
Theorem TransferBalance_moves {E : Env} {EL : EnvLaws E} (d : DB) (from to amount : Z) (evm : EVM)
  (sc : TracingScenario) (purpose : string) :
  0 <= amount -> from <> to -> scenario_ok evm sc ->
  exists d',
    runs 0 (TransferBalance (Some from) (Some to) amount evm sc purpose) d
      (if amount <=? GetBalance d from then Ok tt else Err ErrInsufficientBalance) d' /\
    (forall x, slot_get d' x = slot_get d x) /\
    (if amount <=? GetBalance d from
     then GetBalance d' from = GetBalance d from - amount /\ GetBalance d' to = GetBalance d to + amount /\
       forall a, a <> from -> a <> to -> GetBalance d' a = GetBalance d a
     else d' = d).
Proof.
  intros Ha Hne Hs. destruct (Z.leb_spec amount (GetBalance d from)).
  - exists (transfer_db d from to amount). split; [apply TransferBalance_runs; auto|].
    split; [intros x; apply slot_get_transfer|]. rewrite !GetBalance_transfer.
    rewrite (decide_True (P := from = from)), (decide_False (P := to = from)),
      (decide_False (P := from = to)), (decide_True (P := to = to)) by auto.
    split; [lia|]. split; [lia|]. intros a H1 H2. rewrite GetBalance_transfer, !decide_False by auto. lia.
  - exists d. split; [apply TransferBalance_insufficient; auto|]. split; reflexivity.
Qed.

Lemma TransferBalance_moves_witness :
  exists d', runs 0 (TransferBalance (Some 1) (Some 2) 30 (mkEVM false 0) TracingBeforeEVM "transfer")
      (AddBalance test_db 1 100) (Ok tt) d' /\ GetBalance d' 1 = 70 /\ GetBalance d' 2 = 30.
Proof.
  destruct (TransferBalance_moves (AddBalance test_db 1 100) 1 2 30 (mkEVM false 0) TracingBeforeEVM "transfer")
    as (d' & H1 & _ & H2).
  - lia.
  - lia.
  - left. reflexivity.
  - exists d'. change (30 <=? GetBalance (AddBalance test_db 1 100) 1) with true in *.
    split; [exact H1|]. destruct H2 as (H2 & H3 & _). split; [exact H2|exact H3].
Defined.
