(* ===== verification/BatchPoster.v ===== *)
(** * arbos/l1pricing/batchPoster.go: the table of batch posters

    The table keeps the set of posters (an [AddressSet]), for every poster a
    sub-space with the funds due to it and its payment address, and the total
    of the funds due. *)
From Stdlib Require Import ZArith Lia String List.
From stdpp Require Import base list numbers gmap.
From S2P Require Import Prelude Arbmath Host Storage StorageFacts Refine IndexedSet AddressSet MemEnv.
Open Scope Z_scope.

Definition totalFundsDueOffset : Z := 0.
Definition PosterAddrsKey : list Z := [0].
Definition PosterInfoKey : list Z := [1].

Record BatchPostersTable := mkBatchPostersTable {
  bpt_posterAddrs : AddressSet;
  bpt_posterInfo : Storage;
  bpt_totalFundsDue : StorageSlot
}.

Record BatchPosterState := mkBatchPosterState {
  bps_fundsDue : StorageSlot;
  bps_payTo : StorageSlot;
  bps_postersTable : BatchPostersTable
}.

Record FundsDueItem := mkFundsDueItem { fdi_dueTo : Z; fdi_balance : Z }.

Section Operations.
Context {E : Env}.

Definition InitializeBatchPostersTable (storage : Storage) : M unit :=
  StorageBackedBigInt_SetChecked (OpenStorageBackedBigInt storage totalFundsDueOffset) 0 ;;;
  AddressSet_Initialize (OpenCachedSubStorage storage PosterAddrsKey).

Definition OpenBatchPostersTable (storage : Storage) : BatchPostersTable :=
  mkBatchPostersTable
    (OpenAddressSet (OpenCachedSubStorage storage PosterAddrsKey))
    (OpenSubStorage storage PosterInfoKey)
    (OpenStorageBackedBigInt storage totalFundsDueOffset).

Definition internalOpen (bpt : BatchPostersTable) (poster : Z) : BatchPosterState :=
  let bpStorage := OpenSubStorage (bpt_posterInfo bpt) (Address_Bytes poster) in
  mkBatchPosterState (OpenStorageBackedBigInt bpStorage 0) (OpenStorageBackedAddress bpStorage 1) bpt.

Definition AddPoster (bpt : BatchPostersTable) (posterAddress payTo : Z) : M BatchPosterState :=
  let* isBatchPoster := AddressSet_IsMember (bpt_posterAddrs bpt) posterAddress in
  if (isBatchPoster : bool) then fail ErrAlreadyExists
  else
    let bpState := internalOpen bpt posterAddress in
    StorageBackedBigInt_SetChecked (bps_fundsDue bpState) 0 ;;;
    StorageBackedAddress_Set (bps_payTo bpState) payTo ;;;
    AddressSet_Add (bpt_posterAddrs bpt) posterAddress ;;;
    ret bpState.

Definition OpenPoster (bpt : BatchPostersTable) (poster : Z) (createIfNotExist : bool) : M BatchPosterState :=
  let* isBatchPoster := AddressSet_IsMember (bpt_posterAddrs bpt) poster in
  if negb isBatchPoster then
    if negb createIfNotExist then fail ErrNotExist
    else AddPoster bpt poster poster
  else ret (internalOpen bpt poster).

Definition AllPosters (bpt : BatchPostersTable) (maxNumToGet : Z) : M (list Z) :=
  AddressSet_AllMembers (bpt_posterAddrs bpt) maxNumToGet.

Definition TotalFundsDue (bpt : BatchPostersTable) : M Z := StorageBackedBigInt_Get (bpt_totalFundsDue bpt).

Definition FundsDue (bps : BatchPosterState) : M Z := StorageBackedBigInt_Get (bps_fundsDue bps).

Definition SetFundsDue (bps : BatchPosterState) (val : Z) : M unit :=
  let fundsDue := bps_fundsDue bps in
  let totalFundsDue := bpt_totalFundsDue (bps_postersTable bps) in
  let* prev := StorageBackedBigInt_Get fundsDue in
  let* prevTotal := StorageBackedBigInt_Get totalFundsDue in
  StorageBackedBigInt_SetSaturatingWithWarning totalFundsDue (BigSub (BigAdd prevTotal val) prev) ;;;
  StorageBackedBigInt_SetSaturatingWithWarning (bps_fundsDue bps) val.

Definition PayTo (bps : BatchPosterState) : M Z := StorageBackedAddress_Get (bps_payTo bps).
Definition SetPayTo (bps : BatchPosterState) (addr : Z) : M unit :=
  StorageBackedAddress_Set (bps_payTo bps) addr.

Fixpoint GetFundsDueList_loop (bpt : BatchPostersTable) (allPosters : list Z) (acc : list FundsDueItem)
  : M (list FundsDueItem) :=
  match allPosters with
  | [] => ret acc
  | posterAddr :: allPosters =>
      let* poster := OpenPoster bpt posterAddr false in
      let* due := FundsDue poster in
      GetFundsDueList_loop bpt allPosters
        (if 0 <? Z.sgn due then acc ++ [mkFundsDueItem posterAddr due] else acc)
  end.

Definition GetFundsDueList (bpt : BatchPostersTable) : M (list FundsDueItem) :=
  let* allPosters := AllPosters bpt MaxUint64 in
  GetFundsDueList_loop bpt allPosters [].
End Operations.

(** ** The abstract table *)

Record bp_state := mkBpState {
  bp_posters : list Z;
  bp_due : Z -> Z;
  bp_pay : Z -> Z;
  bp_total : Z
}.

Definition sum_due (st : bp_state) : Z := foldr Z.add 0 (map (bp_due st) (bp_posters st)).

Definition int256 (v : Z) : Prop := - 2 ^ 255 <= v < 2 ^ 255.

Definition clamp256 (v : Z) : Z := clamp (- 2 ^ 255) (2 ^ 255 - 1) v.

Lemma clamp256_id v : int256 v -> clamp256 v = v.
Proof. unfold int256, clamp256, clamp. lia. Qed.

Definition bp_set_due (st : bp_state) (p v : Z) : bp_state :=
  mkBpState (bp_posters st) (fupd (bp_due st) p (clamp256 v)) (bp_pay st)
    (clamp256 (bp_total st + v - bp_due st p)).

Definition bp_add (st : bp_state) (p payTo : Z) : bp_state :=
  mkBpState (bp_posters st ++ [p]) (fupd (bp_due st) p 0) (fupd (bp_pay st) p payTo) (bp_total st).

Definition bp_open (st : bp_state) (p : Z) : bp_state :=
  if decide (p ∈ bp_posters st) then st else bp_add st p p.

Definition bp_set_pay (st : bp_state) (p a : Z) : bp_state :=
  mkBpState (bp_posters st) (bp_due st) (fupd (bp_pay st) p a) (bp_total st).

Definition bp_empty : bp_state := mkBpState [] (fun _ => 0) (fun _ => 0) 0.

(** The posters to whom something is due, with the amounts. *)
Fixpoint bp_due_list (st : bp_state) (ps : list Z) : list FundsDueItem :=
  match ps with
  | [] => []
  | p :: ps =>
      if 0 <? bp_due st p then mkFundsDueItem p (bp_due st p) :: bp_due_list st ps else bp_due_list st ps
  end.

(** Sequences of operations on the table, with their errors. *)
Inductive bp_op :=
| BpAdd (p payTo : Z)
| BpSetDue (p v : Z)
| BpSetPay (p a : Z).

Definition bp_step {E : Env} (bpt : BatchPostersTable) (op : bp_op) : M (outcome unit) :=
  attempt
    match op with
    | BpAdd p payTo => let* _ := AddPoster bpt p payTo in ret tt
    | BpSetDue p v => let* bps := OpenPoster bpt p true in SetFundsDue bps v
    | BpSetPay p a => let* bps := OpenPoster bpt p false in SetPayTo bps a
    end.

Fixpoint bp_steps {E : Env} (bpt : BatchPostersTable) (ops : list bp_op) : M (list (outcome unit)) :=
  match ops with
  | [] => ret []
  | op :: ops => let* r := bp_step bpt op in let* rs := bp_steps bpt ops in ret (r :: rs)
  end.

Definition bp_spec (op : bp_op) (st : bp_state) : outcome unit * bp_state :=
  match op with
  | BpAdd p payTo => if decide (p ∈ bp_posters st) then (Err ErrAlreadyExists, st) else (Ok tt, bp_add st p payTo)
  | BpSetDue p v => (Ok tt, bp_set_due (bp_open st p) p v)
  | BpSetPay p a => if decide (p ∈ bp_posters st) then (Ok tt, bp_set_pay st p a) else (Err ErrNotExist, st)
  end.

Fixpoint bp_specs (ops : list bp_op) (st : bp_state) : list (outcome unit) * bp_state :=
  match ops with
  | [] => ([], st)
  | op :: ops => let '(r, st) := bp_spec op st in let '(rs, st) := bp_specs ops st in (r :: rs, st)
  end.

(** Amounts below [2 ^ 190] and posters from [U]. *)
Definition bp_op_ok (U : list Z) (op : bp_op) : Prop :=
  match op with
  | BpAdd p payTo => p ∈ U /\ in_u 160 payTo
  | BpSetDue p v => p ∈ U /\ Z.abs v <= 2 ^ 190
  | BpSetPay p a => p ∈ U /\ in_u 160 a
  end.

(** ** The total is the sum *)

(** A table whose total is the sum of what is due to its at most [n] posters. *)
Record bp_good (n : Z) (st : bp_state) : Prop := {
  bg_nodup : NoDup (bp_posters st);
  bg_len : Z.of_nat (length (bp_posters st)) <= n;
  bg_due p : p ∈ bp_posters st -> Z.abs (bp_due st p) <= 2 ^ 190;
  bg_total : bp_total st = sum_due st
}.

Lemma sum_map_ext (f g : Z -> Z) l : (forall p, p ∈ l -> f p = g p) ->
  foldr Z.add 0 (map f l) = foldr Z.add 0 (map g l).
Proof. intros H. induction l; cbn; [reflexivity|]. rewrite H, IHl by set_solver. reflexivity. Qed.

Lemma sum_map_upd (f : Z -> Z) l p v : NoDup l -> p ∈ l ->
  foldr Z.add 0 (map (fupd f p v) l) = foldr Z.add 0 (map f l) + v - f p.
Proof.
  induction 1 as [|q l Hq Hl IH]; intros Hp; [inversion Hp|]. cbn. apply elem_of_cons in Hp as [->|Hp].
  - rewrite fupd_eq, (sum_map_ext _ f); [lia|]. intros r Hr. apply fupd_ne. intros ->. auto.
  - rewrite fupd_ne, IH by (auto; intros ->; auto). lia.
Qed.

Lemma sum_map_bound (f : Z -> Z) l B : 0 <= B -> (forall p, p ∈ l -> Z.abs (f p) <= B) ->
  Z.abs (foldr Z.add 0 (map f l)) <= B * Z.of_nat (length l).
Proof.
  intros HB H. induction l as [|q l IH]; [cbn; lia|]. cbn [map foldr length].
  pose proof (H q ltac:(set_solver)). pose proof (IH ltac:(set_solver)). lia.
Qed.

Lemma bp_good_add n st p payTo : bp_good n st -> p ∉ bp_posters st -> bp_good (n + 1) (bp_add st p payTo).
Proof.
  intros [Hnd Hl Hd Ht] Hp. split; cbn [bp_add bp_posters bp_due bp_total].
  - apply NoDup_app. split; [exact Hnd|]. split; [|apply NoDup_singleton]. set_solver.
  - rewrite length_app. cbn. lia.
  - intros q Hq. unfold fupd. case_decide; [lia|]. apply Hd. set_solver.
  - rewrite Ht. unfold sum_due. cbn [bp_add bp_posters bp_due]. rewrite map_app, foldr_app. cbn. rewrite fupd_eq.
    apply sum_map_ext. intros q Hq. rewrite fupd_ne; [reflexivity|]. intros ->. auto.
Qed.

Lemma bp_good_le n n' st : bp_good n st -> n <= n' -> bp_good n' st.
Proof. intros [] Hn. split; auto. lia. Qed.

Lemma bp_good_open n st p : bp_good n st -> bp_good (n + 1) (bp_open st p).
Proof.
  intros H. unfold bp_open. destruct (decide _); [eapply bp_good_le; [exact H|lia]|]. apply bp_good_add; auto.
Qed.

Lemma bp_open_member st p : p ∈ bp_posters (bp_open st p).
Proof. unfold bp_open. destruct (decide _); [auto|]. cbn. set_solver. Qed.

Lemma bp_good_set n st p v : bp_good n st -> p ∈ bp_posters st -> Z.abs v <= 2 ^ 190 -> n < 2 ^ 61 ->
  bp_good n (bp_set_due st p v).
Proof.
  intros [Hnd Hl Hd Ht] Hp Hv Hn. pose proof (Hd p Hp).
  assert (Z.abs (sum_due st) <= 2 ^ 190 * Z.of_nat (length (bp_posters st))) as Hs
    by (apply sum_map_bound; [lia|exact Hd]).
  assert (clamp256 v = v) as Ev by (apply clamp256_id; unfold int256; lia).
  split; cbn [bp_set_due bp_posters bp_due bp_total]; auto.
  - intros q Hq. unfold fupd. case_decide; [lia|auto].
  - rewrite clamp256_id by (unfold int256; nia). unfold sum_due. cbn [bp_set_due bp_posters bp_due].
    rewrite sum_map_upd, Ev by auto. unfold sum_due in Ht. lia.
Qed.

Lemma bp_good_spec U n st op : bp_good n st -> bp_op_ok U op -> n < 2 ^ 60 -> bp_good (n + 1) (bp_spec op st).2.
Proof.
  intros H Hop Hn. assert (bp_good (n + 1) st) as H1 by (eapply bp_good_le; [exact H|lia]).
  destruct op as [p q|p v|p a]; cbn [bp_spec].
  - destruct (decide _); [exact H1|]. apply bp_good_add; auto.
  - apply bp_good_set; [apply bp_good_open, H|apply bp_open_member|apply Hop|lia].
  - destruct (decide _); [|exact H1]. destruct H1. split; auto.
Qed.

(** A signed word in a slot. *)
Definition bigint_at {E : Env} (d : DB) (x : StorageSlot) (v : Z) : Prop :=
  in_u 256 (slot_get d x) /\ bigint_decode (slot_get d x) = v.

Section Facts.
Context {E : Env} {EL : EnvLaws E} (t : Storage) (U : list Z) (post : list Storage).

Notation addrs := (OpenCachedSubStorage t [0]).
Notation byAddr := (OpenSubStorage addrs [0]).
Definition poster_space (p : Z) : Storage := OpenSubStorage (OpenSubStorage t [1]) (Address_Bytes p).

(** The spaces of the table, for posters in [U], followed by other spaces. *)
Definition bp_spaces : list Storage := t :: addrs :: byAddr :: map poster_space U.

Hypothesis NC : spaces_ok (bp_spaces ++ post).
Hypothesis HU : Forall (in_u 160) U.

Definition total_slot : StorageSlot := skey t 0.
Definition due_slot (p : Z) : StorageSlot := skey (poster_space p) 0.
Definition pay_slot (p : Z) : StorageSlot := skey (poster_space p) 1.

Lemma in_u_160_64 k : in_u 64 k -> in_u 160 k.
Proof. intros [H0 H1]. split; [exact H0|]. eapply Z.lt_trans; [exact H1|reflexivity]. Qed.

Lemma poster_lookup p i : U !! i = Some p -> (bp_spaces ++ post) !! (3 + i)%nat = Some (poster_space p).
Proof.
  intros H. apply lookup_app_l_Some. change ((poster_space <$> U) !! i = Some (poster_space p)).
  rewrite list_lookup_fmap, H. reflexivity.
Qed.

Lemma poster_slot_ne p q k k' : p ∈ U -> q ∈ U -> 0 <= k < 2 -> 0 <= k' < 2 -> p <> q \/ k <> k' ->
  skey (poster_space p) k <> skey (poster_space q) k'.
Proof.
  intros Hp Hq Hk Hk' Hne. apply list_elem_of_lookup in Hp as [i Hi], Hq as [j Hj].
  apply (spaces_slot_ne _ (3 + i) (3 + j)%nat _ _ _ _ NC); try (apply poster_lookup; assumption);
    try (unfold in_u; lia).
  destruct Hne as [Hne|Hne]; [left|auto]. intros He. assert (i = j) by lia. congruence.
Qed.

Lemma poster_total_ne p k : p ∈ U -> 0 <= k < 2 -> skey (poster_space p) k <> total_slot.
Proof.
  intros Hp Hk. apply list_elem_of_lookup in Hp as [i Hi].
  apply (spaces_slot_ne _ (3 + i) 0%nat _ _ _ _ NC); [apply poster_lookup, Hi|reflexivity|unfold in_u; lia..|lia].
Qed.

Lemma poster_ix_ne p k : p ∈ U -> 0 <= k < 2 -> ~ ix_slots addrs [0] (skey (poster_space p) k).
Proof.
  intros Hp Hk. apply list_elem_of_lookup in Hp as [i Hi]. intros [(k' & Hk' & H)|(a & Ha & H)]; revert H.
  - apply (spaces_slot_ne _ (3 + i) 1%nat _ _ _ _ NC); [apply poster_lookup, Hi|reflexivity|unfold in_u; lia| |lia].
    apply in_u_160_64, Hk'.
  - apply (spaces_slot_ne _ (3 + i) 2%nat _ _ _ _ NC); [apply poster_lookup, Hi|reflexivity|unfold in_u; lia|exact Ha|lia].
Qed.

Lemma poster_set_total d p k v : p ∈ U -> 0 <= k < 2 ->
  slot_get (slot_set d (skey (poster_space p) k) v) total_slot = slot_get d total_slot.
Proof. intros Hp Hk. apply slot_get_set_ne, poster_total_ne; auto. Qed.

Lemma poster_set_poster d p k v q k' : p ∈ U -> q ∈ U -> 0 <= k < 2 -> 0 <= k' < 2 -> p <> q \/ k <> k' ->
  slot_get (slot_set d (skey (poster_space p) k) v) (skey (poster_space q) k') = slot_get d (skey (poster_space q) k').
Proof. intros. apply slot_get_set_ne, poster_slot_ne; auto. Qed.

Lemma total_ix_ne : ~ ix_slots addrs [0] total_slot.
Proof.
  intros [(k' & Hk' & H)|(a & Ha & H)]; revert H.
  - apply (spaces_slot_ne _ 0%nat 1%nat _ _ _ _ NC); [reflexivity|reflexivity|unfold in_u; lia| |lia].
    apply in_u_160_64, Hk'.
  - apply (spaces_slot_ne _ 0%nat 2%nat _ _ _ _ NC); [reflexivity|reflexivity|unfold in_u; lia|exact Ha|lia].
Qed.

Lemma addrs_space : aset_space addrs.
Proof. apply (spaces_ix_space (bp_spaces ++ post) _ _ 1%nat 2%nat NC); [reflexivity|reflexivity|lia]. Qed.

(** The slots of the table. *)
Definition bp_slots (x : StorageSlot) : Prop :=
  x = total_slot \/ ix_slots addrs [0] x \/ exists p k, p ∈ U /\ 0 <= k < 2 /\ x = skey (poster_space p) k.

Record bp_at (st : bp_state) (d : DB) : Prop := {
  ba_addrs : aset_at addrs d (bp_posters st) [];
  ba_known p : p ∈ bp_posters st -> p ∈ U;
  ba_total : bigint_at d total_slot (bp_total st);
  ba_due p : p ∈ bp_posters st -> bigint_at d (due_slot p) (bp_due st p);
  ba_pay p : p ∈ bp_posters st -> slot_get d (pay_slot p) = bp_pay st p /\ in_u 160 (bp_pay st p)
}.

Definition bp_result {A} (m : M A) (d : DB) (r : outcome A) (st' : bp_state) : Prop :=
  exists G d', runs G m d r d' /\ bp_at st' d' /\ frame bp_slots d d'.

Notation bpt := (OpenBatchPostersTable t).

Lemma total_slot_eq : bpt_totalFundsDue bpt = total_slot.
Proof. apply NewSlot_skey. uint. Qed.

Lemma due_slot_eq p : bps_fundsDue (internalOpen bpt p) = due_slot p.
Proof.
  unfold internalOpen, OpenStorageBackedBigInt, due_slot, poster_space.
  cbn [bps_fundsDue OpenBatchPostersTable bpt_posterInfo]. apply NewSlot_skey. uint.
Qed.

Lemma pay_slot_eq p : bps_payTo (internalOpen bpt p) = pay_slot p.
Proof.
  unfold internalOpen, OpenStorageBackedAddress, pay_slot, poster_space.
  cbn [bps_payTo OpenBatchPostersTable bpt_posterInfo]. apply NewSlot_skey. uint.
Qed.

Lemma bigint_get_runs d x v : bigint_at d x v -> runs 800 (StorageBackedBigInt_Get x) d (Ok v) d.
Proof. intros [Hr <-]. apply StorageBackedBigInt_Get_runs, Hr. Qed.

Lemma TotalFundsDue_runs st d : bp_at st d -> runs 800 (TotalFundsDue bpt) d (Ok (bp_total st)) d.
Proof. intros H. unfold TotalFundsDue. rewrite total_slot_eq. apply bigint_get_runs, (ba_total _ _ H). Qed.

Lemma FundsDue_runs st d p : bp_at st d -> p ∈ bp_posters st ->
  runs 800 (FundsDue (internalOpen bpt p)) d (Ok (bp_due st p)) d.
Proof. intros H Hp. unfold FundsDue. rewrite due_slot_eq. apply bigint_get_runs, (ba_due _ _ H), Hp. Qed.

Lemma PayTo_runs st d p : bp_at st d -> p ∈ bp_posters st ->
  runs 800 (PayTo (internalOpen bpt p)) d (Ok (bp_pay st p)) d.
Proof.
  intros H Hp. destruct (ba_pay _ _ H p Hp) as [H1 H2]. unfold PayTo. rewrite pay_slot_eq, <- H1.
  apply StorageBackedAddress_Get_runs. rewrite H1. exact H2.
Qed.

Lemma aset_at_set x d l v : ~ ix_slots addrs [0] x -> aset_at addrs d l [] -> aset_at addrs (slot_set d x v) l [].
Proof.
  intros Hx H. eapply (ix_at_frame (fun y => y = x)); [|apply frame_set; reflexivity|exact H].
  intros y Hy ->. auto.
Qed.

Lemma bigint_at_ne d x y v w : x <> y -> bigint_at d y w -> bigint_at (slot_set d x v) y w.
Proof. intros Hne H. unfold bigint_at. rewrite slot_get_set_ne by auto. exact H. Qed.

Lemma bigint_at_eq d x u w : in_u 256 u -> bigint_decode u = w -> bigint_at (slot_set d x u) x w.
Proof. intros H1 H2. unfold bigint_at. rewrite slot_get_set_eq. auto. Qed.

Lemma SetFundsDue_result st d p v : bp_at st d -> p ∈ bp_posters st ->
  bp_result (SetFundsDue (internalOpen bpt p) v) d (Ok tt) (bp_set_due st p v).
Proof.
  intros H Hp. pose proof (ba_known _ _ H p Hp) as HpU. unfold SetFundsDue. cbv zeta.
  change (bps_postersTable (internalOpen bpt p)) with bpt. rewrite due_slot_eq, total_slot_eq.
  destruct (StorageBackedBigInt_SetSaturating_runs total_slot (bp_total st + v - bp_due st p) d) as (u1 & R1 & U1 & D1).
  set (d1 := slot_set d total_slot u1) in *.
  destruct (StorageBackedBigInt_SetSaturating_runs (due_slot p) v d1) as (u2 & R2 & U2 & D2).
  exists (800 + (800 + (20000 + 20000))), (slot_set d1 (due_slot p) u2). split; [|split].
  - eapply runs_bind; [apply bigint_get_runs, (ba_due _ _ H p Hp)|].
    eapply runs_bind; [apply bigint_get_runs, (ba_total _ _ H)|]. eapply runs_bind; [exact R1|exact R2].
  - pose proof (poster_total_ne p 0 HpU ltac:(lia)) as Hne. destruct H as [Ha Hk Ht Hd Hpay]. split.
    + exact (aset_at_set _ _ _ _ (poster_ix_ne p 0 HpU ltac:(lia)) (aset_at_set _ _ _ _ total_ix_ne Ha)).
    + exact Hk.
    + apply bigint_at_ne; [exact Hne|]. apply bigint_at_eq; [exact U1|exact D1].
    + intros q Hq. cbn [bp_set_due bp_due]. unfold fupd. case_decide as Hpq.
      * subst q. apply bigint_at_eq; [exact U2|exact D2].
      * exact (bigint_at_ne _ _ _ _ _ (poster_slot_ne p q 0 0 HpU (Hk q Hq) ltac:(lia) ltac:(lia) (or_introl Hpq))
          (bigint_at_ne _ _ _ _ _ (not_eq_sym (poster_total_ne q 0 (Hk q Hq) ltac:(lia))) (Hd q Hq))).
    + intros q Hq. cbn [bp_set_due bp_pay]. unfold d1.
      rewrite (slot_get_set_ne _ (due_slot p) _ (pay_slot q) (poster_slot_ne p q 0 1 HpU (Hk q Hq) ltac:(lia) ltac:(lia) ltac:(lia))).
      rewrite (slot_get_set_ne _ total_slot _ (pay_slot q) (not_eq_sym (poster_total_ne q 1 (Hk q Hq) ltac:(lia)))).
      apply Hpay, Hq.
  - apply frame_set_trans; [right; right; exists p, 0; repeat split; auto; lia|].
    apply frame_set. left. reflexivity.
Qed.

Lemma AddPoster_result st d p payTo : bp_at st d -> p ∈ U -> p ∉ bp_posters st -> in_u 160 payTo ->
  Z.of_nat (length (bp_posters st)) < 2 ^ 64 - 2 ->
  bp_result (AddPoster bpt p payTo) d (Ok (internalOpen bpt p)) (bp_add st p payTo).
Proof.
  intros H HpU Hp Hpay Hlen. assert (in_u 160 p) as Hpr by (eapply Forall_forall in HU; eauto).
  pose proof (AddressSet_IsMember_runs addrs d _ [] p (ba_addrs _ _ H) Hpr) as RM.
  rewrite bool_decide_eq_false_2 in RM by (intros [?|Hn]; [auto|inversion Hn]).
  destruct (StorageBackedBigInt_SetChecked_runs (due_slot p) 0 d ltac:(lia)) as (u1 & R1 & U1 & D1).
  set (d1 := slot_set d (due_slot p) u1) in *. set (d2 := slot_set d1 (pay_slot p) payTo).
  assert (aset_at addrs d2 (bp_posters st) []) as Ha2.
  { exact (aset_at_set _ _ _ _ (poster_ix_ne p 1 HpU ltac:(lia))
      (aset_at_set _ _ _ _ (poster_ix_ne p 0 HpU ltac:(lia)) (ba_addrs _ _ H))). }
  destruct (AddressSet_Add_runs addrs addrs_space d2 _ [] p Ha2 Hpr Hlen) as (d3 & R3 & [F3 F3b] & A3).
  rewrite decide_False in A3 by (intros [?|Hn]; [auto|inversion Hn]).
  exists (800 + (20000 + (20000 + (62400 + 0)))), d3. split; [|split].
  - unfold AddPoster. cbn [OpenBatchPostersTable bpt_posterAddrs]. eapply runs_bind; [exact RM|]. cbv zeta iota.
    rewrite due_slot_eq, pay_slot_eq. eapply runs_bind; [exact R1|].
    eapply runs_bind; [apply StorageBackedAddress_Set_runs, Hpay|]. eapply runs_bind; [exact R3|]. apply runs_ret.
  - destruct H as [Ha Hk Ht Hd Hpy].
    assert (forall q k, q ∈ U -> 0 <= k < 2 -> slot_get d3 (skey (poster_space q) k) = slot_get d2 (skey (poster_space q) k)) as E3
      by (intros; apply F3, poster_ix_ne; auto).
    assert (slot_get d3 total_slot = slot_get d total_slot) as Et.
    { rewrite F3 by apply total_ix_ne. unfold d2, d1, due_slot, pay_slot.
      rewrite (poster_set_total _ p 1), (poster_set_total _ p 0) by (auto; lia). reflexivity. }
    split; cbn [bp_add bp_posters bp_due bp_pay bp_total].
    + exact A3.
    + intros q. rewrite elem_of_app, list_elem_of_singleton. intros [Hq| ->]; auto.
    + unfold bigint_at. rewrite Et. exact Ht.
    + intros q. rewrite elem_of_app, list_elem_of_singleton. unfold bigint_at, due_slot, fupd. intros Hq.
      case_decide as Hpq.
      * subst q. rewrite E3 by (auto; lia). unfold d2, d1, pay_slot, due_slot.
        rewrite (poster_set_poster _ p 1 _ p 0) by (auto; lia). rewrite slot_get_set_eq. auto.
      * destruct Hq as [Hq|Hq]; [|congruence]. pose proof (Hk q Hq). rewrite E3 by (auto; lia). unfold d2, d1, pay_slot, due_slot.
        rewrite (poster_set_poster _ p 1 _ q 0), (poster_set_poster _ p 0 _ q 0) by (auto; lia). apply Hd, Hq.
    + intros q. rewrite elem_of_app, list_elem_of_singleton. unfold pay_slot, fupd. intros Hq.
      case_decide as Hpq.
      * subst q. rewrite E3 by (auto; lia). unfold d2, pay_slot. rewrite slot_get_set_eq. auto.
      * destruct Hq as [Hq|Hq]; [|congruence]. pose proof (Hk q Hq). rewrite E3 by (auto; lia). unfold d2, d1, pay_slot, due_slot.
        rewrite (poster_set_poster _ p 1 _ q 1), (poster_set_poster _ p 0 _ q 1) by (auto; lia). apply Hpy, Hq.
  - assert (frame bp_slots d d2) as F2.
    { apply frame_set_trans; [right; right; exists p, 1; repeat split; auto; lia|].
      apply frame_set. right; right. exists p, 0. repeat split; auto; lia. }
    etransitivity; [exact F2|]. eapply frame_weaken; [|split; [exact F3|exact F3b]]. intros x Hx. right; left. exact Hx.
Qed.

(** The table depends on its own slots only. *)
Lemma bp_at_agree st d d' : (forall x, bp_slots x -> slot_get d' x = slot_get d x) -> bp_at st d -> bp_at st d'.
Proof.
  intros Hf [Ha Hk Ht Hd Hp].
  assert (forall p k, p ∈ bp_posters st -> 0 <= k < 2 ->
    slot_get d' (skey (poster_space p) k) = slot_get d (skey (poster_space p) k)) as Ep.
  { intros p k H1 H2. apply Hf. right; right. exists p, k. auto. }
  split; [|exact Hk| | |].
  - eapply ix_at_agree; [|exact Ha]. intros x Hx. apply Hf. right; left. exact Hx.
  - unfold bigint_at. rewrite Hf by (left; reflexivity). exact Ht.
  - intros p Hin. unfold bigint_at, due_slot. rewrite Ep by (auto; lia). apply Hd, Hin.
  - intros p Hin. unfold pay_slot. rewrite Ep by (auto; lia). apply Hp, Hin.
Qed.

Lemma OpenPoster_member st d p c : bp_at st d -> p ∈ bp_posters st ->
  runs 800 (OpenPoster bpt p c) d (Ok (internalOpen bpt p)) d.
Proof.
  intros H Hp. assert (in_u 160 p) as Hpr by (apply (aa_addr _ _ _ (ba_addrs _ _ H)); auto).
  pose proof (AddressSet_IsMember_runs addrs d _ [] p (ba_addrs _ _ H) Hpr) as RM.
  rewrite bool_decide_eq_true_2 in RM by auto. change 800 with (800 + 0).
  eapply runs_bind; [exact RM|]. apply runs_ret.
Qed.

Lemma AddPoster_member st d p payTo : bp_at st d -> p ∈ bp_posters st ->
  runs 800 (AddPoster bpt p payTo) d (Err ErrAlreadyExists) d.
Proof.
  intros H Hp. assert (in_u 160 p) as Hpr by (apply (aa_addr _ _ _ (ba_addrs _ _ H)); auto).
  pose proof (AddressSet_IsMember_runs addrs d _ [] p (ba_addrs _ _ H) Hpr) as RM.
  rewrite bool_decide_eq_true_2 in RM by auto. change 800 with (800 + 0).
  eapply runs_bind; [exact RM|]. apply runs_fail.
Qed.

Lemma OpenPoster_unknown st d p : bp_at st d -> in_u 160 p -> p ∉ bp_posters st ->
  runs 800 (OpenPoster bpt p false) d (Err ErrNotExist) d.
Proof.
  intros H Hpr Hp. pose proof (AddressSet_IsMember_runs addrs d _ [] p (ba_addrs _ _ H) Hpr) as RM.
  rewrite bool_decide_eq_false_2 in RM by (intros [?|Hn]; [auto|inversion Hn]).
  change 800 with (800 + 0). eapply runs_bind; [exact RM|]. apply runs_fail.
Qed.

Lemma OpenPoster_create_result st d p : bp_at st d -> p ∈ U ->
  Z.of_nat (length (bp_posters st)) < 2 ^ 64 - 2 ->
  bp_result (OpenPoster bpt p true) d (Ok (internalOpen bpt p)) (bp_open st p).
Proof.
  intros H HpU Hlen. unfold bp_open. destruct (decide (p ∈ bp_posters st)) as [Hp|Hp].
  - exists 800, d. split; [eapply OpenPoster_member; eauto|]. split; [exact H|reflexivity].
  - assert (in_u 160 p) as Hpr by (eapply Forall_forall in HU; eauto).
    destruct (AddPoster_result st d p p H HpU Hp Hpr Hlen) as (G & d' & R & Hd' & F).
    exists (800 + G), d'. split; [|split; [exact Hd'|exact F]].
    pose proof (AddressSet_IsMember_runs addrs d _ [] p (ba_addrs _ _ H) Hpr) as RM.
    rewrite bool_decide_eq_false_2 in RM by (intros [?|Hn]; [auto|inversion Hn]).
    eapply runs_bind; [exact RM|exact R].
Qed.

Lemma SetPayTo_result st d p a : bp_at st d -> p ∈ bp_posters st -> in_u 160 a ->
  bp_result (SetPayTo (internalOpen bpt p) a) d (Ok tt) (bp_set_pay st p a).
Proof.
  intros H Hp Ha. pose proof (ba_known _ _ H p Hp) as HpU.
  exists 20000, (slot_set d (pay_slot p) a). split; [|split].
  - unfold SetPayTo. rewrite pay_slot_eq. apply StorageBackedAddress_Set_runs, Ha.
  - destruct H as [Hs Hk Ht Hd Hpy]. unfold pay_slot. split; cbn [bp_set_pay bp_posters bp_total bp_due bp_pay].
    + exact (aset_at_set _ _ _ _ (poster_ix_ne p 1 HpU ltac:(lia)) Hs).
    + exact Hk.
    + unfold bigint_at. rewrite (poster_set_total _ p 1) by (auto; lia). exact Ht.
    + intros q Hq. unfold bigint_at, due_slot. rewrite (poster_set_poster _ p 1 _ q 0) by (auto; lia). apply Hd, Hq.
    + intros q Hq. unfold fupd, pay_slot. case_decide as Hpq.
      * subst q. rewrite slot_get_set_eq. auto.
      * rewrite (poster_set_poster _ p 1 _ q 1) by (auto; lia). apply Hpy, Hq.
  - apply frame_set. right; right. exists p, 1. repeat split; auto; lia.
Qed.

Lemma AllPosters_runs st d : bp_at st d ->
  exists G, runs G (AllPosters bpt MaxUint64) d (Ok (bp_posters st)) d.
Proof.
  intros H. pose proof (ba_addrs _ _ H) as Ha. pose proof (aa_len _ _ _ Ha) as Hl. eexists.
  pose proof (AddressSet_AllMembers_runs addrs d _ [] MaxUint64 Ha ltac:(unfold MaxUint64; lia)) as R.
  rewrite take_ge in R by (unfold MaxUint64; lia). exact R.
Qed.

Lemma GetFundsDueList_loop_runs st d ps : bp_at st d -> (forall p, p ∈ ps -> p ∈ bp_posters st) ->
  forall acc, exists G, runs G (GetFundsDueList_loop bpt ps acc) d (Ok (acc ++ bp_due_list st ps)) d.
Proof.
  intros H. induction ps as [|p ps IH]; intros Hps acc; cbn [GetFundsDueList_loop bp_due_list].
  - exists 0. rewrite app_nil_r. apply runs_ret.
  - assert (p ∈ bp_posters st) as Hp by (apply Hps; left).
    destruct (IH ltac:(intros q Hq; apply Hps; right; exact Hq)
      (if 0 <? Z.sgn (bp_due st p) then acc ++ [mkFundsDueItem p (bp_due st p)] else acc)) as [G R].
    exists (800 + (800 + G)). eapply runs_bind; [eapply OpenPoster_member; eauto|].
    eapply runs_bind; [eapply FundsDue_runs; eauto|]. cbv beta.
    assert (forall x, (0 <? Z.sgn x) = (0 <? x)) as Hs by (intros []; reflexivity). rewrite Hs in *.
    destruct (0 <? bp_due st p); [rewrite <- app_assoc in R|]; exact R.
Qed.

Lemma GetFundsDueList_runs st d : bp_at st d ->
  exists G, runs G (GetFundsDueList bpt) d (Ok (bp_due_list st (bp_posters st))) d.
Proof.
  intros H. destruct (AllPosters_runs st d H) as [G1 R1].
  destruct (GetFundsDueList_loop_runs st d (bp_posters st) H ltac:(auto) []) as [G2 R2].
  exists (G1 + G2). eapply runs_bind; [exact R1|exact R2].
Qed.

Lemma InitializeBatchPostersTable_result d : (forall a, in_u 160 a -> aset_pos addrs d a = 0) ->
  bp_result (InitializeBatchPostersTable t) d (Ok tt) bp_empty.
Proof.
  intros Hp. destruct (StorageBackedBigInt_SetChecked_runs total_slot 0 d ltac:(lia)) as (u & R & Hu & Du).
  set (d1 := slot_set d total_slot u). assert (forall a, in_u 160 a -> aset_pos addrs d1 a = 0) as Hp1.
  { intros a Ha. transitivity (aset_pos addrs d a); [|exact (Hp a Ha)]. apply slot_get_set_ne. intros He. apply total_ix_ne. right.
    exists a. split; [exact Ha|]. exact He. }
  destruct (AddressSet_Initialize_runs addrs addrs_space d1 Hp1) as (d2 & R2 & F2' & A2).
  pose proof F2' as [F2 _]. exists (20000 + 20000), d2. split; [|split].
  - unfold InitializeBatchPostersTable. change (OpenStorageBackedBigInt t totalFundsDueOffset) with (bpt_totalFundsDue bpt).
    rewrite total_slot_eq. eapply runs_bind; [exact R|exact R2].
  - split; cbn [bp_empty bp_posters bp_total]; [exact A2|intros p Hn; inversion Hn| |intros p Hn; inversion Hn..].
    unfold bigint_at. rewrite F2 by apply total_ix_ne. unfold d1. rewrite slot_get_set_eq. auto.
  - transitivity d1; [apply frame_set; left; reflexivity|].
    eapply frame_weaken; [|exact F2']. intros x Hx. right; left. exact Hx.
Qed.

Lemma bp_step_result n st d op : bp_at st d -> bp_good n st -> n < 2 ^ 60 -> bp_op_ok U op ->
  bp_result (bp_step bpt op) d (Ok (bp_spec op st).1) (bp_spec op st).2.
Proof.
  intros H Hg Hn Hop. pose proof (bg_len _ _ Hg) as Hl. destruct op as [p q|p v|p a]; destruct Hop as [HpU Hv]; cbn [bp_spec].
  - destruct (decide (p ∈ bp_posters st)) as [Hp|Hp]; cbn [fst snd].
    + exists 800, d. split; [|split; [exact H|reflexivity]].
      apply runs_attempt_err, runs_bind_err. eapply AddPoster_member; eauto.
    + destruct (AddPoster_result st d p q H HpU Hp Hv ltac:(lia)) as (G & d' & R & Hd' & F).
      exists (G + 0), d'. split; [|auto]. apply runs_attempt_ok. eapply runs_bind; [exact R|apply runs_ret].
  - destruct (OpenPoster_create_result st d p H HpU ltac:(lia)) as (G & d1 & R & Hd1 & F).
    destruct (SetFundsDue_result _ d1 p v Hd1 (bp_open_member st p)) as (G2 & d2 & R2 & Hd2 & F2).
    exists (G + G2), d2. split; [|split; [exact Hd2|etransitivity; eauto]].
    apply runs_attempt_ok. eapply runs_bind; [exact R|exact R2].
  - destruct (decide (p ∈ bp_posters st)) as [Hp|Hp]; cbn [fst snd].
    + destruct (SetPayTo_result st d p a H Hp Hv) as (G2 & d2 & R2 & Hd2 & F2).
      exists (800 + G2), d2. split; [|auto]. apply runs_attempt_ok.
      eapply runs_bind; [eapply OpenPoster_member; eauto|exact R2].
    + exists 800, d. split; [|split; [exact H|reflexivity]]. apply runs_attempt_err, runs_bind_err.
      eapply OpenPoster_unknown; eauto. eapply Forall_forall in HU; eauto.
Qed.

Lemma bp_steps_result ops : forall n st d, bp_at st d -> bp_good n st ->
  n + Z.of_nat (length ops) < 2 ^ 60 -> Forall (bp_op_ok U) ops ->
  bp_good (n + Z.of_nat (length ops)) (bp_specs ops st).2 /\
  exists G d', runs G (bp_steps bpt ops) d (Ok (bp_specs ops st).1) d' /\ bp_at (bp_specs ops st).2 d'.
Proof.
  induction ops as [|op ops IH]; intros n st d H Hg Hn Hops.
  - split; [eapply bp_good_le; [exact Hg|cbn; lia]|]. exists 0, d. split; [apply runs_ret|exact H].
  - inversion Hops as [|? ? Hop Hops']; subst. cbn [length] in Hn |- *.
    destruct (bp_step_result n st d op H Hg ltac:(lia) Hop) as (G1 & d1 & R1 & H1 & _).
    pose proof (bp_good_spec U n st op Hg Hop ltac:(lia)) as Hg1.
    destruct (IH (n + 1) _ d1 H1 Hg1 ltac:(lia) Hops') as (Hg2 & G2 & d2 & R2 & H2).
    cbn [bp_specs bp_steps]. destruct (bp_spec op st) as [r1 st1]. cbn [fst snd] in *.
    destruct (bp_specs ops st1) as [r2 st2]. cbn [fst snd] in *.
    split; [eapply bp_good_le; [exact Hg2|lia]|]. exists (G1 + (G2 + 0)), d2. split; [|exact H2].
    eapply runs_bind; [exact R1|]. eapply runs_bind; [exact R2|apply runs_ret].
Qed.
End Facts.

(** ** Properties *)

#[local] Existing Instance TestEnv.

(** After any sequence of additions of posters, changes of what is due and
    changes of payment addresses on a fresh table, with the errors for posters
    that already or do not exist, the stored total is the sum of what is due to
    the posters, every poster reads its own due amount and payment address, and
    [GetFundsDueList] lists exactly the posters with a positive amount. *)
Theorem BatchPosters_ledger {E : Env} {EL : EnvLaws E} (t : Storage) (U : list Z) (d : DB) (ops : list bp_op) :
  spaces_ok (bp_spaces t U ++ []) -> Forall (in_u 160) U ->
  (forall a, in_u 160 a -> aset_pos (OpenCachedSubStorage t [0]) d a = 0) ->
  Forall (bp_op_ok U) ops -> Z.of_nat (length ops) < 2 ^ 60 ->
  let bpt := OpenBatchPostersTable t in
  let '(rs, st) := bp_specs ops bp_empty in
  exists G d',
    runs G (InitializeBatchPostersTable t ;;; bp_steps bpt ops) d (Ok rs) d' /\
    runs G (AllPosters bpt MaxUint64) d' (Ok (bp_posters st)) d' /\ NoDup (bp_posters st) /\
    runs G (TotalFundsDue bpt) d' (Ok (foldr Z.add 0 (map (bp_due st) (bp_posters st)))) d' /\
    runs G (GetFundsDueList bpt) d' (Ok (bp_due_list st (bp_posters st))) d' /\
    forall p, p ∈ bp_posters st ->
      runs G (FundsDue (internalOpen bpt p)) d' (Ok (bp_due st p)) d' /\
      runs G (PayTo (internalOpen bpt p)) d' (Ok (bp_pay st p)) d'.
Proof.
  intros NC HU Hd Hops Hn bpt.
  destruct (InitializeBatchPostersTable_result t U [] NC d Hd) as (G1 & d1 & R1 & H1 & _).
  destruct (bp_steps_result t U [] NC HU ops 0 bp_empty d1 H1) as (Hg & G2 & d2 & R2 & H2);
    [split; [constructor|cbn; lia|intros p Hp; inversion Hp|reflexivity]|lia|exact Hops|].
  destruct (bp_specs ops bp_empty) as [rs st]. cbn [fst snd] in *.
  destruct (AllPosters_runs t U st d2 H2) as [G3 R3]. destruct (GetFundsDueList_runs t U st d2 H2) as [G4 R4].
  pose proof R1 as [P1 _]. pose proof R2 as [P2 _]. pose proof R3 as [P3 _]. pose proof R4 as [P4 _].
  exists (G1 + G2 + G3 + G4 + 800), d2.
  split; [eapply runs_le; [eapply runs_bind; [exact R1|exact R2]|lia]|].
  split; [eapply runs_le; [exact R3|lia]|]. split; [apply (bg_nodup _ _ Hg)|].
  split; [|split; [eapply runs_le; [exact R4|lia]|intros p Hp; split]].
  - change (foldr Z.add 0 _) with (sum_due st). rewrite <- (bg_total _ _ Hg).
    eapply runs_le; [eapply TotalFundsDue_runs; eauto|lia].
  - eapply runs_le; [eapply FundsDue_runs; eauto|lia].
  - eapply runs_le; [eapply PayTo_runs; eauto|lia].
Qed.

Lemma BatchPosters_ledger_witness :
  let t := mkStorage 1 [7] false in
  let bpt := OpenBatchPostersTable t in
  exists G d',
    runs G (InitializeBatchPostersTable t ;;;
            bp_steps bpt [BpAdd 5 9; BpAdd 5 8; BpSetDue 5 40; BpSetDue 6 2; BpSetPay 8 1; BpSetDue 5 30]) test_db
      (Ok [Ok tt; Err ErrAlreadyExists; Ok tt; Ok tt; Err ErrNotExist; Ok tt]) d' /\
    runs G (TotalFundsDue bpt) d' (Ok 32) d' /\
    runs G (GetFundsDueList bpt) d' (Ok [mkFundsDueItem 5 30; mkFundsDueItem 6 2]) d'.
Proof.
  destruct (BatchPosters_ledger (mkStorage 1 [7] false) [5; 6; 8] test_db
    [BpAdd 5 9; BpAdd 5 8; BpSetDue 5 40; BpSetDue 6 2; BpSetPay 8 1; BpSetDue 5 30])
    as (G & d' & R & _ & _ & RT & RL & _).
  - apply test_spaces_ok. apply (bool_decide_eq_true _). vm_compute. reflexivity.
  - repeat (apply Forall_cons; split; [split; [lia|reflexivity]|]). constructor.
  - intros a _. reflexivity.
  - repeat (apply Forall_cons; split; [split; [set_solver|unfold in_u; lia]|]). constructor.
  - reflexivity.
  - exists G, d'. split; [exact R|]. split; [exact RT|exact RL].
Defined.
