(* ===== verification/L1Pricing.v ===== *)
(** * arbos/l1pricing: the price of L1 calldata

    The state of the L1 pricer (l1pricing.go), the settlement with a batch
    poster ([UpdateForBatchPosterSpending], with its two older versions of
    l1PricingOldVersions.go) and the cost of posting a transaction. The
    segments that the three settlements share word for word are definitions of
    their own. What is proved about them is in L1PricingFacts.v. *)
From Stdlib Require Import ZArith Lia String List.
From stdpp Require Import base list numbers.
From S2P Require Import Prelude Arbmath Host Storage AddressSet Transfer BatchPoster.
Open Scope Z_scope.

Record L1PricingState := mkL1PricingState {
  l1_storage : Storage;
  l1_batchPosterTable : BatchPostersTable;
  l1_payRewardsTo : StorageSlot;
  l1_equilibrationUnits : StorageSlot;
  l1_inertia : StorageSlot;
  l1_perUnitReward : StorageSlot;
  l1_lastUpdateTime : StorageSlot;
  l1_fundsDueForRewards : StorageSlot;
  l1_unitsSinceUpdate : StorageSlot;
  l1_pricePerUnit : StorageSlot;
  l1_lastSurplus : StorageSlot;
  l1_perBatchGasCost : StorageSlot;
  l1_amortizedCostCapBips : StorageSlot;
  l1_l1FeesAvailable : StorageSlot
}.

Definition BatchPosterTableKey : list Z := [0].
Definition BatchPosterAddress : Z := 0xA4B000000000000000000073657175656e636572.
Definition BatchPosterPayToAddress : Z := BatchPosterAddress.
Definition L1PricerFundsPoolAddress : Z := 0xA4B00000000000000000000000000000000000f6.

Definition payRewardsToOffset : Z := 0.
Definition equilibrationUnitsOffset : Z := 1.
Definition inertiaOffset : Z := 2.
Definition perUnitRewardOffset : Z := 3.
Definition lastUpdateTimeOffset : Z := 4.
Definition fundsDueForRewardsOffset : Z := 5.
Definition unitsSinceOffset : Z := 6.
Definition pricePerUnitOffset : Z := 7.
Definition lastSurplusOffset : Z := 8.
Definition perBatchGasCostOffset : Z := 9.
Definition amortizedCostCapBipsOffset : Z := 10.
Definition l1FeesAvailableOffset : Z := 11.

Definition InitialInertia : Z := 10.
Definition InitialPerUnitReward : Z := 10.
Definition InitialPerBatchGasCostV6 : Z := 100000.
Definition InitialPerBatchGasCostV12 : Z := 210000.

Definition InitialEquilibrationUnitsV0 : Z := UintToBig (60 * TxDataNonZeroGasEIP2028 * 100000).
Definition InitialEquilibrationUnitsV6 : Z := UintToBig (TxDataNonZeroGasEIP2028 * 10000000).

(** ** What the code uses of transactions and of the compressor

    [types.Transaction], the numbers of the transaction types and the chain
    configuration belong to the execution client, [CompressLevel] is a binding
    to the brotli library. *)
Record DynamicFeeTx := mkDynamicFeeTx {
  dft_Nonce : Z; dft_GasTipCap : Z; dft_GasFeeCap : Z; dft_Gas : Z; dft_To : option Z;
  dft_Value : Z; dft_Data : list Z; dft_AccessList : list (Z * list Z); dft_V : Z; dft_R : Z; dft_S : Z
}.

Class TxEnv := {
  Transaction : Type;
  tx_MarshalBinary : Transaction -> outcome (list Z);
  tx_Type : Transaction -> Z;
  NewTx : DynamicFeeTx -> Transaction;
  ArbitrumUnsignedTxType : Z;
  ArbitrumContractTxType : Z;
  ArbitrumRetryTxType : Z;
  ArbitrumInternalTxType : Z;
  ArbitrumSubmitRetryableTxType : Z;
  ArbitrumOneChainID : Z;
  CompressLevel : list Z -> Z -> outcome (list Z)
}.

(** The fields of [core.Message] that the pricer reads; [msg_Tx] is the
    transaction with the units cached in it. *)
Record Message `{TxEnv} := mkMessage {
  msg_Tx : option (Transaction * Z);
  msg_GasEstimationMode : bool;
  msg_Nonce : Z; msg_GasTipCap : Z; msg_GasFeeCap : Z; msg_GasLimit : Z; msg_To : option Z;
  msg_Value : Z; msg_Data : list Z; msg_AccessList : list (Z * list Z)
}.

Section Operations.
Context {E : Env}.

Definition InitializeL1PricingState (sto : Storage) (initialRewardsRecipient initialL1BaseFee : Z) : M unit :=
  let bptStorage := OpenCachedSubStorage sto BatchPosterTableKey in
  InitializeBatchPostersTable bptStorage ;;;
  let bpTable := OpenBatchPostersTable bptStorage in
  let* _ := AddPoster bpTable BatchPosterAddress BatchPosterPayToAddress in
  Storage_SetByUint64 sto payRewardsToOffset (AddressToHash initialRewardsRecipient) ;;;
  StorageBackedBigUint_SetChecked (OpenStorageBackedBigUint sto equilibrationUnitsOffset) InitialEquilibrationUnitsV0 ;;;
  Storage_SetUint64ByUint64 sto inertiaOffset InitialInertia ;;;
  StorageBackedBigInt_SetChecked (OpenStorageBackedBigInt sto fundsDueForRewardsOffset) 0 ;;;
  Storage_SetUint64ByUint64 sto perUnitRewardOffset InitialPerUnitReward ;;;
  StorageBackedBigInt_SetSaturatingWithWarning (OpenStorageBackedBigInt sto pricePerUnitOffset) initialL1BaseFee.

Definition OpenL1PricingState (sto : Storage) : L1PricingState :=
  mkL1PricingState
    sto
    (OpenBatchPostersTable (OpenCachedSubStorage sto BatchPosterTableKey))
    (OpenStorageBackedAddress sto payRewardsToOffset)
    (OpenStorageBackedBigUint sto equilibrationUnitsOffset)
    (OpenStorageBackedUint64 sto inertiaOffset)
    (OpenStorageBackedUint64 sto perUnitRewardOffset)
    (OpenStorageBackedUint64 sto lastUpdateTimeOffset)
    (OpenStorageBackedBigInt sto fundsDueForRewardsOffset)
    (OpenStorageBackedUint64 sto unitsSinceOffset)
    (OpenStorageBackedBigUint sto pricePerUnitOffset)
    (OpenStorageBackedBigInt sto lastSurplusOffset)
    (OpenStorageBackedInt64 sto perBatchGasCostOffset)
    (OpenStorageBackedUint64 sto amortizedCostCapBipsOffset)
    (OpenStorageBackedBigUint sto l1FeesAvailableOffset).

Definition BatchPosterTable (ps : L1PricingState) : BatchPostersTable := l1_batchPosterTable ps.

Definition PayRewardsTo (ps : L1PricingState) : M Z := StorageBackedAddress_Get (l1_payRewardsTo ps).
Definition SetPayRewardsTo (ps : L1PricingState) (addr : Z) : M unit :=
  StorageBackedAddress_Set (l1_payRewardsTo ps) addr.

Definition EquilibrationUnits (ps : L1PricingState) : M Z := StorageBackedBigUint_Get (l1_equilibrationUnits ps).
Definition SetEquilibrationUnits (ps : L1PricingState) (equilUnits : Z) : M unit :=
  StorageBackedBigUint_SetChecked (l1_equilibrationUnits ps) equilUnits.

Definition Inertia (ps : L1PricingState) : M Z := StorageBackedUint64_Get (l1_inertia ps).
Definition SetInertia (ps : L1PricingState) (inertia : Z) : M unit := StorageBackedUint64_Set (l1_inertia ps) inertia.

Definition PerUnitReward (ps : L1PricingState) : M Z := StorageBackedUint64_Get (l1_perUnitReward ps).
Definition SetPerUnitReward (ps : L1PricingState) (weiPerUnit : Z) : M unit :=
  StorageBackedUint64_Set (l1_perUnitReward ps) weiPerUnit.

Definition LastUpdateTime (ps : L1PricingState) : M Z := StorageBackedUint64_Get (l1_lastUpdateTime ps).
Definition SetLastUpdateTime (ps : L1PricingState) (t : Z) : M unit :=
  StorageBackedUint64_Set (l1_lastUpdateTime ps) t.

Definition FundsDueForRewards (ps : L1PricingState) : M Z := StorageBackedBigInt_Get (l1_fundsDueForRewards ps).
Definition SetFundsDueForRewards (ps : L1PricingState) (amt : Z) : M unit :=
  StorageBackedBigInt_SetSaturatingWithWarning (l1_fundsDueForRewards ps) amt.

Definition UnitsSinceUpdate (ps : L1PricingState) : M Z := StorageBackedUint64_Get (l1_unitsSinceUpdate ps).
Definition SetUnitsSinceUpdate (ps : L1PricingState) (units : Z) : M unit :=
  StorageBackedUint64_Set (l1_unitsSinceUpdate ps) units.

Definition L1FeesAvailable (ps : L1PricingState) : M Z := StorageBackedBigUint_Get (l1_l1FeesAvailable ps).
Definition SetL1FeesAvailable (ps : L1PricingState) (val : Z) : M unit :=
  StorageBackedBigUint_SetChecked (l1_l1FeesAvailable ps) val.

Definition GetL1PricingSurplus (ps : L1PricingState) : M Z :=
  let* fundsDueForRefunds := TotalFundsDue (BatchPosterTable ps) in
  let* fundsDueForRewards := FundsDueForRewards ps in
  let* haveFunds := L1FeesAvailable ps in
  let needFunds := BigAdd fundsDueForRefunds fundsDueForRewards in
  ret (BigSub haveFunds needFunds).

Definition LastSurplus (ps : L1PricingState) : M Z := StorageBackedBigInt_Get (l1_lastSurplus ps).
Definition SetLastSurplus (ps : L1PricingState) (val arbosVersion : Z) : M unit :=
  if arbosVersion <? 7 then StorageBackedBigInt_Set_preVersion7 (l1_lastSurplus ps) val
  else StorageBackedBigInt_SetSaturatingWithWarning (l1_lastSurplus ps) val.

Definition AddToUnitsSinceUpdate (ps : L1PricingState) (units : Z) : M unit :=
  let* oldUnits := StorageBackedUint64_Get (l1_unitsSinceUpdate ps) in
  StorageBackedUint64_Set (l1_unitsSinceUpdate ps) (oldUnits +u64 units).

Definition PricePerUnit (ps : L1PricingState) : M Z := StorageBackedBigUint_Get (l1_pricePerUnit ps).
Definition SetPricePerUnit (ps : L1PricingState) (price : Z) : M unit :=
  StorageBackedBigUint_SetChecked (l1_pricePerUnit ps) price.

Definition PerBatchGasCost (ps : L1PricingState) : M Z := StorageBackedInt64_Get (l1_perBatchGasCost ps).
Definition SetPerBatchGasCost (ps : L1PricingState) (cost : Z) : M unit :=
  StorageBackedInt64_Set (l1_perBatchGasCost ps) cost.

Definition AmortizedCostCapBips (ps : L1PricingState) : M Z := StorageBackedUint64_Get (l1_amortizedCostCapBips ps).
Definition SetAmortizedCostCapBips (ps : L1PricingState) (cap : Z) : M unit :=
  StorageBackedUint64_Set (l1_amortizedCostCapBips ps) cap.

Definition AddToL1FeesAvailable (ps : L1PricingState) (delta : Z) : M Z :=
  let* old := L1FeesAvailable ps in
  let new := old + delta in
  SetL1FeesAvailable ps new ;;;
  ret new.

Definition TransferFromL1FeesAvailable (ps : L1PricingState) (recipient amount : Z) (evm : EVM)
  (scenario : TracingScenario) (purpose : string) : M Z :=
  TransferBalance (Some L1PricerFundsPoolAddress) (Some recipient) amount evm scenario purpose ;;;
  let* old := L1FeesAvailable ps in
  let updated := old - amount in
  if updated <? 0 then fail ErrInsufficientFunds
  else
    SetL1FeesAvailable ps updated ;;;
    ret updated.

(** *** The segments the settlements share *)

(** The fraction of the units and funds that is allocated to an update. *)
Definition allocation (lastUpdateTime updateTime currentTime : Z) : Z * Z :=
  let allocationNumerator := updateTime -u64 lastUpdateTime in
  let allocationDenominator := currentTime -u64 lastUpdateTime in
  if allocationDenominator =? 0 then (1, 1) else (allocationNumerator, allocationDenominator).

(** Allocate units to this update. *)
Definition allocateUnits (ps : L1PricingState) (allocationNumerator allocationDenominator : Z) : M Z :=
  let* unitsSinceUpdate := UnitsSinceUpdate ps in
  let* unitsAllocated :=
    lift (go_div (SaturatingUMul 64 unitsSinceUpdate allocationNumerator) allocationDenominator) in
  SetUnitsSinceUpdate ps (unitsSinceUpdate -u64 unitsAllocated) ;;;
  ret unitsAllocated.

(** Impose the cap on the amortized cost, if there is one. *)
Definition capSpending (ps : L1PricingState) (arbosVersion l1Basefee unitsAllocated weiSpent : Z) : M Z :=
  if 3 <=? arbosVersion then
    let* amortizedCostCapBips := AmortizedCostCapBips ps in
    if negb (amortizedCostCapBips =? 0) then
      let* weiSpentCap :=
        lift (BigMulByBips (BigMulByUint l1Basefee unitsAllocated) (SaturatingCastToBips amortizedCostCapBips)) in
      if BigLessThan weiSpentCap weiSpent then ret weiSpentCap else ret weiSpent
    else ret weiSpent
  else ret weiSpent.

(** Add the spending to what is due to the poster and the reward to what is
    due for rewards; returns the reward per unit and the funds due for rewards. *)
Definition accrue (ps : L1PricingState) (posterState : BatchPosterState)
  (weiSpent unitsAllocated fundsDueForRewards : Z) : M (Z * Z) :=
  let* dueToPoster := FundsDue posterState in
  SetFundsDue posterState (BigAdd dueToPoster weiSpent) ;;;
  let* perUnitReward := PerUnitReward ps in
  let fundsDueForRewards := BigAdd fundsDueForRewards (BigMulByUint (UintToBig unitsAllocated) perUnitReward) in
  SetFundsDueForRewards ps fundsDueForRewards ;;;
  ret (perUnitReward, fundsDueForRewards).

(** Adjust the price, with [funds] the funds collected. *)
Definition adjustPrice (ps : L1PricingState) (funds unitsAllocated arbosVersion : Z) : M unit :=
  let* totalFundsDue := TotalFundsDue (BatchPosterTable ps) in
  let* fundsDueForRewards := FundsDueForRewards ps in
  let surplus := BigSub funds (BigAdd totalFundsDue fundsDueForRewards) in
  let* inertia := Inertia ps in
  let* equilUnits := EquilibrationUnits ps in
  let* inertiaUnits := lift (BigDivByUint equilUnits inertia) in
  let* price := PricePerUnit ps in
  let allocPlusInert := BigAddByUint inertiaUnits unitsAllocated in
  let* oldSurplus := LastSurplus ps in
  let* desiredDerivative := lift (BigDiv (- surplus) equilUnits) in
  let* actualDerivative := lift (BigDivByUint (BigSub surplus oldSurplus) unitsAllocated) in
  let changeDerivativeBy := BigSub desiredDerivative actualDerivative in
  let* priceChange := lift (BigDiv (BigMulByUint changeDerivativeBy unitsAllocated) allocPlusInert) in
  SetLastSurplus ps surplus arbosVersion ;;;
  let newPrice := BigAdd price priceChange in
  let newPrice := if Z.sgn newPrice <? 0 then 0 else newPrice in
  SetPricePerUnit ps newPrice.

(** *** l1PricingOldVersions.go *)

(** The loop that settles with every poster, as long as funds are available. *)
Fixpoint preVersion2_settle_loop (ps : L1PricingState) (evm : EVM) (scenario : TracingScenario)
  (allPosterAddrs : list Z) (availableFunds : Z) : M unit :=
  match allPosterAddrs with
  | [] => ret tt
  | posterAddr :: allPosterAddrs =>
      let* poster := OpenPoster (BatchPosterTable ps) posterAddr false in
      let* balanceDueToPoster := FundsDue poster in
      let balanceToTransfer :=
        if BigLessThan availableFunds balanceDueToPoster then availableFunds else balanceDueToPoster in
      if 0 <? Z.sgn balanceToTransfer then
        let* addrToPay := PayTo poster in
        TransferBalance (Some L1PricerFundsPoolAddress) (Some addrToPay) balanceToTransfer evm scenario
          "batchPosterRefund" ;;;
        SetFundsDue poster (BigSub balanceDueToPoster balanceToTransfer) ;;;
        preVersion2_settle_loop ps evm scenario allPosterAddrs (BigSub availableFunds balanceToTransfer)
      else preVersion2_settle_loop ps evm scenario allPosterAddrs availableFunds
  end.

Definition _preVersion2_UpdateForBatchPosterSpending (ps : L1PricingState) (evm : EVM)
  (updateTime currentTime batchPoster weiSpent : Z) (scenario : TracingScenario) : M unit :=
  let batchPosterTable := BatchPosterTable ps in
  let* posterState := OpenPoster batchPosterTable batchPoster true in
  let* totalFundsDue := TotalFundsDue batchPosterTable in
  let* fundsDueForRewards := FundsDueForRewards ps in
  let* balance := db_read (fun d => GetBalance d L1PricerFundsPoolAddress) in
  let oldSurplus := BigSub balance (BigAdd totalFundsDue fundsDueForRewards) in
  let* lastUpdateTime := LastUpdateTime ps in
  let lastUpdateTime :=
    if (lastUpdateTime =? 0) && (0 <? currentTime) then updateTime -u64 1 else lastUpdateTime in
  if (currentTime <=? updateTime) || (updateTime <? lastUpdateTime) then ret tt
  else
    let (allocationNumerator, allocationDenominator) := allocation lastUpdateTime updateTime currentTime in
    let* unitsSinceUpdate := UnitsSinceUpdate ps in
    let* unitsAllocated := lift (go_div (unitsSinceUpdate *u64 allocationNumerator) allocationDenominator) in
    SetUnitsSinceUpdate ps (unitsSinceUpdate -u64 unitsAllocated) ;;;
    let* (perUnitReward, fundsDueForRewards) := accrue ps posterState weiSpent unitsAllocated fundsDueForRewards in
    let* collectedSinceUpdate := db_read (fun d => GetBalance d L1PricerFundsPoolAddress) in
    let* availableFunds :=
      lift (BigDivByUint (BigMulByUint collectedSinceUpdate allocationNumerator) allocationDenominator) in
    let paymentForRewards := BigMulByUint (UintToBig perUnitReward) unitsAllocated in
    let paymentForRewards :=
      if BigLessThan availableFunds paymentForRewards then availableFunds else paymentForRewards in
    let fundsDueForRewards := BigSub fundsDueForRewards paymentForRewards in
    SetFundsDueForRewards ps fundsDueForRewards ;;;
    let* payRewardsTo := PayRewardsTo ps in
    TransferBalance (Some L1PricerFundsPoolAddress) (Some payRewardsTo) paymentForRewards evm scenario
      "batchPosterReward" ;;;
    let availableFunds := BigSub availableFunds paymentForRewards in
    let* allPosterAddrs := AllPosters batchPosterTable MaxUint64 in
    preVersion2_settle_loop ps evm scenario allPosterAddrs availableFunds ;;;
    SetLastUpdateTime ps updateTime ;;;
    if 0 <? unitsAllocated then
      let* totalFundsDue := TotalFundsDue batchPosterTable in
      let* fundsDueForRewards := FundsDueForRewards ps in
      let* balance := db_read (fun d => GetBalance d L1PricerFundsPoolAddress) in
      let surplus := BigSub balance (BigAdd totalFundsDue fundsDueForRewards) in
      let* inertia := Inertia ps in
      let* equilUnits := EquilibrationUnits ps in
      let* inertiaUnits := lift (BigDivByUint equilUnits inertia) in
      let* price := PricePerUnit ps in
      let allocPlusInert := BigAddByUint inertiaUnits unitsAllocated in
      let* priceChange :=
        lift (BigDiv (BigSub (BigMul surplus (BigSub equilUnits 1)) (BigMul oldSurplus equilUnits))
                (BigMul equilUnits allocPlusInert)) in
      let newPrice := BigAdd price priceChange in
      let newPrice := if Z.sgn newPrice <? 0 then 0 else newPrice in
      SetPricePerUnit ps newPrice
    else ret tt.

Definition _preversion10_UpdateForBatchPosterSpending (ps : L1PricingState) (evm : EVM)
  (arbosVersion updateTime currentTime batchPoster weiSpent l1Basefee : Z) (scenario : TracingScenario) : M unit :=
  if arbosVersion <? 2 then
    _preVersion2_UpdateForBatchPosterSpending ps evm updateTime currentTime batchPoster weiSpent scenario
  else
    let batchPosterTable := BatchPosterTable ps in
    let* posterState := OpenPoster batchPosterTable batchPoster true in
    let* fundsDueForRewards := FundsDueForRewards ps in
    let* lastUpdateTime := LastUpdateTime ps in
    let lastUpdateTime :=
      if (lastUpdateTime =? 0) && (0 <? updateTime) then updateTime -u64 1 else lastUpdateTime in
    if (currentTime <? updateTime) || (updateTime <? lastUpdateTime) then fail ErrInvalidTime
    else
      let (allocationNumerator, allocationDenominator) := allocation lastUpdateTime updateTime currentTime in
      let* unitsAllocated := allocateUnits ps allocationNumerator allocationDenominator in
      let* weiSpent := capSpending ps arbosVersion l1Basefee unitsAllocated weiSpent in
      let* (perUnitReward, fundsDueForRewards) := accrue ps posterState weiSpent unitsAllocated fundsDueForRewards in
      let paymentForRewards := BigMulByUint (UintToBig perUnitReward) unitsAllocated in
      let* availableFunds := db_read (fun d => GetBalance d L1PricerFundsPoolAddress) in
      let paymentForRewards :=
        if BigLessThan availableFunds paymentForRewards then availableFunds else paymentForRewards in
      let fundsDueForRewards := BigSub fundsDueForRewards paymentForRewards in
      SetFundsDueForRewards ps fundsDueForRewards ;;;
      let* payRewardsTo := PayRewardsTo ps in
      TransferBalance (Some L1PricerFundsPoolAddress) (Some payRewardsTo) paymentForRewards evm scenario
        "batchPosterReward" ;;;
      let* availableFunds := db_read (fun d => GetBalance d L1PricerFundsPoolAddress) in
      let* balanceDueToPoster := FundsDue posterState in
      let balanceToTransfer :=
        if BigLessThan availableFunds balanceDueToPoster then availableFunds else balanceDueToPoster in
      (if 0 <? Z.sgn balanceToTransfer then
         let* addrToPay := PayTo posterState in
         TransferBalance (Some L1PricerFundsPoolAddress) (Some addrToPay) balanceToTransfer evm scenario
           "batchPosterRefund" ;;;
         SetFundsDue posterState (BigSub balanceDueToPoster balanceToTransfer)
       else ret tt) ;;;
      SetLastUpdateTime ps updateTime ;;;
      if 0 <? unitsAllocated then
        (** the balance of the pool is read after the total and the rewards, neither of which changes it *)
        let* balance := db_read (fun d => GetBalance d L1PricerFundsPoolAddress) in
        adjustPrice ps balance unitsAllocated arbosVersion
      else ret tt.

(** *** The settlement with a batch poster *)

(** Pay rewards, as much as possible; returns the fees that are left. *)
Definition settleRewards (ps : L1PricingState) (evm : EVM) (scenario : TracingScenario)
  (l1FeesAvailable perUnitReward unitsAllocated fundsDueForRewards : Z) : M Z :=
  let paymentForRewards := BigMulByUint (UintToBig perUnitReward) unitsAllocated in
  let paymentForRewards :=
    if BigLessThan l1FeesAvailable paymentForRewards then l1FeesAvailable else paymentForRewards in
  let fundsDueForRewards := BigSub fundsDueForRewards paymentForRewards in
  SetFundsDueForRewards ps fundsDueForRewards ;;;
  let* payRewardsTo := PayRewardsTo ps in
  TransferFromL1FeesAvailable ps payRewardsTo paymentForRewards evm scenario "batchPosterReward".

(** Settle up the payments owed to the batch poster, as much as possible;
    returns the fees that are left. *)
Definition settlePoster (ps : L1PricingState) (posterState : BatchPosterState) (evm : EVM)
  (scenario : TracingScenario) (l1FeesAvailable : Z) : M Z :=
  let* balanceDueToPoster := FundsDue posterState in
  let balanceToTransfer :=
    if BigLessThan l1FeesAvailable balanceDueToPoster then l1FeesAvailable else balanceDueToPoster in
  if 0 <? Z.sgn balanceToTransfer then
    let* addrToPay := PayTo posterState in
    let* l1FeesAvailable :=
      TransferFromL1FeesAvailable ps addrToPay balanceToTransfer evm scenario "batchPosterRefund" in
    SetFundsDue posterState (BigSub balanceDueToPoster balanceToTransfer) ;;;
    ret l1FeesAvailable
  else ret l1FeesAvailable.

Definition UpdateForBatchPosterSpending (ps : L1PricingState) (evm : EVM)
  (arbosVersion updateTime currentTime batchPoster weiSpent l1Basefee : Z) (scenario : TracingScenario) : M unit :=
  if arbosVersion <? 10 then
    _preversion10_UpdateForBatchPosterSpending ps evm arbosVersion updateTime currentTime batchPoster
      weiSpent l1Basefee scenario
  else
    let batchPosterTable := BatchPosterTable ps in
    let* posterState := OpenPoster batchPosterTable batchPoster true in
    let* fundsDueForRewards := FundsDueForRewards ps in
    let* l1FeesAvailable := L1FeesAvailable ps in
    let* lastUpdateTime := LastUpdateTime ps in
    let lastUpdateTime :=
      if (lastUpdateTime =? 0) && (0 <? updateTime) then updateTime -u64 1 else lastUpdateTime in
    if (currentTime <? updateTime) || (updateTime <? lastUpdateTime) then fail ErrInvalidTime
    else
      let (allocationNumerator, allocationDenominator) := allocation lastUpdateTime updateTime currentTime in
      let* unitsAllocated := allocateUnits ps allocationNumerator allocationDenominator in
      let* weiSpent := capSpending ps arbosVersion l1Basefee unitsAllocated weiSpent in
      let* (perUnitReward, fundsDueForRewards) := accrue ps posterState weiSpent unitsAllocated fundsDueForRewards in
      let* l1FeesAvailable :=
        settleRewards ps evm scenario l1FeesAvailable perUnitReward unitsAllocated fundsDueForRewards in
      let* l1FeesAvailable := settlePoster ps posterState evm scenario l1FeesAvailable in
      SetLastUpdateTime ps updateTime ;;;
      if 0 <? unitsAllocated then adjustPrice ps l1FeesAvailable unitsAllocated arbosVersion
      else ret tt.

(** *** The cost of posting a transaction *)
Context {T : TxEnv}.

Definition TxTypeHasPosterCosts (txType : Z) : bool :=
  negb ((txType =? ArbitrumUnsignedTxType) || (txType =? ArbitrumContractTxType) ||
        (txType =? ArbitrumRetryTxType) || (txType =? ArbitrumInternalTxType) ||
        (txType =? ArbitrumSubmitRetryableTxType)).

Definition byteCountAfterBrotliLevel (input : list Z) (level : Z) : outcome Z :=
  let? compressed := CompressLevel input level in
  Ok (u64 (Z.of_nat (length compressed))).

Definition getPosterUnitsWithoutCache (tx : Transaction) (posterAddr brotliCompressionLevel : Z) : outcome Z :=
  if negb (posterAddr =? BatchPosterAddress) then Ok 0
  else
    match tx_MarshalBinary tx with
    | Panic msg => Panic msg
    | Err _ => Ok 0
    | Ok txBytes =>
        if negb (TxTypeHasPosterCosts (tx_Type tx)) then Ok 0
        else
          match byteCountAfterBrotliLevel txBytes (i64 brotliCompressionLevel) with
          | Ok l1Bytes => Ok (l1Bytes *u64 TxDataNonZeroGasEIP2028)
          | _ => Panic "failed to compress tx"
          end
    end.

(** The cost, the units, and the units cached in the transaction afterwards. *)
Definition GetPosterInfo (ps : L1PricingState) (tx : Transaction) (CalldataUnits : Z)
  (poster brotliCompressionLevel : Z) : M (Z * Z * Z) :=
  if negb (poster =? BatchPosterAddress) then ret (0, 0, CalldataUnits)
  else
    let* units :=
      if CalldataUnits =? 0 then lift (getPosterUnitsWithoutCache tx poster brotliCompressionLevel)
      else ret CalldataUnits in
    let* pricePerUnit := value_or 0 (PricePerUnit ps) in
    ret (BigMulByUint pricePerUnit units, units, units).

Definition estimationPaddingUnits : Z := 16 * TxDataNonZeroGasEIP2028.
Definition estimationPaddingBasisPoints : Z := 100.

(** The values that stand in for missing fields come from hashes of names. *)
Definition random_word (name : string) : Z := keccak256 (bytes_of_string name).
Definition randomNonce : Z := be (take 8 (Hash_Bytes (random_word "Nonce"))).
Definition randomGasTipCap : Z := be (take 4 (Hash_Bytes (random_word "GasTipCap"))).
Definition randomGasFeeCap : Z := be (take 4 (Hash_Bytes (random_word "GasFeeCap"))).
Definition RandomGas : Z := be (take 4 (Hash_Bytes (random_word "Gas"))).
Definition randV : Z := BigMulByUint ArbitrumOneChainID 3.
Definition randR : Z := random_word "R".
Definition randS : Z := random_word "S".

Definition makeFakeTxForMessage (message : Message) : Transaction :=
  let nonce := if msg_Nonce message =? 0 then randomNonce else msg_Nonce message in
  let gasTipCap := if Z.sgn (msg_GasTipCap message) =? 0 then randomGasTipCap else msg_GasTipCap message in
  let gasFeeCap := if Z.sgn (msg_GasFeeCap message) =? 0 then randomGasFeeCap else msg_GasFeeCap message in
  let gas :=
    if (msg_GasLimit message =? 0) || msg_GasEstimationMode message then RandomGas else msg_GasLimit message in
  NewTx (mkDynamicFeeTx nonce gasTipCap gasFeeCap gas (msg_To message) (msg_Value message) (msg_Data message)
           (msg_AccessList message) randV randR randS).

(** The cost and the units; the update of the cache is that of [GetPosterInfo]. *)
Definition PosterDataCost (ps : L1PricingState) (message : Message) (poster brotliCompressionLevel : Z) : M (Z * Z) :=
  match msg_Tx message with
  | Some (tx, CalldataUnits) =>
      let* (cost, _) := GetPosterInfo ps tx CalldataUnits poster brotliCompressionLevel in
      ret cost
  | None =>
      let tx := makeFakeTxForMessage message in
      let* units := lift (getPosterUnitsWithoutCache tx poster brotliCompressionLevel) in
      let units := UintMulByBips (units +u64 estimationPaddingUnits) (OneInBips + estimationPaddingBasisPoints) in
      let* pricePerUnit := value_or 0 (PricePerUnit ps) in
      ret (BigMulByUint pricePerUnit units, units)
  end.
End Operations.
