(* ===== verification/L1PricingFacts.v ===== *)
(** * The settlement of the L1 pricer

    The state of the pricer as an abstract record ([l1_state]: its cells, the
    batch poster table, the balances of the accounts), the representation
    [l1_at] of it in the database, the effect of every segment of
    [UpdateForBatchPosterSpending] on it, and the properties of the
    settlement. *)
From Stdlib Require Import ZArith Lia String List.
From stdpp Require Import base list numbers gmap.
From S2P Require Import Prelude Arbmath Host Storage StorageFacts Refine MemEnv IndexedSet AddressSet Transfer BatchPoster L1Pricing.
Open Scope Z_scope.

Record l1_state := mkL1State {
  l1_cells : Z -> Z;        (* by offset *)
  l1_table : bp_state;
  l1_bal : Z -> Z
}.

Definition set_cell (st : l1_state) (k v : Z) : l1_state :=
  mkL1State (fun j => if j =? k then v else l1_cells st j) (l1_table st) (l1_bal st).
Definition set_table (st : l1_state) (tb : bp_state) : l1_state := mkL1State (l1_cells st) tb (l1_bal st).
Definition move_bal (b : Z -> Z) (from to amount : Z) : Z -> Z :=
  fun a => b a - (if decide (from = a) then amount else 0) + (if decide (to = a) then amount else 0).
Definition set_bal (st : l1_state) (b : Z -> Z) : l1_state := mkL1State (l1_cells st) (l1_table st) b.

(** The type of the cell at an offset, and the words that represent a value. *)
Inductive cell_kind := KAddress | KUint64 | KInt64 | KBigUint | KBigInt.

Definition l1_kind (k : Z) : cell_kind :=
  if k =? 0 then KAddress
  else if (k =? 1) || (k =? 7) || (k =? 11) then KBigUint
  else if (k =? 5) || (k =? 8) then KBigInt
  else if k =? 9 then KInt64 else KUint64.

Definition cell_word (kind : cell_kind) (v w : Z) : Prop :=
  match kind with
  | KAddress => w = v /\ in_u 160 v
  | KUint64 => w = v /\ in_u 64 v
  | KInt64 => w = u64 v /\ in_s 64 v
  | KBigUint => w = v /\ in_u 256 v
  | KBigInt => in_u 256 w /\ bigint_decode w = v
  end.

(** ** The settlement, as arithmetic *)

(** The time of the last update; the first update has none. *)
Definition l1_last (last updateTime : Z) : Z :=
  if (last =? 0) && (0 <? updateTime) then updateTime - 1 else last.

(** The units allocated to an update: the fraction of the time since the last
    update that it covers. *)
Definition l1_allocated (units last updateTime currentTime : Z) : Z :=
  if currentTime =? last then units
  else Z.min (units * (updateTime - last)) (2 ^ 64 - 1) / (currentTime - last).

Definition l1_capped (cap l1Basefee units weiSpent : Z) : Z :=
  if cap =? 0 then weiSpent else Z.min weiSpent (l1Basefee * units * Z.min cap (2 ^ 63 - 1) / 10000).

Definition l1_new_price (price surplus oldSurplus equil inertia units : Z) : Z :=
  Z.max 0 (price + ((- surplus) / equil - (surplus - oldSurplus) / units) * units / (equil / inertia + units)).

Lemma l1_allocated_bounds units last ut ct : 0 <= units < 2 ^ 64 -> last <= ut <= ct ->
  0 <= l1_allocated units last ut ct <= units.
Proof.
  intros Hu Ht. unfold l1_allocated. destruct (Z.eqb_spec ct last); [lia|]. split.
  - apply Z.div_pos; nia.
  - apply Z.div_le_upper_bound; [lia|]. nia.
Qed.

Lemma l1_capped_bounds cap bf ua wei : 0 <= cap -> 0 <= bf -> 0 <= ua -> 0 <= wei ->
  0 <= l1_capped cap bf ua wei <= wei.
Proof.
  intros. unfold l1_capped. destruct (cap =? 0); [lia|].
  assert (0 <= bf * ua * Z.min cap (2 ^ 63 - 1) / 10000) by (apply Z.div_pos; [|lia]; apply Z.mul_nonneg_nonneg; nia).
  lia.
Qed.

(** A state the pricer can settle from: the fees recorded are in the pool, and
    no amount is near the bounds of its cell. *)
Record l1_sane (st : l1_state) (poster : Z) : Prop := {
  ls_fees : 0 <= l1_cells st l1FeesAvailableOffset <= l1_bal st L1PricerFundsPoolAddress;
  ls_fees_max : l1_cells st l1FeesAvailableOffset < 2 ^ 250;
  ls_rewards : Z.abs (l1_cells st fundsDueForRewardsOffset) < 2 ^ 250;
  ls_surplus : Z.abs (l1_cells st lastSurplusOffset) < 2 ^ 250;
  ls_price : l1_cells st pricePerUnitOffset < 2 ^ 250;
  ls_equil : 0 < l1_cells st equilibrationUnitsOffset;
  ls_inertia : 0 < l1_cells st inertiaOffset;
  ls_total : Z.abs (bp_total (l1_table st)) < 2 ^ 250;
  ls_due : poster ∈ bp_posters (l1_table st) -> Z.abs (bp_due (l1_table st) poster) < 2 ^ 250;
  ls_posters : Z.of_nat (length (bp_posters (l1_table st))) < 2 ^ 64 - 2
}.

(** The settlement of an update with a poster that spent [wei]: [units] are
    allocated to it, [spent] is credited to the poster after the cap, [reward]
    is paid for rewards and [refund] to the poster, both as much as the fees
    allow. *)
Record settlement (st : l1_state) (updateTime currentTime poster wei l1Basefee : Z)
  (units spent reward refund : Z) (st' : l1_state) : Prop := {
  se_units : units = l1_allocated (l1_cells st unitsSinceOffset)
               (l1_last (l1_cells st lastUpdateTimeOffset) updateTime) updateTime currentTime;
  se_spent : spent = l1_capped (l1_cells st amortizedCostCapBipsOffset) l1Basefee units wei;
  se_reward : reward = Z.min (l1_cells st l1FeesAvailableOffset) (units * l1_cells st perUnitRewardOffset);
  se_refund : refund = Z.max 0 (Z.min (l1_cells st l1FeesAvailableOffset - reward)
                (bp_due (bp_open (l1_table st) poster) poster + spent));
  se_units' : l1_cells st' unitsSinceOffset = l1_cells st unitsSinceOffset - units;
  se_time' : l1_cells st' lastUpdateTimeOffset = updateTime;
  se_rewards' : l1_cells st' fundsDueForRewardsOffset =
    l1_cells st fundsDueForRewardsOffset + units * l1_cells st perUnitRewardOffset - reward;
  se_fees' : l1_cells st' l1FeesAvailableOffset = l1_cells st l1FeesAvailableOffset - reward - refund;
  se_posters' : bp_posters (l1_table st') = bp_posters (bp_open (l1_table st) poster);
  se_due' : bp_due (l1_table st') poster = bp_due (bp_open (l1_table st) poster) poster + spent - refund;
  se_others' p : p <> poster -> bp_due (l1_table st') p = bp_due (l1_table st) p;
  se_pay' p : bp_pay (l1_table st') p = bp_pay (bp_open (l1_table st) poster) p;
  se_total' : bp_total (l1_table st') = bp_total (l1_table st) + spent - refund;
  se_bal' a : l1_bal st' a =
    move_bal (move_bal (l1_bal st) L1PricerFundsPoolAddress (l1_cells st payRewardsToOffset) reward)
      L1PricerFundsPoolAddress (bp_pay (bp_open (l1_table st) poster) poster) refund a;
  se_price' :
    let surplus := l1_cells st' l1FeesAvailableOffset
      - (bp_total (l1_table st') + l1_cells st' fundsDueForRewardsOffset) in
    if 0 <? units then
      l1_cells st' lastSurplusOffset = surplus /\
      l1_cells st' pricePerUnitOffset =
        l1_new_price (l1_cells st pricePerUnitOffset) surplus (l1_cells st lastSurplusOffset)
          (l1_cells st equilibrationUnitsOffset) (l1_cells st inertiaOffset) units
    else
      l1_cells st' lastSurplusOffset = l1_cells st lastSurplusOffset /\
      l1_cells st' pricePerUnitOffset = l1_cells st pricePerUnitOffset;
  se_params' k : k ∈ [payRewardsToOffset; equilibrationUnitsOffset; inertiaOffset; perUnitRewardOffset;
                      perBatchGasCostOffset; amortizedCostCapBipsOffset] ->
    l1_cells st' k = l1_cells st k
}.

(** The state after each segment of the settlement. *)
Definition accrued (st : l1_state) (p spent ua fdr : Z) : l1_state :=
  set_cell (set_table st (bp_set_due (l1_table st) p (bp_due (l1_table st) p + spent))) 5
    (clamp256 (fdr + ua * l1_cells st 3)).

Definition reward_of (st : l1_state) (ua : Z) : Z := Z.min (l1_cells st 11) (ua * l1_cells st 3).
Definition rewarded (st : l1_state) (ua fdr : Z) : l1_state :=
  let r := reward_of st ua in
  set_cell (set_bal (set_cell st 5 (clamp256 (fdr - r)))
    (move_bal (l1_bal st) L1PricerFundsPoolAddress (l1_cells st 0) r)) 11 (l1_cells st 11 - r).

Definition refund_of (st : l1_state) (p : Z) : Z := Z.max 0 (Z.min (l1_cells st 11) (bp_due (l1_table st) p)).
Definition refunded (st : l1_state) (p : Z) : l1_state :=
  let x := refund_of st p in
  if 0 <? x then
    set_table
      (set_cell (set_bal st (move_bal (l1_bal st) L1PricerFundsPoolAddress (bp_pay (l1_table st) p) x)) 11
         (l1_cells st 11 - x))
      (bp_set_due (l1_table st) p (bp_due (l1_table st) p - x))
  else st.

Definition priced (st : l1_state) (ua : Z) : l1_state :=
  if 0 <? ua then
    let surplus := l1_cells st 11 - (bp_total (l1_table st) + l1_cells st 5) in
    set_cell (set_cell st 8 (clamp256 surplus)) 7
      (l1_new_price (l1_cells st 7) surplus (l1_cells st 8) (l1_cells st 1) (l1_cells st 2) ua)
  else st.

Definition settled (st : l1_state) (p spent ua ut : Z) : l1_state :=
  let fdr := l1_cells st 5 in
  let st := set_table st (bp_open (l1_table st) p) in
  let st := set_cell st 6 (l1_cells st 6 - ua) in
  let st := accrued st p spent ua fdr in
  let st := rewarded st ua (fdr + ua * l1_cells st 3) in
  set_cell (refunded st p) 4 ut.

Lemma refunded_fees st p : l1_cells (refunded st p) 11 = l1_cells st 11 - refund_of st p.
Proof. unfold refunded. destruct (Z.ltb_spec 0 (refund_of st p)); [reflexivity|]. unfold refund_of in *. lia. Qed.

(** Fields and cells of an updated state. *)
Ltac l1_simp := cbn [set_cell set_table set_bal l1_cells l1_table l1_bal Z.eqb Pos.eqb].

Ltac l1_offsets :=
  unfold payRewardsToOffset, equilibrationUnitsOffset, inertiaOffset, perUnitRewardOffset, lastUpdateTimeOffset,
    fundsDueForRewardsOffset, unitsSinceOffset, pricePerUnitOffset, lastSurplusOffset, perBatchGasCostOffset,
    amortizedCostCapBipsOffset, l1FeesAvailableOffset in *.

Lemma bp_set_due_exact tb p v : int256 v -> int256 (bp_total tb + v - bp_due tb p) ->
  bp_due (bp_set_due tb p v) p = v /\ bp_total (bp_set_due tb p v) = bp_total tb + v - bp_due tb p /\
  forall q, q <> p -> bp_due (bp_set_due tb p v) q = bp_due tb q.
Proof.
  intros H1 H2. unfold bp_set_due; cbn [bp_due bp_total]. rewrite !clamp256_id by assumption.
  split; [apply fupd_eq|]. split; [reflexivity|]. intros q Hq. apply fupd_ne. auto.
Qed.

Lemma bp_open_due tb p : (p ∈ bp_posters tb -> Z.abs (bp_due tb p) < 2 ^ 250) ->
  Z.abs (bp_due (bp_open tb p) p) < 2 ^ 250 /\ bp_total (bp_open tb p) = bp_total tb /\
  forall q, q <> p -> bp_due (bp_open tb p) q = bp_due tb q.
Proof.
  intros H. unfold bp_open. destruct (decide (p ∈ bp_posters tb)); [auto|]. cbn [bp_add bp_due bp_total].
  rewrite fupd_eq. split; [lia|]. split; [reflexivity|]. intros q Hq. apply fupd_ne. auto.
Qed.

(** The state before the refund. *)
Lemma before_refund st p spent ua : l1_sane st p -> 0 <= spent < 2 ^ 250 -> 0 <= ua < 2 ^ 64 ->
  0 <= l1_cells st 3 < 2 ^ 64 ->
  let tb := bp_open (l1_table st) p in
  let r := Z.min (l1_cells st 11) (ua * l1_cells st 3) in
  let fdr := l1_cells st 5 in
  let sta := set_cell (set_table st tb) 6 (l1_cells st 6 - ua) in
  let std := rewarded (accrued sta p spent ua fdr) ua (fdr + ua * l1_cells st 3) in
  l1_cells std 5 = fdr + ua * l1_cells st 3 - r /\ l1_cells std 11 = l1_cells st 11 - r /\
  bp_due (l1_table std) p = bp_due tb p + spent /\ bp_total (l1_table std) = bp_total tb + spent /\
  (forall q, q <> p -> bp_due (l1_table std) q = bp_due (l1_table st) q) /\
  refund_of std p = Z.max 0 (Z.min (l1_cells st 11 - r) (bp_due tb p + spent)) /\
  l1_cells std 6 = l1_cells st 6 - ua /\ bp_posters (l1_table std) = bp_posters tb /\
  bp_pay (l1_table std) = bp_pay tb /\
  l1_bal std = move_bal (l1_bal st) L1PricerFundsPoolAddress (l1_cells st 0) r /\
  (forall k, k <> 5 -> k <> 6 -> k <> 11 -> l1_cells std k = l1_cells st k).
Proof.
  intros [Hf Hfm Hrw _ _ _ _ Ht Hd _] Hs Hua H3 tb r fdr sta std.
  destruct (bp_open_due (l1_table st) p Hd) as (D1 & D2 & D3). fold tb in D1, D2, D3.
  destruct (bp_set_due_exact tb p (bp_due tb p + spent)) as (S1 & S2 & S3); [unfold int256; lia|unfold int256; lia|].
  assert (l1_cells std 5 = fdr + ua * l1_cells st 3 - r) as E5.
  { change (l1_cells std 5) with (clamp256 (fdr + ua * l1_cells st 3 - r)).
    assert (0 <= ua * l1_cells st 3 < 2 ^ 128) as Hm by (clear - Hua H3; nia).
    apply clamp256_id. unfold int256, fdr, r. l1_offsets. revert Hm Hf Hfm Hrw. generalize (ua * l1_cells st 3). lia. }
  assert (bp_due (l1_table std) p = bp_due tb p + spent) as Ed by exact S1.
  split; [exact E5|]. split; [reflexivity|]. split; [exact Ed|].
  split; [change (bp_total (l1_table std)) with (bp_total (bp_set_due tb p (bp_due tb p + spent))); lia|].
  split; [intros q Hq; transitivity (bp_due tb q); [exact (S3 q Hq)|exact (D3 q Hq)]|].
  split; [unfold refund_of; rewrite Ed; reflexivity|]. do 4 (split; [reflexivity|]).
  intros k K5 K6 K11. unfold std, rewarded, accrued, sta. l1_simp.
  destruct (Z.eqb_spec k 11), (Z.eqb_spec k 5), (Z.eqb_spec k 6); lia || reflexivity.
Qed.

Lemma move_bal_0 b from to a : move_bal b from to 0 a = b a.
Proof. unfold move_bal. repeat case_decide; lia. Qed.

Lemma refunded_facts st p : int256 (bp_due (l1_table st) p - refund_of st p) ->
  int256 (bp_total (l1_table st) - refund_of st p) ->
  let x := refund_of st p in
  let tb := l1_table (refunded st p) in
  bp_due tb p = bp_due (l1_table st) p - x /\ bp_total tb = bp_total (l1_table st) - x /\
  (forall q, q <> p -> bp_due tb q = bp_due (l1_table st) q) /\
  bp_posters tb = bp_posters (l1_table st) /\ bp_pay tb = bp_pay (l1_table st) /\
  (forall a, l1_bal (refunded st p) a =
     move_bal (l1_bal st) L1PricerFundsPoolAddress (bp_pay (l1_table st) p) x a) /\
  (forall k, k <> 11 -> l1_cells (refunded st p) k = l1_cells st k).
Proof.
  intros H1 H2 x tb. unfold tb, refunded. fold x. destruct (Z.ltb_spec 0 x).
  - destruct (bp_set_due_exact (l1_table st) p (bp_due (l1_table st) p - x)) as (S1 & S2 & S3);
      [exact H1|replace (_ + _ - _) with (bp_total (l1_table st) - x) by lia; exact H2|].
    l1_simp. split; [exact S1|]. split; [lia|]. split; [exact S3|]. split; [reflexivity|]. split; [reflexivity|].
    split; [reflexivity|]. intros k Hk. destruct (Z.eqb_spec k 11); [lia|reflexivity].
  - assert (x = 0) as -> by (unfold x, refund_of in *; lia). rewrite !Z.sub_0_r.
    repeat split; auto. intros a. rewrite move_bal_0. reflexivity.
Qed.

Lemma priced_frame st ua : l1_table (priced st ua) = l1_table st /\ l1_bal (priced st ua) = l1_bal st /\
  forall k, k <> 7 -> k <> 8 -> l1_cells (priced st ua) k = l1_cells st k.
Proof.
  unfold priced. destruct (0 <? ua); [|auto]. split; [reflexivity|]. split; [reflexivity|].
  intros k H7 H8. l1_simp. destruct (Z.eqb_spec k 7); [lia|]. destruct (Z.eqb_spec k 8); [lia|reflexivity].
Qed.

Lemma priced_cells st ua : let surplus := l1_cells st 11 - (bp_total (l1_table st) + l1_cells st 5) in
  int256 surplus ->
  if 0 <? ua then
    l1_cells (priced st ua) 8 = surplus /\
    l1_cells (priced st ua) 7 =
      l1_new_price (l1_cells st 7) surplus (l1_cells st 8) (l1_cells st 1) (l1_cells st 2) ua
  else l1_cells (priced st ua) 8 = l1_cells st 8 /\ l1_cells (priced st ua) 7 = l1_cells st 7.
Proof.
  intros surplus Hs. unfold priced. destruct (0 <? ua); [|auto]. fold surplus. l1_simp.
  rewrite clamp256_id by exact Hs. auto.
Qed.

(** The refund, the time and the price complete the settlement. *)
Lemma refund_settlement st std p ut ct wei bf ua spent r x : l1_sane st p -> 0 <= spent < 2 ^ 250 ->
  let tb := bp_open (l1_table st) p in
  ua = l1_allocated (l1_cells st 6) (l1_last (l1_cells st 4) ut) ut ct ->
  spent = l1_capped (l1_cells st 10) bf ua wei ->
  r = Z.min (l1_cells st 11) (ua * l1_cells st 3) ->
  x = Z.max 0 (Z.min (l1_cells st 11 - r) (bp_due tb p + spent)) ->
  0 <= ua * l1_cells st 3 < 2 ^ 128 -> Z.abs (bp_due tb p) < 2 ^ 250 -> bp_total tb = bp_total (l1_table st) ->
  l1_cells std 5 = l1_cells st 5 + ua * l1_cells st 3 - r -> l1_cells std 11 = l1_cells st 11 - r ->
  bp_due (l1_table std) p = bp_due tb p + spent -> bp_total (l1_table std) = bp_total tb + spent ->
  (forall q, q <> p -> bp_due (l1_table std) q = bp_due (l1_table st) q) -> refund_of std p = x ->
  l1_cells std 6 = l1_cells st 6 - ua -> bp_posters (l1_table std) = bp_posters tb ->
  bp_pay (l1_table std) = bp_pay tb ->
  l1_bal std = move_bal (l1_bal st) L1PricerFundsPoolAddress (l1_cells st 0) r ->
  (forall k, k <> 5 -> k <> 6 -> k <> 11 -> l1_cells std k = l1_cells st k) ->
  settlement st ut ct p wei bf ua spent r x (priced (set_cell (refunded std p) 4 ut) ua).
Proof.
  intros [Hf Hfm Hrw _ _ _ _ Ht _ _] Hsp tb Eua Esp Er Ex Hm Hd Htb B5 B11 Bd Bt Bo Bx B6 Bp Bpay Bbal Bc. l1_offsets.
  assert (0 <= r <= l1_cells st 11 /\ 0 <= x <= l1_cells st 11) as [Hr Hx] by lia.
  destruct (refunded_facts std p) as (R1 & R2 & R3 & R4 & R5 & R6 & R7); [unfold int256; lia|unfold int256; lia|].
  pose proof (refunded_fees std p) as R11. rewrite Bx in *.
  set (st1 := set_cell (refunded std p) 4 ut).
  assert (forall k, k <> 4 -> l1_cells st1 k = l1_cells (refunded std p) k) as C1.
  { intros k Hk. unfold st1. l1_simp. destruct (Z.eqb_spec k 4); [lia|reflexivity]. }
  assert (forall k, k <> 4 -> k <> 5 -> k <> 6 -> k <> 11 -> l1_cells st1 k = l1_cells st k) as C2
    by (intros; rewrite C1, R7, Bc by lia; reflexivity).
  assert (l1_cells st1 11 = l1_cells st 11 - r - x) as C11 by (rewrite C1 by lia; lia).
  assert (l1_cells st1 5 = l1_cells st 5 + ua * l1_cells st 3 - r) as C5 by (rewrite C1, R7 by lia; exact B5).
  assert (l1_table st1 = l1_table (refunded std p) /\ l1_bal st1 = l1_bal (refunded std p)) as [T1 T2] by auto.
  assert (l1_cells st1 4 = ut) as C4 by reflexivity. clearbody st1. rewrite <- T1, <- T2 in *.
  destruct (priced_frame st1 ua) as (P1 & P2 & P3).
  pose proof (priced_cells st1 ua ltac:(unfold int256; lia)) as P4.
  split; l1_offsets; rewrite ?P1, ?P2; [exact Eua|exact Esp|exact Er|exact Ex|..].
  - rewrite P3, C1, R7 by lia. exact B6.
  - rewrite P3 by lia. exact C4.
  - rewrite P3, C5 by lia. reflexivity.
  - rewrite P3, C11 by lia. reflexivity.
  - rewrite R4, Bp. reflexivity.
  - fold tb. lia.
  - intros q Hq. rewrite R3, Bo by exact Hq. reflexivity.
  - intros q. rewrite R5, Bpay. reflexivity.
  - lia.
  - intros a. rewrite R6, Bbal, Bpay. reflexivity.
  - cbv zeta. rewrite (P3 11), (P3 5), <- (C2 7), <- (C2 8), <- (C2 1), <- (C2 2) by lia. exact P4.
  - intros k Hk. repeat (apply elem_of_cons in Hk as [->|Hk]; [rewrite P3, C2 by lia; reflexivity|]). inversion Hk.
Qed.

Lemma settled_settlement st p ut ct wei bf : l1_sane st p -> 0 <= wei < 2 ^ 250 -> 0 <= bf ->
  let ua := l1_allocated (l1_cells st 6) (l1_last (l1_cells st 4) ut) ut ct in
  let spent := l1_capped (l1_cells st 10) bf ua wei in
  let r := Z.min (l1_cells st 11) (ua * l1_cells st 3) in
  let x := Z.max 0 (Z.min (l1_cells st 11 - r) (bp_due (bp_open (l1_table st) p) p + spent)) in
  0 <= l1_cells st 10 -> 0 <= ua < 2 ^ 64 -> 0 <= l1_cells st 3 < 2 ^ 64 ->
  settlement st ut ct p wei bf ua spent r x (priced (settled st p spent ua ut) ua).
Proof.
  intros Hst Hw Hb ua spent r x H10 Hua H3.
  pose proof (l1_capped_bounds (l1_cells st 10) bf ua wei H10 Hb ltac:(lia) ltac:(lia)) as Hsp. fold spent in Hsp.
  destruct (bp_open_due (l1_table st) p (ls_due _ _ Hst)) as (D1 & D2 & D3).
  pose proof (before_refund st p spent ua Hst ltac:(lia) Hua H3) as HB. cbv zeta in HB.
  destruct HB as (B5 & B11 & Bd & Bt & Bo & Bx & B6 & Bp & Bpay & Bbal & Bc).
  eapply refund_settlement; eauto; [lia|clear - Hua H3; nia].
Qed.

Lemma l1_new_price_bound price surplus old e i u B : 0 <= B -> price < B -> Z.abs surplus < 4 * B -> Z.abs old < B ->
  0 < e -> 0 <= i -> 0 < u -> l1_new_price price surplus old e i u < 16 * B.
Proof.
  intros HB Hp Hs Ho He Hi Hu. unfold l1_new_price.
  assert (0 <= e / i) by (destruct (Z.eq_dec i 0) as [->|]; [rewrite Z.div_0_r; lia|apply Z.div_pos; lia]).
  set (D := (- surplus) / e - (surplus - old) / u). assert (D < 9 * B) as HD.
  { assert ((- surplus) / e <= Z.abs surplus) by (apply Z.div_le_upper_bound; nia).
    assert (- Z.abs (surplus - old) <= (surplus - old) / u) by (apply Z.div_le_lower_bound; nia). lia. }
  assert (D * u / (e / i + u) < 9 * B \/ D * u / (e / i + u) <= 0).
  { destruct (Z.le_gt_cases D 0); [right; apply Z.div_le_upper_bound; nia|left; apply Z.div_lt_upper_bound; nia]. }
  lia.
Qed.

Lemma bigint_decode_nonneg u v : in_u 256 u -> bigint_decode u = v -> 0 <= v -> u = v.
Proof. unfold bigint_decode, in_u. zbool; lia. Qed.

(** The total stays the sum of what is due to the posters. *)
Lemma settlement_sum st ut ct p wei bf ua spent r x st' : settlement st ut ct p wei bf ua spent r x st' ->
  NoDup (bp_posters (bp_open (l1_table st) p)) ->
  bp_total (l1_table st) = sum_due (l1_table st) -> bp_total (l1_table st') = sum_due (l1_table st').
Proof.
  intros H Hnd Ht. rewrite (se_total' _ _ _ _ _ _ _ _ _ _ _ H), Ht. unfold sum_due at 2.
  rewrite (se_posters' _ _ _ _ _ _ _ _ _ _ _ H). set (tb := bp_open (l1_table st) p) in *.
  assert (sum_due (l1_table st) = sum_due tb) as Hs.
  { unfold tb, bp_open. destruct (decide _) as [|Hn]; [reflexivity|]. unfold sum_due. cbn [bp_add bp_posters bp_due].
    rewrite map_app, foldr_app. cbn. rewrite fupd_eq. apply sum_map_ext. intros q Hq. rewrite fupd_ne; [reflexivity|].
    intros ->. auto. }
  rewrite (sum_map_ext (bp_due (l1_table st')) (fupd (bp_due tb) p (bp_due tb p + spent - x))).
  - rewrite sum_map_upd by (auto; apply bp_open_member). rewrite Hs. unfold sum_due. lia.
  - intros q Hq. unfold fupd. case_decide as Hpq.
    + subst q. apply (se_due' _ _ _ _ _ _ _ _ _ _ _ H).
    + rewrite (se_others' _ _ _ _ _ _ _ _ _ _ _ H q) by auto. unfold tb, bp_open.
      destruct (decide _); [reflexivity|]. cbn [bp_add bp_due]. symmetry. apply fupd_ne, Hpq.
Qed.

(** An offset of the pricer. *)
Ltac l1k := split; [vm_compute; discriminate|reflexivity].

Section Facts.
Context {E : Env} {EL : EnvLaws E} (s : Storage) (U : list Z).

Notation t := (OpenCachedSubStorage s [0]).
Notation ps := (OpenL1PricingState s).
Notation bpt := (OpenBatchPostersTable t).

Hypothesis NC : spaces_ok (bp_spaces t U ++ [s]).
Hypothesis HU : Forall (in_u 160) U.

Lemma base_lookup : (bp_spaces t U ++ [s]) !! (3 + length U)%nat = Some s.
Proof. rewrite lookup_app_r by (cbn; rewrite length_map; lia). cbn. rewrite length_map, Nat.sub_diag. reflexivity. Qed.

Lemma base_not_bp k : 0 <= k < 12 -> ~ bp_slots t U (skey s k).
Proof.
  intros Hk. assert (in_u 160 k) as Hk' by uint. intros [H|[[(k' & Hk2 & H)|(a & Ha & H)]|(p & k' & Hp & Hk2 & H)]]; revert H.
  - apply (spaces_slot_ne _ (3 + length U) 0%nat _ _ _ _ NC); [apply base_lookup|reflexivity|uint|uint|lia].
  - apply (spaces_slot_ne _ (3 + length U) 1%nat _ _ _ _ NC); [apply base_lookup|reflexivity|uint|apply in_u_160_64, Hk2|lia].
  - apply (spaces_slot_ne _ (3 + length U) 2%nat _ _ _ _ NC); [apply base_lookup|reflexivity|uint|exact Ha|lia].
  - apply list_elem_of_lookup in Hp as [i Hi]. pose proof (lookup_lt_Some _ _ _ Hi).
    apply (spaces_slot_ne _ (3 + length U) (3 + i)%nat _ _ _ _ NC); [apply base_lookup|apply poster_lookup, Hi|uint|uint|lia].
Qed.

Lemma base_ne k k' : 0 <= k < 12 -> 0 <= k' < 12 -> k <> k' -> skey s k <> skey s k'.
Proof.
  intros Hk Hk' Hne. apply (spaces_slot_ne _ (3 + length U) (3 + length U)%nat _ _ _ _ NC);
    [apply base_lookup|apply base_lookup|uint|uint|right; exact Hne].
Qed.

Record l1_at (st : l1_state) (d : DB) : Prop := {
  la_table : bp_at t U (l1_table st) d;
  la_cell k : 0 <= k < 12 -> cell_word (l1_kind k) (l1_cells st k) (slot_get d (skey s k));
  la_bal a : GetBalance d a = l1_bal st a
}.

(** ** Reads and writes of the representation *)

Lemma cell_write st d k v w : l1_at st d -> 0 <= k < 12 -> cell_word (l1_kind k) v w ->
  l1_at (set_cell st k v) (slot_set d (skey s k) w).
Proof.
  intros [Ht Hc Hb] Hk Hw. split; cbn [set_cell l1_table l1_cells l1_bal].
  - eapply bp_at_agree; [|exact Ht]. intros x Hx. apply slot_get_set_ne. intros <-.
    exact (base_not_bp k Hk Hx).
  - intros j Hj. destruct (Z.eqb_spec j k) as [->|Hjk]; [rewrite slot_get_set_eq; exact Hw|].
    rewrite (slot_get_set_ne d (skey s k) w (skey s j)); [apply Hc, Hj|]. apply base_ne; auto.
  - intros a. rewrite GetBalance_slot_set. apply Hb.
Qed.

Lemma table_read {A} G (m : M A) st a :
  (forall d, bp_at t U (l1_table st) d -> runs G m d (Ok a) d) -> refines l1_at m st (Ok a) st.
Proof. intros H. apply (refines_read _ G). intros d Hd. apply H, Hd. Qed.

Lemma table_write {A} (m : M A) st r tb :
  (forall d, bp_at t U (l1_table st) d -> bp_result t U m d r tb) -> refines l1_at m st r (set_table st tb).
Proof.
  intros H d Hd. destruct (H d (la_table _ _ Hd)) as (G & d' & R & Ht & [F [FB _]]). exists G, d'. split; [exact R|].
  destruct Hd as [_ Hc Hb]. split; [exact Ht| |intros a; rewrite FB; apply Hb].
  intros k Hk. rewrite F by (apply base_not_bp, Hk). apply Hc, Hk.
Qed.

Lemma transfer_ref st from to amount evm sc purpose :
  0 <= amount <= l1_bal st from -> scenario_ok evm sc ->
  refines l1_at (TransferBalance (Some from) (Some to) amount evm sc purpose) st (Ok tt)
    (set_bal st (move_bal (l1_bal st) from to amount)).
Proof.
  intros Ha Hs d [Ht Hc Hb]. exists 0, (transfer_db d from to amount).
  split; [apply TransferBalance_runs; [rewrite Hb; exact Ha|exact Hs]|]. split; cbn [set_bal l1_table l1_cells l1_bal].
  - eapply bp_at_agree; [|exact Ht]. intros x _. apply slot_get_transfer.
  - intros k Hk. rewrite slot_get_transfer. apply Hc, Hk.
  - intros a. rewrite GetBalance_transfer, Hb. reflexivity.
Qed.

Lemma balance_read st a : refines l1_at (db_read (fun d => GetBalance d a)) st (Ok (l1_bal st a)) st.
Proof. intros d Hd. exists 0, d. split; [|exact Hd]. rewrite <- (la_bal _ _ Hd a). apply (runs_db_read (fun d => GetBalance d a)). Qed.

Lemma slot_eq k : 0 <= k < 12 -> NewSlot s k = skey s k.
Proof. intros. apply NewSlot_skey. uint. Qed.

Lemma uint64_get st k : 0 <= k < 12 -> l1_kind k = KUint64 ->
  refines l1_at (StorageBackedUint64_Get (NewSlot s k)) st (Ok (l1_cells st k)) st.
Proof.
  intros Hk Hkind d Hd. exists 800, d. split; [|exact Hd]. pose proof (la_cell _ _ Hd k Hk) as Hc.
  rewrite Hkind in Hc. destruct Hc as [Hc Hr]. rewrite slot_eq by exact Hk. rewrite <- Hc.
  apply StorageBackedUint64_Get_runs. rewrite Hc. exact Hr.
Qed.

Lemma bigint_get st k : 0 <= k < 12 -> l1_kind k = KBigInt ->
  refines l1_at (StorageBackedBigInt_Get (NewSlot s k)) st (Ok (l1_cells st k)) st.
Proof.
  intros Hk Hkind d Hd. exists 800, d. split; [|exact Hd]. pose proof (la_cell _ _ Hd k Hk) as Hc.
  rewrite Hkind in Hc. rewrite slot_eq by exact Hk. exact (bigint_get_runs d _ _ Hc).
Qed.

Lemma biguint_get st k : 0 <= k < 12 -> l1_kind k = KBigUint ->
  refines l1_at (StorageBackedBigUint_Get (NewSlot s k)) st (Ok (l1_cells st k)) st.
Proof.
  intros Hk Hkind d Hd. exists 800, d. split; [|exact Hd]. pose proof (la_cell _ _ Hd k Hk) as Hc.
  rewrite Hkind in Hc. destruct Hc as [<- _]. rewrite slot_eq by exact Hk. apply StorageSlot_Get_runs.
Qed.

Lemma address_get st k : 0 <= k < 12 -> l1_kind k = KAddress ->
  refines l1_at (StorageBackedAddress_Get (NewSlot s k)) st (Ok (l1_cells st k)) st.
Proof.
  intros Hk Hkind d Hd. exists 800, d. split; [|exact Hd]. pose proof (la_cell _ _ Hd k Hk) as Hc.
  rewrite Hkind in Hc. destruct Hc as [Hc Hr]. rewrite slot_eq by exact Hk. rewrite <- Hc.
  apply StorageBackedAddress_Get_runs. rewrite Hc. exact Hr.
Qed.

Lemma uint64_set st k v : 0 <= k < 12 -> l1_kind k = KUint64 -> in_u 64 v ->
  refines l1_at (StorageBackedUint64_Set (NewSlot s k) v) st (Ok tt) (set_cell st k v).
Proof.
  intros Hk Hkind Hv d Hd. exists 20000, (slot_set d (skey s k) v). rewrite slot_eq by exact Hk.
  split; [apply StorageBackedUint64_Set_runs, Hv|]. apply cell_write; auto. rewrite Hkind. split; auto.
Qed.

Lemma bigint_set st k v : 0 <= k < 12 -> l1_kind k = KBigInt ->
  refines l1_at (StorageBackedBigInt_SetSaturatingWithWarning (NewSlot s k) v) st (Ok tt) (set_cell st k (clamp256 v)).
Proof.
  intros Hk Hkind d Hd. rewrite slot_eq by exact Hk.
  destruct (StorageBackedBigInt_SetSaturating_runs (skey s k) v d) as (u & R & Hu & Du).
  exists 20000, (slot_set d (skey s k) u). split; [exact R|]. apply cell_write; auto. rewrite Hkind. split; auto.
Qed.

Lemma biguint_set st k v : 0 <= k < 12 -> l1_kind k = KBigUint -> in_u 256 v ->
  refines l1_at (StorageBackedBigUint_SetChecked (NewSlot s k) v) st (Ok tt) (set_cell st k v).
Proof.
  intros Hk Hkind Hv d Hd. exists 20000, (slot_set d (skey s k) v). rewrite slot_eq by exact Hk.
  split; [apply StorageBackedBigUint_SetChecked_runs, Hv|]. apply cell_write; auto. rewrite Hkind. split; auto.
Qed.

(** ** The segments of the settlement *)

Lemma allocateUnits_ref st last ut ct : last <= ut <= ct -> 0 <= last -> ct < 2 ^ 64 ->
  0 <= l1_cells st 6 < 2 ^ 64 ->
  let '(num, den) := allocation last ut ct in
  let ua := l1_allocated (l1_cells st 6) last ut ct in
  refines l1_at (allocateUnits ps num den) st (Ok ua) (set_cell st 6 (l1_cells st 6 - ua)).
Proof.
  intros Ht Hl Hc Hu. unfold allocation. rewrite !uwrap_id by uint.
  pose proof (l1_allocated_bounds _ last ut ct Hu Ht) as Hb.
  assert (forall num den, 0 <= num < 2 ^ 64 -> 0 < den < 2 ^ 64 ->
    Z.min (l1_cells st 6 * num) (2 ^ 64 - 1) / den = l1_allocated (l1_cells st 6) last ut ct ->
    refines l1_at (allocateUnits ps num den) st (Ok (l1_allocated (l1_cells st 6) last ut ct))
      (set_cell st 6 (l1_cells st 6 - l1_allocated (l1_cells st 6) last ut ct))) as Hgen.
  { intros num den Hn Hd Heq. unfold allocateUnits.
    eapply refines_bind; [apply uint64_get; [l1k|reflexivity]|]. cbv beta. unfold unitsSinceOffset.
    rewrite SaturatingUMul_min by (exact Hu || exact Hn || lia). rewrite go_div_ok, Heq by lia.
    eapply refines_bind; [apply refines_lift|]. cbv beta. rewrite uwrap_id by uint.
    eapply refines_bind; [apply uint64_set; [l1k|reflexivity|uint]|]. apply refines_ret. }
  unfold l1_allocated in *. destruct (Z.eqb_spec ct last) as [->|Hne].
  - rewrite Z.sub_diag. apply Hgen; [lia|lia|]. rewrite Z.div_1_r. lia.
  - destruct (Z.eqb_spec (ct - last) 0); [lia|]. apply Hgen; [lia|lia|reflexivity].
Qed.

Lemma capSpending_ref st v bf ua wei : 3 <= v -> in_u 64 (l1_cells st 10) ->
  refines l1_at (capSpending ps v bf ua wei) st (Ok (l1_capped (l1_cells st 10) bf ua wei)) st.
Proof.
  intros Hv Hcap. unfold capSpending. destruct (Z.leb_spec 3 v); [|lia].
  eapply refines_bind; [apply uint64_get; [l1k|reflexivity]|]. cbv beta. unfold amortizedCostCapBipsOffset, l1_capped.
  destruct (l1_cells st 10 =? 0); cbn [negb]; [apply refines_ret|].
  unfold BigMulByBips, BigMulByFrac, OneInBips, SaturatingCastToBips, BigMulByUint, BigLessThan.
  rewrite SaturatingCast_min, big_div_pos by (uint || lia).
  eapply refines_bind; [apply refines_lift|]. cbv beta. change (2 ^ (64 - 1)) with (2 ^ 63).
  set (c := _ / 10000). destruct (Z.ltb_spec c wei).
  - rewrite Z.min_r by lia. apply refines_ret.
  - rewrite Z.min_l by lia. apply refines_ret.
Qed.

Lemma FundsDue_ref st p : p ∈ bp_posters (l1_table st) ->
  refines l1_at (FundsDue (internalOpen bpt p)) st (Ok (bp_due (l1_table st) p)) st.
Proof. intros Hp. apply (table_read 800). intros d Hd. eapply FundsDue_runs; eauto. Qed.

Lemma SetFundsDue_ref st p v : p ∈ bp_posters (l1_table st) ->
  refines l1_at (SetFundsDue (internalOpen bpt p) v) st (Ok tt) (set_table st (bp_set_due (l1_table st) p v)).
Proof. intros Hp. apply table_write. intros d Hd. eapply SetFundsDue_result; eauto. Qed.

Lemma accrue_ref st p wei ua fdr : p ∈ bp_posters (l1_table st) ->
  refines l1_at (accrue ps (internalOpen bpt p) wei ua fdr) st
    (Ok (l1_cells st 3, fdr + ua * l1_cells st 3))
    (accrued st p wei ua fdr).
Proof.
  intros Hp. unfold accrue. eapply refines_bind; [apply FundsDue_ref, Hp|].
  eapply refines_bind; [apply SetFundsDue_ref, Hp|].
  eapply refines_bind; [apply uint64_get; [l1k|reflexivity]|]. cbv beta zeta.
  eapply refines_bind; [apply bigint_set; [l1k|reflexivity]|]. apply refines_ret.
Qed.

Lemma TransferFromL1FeesAvailable_ref st to amount evm sc purpose :
  0 <= amount <= l1_bal st L1PricerFundsPoolAddress -> amount <= l1_cells st 11 < 2 ^ 256 -> scenario_ok evm sc ->
  refines l1_at (TransferFromL1FeesAvailable ps to amount evm sc purpose) st (Ok (l1_cells st 11 - amount))
    (set_cell (set_bal st (move_bal (l1_bal st) L1PricerFundsPoolAddress to amount)) 11 (l1_cells st 11 - amount)).
Proof.
  intros Ha Hf Hs. unfold TransferFromL1FeesAvailable.
  eapply refines_bind; [apply transfer_ref; auto|].
  eapply refines_bind; [apply biguint_get; [l1k|reflexivity]|]. cbv beta zeta. cbn [set_bal l1_cells].
  unfold l1FeesAvailableOffset. destruct (Z.ltb_spec (l1_cells st 11 - amount) 0); [lia|].
  eapply refines_bind; [apply biguint_set; [l1k|reflexivity|uint]|]. apply refines_ret.
Qed.

Lemma adjustPrice_ref st funds ua v : 7 <= v -> 0 < ua -> 0 < l1_cells st 1 -> 0 < l1_cells st 2 ->
  let surplus := funds - (bp_total (l1_table st) + l1_cells st 5) in
  let price := l1_new_price (l1_cells st 7) surplus (l1_cells st 8) (l1_cells st 1) (l1_cells st 2) ua in
  price < 2 ^ 256 ->
  refines l1_at (adjustPrice ps funds ua v) st (Ok tt) (set_cell (set_cell st 8 (clamp256 surplus)) 7 price).
Proof.
  intros Hv Hua Heq Hin surplus price Hp. unfold adjustPrice.
  eapply refines_bind; [apply (table_read 800); intros d Hd; eapply TotalFundsDue_runs; eauto|].
  eapply refines_bind; [apply bigint_get; [l1k|reflexivity]|].
  eapply refines_bind; [apply uint64_get; [l1k|reflexivity]|].
  eapply refines_bind; [apply biguint_get; [l1k|reflexivity]|].
  unfold BigDivByUint, BigDiv, UintToBig, BigSub, BigAdd, BigMulByUint, BigAddByUint, UintToBig.
  unfold inertiaOffset, equilibrationUnitsOffset, fundsDueForRewardsOffset. fold surplus.
  rewrite big_div_pos by lia. eapply refines_bind; [apply refines_lift|].
  eapply refines_bind; [apply biguint_get; [l1k|reflexivity]|].
  eapply refines_bind; [apply bigint_get; [l1k|reflexivity]|]. cbv beta zeta.
  unfold lastSurplusOffset, pricePerUnitOffset. rewrite !big_div_pos by lia.
  eapply refines_bind; [apply refines_lift|]. eapply refines_bind; [apply refines_lift|].
  assert (0 <= l1_cells st 1 / l1_cells st 2) by (apply Z.div_pos; lia).
  rewrite big_div_pos by lia. eapply refines_bind; [apply refines_lift|]. cbv beta.
  unfold SetLastSurplus. destruct (Z.ltb_spec v 7); [lia|].
  eapply refines_bind; [apply bigint_set; [l1k|reflexivity]|]. cbv zeta.
  replace (if Z.sgn _ <? 0 then _ else _) with price; [apply biguint_set; [l1k|reflexivity|]|].
  - subst price. unfold l1_new_price in *. uint.
  - unfold price, l1_new_price. set (x := _ + _ / _). destruct x; reflexivity.
Qed.

Lemma OpenPoster_ref st p : p ∈ U -> Z.of_nat (length (bp_posters (l1_table st))) < 2 ^ 64 - 2 ->
  refines l1_at (OpenPoster bpt p true) st (Ok (internalOpen bpt p)) (set_table st (bp_open (l1_table st) p)).
Proof. intros Hp Hl. apply table_write. intros d Hd. eapply OpenPoster_create_result; eauto. Qed.

Lemma PayTo_ref st p : p ∈ bp_posters (l1_table st) ->
  refines l1_at (PayTo (internalOpen bpt p)) st (Ok (bp_pay (l1_table st) p)) st.
Proof. intros Hp. apply (table_read 800). intros d Hd. eapply PayTo_runs; eauto. Qed.

Lemma settleRewards_ref st evm sc ua fdr : scenario_ok evm sc -> 0 <= ua * l1_cells st 3 ->
  0 <= l1_cells st 11 <= l1_bal st L1PricerFundsPoolAddress -> l1_cells st 11 < 2 ^ 256 ->
  refines l1_at (settleRewards ps evm sc (l1_cells st 11) (l1_cells st 3) ua fdr) st
    (Ok (l1_cells st 11 - reward_of st ua)) (rewarded st ua fdr).
Proof.
  intros Hs Hua Hf Hm. unfold rewarded, reward_of. set (r := Z.min _ _). unfold settleRewards, BigMulByUint, UintToBig, BigLessThan, BigSub.
  replace (if _ <? _ then _ else _) with r by (unfold r; zbool; lia).
  eapply refines_bind; [apply bigint_set; [l1k|reflexivity]|].
  eapply refines_bind; [apply address_get; [l1k|reflexivity]|]. cbv beta.
  apply (TransferFromL1FeesAvailable_ref (set_cell st 5 (clamp256 (fdr - r)))); [..|exact Hs];
    cbn [set_cell l1_bal l1_cells Z.eqb Pos.eqb]; unfold r; lia.
Qed.

Lemma settlePoster_ref st p evm sc fees : scenario_ok evm sc -> p ∈ bp_posters (l1_table st) ->
  l1_cells st 11 = fees -> 0 <= fees <= l1_bal st L1PricerFundsPoolAddress -> fees < 2 ^ 256 ->
  refines l1_at (settlePoster ps (internalOpen bpt p) evm sc fees) st (Ok (fees - refund_of st p)) (refunded st p).
Proof.
  intros Hs Hp <- Hf Hm. unfold settlePoster, refunded, refund_of, BigLessThan, BigSub.
  eapply refines_bind; [apply FundsDue_ref, Hp|]. cbv beta zeta.
  set (due := bp_due (l1_table st) p). set (x := if _ <? due then _ else due).
  assert (x = Z.min (l1_cells st 11) due) as Hx by (unfold x; zbool; lia).
  assert ((0 <? Z.sgn x) = (0 <? Z.max 0 (Z.min (l1_cells st 11) due))) as ->.
  { rewrite <- Hx. destruct x; reflexivity. }
  destruct (Z.ltb_spec 0 (Z.max 0 (Z.min (l1_cells st 11) due))).
  - replace (Z.max 0 _) with x by lia.
    eapply refines_bind; [apply PayTo_ref, Hp|]. cbv beta.
    eapply refines_bind; [apply TransferFromL1FeesAvailable_ref; [lia|lia|exact Hs]|].
    eapply refines_bind; [apply SetFundsDue_ref, Hp|]. apply refines_ret.
  - replace (Z.max 0 _) with 0 by lia. rewrite Z.sub_0_r. apply refines_ret.
Qed.

Lemma cells_range st d : l1_at st d -> in_u 64 (l1_cells st 3) /\ in_u 64 (l1_cells st 4) /\
  in_u 64 (l1_cells st 6) /\ in_u 64 (l1_cells st 10) /\ in_u 256 (l1_cells st 1) /\ in_u 256 (l1_cells st 7) /\
  in_u 256 (l1_cells st 11).
Proof.
  intros H. pose proof (la_cell _ _ H) as Hc.
  repeat split; first [apply (Hc 3 ltac:(lia))|apply (Hc 4 ltac:(lia))|apply (Hc 6 ltac:(lia))|apply (Hc 10 ltac:(lia))
    |apply (Hc 1 ltac:(lia))|apply (Hc 7 ltac:(lia))|apply (Hc 11 ltac:(lia))].
Qed.

Lemma update_ref st p v ut ct wei bf evm sc :
  let last := l1_last (l1_cells st 4) ut in
  let ua := l1_allocated (l1_cells st 6) last ut ct in
  let spent := l1_capped (l1_cells st 10) bf ua wei in
  let st1 := settled st p spent ua ut in
  10 <= v -> p ∈ U -> Z.of_nat (length (bp_posters (l1_table st))) < 2 ^ 64 - 2 -> scenario_ok evm sc ->
  0 <= l1_cells st 4 < 2 ^ 64 -> 0 <= l1_cells st 6 < 2 ^ 64 -> in_u 64 (l1_cells st 10) -> 0 <= l1_cells st 3 ->
  last <= ut <= ct -> 0 <= ut -> ct < 2 ^ 64 ->
  0 <= l1_cells st 11 <= l1_bal st L1PricerFundsPoolAddress -> l1_cells st 11 < 2 ^ 256 ->
  0 < l1_cells st 1 -> 0 < l1_cells st 2 ->
  (0 < ua -> l1_cells (priced st1 ua) 7 < 2 ^ 256) ->
  refines l1_at (UpdateForBatchPosterSpending ps evm v ut ct p wei bf sc) st (Ok tt) (priced st1 ua).
Proof.
  intros last ua spent st1 Hv Hp Hl Hs H4 H6 H10 H3 Ht Hut Hct Hf Hm H1 H2 Hpr.
  assert (0 <= last) as Hlast by (subst last; unfold l1_last in *; destruct (_ && _) eqn:Hb; lia).
  pose proof (l1_allocated_bounds (l1_cells st 6) last ut ct H6 Ht) as Hua. fold ua in Hua.
  unfold UpdateForBatchPosterSpending. destruct (Z.ltb_spec v 10); [lia|].
  eapply refines_bind; [apply OpenPoster_ref; auto|].
  eapply refines_bind; [apply bigint_get; [l1k|reflexivity]|].
  eapply refines_bind; [apply biguint_get; [l1k|reflexivity]|].
  eapply refines_bind; [apply uint64_get; [l1k|reflexivity]|]. cbv beta zeta.
  set (sta := set_table st (bp_open (l1_table st) p)).
  replace (if _ && _ then _ else _) with last.
  2:{ unfold last, l1_last. change (l1_cells sta lastUpdateTimeOffset) with (l1_cells st 4).
      destruct ((l1_cells st 4 =? 0) && (0 <? ut)) eqn:Hb; [|reflexivity]. rewrite uwrap_id by uint. reflexivity. }
  destruct (Z.ltb_spec ct ut); [lia|]. destruct (Z.ltb_spec ut last); [lia|]. cbn [orb].
  pose proof (allocateUnits_ref sta last ut ct Ht Hlast Hct H6) as Hal.
  change (l1_allocated (l1_cells sta 6) last ut ct) with ua in Hal.
  destruct (allocation last ut ct) as [num den]. eapply refines_bind; [exact Hal|]. clear Hal.
  set (stb := set_cell sta 6 _). eapply refines_bind; [apply capSpending_ref; [lia|exact H10]|].
  change (l1_capped (l1_cells stb 10) bf ua wei) with spent.
  eapply refines_bind; [apply accrue_ref; apply bp_open_member|]. cbv beta iota.
  set (stc := accrued _ _ _ _ _).
  eapply refines_bind; [refine (settleRewards_ref stc evm sc ua _ Hs _ Hf Hm)|]; [change (0 <= ua * l1_cells st 3); nia|].
  set (std := rewarded _ _ _). assert (0 <= reward_of stc ua <= l1_cells st 11) as Hr
    by (change (reward_of stc ua) with (Z.min (l1_cells st 11) (ua * l1_cells st 3)); nia).
  eapply refines_bind; [apply (settlePoster_ref std p); [exact Hs|apply bp_open_member|reflexivity| |]|].
  - change (l1_bal std) with (move_bal (l1_bal st) L1PricerFundsPoolAddress (l1_cells st 0) (reward_of stc ua)).
    unfold move_bal. rewrite decide_True by reflexivity. change (l1_cells stc 11) with (l1_cells st 11).
    case_decide; lia.
  - change (l1_cells stc 11) with (l1_cells st 11). lia.
  - eapply refines_bind; [apply uint64_set; [l1k|reflexivity|uint]|]. cbv beta.
    change (set_cell (refunded std p) lastUpdateTimeOffset ut) with st1. unfold priced in *.
    destruct (Z.ltb_spec 0 ua); [|apply refines_ret].
    change (l1_cells stc 11 - reward_of stc ua) with (l1_cells std 11). rewrite <- refunded_fees.
    change (l1_cells (refunded std p) 11) with (l1_cells st1 11).
    assert (l1_cells st1 1 = l1_cells st 1 /\ l1_cells st1 2 = l1_cells st 2) as [E1 E2]
      by (unfold st1, settled, refunded; destruct (0 <? _); auto).
    apply adjustPrice_ref; [lia|lia|lia|lia|]. apply Hpr. lia.
Qed.

Lemma update_runs st d p v ut ct wei bf evm sc : l1_at st d -> p ∈ U -> l1_sane st p -> 10 <= v ->
  scenario_ok evm sc -> l1_last (l1_cells st 4) ut <= ut <= ct -> 0 <= ut -> ct < 2 ^ 64 ->
  0 <= wei < 2 ^ 250 -> 0 <= bf ->
  exists units spent reward refund st' G d',
    runs G (UpdateForBatchPosterSpending ps evm v ut ct p wei bf sc) d (Ok tt) d' /\ l1_at st' d' /\
    settlement st ut ct p wei bf units spent reward refund st'.
Proof.
  intros Hd Hp Hst Hv Hs Ht Hut Hct Hw Hb.
  destruct (cells_range st d Hd) as (H3 & H4 & H6 & H10 & H1 & H7 & H11).
  pose proof (l1_allocated_bounds _ _ _ _ H6 Ht) as Hua.
  set (ua := l1_allocated (l1_cells st 6) (l1_last (l1_cells st 4) ut) ut ct) in *.
  set (spent := l1_capped (l1_cells st 10) bf ua wei).
  pose proof (settled_settlement st p ut ct wei bf Hst Hw Hb) as HS. cbv zeta in HS. fold ua in HS. fold spent in HS.
  specialize (HS ltac:(uint) ltac:(uint) ltac:(uint)).
  pose proof (l1_capped_bounds (l1_cells st 10) bf ua wei ltac:(uint) Hb ltac:(lia) ltac:(lia)) as Hsp. fold spent in Hsp.
  destruct (update_ref st p v ut ct wei bf evm sc) with (d := d) as (G & d' & R & Hd');
    try assumption; fold ua; fold spent; try apply Hst; try (l1_offsets; uint).
  - intros Hua0. pose proof (se_price' _ _ _ _ _ _ _ _ _ _ _ HS) as HP. cbv zeta in HP.
    rewrite (se_fees' _ _ _ _ _ _ _ _ _ _ _ HS), (se_total' _ _ _ _ _ _ _ _ _ _ _ HS),
      (se_rewards' _ _ _ _ _ _ _ _ _ _ _ HS) in HP.
    destruct (Z.ltb_spec 0 ua); [|lia]. destruct HP as [_ HP]. l1_offsets. rewrite HP.
    destruct Hst as [Sf Sfm Sr Ss Sp Se Si St' Sd Sl]. l1_offsets.
    assert (0 <= ua * l1_cells st 3 < 2 ^ 128) as Hm by (clear - Hua H3 H6; unfold in_u in *; nia).
    eapply Z.lt_le_trans; [apply (l1_new_price_bound _ _ _ _ _ _ (2 ^ 252)); try lia|lia].
  - do 4 eexists. exists (priced (settled st p spent ua ut) ua), G, d'. split; [exact R|]. split; [exact Hd'|exact HS].
Qed.

(** ** Initialization *)

Lemma cell_set {A} (m : M A) st k v w r : 0 <= k < 12 -> cell_word (l1_kind k) v w ->
  (forall d, runs 20000 m d r (slot_set d (skey s k) w)) -> refines l1_at m st r (set_cell st k v).
Proof. intros Hk Hw R d Hd. exists 20000, (slot_set d (skey s k) w). split; [apply R|]. apply cell_write; auto. Qed.

Definition l1_blank (b : Z -> Z) : l1_state :=
  mkL1State (fun _ => 0) (bp_add bp_empty BatchPosterAddress BatchPosterPayToAddress) b.

(** The state after initialization. *)
Definition l1_initial (recipient fee : Z) (b : Z -> Z) : l1_state :=
  set_cell (set_cell (set_cell (set_cell (set_cell (set_cell (l1_blank b)
    payRewardsToOffset recipient) equilibrationUnitsOffset InitialEquilibrationUnitsV0)
    inertiaOffset InitialInertia) fundsDueForRewardsOffset 0) perUnitRewardOffset InitialPerUnitReward)
    pricePerUnitOffset fee.

Lemma initialize_table_runs d : BatchPosterAddress ∈ U ->
  (forall a, in_u 160 a -> aset_pos (OpenCachedSubStorage t [0]) d a = 0) ->
  (forall k, 0 <= k < 12 -> slot_get d (skey s k) = 0) ->
  exists G1 G2 d1 d2, runs G1 (InitializeBatchPostersTable t) d (Ok tt) d1 /\
    runs G2 (AddPoster bpt BatchPosterAddress BatchPosterPayToAddress) d1 (Ok (internalOpen bpt BatchPosterAddress)) d2 /\
    l1_at (l1_blank (GetBalance d)) d2.
Proof.
  intros Hp Ha Hz. destruct (InitializeBatchPostersTable_result t U [s] NC d Ha) as (G1 & d1 & R1 & H1 & F1).
  destruct (AddPoster_result t U [s] NC HU bp_empty d1 BatchPosterAddress BatchPosterPayToAddress)
    as (G2 & d2 & R2 & H2 & F2); [exact H1|exact Hp|apply not_elem_of_nil|split; [vm_compute; discriminate|reflexivity]|reflexivity|].
  exists G1, G2, d1, d2. split; [exact R1|]. split; [exact R2|].
  destruct F1 as (F1 & B1 & _), F2 as (F2 & B2 & _). split; [exact H2| |intros a; rewrite B2, B1; reflexivity].
  intros k Hk. rewrite F2, F1, Hz by (assumption || apply base_not_bp, Hk). cbn [l1_blank l1_cells].
  unfold l1_kind. repeat (destruct (_ =? _); cbn [orb]); repeat split; (reflexivity || (vm_compute; discriminate)).
Qed.

Lemma initialize_cells_ref recipient fee b : in_u 160 recipient -> 0 <= fee < 2 ^ 255 ->
  refines l1_at
    (Storage_SetByUint64 s payRewardsToOffset (AddressToHash recipient) ;;;
     StorageBackedBigUint_SetChecked (OpenStorageBackedBigUint s equilibrationUnitsOffset) InitialEquilibrationUnitsV0 ;;;
     Storage_SetUint64ByUint64 s inertiaOffset InitialInertia ;;;
     StorageBackedBigInt_SetChecked (OpenStorageBackedBigInt s fundsDueForRewardsOffset) 0 ;;;
     Storage_SetUint64ByUint64 s perUnitRewardOffset InitialPerUnitReward ;;;
     StorageBackedBigInt_SetSaturatingWithWarning (OpenStorageBackedBigInt s pricePerUnitOffset) fee)
    (l1_blank b) (Ok tt) (l1_initial recipient fee b).
Proof.
  intros Hr Hf. unfold l1_initial.
  eapply refines_bind; [apply (cell_set _ _ payRewardsToOffset recipient recipient); [l1k|split; [reflexivity|exact Hr]|]|].
  { intros d. rewrite AddressToHash_id by exact Hr. apply Storage_SetByUint64_runs. l1k. }
  eapply refines_bind; [apply biguint_set; [l1k|reflexivity|split; [vm_compute; discriminate|reflexivity]]|].
  eapply refines_bind; [apply (cell_set _ _ inertiaOffset InitialInertia InitialInertia); [l1k|split; [reflexivity|l1k]|]|].
  { intros d. apply Storage_SetUint64ByUint64_runs; l1k. }
  eapply refines_bind; [apply (cell_set _ _ fundsDueForRewardsOffset 0 0); [l1k|split; [l1k|reflexivity]|]|].
  { intros d. rewrite slot_eq by l1k.
    destruct (StorageBackedBigInt_SetChecked_runs (skey s fundsDueForRewardsOffset) 0 d ltac:(lia)) as (u & R & Hu & Du).
    rewrite (bigint_decode_nonneg u 0) in R by (auto; lia). exact R. }
  eapply refines_bind; [apply (cell_set _ _ perUnitRewardOffset InitialPerUnitReward InitialPerUnitReward); [l1k|split; [reflexivity|l1k]|]|].
  { intros d. apply Storage_SetUint64ByUint64_runs; l1k. }
  apply (cell_set _ _ pricePerUnitOffset fee fee); [l1k|split; [reflexivity|uint]|]. intros d. rewrite slot_eq by l1k.
  destruct (StorageBackedBigInt_SetSaturating_runs (skey s pricePerUnitOffset) fee d) as (u & R & Hu & Du).
  rewrite (bigint_decode_nonneg u fee) in R; [exact R|exact Hu| |lia]. rewrite Du. unfold clamp. lia.
Qed.

Lemma initialize_runs recipient fee d : in_u 160 recipient -> 0 <= fee < 2 ^ 255 -> BatchPosterAddress ∈ U ->
  (forall a, in_u 160 a -> aset_pos (OpenCachedSubStorage t [0]) d a = 0) ->
  (forall k, 0 <= k < 12 -> slot_get d (skey s k) = 0) ->
  exists G d', runs G (InitializeL1PricingState s recipient fee) d (Ok tt) d' /\
    l1_at (l1_initial recipient fee (GetBalance d)) d'.
Proof.
  intros Hr Hf Hp Ha Hz. destruct (initialize_table_runs d Hp Ha Hz) as (G1 & G2 & d1 & d2 & R1 & R2 & H2).
  destruct (initialize_cells_ref recipient fee (GetBalance d) Hr Hf d2 H2) as (G3 & d3 & R3 & H3).
  exists (G1 + (G2 + G3)), d3. split; [|exact H3].
  unfold InitializeL1PricingState. eapply runs_bind; [exact R1|]. eapply runs_bind; [exact R2|]. exact R3.
Qed.

(** ** An update with a time that is not between the last update and now *)
Lemma update_invalid_time st d p v ut ct wei bf evm sc : l1_at st d -> p ∈ U ->
  Z.of_nat (length (bp_posters (l1_table st))) < 2 ^ 64 - 2 -> 10 <= v -> 0 <= ut < 2 ^ 64 ->
  ct < ut \/ ut < l1_last (l1_cells st 4) ut ->
  exists G d', runs G (UpdateForBatchPosterSpending ps evm v ut ct p wei bf sc) d (Err ErrInvalidTime) d' /\
    l1_at (set_table st (bp_open (l1_table st) p)) d'.
Proof.
  intros Hd Hp Hl Hv Hut Ht. destruct (cells_range st d Hd) as (_ & H4 & _). revert d Hd.
  change (refines l1_at (UpdateForBatchPosterSpending ps evm v ut ct p wei bf sc) st (Err ErrInvalidTime)
    (set_table st (bp_open (l1_table st) p))).
  unfold UpdateForBatchPosterSpending. destruct (Z.ltb_spec v 10); [lia|].
  eapply refines_bind; [apply OpenPoster_ref; auto|].
  eapply refines_bind; [apply bigint_get; [l1k|reflexivity]|].
  eapply refines_bind; [apply biguint_get; [l1k|reflexivity]|].
  eapply refines_bind; [apply uint64_get; [l1k|reflexivity]|]. cbv beta zeta.
  set (sta := set_table st (bp_open (l1_table st) p)).
  replace (if _ && _ then _ else _) with (l1_last (l1_cells st 4) ut).
  2:{ unfold l1_last. change (l1_cells sta lastUpdateTimeOffset) with (l1_cells st 4).
      destruct ((l1_cells st 4 =? 0) && (0 <? ut)) eqn:Hb; [|reflexivity]. rewrite uwrap_id by uint. reflexivity. }
  replace (_ || _) with true by (symmetry; apply orb_true_iff; rewrite !Z.ltb_lt; exact Ht).
  apply refines_fail.
Qed.
End Facts.

(** ** Properties *)

#[local] Existing Instance TestEnv.

(** The example of the witnesses: the fresh pricer with 50 units and 1000 wei
    of fees collected. *)
Definition ex_space : Storage := mkStorage 1 [7] false.
Definition ex_posters : list Z := [BatchPosterAddress; 5].
Definition ex_funded : @DB TestEnv := AddBalance test_db L1PricerFundsPoolAddress 1000.
Definition ex_state : l1_state :=
  set_cell (set_cell (l1_initial 9 7 (GetBalance ex_funded)) l1FeesAvailableOffset 1000) unitsSinceOffset 50.

Lemma ex_spaces_ok : spaces_ok (bp_spaces (OpenCachedSubStorage ex_space [0]) ex_posters ++ [ex_space]).
Proof. apply test_spaces_ok. apply (bool_decide_eq_true _). vm_compute. reflexivity. Qed.

Lemma ex_posters_ok : Forall (in_u 160) ex_posters.
Proof. repeat (apply Forall_cons; split; [split; [vm_compute; discriminate|reflexivity]|]). constructor. Qed.

Lemma ex_state_at : exists d, l1_at ex_space ex_posters ex_state d.
Proof.
  destruct (initialize_runs ex_space ex_posters ex_spaces_ok ex_posters_ok 9 7 ex_funded) as (G & d & _ & H);
    [split; [lia|reflexivity]|lia|left|intros; reflexivity|intros; reflexivity|].
  eexists. eapply (cell_write ex_space ex_posters ex_spaces_ok _ _ unitsSinceOffset 50 50); [|l1k|split; [reflexivity|l1k]].
  eapply (cell_write ex_space ex_posters ex_spaces_ok _ _ l1FeesAvailableOffset 1000 1000); [exact H|l1k|split; [reflexivity|l1k]].
Qed.

Lemma ex_state_sane : l1_sane ex_state 5.
Proof. split; try (vm_compute; intuition congruence). Qed.

(** initialization of the pricer on an empty space establishes its
    representation, with the documented parameters, the default batch poster
    and the initial price. *)
Theorem InitializeL1PricingState_at {E : Env} {EL : EnvLaws E} (s : Storage) (U : list Z) (d : DB) (recipient fee : Z) :
  spaces_ok (bp_spaces (OpenCachedSubStorage s [0]) U ++ [s]) -> Forall (in_u 160) U -> BatchPosterAddress ∈ U ->
  in_u 160 recipient -> 0 <= fee < 2 ^ 255 ->
  (forall a, in_u 160 a -> aset_pos (OpenCachedSubStorage (OpenCachedSubStorage s [0]) [0]) d a = 0) ->
  (forall k, 0 <= k < 12 -> slot_get d (skey s k) = 0) ->
  exists G d', runs G (InitializeL1PricingState s recipient fee) d (Ok tt) d' /\
    l1_at s U (l1_initial recipient fee (GetBalance d)) d'.
Proof. intros NC HU Hp Hr Hf Ha Hz. apply initialize_runs; auto. Qed.

Lemma InitializeL1PricingState_at_witness :
  exists G d', runs G (InitializeL1PricingState ex_space 9 7) ex_funded (Ok tt) d' /\
    l1_at ex_space ex_posters (l1_initial 9 7 (GetBalance ex_funded)) d'.
Proof.
  apply (InitializeL1PricingState_at ex_space ex_posters ex_funded 9 7 ex_spaces_ok ex_posters_ok).
  - left.
  - split; [lia|reflexivity].
  - lia.
  - intros a _. reflexivity.
  - intros k _. reflexivity.
Defined.

(** C10: from version 10 on, the settlement with a batch poster whose report is
    not in the future and not before the last update succeeds and does exactly
    this: it allocates the share of the units that the elapsed time gives,
    credits the poster with its spending up to the cap, pays the rewards and
    then the poster, each as far as the collected fees reach, moves these
    amounts out of the pool, and sets the new surplus and price. *)
Theorem UpdateForBatchPosterSpending_settles {E : Env} {EL : EnvLaws E} (s : Storage) (U : list Z)
  (st : l1_state) (d : DB) (poster v updateTime currentTime wei l1Basefee : Z) (evm : EVM) (sc : TracingScenario) :
  spaces_ok (bp_spaces (OpenCachedSubStorage s [0]) U ++ [s]) -> Forall (in_u 160) U -> poster ∈ U ->
  l1_at s U st d -> l1_sane st poster -> 10 <= v -> scenario_ok evm sc ->
  l1_last (l1_cells st lastUpdateTimeOffset) updateTime <= updateTime <= currentTime ->
  0 <= updateTime -> currentTime < 2 ^ 64 -> 0 <= wei < 2 ^ 250 -> 0 <= l1Basefee ->
  exists units spent reward refund st' G d',
    runs G (UpdateForBatchPosterSpending (OpenL1PricingState s) evm v updateTime currentTime poster wei l1Basefee sc)
      d (Ok tt) d' /\
    l1_at s U st' d' /\
    settlement st updateTime currentTime poster wei l1Basefee units spent reward refund st'.
Proof. intros NC HU Hp Hd Hst Hv Hs Ht Hut Hct Hw Hb. apply update_runs; auto. Qed.

(** All 50 units are allocated: 500 are paid for rewards, and the 300 the
    poster spent are refunded. *)
Lemma UpdateForBatchPosterSpending_settles_witness :
  exists st' d G d',
    runs G (UpdateForBatchPosterSpending (OpenL1PricingState ex_space) (mkEVM false 0) 10 100 100 5 300 1 TracingBeforeEVM)
      d (Ok tt) d' /\
    l1_at ex_space ex_posters st' d' /\ l1_cells st' l1FeesAvailableOffset = 200 /\ l1_bal st' 5 = 300 /\
    bp_due (l1_table st') 5 = 0.
Proof.
  destruct ex_state_at as [d Hd].
  destruct (UpdateForBatchPosterSpending_settles ex_space ex_posters ex_state d 5 10 100 100 300 1 (mkEVM false 0)
    TracingBeforeEVM ex_spaces_ok ex_posters_ok) as (ua & spent & r & x & st' & G & d' & R & Hd' & HS);
    [right; left|exact Hd|exact ex_state_sane|lia|left; reflexivity|vm_compute; intuition congruence|lia|lia|lia|lia|].
  exists st', d, G, d'. split; [exact R|]. split; [exact Hd'|].
  destruct HS as [Eu Es Er Ex _ _ _ Ef _ Ed _ _ _ Eb _ _]. subst ua. subst spent. subst r. subst x.
  rewrite Ef, Ed, Eb. vm_compute. auto.
Defined.

(** C18: from version 10 on, a settlement with a report that is not in the
    future and not before the last update keeps the books of the pricer. What the
    rewards' recipient and the poster are paid, out of the pool and nowhere else, is
    not negative and together no more than the recorded fees, which shrink by
    exactly that; the fees stay covered by the pool and non-negative; the total stays
    the sum of what is due to the posters; and the price stays non-negative. *)
Theorem UpdateForBatchPosterSpending_solvent {E : Env} {EL : EnvLaws E} (s : Storage) (U : list Z)
  (st : l1_state) (d : DB) (poster v updateTime currentTime wei l1Basefee : Z) (evm : EVM) (sc : TracingScenario) :
  spaces_ok (bp_spaces (OpenCachedSubStorage s [0]) U ++ [s]) -> Forall (in_u 160) U -> poster ∈ U ->
  l1_at s U st d -> l1_sane st poster -> 10 <= v -> scenario_ok evm sc ->
  l1_last (l1_cells st lastUpdateTimeOffset) updateTime <= updateTime <= currentTime ->
  0 <= updateTime -> currentTime < 2 ^ 64 -> 0 <= wei < 2 ^ 250 -> 0 <= l1Basefee ->
  bp_total (l1_table st) = sum_due (l1_table st) ->
  exists reward refund st' G d',
    runs G (UpdateForBatchPosterSpending (OpenL1PricingState s) evm v updateTime currentTime poster wei l1Basefee sc)
      d (Ok tt) d' /\
    l1_at s U st' d' /\ bp_total (l1_table st') = sum_due (l1_table st') /\
    0 <= l1_cells st' l1FeesAvailableOffset <= l1_bal st' L1PricerFundsPoolAddress /\
    0 <= reward /\ 0 <= refund /\ reward + refund <= l1_cells st l1FeesAvailableOffset /\
    l1_cells st' l1FeesAvailableOffset = l1_cells st l1FeesAvailableOffset - (reward + refund) /\
    (forall a, l1_bal st' a =
       l1_bal st a - (if decide (L1PricerFundsPoolAddress = a) then reward + refund else 0)
         + (if decide (l1_cells st payRewardsToOffset = a) then reward else 0)
         + (if decide (bp_pay (l1_table st') poster = a) then refund else 0)) /\
    0 <= l1_cells st' pricePerUnitOffset.
Proof.
  intros NC HU Hp Hd Hst Hv Hs Ht Hut Hct Hw Hb Hsum.
  destruct (update_runs s U NC HU st d poster v updateTime currentTime wei l1Basefee evm sc)
    as (ua & spent & r & x & st' & G & d' & R & Hd' & HS); auto.
  exists r, x, st', G, d'. split; [exact R|]. split; [exact Hd'|].
  pose proof (se_fees' _ _ _ _ _ _ _ _ _ _ _ HS) as Ef. assert (0 <= r /\ 0 <= x) as [Hr Hx].
  { destruct (cells_range s U st d Hd) as ([H3 _] & _ & [H6a H6b] & _). pose proof (ls_fees _ _ Hst).
    pose proof (l1_allocated_bounds (l1_cells st unitsSinceOffset) _ _ _ (conj H6a H6b) Ht) as Hua.
    rewrite <- (se_units _ _ _ _ _ _ _ _ _ _ _ HS) in Hua.
    rewrite (se_reward _ _ _ _ _ _ _ _ _ _ _ HS), (se_refund _ _ _ _ _ _ _ _ _ _ _ HS).
    unfold perUnitRewardOffset. split; [nia|lia]. }
  destruct (cells_range s U st' d' Hd') as (_ & _ & _ & _ & _ & [H7 _] & [H11 _]).
  change (0 <= l1_cells st' l1FeesAvailableOffset) in H11.
  split; [|split; [split; [exact H11|]|split; [exact Hr|split; [exact Hx|split; [lia|split; [lia|split; [|exact H7]]]]]]].
  - eapply settlement_sum; [exact HS| |exact Hsum].
    rewrite <- (se_posters' _ _ _ _ _ _ _ _ _ _ _ HS). eapply ix_at_nodup, (ba_addrs _ _ _ _ (la_table _ _ _ _ Hd')).
  - rewrite (se_bal' _ _ _ _ _ _ _ _ _ _ _ HS), Ef. pose proof (ls_fees _ _ Hst).
    unfold move_bal. rewrite !decide_True by reflexivity. repeat case_decide; lia.
  - intros a. rewrite (se_bal' _ _ _ _ _ _ _ _ _ _ _ HS), (se_pay' _ _ _ _ _ _ _ _ _ _ _ HS). unfold move_bal. repeat case_decide; lia.
Qed.

Lemma UpdateForBatchPosterSpending_solvent_witness :
  exists reward refund st' d G d',
    runs G (UpdateForBatchPosterSpending (OpenL1PricingState ex_space) (mkEVM false 0) 10 100 100 5 300 1 TracingBeforeEVM)
      d (Ok tt) d' /\
    l1_at ex_space ex_posters st' d' /\ bp_total (l1_table st') = sum_due (l1_table st') /\
    reward + refund <= l1_cells ex_state l1FeesAvailableOffset.
Proof.
  destruct ex_state_at as [d Hd].
  destruct (UpdateForBatchPosterSpending_solvent ex_space ex_posters ex_state d 5 10 100 100 300 1 (mkEVM false 0)
    TracingBeforeEVM ex_spaces_ok ex_posters_ok) as (reward & refund & st' & G & d' & R & Hd' & HS & _ & _ & _ & Hp & _);
    [right; left|exact Hd|exact ex_state_sane|lia|left; reflexivity|vm_compute; intuition congruence|lia|lia|lia|lia|reflexivity|].
  exists reward, refund, st', d, G, d'. split; [exact R|]. split; [exact Hd'|]. split; [exact HS|exact Hp].
Defined.

(** a report whose time lies in the future or before the last update is
    rejected with the error for invalid times, and apart from the registration
    of an unknown poster nothing changes. *)
Theorem UpdateForBatchPosterSpending_invalid_time {E : Env} {EL : EnvLaws E} (s : Storage) (U : list Z)
  (st : l1_state) (d : DB) (poster v updateTime currentTime wei l1Basefee : Z) (evm : EVM) (sc : TracingScenario) :
  spaces_ok (bp_spaces (OpenCachedSubStorage s [0]) U ++ [s]) -> Forall (in_u 160) U -> poster ∈ U ->
  l1_at s U st d -> Z.of_nat (length (bp_posters (l1_table st))) < 2 ^ 64 - 2 -> 10 <= v -> 0 <= updateTime < 2 ^ 64 ->
  currentTime < updateTime \/ updateTime < l1_last (l1_cells st lastUpdateTimeOffset) updateTime ->
  exists G d',
    runs G (UpdateForBatchPosterSpending (OpenL1PricingState s) evm v updateTime currentTime poster wei l1Basefee sc)
      d (Err ErrInvalidTime) d' /\
    l1_at s U (set_table st (bp_open (l1_table st) poster)) d'.
Proof. intros NC HU Hp Hd Hl Hv Hut Ht. apply update_invalid_time; auto. Qed.

Lemma UpdateForBatchPosterSpending_invalid_time_witness :
  exists d G d',
    runs G (UpdateForBatchPosterSpending (OpenL1PricingState ex_space) (mkEVM false 0) 10 101 100 5 300 1 TracingBeforeEVM)
      d (Err ErrInvalidTime) d' /\
    l1_at ex_space ex_posters (set_table ex_state (bp_open (l1_table ex_state) 5)) d'.
Proof.
  destruct ex_state_at as [d Hd].
  destruct (UpdateForBatchPosterSpending_invalid_time ex_space ex_posters ex_state d 5 10 101 100 300 1 (mkEVM false 0)
    TracingBeforeEVM ex_spaces_ok ex_posters_ok) as (G & d' & R & Hd');
    [right; left|exact Hd|reflexivity|lia|lia|left; lia|].
  exists d, G, d'. split; [exact R|exact Hd'].
Defined.
