(* ===== verification/Retryables.v ===== *)
(** * arbos/retryables/retryable.go: retryable tickets

    A ticket lives in the sub-space of its id; the timeout queue holds the id
    once for the ticket and once for every lifetime it was kept alive for.
    What is proved about it is in RetryablesFacts.v. *)
From Stdlib Require Import ZArith Lia String List.
From stdpp Require Import base list numbers.
From S2P Require Import Prelude Arbmath Host Storage Queue Transfer.
Open Scope Z_scope.

Definition RetryableLifetimeSeconds : Z := 7 * 24 * 60 * 60.
Definition RetryableReapPrice : Z := 58000.

Record RetryableState := mkRetryableState {
  rs_retryables : Storage;
  rs_TimeoutQueue : Queue
}.

Definition timeoutQueueKey : list Z := [0].
Definition calldataKey : list Z := [1].

Record Retryable := mkRetryable {
  ret_id : Z;
  ret_backingStorage : Storage;
  ret_numTries : StorageSlot;
  ret_from : StorageSlot;
  ret_to : StorageSlot;
  ret_callvalue : StorageSlot;
  ret_beneficiary : StorageSlot;
  ret_calldata : Storage;
  ret_timeout : StorageSlot;
  ret_timeoutWindowsLeft : StorageSlot
}.

Definition numTriesOffset : Z := 0.
Definition fromOffset : Z := 1.
Definition toOffset : Z := 2.
Definition callvalueOffset : Z := 3.
Definition beneficiaryOffset : Z := 4.
Definition timeoutOffset : Z := 5.
Definition timeoutWindowsLeftOffset : Z := 6.

(** [types.ArbitrumRetryTx] *)
Record ArbitrumRetryTx := mkArbitrumRetryTx {
  art_ChainId : Z; art_Nonce : Z; art_From : Z; art_GasFeeCap : Z; art_Gas : Z; art_To : option Z;
  art_Value : Z; art_Data : list Z; art_TicketId : Z; art_RefundTo : Z; art_MaxRefund : Z;
  art_SubmissionFeeRefund : Z
}.

Section Operations.
Context {E : Env}.

Definition InitializeRetryableState (sto : Storage) : M unit :=
  InitializeQueue (OpenCachedSubStorage sto timeoutQueueKey).

Definition OpenRetryableState (sto : Storage) : RetryableState :=
  mkRetryableState sto (OpenQueue (OpenCachedSubStorage sto timeoutQueueKey)).

(** The views on the fields of a ticket in its sub-space. *)
Definition newRetryable (id : Z) (sto : Storage) : Retryable :=
  mkRetryable id sto
    (OpenStorageBackedUint64 sto numTriesOffset)
    (OpenStorageBackedAddress sto fromOffset)
    (OpenStorageBackedAddressOrNil sto toOffset)
    (OpenStorageBackedBigUint sto callvalueOffset)
    (OpenStorageBackedAddress sto beneficiaryOffset)
    (OpenStorageBackedBytes sto calldataKey)
    (OpenStorageBackedUint64 sto timeoutOffset)
    (OpenStorageBackedUint64 sto timeoutWindowsLeftOffset).

Definition CreateRetryable (rs : RetryableState) (id timeout from : Z) (to : option Z)
  (callvalue beneficiary : Z) (calldata : list Z) : M Retryable :=
  let sto := OpenSubStorage (rs_retryables rs) (Hash_Bytes id) in
  let r := newRetryable id sto in
  ignore (StorageBackedUint64_Set (ret_numTries r) 0) ;;;
  ignore (StorageBackedAddress_Set (ret_from r) from) ;;;
  ignore (StorageBackedAddressOrNil_Set (ret_to r) to) ;;;
  ignore (StorageBackedBigUint_SetChecked (ret_callvalue r) callvalue) ;;;
  ignore (StorageBackedAddress_Set (ret_beneficiary r) beneficiary) ;;;
  ignore (StorageBackedBytes_Set (ret_calldata r) calldata) ;;;
  ignore (StorageBackedUint64_Set (ret_timeout r) timeout) ;;;
  ignore (StorageBackedUint64_Set (ret_timeoutWindowsLeft r) 0) ;;;
  Queue_Put (rs_TimeoutQueue rs) id ;;;
  ret r.

Definition OpenRetryable (rs : RetryableState) (id currentTimestamp : Z) : M (option Retryable) :=
  let sto := OpenSubStorage (rs_retryables rs) (Hash_Bytes id) in
  let timeoutStorage := OpenStorageBackedUint64 sto timeoutOffset in
  let* timeout := StorageBackedUint64_Get timeoutStorage in
  if (timeout =? 0) || (timeout <? currentTimestamp) then ret None
  else ret (Some (newRetryable id sto)).

Definition NumTries (r : Retryable) : M Z := StorageBackedUint64_Get (ret_numTries r).
Definition IncrementNumTries (r : Retryable) : M Z := StorageBackedUint64_Increment (ret_numTries r).
Definition Beneficiary (r : Retryable) : M Z := StorageBackedAddress_Get (ret_beneficiary r).

Definition CalculateTimeout (r : Retryable) : M Z :=
  let* timeout := StorageBackedUint64_Get (ret_timeout r) in
  let* windows := StorageBackedUint64_Get (ret_timeoutWindowsLeft r) in
  ret (timeout +u64 (windows *u64 RetryableLifetimeSeconds)).

Definition SetTimeout (r : Retryable) (val : Z) : M unit := StorageBackedUint64_Set (ret_timeout r) val.
Definition From (r : Retryable) : M Z := StorageBackedAddress_Get (ret_from r).
Definition To (r : Retryable) : M (option Z) := StorageBackedAddressOrNil_Get (ret_to r).
Definition Callvalue (r : Retryable) : M Z := StorageBackedBigUint_Get (ret_callvalue r).
Definition Calldata (r : Retryable) : M (list Z) := StorageBackedBytes_Get (ret_calldata r).
Definition CalldataSize (r : Retryable) : M Z := StorageBackedBytes_Size (ret_calldata r).

Definition RetryableSizeBytes (rs : RetryableState) (id currentTime : Z) : M Z :=
  let* retryable := OpenRetryable rs id currentTime in
  match retryable with
  | None => ret 0
  | Some r =>
      let* size := CalldataSize r in
      let calldata := 32 +u64 (32 *u64 WordsForBytes size) in
      ret ((6 * 32) +u64 calldata)
  end.

Definition RetryableEscrowAddress (ticketId : Z) : Z :=
  BytesToAddress (Hash_Bytes (keccak256 (bytes_of_string "retryable escrow" ++ Hash_Bytes ticketId))).

Definition RetryableSubmissionFee (calldataLengthInBytes l1BaseFee : Z) : Z :=
  BigMulByUint l1BaseFee (u64 (i64 (1400 + i64 (6 * calldataLengthInBytes)))).

Definition DeleteRetryable (rs : RetryableState) (id : Z) (evm : EVM) (scenario : TracingScenario) : M bool :=
  let retStorage := OpenSubStorage (rs_retryables rs) (Hash_Bytes id) in
  let* timeout := Storage_GetByUint64 retStorage timeoutOffset in
  if timeout =? 0 then ret false
  else
    let* beneficiary := value_or 0 (Storage_GetByUint64 retStorage beneficiaryOffset) in
    let escrowAddress := RetryableEscrowAddress id in
    let beneficiaryAddress := BytesToAddress (Hash_Bytes beneficiary) in
    let* amount := db_read (fun d => GetBalance d escrowAddress) in
    TransferBalance (Some escrowAddress) (Some beneficiaryAddress) amount evm scenario "escrow" ;;;
    ignore (Storage_ClearByUint64 retStorage numTriesOffset) ;;;
    ignore (Storage_ClearByUint64 retStorage fromOffset) ;;;
    ignore (Storage_ClearByUint64 retStorage toOffset) ;;;
    ignore (Storage_ClearByUint64 retStorage callvalueOffset) ;;;
    ignore (Storage_ClearByUint64 retStorage beneficiaryOffset) ;;;
    ignore (Storage_ClearByUint64 retStorage timeoutOffset) ;;;
    ignore (Storage_ClearByUint64 retStorage timeoutWindowsLeftOffset) ;;;
    ClearBytes (OpenSubStorage retStorage calldataKey) ;;;
    ret true.

Definition Keepalive (rs : RetryableState) (ticketId currentTimestamp limitBeforeAdd timeToAdd : Z) : M Z :=
  let* retryable := OpenRetryable rs ticketId currentTimestamp in
  match retryable with
  | None => fail (ErrNew "ticketId not found")
  | Some r =>
      let* timeout := CalculateTimeout r in
      if limitBeforeAdd <? timeout then fail (ErrNew "timeout too far into the future")
      else
        Queue_Put (rs_TimeoutQueue rs) (ret_id r) ;;;
        let* _ := StorageBackedUint64_Increment (ret_timeoutWindowsLeft r) in
        let newTimeout := timeout +u64 RetryableLifetimeSeconds in
        burn RetryableReapPrice ;;;
        ret newTimeout
  end.

Definition TryToReapOneRetryable (rs : RetryableState) (currentTimestamp : Z) (evm : EVM)
  (scenario : TracingScenario) : M unit :=
  let* id := Queue_Peek (rs_TimeoutQueue rs) in
  match id with
  | None => ret tt
  | Some id =>
      let retryableStorage := OpenSubStorage (rs_retryables rs) (Hash_Bytes id) in
      let timeoutStorage := OpenStorageBackedUint64 retryableStorage timeoutOffset in
      let* timeout := StorageBackedUint64_Get timeoutStorage in
      if timeout =? 0 then
        let* _ := Queue_Get (rs_TimeoutQueue rs) in ret tt
      else
        let windowsLeftStorage := OpenStorageBackedUint64 retryableStorage timeoutWindowsLeftOffset in
        let* windowsLeft := StorageBackedUint64_Get windowsLeftStorage in
        if currentTimestamp <=? timeout then ret tt
        else
          let* _ := Queue_Get (rs_TimeoutQueue rs) in
          if windowsLeft =? 0 then
            let* _ := DeleteRetryable rs id evm scenario in ret tt
          else
            StorageBackedUint64_Set timeoutStorage (timeout +u64 RetryableLifetimeSeconds) ;;;
            StorageBackedUint64_Set windowsLeftStorage (windowsLeft -u64 1)
  end.

Definition MakeTx (r : Retryable) (chainId nonce gasFeeCap gas ticketId refundTo maxRefund submissionFeeRefund : Z)
  : M ArbitrumRetryTx :=
  let* from := From r in
  let* to := To r in
  let* callvalue := Callvalue r in
  let* calldata := Calldata r in
  ret (mkArbitrumRetryTx chainId nonce from gasFeeCap gas to callvalue calldata ticketId refundTo maxRefund
         submissionFeeRefund).
End Operations.
