(* ===== verification/RetryablesFacts.v ===== *)
(** * Retryable tickets: representation and properties

    The abstract state [rt_state] gives the fields and the calldata of every
    ticket, the timeout queue, the balances, the words of all other slots and the
    logs;
    [rt_at] says how the database represents it for the tickets of a finite
    universe [U]. Every operation of Retryables.v refines an operation on the
    abstract state, so none of them changes another slot. *)
From Stdlib Require Import ZArith Lia String List.
From stdpp Require Import base list numbers.
From S2P Require Import Prelude Arbmath Host Storage StorageFacts Refine MemEnv StorageBytes Queue Transfer Retryables.
Open Scope Z_scope.

Record rt_state := mkRtState {
  rt_field : Z -> Z -> Z;       (* by id and offset; the timeout of a ticket that does not exist is 0 *)
  rt_data : Z -> list Z;
  rt_queue : list Z;
  rt_put : Z;                   (* the put offset of the queue *)
  rt_bal : Z -> Z;
  rt_other : StorageSlot -> Z;  (* the slots of neither tickets nor queue *)
  rt_logs : list EthLog
}.

Definition set_field (st : rt_state) (id k v : Z) : rt_state :=
  mkRtState (fun i j => if (i =? id) && (j =? k) then v else rt_field st i j) (rt_data st) (rt_queue st)
    (rt_put st) (rt_bal st) (rt_other st) (rt_logs st).
Definition set_data (st : rt_state) (id : Z) (b : list Z) : rt_state :=
  mkRtState (rt_field st) (fun i => if i =? id then b else rt_data st i) (rt_queue st) (rt_put st) (rt_bal st)
    (rt_other st) (rt_logs st).
Definition put_queue (st : rt_state) (id : Z) : rt_state :=
  mkRtState (rt_field st) (rt_data st) (rt_queue st ++ [id]) (rt_put st + 1) (rt_bal st) (rt_other st) (rt_logs st).
Definition pop_queue (st : rt_state) : rt_state :=
  mkRtState (rt_field st) (rt_data st) (tail (rt_queue st)) (rt_put st) (rt_bal st) (rt_other st) (rt_logs st).
Definition move_balance (st : rt_state) (from to amount : Z) : rt_state :=
  mkRtState (rt_field st) (rt_data st) (rt_queue st) (rt_put st)
    (fun a => rt_bal st a - (if decide (from = a) then amount else 0) + (if decide (to = a) then amount else 0))
    (rt_other st) (rt_logs st).

(** The word that represents an optional address, and the words a field may hold. *)
Definition to_word (to : option Z) : Z := match to with Some a => a | None => 2 ^ 255 end.
Definition word_to (w : Z) : option Z := if w =? 2 ^ 255 then None else Some w.

Definition field_ok (k v : Z) : Prop :=
  if (k =? 1) || (k =? 4) then in_u 160 v
  else if k =? 2 then in_u 160 v \/ v = 2 ^ 255
  else if k =? 3 then in_u 256 v
  else in_u 64 v.

(** ** The operations on the abstract state *)

Definition create_spec (st : rt_state) (id timeout from : Z) (to : option Z) (callvalue beneficiary : Z)
  (calldata : list Z) : rt_state :=
  let st := set_field st id numTriesOffset 0 in
  let st := set_field st id fromOffset from in
  let st := set_field st id toOffset (to_word to) in
  let st := set_field st id callvalueOffset callvalue in
  let st := set_field st id beneficiaryOffset beneficiary in
  let st := set_data st id calldata in
  let st := set_field st id timeoutOffset timeout in
  let st := set_field st id timeoutWindowsLeftOffset 0 in
  put_queue st id.

(** A ticket that can still be redeemed at time [now]. *)
Definition rt_open (st : rt_state) (id now : Z) : bool :=
  negb ((rt_field st id timeoutOffset =? 0) || (rt_field st id timeoutOffset <? now)).

Definition rt_erase (st : rt_state) (id : Z) : rt_state :=
  let st := set_field st id numTriesOffset 0 in
  let st := set_field st id fromOffset 0 in
  let st := set_field st id toOffset 0 in
  let st := set_field st id callvalueOffset 0 in
  let st := set_field st id beneficiaryOffset 0 in
  let st := set_field st id timeoutOffset 0 in
  let st := set_field st id timeoutWindowsLeftOffset 0 in
  set_data st id [].

Definition delete_spec {E : Env} (st : rt_state) (id : Z) : rt_state :=
  if rt_field st id timeoutOffset =? 0 then st
  else
    rt_erase (move_balance st (RetryableEscrowAddress id) (rt_field st id beneficiaryOffset)
                (rt_bal st (RetryableEscrowAddress id))) id.

(** The end of the last lifetime that is paid for. *)
Definition rt_total (st : rt_state) (id : Z) : Z :=
  rt_field st id timeoutOffset +u64 (rt_field st id timeoutWindowsLeftOffset *u64 RetryableLifetimeSeconds).

Definition keepalive_spec (st : rt_state) (id now limit : Z) : outcome Z * rt_state :=
  if negb (rt_open st id now) then (Err (ErrNew "ticketId not found"), st)
  else if limit <? rt_total st id then (Err (ErrNew "timeout too far into the future"), st)
  else (Ok (rt_total st id +u64 RetryableLifetimeSeconds),
        set_field (put_queue st id) id timeoutWindowsLeftOffset (rt_field st id timeoutWindowsLeftOffset + 1)).

Definition reap_spec {E : Env} (st : rt_state) (now : Z) : rt_state :=
  match rt_queue st with
  | [] => st
  | id :: _ =>
      if rt_field st id timeoutOffset =? 0 then pop_queue st
      else if now <=? rt_field st id timeoutOffset then st
      else if rt_field st id timeoutWindowsLeftOffset =? 0 then delete_spec (pop_queue st) id
      else set_field
             (set_field (pop_queue st) id timeoutOffset (rt_field st id timeoutOffset +u64 RetryableLifetimeSeconds))
             id timeoutWindowsLeftOffset (rt_field st id timeoutWindowsLeftOffset - 1)
  end.

Lemma rt_open_live st id now : rt_open st id now = true -> rt_field st id 5 <> 0.
Proof. unfold rt_open, timeoutOffset. destruct (Z.eqb_spec (rt_field st id 5) 0); [discriminate|auto]. Qed.

(** ** The timeout queue *)

(** How often the queue holds an id. *)
Fixpoint occ (id : Z) (l : list Z) : Z :=
  match l with
  | [] => 0
  | x :: l => (if x =? id then 1 else 0) + occ id l
  end.

Lemma occ_app id l l' : occ id (l ++ l') = occ id l + occ id l'.
Proof. induction l as [|x l IH]; cbn [occ app]; [reflexivity|]. rewrite IH. lia. Qed.

Lemma occ_not_in id l : id ∉ l -> occ id l = 0.
Proof.
  induction l as [|x l IH]; intros H; cbn [occ]; [reflexivity|]. apply not_elem_of_cons in H as [H1 H2].
  rewrite IH by exact H2. destruct (Z.eqb_spec x id); [congruence|reflexivity].
Qed.

Lemma occ_bounds id l : 0 <= occ id l <= Z.of_nat (length l).
Proof. induction l; cbn [occ length]; [lia|]. destruct (_ =? _); lia. Qed.

(** A live ticket is queued once, and once more for every window it has left. *)
Definition queue_inv (st : rt_state) : Prop :=
  forall id, rt_field st id timeoutOffset <> 0 ->
    0 <= rt_field st id timeoutWindowsLeftOffset /\
    occ id (rt_queue st) = rt_field st id timeoutWindowsLeftOffset + 1.

(** Every live ticket runs out, with all its windows, before [now]. *)
Definition all_expired (st : rt_state) (now : Z) : Prop :=
  forall id, rt_field st id timeoutOffset <> 0 ->
    0 <= rt_field st id timeoutOffset /\
    rt_field st id timeoutOffset + rt_field st id timeoutWindowsLeftOffset * RetryableLifetimeSeconds < now.

Ltac rt_simp :=
  cbn [fst snd create_spec rt_erase set_field set_data put_queue pop_queue move_balance rt_field rt_data rt_queue rt_put
       andb Z.eqb Pos.eqb numTriesOffset fromOffset toOffset callvalueOffset beneficiaryOffset timeoutOffset
       timeoutWindowsLeftOffset] in *.

Lemma create_fields st id timeout from to value ben data :
  let st1 := create_spec st id timeout from to value ben data in
  rt_field st1 id 5 = timeout /\ rt_field st1 id 1 = from /\ rt_field st1 id 2 = to_word to /\
  rt_field st1 id 3 = value /\ rt_data st1 id = data /\ rt_field st1 id 6 = 0 /\ rt_field st1 id 0 = 0.
Proof. rt_simp. rewrite Z.eqb_refl. repeat split. Qed.

Lemma word_to_word to : (forall a, to = Some a -> in_u 160 a) -> word_to (to_word to) = to.
Proof.
  intros Hto. unfold word_to, to_word. destruct to as [a|]; [|reflexivity]. specialize (Hto a eq_refl).
  destruct (Z.eqb_spec a (2 ^ 255)); [unfold in_u in Hto; lia|reflexivity].
Qed.

Lemma create_inv st id timeout from to value ben data : queue_inv st -> id ∉ rt_queue st ->
  queue_inv (create_spec st id timeout from to value ben data).
Proof.
  intros H Hn j. rt_simp. rewrite occ_app. cbn [occ]. rewrite Z.add_0_r.
  destruct (Z.eqb_spec j id) as [->|Hne]; rt_simp.
  - intros _. rewrite occ_not_in, Z.eqb_refl by exact Hn. lia.
  - intros Hl. destruct (Z.eqb_spec id j); [congruence|]. rewrite Z.add_0_r. exact (H j Hl).
Qed.

Lemma keepalive_inv st id now limit : queue_inv st -> queue_inv (keepalive_spec st id now limit).2.
Proof.
  intros H. unfold keepalive_spec. destruct (negb _); [exact H|]. destruct (_ <? _); [exact H|].
  intros j. specialize (H j). unfold timeoutWindowsLeftOffset, timeoutOffset in *. rt_simp. rewrite occ_app. cbn [occ].
  rewrite andb_false_r. intros Hl. specialize (H Hl).
  destruct (Z.eqb_spec j id) as [->|Hne]; rt_simp; [rewrite Z.eqb_refl; lia|].
  destruct (Z.eqb_spec id j); [congruence|]. lia.
Qed.

Lemma delete_inv {E : Env} st id : queue_inv st -> queue_inv (delete_spec st id).
Proof.
  intros H. unfold delete_spec. destruct (_ =? 0); [exact H|]. intros j. specialize (H j).
  unfold timeoutWindowsLeftOffset, timeoutOffset in *. rt_simp.
  destruct (Z.eqb_spec j id) as [->|Hne]; rt_simp; [intros Hl; contradiction|exact H].
Qed.

(** The head of the queue is dead, or it loses one of its entries. *)
Lemma pop_inv st id l j : queue_inv st -> rt_queue st = id :: l -> j <> id -> rt_field st j 5 <> 0 ->
  0 <= rt_field st j 6 /\ occ j l = rt_field st j 6 + 1.
Proof.
  intros H Hq Hne Hl. specialize (H j Hl). rewrite Hq in H. cbn [occ] in H.
  destruct (Z.eqb_spec id j); [congruence|]. exact H.
Qed.

Lemma reap_inv {E : Env} st now : queue_inv st -> queue_inv (reap_spec st now).
Proof.
  intros H. unfold reap_spec. destruct (rt_queue st) as [|id l] eqn:Hq; [exact H|].
  pose proof (pop_inv st id l) as Hpop. pose proof (H id) as Hid. rewrite Hq in Hid. cbn [occ] in Hid. rewrite Z.eqb_refl in Hid.
  unfold timeoutWindowsLeftOffset, timeoutOffset in *.
  destruct (Z.eqb_spec (rt_field st id 5) 0) as [Hz|Hz].
  - intros j. rt_simp. rewrite Hq. intros Hl. apply Hpop; auto. intros ->. auto.
  - destruct (now <=? _); [exact H|]. specialize (Hid Hz).
    destruct (Z.eqb_spec (rt_field st id 6) 0) as [Hw|Hw].
    + intros j. unfold delete_spec, timeoutWindowsLeftOffset, timeoutOffset. rt_simp.
      destruct (Z.eqb_spec (rt_field st id 5) 0); [contradiction|]. rt_simp.
      destruct (Z.eqb_spec j id) as [->|Hne]; rt_simp; [intros Hl; contradiction|]. rewrite Hq. intros Hl. apply Hpop; auto.
    + intros j. unfold timeoutWindowsLeftOffset, timeoutOffset. rt_simp. rewrite Hq. cbn [tail].
      destruct (Z.eqb_spec j id) as [->|Hne]; rt_simp; [intros _; lia|]. intros Hl. apply Hpop; auto.
Qed.

(** Past the end of all lifetimes, every call takes one entry off the queue. *)
Lemma reap_expired {E : Env} st now : queue_inv st -> all_expired st now -> now < 2 ^ 64 ->
  rt_queue (reap_spec st now) = tail (rt_queue st) /\ all_expired (reap_spec st now) now.
Proof.
  intros H Hx Hn. unfold reap_spec. destruct (rt_queue st) as [|id l] eqn:Hq; [auto|].
  unfold all_expired, queue_inv, timeoutWindowsLeftOffset, timeoutOffset in *.
  destruct (Z.eqb_spec (rt_field st id 5) 0) as [Hz|Hz]; [rt_simp; rewrite Hq; auto|].
  specialize (H id Hz) as Hw. specialize (Hx id Hz) as Hx'. assert (0 < RetryableLifetimeSeconds) as Hp by reflexivity.
  destruct (Z.leb_spec now (rt_field st id 5)); [nia|].
  destruct (Z.eqb_spec (rt_field st id 6) 0) as [Hw0|Hw0].
  - unfold delete_spec, timeoutOffset. rt_simp. destruct (Z.eqb_spec (rt_field st id 5) 0); [contradiction|]. rt_simp.
    rewrite Hq. split; [reflexivity|]. intros j. destruct (Z.eqb_spec j id) as [->|Hne]; rt_simp; [intros Hl; contradiction|apply Hx].
  - rt_simp. rewrite Hq. split; [reflexivity|]. intros j.
    destruct (Z.eqb_spec j id) as [->|Hne]; rt_simp; [|apply Hx].
    rewrite uwrap_id by (unfold in_u; nia). nia.
Qed.

(** ** Sequences of operations *)
Inductive rt_op :=
| OCreate (id timeout from : Z) (to : option Z) (callvalue beneficiary : Z) (calldata : list Z)
| OKeepalive (id now limit timeToAdd : Z)
| OReap (now : Z)
| ODelete (id : Z)
| ORedeem (id now : Z).

Definition rt_step {E : Env} (rs : RetryableState) (evm : EVM) (sc : TracingScenario) (op : rt_op) : M unit :=
  match op with
  | OCreate id timeout from to callvalue beneficiary calldata =>
      let* _ := CreateRetryable rs id timeout from to callvalue beneficiary calldata in ret tt
  | OKeepalive id now limit add => let* _ := attempt (Keepalive rs id now limit add) in ret tt
  | OReap now => TryToReapOneRetryable rs now evm sc
  | ODelete id => let* _ := DeleteRetryable rs id evm sc in ret tt
  | ORedeem id now =>
      let* r := OpenRetryable rs id now in
      match r with
      | None => ret tt
      | Some r => let* _ := IncrementNumTries r in ret tt
      end
  end.

Fixpoint rt_steps {E : Env} (rs : RetryableState) (evm : EVM) (sc : TracingScenario) (ops : list rt_op) : M unit :=
  match ops with
  | [] => ret tt
  | op :: ops => rt_step rs evm sc op ;;; rt_steps rs evm sc ops
  end.

Definition rt_spec {E : Env} (op : rt_op) (st : rt_state) : rt_state :=
  match op with
  | OCreate id timeout from to callvalue beneficiary calldata =>
      create_spec st id timeout from to callvalue beneficiary calldata
  | OKeepalive id now limit _ => (keepalive_spec st id now limit).2
  | OReap now => reap_spec st now
  | ODelete id => delete_spec st id
  | ORedeem id now =>
      if rt_open st id now then set_field st id numTriesOffset (rt_field st id numTriesOffset + 1) else st
  end.

(** The caller's side: new tickets have fresh ids and a timeout, the numbers are
    in the range of their types, and a ticket is not redeemed [2 ^ 64] times. *)
Definition rt_valid (U : list Z) (op : rt_op) (st : rt_state) : Prop :=
  match op with
  | OCreate id timeout from to callvalue beneficiary calldata =>
      (id ∈ U) /\ (id ∉ rt_queue st) /\ rt_field st id timeoutOffset = 0 /\ 0 < timeout < 2 ^ 64 /\ in_u 160 from /\
      (forall a, to = Some a -> in_u 160 a) /\ in_u 256 callvalue /\ in_u 160 beneficiary /\
      Forall is_byte calldata /\ in_u 64 (Z.of_nat (length calldata))
  | OKeepalive id _ _ _ | ODelete id => id ∈ U
  | OReap now => True
  | ORedeem id now => id ∈ U /\ rt_field st id numTriesOffset < 2 ^ 64 - 1
  end.

Fixpoint rt_valids {E : Env} (U : list Z) (ops : list rt_op) (st : rt_state) : Prop :=
  match ops with
  | [] => True
  | op :: ops => rt_valid U op st /\ rt_valids U ops (rt_spec op st)
  end.

Definition rt_specs {E : Env} (ops : list rt_op) (st : rt_state) : rt_state := fold_left (fun st op => rt_spec op st) ops st.

Lemma rt_spec_inv {E : Env} U op st : queue_inv st -> rt_valid U op st -> queue_inv (rt_spec op st).
Proof.
  intros H Hv. destruct op; cbn [rt_spec rt_valid] in *.
  - apply create_inv; tauto.
  - apply keepalive_inv, H.
  - apply reap_inv, H.
  - apply delete_inv, H.
  - destruct (rt_open st id now); [|exact H]. intros j. specialize (H j).
    unfold timeoutWindowsLeftOffset, timeoutOffset in *. rt_simp. rewrite !andb_false_r. exact H.
Qed.

(** An operation adds at most one entry to the queue. *)
Lemma rt_spec_put {E : Env} op st : rt_put (rt_spec op st) <= rt_put st + 1.
Proof.
  destruct op; cbn [rt_spec]; unfold keepalive_spec, reap_spec, delete_spec.
  - rt_simp. lia.
  - destruct (negb _); [cbn; lia|]. destruct (_ <? _); cbn; lia.
  - destruct (rt_queue st); [lia|]. repeat (destruct (_ =? _) || destruct (_ <=? _)); rt_simp; lia.
  - destruct (_ =? _); rt_simp; lia.
  - destruct (rt_open _ _ _); rt_simp; lia.
Qed.

(** An offset of a ticket. *)
Ltac rtk := split; [vm_compute; discriminate|reflexivity].

Section Facts.
Context {E : Env} {EL : EnvLaws E} (s : Storage) (U : list Z).

Notation q := (OpenCachedSubStorage s [0]).
Notation rs := (OpenRetryableState s).
Definition ret_space (id : Z) : Storage := OpenSubStorage s (Hash_Bytes id).
Definition data_space (id : Z) : Storage := OpenSubStorage (ret_space id) [1].
Definition rt_spaces : list Storage := q :: map ret_space U ++ map data_space U.

Hypothesis NC : spaces_ok rt_spaces.

Lemma ret_lookup id i : U !! i = Some id -> rt_spaces !! (1 + i)%nat = Some (ret_space id).
Proof.
  intros H. change (rt_spaces !! (1 + i)%nat) with ((map ret_space U ++ map data_space U) !! i).
  apply lookup_app_l_Some. change (map ret_space U) with (ret_space <$> U). rewrite list_lookup_fmap, H. reflexivity.
Qed.

Lemma data_lookup id i : U !! i = Some id -> rt_spaces !! (1 + length U + i)%nat = Some (data_space id).
Proof.
  intros H. change (rt_spaces !! (1 + length U + i)%nat) with ((map ret_space U ++ map data_space U) !! (length U + i)%nat).
  rewrite lookup_app_r by (rewrite length_map; lia). rewrite length_map.
  replace (length U + i - length U)%nat with i by lia.
  change (map data_space U) with (data_space <$> U). rewrite list_lookup_fmap, H. reflexivity.
Qed.

(** The slots of a ticket. *)
Definition tick_slots (id : Z) (x : StorageSlot) : Prop :=
  uint_slots (ret_space id) x \/ uint_slots (data_space id) x.

Lemma tick_disjoint id id' x : id ∈ U -> id' ∈ U -> id <> id' -> tick_slots id x -> ~ tick_slots id' x.
Proof.
  intros Hi Hj Hne Hx Hx'. apply list_elem_of_lookup in Hi as [i Hi], Hj as [j Hj].
  assert (i <> j) as Hij by congruence.
  pose proof (lookup_lt_Some _ _ _ Hi). pose proof (lookup_lt_Some _ _ _ Hj).
  pose proof (ret_lookup _ _ Hi) as Ri. pose proof (ret_lookup _ _ Hj) as Rj.
  pose proof (data_lookup _ _ Hi) as Di. pose proof (data_lookup _ _ Hj) as Dj.
  destruct Hx as [Hx|Hx], Hx' as [Hx'|Hx']; revert Hx'.
  - exact (uint_slots_disjoint _ _ _ _ _ x NC Ri Rj ltac:(lia) Hx).
  - exact (uint_slots_disjoint _ _ _ _ _ x NC Ri Dj ltac:(lia) Hx).
  - exact (uint_slots_disjoint _ _ _ _ _ x NC Di Rj ltac:(lia) Hx).
  - exact (uint_slots_disjoint _ _ _ _ _ x NC Di Dj ltac:(lia) Hx).
Qed.

Lemma queue_disjoint id x : id ∈ U -> uint_slots q x -> ~ tick_slots id x.
Proof.
  intros Hi Hx Hx'. apply list_elem_of_lookup in Hi as [i Hi].
  destruct Hx' as [Hx'|Hx']; revert Hx'.
  - exact (uint_slots_disjoint rt_spaces 0 (1 + i) _ _ x NC eq_refl (ret_lookup _ _ Hi) ltac:(lia) Hx).
  - exact (uint_slots_disjoint rt_spaces 0 (1 + length U + i) _ _ x NC eq_refl (data_lookup _ _ Hi) ltac:(lia) Hx).
Qed.

Lemma ret_data_disjoint id x : id ∈ U -> uint_slots (data_space id) x -> ~ uint_slots (ret_space id) x.
Proof.
  intros Hi Hx. apply list_elem_of_lookup in Hi as [i Hi]. pose proof (lookup_lt_Some _ _ _ Hi).
  exact (uint_slots_disjoint rt_spaces (1 + length U + i) (1 + i) _ _ x NC (data_lookup _ _ Hi) (ret_lookup _ _ Hi) ltac:(lia) Hx).
Qed.

Lemma ret_uint_keys id : id ∈ U -> collision_free (pages (uint_keys (sto_storageKey (ret_space id)))).
Proof.
  intros Hi. apply list_elem_of_lookup in Hi as [i Hi]. apply (spaces_uint_keys rt_spaces _ NC).
  eapply list_elem_of_lookup_2, ret_lookup, Hi.
Qed.

Lemma data_uint_keys id : id ∈ U -> collision_free (pages (uint_keys (sto_storageKey (data_space id)))).
Proof.
  intros Hi. apply list_elem_of_lookup in Hi as [i Hi]. apply (spaces_uint_keys rt_spaces _ NC).
  eapply list_elem_of_lookup_2, data_lookup, Hi.
Qed.

Lemma queue_uint_keys : collision_free (pages (uint_keys (sto_storageKey q))).
Proof. apply (spaces_uint_keys rt_spaces _ NC). left. Qed.

Record tick_at (id : Z) (f : Z -> Z) (b : list Z) (d : DB) : Prop := {
  ta_field k : 0 <= k < 7 -> slot_get d (skey (ret_space id) k) = f k /\ field_ok k (f k);
  ta_data : bytes_at (data_space id) d b;
  ta_bytes : Forall is_byte b;
  ta_len : in_u 64 (Z.of_nat (length b))
}.

(** The slots of the tickets and of the queue. *)
Definition rt_slots (x : StorageSlot) : Prop := uint_slots q x \/ exists id, id ∈ U /\ tick_slots id x.

Record rt_at (st : rt_state) (d : DB) : Prop := {
  ra_tick id : id ∈ U -> tick_at id (rt_field st id) (rt_data st id) d;
  ra_queue : queue_at q d (rt_put st - Z.of_nat (length (rt_queue st))) (rt_queue st);
  ra_known id : id ∈ rt_queue st -> id ∈ U;
  ra_bal a : GetBalance d a = rt_bal st a;
  ra_pos a : 0 <= rt_bal st a;
  ra_other x : ~ rt_slots x -> slot_get d x = rt_other st x;
  ra_logs : GetCurrentTxLogs d = rt_logs st
}.

(** ** What does not touch the slots of a ticket or of the queue preserves it *)

Lemma bytes_at_agree sp b d d' : in_u 64 (Z.of_nat (length b)) ->
  (forall x, uint_slots sp x -> slot_get d' x = slot_get d x) -> bytes_at sp d b -> bytes_at sp d' b.
Proof.
  intros Hl Hf [H0 HC]. split.
  - rewrite Hf by (exists 0; split; [uint|reflexivity]). exact H0.
  - eapply chunks_at_ext; [|exact HC]. intros k Hk. apply Hf. exists k. split; [|reflexivity].
    pose proof (Nat.Div0.mul_div_le (length b) 32). uint.
Qed.

Lemma tick_at_agree id f b d d' : (forall x, tick_slots id x -> slot_get d' x = slot_get d x) ->
  tick_at id f b d -> tick_at id f b d'.
Proof.
  intros Hf [H1 H2 H3 H4]. split; auto.
  - intros k Hk. rewrite Hf by (left; exists k; split; [uint|reflexivity]). apply H1, Hk.
  - eapply bytes_at_agree; [exact H4| |exact H2]. intros x Hx. apply Hf. right. exact Hx.
Qed.

Lemma queue_at_agree d d' get l : (forall x, uint_slots q x -> slot_get d' x = slot_get d x) ->
  queue_at q d get l -> queue_at q d' get l.
Proof.
  intros Hf [H1 H2 H3 H4 H5]. split; auto.
  - rewrite Hf by (exists 0; split; [uint|reflexivity]). exact H1.
  - rewrite Hf by (exists 1; split; [uint|reflexivity]). exact H2.
  - intros i v Hi. pose proof (lookup_lt_Some _ _ _ Hi).
    rewrite Hf by (exists (get + Z.of_nat i); split; [uint|reflexivity]). auto.
Qed.

(** ** Reads and writes *)

Lemma ret_slot k id : 0 <= k < 7 -> NewSlot (ret_space id) k = skey (ret_space id) k.
Proof. intros. apply NewSlot_skey. uint. Qed.

Lemma field_get_u64 st id k : id ∈ U -> 0 <= k < 7 -> k = 0 \/ 5 <= k ->
  refines rt_at (StorageBackedUint64_Get (NewSlot (ret_space id) k)) st (Ok (rt_field st id k)) st.
Proof.
  intros Hi Hk Hk' d Hd. exists 800, d. split; [|exact Hd]. rewrite ret_slot by exact Hk.
  destruct (ta_field _ _ _ _ (ra_tick _ _ Hd id Hi) k Hk) as [Hf Hr]. rewrite <- Hf. apply StorageBackedUint64_Get_runs.
  rewrite Hf. unfold field_ok in Hr. destruct (Z.eqb_spec k 1), (Z.eqb_spec k 4), (Z.eqb_spec k 2), (Z.eqb_spec k 3);
    cbn [orb] in Hr; (exact Hr || lia).
Qed.

Lemma field_get_raw st id k : id ∈ U -> 0 <= k < 7 ->
  refines rt_at (Storage_GetByUint64 (ret_space id) k) st (Ok (rt_field st id k)) st.
Proof.
  intros Hi Hk d Hd. exists 800, d. split; [|exact Hd].
  destruct (ta_field _ _ _ _ (ra_tick _ _ Hd id Hi) k Hk) as [<- _]. apply Storage_GetByUint64_runs. uint.
Qed.

Lemma field_get_address st id k : id ∈ U -> k = 1 \/ k = 4 ->
  refines rt_at (StorageBackedAddress_Get (NewSlot (ret_space id) k)) st (Ok (rt_field st id k)) st.
Proof.
  intros Hi Hk d Hd. exists 800, d. split; [|exact Hd]. rewrite ret_slot by lia.
  destruct (ta_field _ _ _ _ (ra_tick _ _ Hd id Hi) k ltac:(lia)) as [Hf Hr]. rewrite <- Hf.
  apply StorageBackedAddress_Get_runs. rewrite Hf. destruct Hk; subst k; exact Hr.
Qed.

Lemma field_get_to st id : id ∈ U ->
  refines rt_at (StorageBackedAddressOrNil_Get (NewSlot (ret_space id) toOffset)) st (Ok (word_to (rt_field st id 2))) st.
Proof.
  intros Hi d Hd. exists 800, d. split; [|exact Hd]. rewrite ret_slot by rtk.
  destruct (ta_field _ _ _ _ (ra_tick _ _ Hd id Hi) 2 ltac:(lia)) as [Hf Hr]. cbn in Hr.
  apply StorageBackedAddressOrNil_Get_runs; unfold toOffset, word_to in *; [rewrite Hf|].
  - destruct (Z.eqb_spec (rt_field st id 2) (2 ^ 255)); auto.
  - intros a. destruct (Z.eqb_spec (rt_field st id 2) (2 ^ 255)); [discriminate|]. intros [= <-].
    destruct Hr; [assumption|contradiction].
Qed.

Lemma field_get_value st id : id ∈ U ->
  refines rt_at (StorageBackedBigUint_Get (NewSlot (ret_space id) callvalueOffset)) st (Ok (rt_field st id 3)) st.
Proof.
  intros Hi d Hd. exists 800, d. split; [|exact Hd]. rewrite ret_slot by rtk.
  destruct (ta_field _ _ _ _ (ra_tick _ _ Hd id Hi) 3 ltac:(lia)) as [<- _]. apply StorageSlot_Get_runs.
Qed.

Lemma data_get st id : id ∈ U -> refines rt_at (GetBytes (data_space id)) st (Ok (rt_data st id)) st.
Proof.
  intros Hi d Hd. eexists _, d. split; [|exact Hd]. destruct (ra_tick _ _ Hd id Hi) as [_ H1 H2 H3].
  apply GetBytes_runs; auto.
Qed.

Lemma data_size st id : id ∈ U ->
  refines rt_at (GetBytesSize (data_space id)) st (Ok (Z.of_nat (length (rt_data st id)))) st.
Proof.
  intros Hi d Hd. eexists _, d. split; [|exact Hd]. destruct (ra_tick _ _ Hd id Hi) as [_ H1 H2 H3].
  apply GetBytesSize_runs; auto.
Qed.

(** A change confined to the slots of one ticket. *)
Lemma tick_change st d d' id f b : rt_at st d -> id ∈ U -> frame (tick_slots id) d d' -> tick_at id f b d' ->
  rt_at (mkRtState (fun i => if i =? id then f else rt_field st i) (fun i => if i =? id then b else rt_data st i)
           (rt_queue st) (rt_put st) (rt_bal st) (rt_other st) (rt_logs st)) d'.
Proof.
  intros [Ht Hq Hk Hb Hp Ho Hl] Hi [F [FB FL]] Ht'. split; cbn [rt_field rt_data rt_queue rt_put rt_bal rt_other rt_logs]; auto.
  - intros j Hj. destruct (Z.eqb_spec j id) as [->|Hne]; [exact Ht'|].
    eapply tick_at_agree; [|apply Ht, Hj]. intros x Hx. apply F. exact (tick_disjoint j id x Hj Hi Hne Hx).
  - eapply queue_at_agree; [|exact Hq]. intros x Hx. apply F. exact (queue_disjoint id x Hi Hx).
  - intros a. rewrite FB. apply Hb.
  - intros x Hx. rewrite F; [apply Ho, Hx|]. intros Hx'. apply Hx. right. eauto.
  - congruence.
Qed.

Lemma rt_at_ext st st' d : (forall i k, rt_field st' i k = rt_field st i k) -> (forall i, rt_data st' i = rt_data st i) ->
  rt_queue st' = rt_queue st -> rt_put st' = rt_put st -> (forall a, rt_bal st' a = rt_bal st a) ->
  (forall x, rt_other st' x = rt_other st x) -> rt_logs st' = rt_logs st -> rt_at st d -> rt_at st' d.
Proof.
  intros E1 E2 E3 E4 E5 E6 E7 [Ht Hq Hk Hb Hp Ho Hl]. split; rewrite ?E3, ?E4; auto.
  - intros id Hi. destruct (Ht id Hi) as [H1 H2 H3 H4]. rewrite E2. split; auto. intros k Hk'. rewrite E1. auto.
  - intros a. rewrite E5. auto.
  - intros a. rewrite E5. auto.
  - intros x. rewrite E6. auto.
  - congruence.
Qed.

Lemma field_write {A} (m : M A) st id k v r : id ∈ U -> 0 <= k < 7 -> field_ok k v ->
  (forall d, runs 20000 m d r (slot_set d (skey (ret_space id) k) v)) ->
  refines rt_at m st r (set_field st id k v).
Proof.
  intros Hi Hk Hv R d Hd. exists 20000, (slot_set d (skey (ret_space id) k) v). split; [apply R|].
  destruct (ra_tick _ _ Hd id Hi) as [H1 H2 H3 H4]. set (f := fun j => if j =? k then v else rt_field st id j).
  assert (tick_at id f (rt_data st id) (slot_set d (skey (ret_space id) k) v)) as Ht.
  { split; auto.
    - intros j Hj. unfold f. destruct (Z.eqb_spec j k) as [->|Hne]; [rewrite slot_get_set_eq; auto|].
      rewrite slot_get_set_ne; [apply H1, Hj|]. apply skey_uint_ne; [apply ret_uint_keys, Hi|uint|uint|auto].
    - eapply bytes_at_agree; [exact H4| |exact H2]. intros x Hx. apply slot_get_set_ne. intros <-.
      apply (ret_data_disjoint id _ Hi Hx). exists k. split; [uint|reflexivity]. }
  eapply rt_at_ext; [..|eapply (tick_change _ _ _ id _ _ Hd Hi _ Ht)]; cbn; auto.
  - intros i j. destruct (Z.eqb_spec i id) as [->|]; cbn [andb]; auto.
  - intros i. destruct (Z.eqb_spec i id) as [->|]; auto.
  Unshelve. apply frame_set. left. exists k. split; [uint|reflexivity].
Qed.

Lemma data_change st d d' id b : rt_at st d -> id ∈ U -> frame (uint_slots (data_space id)) d d' ->
  bytes_at (data_space id) d' b -> Forall is_byte b -> in_u 64 (Z.of_nat (length b)) -> rt_at (set_data st id b) d'.
Proof.
  intros Hd Hi F Hb Hby Hl. destruct (ra_tick _ _ Hd id Hi) as [H1 H2 H3 H4].
  assert (tick_at id (rt_field st id) b d') as Ht.
  { split; auto. intros k Hk. destruct F as [F _]. rewrite F; [apply H1, Hk|].
    intros Hx. apply (ret_data_disjoint id _ Hi Hx). exists k. split; [uint|reflexivity]. }
  eapply rt_at_ext; [..|eapply (tick_change _ _ _ id _ _ Hd Hi _ Ht)]; cbn; auto.
  - intros i j. destruct (Z.eqb_spec i id) as [->|]; auto.
  Unshelve. eapply frame_weaken; [|exact F]. intros x Hx. right. exact Hx.
Qed.

Lemma data_set st id b : id ∈ U -> Forall is_byte b -> in_u 64 (Z.of_nat (length b)) ->
  refines rt_at (SetBytes (data_space id) b) st (Ok tt) (set_data st id b).
Proof.
  intros Hi Hb Hl d Hd. destruct (ra_tick _ _ Hd id Hi) as [_ [H0 _] _ H4].
  destruct (SetBytes_runs (data_space id) (data_uint_keys id Hi) d b _ H0 H4 Hl) as (d' & R & Hb' & F).
  eexists _, d'. split; [exact R|]. eapply data_change; eauto.
  eapply frame_keys_between; [| |exact F]; [lia|].
  assert (forall n, 0 <= n < 2 ^ 64 -> n / 32 + 1 < 2 ^ 64) as Hlt.
  { intros n Hn. assert (n / 32 < 2 ^ 59) by (apply Z.div_lt_upper_bound; lia). lia. }
  apply Hlt. uint.
Qed.

Lemma data_clear st id : id ∈ U -> refines rt_at (ClearBytes (data_space id)) st (Ok tt) (set_data st id []).
Proof.
  intros Hi d Hd. destruct (ra_tick _ _ Hd id Hi) as [_ [H0 HC] _ H4].
  destruct (ClearBytes_runs (data_space id) (data_uint_keys id Hi) d _ H0 H4) as (d' & R & Z0 & Zk & F).
  eexists _, d'. split; [exact R|]. apply (data_change st d d' id []); [exact Hd|exact Hi| |split|constructor|cbn; uint].
  - eapply frame_weaken; [|exact F]. intros x [->|(k & Hk1 & Hk2 & ->)]; [exists 0|exists k]; (split; [uint|reflexivity]).
  - exact Z0.
  - change (slot_get d' (skey (data_space id) 1) = BytesToHash []).
    destruct (rt_data st id) as [|x b]; [|apply Zk; [lia|cbn [length]; lia]].
    destruct F as [F _]. rewrite F; [exact HC|]. intros [He|(k & Hk1 & Hk2 & He)]; [|cbn [length] in Hk2; lia].
    revert He. apply skey_uint_ne; [apply data_uint_keys, Hi|uint|uint|lia].
Qed.

Lemma queue_change st d d' l p : rt_at st d -> frame (uint_slots q) d d' ->
  queue_at q d' (p - Z.of_nat (length l)) l -> (forall id, id ∈ l -> id ∈ U) ->
  rt_at (mkRtState (rt_field st) (rt_data st) l p (rt_bal st) (rt_other st) (rt_logs st)) d'.
Proof.
  intros [Ht Hq Hk Hb Hp Ho Hl] [F [FB FL]] Hq' Hk'. split; cbn [rt_field rt_data rt_queue rt_put rt_bal rt_other rt_logs]; auto.
  - intros id Hi. eapply tick_at_agree; [|apply Ht, Hi]. intros x Hx. apply F. intros Hx'.
    exact (queue_disjoint id x Hi Hx' Hx).
  - intros a. rewrite FB. apply Hb.
  - intros x Hx. rewrite F; [apply Ho, Hx|]. intros Hx'. apply Hx. left. exact Hx'.
  - congruence.
Qed.

Lemma queue_peek st : refines rt_at (Queue_Peek (OpenQueue q)) st (Ok (head (rt_queue st))) st.
Proof. intros d Hd. exists 3200, d. split; [|exact Hd]. eapply Queue_Peek_runs, (ra_queue _ _ Hd). Qed.

Lemma queue_get st : refines rt_at (Queue_Get (OpenQueue q)) st (Ok (head (rt_queue st))) (pop_queue st).
Proof.
  intros d Hd. destruct (Queue_Get_runs q queue_uint_keys d _ _ (ra_queue _ _ Hd)) as (d' & get' & R & Q & Hg & F).
  exists 43200, d'. split; [exact R|]. apply (queue_change st d d'); [exact Hd|exact F| |].
  - replace (rt_put st - Z.of_nat (length (tail (rt_queue st)))) with get' by lia. exact Q.
  - intros id Hi. apply (ra_known _ _ Hd). destruct (rt_queue st); [exact Hi|right; exact Hi].
Qed.

Lemma queue_put st id : id ∈ U -> rt_put st < 2 ^ 64 - 1 ->
  refines rt_at (Queue_Put (OpenQueue q) id) st (Ok tt) (put_queue st id).
Proof.
  intros Hi Hp d Hd.
  destruct (Queue_Put_runs q queue_uint_keys d _ _ id (ra_queue _ _ Hd) ltac:(lia)) as (d' & R & Q & F).
  exists 40800, d'. split; [exact R|]. apply (queue_change st d d'); [exact Hd|exact F| |].
  - rewrite length_app. cbn [length]. replace (rt_put st + 1 - _) with (rt_put st - Z.of_nat (length (rt_queue st))) by lia. exact Q.
  - intros j. rewrite elem_of_app, list_elem_of_singleton. intros [Hj| ->]; [apply (ra_known _ _ Hd), Hj|exact Hi].
Qed.

Lemma rt_transfer st from to amount evm sc purpose : 0 <= amount <= rt_bal st from -> scenario_ok evm sc ->
  refines rt_at (TransferBalance (Some from) (Some to) amount evm sc purpose) st (Ok tt) (move_balance st from to amount).
Proof.
  intros Ha Hs d [Ht Hq Hk Hb Hp Ho Hl]. exists 0, (transfer_db d from to amount).
  split; [apply TransferBalance_runs; [rewrite Hb; exact Ha|exact Hs]|].
  split; cbn [move_balance rt_field rt_data rt_queue rt_put rt_bal rt_other rt_logs]; auto.
  - intros id Hi. eapply tick_at_agree; [|apply Ht, Hi]. intros x _. apply slot_get_transfer.
  - eapply queue_at_agree; [|exact Hq]. intros x _. apply slot_get_transfer.
  - intros a. rewrite GetBalance_transfer, Hb. reflexivity.
  - intros a. pose proof (Hp a). repeat case_decide; subst; lia.
  - intros x Hx. rewrite slot_get_transfer. apply Ho, Hx.
  - unfold transfer_db. now rewrite logs_AddBalance, logs_SubBalance.
Qed.

Lemma rt_balance st a : refines rt_at (db_read (fun d => GetBalance d a)) st (Ok (rt_bal st a)) st.
Proof.
  intros d Hd. exists 0, d. split; [|exact Hd]. rewrite <- (ra_bal _ _ Hd a). apply (runs_db_read (fun d => GetBalance d a)).
Qed.

(** ** The operations of the code refine them *)

Lemma field_set_u64 st id k v : id ∈ U -> k = 0 \/ k = 5 \/ k = 6 -> in_u 64 v ->
  refines rt_at (StorageBackedUint64_Set (NewSlot (ret_space id) k) v) st (Ok tt) (set_field st id k v).
Proof.
  intros Hi Hk Hv. apply field_write; [exact Hi|lia|destruct Hk as [->|[->| ->]]; exact Hv|]. intros d.
  rewrite ret_slot by lia. apply StorageBackedUint64_Set_runs, Hv.
Qed.

Lemma field_set_address st id k v : id ∈ U -> k = 1 \/ k = 4 -> in_u 160 v ->
  refines rt_at (StorageBackedAddress_Set (NewSlot (ret_space id) k) v) st (Ok tt) (set_field st id k v).
Proof.
  intros Hi Hk Hv. apply field_write; [exact Hi|lia|destruct Hk as [->| ->]; exact Hv|]. intros d.
  rewrite ret_slot by lia. apply StorageBackedAddress_Set_runs, Hv.
Qed.

Lemma field_clear st id k : id ∈ U -> 0 <= k < 7 ->
  refines rt_at (ignore (Storage_ClearByUint64 (ret_space id) k)) st (Ok tt) (set_field st id k 0).
Proof.
  intros Hi Hk. eapply refines_ignore. apply (field_write _ _ _ _ _ (Ok tt)); [exact Hi|exact Hk| |].
  - unfold field_ok. repeat (destruct (_ =? _); cbn [orb]); try (unfold in_u; lia).
  - intros d. apply Storage_ClearByUint64_runs. uint.
Qed.

Lemma CreateRetryable_ref st id timeout from to value ben data : id ∈ U -> in_u 64 timeout -> in_u 160 from ->
  (forall a, to = Some a -> in_u 160 a) -> in_u 256 value -> in_u 160 ben ->
  Forall is_byte data -> in_u 64 (Z.of_nat (length data)) -> rt_put st < 2 ^ 64 - 1 ->
  refines rt_at (CreateRetryable rs id timeout from to value ben data) st (Ok (newRetryable id (ret_space id)))
    (create_spec st id timeout from to value ben data).
Proof.
  intros Hi Ht Hf Hto Hv Hb Hd Hl Hp. unfold CreateRetryable, create_spec.
  change (OpenSubStorage (rs_retryables rs) (Hash_Bytes id)) with (ret_space id).
  cbn [newRetryable ret_numTries ret_from ret_to ret_callvalue ret_beneficiary ret_calldata ret_timeout ret_timeoutWindowsLeft].
  eapply refines_bind; [eapply refines_ignore, field_set_u64; [exact Hi|auto|uint]|].
  eapply refines_bind; [eapply refines_ignore, field_set_address; [exact Hi|auto|exact Hf]|].
  eapply refines_bind; [eapply refines_ignore, (field_write _ _ id toOffset (to_word to) (Ok tt)); [exact Hi|rtk| |]|].
  { unfold field_ok. cbn. destruct to as [a|]; [left; auto|right; reflexivity]. }
  { intros d. rewrite ret_slot by rtk.
    destruct (StorageBackedAddressOrNil_Set_runs (skey (ret_space id) toOffset) to d Hto) as (u & R & Hu).
    unfold to_word. rewrite <- Hu. exact R. }
  eapply refines_bind; [eapply refines_ignore, (field_write _ _ id callvalueOffset value (Ok tt)); [exact Hi|rtk|exact Hv|]|].
  { intros d. rewrite ret_slot by rtk. apply StorageBackedBigUint_SetChecked_runs, Hv. }
  eapply refines_bind; [eapply refines_ignore, field_set_address; [exact Hi|auto|exact Hb]|].
  eapply refines_bind; [eapply refines_ignore, data_set; [exact Hi|exact Hd|exact Hl]|].
  eapply refines_bind; [eapply refines_ignore, field_set_u64; [exact Hi|auto|exact Ht]|].
  eapply refines_bind; [eapply refines_ignore, field_set_u64; [exact Hi|auto|uint]|].
  eapply refines_bind; [apply queue_put; [exact Hi|exact Hp]|]. apply refines_ret.
Qed.

Lemma OpenRetryable_ref st id now : id ∈ U ->
  refines rt_at (OpenRetryable rs id now) st
    (Ok (if rt_open st id now then Some (newRetryable id (ret_space id)) else None)) st.
Proof.
  intros Hi. unfold OpenRetryable, rt_open. change (OpenSubStorage (rs_retryables rs) (Hash_Bytes id)) with (ret_space id).
  eapply refines_bind; [apply field_get_u64; [exact Hi|rtk|right; vm_compute; discriminate]|]. cbv beta.
  destruct (_ || _); apply refines_ret.
Qed.

Lemma CalculateTimeout_ref st id : id ∈ U ->
  refines rt_at (CalculateTimeout (newRetryable id (ret_space id))) st (Ok (rt_total st id)) st.
Proof.
  intros Hi. unfold CalculateTimeout, rt_total. cbn [newRetryable ret_timeout ret_timeoutWindowsLeft].
  eapply refines_bind; [apply field_get_u64; [exact Hi|rtk|right; vm_compute; discriminate]|].
  eapply refines_bind; [apply field_get_u64; [exact Hi|rtk|right; vm_compute; discriminate]|]. apply refines_ret.
Qed.

Lemma erase_ref st id : id ∈ U ->
  refines rt_at
    (ignore (Storage_ClearByUint64 (ret_space id) numTriesOffset) ;;;
     ignore (Storage_ClearByUint64 (ret_space id) fromOffset) ;;;
     ignore (Storage_ClearByUint64 (ret_space id) toOffset) ;;;
     ignore (Storage_ClearByUint64 (ret_space id) callvalueOffset) ;;;
     ignore (Storage_ClearByUint64 (ret_space id) beneficiaryOffset) ;;;
     ignore (Storage_ClearByUint64 (ret_space id) timeoutOffset) ;;;
     ignore (Storage_ClearByUint64 (ret_space id) timeoutWindowsLeftOffset) ;;;
     ClearBytes (data_space id) ;;;
     ret true) st (Ok true) (rt_erase st id).
Proof.
  intros Hi. unfold rt_erase. do 7 (eapply refines_bind; [apply field_clear; [exact Hi|rtk]|]).
  eapply refines_bind; [apply data_clear, Hi|]. apply refines_ret.
Qed.

Lemma DeleteRetryable_ref st id evm sc : id ∈ U -> scenario_ok evm sc ->
  refines rt_at (DeleteRetryable rs id evm sc) st (Ok (negb (rt_field st id timeoutOffset =? 0))) (delete_spec st id).
Proof.
  intros Hi Hs d Hd. pose proof (ra_pos _ _ Hd) as Hpos.
  destruct (ta_field _ _ _ _ (ra_tick _ _ Hd id Hi) beneficiaryOffset ltac:(rtk)) as [_ Hben].
  revert d Hd. change (refines rt_at (DeleteRetryable rs id evm sc) st
    (Ok (negb (rt_field st id timeoutOffset =? 0))) (delete_spec st id)).
  unfold DeleteRetryable, delete_spec. change (OpenSubStorage (rs_retryables rs) (Hash_Bytes id)) with (ret_space id).
  eapply refines_bind; [apply field_get_raw; [exact Hi|rtk]|]. cbv beta.
  destruct (rt_field st id timeoutOffset =? 0); cbn [negb]; [apply refines_ret|].
  eapply refines_bind; [apply refines_value_or, field_get_raw; [exact Hi|rtk]|]. cbv beta zeta.
  rewrite BytesToAddress_bytes by exact Hben.
  eapply refines_bind; [apply rt_balance|]. cbv beta.
  eapply refines_bind; [apply rt_transfer; [split; [apply Hpos|lia]|exact Hs]|].
  apply erase_ref, Hi.
Qed.

Lemma field_increment st id k : id ∈ U -> k = 0 \/ k = 6 -> rt_field st id k < 2 ^ 64 - 1 ->
  refines rt_at (StorageBackedUint64_Increment (NewSlot (ret_space id) k)) st (Ok (rt_field st id k + 1))
    (set_field st id k (rt_field st id k + 1)).
Proof.
  intros Hi Hk Hm d Hd.
  assert (0 <= rt_field st id k) as H0.
  { destruct (ta_field _ _ _ _ (ra_tick _ _ Hd id Hi) k ltac:(lia)) as [_ Hr]. destruct Hk; subst k; apply Hr. }
  revert d Hd. change (refines rt_at (StorageBackedUint64_Increment (NewSlot (ret_space id) k)) st
    (Ok (rt_field st id k + 1)) (set_field st id k (rt_field st id k + 1))).
  unfold StorageBackedUint64_Increment.
  eapply refines_bind; [apply field_get_u64; [exact Hi|lia|lia]|]. cbv beta. rewrite uwrap_id by uint.
  destruct (Z.ltb_spec (rt_field st id k + 1) (rt_field st id k)); [lia|].
  eapply refines_bind; [apply field_set_u64; [exact Hi|lia|uint]|]. apply refines_ret.
Qed.

Lemma Keepalive_ref st id now limit add : id ∈ U -> rt_put st < 2 ^ 64 - 1 ->
  (rt_field st id 5 <> 0 -> rt_field st id 6 < 2 ^ 64 - 1) ->
  refines rt_at (Keepalive rs id now limit add) st (keepalive_spec st id now limit).1 (keepalive_spec st id now limit).2.
Proof.
  intros Hi Hp Hw. unfold Keepalive, keepalive_spec.
  eapply refines_bind; [apply OpenRetryable_ref, Hi|]. cbv beta.
  destruct (rt_open st id now) eqn:Ho; cbn [negb]; [|apply refines_fail]. apply rt_open_live in Ho.
  eapply refines_bind; [apply CalculateTimeout_ref, Hi|]. cbv beta.
  destruct (limit <? rt_total st id); [apply refines_fail|]. cbn [fst snd newRetryable ret_id ret_timeoutWindowsLeft].
  eapply refines_bind; [apply queue_put; [exact Hi|exact Hp]|].
  eapply refines_bind; [apply field_increment; [exact Hi|auto|exact (Hw Ho)]|]. cbv beta zeta.
  eapply refines_bind; [apply refines_burn; vm_compute; discriminate|]. apply refines_ret.
Qed.

Lemma TryToReapOneRetryable_ref st now evm sc : scenario_ok evm sc ->
  refines rt_at (TryToReapOneRetryable rs now evm sc) st (Ok tt) (reap_spec st now).
Proof.
  intros Hs d Hd. pose proof (ra_known _ _ Hd) as Hk.
  assert (forall id, id ∈ rt_queue st -> in_u 64 (rt_field st id 6)) as H6.
  { intros id Hi. exact (proj2 (ta_field _ _ _ _ (ra_tick _ _ Hd id (Hk id Hi)) 6 ltac:(lia))). }
  revert d Hd. change (refines rt_at (TryToReapOneRetryable rs now evm sc) st (Ok tt) (reap_spec st now)).
  unfold TryToReapOneRetryable, reap_spec. eapply refines_bind; [apply queue_peek|]. cbv beta.
  destruct (rt_queue st) as [|id l] eqn:Hq; cbn [head]; [apply refines_ret|].
  assert (id ∈ U) as Hi by (apply Hk; left). specialize (H6 id ltac:(left)).
  change (OpenSubStorage (rs_retryables rs) (Hash_Bytes id)) with (ret_space id). cbv zeta.
  eapply refines_bind; [apply field_get_u64; [exact Hi|rtk|right; vm_compute; discriminate]|]. cbv beta.
  destruct (rt_field st id timeoutOffset =? 0) eqn:Ht.
  { eapply refines_bind; [apply queue_get|]. apply refines_ret. }
  eapply refines_bind; [apply field_get_u64; [exact Hi|rtk|right; vm_compute; discriminate]|]. cbv beta.
  destruct (now <=? rt_field st id timeoutOffset); [apply refines_ret|].
  eapply refines_bind; [apply queue_get|]. destruct (Z.eqb_spec (rt_field st id timeoutWindowsLeftOffset) 0) as [Hz|Hz].
  - eapply refines_bind; [apply DeleteRetryable_ref; [exact Hi|exact Hs]|]. apply refines_ret.
  - unfold timeoutWindowsLeftOffset in *. rewrite (uwrap_id 64 (rt_field st id 6 - 1)) by uint.
    eapply refines_bind; [apply field_set_u64; [exact Hi|auto|apply u64_range]|].
    apply field_set_u64; [exact Hi|auto|uint].
Qed.

Lemma MakeTx_ref st id chainId nonce gasFeeCap gas ticketId refundTo maxRefund fee : id ∈ U ->
  refines rt_at (MakeTx (newRetryable id (ret_space id)) chainId nonce gasFeeCap gas ticketId refundTo maxRefund fee) st
    (Ok (mkArbitrumRetryTx chainId nonce (rt_field st id 1) gasFeeCap gas (word_to (rt_field st id 2))
           (rt_field st id 3) (rt_data st id) ticketId refundTo maxRefund fee)) st.
Proof.
  intros Hi. unfold MakeTx. eapply refines_bind; [apply field_get_address; [exact Hi|auto]|].
  eapply refines_bind; [apply field_get_to, Hi|]. eapply refines_bind; [apply field_get_value, Hi|].
  eapply refines_bind; [apply data_get, Hi|]. apply refines_ret.
Qed.

Lemma rt_step_ref op st d evm sc : rt_at st d -> queue_inv st -> rt_valid U op st -> rt_put st < 2 ^ 64 - 1 ->
  scenario_ok evm sc -> exists G d', runs G (rt_step rs evm sc op) d (Ok tt) d' /\ rt_at (rt_spec op st) d'.
Proof.
  intros Hd Hinv Hv Hp Hs. pose proof (qa_low _ _ _ _ (ra_queue _ _ Hd)) as Hlow.
  assert (forall id, rt_field st id 5 <> 0 -> rt_field st id 6 < 2 ^ 64 - 1) as H6.
  { intros id Hl. destruct (Hinv id Hl) as [_ Ho]. pose proof (occ_bounds id (rt_queue st)).
    unfold timeoutWindowsLeftOffset in Ho. lia. }
  revert d Hd. change (refines rt_at (rt_step rs evm sc op) st (Ok tt) (rt_spec op st)).
  destruct op as [id timeout from to value ben data|id now limit add|now|id|id now]; cbn [rt_step rt_spec rt_valid] in *.
  - destruct Hv as (V1 & _ & _ & V4 & V5 & V6 & V7 & V8 & V9 & V10).
    eapply refines_bind; [apply CreateRetryable_ref; auto; uint|]. apply refines_ret.
  - eapply (refines_bind _ _ _ _ (keepalive_spec st id now limit).1); [|apply refines_ret].
    pose proof (Keepalive_ref st id now limit add Hv Hp (H6 id)) as R. destruct (keepalive_spec st id now limit) as [r st'] eqn:Hk.
    unfold keepalive_spec in Hk. cbn [fst snd] in *.
    destruct r as [a|e|m]; [apply refines_attempt, R|apply refines_attempt_err, R|].
    destruct (negb _); [discriminate|]. destruct (_ <? _); discriminate.
  - apply TryToReapOneRetryable_ref, Hs.
  - eapply refines_bind; [apply DeleteRetryable_ref; auto|]. apply refines_ret.
  - destruct Hv as [Hv Ht]. eapply refines_bind; [apply OpenRetryable_ref, Hv|]. cbv beta.
    destruct (rt_open st id now); [|apply refines_ret].
    eapply refines_bind; [apply field_increment; [exact Hv|auto|exact Ht]|]. apply refines_ret.
Qed.

Lemma rt_steps_ref ops evm sc : scenario_ok evm sc -> forall st d, rt_at st d -> queue_inv st -> rt_valids U ops st ->
  rt_put st + Z.of_nat (length ops) < 2 ^ 64 ->
  exists G d', runs G (rt_steps rs evm sc ops) d (Ok tt) d' /\ rt_at (rt_specs ops st) d' /\ queue_inv (rt_specs ops st).
Proof.
  intros Hs. induction ops as [|op ops IH]; intros st d Hd Hinv Hv Hp.
  - exists 0, d. split; [apply runs_ret|]. auto.
  - destruct Hv as [Hv Hvs]. cbn [length] in Hp. pose proof (rt_spec_put op st).
    destruct (rt_step_ref op st d evm sc Hd Hinv Hv ltac:(lia) Hs) as (G1 & d1 & R1 & H1).
    destruct (IH _ d1 H1 (rt_spec_inv U op st Hinv Hv) Hvs ltac:(lia)) as (G2 & d2 & R2 & H2).
    exists (G1 + G2), d2. split; [|exact H2]. eapply runs_bind; [exact R1|exact R2].
Qed.

Lemma reap_all_ref evm sc now : scenario_ok evm sc -> now < 2 ^ 64 -> forall n st d, rt_at st d -> queue_inv st ->
  all_expired st now -> length (rt_queue st) = n ->
  exists G d' st', runs G (rt_steps rs evm sc (repeat (OReap now) n)) d (Ok tt) d' /\ rt_at st' d' /\ rt_queue st' = [] /\
    forall id, rt_field st' id timeoutOffset = 0.
Proof.
  intros Hs Hnow n. induction n as [|n IH]; intros st d Hd Hinv Hx Hn; cbn [repeat rt_steps].
  - exists 0, d, st. split; [apply runs_ret|]. split; [exact Hd|]. destruct (rt_queue st) eqn:Hq; [|discriminate].
    split; [reflexivity|]. intros id. destruct (Z.eq_dec (rt_field st id timeoutOffset) 0) as [|Hl]; [assumption|].
    destruct (Hinv id Hl) as [H1 H2]. rewrite Hq in H2. cbn in H2. lia.
  - destruct (TryToReapOneRetryable_ref st now evm sc Hs d Hd) as (G1 & d1 & R1 & H1).
    destruct (reap_expired st now Hinv Hx Hnow) as [Hq Hx1].
    destruct (IH _ d1 H1 (reap_inv st now Hinv) Hx1) as (G2 & d2 & st2 & R2 & H2);
      [rewrite Hq; destruct (rt_queue st); [discriminate|]; injection Hn; auto|].
    exists (G1 + G2), d2, st2. split; [|exact H2]. eapply runs_bind; [exact R1|exact R2].
Qed.

Lemma initialize_rt_runs d : (forall id x, id ∈ U -> tick_slots id x -> slot_get d x = 0) ->
  (forall a, 0 <= GetBalance d a) ->
  exists G d', runs G (InitializeRetryableState s) d (Ok tt) d' /\
    rt_at (mkRtState (fun _ _ => 0) (fun _ => []) [] 2 (GetBalance d) (slot_get d) (GetCurrentTxLogs d)) d'.
Proof.
  intros Hz Hb. destruct (InitializeQueue_runs q queue_uint_keys d) as (d' & R & Q & [F [FB FL]]).
  exists 40000, d'. split; [exact R|].
  assert (forall id x, id ∈ U -> tick_slots id x -> slot_get d' x = 0) as Hz'.
  { intros id x Hi Hx. rewrite F; [apply (Hz id x Hi Hx)|]. intros Hx'. exact (queue_disjoint id x Hi Hx' Hx). }
  split; cbn [rt_field rt_data rt_queue rt_put rt_bal length].
  - intros id Hi. split; [| |constructor|cbn; uint].
    + intros k Hk. split; [apply (Hz' id _ Hi); left; exists k; split; [uint|reflexivity]|].
      unfold field_ok. repeat (destruct (_ =? _); cbn [orb]); try (unfold in_u; lia).
    + split; [apply (Hz' id _ Hi); right; exists 0; split; [uint|reflexivity]|].
      change (slot_get d' (skey (data_space id) 1) = BytesToHash []).
      apply (Hz' id _ Hi). right. exists 1. split; [uint|reflexivity].
  - rewrite Z.sub_0_r. exact Q.
  - intros id Hi. inversion Hi.
  - intros a. apply FB.
  - exact Hb.
  - intros x Hx. apply F. intros Hx'. apply Hx. left. exact Hx'.
  - exact FL.
Qed.
End Facts.

(** ** Properties *)

#[local] Existing Instance TestEnv.

(** The example of the witnesses. *)
Definition ex_rs : Storage := mkStorage 1 [7] false.
Definition ex_ids : list Z := [5; 6].
Definition ex_evm : EVM := mkEVM false 0.
Definition ex_empty : rt_state := mkRtState (fun _ _ => 0) (fun _ => []) [] 2 (fun _ => 0) (fun _ => 0) [].

Lemma ex_rs_ok : spaces_ok (rt_spaces ex_rs ex_ids).
Proof. apply test_spaces_ok. apply (bool_decide_eq_true _). vm_compute. reflexivity. Qed.

Lemma ex_empty_at : exists d, rt_at ex_rs ex_ids ex_empty d.
Proof.
  destruct (initialize_rt_runs ex_rs ex_ids ex_rs_ok test_db) as (G & d & _ & H); [intros; reflexivity|intros; apply Z.eq_le_incl; reflexivity|].
  exists d. exact H.
Qed.

Definition ex_ticket : rt_state := create_spec ex_empty 5 100 9 None 7 8 [1; 2].

Lemma ex_ticket_at : exists d, rt_at ex_rs ex_ids ex_ticket d.
Proof.
  destruct ex_empty_at as [d0 Hd0].
  assert (rt_valid ex_ids (OCreate 5 100 9 None 7 8 [1; 2]) ex_empty) as Hv.
  { split; [left|]. split; [apply not_elem_of_nil|]. split; [reflexivity|]. split; [lia|].
    split; [split; [lia|reflexivity]|]. split; [discriminate|]. split; [split; [lia|reflexivity]|].
    split; [split; [lia|reflexivity]|]. split; [|split; [cbn; lia|reflexivity]].
    repeat (apply Forall_cons; [unfold is_byte; lia|]). constructor. }
  destruct (rt_step_ref ex_rs ex_ids ex_rs_ok _ ex_empty d0 ex_evm TracingBeforeEVM Hd0 ltac:(intros id Hn; contradiction) Hv)
    as (G & d & _ & H); [reflexivity|left; reflexivity|]. exists d. exact H.
Qed.

(** C27: a ticket that was created can be opened until its timeout, with the
    fields it was created with: the transaction made from it has the sender,
    destination, value and calldata of the ticket and its timeout is the one
    given; after the timeout it is no longer found. *)
Theorem CreateRetryable_roundtrip {E : Env} {EL : EnvLaws E} (s : Storage) (U : list Z) (st : rt_state) (d : DB)
  (id timeout from value beneficiary now chainId nonce gasFeeCap gas refundTo maxRefund fee : Z) (to : option Z)
  (calldata : list Z) :
  spaces_ok (rt_spaces s U) -> rt_at s U st d -> rt_put st < 2 ^ 64 - 1 ->
  id ∈ U -> 0 < timeout < 2 ^ 64 -> in_u 160 from -> (forall a, to = Some a -> in_u 160 a) ->
  in_u 256 value -> in_u 160 beneficiary -> Forall is_byte calldata -> in_u 64 (Z.of_nat (length calldata)) ->
  let rs := OpenRetryableState s in
  exists G d',
    runs G
      (let* _ := CreateRetryable rs id timeout from to value beneficiary calldata in
       let* opened := OpenRetryable rs id now in
       match opened with
       | None => ret None
       | Some r =>
           let* tx := MakeTx r chainId nonce gasFeeCap gas id refundTo maxRefund fee in
           let* ending := CalculateTimeout r in
           let* tries := NumTries r in
           ret (Some (tx, ending, tries))
       end) d
      (Ok (if now <=? timeout
           then Some (mkArbitrumRetryTx chainId nonce from gasFeeCap gas to value calldata id refundTo maxRefund fee,
                      timeout, 0)
           else None)) d' /\
    rt_at s U (create_spec st id timeout from to value beneficiary calldata) d'.
Proof.
  intros NC Hd Hp Hi Ht Hf Hto Hv Hb Hc Hl rs. revert d Hd.
  set (st1 := create_spec st id timeout from to value beneficiary calldata).
  destruct (create_fields st id timeout from to value beneficiary calldata) as (E5 & E1 & E2 & E3 & Ed & E6 & E0).
  fold st1 in E5, E1, E2, E3, Ed, E6, E0.
  match goal with |- forall d, _ -> exists G d', runs G ?m d ?r d' /\ _ => change (refines (rt_at s U) m st r st1) end.
  eapply refines_bind; [apply CreateRetryable_ref; auto; uint|]. fold st1.
  eapply refines_bind; [apply OpenRetryable_ref; auto|]. cbv beta.
  unfold rt_open, timeoutOffset. rewrite E5. destruct (Z.eqb_spec timeout 0); [lia|]. cbn [orb].
  rewrite <- Z.leb_antisym. destruct (now <=? timeout); [|apply refines_ret].
  eapply refines_bind; [apply MakeTx_ref; auto|]. eapply refines_bind; [apply CalculateTimeout_ref; auto|].
  eapply refines_bind; [apply field_get_u64; auto; rtk|].
  assert (word_to (rt_field st1 id 2) = to) as Ew by (rewrite E2; apply word_to_word, Hto).
  unfold rt_total, timeoutOffset, timeoutWindowsLeftOffset, numTriesOffset. rewrite Ew, E1, E3, Ed, E5, E6, E0, Z.mul_0_l.
  change (u64 0) with 0. rewrite Z.add_0_r, uwrap_id by uint. apply refines_ret.
Qed.

Lemma CreateRetryable_roundtrip_witness :
  exists d G d', runs G
      (let* _ := CreateRetryable (OpenRetryableState ex_rs) 5 100 9 None 7 8 [1; 2] in
       let* opened := OpenRetryable (OpenRetryableState ex_rs) 5 50 in
       match opened with
       | None => ret None
       | Some r =>
           let* tx := MakeTx r 1 0 0 21000 5 9 0 0 in
           let* ending := CalculateTimeout r in
           let* tries := NumTries r in
           ret (Some (tx, ending, tries))
       end) d (Ok (Some (mkArbitrumRetryTx 1 0 9 0 21000 None 7 [1; 2] 5 9 0 0, 100, 0))) d'.
Proof.
  destruct ex_empty_at as [d Hd].
  destruct (CreateRetryable_roundtrip ex_rs ex_ids ex_empty d 5 100 9 7 8 50 1 0 0 21000 9 0 0 None [1; 2])
    as (G & d' & R & _).
  - exact ex_rs_ok.
  - exact Hd.
  - reflexivity.
  - left.
  - lia.
  - split; [lia|reflexivity].
  - discriminate.
  - split; [lia|reflexivity].
  - split; [lia|reflexivity].
  - repeat (apply Forall_cons; [unfold is_byte; lia|]). constructor.
  - split; [cbn; lia|reflexivity].
  - exists d, G, d'. exact R.
Defined.

(** deleting a ticket that exists erases all its fields and its calldata,
    moves its whole escrow to the beneficiary and touches no other ticket, the
    queue or any other balance. *)
Theorem DeleteRetryable_erases {E : Env} {EL : EnvLaws E} (s : Storage) (U : list Z) (st : rt_state) (d : DB)
  (id : Z) (evm : EVM) (sc : TracingScenario) :
  spaces_ok (rt_spaces s U) -> rt_at s U st d -> id ∈ U -> scenario_ok evm sc ->
  rt_field st id timeoutOffset <> 0 ->
  let escrow := RetryableEscrowAddress id in
  let beneficiary := rt_field st id beneficiaryOffset in
  exists G d' st',
    runs G (DeleteRetryable (OpenRetryableState s) id evm sc) d (Ok true) d' /\ rt_at s U st' d' /\
    (forall k, 0 <= k < 7 -> rt_field st' id k = 0) /\ rt_data st' id = [] /\
    (forall j k, j <> id -> rt_field st' j k = rt_field st j k /\ rt_data st' j = rt_data st j) /\
    rt_queue st' = rt_queue st /\
    (forall a, a <> escrow -> a <> beneficiary -> rt_bal st' a = rt_bal st a) /\
    (escrow <> beneficiary -> rt_bal st' escrow = 0 /\
       rt_bal st' beneficiary = rt_bal st beneficiary + rt_bal st escrow).
Proof.
  intros NC Hd Hi Hs Hl escrow ben. destruct (DeleteRetryable_ref s U NC st id evm sc Hi Hs d Hd) as (G & d' & R & Hd').
  exists G, d', (delete_spec st id). destruct (Z.eqb_spec (rt_field st id timeoutOffset) 0); [contradiction|].
  split; [exact R|]. split; [exact Hd'|]. unfold delete_spec. rewrite (proj2 (Z.eqb_neq _ _)) by exact Hl.
  change (rt_field st id beneficiaryOffset) with ben. rt_simp. split; [|split; [|split; [|split]]].
  - intros k Hk. rewrite Z.eqb_refl. cbn [andb].
    assert (k = 0 \/ k = 1 \/ k = 2 \/ k = 3 \/ k = 4 \/ k = 5 \/ k = 6) as Hc by lia.
    repeat destruct Hc as [->|Hc]; try reflexivity. subst k. reflexivity.
  - rewrite Z.eqb_refl. reflexivity.
  - intros j k Hj. destruct (Z.eqb_spec j id); [contradiction|]. auto.
  - reflexivity.
  - cbn [rt_bal rt_erase set_data set_field move_balance]. fold escrow. split.
    + intros a H1 H2. rewrite !decide_False by auto. lia.
    + intros Hne. rewrite (decide_True (P := escrow = escrow)), (decide_True (P := ben = ben)) by reflexivity.
      rewrite !decide_False by auto. lia.
Qed.

Lemma DeleteRetryable_erases_witness :
  exists d G d' st', runs G (DeleteRetryable (OpenRetryableState ex_rs) 5 ex_evm TracingBeforeEVM) d (Ok true) d' /\
    rt_at ex_rs ex_ids st' d' /\ rt_field st' 5 timeoutOffset = 0.
Proof.
  destruct ex_ticket_at as [d Hd].
  destruct (DeleteRetryable_erases ex_rs ex_ids ex_ticket d 5 ex_evm TracingBeforeEVM)
    as (G & d' & st' & R & Hd' & Hf & _).
  - exact ex_rs_ok.
  - exact Hd.
  - left.
  - left. reflexivity.
  - vm_compute. discriminate.
  - exists d, G, d', st'. split; [exact R|]. split; [exact Hd'|]. apply Hf. rtk.
Defined.

(** [Keepalive] fails for a ticket that does not exist or has run out and
    for one whose paid lifetimes end after the limit, without changing
    anything; otherwise it queues the ticket once more, adds a window and
    returns the end of the lifetimes, one lifetime later than before. *)
Theorem Keepalive_extends {E : Env} {EL : EnvLaws E} (s : Storage) (U : list Z) (st : rt_state) (d : DB)
  (id now limit timeToAdd : Z) :
  spaces_ok (rt_spaces s U) -> rt_at s U st d -> queue_inv st -> id ∈ U -> rt_put st < 2 ^ 64 - 1 ->
  let r := keepalive_spec st id now limit in
  exists G d',
    runs G (Keepalive (OpenRetryableState s) id now limit timeToAdd) d r.1 d' /\ rt_at s U r.2 d' /\ queue_inv r.2 /\
    (forall e, r.1 = Ok e ->
       e = rt_total st id +u64 RetryableLifetimeSeconds /\ rt_total st id <= limit /\
       now <= rt_field st id timeoutOffset /\ rt_queue r.2 = rt_queue st ++ [id]) /\
    (forall e, r.1 = Err e -> r.2 = st).
Proof.
  intros NC Hd Hinv Hi Hp r. pose proof (qa_low _ _ _ _ (ra_queue _ _ _ _ Hd)) as Hlow.
  assert (rt_field st id 5 <> 0 -> rt_field st id 6 < 2 ^ 64 - 1) as H6.
  { intros Hl. destruct (Hinv id Hl) as [_ Ho]. pose proof (occ_bounds id (rt_queue st)).
    unfold timeoutWindowsLeftOffset in Ho. lia. }
  destruct (Keepalive_ref s U NC st id now limit timeToAdd Hi Hp H6 d Hd) as (G & d' & R & Hd').
  exists G, d'. split; [exact R|]. split; [exact Hd'|]. split; [apply keepalive_inv, Hinv|].
  unfold r, keepalive_spec, rt_open.
  destruct (Z.eqb_spec (rt_field st id timeoutOffset) 0); cbn [orb negb]; [split; [discriminate|reflexivity]|].
  destruct (Z.ltb_spec (rt_field st id timeoutOffset) now); cbn [orb negb]; [split; [discriminate|reflexivity]|].
  destruct (Z.ltb_spec limit (rt_total st id)); [split; [discriminate|reflexivity]|].
  split; [|discriminate]. intros e [= <-]. auto.
Qed.

Lemma Keepalive_extends_witness :
  exists d G d' st', runs G (Keepalive (OpenRetryableState ex_rs) 5 50 1000 604800) d (Ok 604900) d' /\
    rt_at ex_rs ex_ids st' d' /\ rt_queue st' = [5; 5].
Proof.
  destruct ex_ticket_at as [d Hd].
  destruct (Keepalive_extends ex_rs ex_ids ex_ticket d 5 50 1000 604800) as (G & d' & R & Hd' & _ & Hok & _).
  - exact ex_rs_ok.
  - exact Hd.
  - exact (create_inv ex_empty 5 100 9 None 7 8 [1; 2] ltac:(intros id Hn; contradiction) ltac:(apply not_elem_of_nil)).
  - left.
  - reflexivity.
  - exists d, G, d', (keepalive_spec ex_ticket 5 50 1000).2. split; [exact R|]. split; [exact Hd'|]. reflexivity.
Defined.

(** C4: under any sequence of creations of tickets with fresh ids, keepalives,
    reaps, deletions and redemptions the code runs without an error and keeps
    the invariant of the timeout queue: every live ticket is queued exactly
    once more than it has windows left, so no ticket can be lost and none is
    reaped before its last window. *)
Theorem Retryables_queue_invariant {E : Env} {EL : EnvLaws E} (s : Storage) (U : list Z) (st : rt_state) (d : DB)
  (evm : EVM) (sc : TracingScenario) (ops : list rt_op) :
  spaces_ok (rt_spaces s U) -> rt_at s U st d -> queue_inv st -> rt_valids U ops st -> scenario_ok evm sc ->
  rt_put st + Z.of_nat (length ops) < 2 ^ 64 ->
  exists G d', runs G (rt_steps (OpenRetryableState s) evm sc ops) d (Ok tt) d' /\
    rt_at s U (rt_specs ops st) d' /\
    forall id, rt_field (rt_specs ops st) id timeoutOffset <> 0 ->
      occ id (rt_queue (rt_specs ops st)) = rt_field (rt_specs ops st) id timeoutWindowsLeftOffset + 1.
Proof.
  intros NC Hd Hinv Hv Hs Hp. destruct (rt_steps_ref s U NC ops evm sc Hs st d Hd Hinv Hv Hp) as (G & d' & R & Hd' & H').
  exists G, d'. split; [exact R|]. split; [exact Hd'|]. intros id Hl. apply (H' id Hl).
Qed.

Lemma Retryables_queue_invariant_witness :
  let ops := [OKeepalive 5 50 1000 604800; OReap 200; ORedeem 5 300; OReap 300] in
  exists d G d', runs G (rt_steps (OpenRetryableState ex_rs) ex_evm TracingBeforeEVM ops) d (Ok tt) d' /\
    rt_queue (rt_specs ops ex_ticket) = [5] /\
    occ 5 (rt_queue (rt_specs ops ex_ticket)) = rt_field (rt_specs ops ex_ticket) 5 timeoutWindowsLeftOffset + 1.
Proof.
  intros ops. destruct ex_ticket_at as [d Hd].
  destruct (Retryables_queue_invariant ex_rs ex_ids ex_ticket d ex_evm TracingBeforeEVM ops) as (G & d' & R & _ & Ho).
  - exact ex_rs_ok.
  - exact Hd.
  - exact (create_inv ex_empty 5 100 9 None 7 8 [1; 2] ltac:(intros id Hn; contradiction) ltac:(apply not_elem_of_nil)).
  - split; [left|]. split; [exact I|]. split; [split; [left|reflexivity]|]. split; [exact I|exact I].
  - left. reflexivity.
  - reflexivity.
  - exists d, G, d'. split; [exact R|]. split; [reflexivity|]. apply Ho. vm_compute. discriminate.
Defined.

(** C35: once the clock is past the last lifetime of every ticket, as many calls
    of [TryToReapOneRetryable] as the queue has entries reap everything: the
    queue is empty and no ticket is left. *)
Theorem TryToReapOneRetryable_reaps_all {E : Env} {EL : EnvLaws E} (s : Storage) (U : list Z) (st : rt_state) (d : DB)
  (evm : EVM) (sc : TracingScenario) (now : Z) :
  spaces_ok (rt_spaces s U) -> rt_at s U st d -> queue_inv st -> all_expired st now -> now < 2 ^ 64 ->
  scenario_ok evm sc ->
  exists G d' st',
    runs G (rt_steps (OpenRetryableState s) evm sc (repeat (OReap now) (length (rt_queue st)))) d (Ok tt) d' /\
    rt_at s U st' d' /\ rt_queue st' = [] /\
    forall id, id ∈ U -> exists G2 d2, runs G2 (OpenRetryable (OpenRetryableState s) id 0) d' (Ok None) d2.
Proof.
  intros NC Hd Hinv Hx Hn Hs.
  destruct (reap_all_ref s U NC evm sc now Hs Hn _ st d Hd Hinv Hx eq_refl) as (G & d' & st' & R & Hd' & Hq & Hz).
  exists G, d', st'. split; [exact R|]. split; [exact Hd'|]. split; [exact Hq|]. intros id Hi.
  destruct (OpenRetryable_ref s U st' id 0 Hi d' Hd') as (G2 & d2 & R2 & _). exists G2, d2.
  unfold rt_open in R2. rewrite Hz in R2. exact R2.
Qed.

Lemma TryToReapOneRetryable_reaps_all_witness :
  exists d G d' st', runs G (rt_steps (OpenRetryableState ex_rs) ex_evm TracingBeforeEVM [OReap 200]) d (Ok tt) d' /\
    rt_at ex_rs ex_ids st' d' /\ rt_queue st' = [].
Proof.
  destruct ex_ticket_at as [d Hd].
  destruct (TryToReapOneRetryable_reaps_all ex_rs ex_ids ex_ticket d ex_evm TracingBeforeEVM 200)
    as (G & d' & st' & R & Hd' & Hq & _).
  - exact ex_rs_ok.
  - exact Hd.
  - exact (create_inv ex_empty 5 100 9 None 7 8 [1; 2] ltac:(intros id Hn; contradiction) ltac:(apply not_elem_of_nil)).
  - intros id. unfold ex_ticket, timeoutOffset, timeoutWindowsLeftOffset. rt_simp.
    destruct (Z.eqb_spec id 5) as [->|Hne]; rt_simp; [intros _; split; [lia|reflexivity]|intros Hn; contradiction].
  - reflexivity.
  - left. reflexivity.
  - exists d, G, d', st'. split; [exact R|]. split; [exact Hd'|exact Hq].
Defined.
