(* ===== verification/MemoryModel.v ===== *)
(** * arbos/programs/memory.go: the price of WASM memory

    The model charges a linear price per page above the free ones and an
    exponential price for new maxima of the memory footprint. What is proved:
    the price does not depend on how an allocation is split, it never falls
    when more is asked for, and no transaction can pay for more than 128
    pages. *)
From Stdlib Require Import ZArith Lia String List.
From stdpp Require Import base list numbers.
From S2P Require Import Prelude Arbmath.
Open Scope Z_scope.

Record MemoryModel := mkMemoryModel {
  mm_freePages : Z;  (* uint16 *)
  mm_pageGas : Z     (* uint16 *)
}.

Definition NewMemoryModel (freePages pageGas : Z) : MemoryModel := mkMemoryModel freePages pageGas.

Definition memoryExponents : list Z := [
  1; 1; 1; 1; 1; 1; 2; 2; 2; 3; 3; 4; 5; 5; 6; 7; 8; 9; 11; 12; 14; 17; 19; 22; 25; 29; 33; 38;
  43; 50; 57; 65; 75; 85; 98; 112; 128; 147; 168; 193; 221; 253; 289; 331; 379; 434; 497; 569;
  651; 745; 853; 976; 1117; 1279; 1463; 1675; 1917; 2194; 2511; 2874; 3290; 3765; 4309; 4932;
  5645; 6461; 7395; 8464; 9687; 11087; 12689; 14523; 16621; 19024; 21773; 24919; 28521; 32642;
  37359; 42758; 48938; 56010; 64104; 73368; 83971; 96106; 109994; 125890; 144082; 164904; 188735;
  216010; 247226; 282953; 323844; 370643; 424206; 485509; 555672; 635973; 727880; 833067; 953456;
  1091243; 1248941; 1429429; 1636000; 1872423; 2143012; 2452704; 2807151; 3212820; 3677113;
  4208502; 4816684; 5512756; 6309419; 7221210; 8264766; 9459129; 10826093; 12390601; 14181199;
  16230562; 18576084; 21260563; 24332984; 27849408; 31873999
].

(** [int(pages) < len(memoryExponents)] selects the entry of the table. *)
Definition MemoryModel_exp (model : MemoryModel) (pages : Z) : Z :=
  match memoryExponents !! Z.to_nat pages with
  | Some e => e
  | None => MaxUint64
  end.

Definition MemoryModel_GasCost (model : MemoryModel) (new open ever : Z) : Z :=
  let newOpen := SaturatingUAdd 16 open new in
  let newEver := MaxInt2 ever newOpen in
  if newEver <=? mm_freePages model then 0
  else
    let subFree pages := SaturatingUSub 16 pages (mm_freePages model) in
    let adding := SaturatingUSub 16 (subFree newOpen) (subFree open) in
    let linear := SaturatingUMul 64 adding (mm_pageGas model) in
    let expand := MemoryModel_exp model newEver -u64 MemoryModel_exp model ever in
    SaturatingUAdd 64 linear expand.

(** ** The table *)

Lemma memoryExponents_step (i : nat) : (i < 128)%nat ->
  default 0 (memoryExponents !! i) <= default 0 (memoryExponents !! (S i)).
Proof.
  intros H. assert (forallb (fun i => default 0 (memoryExponents !! i) <=? default 0 (memoryExponents !! (S i)))
    (seq 0 128) = true) as Hall by reflexivity.
  rewrite forallb_forall in Hall. specialize (Hall i ltac:(apply in_seq; lia)). lia.
Qed.

Lemma memoryExponents_mono (i j : nat) : (i <= j)%nat -> (j <= 128)%nat ->
  default 0 (memoryExponents !! i) <= default 0 (memoryExponents !! j).
Proof.
  induction 1 as [|j Hij IH]; intros Hj; [lia|].
  pose proof (memoryExponents_step j ltac:(lia)). specialize (IH ltac:(lia)). lia.
Qed.

Lemma exp_table m p : 0 <= p <= 128 -> MemoryModel_exp m p = default 0 (memoryExponents !! Z.to_nat p).
Proof.
  intros H. unfold MemoryModel_exp. destruct (lookup_lt_is_Some_2 memoryExponents (Z.to_nat p)) as [e ->]; [|reflexivity].
  change (length memoryExponents) with 129%nat. lia.
Qed.

Lemma exp_above m p : 128 < p -> MemoryModel_exp m p = MaxUint64.
Proof.
  intros H. unfold MemoryModel_exp. rewrite lookup_ge_None_2; [reflexivity|].
  change (length memoryExponents) with 129%nat. lia.
Qed.

Lemma exp_le m p q : 0 <= p <= q -> q <= 128 -> MemoryModel_exp m p <= MemoryModel_exp m q.
Proof. intros H1 H2. rewrite !exp_table by lia. apply memoryExponents_mono; lia. Qed.

Lemma exp_first m p : 0 <= p <= 5 -> MemoryModel_exp m p = 1.
Proof.
  intros H. rewrite exp_table by lia. destruct (Z.to_nat p) as [|[|[|[|[|[|?]]]]]] eqn:?; try reflexivity. lia.
Qed.

Lemma exp_bounds m p : 0 <= p <= 128 -> 1 <= MemoryModel_exp m p <= 31873999.
Proof.
  intros H. split.
  - rewrite <- (exp_first m 0) by lia. apply exp_le; lia.
  - rewrite (exp_le m p 128) by lia. reflexivity.
Qed.

(** ** The price of a fresh maximum in closed form *)

(** Pages above the free ones. *)
Definition paid_pages (m : MemoryModel) (pages : Z) : Z := Z.max 0 (pages - mm_freePages m).

Definition model_ok (m : MemoryModel) : Prop := in_u 16 (mm_freePages m) /\ in_u 16 (mm_pageGas m).

Lemma paid_pages_mono m p q : p <= q -> paid_pages m p <= paid_pages m q.
Proof. unfold paid_pages. lia. Qed.

Lemma GasCost_above_free m new open ever :
  model_ok m -> 0 <= new -> 0 <= open -> 0 <= ever -> Z.max ever (open + new) <= 128 ->
  mm_freePages m < Z.max ever (open + new) ->
  MemoryModel_GasCost m new open ever =
    (paid_pages m (open + new) - paid_pages m open) * mm_pageGas m +
    (MemoryModel_exp m (Z.max ever (open + new)) - MemoryModel_exp m ever).
Proof.
  intros [Hf Hg] Hn Ho He Hb Hfree. unfold MemoryModel_GasCost. unfold in_u in *.
  rewrite SaturatingUAdd_min by (unfold in_u; lia). rewrite Z.min_l by lia.
  assert (MaxInt2 ever (open + new) = Z.max ever (open + new)) as ->
    by (unfold MaxInt2, MaxInt_loop; cbn; zbool; lia).
  destruct (Z.leb_spec (Z.max ever (open + new)) (mm_freePages m)); [lia|].
  rewrite !SaturatingUSub_max by (unfold in_u; rewrite ?SaturatingUSub_max by (unfold in_u; lia); lia).
  change (Z.max 0 (open + new - mm_freePages m)) with (paid_pages m (open + new)).
  change (Z.max 0 (open - mm_freePages m)) with (paid_pages m open).
  pose proof (paid_pages_mono m open (open + new) ltac:(lia)).
  assert (0 <= paid_pages m open /\ paid_pages m (open + new) <= 128) by (unfold paid_pages; lia).
  rewrite Z.max_r by lia.
  set (a := paid_pages m (open + new) - paid_pages m open) in *.
  assert (0 <= a * mm_pageGas m < 128 * 2 ^ 16 + 1) by nia.
  rewrite SaturatingUMul_min by (unfold in_u; lia).
  rewrite Z.min_l by lia.
  pose proof (exp_bounds m (Z.max ever (open + new)) ltac:(lia)).
  pose proof (exp_bounds m ever ltac:(lia)).
  pose proof (exp_le m ever (Z.max ever (open + new)) ltac:(lia) ltac:(lia)).
  rewrite (uwrap_id 64) by (unfold in_u; lia).
  rewrite SaturatingUAdd_min by (unfold in_u; lia). lia.
Qed.

Lemma GasCost_free m new open ever :
  model_ok m -> 0 <= new -> 0 <= open -> 0 <= ever -> Z.max ever (open + new) <= 128 ->
  Z.max ever (open + new) <= mm_freePages m -> MemoryModel_GasCost m new open ever = 0.
Proof.
  intros [Hf Hg] Hn Ho He Hb Hfree. unfold MemoryModel_GasCost. unfold in_u in *.
  rewrite SaturatingUAdd_min by (unfold in_u; lia). rewrite Z.min_l by lia.
  assert (MaxInt2 ever (open + new) = Z.max ever (open + new)) as ->
    by (unfold MaxInt2, MaxInt_loop; cbn; zbool; lia).
  destruct (Z.leb_spec (Z.max ever (open + new)) (mm_freePages m)); [reflexivity|lia].
Qed.

(** With at most five free pages (the table starts with six ones) both cases
    have the same closed form. *)
Lemma GasCost_closed m new open ever :
  model_ok m -> mm_freePages m <= 5 -> 0 <= new -> 0 <= open -> 0 <= ever -> Z.max ever (open + new) <= 128 ->
  MemoryModel_GasCost m new open ever =
    (paid_pages m (open + new) - paid_pages m open) * mm_pageGas m +
    (MemoryModel_exp m (Z.max ever (open + new)) - MemoryModel_exp m ever).
Proof.
  intros Hm H5 Hn Ho He Hb.
  destruct (Z_lt_ge_dec (mm_freePages m) (Z.max ever (open + new))); [apply GasCost_above_free; auto|].
  rewrite GasCost_free, !exp_first by (auto; lia).
  assert (paid_pages m (open + new) = 0) as -> by (unfold paid_pages; lia).
  assert (paid_pages m open = 0) as -> by (unfold paid_pages; lia). lia.
Qed.

(** an allocation of [a + b] pages costs what the allocation of [a] pages
    and then of [b] more costs, as long as at most 128 pages are reached and at
    most five are free: programs cannot save by splitting or merging growth. *)
Theorem GasCost_split (m : MemoryModel) (a b open ever : Z) :
  model_ok m -> mm_freePages m <= 5 -> 0 <= a -> 0 <= b -> 0 <= open -> 0 <= ever ->
  Z.max ever (open + a + b) <= 128 ->
  MemoryModel_GasCost m (a + b) open ever =
    MemoryModel_GasCost m a open ever + MemoryModel_GasCost m b (open + a) (Z.max ever (open + a)).
Proof.
  intros Hm H5 Ha Hb Ho He Hmax. rewrite !GasCost_closed by (auto; lia).
  replace (open + (a + b)) with (open + a + b) by lia.
  replace (Z.max (Z.max ever (open + a)) (open + a + b)) with (Z.max ever (open + a + b)) by lia. lia.
Qed.

Lemma GasCost_split_witness :
  MemoryModel_GasCost (NewMemoryModel 2 1000) (3 + 4) 1 2 =
    MemoryModel_GasCost (NewMemoryModel 2 1000) 3 1 2 + MemoryModel_GasCost (NewMemoryModel 2 1000) 4 4 4 /\
  MemoryModel_GasCost (NewMemoryModel 2 1000) (3 + 4) 1 2 = 6001.
Proof.
  split; [|reflexivity].
  apply (GasCost_split (NewMemoryModel 2 1000) 3 4 1 2); try (split; split); cbn; lia || reflexivity.
Defined.

(** the price is monotone in the number of new pages, at least the linear
    price of every page above the free ones, and an allocation that first
    passes 128 pages costs at least [MaxUint64 - 31873999] gas, so no transaction
    can afford it, provided that at most 128 pages are free. *)
Theorem GasCost_bounds (m : MemoryModel) (a b open ever : Z) :
  model_ok m -> 0 <= a <= b -> in_u 16 open -> open <= ever <= 128 -> in_u 16 b ->
  (open + b <= 128 ->
     MemoryModel_GasCost m a open ever <= MemoryModel_GasCost m b open ever /\
     (paid_pages m (open + b) - paid_pages m open) * mm_pageGas m <= MemoryModel_GasCost m b open ever <=
       (paid_pages m (open + b) - paid_pages m open) * mm_pageGas m + 31873998) /\
  (128 < open + b -> mm_freePages m <= 128 ->
     MaxUint64 - 31873999 <= MemoryModel_GasCost m b open ever <= MaxUint64).
Proof.
  intros Hm Hab Ho He Hb. pose proof Hm as [Hf Hg]. unfold in_u in *. split.
  - intros H128.
    assert (forall n, 0 <= n -> open + n <= 128 ->
      MemoryModel_GasCost m n open ever =
        (paid_pages m (open + n) - paid_pages m open) * mm_pageGas m +
        if Z.max ever (open + n) <=? mm_freePages m then 0
        else MemoryModel_exp m (Z.max ever (open + n)) - MemoryModel_exp m ever) as Hc.
    { intros n Hn Hon. destruct (Z.leb_spec (Z.max ever (open + n)) (mm_freePages m)).
      - rewrite GasCost_free by (auto; lia).
        assert (paid_pages m (open + n) = 0) as -> by (unfold paid_pages; lia).
        assert (paid_pages m open = 0) as -> by (unfold paid_pages; lia). lia.
      - apply GasCost_above_free; auto; lia. }
    rewrite !Hc by lia.
    pose proof (paid_pages_mono m (open + a) (open + b) ltac:(lia)).
    pose proof (paid_pages_mono m open (open + a) ltac:(lia)).
    pose proof (exp_le m ever (Z.max ever (open + a)) ltac:(lia) ltac:(lia)).
    pose proof (exp_le m (Z.max ever (open + a)) (Z.max ever (open + b)) ltac:(lia) ltac:(lia)).
    pose proof (exp_bounds m (Z.max ever (open + b)) ltac:(lia)). pose proof (exp_bounds m ever ltac:(lia)).
    destruct (Z.leb_spec (Z.max ever (open + a)) (mm_freePages m)),
      (Z.leb_spec (Z.max ever (open + b)) (mm_freePages m)); nia.
  - intros H128 Hfr. unfold MemoryModel_GasCost.
    rewrite SaturatingUAdd_min by (unfold in_u; lia). change (2 ^ 16 - 1) with 65535.
    set (no := Z.min (open + b) 65535).
    assert (MaxInt2 ever no = no) as -> by (unfold MaxInt2, MaxInt_loop, no; cbn; zbool; lia).
    destruct (Z.leb_spec no (mm_freePages m)) as [Hle|Hle].
    { exfalso. unfold no in Hle. cbn in *. lia. }
    rewrite (exp_above m no) by lia. pose proof (exp_bounds m ever ltac:(lia)).
    rewrite (uwrap_id 64) by (unfold in_u, MaxUint64; lia).
    match goal with |- context [SaturatingUAdd 64 ?l _] => assert (in_u 64 l) as Hl end.
    { unfold SaturatingUMul. destruct (_ && _); [rewrite UMax_eq by lia; unfold in_u; lia|apply u64_range]. }
    rewrite SaturatingUAdd_min; [|lia|exact Hl|unfold in_u, MaxUint64; lia].
    unfold in_u, MaxUint64 in *. lia.
Qed.

Lemma GasCost_bounds_witness :
  MemoryModel_GasCost (NewMemoryModel 2 1000) 128 0 0 = 31999998 /\
  MemoryModel_GasCost (NewMemoryModel 2 1000) 100 0 0 <= MemoryModel_GasCost (NewMemoryModel 2 1000) 128 0 0 /\
  MaxUint64 - 31873999 <= MemoryModel_GasCost (NewMemoryModel 2 1000) 129 0 0.
Proof.
  assert (model_ok (NewMemoryModel 2 1000)) as Hm by (split; split; cbn; lia || reflexivity).
  split; [reflexivity|].
  destruct (GasCost_bounds (NewMemoryModel 2 1000) 100 128 0 0 Hm) as [H1 _]; [lia|unfold in_u; lia..|].
  destruct (GasCost_bounds (NewMemoryModel 2 1000) 129 129 0 0 Hm) as [_ H2]; [lia|unfold in_u; lia..|].
  split; [apply H1|apply H2]; cbn; lia.
Defined.
