(* ===== verification/DataPricer.v ===== *)
(** * arbos/programs/data_pricer.go: the price of state data for programs

    An exponential price on the demand, which a constant rate of bytes per
    second drains. What is proved: the price and the new demand that one update
    computes, with saturation at the widths of the fields, and that the price
    per byte grows with the demand. *)
From Stdlib Require Import ZArith Lia String List.
From stdpp Require Import base list numbers.
From S2P Require Import Prelude Arbmath Host Storage StorageFacts MemEnv.
Open Scope Z_scope.

Record DataPricer := mkDataPricer {
  dp_backingStorage : Storage;
  dp_demand : StorageSlot;
  dp_bytesPerSecond : StorageSlot;
  dp_lastUpdateTime : StorageSlot;
  dp_minPrice : StorageSlot;
  dp_inertia : StorageSlot
}.

Definition demandOffset : Z := 0.
Definition bytesPerSecondOffset : Z := 1.
Definition lastUpdateTimeOffset : Z := 2.
Definition minPriceOffset : Z := 3.
Definition inertiaOffset : Z := 4.

Definition initialDemand : Z := 0.
Definition InitialHourlyBytes : Z := 1 * Z.shiftl 1 40 / (365 * 24).
Definition initialBytesPerSecond : Z := InitialHourlyBytes / (60 * 60).
Definition initialLastUpdateTime : Z := 1421388000.
Definition initialMinPrice : Z := 82928201.
Definition initialInertia : Z := 21360419.

Section Operations.
Context {E : Env}.

Definition initDataPricer (sto : Storage) : M unit :=
  let demand := OpenStorageBackedUint32 sto demandOffset in
  let bytesPerSecond := OpenStorageBackedUint32 sto bytesPerSecondOffset in
  let lastUpdateTime := OpenStorageBackedUint64 sto lastUpdateTimeOffset in
  let minPrice := OpenStorageBackedUint32 sto minPriceOffset in
  let inertia := OpenStorageBackedUint32 sto inertiaOffset in
  ignore (StorageBackedUint32_Set demand initialDemand) ;;;
  ignore (StorageBackedUint32_Set bytesPerSecond initialBytesPerSecond) ;;;
  ignore (StorageBackedUint64_Set lastUpdateTime initialLastUpdateTime) ;;;
  ignore (StorageBackedUint32_Set minPrice initialMinPrice) ;;;
  ignore (StorageBackedUint32_Set inertia initialInertia).

Definition openDataPricer (sto : Storage) : DataPricer :=
  mkDataPricer sto
    (OpenStorageBackedUint32 sto demandOffset)
    (OpenStorageBackedUint32 sto bytesPerSecondOffset)
    (OpenStorageBackedUint64 sto lastUpdateTimeOffset)
    (OpenStorageBackedUint32 sto minPriceOffset)
    (OpenStorageBackedUint32 sto inertiaOffset).

Definition UpdateModel (p : DataPricer) (tempBytes time : Z) : M Z :=
  let* demand := value_or 0 (StorageBackedUint32_Get (dp_demand p)) in
  let* bytesPerSecond := value_or 0 (StorageBackedUint32_Get (dp_bytesPerSecond p)) in
  let* lastUpdateTime := value_or 0 (StorageBackedUint64_Get (dp_lastUpdateTime p)) in
  let* minPrice := value_or 0 (StorageBackedUint32_Get (dp_minPrice p)) in
  let* inertia := StorageBackedUint32_Get (dp_inertia p) in
  let passed := SaturatingUUCast 32 64 (time -u64 lastUpdateTime) in
  let credit := SaturatingUMul 32 bytesPerSecond passed in
  let demand := SaturatingUSub 32 demand credit in
  let demand := SaturatingUAdd 32 demand tempBytes in
  StorageBackedUint32_Set (dp_demand p) demand ;;;
  StorageBackedUint64_Set (dp_lastUpdateTime p) time ;;;
  let* exponent := lift (go_quot 64 (i64 (OneInBips * demand)) inertia) in
  let* multiplier := lift (ApproxExpBasisPoints exponent 12) in
  let multiplier := Bips_Uint64 multiplier in
  let costPerByte := SaturatingUMul 64 minPrice multiplier / 10000 in
  let costInWei := SaturatingUMul 64 costPerByte tempBytes in
  ret (UintToBig costInWei).
End Operations.

(** ** The price on unbounded integers *)

(** The demand after [passed] seconds and [bytes] new bytes. *)
Definition new_demand (demand rate passed bytes : Z) : Z :=
  Z.min (Z.max 0 (demand - Z.min (rate * Z.min passed (2 ^ 32 - 1)) (2 ^ 32 - 1)) + bytes) (2 ^ 32 - 1).

(** The price of a byte at a demand: [minPrice * e ^ (demand / inertia)]. *)
Definition byte_price (minPrice inertia demand : Z) : Z :=
  Z.min (minPrice * exp_bips (10000 * demand / inertia) 12) (2 ^ 64 - 1) / 10000.

Definition data_price (minPrice inertia demand bytes : Z) : Z :=
  Z.min (byte_price minPrice inertia demand * bytes) (2 ^ 64 - 1).

Lemma new_demand_range demand rate passed bytes :
  in_u 32 demand -> 0 <= rate -> 0 <= passed -> 0 <= bytes -> in_u 32 (new_demand demand rate passed bytes).
Proof.
  unfold in_u, new_demand. intros. split; [|lia]. apply Z.min_glb; [|lia]. lia.
Qed.

Lemma byte_price_mono minPrice inertia x y :
  0 <= minPrice -> 0 < inertia -> 0 <= x <= y -> byte_price minPrice inertia x <= byte_price minPrice inertia y.
Proof.
  intros Hm Hi Hxy. unfold byte_price. apply Z.div_le_mono; [lia|]. apply Z.min_le_compat_r, Z.mul_le_mono_nonneg_l; [lia|].
  apply exp_bips_mono; [|lia]. split; [apply Z.div_pos; lia|apply Z.div_le_mono; lia].
Qed.

(** With no demand the price is the minimum. *)
Lemma byte_price_zero minPrice inertia : in_u 32 minPrice -> byte_price minPrice inertia 0 = minPrice.
Proof.
  unfold byte_price, in_u. intros H. rewrite Z.mul_0_r, Zdiv_0_l. change (exp_bips 0 12) with 10000.
  rewrite Z.min_l by lia. apply Z.div_mul. lia.
Qed.

Section Facts.
Context {E : Env} {EL : EnvLaws E}.

Lemma StorageBackedUint32_Get_runs x d :
  in_u 32 (slot_get d x) -> runs 800 (StorageBackedUint32_Get x) d (Ok (slot_get d x)) d.
Proof.
  intros H. unfold StorageBackedUint32_Get. change 800 with (800 + 0).
  eapply runs_bind; [apply StorageSlot_Get_runs|]. unfold in_u in H.
  rewrite IsUint64_true, (uwrap_id 64) by (unfold in_u; lia). cbn [negb orb].
  destruct (Z.ltb_spec (2 ^ 32 - 1) (slot_get d x)); [lia|]. rewrite uwrap_id by exact H. apply runs_ret.
Qed.

Lemma StorageBackedUint32_Set_runs x v d :
  in_u 32 v -> runs 20000 (StorageBackedUint32_Set x v) d (Ok tt) (slot_set d x v).
Proof.
  intros H. unfold StorageBackedUint32_Set. rewrite BigToHash_id by (unfold in_u in *; lia).
  apply StorageSlot_Set_runs.
Qed.

(** The fields of a pricer in its space. *)
Record dp_fields (s : Storage) (d : DB) (demand rate last minPrice inertia : Z) : Prop := {
  dpf_demand : slot_get d (skey s 0) = demand /\ in_u 32 demand;
  dpf_rate : slot_get d (skey s 1) = rate /\ in_u 32 rate;
  dpf_last : slot_get d (skey s 2) = last /\ in_u 64 last;
  dpf_min : slot_get d (skey s 3) = minPrice /\ in_u 32 minPrice;
  dpf_inertia : slot_get d (skey s 4) = inertia /\ in_u 32 inertia
}.

Lemma UpdateModel_runs s d demand rate last minPrice inertia bytes time :
  dp_fields s d demand rate last minPrice inertia -> 0 < inertia -> in_u 32 bytes -> in_u 64 time ->
  let demand' := new_demand demand rate (time -u64 last) bytes in
  runs 44000 (UpdateModel (openDataPricer s) bytes time) d
    (Ok (data_price minPrice inertia demand' bytes))
    (slot_set (slot_set d (skey s 0) demand') (skey s 2) time).
Proof.
  intros [[H0 R0] [H1 R1] [H2 R2] [H3 R3] [H4 R4]] Hi Hb Ht demand'.
  unfold UpdateModel, openDataPricer, OpenStorageBackedUint32, OpenStorageBackedUint64.
  rewrite !NewSlot_skey by (split; [vm_compute; discriminate|reflexivity]). cbn [dp_demand dp_bytesPerSecond dp_lastUpdateTime dp_minPrice dp_inertia].
  change demandOffset with 0; change bytesPerSecondOffset with 1; change lastUpdateTimeOffset with 2;
    change minPriceOffset with 3; change inertiaOffset with 4.
  change 44000 with (800 + (800 + (800 + (800 + (800 + (20000 + (20000 + (0 + (0 + 0))))))))).
  eapply runs_bind; [apply runs_value_or, StorageBackedUint32_Get_runs; rewrite H0; exact R0|]. rewrite H0.
  eapply runs_bind; [apply runs_value_or, StorageBackedUint32_Get_runs; rewrite H1; exact R1|]. rewrite H1.
  eapply runs_bind; [apply runs_value_or, StorageBackedUint64_Get_runs; rewrite H2; exact R2|]. rewrite H2.
  eapply runs_bind; [apply runs_value_or, StorageBackedUint32_Get_runs; rewrite H3; exact R3|]. rewrite H3.
  eapply runs_bind; [apply StorageBackedUint32_Get_runs; rewrite H4; exact R4|]. rewrite H4.
  pose proof (u64_range (time - last)) as Hp. cbv zeta.
  rewrite SaturatingUUCast_min by (lia || exact Hp).
  set (passed := time -u64 last) in *.
  unfold in_u in *. rewrite (SaturatingUMul_min 32) by (unfold in_u; lia).
  rewrite (SaturatingUSub_max 32) by (unfold in_u; lia || (split; [|lia]; apply Z.min_glb; nia)).
  rewrite (SaturatingUAdd_min 32); [|lia|unfold in_u; split; [lia|]|unfold in_u; lia].
  2: { assert (0 <= Z.min (rate * Z.min passed (2 ^ 32 - 1)) (2 ^ 32 - 1)) by (apply Z.min_glb; nia). lia. }
  change (Z.min (Z.max 0 (demand - Z.min (rate * Z.min passed (2 ^ 32 - 1)) (2 ^ 32 - 1)) + bytes) (2 ^ 32 - 1)) with demand'.
  assert (in_u 32 demand') as Hd by (apply new_demand_range; unfold in_u; lia). unfold in_u in Hd.
  eapply runs_bind; [apply StorageBackedUint32_Set_runs; exact Hd|].
  eapply runs_bind; [apply StorageBackedUint64_Set_runs; exact Ht|].
  assert (0 <= 10000 * demand' / inertia <= 10000 * demand') as Hq
    by (split; [apply Z.div_pos|apply Z.div_le_upper_bound]; nia).
  unfold OneInBips. rewrite (swrap_id 64 (10000 * demand')) by (unfold in_s; lia).
  rewrite go_quot_ok, Z.quot_div_nonneg, swrap_id by (unfold in_s; lia).
  eapply runs_bind; [apply runs_lift|].
  rewrite ApproxExpBasisPoints_nonneg by lia.
  pose proof (exp_bips_bounds (10000 * demand' / inertia) 12 ltac:(lia) ltac:(lia)) as He.
  eapply runs_bind; [apply runs_lift|].
  unfold Bips_Uint64, UintToBig. rewrite (uwrap_id 64) by (unfold in_u; lia).
  rewrite (SaturatingUMul_min 64 minPrice) by (unfold in_u; lia).
  change (Z.min (minPrice * exp_bips (10000 * demand' / inertia) 12) (2 ^ 64 - 1) / 10000)
    with (byte_price minPrice inertia demand').
  assert (0 <= byte_price minPrice inertia demand' < 2 ^ 64).
  { unfold byte_price. split; [apply Z.div_pos; nia|apply Z.div_lt_upper_bound; lia]. }
  rewrite SaturatingUMul_min by (unfold in_u; lia). apply runs_ret.
Qed.

Lemma initDataPricer_runs s d :
  exists d', runs 100000 (initDataPricer s) d (Ok tt) d' /\ frame (keys_between s 0 4) d d' /\
    (collision_free (pages (uint_keys (sto_storageKey s))) ->
     dp_fields s d' initialDemand initialBytesPerSecond initialLastUpdateTime initialMinPrice initialInertia).
Proof.
  unfold initDataPricer, OpenStorageBackedUint32, OpenStorageBackedUint64.
  rewrite !NewSlot_skey by (split; [vm_compute; discriminate|reflexivity]).
  eexists. split; [|split].
  - change 100000 with (20000 + (20000 + (20000 + (20000 + 20000)))).
    do 2 (eapply runs_bind; [eapply runs_ignore, StorageBackedUint32_Set_runs; split; [vm_compute; discriminate|reflexivity]|]).
    eapply runs_bind; [eapply runs_ignore, StorageBackedUint64_Set_runs; split; [vm_compute; discriminate|reflexivity]|].
    eapply runs_bind; [eapply runs_ignore, StorageBackedUint32_Set_runs; split; [vm_compute; discriminate|reflexivity]|].
    eapply runs_ignore, StorageBackedUint32_Set_runs; split; [vm_compute; discriminate|reflexivity].
  - repeat (apply frame_set_trans; [eexists; split; [|reflexivity]; vm_compute; split; discriminate|]). reflexivity.
  - intros NC.
    assert (forall k k', 0 <= k < 5 -> 0 <= k' < 5 -> k <> k' -> skey s k <> skey s k') as Hne
      by (intros; apply skey_uint_ne; auto; unfold in_u; lia).
    split; (split; [|split; [vm_compute; discriminate|reflexivity]]);
      repeat first [apply slot_get_set_eq | rewrite slot_get_set_ne by (apply Hne; vm_compute; (discriminate || (split; [discriminate|reflexivity])))].
Qed.
End Facts.

#[local] Existing Instance TestEnv.

(** an update of the data pricer drains the demand by the seconds passed
    times the rate, adds the new bytes, with saturation at 32 bits, charges the
    exponential price at the new demand, and touches nothing but its demand
    and its time. The price per byte is the minimum at an empty demand and
    never falls when the demand is higher. *)
Theorem UpdateModel_price {E : Env} {EL : EnvLaws E} (s : Storage) (d : DB)
  (demand rate last minPrice inertia bytes time : Z) :
  collision_free (pages (uint_keys (sto_storageKey s))) ->
  dp_fields s d demand rate last minPrice inertia -> 0 < inertia -> in_u 32 bytes -> in_u 64 time ->
  let demand' := new_demand demand rate (time -u64 last) bytes in
  exists d',
    runs 44000 (UpdateModel (openDataPricer s) bytes time) d (Ok (data_price minPrice inertia demand' bytes)) d' /\
    dp_fields s d' demand' rate time minPrice inertia /\ frame (keys_between s 0 2) d d'/\
    (last <= time -> demand <= rate * Z.min (time - last) (2 ^ 32 - 1) -> demand < 2 ^ 32 - 1 -> demand' = bytes) /\
    byte_price minPrice inertia 0 = minPrice /\
    (forall x, 0 <= x <= demand' -> byte_price minPrice inertia x <= byte_price minPrice inertia demand').
Proof.
  intros NC Hf Hi Hb Ht demand'. pose proof Hf as [[H0 R0] [H1 R1] [H2 R2] [H3 R3] [H4 R4]].
  eexists. split; [apply UpdateModel_runs; eauto|]. fold demand'.
  pose proof (u64_range (time - last)) as Hp.
  assert (in_u 32 demand') as Hd by (apply new_demand_range; unfold in_u in *; lia).
  split; [|split; [|split; [|split]]].
  - assert (forall k k', 0 <= k < 5 -> 0 <= k' < 5 -> k <> k' -> skey s k <> skey s k') as Hne
      by (intros; apply skey_uint_ne; auto; unfold in_u; lia).
    split; (split; [|assumption]);
      repeat first [apply slot_get_set_eq | rewrite slot_get_set_ne by (apply Hne; lia)]; assumption.
  - do 2 (apply frame_set_trans; [eexists; split; [|reflexivity]; lia|]). reflexivity.
  - intros Hl Hdr Hlt. unfold demand', new_demand. unfold in_u in *.
    rewrite (uwrap_id 64) by (unfold in_u; lia). lia.
  - apply byte_price_zero, R3.
  - intros x Hx. apply byte_price_mono; unfold in_u in *; lia.
Qed.

(** Ten days after the initialization 1 MB costs 86.9 szabo. *)
Lemma UpdateModel_price_witness :
  let s := mkStorage 1 [7] false in
  exists d d',
    runs 44000 (UpdateModel (openDataPricer s) 1000000 (initialLastUpdateTime + 864000)) d (Ok 86900461000000) d' /\
    dp_fields s d' 1000000 initialBytesPerSecond (initialLastUpdateTime + 864000) initialMinPrice initialInertia.
Proof.
  intros s. destruct (initDataPricer_runs s test_db) as (d & _ & _ & Hd).
  specialize (Hd (test_uint_keys [7])). exists d.
  destruct (UpdateModel_price s d _ _ _ _ _ 1000000 (initialLastUpdateTime + 864000) (test_uint_keys [7]) Hd)
    as (d' & R & Hf & _); [vm_compute; reflexivity|split; [vm_compute; discriminate|reflexivity]..|].
  exists d'.
  assert (new_demand initialDemand initialBytesPerSecond
    ((initialLastUpdateTime + 864000) -u64 initialLastUpdateTime) 1000000 = 1000000) as Hd' by (vm_compute; reflexivity).
  rewrite Hd' in R, Hf.
  assert (data_price initialMinPrice initialInertia 1000000 1000000 = 86900461000000) as Hc by (vm_compute; reflexivity).
  rewrite Hc in R. auto.
Defined.
