(* ===== verification/StylusParams.v ===== *)
(** * arbos/programs/params.go: the Stylus parameters in one word of storage

    [Save] packs the fields into consecutive 32-byte words, [Params] unpacks
    them with the same order and widths. What is proved: every parameter set
    survives the round trip, at any contents of the storage. *)
From Stdlib Require Import ZArith Lia String List.
From stdpp Require Import base list numbers.
From S2P Require Import Prelude Arbmath Host Storage StorageFacts MemEnv.
Open Scope Z_scope.

Definition MaxWasmSize : Z := 128 * 1024.
Definition initialStackDepth : Z := 4 * 65536.
Definition InitialFreePages : Z := 2.
Definition InitialPageGas : Z := 1000.
Definition initialPageRamp : Z := 620674314.
Definition initialPageLimit : Z := 128.
Definition initialInkPrice : Z := 10000.
Definition initialMinInitGas : Z := 0.
Definition initialMinCachedInitGas : Z := 0.
Definition initialExpiryDays : Z := 365.
Definition initialKeepaliveDays : Z := 31.
Definition initialRecentCacheSize : Z := 32.

Definition minCachedInitGasUnits : Z := 64.
Definition minInitGasUnits : Z := 256.

Record StylusParams := mkStylusParams {
  sp_backingStorage : option Storage;
  sp_Version : Z;
  sp_InkPrice : Z;
  sp_MaxStackDepth : Z;
  sp_FreePages : Z;
  sp_PageGas : Z;
  sp_PageRamp : Z;
  sp_PageLimit : Z;
  sp_MinInitGas : Z;
  sp_MinCachedInitGas : Z;
  sp_ExpiryDays : Z;
  sp_KeepaliveDays : Z;
  sp_BlockCacheSize : Z
}.

Definition paramsKey : list Z := [0].

Section Operations.
Context {E : Env}.

(** The closure [take] of [Params]: its captured variables [next] and [data]
    are threaded. *)
Definition Params_take (sto : Storage) (count : nat) (st : Z * list Z) : M (list Z * (Z * list Z)) :=
  let '(next, data) := st in
  let* (next, data) :=
    if Nat.ltb (length data) count then
      let* word := Storage_GetFree sto (UintToHash next) in
      ret (next +u64 1, Hash_Bytes word)
    else ret (next, data) in
  ret (firstn count data, (next, skipn count data)).

(** [p.Params()], on the backing storage of the programs. *)
Definition Params (backingStorage : Storage) : M StylusParams :=
  let sto := OpenCachedSubStorage backingStorage paramsKey in
  burn (1 * WarmStorageReadCostEIP2929) ;;;
  let take := Params_take sto in
  let* (b, st) := take 2%nat (0, []) in let* Version := lift (BytesToUint16 b) in
  let* (b, st) := take 3%nat st in let* InkPrice := lift (BytesToUint24 b) in
  let* (b, st) := take 4%nat st in let* MaxStackDepth := lift (BytesToUint32 b) in
  let* (b, st) := take 2%nat st in let* FreePages := lift (BytesToUint16 b) in
  let* (b, st) := take 2%nat st in let* PageGas := lift (BytesToUint16 b) in
  let* (b, st) := take 8%nat st in let* PageRamp := lift (BytesToUint b) in
  let* (b, st) := take 2%nat st in let* PageLimit := lift (BytesToUint16 b) in
  let* (b, st) := take 1%nat st in let* MinInitGas := lift (BytesToUint8 b) in
  let* (b, st) := take 1%nat st in let* MinCachedInitGas := lift (BytesToUint8 b) in
  let* (b, st) := take 2%nat st in let* ExpiryDays := lift (BytesToUint16 b) in
  let* (b, st) := take 2%nat st in let* KeepaliveDays := lift (BytesToUint16 b) in
  let* (b, st) := take 2%nat st in let* BlockCacheSize := lift (BytesToUint16 b) in
  ret (mkStylusParams (Some sto) Version InkPrice MaxStackDepth FreePages PageGas PageRamp PageLimit
         MinInitGas MinCachedInitGas ExpiryDays KeepaliveDays BlockCacheSize).

(** The loop of [Save] over the remaining data; each round stores at least one
    byte, so the length of the data is enough fuel. *)
Fixpoint Save_loop (fuel : nat) (sto : Storage) (slot : Z) (data : list Z) : M unit :=
  match fuel, data with
  | _, [] => ret tt
  | O, _ => panic "unreachable"
  | S fuel, _ =>
      let next := Z.to_nat (MinInt 32 (Z.of_nat (length data))) in
      let info := firstn next data in
      let data := skipn next data in
      let word := be (info ++ repeat 0 (32 - length info)) in
      Storage_SetByUint64 sto slot word ;;;
      Save_loop fuel sto (slot +u64 1) data
  end.

Definition Save (p : StylusParams) : M unit :=
  match sp_backingStorage p with
  | None => fail (ErrNew "invalid StylusParams")
  | Some sto =>
      let data := ConcatByteSlices [
        Uint16ToBytes (sp_Version p);
        Uint24ToBytes (sp_InkPrice p);
        Uint32ToBytes (sp_MaxStackDepth p);
        Uint16ToBytes (sp_FreePages p);
        Uint16ToBytes (sp_PageGas p);
        UintToBytes (sp_PageRamp p);
        Uint16ToBytes (sp_PageLimit p);
        Uint8ToBytes (sp_MinInitGas p);
        Uint8ToBytes (sp_MinCachedInitGas p);
        Uint16ToBytes (sp_ExpiryDays p);
        Uint16ToBytes (sp_KeepaliveDays p);
        Uint16ToBytes (sp_BlockCacheSize p)] in
      Save_loop (length data) sto 0 data
  end.

Definition initStylusParams (sto : Storage) : M unit :=
  ignore (Save (mkStylusParams (Some sto) 1 initialInkPrice initialStackDepth InitialFreePages InitialPageGas
    initialPageRamp initialPageLimit initialMinInitGas initialMinCachedInitGas initialExpiryDays
    initialKeepaliveDays initialRecentCacheSize)).
End Operations.

(** The fields fit their types. *)
Definition params_ok (p : StylusParams) : Prop :=
  in_u 16 (sp_Version p) /\ in_u 24 (sp_InkPrice p) /\ in_u 32 (sp_MaxStackDepth p) /\
  in_u 16 (sp_FreePages p) /\ in_u 16 (sp_PageGas p) /\ in_u 64 (sp_PageRamp p) /\
  in_u 16 (sp_PageLimit p) /\ in_u 8 (sp_MinInitGas p) /\ in_u 8 (sp_MinCachedInitGas p) /\
  in_u 16 (sp_ExpiryDays p) /\ in_u 16 (sp_KeepaliveDays p) /\ in_u 16 (sp_BlockCacheSize p).

(** The bytes [Save] writes, and the word they make. *)
Definition params_bytes (p : StylusParams) : list Z :=
  be_bytes 2 (sp_Version p) ++ be_bytes 3 (sp_InkPrice p) ++ be_bytes 4 (sp_MaxStackDepth p) ++
  be_bytes 2 (sp_FreePages p) ++ be_bytes 2 (sp_PageGas p) ++ be_bytes 8 (sp_PageRamp p) ++
  be_bytes 2 (sp_PageLimit p) ++ be_bytes 1 (sp_MinInitGas p) ++ be_bytes 1 (sp_MinCachedInitGas p) ++
  be_bytes 2 (sp_ExpiryDays p) ++ be_bytes 2 (sp_KeepaliveDays p) ++ be_bytes 2 (sp_BlockCacheSize p).

Definition params_word (p : StylusParams) : Z := be (params_bytes p ++ [0]).

Lemma length_params_bytes p : length (params_bytes p) = 31%nat.
Proof. unfold params_bytes. rewrite !length_app, !length_be_bytes. reflexivity. Qed.

Lemma params_bytes_is_byte p : Forall is_byte (params_bytes p).
Proof. unfold params_bytes. rewrite !Forall_app. repeat split; apply be_bytes_is_byte. Qed.

Lemma be_bytes_1 v : in_u 8 v -> be_bytes 1 v = [v].
Proof. unfold in_u. intros H. cbn [be_bytes app]. rewrite Z.mod_small by lia. reflexivity. Qed.

Section Facts.
Context {E : Env} {EL : EnvLaws E}.

Lemma Save_loop_S fuel sto slot data : data <> [] ->
  Save_loop (S fuel) sto slot data =
    let next := Z.to_nat (MinInt 32 (Z.of_nat (length data))) in
    let info := firstn next data in
    Storage_SetByUint64 sto slot (be (info ++ repeat 0 (32 - length info))) ;;;
    Save_loop fuel sto (slot +u64 1) (skipn next data).
Proof. destruct data; [contradiction|reflexivity]. Qed.

Lemma Save_runs p sto d : params_ok p -> sp_backingStorage p = Some sto ->
  runs 20000 (Save p) d (Ok tt) (slot_set d (skey sto 0) (params_word p)).
Proof.
  intros Hp Hs. unfold Save. rewrite Hs.
  match goal with |- context [ConcatByteSlices ?l] => assert (ConcatByteSlices l = params_bytes p) as -> end.
  { rewrite ConcatByteSlices_concat. cbn [concat]. rewrite app_nil_r. unfold params_bytes, params_ok in *.
    rewrite !be_bytes_1 by tauto. rewrite Uint24ToBytes_eq. reflexivity. }
  pose proof (length_params_bytes p) as Hl. cbv zeta. rewrite Hl, Save_loop_S by (intros H; rewrite H in Hl; discriminate).
  cbv zeta. rewrite Hl. change (Z.to_nat (MinInt 32 (Z.of_nat 31))) with 31%nat.
  rewrite firstn_all2, skipn_all2 by lia. rewrite Hl. change 20000 with (20000 + 0).
  eapply runs_bind; [apply Storage_SetByUint64_runs; unfold in_u; lia|]. apply runs_ret.
Qed.

(** A field of [n] bytes that is still in the word read last. *)
Lemma Params_take_rest sto n v rest next d :
  runs 0 (Params_take sto n (next, be_bytes n v ++ rest)) d (Ok (be_bytes n v, (next, rest))) d.
Proof.
  unfold Params_take. rewrite length_app, length_be_bytes.
  rewrite (proj2 (Nat.ltb_ge _ _)) by lia. change 0 with (0 + 0).
  eapply runs_bind; [apply runs_ret|]. cbv beta iota.
  rewrite take_app_length', drop_app_length' by (rewrite length_be_bytes; reflexivity). apply runs_ret.
Qed.

(** The first field loads the word. *)
Lemma Params_take_first sto n v rest d :
  Hash_Bytes (slot_get d (skey sto 0)) = be_bytes (S n) v ++ rest ->
  runs 0 (Params_take sto (S n) (0, [])) d (Ok (be_bytes (S n) v, (1, rest))) d.
Proof.
  intros H. unfold Params_take. change (Nat.ltb (length []) (S n)) with true. cbv iota. change 0 with (0 + 0) at 1.
  change 0 with (0 + 0) at 1.
  eapply runs_bind.
  - eapply runs_bind; [apply Storage_GetFree_runs|]. rewrite (UintToHash_id 0) by (unfold in_u; lia). rewrite H.
    apply runs_ret.
  - cbv beta iota.
    rewrite take_app_length', drop_app_length' by (rewrite length_be_bytes; reflexivity). apply runs_ret.
Qed.

Lemma BytesToUint16_bytes v : in_u 16 v -> BytesToUint16 (be_bytes 2 v) = Ok v.
Proof.
  intros H. rewrite <- (app_nil_r (be_bytes 2 v)). unfold BytesToUint16. rewrite BigEndian_read_bytes.
  f_equal. apply Z.mod_small. exact H.
Qed.

Lemma BytesToUint24_id v : in_u 24 v -> BytesToUint24 (be_bytes 3 v) = Ok v.
Proof.
  intros H. rewrite <- (app_nil_r (be_bytes 3 v)). rewrite BytesToUint24_bytes.
  f_equal. apply Z.mod_small. exact H.
Qed.

Lemma BytesToUint32_bytes v : in_u 32 v -> BytesToUint32 (be_bytes 4 v) = Ok v.
Proof.
  intros H. rewrite <- (app_nil_r (be_bytes 4 v)). unfold BytesToUint32. rewrite BigEndian_read_bytes.
  f_equal. apply Z.mod_small. exact H.
Qed.

Lemma BytesToUint_bytes v : in_u 64 v -> BytesToUint (be_bytes 8 v) = Ok v.
Proof.
  intros H. rewrite <- (app_nil_r (be_bytes 8 v)). unfold BytesToUint. rewrite BigEndian_read_bytes.
  f_equal. apply Z.mod_small. exact H.
Qed.

Lemma BytesToUint8_bytes v : in_u 8 v -> BytesToUint8 (be_bytes 1 v) = Ok v.
Proof. intros H. rewrite be_bytes_1 by exact H. reflexivity. Qed.

Ltac take_field lem :=
  eapply runs_bind_free; [apply Params_take_rest|]; cbv beta iota;
  eapply runs_bind_free; [rewrite lem by assumption; apply runs_lift|]; cbv beta.

Lemma Params_runs bs p d : params_ok p ->
  let sto := OpenCachedSubStorage bs paramsKey in
  slot_get d (skey sto 0) = params_word p -> sp_backingStorage p = Some sto ->
  runs 100 (Params bs) d (Ok p) d.
Proof.
  intros (H1 & H2 & H3 & H4 & H5 & H6 & H7 & H8 & H9 & H10 & H11 & H12) sto Hw Hs.
  unfold Params. fold sto. change 100 with (100 + 0).
  eapply runs_bind; [apply runs_burn; vm_compute; discriminate|].
  assert (Hash_Bytes (slot_get d (skey sto 0)) = params_bytes p ++ [0]) as Hb.
  { rewrite Hw. unfold Hash_Bytes, params_word. apply be_bytes_be.
    - rewrite length_app, length_params_bytes. reflexivity.
    - apply Forall_app. split; [apply params_bytes_is_byte|]. repeat constructor; lia. }
  unfold params_bytes in Hb. rewrite <- !app_assoc in Hb.
  eapply runs_bind_free; [apply Params_take_first, Hb|]. cbv beta iota.
  eapply runs_bind_free; [rewrite BytesToUint16_bytes by assumption; apply runs_lift|]. cbv beta.
  take_field BytesToUint24_id. take_field BytesToUint32_bytes. take_field BytesToUint16_bytes.
  take_field BytesToUint16_bytes. take_field BytesToUint_bytes. take_field BytesToUint16_bytes.
  take_field BytesToUint8_bytes. take_field BytesToUint8_bytes. take_field BytesToUint16_bytes.
  take_field BytesToUint16_bytes. take_field BytesToUint16_bytes.
  destruct p; cbn in *. rewrite Hs. apply runs_ret.
Qed.
End Facts.

#[local] Existing Instance TestEnv.

(** parameters that are saved are read back unchanged, whatever the storage
    held before, and saving writes only the one word of the parameters. *)
Theorem Params_Save_roundtrip {E : Env} {EL : EnvLaws E} (bs : Storage) (p : StylusParams) (d : DB) :
  params_ok p -> sp_backingStorage p = Some (OpenCachedSubStorage bs paramsKey) ->
  exists d', runs 20100 (Save p ;;; Params bs) d (Ok p) d' /\
    frame (eq (skey (OpenCachedSubStorage bs paramsKey) 0)) d d'.
Proof.
  intros Hp Hs. eexists. split.
  - change 20100 with (20000 + 100). eapply runs_bind; [eapply Save_runs; eauto|].
    apply Params_runs; auto. apply slot_get_set_eq.
  - apply frame_set. reflexivity.
Qed.

Lemma Params_Save_roundtrip_witness :
  let bs := mkStorage 1 [7] false in
  let p := mkStylusParams (Some (OpenCachedSubStorage bs paramsKey)) 1 initialInkPrice initialStackDepth
    InitialFreePages InitialPageGas initialPageRamp initialPageLimit initialMinInitGas initialMinCachedInitGas
    initialExpiryDays initialKeepaliveDays initialRecentCacheSize in
  exists d', runs 20100 (Save p ;;; Params bs) test_db (Ok p) d' /\
    frame (eq (skey (OpenCachedSubStorage bs paramsKey) 0)) test_db d'.
Proof.
  intros bs p. apply (Params_Save_roundtrip bs p test_db); [|reflexivity].
  repeat split; vm_compute; discriminate || reflexivity.
Defined.
