(* ===== verification/Programs.v ===== *)
(** * arbos/programs: programs.go and native.go

    The registry of Stylus programs: activation, expiry, keepalive, caching and
    calls. The state database of the execution client, brotli and the native
    Stylus library are the class [StylusEnv]; what is proved about the registry
    is in ProgramsFacts.v. *)
From Stdlib Require Import ZArith Lia String List.
From stdpp Require Import base list numbers.
From S2P Require Import Prelude Arbmath Host Storage AddressSet MemoryModel DataPricer StylusParams.
Open Scope Z_scope.

(** What [stylus_activate] of the native library returns through its pointers. *)
Record StylusActivation := mkStylusActivation {
  sa_status : Z; sa_output : list Z; sa_asmLen : Z; sa_moduleHash : Z;
  sa_init_gas : Z; sa_cached_init_gas : Z; sa_asm_estimate : Z; sa_footprint : Z;
  sa_gasLeft : Z
}.

Record Programs := mkPrograms {
  pg_backingStorage : Storage;
  pg_programs : Storage;
  pg_moduleHashes : Storage;
  pg_dataPricer : DataPricer;
  pg_cacheManagers : AddressSet
}.

Record Program := mkProgram {
  pr_version : Z;
  pr_initGas : Z;
  pr_cachedInitGas : Z;
  pr_footprint : Z;
  pr_asmEstimateKb : Z;   (* uint24 *)
  pr_activatedAt : Z;     (* uint24 *)
  pr_ageSeconds : Z;      (* not stored *)
  pr_cached : bool
}.

Record goParams := mkgoParams { gp_version : Z; gp_maxDepth : Z; gp_inkPrice : Z; gp_debugMode : bool }.

Record evmData := mkevmData {
  ed_blockBasefee : Z; ed_chainId : Z; ed_blockCoinbase : Z; ed_blockGasLimit : Z; ed_blockNumber : Z;
  ed_blockTimestamp : Z; ed_contractAddress : Z; ed_moduleHash : Z; ed_msgSender : Z; ed_msgValue : Z;
  ed_txGasPrice : Z; ed_txOrigin : Z; ed_reentrant : Z; ed_cached : bool; ed_tracing : bool
}.

Record activationInfo := mkactivationInfo {
  ai_moduleHash : Z; ai_initGas : Z; ai_cachedInitGas : Z; ai_asmEstimate : Z; ai_footprint : Z
}.

(** The fields of [vm.Contract], of the block and of the transaction that a
    call reads. *)
Record Contract := mkContract {
  ct_CodeHash : Z; ct_Address : Z; ct_Caller : Z; ct_Value : Z; ct_CodeAddr : option Z
}.
Record EvmContext := mkEvmContext {
  ec_Time : Z; ec_BaseFee : Z; ec_Coinbase : Z; ec_GasLimit : Z; ec_ChainID : Z;
  ec_GasPrice : Z; ec_Origin : Z; ec_DebugMode : bool
}.

(** [core.MessageRunMode] *)
Inductive MessageRunMode := MessageCommitMode | MessageGasEstimationMode | MessageEthcallMode.

(** The execution client, [arbcompress.DecompressWithDictionary] (brotli) and
    the native library. The client's database also stands for the state of the
    library's module cache. *)
Class StylusEnv (E : Env) := {
  HasSelfDestructed : DB -> Z -> bool;
  GetCode : DB -> Z -> option (list Z);
  StripStylusPrefix : list Z -> outcome (list Z * Z);
  DecompressWithDictionary : list Z -> Z -> Z -> outcome (list Z);
  GetStylusPages : DB -> Z * Z;
  GetStylusPagesOpen : DB -> Z;
  AddStylusPages : DB -> Z -> DB;
  SetStylusPagesOpen : DB -> Z -> DB;
  RecentWasms_Insert : DB -> Z -> Z -> bool * DB;
  BurnGas : Z -> Z -> outcome unit * Z;
  ActivateWasm : DB -> Z -> list Z -> list Z -> DB;
  GetActivatedAsm : DB -> Z -> list Z;
  RecordProgram : DB -> Z -> DB;
  CacheWasmRust : DB -> list Z -> Z -> Z -> bool -> DB;
  RecordCacheWasm : DB -> Z -> Z -> bool -> DB;
  EvictWasmRust : DB -> Z -> Z -> bool -> DB;
  RecordEvictWasm : DB -> Z -> Z -> bool -> DB;
  stylus_activate : list Z -> Z -> Z -> bool -> Z -> StylusActivation;
  stylus_call : list Z -> list Z -> goParams -> evmData -> MemoryModel -> bool -> Z -> DB -> (Z * list Z * Z) * DB
}.

Definition programDataKey : list Z := [1].
Definition moduleHashesKey : list Z := [2].
Definition dataPricerKey : list Z := [3].
Definition cacheManagersKey : list Z := [4].

Definition ErrProgramActivation : error := ErrNew "program activation failed".
Definition ProgramNotWasmError : error := ErrSolidity "ProgramNotWasm" [].
Definition ProgramNotActivatedError : error := ErrSolidity "ProgramNotActivated" [].
Definition ProgramNeedsUpgradeError (version stylusVersion : Z) : error :=
  ErrSolidity "ProgramNeedsUpgrade" [version; stylusVersion].
Definition ProgramExpiredError (age : Z) : error := ErrSolidity "ProgramExpired" [age].
Definition ProgramUpToDateError : error := ErrSolidity "ProgramUpToDate" [].
Definition ProgramKeepaliveTooSoon (age : Z) : error := ErrSolidity "ProgramKeepaliveTooSoon" [age].

(** [data[from:to]] *)
Definition sub_slice (from to : nat) (data : list Z) : list Z := firstn (to - from) (skipn from data).

Definition userSuccess : Z := 0.
Definition userRevert : Z := 1.
Definition userFailure : Z := 2.
Definition userOutOfInk : Z := 3.
Definition userOutOfStack : Z := 4.

(** The data and the error; the message, which is only logged or appended to
    the text of an error, is left out. *)
Definition toResult (status : Z) (data : list Z) : list Z * option error :=
  if status =? userSuccess then (data, None)
  else if status =? userRevert then (data, Some ErrExecutionReverted)
  else if status =? userFailure then ([], Some ErrExecutionReverted)
  else if status =? userOutOfInk then ([], Some ErrOutOfGas)
  else if status =? userOutOfStack then ([], Some ErrDepth)
  else ([], Some ErrExecutionReverted).

Definition hoursSinceArbitrum (time : Z) : Z := uwrap 32 ((time -u64 lastUpdateTimeOffset) / 3600).

Definition hoursToAge (time hours : Z) : Z :=
  let seconds := SaturatingUMul 64 hours 3600 in
  let activatedAt := SaturatingUAdd 64 lastUpdateTimeOffset seconds in
  SaturatingUSub 64 time activatedAt.

Definition asmSize (p : Program) : Z := SaturatingUMul 32 (pr_asmEstimateKb p) 1024.

Definition goParams_of (version : Z) (debug : bool) (params : StylusParams) : goParams :=
  mkgoParams version (sp_MaxStackDepth params) (sp_InkPrice params) debug.

Section Operations.
Context {E : Env} {SE : StylusEnv E}.

Definition Programs_Initialize (sto : Storage) : M unit :=
  initStylusParams (OpenSubStorage sto paramsKey) ;;;
  initDataPricer (OpenSubStorage sto dataPricerKey) ;;;
  ignore (AddressSet_Initialize (OpenCachedSubStorage sto cacheManagersKey)).

Definition Programs_Open (sto : Storage) : Programs :=
  mkPrograms sto (OpenSubStorage sto programDataKey) (OpenSubStorage sto moduleHashesKey)
    (openDataPricer (OpenCachedSubStorage sto dataPricerKey))
    (OpenAddressSet (OpenCachedSubStorage sto cacheManagersKey)).

(** ** native.go *)

Definition activateProgram (wasm : list Z) (page_limit version : Z) (debug : bool) : M activationInfo :=
  let* gas := gas_left in
  let r := stylus_activate wasm page_limit version debug gas in
  store_gas_left (sa_gasLeft r) ;;;
  let '(data, err) := toResult (sa_status r) (sa_output r) in
  match err with
  | Some ErrExecutionReverted => fail ErrProgramActivation
  | Some err => fail err
  | None =>
      let hash := sa_moduleHash r in
      let split := Z.to_nat (sa_asmLen r) in
      let asm := firstn split data in
      let module := skipn split data in
      let info := mkactivationInfo hash (uwrap 16 (sa_init_gas r)) (uwrap 16 (sa_cached_init_gas r))
        (uwrap 32 (sa_asm_estimate r)) (uwrap 16 (sa_footprint r)) in
      (if Nat.ltb (length data) split then panic "slice bounds out of range"
       else db_write (fun d => ActivateWasm d hash asm module)) ;;;
      ret info
  end.

Definition cacheProgram (module version : Z) (debug : bool) (runMode : MessageRunMode) : M unit :=
  match runMode with
  | MessageCommitMode =>
      db_write (fun d => RecordCacheWasm (CacheWasmRust d (GetActivatedAsm d module) module version debug)
                           module version debug)
  | _ => ret tt
  end.

Definition evictProgram (module version : Z) (debug : bool) (runMode : MessageRunMode) (forever : bool) : M unit :=
  match runMode with
  | MessageCommitMode =>
      db_write (fun d => let d := EvictWasmRust d module version debug in
                         if forever then d else RecordEvictWasm d module version debug)
  | _ => ret tt
  end.

(** The data, the error, and what is left of [scope.Contract.Gas]. *)
Definition callProgram (moduleHash : Z) (calldata : list Z) (evmData : evmData) (stylusParams : goParams)
  (memoryModel : MemoryModel) (gas : Z) : M (list Z * option error * Z) :=
  let debug := gp_debugMode stylusParams in
  let* asm := db_read (fun d => GetActivatedAsm d moduleHash) in
  db_write (fun d => RecordProgram d moduleHash) ;;;
  let* (status, output, gas) :=
    db_call (fun d => stylus_call asm calldata stylusParams evmData memoryModel debug gas d) in
  ret (toResult status output, gas).

(** ** programs.go *)

Definition getWasm (program : Z) : M (list Z) :=
  let* prefixedWasm := db_read (fun d => GetCode d program) in
  match prefixedWasm with
  | None => fail ProgramNotWasmError
  | Some prefixedWasm =>
      let* (wasm, dictByte) := lift (StripStylusPrefix prefixedWasm) in
      let* dict :=
        if dictByte =? 0 then ret 0
        else if dictByte =? 1 then ret 1
        else fail (ErrNew "unsupported dictionary") in
      lift (DecompressWithDictionary wasm MaxWasmSize dict)
  end.

Definition getProgram (p : Programs) (codeHash time : Z) : M Program :=
  let* data := Storage_Get (pg_programs p) codeHash in
  let data := Hash_Bytes data in
  let* version := lift (BytesToUint16 (sub_slice 0 2 data)) in
  let* initGas := lift (BytesToUint16 (sub_slice 2 4 data)) in
  let* cachedInitGas := lift (BytesToUint16 (sub_slice 4 6 data)) in
  let* footprint := lift (BytesToUint16 (sub_slice 6 8 data)) in
  let* activatedAt := lift (BytesToUint24 (sub_slice 8 11 data)) in
  let* asmEstimateKb := lift (BytesToUint24 (sub_slice 11 14 data)) in
  let* cached := lift (BytesToBool (sub_slice 14 15 data)) in
  ret (mkProgram version initGas cachedInitGas footprint asmEstimateKb activatedAt
         (hoursToAge time activatedAt) cached).

Definition getActiveProgram (p : Programs) (codeHash time : Z) (params : StylusParams) : M Program :=
  let* program := getProgram p codeHash time in
  if pr_version program =? 0 then fail ProgramNotActivatedError
  else
    let stylusVersion := sp_Version params in
    if negb (pr_version program =? stylusVersion)
    then fail (ProgramNeedsUpgradeError (pr_version program) stylusVersion)
    else if DaysToSeconds (sp_ExpiryDays params) <? pr_ageSeconds program
    then fail (ProgramExpiredError (pr_ageSeconds program))
    else ret program.

(** The copies into the 32-byte array [data] fill it from the left. *)
Definition setProgram (p : Programs) (codehash : Z) (program : Program) : M unit :=
  let data :=
    Uint16ToBytes (pr_version program) ++ Uint16ToBytes (pr_initGas program) ++
    Uint16ToBytes (pr_cachedInitGas program) ++ Uint16ToBytes (pr_footprint program) ++
    Uint24ToBytes (pr_activatedAt program) ++ Uint24ToBytes (pr_asmEstimateKb program) ++
    BoolToBytes (pr_cached program) in
  Storage_Set (pg_programs p) codehash (be (data ++ repeat 0 (32 - length data))).

Definition programExists (p : Programs) (codeHash time : Z) (params : StylusParams) : M (Z * bool * bool) :=
  let* program := getProgram p codeHash time in
  let activatedAt := pr_activatedAt program in
  let expired := (activatedAt =? 0) || (DaysToSeconds (sp_ExpiryDays params) <? hoursToAge time activatedAt) in
  ret (pr_version program, expired, pr_cached program).

(** The results of an activation: version, code hash, module hash, data fee,
    whether the caller takes all gas, and the error. *)
Definition ActivateProgram (p : Programs) (time address : Z) (runMode : MessageRunMode) (debugMode : bool)
  : M (Z * Z * Z * option Z * bool * option error) :=
  let* codeHash := db_read (fun d => GetCodeHash d address) in
  let fails takeAllGas err := ret (0, codeHash, 0, None, takeAllGas, Some err) in
  let* selfDestructed := db_read (fun d => HasSelfDestructed d address) in
  if (selfDestructed : bool) then fails false (ErrNew "self destructed")
  else
  catch (Params (pg_backingStorage p)) (fails false) (fun params =>
  let stylusVersion := sp_Version params in
  catch (programExists p codeHash time params) (fails false) (fun '(currentVersion, expired, cached) =>
  if (currentVersion =? stylusVersion) && negb expired then fails false ProgramUpToDateError
  else
  catch (getWasm address) (fails false) (fun wasm =>
  let* pagesOpen := db_read GetStylusPagesOpen in
  let pageLimit := SaturatingUSub 16 (sp_PageLimit params) pagesOpen in
  catch (activateProgram wasm pageLimit stylusVersion debugMode) (fails true) (fun info =>
  catch
    (if (cached : bool) then
       let* oldModuleHash := Storage_Get (pg_moduleHashes p) codeHash in
       evictProgram oldModuleHash currentVersion debugMode runMode expired ;;;
       cacheProgram (ai_moduleHash info) stylusVersion debugMode runMode
     else ret tt) (fails true) (fun _ =>
  catch (Storage_Set (pg_moduleHashes p) codeHash (ai_moduleHash info)) (fails true) (fun _ =>
  let* kb := lift (DivCeil 32 (ai_asmEstimate info) 1024) in
  match IntToUint24 kb with
  | (_, Some err) => fails true err
  | (estimateKb, None) =>
      catch (UpdateModel (pg_dataPricer p) (ai_asmEstimate info) time) (fails true) (fun dataFee =>
      let programData := mkProgram stylusVersion (ai_initGas info) (ai_cachedInitGas info) (ai_footprint info)
        estimateKb (hoursSinceArbitrum time) 0 cached in
      let* r := attempt (setProgram p codeHash programData) in
      ret (stylusVersion, codeHash, ai_moduleHash info, Some dataFee, false,
           match r with Err e => Some e | _ => None end))
  end)))))).

(** The data, the error, and what is left of the contract's gas. *)
Definition CallProgram (p : Programs) (contract : Contract) (ec : EvmContext) (l1BlockNumber : M Z)
  (tracing : bool) (calldata : list Z) (reentrant : bool) (gas : Z) : M (list Z * option error * Z) :=
  let fails err := ret ([], Some err, gas) in
  let codeHash := ct_CodeHash contract in
  let debugMode := ec_DebugMode ec in
  catch (Params (pg_backingStorage p)) fails (fun params =>
  catch (getActiveProgram p codeHash (ec_Time ec) params) fails (fun program =>
  catch (Storage_Get (pg_moduleHashes p) codeHash) fails (fun moduleHash =>
  let goParams := goParams_of (pr_version program) debugMode params in
  catch l1BlockNumber fails (fun l1BlockNumber =>
  let* (open, ever) := db_read GetStylusPages in
  let model := NewMemoryModel (sp_FreePages params) (sp_PageGas params) in
  let callCost := MemoryModel_GasCost model (pr_footprint program) open ever in
  let* cached :=
    if pr_cached program then ret true
    else db_call (fun d => RecentWasms_Insert d codeHash (sp_BlockCacheSize params)) in
  let callCost :=
    if (cached : bool) then
      SaturatingUAdd 64 (SaturatingUAdd 64 callCost (minCachedInitGasUnits *u64 sp_MinCachedInitGas params))
        (pr_cachedInitGas program)
    else
      SaturatingUAdd 64 (SaturatingUAdd 64 callCost (minInitGasUnits *u64 sp_MinInitGas params))
        (pr_initGas program) in
  match BurnGas gas callCost with
  | (Err err, gas) => ret ([], Some err, gas)
  | (Panic s, _) => panic s
  | (Ok _, gas) =>
      db_write (fun d => AddStylusPages d (pr_footprint program)) ;;;
      defer (fun d => SetStylusPagesOpen d open)
        (let evmData := mkevmData (BigToHash (ec_BaseFee ec)) (u64 (ec_ChainID ec)) (ec_Coinbase ec) (ec_GasLimit ec)
           l1BlockNumber (ec_Time ec) (ct_Address contract) moduleHash (ct_Caller contract)
           (BigToHash (ct_Value contract)) (BigToHash (ec_GasPrice ec)) (ec_Origin ec) (BoolToUint32 reentrant)
           (pr_cached program) tracing in
         callProgram moduleHash calldata evmData goParams model gas)
  end)))).

Definition ProgramKeepalive (p : Programs) (codeHash time : Z) (params : StylusParams) : M Z :=
  let* program := getActiveProgram p codeHash time params in
  if pr_ageSeconds program <? DaysToSeconds (sp_KeepaliveDays params)
  then fail (ProgramKeepaliveTooSoon (pr_ageSeconds program))
  else
    let stylusVersion := sp_Version params in
    if negb (pr_version program =? stylusVersion)
    then fail (ProgramNeedsUpgradeError (pr_version program) stylusVersion)
    else
      let* dataFee := UpdateModel (pg_dataPricer p) (asmSize program) time in
      setProgram p codeHash (mkProgram (pr_version program) (pr_initGas program) (pr_cachedInitGas program)
        (pr_footprint program) (pr_asmEstimateKb program) (hoursSinceArbitrum time) (pr_ageSeconds program)
        (pr_cached program)) ;;;
      ret dataFee.

Definition ProgramCached (p : Programs) (codeHash : Z) : M bool :=
  let* data := Storage_Get (pg_programs p) codeHash in
  lift (BytesToBool (sub_slice 14 15 (Hash_Bytes data))).

Definition SetProgramCached (p : Programs) (emitEvent : M unit) (codeHash : Z) (cache : bool) (time : Z)
  (params : StylusParams) (runMode : MessageRunMode) (debug : bool) : M unit :=
  let* program := getProgram p codeHash time in
  let expired := DaysToSeconds (sp_ExpiryDays params) <? pr_ageSeconds program in
  if (pr_version program =? 0) && cache then fail (ProgramNeedsUpgradeError 0 (sp_Version params))
  else if expired && cache then fail (ProgramExpiredError (pr_ageSeconds program))
  else if Bool.eqb (pr_cached program) cache then ret tt
  else
    emitEvent ;;;
    burn (pr_initGas program) ;;;
    let* moduleHash := Storage_Get (pg_moduleHashes p) codeHash in
    (if cache then cacheProgram moduleHash (pr_version program) debug runMode
     else evictProgram moduleHash (pr_version program) debug runMode expired) ;;;
    setProgram p codeHash (mkProgram (pr_version program) (pr_initGas program) (pr_cachedInitGas program)
      (pr_footprint program) (pr_asmEstimateKb program) (pr_activatedAt program) (pr_ageSeconds program) cache).

Definition ProgramTimeLeft (p : Programs) (codeHash time : Z) (params : StylusParams) : M Z :=
  let* program := getActiveProgram p codeHash time params in
  let age := hoursToAge time (pr_activatedAt program) in
  let expirySeconds := DaysToSeconds (sp_ExpiryDays params) in
  if expirySeconds <? age then fail (ProgramExpiredError age)
  else ret (SaturatingUSub 64 expirySeconds age).

End Operations.
