(* ===== verification/ProgramsFacts.v ===== *)
(** * The registry of Stylus programs: activation, expiry, calls

    The program table as an abstract state: one record per code hash, the
    module hashes, the parameters and the data pricer. What is proved: the
    encoding of a program in one word, that an activation makes a program
    callable until it expires, that a keepalive renews it, what the cache flag
    does and what a call is charged. The witnesses run in a concrete client: a
    metered burner, an in-memory database and a native library that activates
    every program for 1000 gas. *)
From Stdlib Require Import ZArith Lia String List.
From stdpp Require Import base list numbers gmap.
From S2P Require Import Prelude Arbmath Host Storage StorageFacts Refine MemEnv AddressSet MemoryModel DataPricer StylusParams Programs.
Open Scope Z_scope.

(** ** The word of a program *)

Definition program_ok (p : Program) : Prop :=
  in_u 16 (pr_version p) /\ in_u 16 (pr_initGas p) /\ in_u 16 (pr_cachedInitGas p) /\ in_u 16 (pr_footprint p) /\
  in_u 24 (pr_asmEstimateKb p) /\ in_u 24 (pr_activatedAt p).

Definition program_bytes (p : Program) : list Z :=
  be_bytes 2 (pr_version p) ++ be_bytes 2 (pr_initGas p) ++ be_bytes 2 (pr_cachedInitGas p) ++
  be_bytes 2 (pr_footprint p) ++ be_bytes 3 (pr_activatedAt p) ++ be_bytes 3 (pr_asmEstimateKb p) ++
  be_bytes 1 (if pr_cached p then 1 else 0).

Definition program_word (p : Program) : Z := be (program_bytes p ++ repeat 0 17).

Definition program_decode (word time : Z) : Program :=
  let data := be_bytes 32 word in
  let activatedAt := be (sub_slice 8 11 data) in
  mkProgram (be (sub_slice 0 2 data)) (be (sub_slice 2 4 data)) (be (sub_slice 4 6 data)) (be (sub_slice 6 8 data))
    (be (sub_slice 11 14 data)) activatedAt (hoursToAge time activatedAt) (negb (be (sub_slice 14 15 data) =? 0)).

(** The program as it is at another time. *)
Definition at_time (p : Program) (time : Z) : Program :=
  mkProgram (pr_version p) (pr_initGas p) (pr_cachedInitGas p) (pr_footprint p) (pr_asmEstimateKb p)
    (pr_activatedAt p) (hoursToAge time (pr_activatedAt p)) (pr_cached p).

Lemma length_program_bytes p : length (program_bytes p) = 15%nat.
Proof. unfold program_bytes. rewrite !length_app, !length_be_bytes. reflexivity. Qed.

Lemma program_word_bytes p : be_bytes 32 (program_word p) = program_bytes p ++ repeat 0 17.
Proof.
  unfold program_word. apply be_bytes_be.
  - rewrite length_app, length_program_bytes. reflexivity.
  - unfold program_bytes. rewrite !Forall_app. repeat split; try apply be_bytes_is_byte.
    repeat constructor; lia.
Qed.

Lemma program_decode_word p time : program_ok p -> program_decode (program_word p) time = at_time p time.
Proof.
  intros (H1 & H2 & H3 & H4 & H5 & H6). unfold in_u in *. unfold program_decode. rewrite program_word_bytes.
  assert (forall n v, 0 <= v < 256 ^ Z.of_nat n -> be (be_bytes n v) = v) as Hb
    by (intros; rewrite be_be_bytes; apply Z.mod_small; lia).
  unfold program_bytes.
  change (sub_slice 0 2 ?l) with (be_bytes 2 (pr_version p)).
  change (sub_slice 2 4 ?l) with (be_bytes 2 (pr_initGas p)).
  change (sub_slice 4 6 ?l) with (be_bytes 2 (pr_cachedInitGas p)).
  change (sub_slice 6 8 ?l) with (be_bytes 2 (pr_footprint p)).
  change (sub_slice 8 11 ?l) with (be_bytes 3 (pr_activatedAt p)).
  change (sub_slice 11 14 ?l) with (be_bytes 3 (pr_asmEstimateKb p)).
  change (sub_slice 14 15 ?l) with (be_bytes 1 (if pr_cached p then 1 else 0)).
  cbv zeta. rewrite !Hb by (try destruct (pr_cached p); cbn; lia).
  unfold at_time. destruct (pr_cached p); reflexivity.
Qed.

Lemma read_exact n l : length l = n -> BigEndian_read n l = Ok (be l).
Proof.
  intros <-. unfold BigEndian_read. rewrite Nat.leb_refl, firstn_all. reflexivity.
Qed.

Lemma read_uint24 l : length l = 3%nat -> BytesToUint24 l = Ok (be l).
Proof.
  intros H. unfold BytesToUint24. rewrite ConcatByteSlices_concat. cbn [concat]. rewrite app_nil_r.
  rewrite read_exact by (rewrite length_app, H; reflexivity). reflexivity.
Qed.

Lemma read_bool l : length l = 1%nat -> BytesToBool l = Ok (negb (be l =? 0)).
Proof. destruct l as [|b [|]]; try discriminate. intros _. reflexivity. Qed.

Lemma length_sub_slice a b w : (a <= b <= 32)%nat -> length (sub_slice a b (be_bytes 32 w)) = (b - a)%nat.
Proof. intros H. unfold sub_slice. rewrite length_firstn, length_skipn, length_be_bytes. lia. Qed.

(** ** Ages *)

Lemma DaysToSeconds_eq days : in_u 16 days -> DaysToSeconds days = days * 86400.
Proof.
  unfold DaysToSeconds, in_u. intros H.
  rewrite (uwrap_id 64 (days * 24)), (uwrap_id 64 (days * 24 * 60)), uwrap_id by (unfold in_u; lia). lia.
Qed.

(** Activation times are rounded down to full hours after the offset. *)
Lemma activation_hours t0 : 2 <= t0 < 3600 * 2 ^ 24 -> hoursSinceArbitrum t0 = (t0 - 2) / 3600 /\ in_u 24 ((t0 - 2) / 3600).
Proof.
  intros H. unfold hoursSinceArbitrum. change lastUpdateTimeOffset with 2.
  rewrite (uwrap_id 64) by (unfold in_u; lia).
  assert (in_u 24 ((t0 - 2) / 3600)) as Hr by (split; [apply Z.div_pos|apply Z.div_lt_upper_bound]; lia).
  split; [apply uwrap_id; unfold in_u in *; lia|exact Hr].
Qed.

Lemma age_after_activation t0 t : 2 <= t0 < 3600 * 2 ^ 24 -> t0 <= t < 2 ^ 64 ->
  hoursToAge t (hoursSinceArbitrum t0) = t - t0 + (t0 - 2) mod 3600.
Proof.
  intros H0 Ht. destruct (activation_hours t0 H0) as [-> Hr]. unfold hoursToAge, in_u in *.
  change lastUpdateTimeOffset with 2. pose proof (Z.div_mod (t0 - 2) 3600 ltac:(lia)) as Hdm.
  pose proof (Z.mod_pos_bound (t0 - 2) 3600 ltac:(lia)) as Hm.
  rewrite (SaturatingUMul_min 64) by (unfold in_u; lia). rewrite (Z.min_l (_ * _)) by lia.
  rewrite SaturatingUAdd_min by (unfold in_u; lia). rewrite Z.min_l by lia.
  rewrite SaturatingUSub_max by (unfold in_u; lia). lia.
Qed.

(** ** Outcomes of the checks *)

Lemma be_slice_range a b w : (a <= b <= 32)%nat -> 0 <= be (sub_slice a b (be_bytes 32 w)) < 256 ^ Z.of_nat (b - a).
Proof.
  intros H. rewrite <- (length_sub_slice a b w H). apply be_range. unfold sub_slice.
  apply Forall_take, Forall_drop, be_bytes_is_byte.
Qed.

(** Every word decodes to a well-formed program. *)
Lemma program_decode_ok w time : program_ok (program_decode w time).
Proof.
  exact (conj (be_slice_range 0 2 w ltac:(lia)) (conj (be_slice_range 2 4 w ltac:(lia))
    (conj (be_slice_range 4 6 w ltac:(lia)) (conj (be_slice_range 6 8 w ltac:(lia))
    (conj (be_slice_range 11 14 w ltac:(lia)) (be_slice_range 8 11 w ltac:(lia))))))).
Qed.

(** [getActiveProgram] on a decoded program. *)
Definition active_result (p : Program) (params : StylusParams) : outcome Program :=
  if pr_version p =? 0 then Err ProgramNotActivatedError
  else if negb (pr_version p =? sp_Version params) then Err (ProgramNeedsUpgradeError (pr_version p) (sp_Version params))
  else if sp_ExpiryDays params * 86400 <? pr_ageSeconds p then Err (ProgramExpiredError (pr_ageSeconds p))
  else Ok p.

(** A program activated at [t0]. *)
Definition activated_program (params : StylusParams) (initGas cachedInitGas asmKb footprint t0 : Z) (cached : bool) : Program :=
  mkProgram (sp_Version params) initGas cachedInitGas footprint asmKb (hoursSinceArbitrum t0) 0 cached.

(** The program with another activation time, or another cache flag. *)
Definition renewed (p : Program) (t : Z) : Program :=
  mkProgram (pr_version p) (pr_initGas p) (pr_cachedInitGas p) (pr_footprint p) (pr_asmEstimateKb p)
    (hoursSinceArbitrum t) (pr_ageSeconds p) (pr_cached p).
Definition with_cached (p : Program) (cached : bool) : Program :=
  mkProgram (pr_version p) (pr_initGas p) (pr_cachedInitGas p) (pr_footprint p) (pr_asmEstimateKb p)
    (pr_activatedAt p) (pr_ageSeconds p) cached.

(** The seconds since an activation at [t0], rounded up to its full hour. *)
Definition age_at (t0 t : Z) : Z := t - t0 + (t0 - 2) mod 3600.

Lemma renewed_ok p t : program_ok p -> 2 <= t < 3600 * 2 ^ 24 -> program_ok (renewed p t).
Proof.
  intros (H1 & H2 & H3 & H4 & H5 & H6) Ht. destruct (activation_hours t Ht) as [Hh Hr].
  repeat (split; [assumption|]). cbn. rewrite Hh. exact Hr.
Qed.

Lemma asmSize_range p : program_ok p -> in_u 32 (asmSize p).
Proof.
  intros (_ & _ & _ & _ & H & _). unfold asmSize, in_u in *. rewrite SaturatingUMul_min by (unfold in_u; lia). lia.
Qed.

(** ** The registry *)

Record pg_state := mkpg_state {
  g_word : Z -> Z;                (* the word of each program *)
  g_module : Z -> Z;              (* its module hash *)
  g_params : StylusParams;
  g_demand : Z; g_rate : Z; g_last : Z; g_minPrice : Z; g_inertia : Z
}.

Definition g_set_word (st : pg_state) (h w : Z) : pg_state :=
  mkpg_state (fupd (g_word st) h w) (g_module st) (g_params st) (g_demand st) (g_rate st) (g_last st)
    (g_minPrice st) (g_inertia st).
Definition g_set_module (st : pg_state) (h m : Z) : pg_state :=
  mkpg_state (g_word st) (fupd (g_module st) h m) (g_params st) (g_demand st) (g_rate st) (g_last st)
    (g_minPrice st) (g_inertia st).
Definition g_priced (st : pg_state) (bytes time : Z) : pg_state :=
  mkpg_state (g_word st) (g_module st) (g_params st)
    (new_demand (g_demand st) (g_rate st) (time -u64 g_last st) bytes) (g_rate st) time
    (g_minPrice st) (g_inertia st).
Definition g_fee (st : pg_state) (bytes time : Z) : Z :=
  data_price (g_minPrice st) (g_inertia st)
    (new_demand (g_demand st) (g_rate st) (time -u64 g_last st) bytes) bytes.

(** A program of the state at a time. *)
Definition g_program (st : pg_state) (h time : Z) : Program := program_decode (g_word st h) time.

Section Registry.
Context {E : Env} {EL : EnvLaws E} (sto : Storage) (U : list Z).

Notation s_params := (OpenCachedSubStorage sto paramsKey).
Notation s_programs := (OpenSubStorage sto programDataKey).
Notation s_modules := (OpenSubStorage sto moduleHashesKey).
Notation s_pricer := (OpenCachedSubStorage sto dataPricerKey).
Notation s_managers := (OpenCachedSubStorage sto cacheManagersKey).

(** The keys the registry uses: integers in the parameters, the pricer and the
    cache managers, the code hashes of [U] in the tables. *)
Definition pg_keys (sk : list Z) (k : Z) : Prop :=
  (sk ∈ [sto_storageKey s_params; sto_storageKey s_pricer; sto_storageKey s_managers] /\ in_u 64 k) \/
  (sk ∈ [sto_storageKey s_programs; sto_storageKey s_modules] /\ k ∈ U).

Definition pg_space : Prop :=
  NoDup [sto_storageKey s_params; sto_storageKey s_pricer; sto_storageKey s_programs; sto_storageKey s_modules;
    sto_storageKey s_managers] /\
  Forall (in_u 256) U /\ collision_free (pages pg_keys).

Record pg_at (st : pg_state) (d : DB) : Prop := {
  ga_word h : h ∈ U -> slot_get d (skey s_programs h) = g_word st h;
  ga_module h : h ∈ U -> slot_get d (skey s_modules h) = g_module st h;
  ga_params : slot_get d (skey s_params 0) = params_word (g_params st);
  ga_params_ok : params_ok (g_params st) /\ sp_backingStorage (g_params st) = Some s_params;
  ga_pricer : dp_fields s_pricer d (g_demand st) (g_rate st) (g_last st) (g_minPrice st) (g_inertia st);
  ga_inertia : 0 < g_inertia st
}.

Hypothesis NC : pg_space.

Lemma pg_ne s s' k k' :
  pg_keys (sto_storageKey s) k -> pg_keys (sto_storageKey s') k' ->
  sto_storageKey s <> sto_storageKey s' \/ k <> k' -> skey s k <> skey s' k'.
Proof.
  intros H1 H2 Hne He. destruct NC as (_ & HU & HC). rewrite list.Forall_forall in HU.
  assert (forall sk x, pg_keys sk x -> in_u 256 x) as Hr by (intros sk x [[_ Hx]|[_ Hx]]; [apply in_u_64_256, Hx|apply HU, Hx]).
  destruct (skey_inj pg_keys s k s' k' HC H1 H2 (Hr _ _ H1) (Hr _ _ H2) He). tauto.
Qed.

Lemma pg_key_word h : h ∈ U -> pg_keys (sto_storageKey s_programs) h.
Proof. intros. right. split; [left|assumption]. Qed.
Lemma pg_key_module h : h ∈ U -> pg_keys (sto_storageKey s_modules) h.
Proof. intros. right. split; [right; left|assumption]. Qed.
Lemma pg_key_params : pg_keys (sto_storageKey s_params) 0.
Proof. left. split; [left|unfold in_u; lia]. Qed.
Lemma pg_key_pricer k : in_u 64 k -> pg_keys (sto_storageKey s_pricer) k.
Proof. intros. left. split; [right; left|assumption]. Qed.

Lemma pg_distinct :
  sto_storageKey s_params <> sto_storageKey s_pricer /\ sto_storageKey s_params <> sto_storageKey s_programs /\
  sto_storageKey s_params <> sto_storageKey s_modules /\ sto_storageKey s_pricer <> sto_storageKey s_programs /\
  sto_storageKey s_pricer <> sto_storageKey s_modules /\ sto_storageKey s_programs <> sto_storageKey s_modules.
Proof.
  destruct NC as [Hnd _]. rewrite !list.NoDup_cons, !not_elem_of_cons in Hnd. tauto.
Qed.

Lemma dp_fields_set d x v a b c e f :
  (forall k, 0 <= k < 5 -> x <> skey s_pricer k) ->
  dp_fields s_pricer d a b c e f -> dp_fields s_pricer (slot_set d x v) a b c e f.
Proof. intros Hx [? ? ? ? ?]. split; rewrite slot_get_set_ne by (apply Hx; lia); assumption. Qed.

Lemma pricer_ne s k : pg_keys (sto_storageKey s) k -> sto_storageKey s <> sto_storageKey s_pricer ->
  forall j, 0 <= j < 5 -> skey s k <> skey s_pricer j.
Proof. intros H Hne j Hj. apply pg_ne; [exact H|apply pg_key_pricer; unfold in_u; lia|left; exact Hne]. Qed.

Lemma set_word_at st d h w : h ∈ U -> pg_at st d -> pg_at (g_set_word st h w) (slot_set d (skey s_programs h) w).
Proof.
  intros Hh [H1 H2 H3 H4 H5 H6]. destruct pg_distinct as (N1 & N2 & N3 & N4 & N5 & N6).
  split; cbn [g_set_word g_word g_module g_params g_demand g_rate g_last g_minPrice g_inertia]; auto.
  - intros h' Hh'. unfold fupd. destruct (decide (h = h')) as [<-|Hne]; [apply slot_get_set_eq|].
    rewrite slot_get_set_ne; [auto|]. apply pg_ne; [apply pg_key_word; auto..|right; exact Hne].
  - intros h' Hh'. rewrite slot_get_set_ne; [auto|].
    apply pg_ne; [apply pg_key_word; auto|apply pg_key_module; auto|left; exact N6].
  - rewrite slot_get_set_ne; [exact H3|].
    apply pg_ne; [apply pg_key_word; auto|apply pg_key_params|left; congruence].
  - apply dp_fields_set; [|exact H5]. apply pricer_ne; [apply pg_key_word, Hh|congruence].
Qed.

Lemma set_module_at st d h m : h ∈ U -> pg_at st d -> pg_at (g_set_module st h m) (slot_set d (skey s_modules h) m).
Proof.
  intros Hh [H1 H2 H3 H4 H5 H6]. destruct pg_distinct as (N1 & N2 & N3 & N4 & N5 & N6).
  split; cbn [g_set_module g_word g_module g_params g_demand g_rate g_last g_minPrice g_inertia]; auto.
  - intros h' Hh'. rewrite slot_get_set_ne; [auto|].
    apply pg_ne; [apply pg_key_module; auto|apply pg_key_word; auto|left; congruence].
  - intros h' Hh'. unfold fupd. destruct (decide (h = h')) as [<-|Hne]; [apply slot_get_set_eq|].
    rewrite slot_get_set_ne; [auto|]. apply pg_ne; [apply pg_key_module; auto..|right; exact Hne].
  - rewrite slot_get_set_ne; [exact H3|].
    apply pg_ne; [apply pg_key_module; auto|apply pg_key_params|left; congruence].
  - apply dp_fields_set; [|exact H5]. apply pricer_ne; [apply pg_key_module, Hh|congruence].
Qed.

Lemma pricer_pair_ne j k : 0 <= j < 5 -> 0 <= k < 5 -> j <> k -> skey s_pricer j <> skey s_pricer k.
Proof. intros. apply pg_ne; [apply pg_key_pricer; unfold in_u; lia..|right; assumption]. Qed.

Lemma pricer_other_ne s k j : pg_keys (sto_storageKey s) k -> sto_storageKey s <> sto_storageKey s_pricer ->
  0 <= j < 5 -> skey s_pricer j <> skey s k.
Proof. intros H1 H2 H3 He. apply (pricer_ne s k H1 H2 j H3). congruence. Qed.

Lemma priced_at st d bytes time : in_u 32 bytes -> in_u 64 time -> pg_at st d ->
  pg_at (g_priced st bytes time)
    (slot_set (slot_set d (skey s_pricer 0) (g_demand (g_priced st bytes time))) (skey s_pricer 2) time).
Proof.
  intros Hb Ht [H1 H2 H3 H4 [[P0 R0] [P1 R1] [P2 R2] [P3 R3] [P4 R4]] H6].
  destruct pg_distinct as (N1 & N2 & N3 & N4 & N5 & N6). pose proof (u64_range (time - g_last st)) as Hp.
  assert (in_u 32 (g_demand (g_priced st bytes time)))
    by (apply new_demand_range; unfold in_u in *; lia).
  set (dem := g_demand (g_priced st bytes time)) in *.
  split; cbn [g_priced g_word g_module g_params g_demand g_rate g_last g_minPrice g_inertia]; auto.
  - intros h Hh. do 2 (rewrite slot_get_set_ne by (apply pricer_other_ne; [apply pg_key_word, Hh|congruence|lia])). auto.
  - intros h Hh. do 2 (rewrite slot_get_set_ne by (apply pricer_other_ne; [apply pg_key_module, Hh|congruence|lia])). auto.
  - do 2 (rewrite slot_get_set_ne by (apply pricer_other_ne; [apply pg_key_params|congruence|lia])). exact H3.
  - split; (split; [|assumption]);
      repeat first [apply slot_get_set_eq | rewrite slot_get_set_ne by (apply pricer_pair_ne; lia)]; assumption.
Qed.

(** ** Initialization *)

Definition initial_params : StylusParams :=
  mkStylusParams (Some s_params) 1 initialInkPrice initialStackDepth InitialFreePages InitialPageGas
    initialPageRamp initialPageLimit initialMinInitGas initialMinCachedInitGas initialExpiryDays
    initialKeepaliveDays initialRecentCacheSize.

Definition initial_registry : pg_state :=
  mkpg_state (fun _ => 0) (fun _ => 0) initial_params initialDemand initialBytesPerSecond initialLastUpdateTime
    initialMinPrice initialInertia.

Lemma initial_params_ok : params_ok initial_params.
Proof. repeat split; vm_compute; discriminate || reflexivity. Qed.

Lemma pg_key_managers : pg_keys (sto_storageKey s_managers) 0.
Proof. left. split; [right; right; left|unfold in_u; lia]. Qed.

Lemma managers_distinct :
  sto_storageKey s_params <> sto_storageKey s_managers /\ sto_storageKey s_pricer <> sto_storageKey s_managers /\
  sto_storageKey s_programs <> sto_storageKey s_managers /\ sto_storageKey s_modules <> sto_storageKey s_managers.
Proof. destruct NC as [Hnd _]. rewrite !list.NoDup_cons, !not_elem_of_cons in Hnd. tauto. Qed.

(** Cached and uncached views of a space have the same slots. *)
Lemma NewSlot_uncached id k : NewSlot (OpenSubStorage sto id) k = NewSlot (OpenCachedSubStorage sto id) k.
Proof. exact (NewSlot_WithoutCache (OpenCachedSubStorage sto id) k). Qed.

Lemma skey_uncached id k : skey (OpenSubStorage sto id) k = skey (OpenCachedSubStorage sto id) k.
Proof. apply skey_same; reflexivity. Qed.

Lemma initDataPricer_uncached : initDataPricer (OpenSubStorage sto dataPricerKey) = initDataPricer s_pricer.
Proof. unfold initDataPricer, OpenStorageBackedUint32, OpenStorageBackedUint64. rewrite !NewSlot_uncached. reflexivity. Qed.

Lemma initStylusParams_runs d :
  runs 20000 (initStylusParams (OpenSubStorage sto paramsKey)) d (Ok tt)
    (slot_set d (skey s_params 0) (params_word initial_params)).
Proof.
  unfold initStylusParams. eapply runs_ignore. rewrite <- skey_uncached.
  match goal with |- runs _ (Save ?q) _ _ _ => change (params_word initial_params) with (params_word q) end.
  apply Save_runs; [exact initial_params_ok|reflexivity].
Qed.

Lemma Programs_Initialize_runs d :
  (forall h, h ∈ U -> slot_get d (skey s_programs h) = 0 /\ slot_get d (skey s_modules h) = 0) ->
  exists d', runs 140000 (Programs_Initialize sto) d (Ok tt) d' /\ pg_at initial_registry d'.
Proof.
  intros Hz. destruct pg_distinct as (N1 & N2 & N3 & N4 & N5 & N6), managers_distinct as (M1 & M2 & M3 & M4).
  set (d1 := slot_set d (skey s_params 0) (params_word initial_params)).
  destruct (initDataPricer_runs s_pricer d1) as (d2 & R2 & F2 & H2).
  assert (dp_fields s_pricer d2 initialDemand initialBytesPerSecond initialLastUpdateTime initialMinPrice initialInertia) as Hp.
  { apply H2. intros x y (sk & k & [-> Hk] & Hk' & ->) (sk' & j & [-> Hj] & Hj' & ->).
    apply (proj2 (proj2 NC)); [exists (sto_storageKey s_pricer), k|exists (sto_storageKey s_pricer), j];
      (split; [apply pg_key_pricer; assumption|auto]). }
  assert (forall s k, pg_keys (sto_storageKey s) k -> sto_storageKey s <> sto_storageKey s_pricer ->
    slot_get d2 (skey s k) = slot_get d1 (skey s k)) as Hf.
  { intros s k Hk Hne. apply F2. intros (j & Hj & He). revert He. apply pricer_ne; auto. lia. }
  exists (slot_set d2 (skey s_managers 0) 0). split.
  - unfold Programs_Initialize. change 140000 with (20000 + (100000 + 20000)).
    eapply runs_bind; [apply initStylusParams_runs|]. rewrite initDataPricer_uncached.
    eapply runs_bind; [exact R2|]. eapply runs_ignore.
    apply (Storage_SetUint64ByUint64_runs s_managers 0 0); unfold in_u; lia.
  - split; cbn [initial_registry g_word g_module g_params g_demand g_rate g_last g_minPrice g_inertia].
    + intros h Hh.
      rewrite slot_get_set_ne by (apply pg_ne; [apply pg_key_managers|apply pg_key_word, Hh|left; apply not_eq_sym; assumption]).
      rewrite (Hf s_programs h (pg_key_word h Hh)) by (apply not_eq_sym; assumption).
      unfold d1. rewrite slot_get_set_ne by (apply pg_ne; [apply pg_key_params|apply pg_key_word, Hh|left; assumption]).
      exact (proj1 (Hz h Hh)).
    + intros h Hh.
      rewrite slot_get_set_ne by (apply pg_ne; [apply pg_key_managers|apply pg_key_module, Hh|left; apply not_eq_sym; assumption]).
      rewrite (Hf s_modules h (pg_key_module h Hh)) by (apply not_eq_sym; assumption).
      unfold d1. rewrite slot_get_set_ne by (apply pg_ne; [apply pg_key_params|apply pg_key_module, Hh|left; assumption]).
      exact (proj2 (Hz h Hh)).
    + rewrite slot_get_set_ne by (apply pg_ne; [apply pg_key_managers|apply pg_key_params|left; apply not_eq_sym; assumption]).
      rewrite (Hf s_params 0 pg_key_params) by assumption. apply slot_get_set_eq.
    + split; [apply initial_params_ok|reflexivity].
    + apply dp_fields_set; [|exact Hp]. apply pricer_ne; [apply pg_key_managers|apply not_eq_sym; assumption].
    + reflexivity.
Qed.

(** ** The operations on the abstract state *)

Lemma Params_ref st : refines pg_at (Params sto) st (Ok (g_params st)) st.
Proof.
  apply (refines_read _ 100). intros d Hd. destruct (ga_params_ok _ _ Hd) as [Ho Hb].
  exact (Params_runs sto (g_params st) d Ho (ga_params _ _ Hd) Hb).
Qed.

Notation pg := (Programs_Open sto).

Lemma getProgram_runs d h time :
  runs 800 (getProgram pg h time) d (Ok (program_decode (slot_get d (skey s_programs h)) time)) d.
Proof.
  unfold getProgram. change 800 with (800 + 0). eapply runs_bind; [apply Storage_Get_runs|].
  cbv beta zeta. change (pg_programs pg) with s_programs. unfold Hash_Bytes.
  unfold BytesToUint16. rewrite !read_exact, !read_uint24, read_bool by (apply length_sub_slice; lia).
  repeat (eapply runs_bind_free; [apply runs_lift|]; cbv beta). apply runs_ret.
Qed.

Lemma getProgram_ref st h time : h ∈ U -> refines pg_at (getProgram pg h time) st (Ok (g_program st h time)) st.
Proof.
  intros Hh. apply (refines_read _ 800). intros d Hd. unfold g_program. rewrite <- (ga_word _ _ Hd h Hh).
  apply getProgram_runs.
Qed.

Lemma setProgram_ref st h p : h ∈ U -> program_ok p ->
  refines pg_at (setProgram pg h p) st (Ok tt) (g_set_word st h (program_word p)).
Proof.
  intros Hh Hp. apply (refines_write _ 20000). intros d Hd.
  exists (slot_set d (skey s_programs h) (program_word p)). split; [|apply set_word_at; auto].
  unfold setProgram. cbv zeta. change (pg_programs pg) with s_programs.
  match goal with |- context [be (?x ++ _)] => assert (x = program_bytes p) as -> end.
  { unfold Uint16ToBytes, program_bytes. rewrite !Uint24ToBytes_eq. destruct (pr_cached p); reflexivity. }
  rewrite length_program_bytes. exact (Storage_Set_runs s_programs h (program_word p) d).
Qed.

Lemma module_get_ref st h : h ∈ U ->
  refines pg_at (Storage_Get (pg_moduleHashes pg) h) st (Ok (g_module st h)) st.
Proof.
  intros Hh. apply (refines_read _ 800). intros d Hd. rewrite <- (ga_module _ _ Hd h Hh).
  exact (Storage_Get_runs s_modules h d).
Qed.

Lemma module_set_ref st h m : h ∈ U ->
  refines pg_at (Storage_Set (pg_moduleHashes pg) h m) st (Ok tt) (g_set_module st h m).
Proof.
  intros Hh. apply (refines_write _ 20000). intros d Hd. exists (slot_set d (skey s_modules h) m).
  split; [exact (Storage_Set_runs s_modules h m d)|]. apply set_module_at; auto.
Qed.

Lemma UpdateModel_ref st bytes time : in_u 32 bytes -> in_u 64 time ->
  refines pg_at (UpdateModel (pg_dataPricer pg) bytes time) st (Ok (g_fee st bytes time)) (g_priced st bytes time).
Proof.
  intros Hb Ht. apply (refines_write _ 44000). intros d Hd. eexists. split.
  - exact (UpdateModel_runs s_pricer d _ _ _ _ _ bytes time (ga_pricer _ _ Hd) (ga_inertia _ _ Hd) Hb Ht).
  - apply priced_at; auto.
Qed.

Lemma getActiveProgram_ref st h time params : h ∈ U -> in_u 16 (sp_ExpiryDays params) ->
  refines pg_at (getActiveProgram pg h time params) st (active_result (g_program st h time) params) st.
Proof.
  intros Hh He. unfold getActiveProgram. eapply refines_bind; [apply getProgram_ref, Hh|].
  unfold active_result. cbv zeta. rewrite DaysToSeconds_eq by exact He.
  destruct (_ =? 0); [apply refines_fail|]. destruct (negb _); [apply refines_fail|].
  destruct (_ <? _); [apply refines_fail|apply refines_ret].
Qed.

(** ** Keepalive and caching *)

Definition keepalive_spec (st : pg_state) (h time : Z) (params : StylusParams) : outcome Z * pg_state :=
  let p := g_program st h time in
  match active_result p params with
  | Ok _ =>
      if pr_ageSeconds p <? sp_KeepaliveDays params * 86400
      then (Err (ProgramKeepaliveTooSoon (pr_ageSeconds p)), st)
      else (Ok (g_fee st (asmSize p) time),
            g_set_word (g_priced st (asmSize p) time) h (program_word (renewed p time)))
  | Err e => (Err e, st)
  | Panic s => (Panic s, st)
  end.

Lemma active_result_ok p params q : active_result p params = Ok q -> q = p /\ pr_version p = sp_Version params.
Proof.
  unfold active_result. destruct (_ =? 0); [discriminate|]. destruct (Z.eqb_spec (pr_version p) (sp_Version params)); [|discriminate].
  destruct (_ <? _); [discriminate|]. cbn. intros [= <-]. auto.
Qed.

Lemma ProgramKeepalive_ref st h time params :
  h ∈ U -> in_u 16 (sp_ExpiryDays params) -> in_u 16 (sp_KeepaliveDays params) -> 2 <= time < 3600 * 2 ^ 24 ->
  refines pg_at (ProgramKeepalive pg h time params) st (keepalive_spec st h time params).1 (keepalive_spec st h time params).2.
Proof.
  intros Hh He Hk Ht. unfold ProgramKeepalive, keepalive_spec. pose proof (getActiveProgram_ref st h time params Hh He) as Ha.
  pose proof (program_decode_ok (g_word st h) time) as Hok. fold (g_program st h time) in Hok.
  destruct (active_result (g_program st h time) params) as [p|e|msg] eqn:Har.
  - destruct (active_result_ok _ _ _ Har) as [-> Hv]. eapply refines_bind; [exact Ha|]. cbv beta.
    rewrite DaysToSeconds_eq by exact Hk. destruct (_ <? _); cbn [fst snd]; [apply refines_fail|].
    cbv zeta. rewrite Hv, Z.eqb_refl. cbn [negb].
    eapply refines_bind; [apply UpdateModel_ref; [apply asmSize_range, Hok|unfold in_u; lia]|].
    eapply refines_bind; [|apply refines_ret]. rewrite <- Hv.
    apply (setProgram_ref _ h (renewed (g_program st h time) time) Hh). apply renewed_ok; auto.
  - eapply refines_bind_err, Ha.
  - unfold active_result in Har. repeat (destruct (_ : bool) in Har; try discriminate).
Qed.

(** The writes of the client and of the native library that leave storage alone. *)
Lemma pg_at_ext st d d' : (forall x, slot_get d' x = slot_get d x) -> pg_at st d -> pg_at st d'.
Proof.
  intros Hx [H1 H2 H3 H4 [? ? ? ? ?] H6].
  split; intros; rewrite ?Hx; auto. split; rewrite Hx; assumption.
Qed.

Lemma storage_neutral_ref (f : DB -> DB) st :
  (forall d a s, GetState (f d) a s = GetState d a s) -> refines pg_at (db_write f) st (Ok tt) st.
Proof.
  intros Hf. apply (refines_write _ 0). intros d Hd. exists (f d). split; [apply runs_db_write|].
  eapply pg_at_ext; [|exact Hd]. intros x. apply Hf.
Qed.
End Registry.

(** ** The execution client and the native library

    What the code relies on: the calls that record or cache modules and count
    pages do not touch contract storage, the number of open pages is the one
    that was set, and [BurnGas] takes the gas or reports that it ran out. *)
Class StylusLaws (E : Env) (SE : StylusEnv E) : Prop := {
  GetState_ActivateWasm d h asm m a s : GetState (ActivateWasm d h asm m) a s = GetState d a s;
  GetState_CacheWasmRust d asm h v b a s : GetState (CacheWasmRust d asm h v b) a s = GetState d a s;
  GetState_RecordCacheWasm d h v b a s : GetState (RecordCacheWasm d h v b) a s = GetState d a s;
  GetState_EvictWasmRust d h v b a s : GetState (EvictWasmRust d h v b) a s = GetState d a s;
  GetState_RecordEvictWasm d h v b a s : GetState (RecordEvictWasm d h v b) a s = GetState d a s;
  GetStylusPages_SetOpen d open : GetStylusPages (SetStylusPagesOpen d open) = (open, (GetStylusPages d).2);
  BurnGas_ok gas amount : 0 <= amount <= gas -> BurnGas gas amount = (Ok tt, gas - amount);
  BurnGas_out gas amount : gas < amount -> (BurnGas gas amount).1 = Err ErrOutOfGas
}.

Section Client.
Context {E : Env} {EL : EnvLaws E} {SE : StylusEnv E} {SL : StylusLaws E SE} (sto : Storage) (U : list Z).
Hypothesis NC : pg_space sto U.
Notation pg := (Programs_Open sto).
Notation at_ := (pg_at sto U).

Lemma cacheProgram_ref st m v dbg mode : refines at_ (cacheProgram m v dbg mode) st (Ok tt) st.
Proof.
  unfold cacheProgram. destruct mode; try apply refines_ret. apply storage_neutral_ref.
  intros. rewrite GetState_RecordCacheWasm. apply GetState_CacheWasmRust.
Qed.

Lemma evictProgram_ref st m v dbg mode forever : refines at_ (evictProgram m v dbg mode forever) st (Ok tt) st.
Proof.
  unfold evictProgram. destruct mode; try apply refines_ret. apply storage_neutral_ref.
  intros. destruct forever; rewrite ?GetState_RecordEvictWasm; apply GetState_EvictWasmRust.
Qed.

Definition cached_spec (st : pg_state) (h : Z) (cache : bool) (time : Z) (params : StylusParams)
  : outcome unit * pg_state :=
  let p := g_program st h time in
  if (pr_version p =? 0) && cache then (Err (ProgramNeedsUpgradeError 0 (sp_Version params)), st)
  else if (sp_ExpiryDays params * 86400 <? pr_ageSeconds p) && cache then (Err (ProgramExpiredError (pr_ageSeconds p)), st)
  else if Bool.eqb (pr_cached p) cache then (Ok tt, st)
  else (Ok tt, g_set_word st h (program_word (with_cached p cache))).

Lemma SetProgramCached_ref st emitEvent h cache time params mode dbg :
  h ∈ U -> in_u 16 (sp_ExpiryDays params) -> refines at_ emitEvent st (Ok tt) st ->
  refines at_ (SetProgramCached pg emitEvent h cache time params mode dbg) st
    (cached_spec st h cache time params).1 (cached_spec st h cache time params).2.
Proof.
  intros Hh He Hem. unfold SetProgramCached, cached_spec.
  pose proof (program_decode_ok (g_word st h) time) as Hok. fold (g_program st h time) in Hok.
  eapply refines_bind; [apply getProgram_ref, Hh|]. cbv zeta. rewrite DaysToSeconds_eq by exact He.
  destruct (_ && cache); [apply refines_fail|]. destruct ((_ <? _) && cache); [apply refines_fail|].
  destruct (Bool.eqb _ cache); [apply refines_ret|].
  eapply refines_bind; [exact Hem|]. eapply refines_bind; [apply refines_burn, Hok|].
  eapply refines_bind; [apply module_get_ref, Hh|].
  eapply refines_bind.
  - destruct cache; [apply cacheProgram_ref|apply evictProgram_ref].
  - apply (setProgram_ref sto U NC st h (with_cached (g_program st h time) cache) Hh). exact Hok.
Qed.

(** ** Activation *)

(** The burner of the call is metered. *)
Definition metered : Prop := forall b n, affords b n -> exists g, GasLeft b = Ok g.

(** The native library activates [wasm] for [c] gas. *)
Definition native_activates (wasm : list Z) (limit version : Z) (dbg : bool) (out : list Z) (asmLen : Z)
  (info : activationInfo) (c : Z) : Prop :=
  0 <= c /\ 0 <= asmLen <= Z.of_nat (length out) /\
  in_u 16 (ai_initGas info) /\ in_u 16 (ai_cachedInitGas info) /\ in_u 32 (ai_asmEstimate info) /\
  in_u 16 (ai_footprint info) /\
  forall g, c <= g ->
    stylus_activate wasm limit version dbg g =
      mkStylusActivation userSuccess out asmLen (ai_moduleHash info) (ai_initGas info) (ai_cachedInitGas info)
        (ai_asmEstimate info) (ai_footprint info) (g - c).

Lemma activateProgram_runs wasm limit version dbg out asmLen info c d :
  metered -> native_activates wasm limit version dbg out asmLen info c ->
  exists d', runs c (activateProgram wasm limit version dbg) d (Ok info) d' /\
    forall a s, GetState d' a s = GetState d a s.
Proof.
  intros Hm (Hc & Hl & H1 & H2 & H3 & H4 & Hact).
  exists (ActivateWasm d (ai_moduleHash info) (firstn (Z.to_nat asmLen) out) (skipn (Z.to_nat asmLen) out)).
  split; [|intros; apply GetState_ActivateWasm].
  split; [exact Hc|]. intros b n Ha Hn Hro. destruct (Hm b n Ha) as [g Hg].
  destruct (store_affords b n g c Hg Ha ltac:(lia)) as (Hng & Ha' & Hr').
  exists (StoreGasLeft (g - c) b). split; [|split; [exact Ha'|congruence]].
  unfold activateProgram, bind, gas_left. cbn [wburner]. rewrite Hg, Hact by lia.
  cbn [sa_status sa_output sa_gasLeft sa_asmLen sa_moduleHash sa_init_gas sa_cached_init_gas sa_asm_estimate sa_footprint].
  unfold store_gas_left. cbn [wdb wburner]. change (toResult userSuccess out) with (out, @None error). cbv beta iota zeta.
  rewrite (proj2 (Nat.ltb_ge _ _)) by lia. unfold db_write, ret. cbn [wdb wburner].
  rewrite !uwrap_id by assumption. destruct info; reflexivity.
Qed.

(** The state after the activation of [h] at [t0]. *)
Definition activated (st : pg_state) (h t0 : Z) (info : activationInfo) : pg_state :=
  let kb := (ai_asmEstimate info + 1023) / 1024 in
  g_set_word (g_priced (g_set_module st h (ai_moduleHash info)) (ai_asmEstimate info) t0) h
    (program_word (activated_program (g_params st) (ai_initGas info) (ai_cachedInitGas info) kb (ai_footprint info) t0
      (pr_cached (g_program st h t0)))).

Definition needs_activation (st : pg_state) (h t0 : Z) : Prop :=
  let p := g_program st h t0 in
  pr_version p <> sp_Version (g_params st) \/ pr_activatedAt p = 0 \/
  sp_ExpiryDays (g_params st) * 86400 < pr_ageSeconds p.

Lemma activated_program_ok params ig cig kb fp t0 cached :
  params_ok params -> in_u 16 ig -> in_u 16 cig -> in_u 24 kb -> in_u 16 fp -> 2 <= t0 < 3600 * 2 ^ 24 ->
  program_ok (activated_program params ig cig kb fp t0 cached).
Proof.
  intros (Hv & _) H1 H2 H3 H4 Ht. destruct (activation_hours t0 Ht) as [Hh Hr].
  repeat (split; [assumption|]). cbn. rewrite Hh. exact Hr.
Qed.

Lemma asm_kb est : in_u 32 est -> DivCeil 32 est 1024 = Ok ((est + 1023) / 1024) /\ in_u 24 ((est + 1023) / 1024) /\
  IntToUint24 ((est + 1023) / 1024) = ((est + 1023) / 1024, None).
Proof.
  intros H. rewrite DivCeil_ceil by (auto; lia). replace (est + 1024 - 1) with (est + 1023) by lia.
  unfold in_u in *. assert (0 <= (est + 1023) / 1024 < 2 ^ 24) as Hr by (split; [apply Z.div_pos|apply Z.div_lt_upper_bound]; lia).
  split; [reflexivity|]. split; [exact Hr|]. unfold IntToUint24, MaxUint24.
  destruct (Z.ltb_spec (2 ^ 24 - 1) ((est + 1023) / 1024)); [lia|]. rewrite uwrap_id by (unfold in_u; lia). reflexivity.
Qed.

Lemma programExists_runs st d h t0 : h ∈ U -> at_ st d ->
  runs 800 (programExists pg h t0 (g_params st)) d
    (Ok (pr_version (g_program st h t0),
         (pr_activatedAt (g_program st h t0) =? 0) ||
           (sp_ExpiryDays (g_params st) * 86400 <? pr_ageSeconds (g_program st h t0)),
         pr_cached (g_program st h t0))) d.
Proof.
  intros Hh Hd. destruct (ga_params_ok _ _ _ _ Hd) as [Ho _]. unfold programExists. change 800 with (800 + 0).
  eapply runs_bind; [apply getProgram_runs|]. rewrite (ga_word _ _ _ _ Hd h Hh). cbv zeta.
  rewrite DaysToSeconds_eq by apply Ho. apply runs_ret.
Qed.

(** From the activation by the native library on. *)
Lemma activation_tail_ref st h t0 mode dbg info v expired :
  h ∈ U -> params_ok (g_params st) -> 2 <= t0 < 3600 * 2 ^ 24 ->
  in_u 16 (ai_initGas info) -> in_u 16 (ai_cachedInitGas info) -> in_u 32 (ai_asmEstimate info) ->
  in_u 16 (ai_footprint info) ->
  let stylusVersion := sp_Version (g_params st) in
  let cached := pr_cached (g_program st h t0) in
  let fails := fun takeAllGas err => ret (0, h, 0, None, takeAllGas, Some err) in
  refines at_
    (catch
      (if (cached : bool) then
         let* oldModuleHash := Storage_Get (pg_moduleHashes pg) h in
         evictProgram oldModuleHash v dbg mode expired ;;;
         cacheProgram (ai_moduleHash info) stylusVersion dbg mode
       else ret tt) (fails true) (fun _ =>
    catch (Storage_Set (pg_moduleHashes pg) h (ai_moduleHash info)) (fails true) (fun _ =>
    let* kb := lift (DivCeil 32 (ai_asmEstimate info) 1024) in
    match IntToUint24 kb with
    | (_, Some err) => fails true err
    | (estimateKb, None) =>
        catch (UpdateModel (pg_dataPricer pg) (ai_asmEstimate info) t0) (fails true) (fun dataFee =>
        let programData := mkProgram stylusVersion (ai_initGas info) (ai_cachedInitGas info) (ai_footprint info)
          estimateKb (hoursSinceArbitrum t0) 0 cached in
        let* r := attempt (setProgram pg h programData) in
        ret (stylusVersion, h, ai_moduleHash info, Some dataFee, false,
             match r with Err e => Some e | _ => None end))
    end))) st
    (Ok (stylusVersion, h, ai_moduleHash info, Some (g_fee st (ai_asmEstimate info) t0), false, None))
    (activated st h t0 info).
Proof.
  intros Hh Hp Ht H1 H2 H3 H4 sv cached fails. destruct (asm_kb _ H3) as (Hk & Hk24 & Hi).
  eapply refines_catch.
  { instantiate (1 := st). instantiate (1 := tt). destruct cached; [|apply refines_ret].
    eapply refines_bind; [apply module_get_ref, Hh|].
    eapply refines_bind; [apply evictProgram_ref|apply cacheProgram_ref]. }
  eapply refines_catch; [apply module_set_ref; auto|]. rewrite Hk.
  eapply refines_bind; [apply refines_lift|]. rewrite Hi.
  eapply refines_catch; [apply UpdateModel_ref; [exact NC|exact H3|unfold in_u; lia]|]. cbv zeta.
  eapply refines_bind; [apply refines_attempt, (setProgram_ref sto U NC _ h
    (activated_program (g_params st) (ai_initGas info) (ai_cachedInitGas info) _ (ai_footprint info) t0 cached) Hh);
    apply activated_program_ok; eauto|].
  apply refines_ret.
Qed.

Lemma ActivateProgram_runs st d h addr t0 mode dbg wasm Gw out asmLen info c :
  at_ st d -> h ∈ U -> GetCodeHash d addr = h -> HasSelfDestructed d addr = false -> needs_activation st h t0 ->
  2 <= t0 < 3600 * 2 ^ 24 -> runs Gw (getWasm addr) d (Ok wasm) d -> metered ->
  native_activates wasm (SaturatingUSub 16 (sp_PageLimit (g_params st)) (GetStylusPagesOpen d))
    (sp_Version (g_params st)) dbg out asmLen info c ->
  exists G d', runs G (ActivateProgram pg t0 addr mode dbg) d
      (Ok (sp_Version (g_params st), h, ai_moduleHash info, Some (g_fee st (ai_asmEstimate info) t0), false, None)) d' /\
    at_ (activated st h t0 info) d'.
Proof.
  intros Hd Hh Hch Hsd Hneed Ht Hw Hm Hact. destruct (ga_params_ok _ _ _ _ Hd) as [Ho Hb].
  destruct (activateProgram_runs _ _ _ _ _ _ _ _ d Hm Hact) as (d1 & R1 & Hd1).
  assert (at_ st d1) as Hd1' by (eapply pg_at_ext; [|exact Hd]; intros x; apply Hd1).
  destruct Hact as (_ & _ & I1 & I2 & I3 & I4 & _).
  destruct (activation_tail_ref st h t0 mode dbg info (pr_version (g_program st h t0))
    ((pr_activatedAt (g_program st h t0) =? 0) ||
       (sp_ExpiryDays (g_params st) * 86400 <? pr_ageSeconds (g_program st h t0))) Hh Ho Ht I1 I2 I3 I4 d1 Hd1')
    as (G2 & d2 & R2 & Hd2).
  exists (0 + (0 + (100 + (800 + (Gw + (0 + (c + G2))))))), d2. split; [|exact Hd2].
  unfold ActivateProgram. eapply runs_bind; [apply runs_db_read|]. rewrite Hch. cbv zeta.
  eapply runs_bind; [apply runs_db_read|]. rewrite Hsd.
  eapply runs_catch_ok; [exact (Params_runs sto (g_params st) d Ho (ga_params _ _ _ _ Hd) Hb)|]. cbv beta.
  eapply runs_catch_ok; [exact (programExists_runs st d h t0 Hh Hd)|]. cbv beta iota.
  match goal with |- context [if ?b then _ else _] => assert (b = false) as -> end.
  { unfold needs_activation in Hneed. destruct (Z.eqb_spec (pr_version (g_program st h t0)) (sp_Version (g_params st)));
      [|reflexivity]. destruct Hneed as [?|[->|Hx]]; [contradiction|reflexivity|].
    apply Z.ltb_lt in Hx. rewrite Hx, orb_true_r. reflexivity. }
  eapply runs_catch_ok; [exact Hw|]. cbv beta. eapply runs_bind; [apply runs_db_read|]. cbv beta.
  eapply runs_catch_ok; [exact R1|]. exact R2.
Qed.

(** An active program stays active until its age exceeds the limit. *)
Lemma active_after_activation st d h params p t0 t :
  at_ st d -> h ∈ U -> in_u 16 (sp_ExpiryDays params) -> sp_Version params <> 0 ->
  g_word st h = program_word p -> program_ok p -> pr_version p = sp_Version params ->
  pr_activatedAt p = hoursSinceArbitrum t0 -> 2 <= t0 < 3600 * 2 ^ 24 -> t0 <= t < 2 ^ 64 ->
  exists G d', runs G (getActiveProgram pg h t params) d
    (if sp_ExpiryDays params * 86400 <? age_at t0 t then Err (ProgramExpiredError (age_at t0 t)) else Ok (at_time p t)) d'.
Proof.
  intros Hd Hh He Hv Hw Hp Hpv Hpa Ht0 Ht.
  destruct (getActiveProgram_ref sto U st h t params Hh He d Hd) as (G & d' & R & _). exists G, d'.
  unfold g_program in R. rewrite Hw, program_decode_word in R by exact Hp. unfold active_result in R.
  cbn [at_time pr_version pr_ageSeconds] in R. rewrite Hpv, Z.eqb_refl, Hpa, age_after_activation in R by lia.
  apply Z.eqb_neq in Hv. rewrite Hv in R. exact R.
Qed.

Lemma getActiveProgram_runs st d h time : at_ st d -> h ∈ U ->
  runs 800 (getActiveProgram pg h time (g_params st)) d (active_result (g_program st h time) (g_params st)) d.
Proof.
  intros Hd Hh. destruct (ga_params_ok _ _ _ _ Hd) as [Ho _]. unfold getActiveProgram. change 800 with (800 + 0).
  eapply runs_bind; [apply getProgram_runs|]. rewrite (ga_word _ _ _ _ Hd h Hh).
  change (program_decode (g_word st h) time) with (g_program st h time). cbv zeta. rewrite DaysToSeconds_eq by apply Ho.
  unfold active_result. destruct (_ =? 0); [apply runs_fail|]. destruct (negb _); [apply runs_fail|].
  destruct (_ <? _); [apply runs_fail|apply runs_ret].
Qed.

Lemma ProgramCached_runs st d h t : at_ st d -> h ∈ U ->
  runs 800 (ProgramCached pg h) d (Ok (pr_cached (g_program st h t))) d.
Proof.
  intros Hd Hh. unfold ProgramCached. change 800 with (800 + 0).
  eapply runs_bind; [exact (Storage_Get_runs (OpenSubStorage sto programDataKey) h d)|].
  rewrite (ga_word _ _ _ _ Hd h Hh). unfold Hash_Bytes. rewrite read_bool by (apply length_sub_slice; lia). apply runs_lift.
Qed.

(** ** Calls *)

(** The price of a call: memory, the minimum and the program's own cost of
    initialization, clipped to 64 bits. *)
Definition call_cost (params : StylusParams) (p : Program) (open ever : Z) (cached : bool) : Z :=
  let memory := MemoryModel_GasCost (NewMemoryModel (sp_FreePages params) (sp_PageGas params)) (pr_footprint p) open ever in
  let init := if cached then 64 * sp_MinCachedInitGas params + pr_cachedInitGas p
              else 256 * sp_MinInitGas params + pr_initGas p in
  Z.min (memory + init) (2 ^ 64 - 1).

Lemma SaturatingUAdd_range w a b : 0 <= w -> in_u w (SaturatingUAdd w a b).
Proof.
  intros Hw. unfold SaturatingUAdd. destruct (_ || _); [|apply uwrap_range, Hw].
  rewrite UMax_eq by exact Hw. pose proof (pow2_pos w Hw). unfold in_u. lia.
Qed.

Lemma GasCost_range m new open ever : in_u 64 (MemoryModel_GasCost m new open ever).
Proof.
  unfold MemoryModel_GasCost. cbv zeta. destruct (_ <=? _); [unfold in_u; lia|apply SaturatingUAdd_range; lia].
Qed.

Lemma add_twice m a b : in_u 64 m -> in_u 32 a -> in_u 32 b ->
  SaturatingUAdd 64 (SaturatingUAdd 64 m a) b = Z.min (m + (a + b)) (2 ^ 64 - 1).
Proof.
  unfold in_u. intros. rewrite (SaturatingUAdd_min 64 m) by (unfold in_u; lia).
  rewrite SaturatingUAdd_min by (unfold in_u; lia). lia.
Qed.

Lemma call_cost_eq params p open ever cached : params_ok params -> program_ok p ->
  (let callCost := MemoryModel_GasCost (NewMemoryModel (sp_FreePages params) (sp_PageGas params)) (pr_footprint p) open ever in
   if (cached : bool) then
     SaturatingUAdd 64 (SaturatingUAdd 64 callCost (minCachedInitGasUnits *u64 sp_MinCachedInitGas params))
       (pr_cachedInitGas p)
   else
     SaturatingUAdd 64 (SaturatingUAdd 64 callCost (minInitGasUnits *u64 sp_MinInitGas params)) (pr_initGas p)) =
  call_cost params p open ever cached.
Proof.
  intros Hp Hq. unfold call_cost. cbv zeta.
  pose proof (GasCost_range (NewMemoryModel (sp_FreePages params) (sp_PageGas params)) (pr_footprint p) open ever) as Hm.
  destruct Hp as (_ & _ & _ & _ & _ & _ & _ & A & B & _), Hq as (_ & C & D & _).
  unfold minCachedInitGasUnits, minInitGasUnits, in_u in A, B, C, D |- *.
  destruct cached; rewrite uwrap_id by (unfold in_u; lia); apply add_twice; unfold in_u; auto; lia.
Qed.

Lemma call_cost_nonneg params p open ever cached : params_ok params -> program_ok p ->
  0 <= call_cost params p open ever cached.
Proof.
  intros Hp Hq. unfold call_cost. cbv zeta.
  pose proof (GasCost_range (NewMemoryModel (sp_FreePages params) (sp_PageGas params)) (pr_footprint p) open ever) as Hm.
  destruct Hp as (_ & _ & _ & _ & _ & _ & _ & A & B & _), Hq as (_ & C & D & _).
  unfold in_u in A, B, C, D, Hm. destruct cached; lia.
Qed.

(** Whether a program counts as cached, and the client's state after the query. *)
Definition call_cached (d : DB) (h : Z) (params : StylusParams) (p : Program) : bool * DB :=
  if pr_cached p then (true, d) else RecentWasms_Insert d h (sp_BlockCacheSize params).

Lemma CallProgram_runs st d contract ec l1 n Gl tracing calldata reentrant gas p :
  let h := ct_CodeHash contract in
  let params := g_params st in
  at_ st d -> h ∈ U -> active_result (g_program st h (ec_Time ec)) params = Ok p -> runs Gl l1 d (Ok n) d ->
  let cd := call_cached d h params p in
  let open := (GetStylusPages d).1 in
  let cost := call_cost params p open (GetStylusPages d).2 cd.1 in
  let call := stylus_call (GetActivatedAsm (AddStylusPages cd.2 (pr_footprint p)) (g_module st h)) calldata
    (goParams_of (pr_version p) (ec_DebugMode ec) params)
    (mkevmData (BigToHash (ec_BaseFee ec)) (u64 (ec_ChainID ec)) (ec_Coinbase ec) (ec_GasLimit ec)
       n (ec_Time ec) (ct_Address contract) (g_module st h) (ct_Caller contract)
       (BigToHash (ct_Value contract)) (BigToHash (ec_GasPrice ec)) (ec_Origin ec) (BoolToUint32 reentrant)
       (pr_cached p) tracing) (NewMemoryModel (sp_FreePages params) (sp_PageGas params)) (ec_DebugMode ec)
    (gas - cost) (RecordProgram (AddStylusPages cd.2 (pr_footprint p)) (g_module st h)) in
  exists G, runs G (CallProgram pg contract ec l1 tracing calldata reentrant gas) d
    (Ok (if cost <=? gas then (toResult call.1.1.1 call.1.1.2, call.1.2) else ([], Some ErrOutOfGas, (BurnGas gas cost).2)))
    (if cost <=? gas then SetStylusPagesOpen call.2 open else cd.2).
Proof.
  intros h params Hd Hh Har Hl cd open cost call. destruct (ga_params_ok _ _ _ _ Hd) as [Ho Hb].
  destruct (active_result_ok _ _ _ Har) as [-> Hv]. pose proof (program_decode_ok (g_word st h) (ec_Time ec)) as Hok.
  fold (g_program st h (ec_Time ec)) in Hok. set (p := g_program st h (ec_Time ec)) in *.
  pose proof (getActiveProgram_runs st d h (ec_Time ec) Hd Hh) as Hact. fold params p in Hact. rewrite Har in Hact.
  exists (100 + (800 + (800 + (Gl + (0 + (0 + (0 + 0))))))). unfold CallProgram. fold h. cbv zeta.
  eapply runs_catch_ok; [exact (Params_runs sto (g_params st) d Ho (ga_params _ _ _ _ Hd) Hb)|]. fold params. cbv beta.
  eapply runs_catch_ok; [exact Hact|]. cbv beta.
  eapply runs_catch_ok; [exact (Storage_Get_runs (OpenSubStorage sto moduleHashesKey) h d)|].
  rewrite (ga_module _ _ _ _ Hd h Hh). cbv beta.
  eapply runs_catch_ok; [exact Hl|]. cbv beta.
  eapply runs_bind; [apply runs_db_read|]. cbv beta.
  destruct (GetStylusPages d) as [open' ever'] eqn:Hpages. cbn [fst snd] in open, cost, call. cbv iota.
  eapply (runs_bind _ _ _ _ d cd.1 cd.2).
  { unfold cd, call_cached. destruct (pr_cached p); [apply runs_ret|].
    exact (runs_db_call (fun d => RecentWasms_Insert d h (sp_BlockCacheSize params)) d). }
  pose proof (call_cost_eq params p open' ever' cd.1 Ho Hok) as Hc. cbv zeta in Hc. rewrite Hc.
  change (call_cost params p open' ever' cd.1) with cost. destruct (Z.leb_spec cost gas) as [Hle|Hlt].
  - rewrite BurnGas_ok by (split; [apply call_cost_nonneg; auto|exact Hle]).
    eapply runs_bind; [apply runs_db_write|].
    apply (runs_defer _ (fun d => SetStylusPagesOpen d open')).
    unfold callProgram. cbv zeta.
    change (gp_debugMode (goParams_of (pr_version p) (ec_DebugMode ec) params)) with (ec_DebugMode ec).
    eapply runs_bind_free; [apply runs_db_read|]. eapply runs_bind_free; [apply runs_db_write|].
    eapply runs_bind_free; [eapply runs_db_call|]. cbv beta. fold call.
    destruct call as [[[status output] left] d2]. apply runs_ret.
  - pose proof (BurnGas_out gas cost Hlt) as Hb2. destruct (BurnGas gas cost) as [r left]. cbn [fst snd] in *. subst r.
    eapply runs_le; [apply runs_ret|lia].
Qed.
End Client.

(** ** A concrete client

    The pages are kept in the nonce map, at keys that are no addresses. *)
Definition StylusMem : Env := MemEnv Context.

#[local] Existing Instance StylusMem.

#[export] Instance StylusMemLaws : EnvLaws StylusMem := MemEnvLaws Context.

Definition mem_pages (d : MemDB) : Z * Z := (default 0 (mem_nonce d !! (-1)), default 0 (mem_nonce d !! (-2))).
Definition mem_set_pages (d : MemDB) (open ever : Z) : MemDB :=
  mkMemDB (mem_state d) (mem_balance d) (<[(-1) := open]> (<[(-2) := ever]> (mem_nonce d))) (mem_logs d).

Definition mem_activate (wasm : list Z) (limit version : Z) (dbg : bool) (gas : Z) : StylusActivation :=
  if gas <? 1000 then mkStylusActivation userOutOfInk [] 0 0 0 0 0 0 0
  else mkStylusActivation userSuccess wasm 0 77 500 50 4096 3 (gas - 1000).

#[export] Instance MemStylus : StylusEnv StylusMem := {|
  HasSelfDestructed := fun _ _ => false;
  GetCode := fun _ _ => Some [1; 2; 3];
  StripStylusPrefix := fun code => Ok (code, 0);
  DecompressWithDictionary := fun data _ _ => Ok data;
  GetStylusPages := mem_pages;
  GetStylusPagesOpen := fun d => (mem_pages d).1;
  AddStylusPages := fun d new => let open := (mem_pages d).1 + new in mem_set_pages d open (Z.max (mem_pages d).2 open);
  SetStylusPagesOpen := fun d open => mem_set_pages d open (mem_pages d).2;
  RecentWasms_Insert := fun d _ _ => (false, d);
  BurnGas := fun gas amount => if gas <? amount then (Err ErrOutOfGas, 0) else (Ok tt, gas - amount);
  ActivateWasm := fun d _ _ _ => d;
  GetActivatedAsm := fun _ _ => [];
  RecordProgram := fun d _ => d;
  CacheWasmRust := fun d _ _ _ _ => d;
  RecordCacheWasm := fun d _ _ _ => d;
  EvictWasmRust := fun d _ _ _ => d;
  RecordEvictWasm := fun d _ _ _ => d;
  stylus_activate := mem_activate;
  stylus_call := fun _ calldata _ _ _ _ gas d => ((userSuccess, calldata, gas), d)
|}.

#[export] Instance MemStylusLaws : StylusLaws StylusMem MemStylus.
Proof.
  split; try (intros; reflexivity); cbn.
  - intros d open. unfold mem_pages, mem_set_pages. cbn.
    rewrite lookup_insert_eq, lookup_insert_ne by discriminate. rewrite lookup_insert_eq. reflexivity.
  - intros gas amount H. destruct (Z.ltb_spec gas amount); [lia|reflexivity].
  - intros gas amount H. destruct (Z.ltb_spec gas amount); [reflexivity|lia].
Qed.

Lemma mem_metered : metered.
Proof. intros b n _. exists (ctx_gasLeft b). reflexivity. Qed.

Definition ex_sto : Storage := mkStorage 1 [7] false.

Lemma ex_pg_space : pg_space ex_sto [0].
Proof.
  split; [apply (bool_decide_eq_true _); vm_compute; reflexivity|].
  split; [repeat constructor; unfold in_u; lia|].
  apply (digest_collision_free Context _
    [sto_storageKey (OpenCachedSubStorage ex_sto paramsKey); sto_storageKey (OpenCachedSubStorage ex_sto dataPricerKey);
     sto_storageKey (OpenCachedSubStorage ex_sto cacheManagersKey); sto_storageKey (OpenSubStorage ex_sto programDataKey);
     sto_storageKey (OpenSubStorage ex_sto moduleHashesKey)]).
  - intros sk k [[H1 H2]|[H1 H2]]; (split; [set_solver|]); [unfold in_u in H2; lia|set_solver by lia].
  - intros a b Ha Hb Ht. rewrite !elem_of_cons, elem_of_nil in Ha, Hb.
    destruct Ha as [->|[->|[->|[->|[->|[]]]]]], Hb as [->|[->|[->|[->|[->|[]]]]]];
      try reflexivity; vm_compute in Ht; discriminate.
Qed.

Lemma ex_initial_at : exists d : DB, pg_at ex_sto [0] (initial_registry ex_sto) d.
Proof.
  destruct (Programs_Initialize_runs ex_sto [0] ex_pg_space mem_empty) as (d & _ & H); [|exists d; exact H].
  intros h _. split; reflexivity.
Qed.

(** C12: a program that was never activated, is outdated or has expired is
    activated by a wasm that the native library accepts: the call returns the
    current version, the module hash and the data fee, stores the program of
    the activation and changes no other program; from then on the program is
    found active, with its age in seconds, exactly until the age exceeds the
    days to expiry. *)
Theorem ActivateProgram_activates {E : Env} {EL : EnvLaws E} {SE : StylusEnv E} {SL : StylusLaws E SE}
  (sto : Storage) (U : list Z) (st : pg_state) (d : DB) (h addr t0 : Z) (mode : MessageRunMode) (dbg : bool)
  (wasm : list Z) (Gw : Z) (out : list Z) (asmLen : Z) (info : activationInfo) (c : Z) :
  pg_space sto U -> pg_at sto U st d -> h ∈ U -> GetCodeHash d addr = h -> HasSelfDestructed d addr = false ->
  sp_Version (g_params st) <> 0 -> needs_activation st h t0 -> 2 <= t0 < 3600 * 2 ^ 24 ->
  runs Gw (getWasm addr) d (Ok wasm) d -> metered ->
  native_activates wasm (SaturatingUSub 16 (sp_PageLimit (g_params st)) (GetStylusPagesOpen d))
    (sp_Version (g_params st)) dbg out asmLen info c ->
  exists G d' st' p,
    runs G (ActivateProgram (Programs_Open sto) t0 addr mode dbg) d
      (Ok (sp_Version (g_params st), h, ai_moduleHash info, Some (g_fee st (ai_asmEstimate info) t0), false, None)) d' /\
    pg_at sto U st' d' /\ g_module st' h = ai_moduleHash info /\
    (forall h' t, h' <> h -> g_program st' h' t = g_program st h' t) /\
    pr_footprint p = ai_footprint info /\ pr_initGas p = ai_initGas info /\ pr_cachedInitGas p = ai_cachedInitGas info /\
    pr_asmEstimateKb p = (ai_asmEstimate info + 1023) / 1024 /\ pr_cached p = pr_cached (g_program st h t0) /\
    forall t, t0 <= t < 2 ^ 64 ->
      exists G' d'', runs G' (getActiveProgram (Programs_Open sto) h t (g_params st)) d'
        (if sp_ExpiryDays (g_params st) * 86400 <? age_at t0 t
         then Err (ProgramExpiredError (age_at t0 t)) else Ok (at_time p t)) d''.
Proof.
  intros NC Hd Hh Hch Hsd Hv Hneed Ht Hw Hm Hact. destruct (ga_params_ok _ _ _ _ Hd) as [Ho _].
  destruct (ActivateProgram_runs sto U NC st d h addr t0 mode dbg wasm Gw out asmLen info c) as (G & d' & R & Hd'); auto.
  destruct Hact as (_ & _ & I1 & I2 & I3 & I4 & _). destruct (asm_kb _ I3) as (_ & Hk & _).
  exists G, d', (activated st h t0 info),
    (activated_program (g_params st) (ai_initGas info) (ai_cachedInitGas info) ((ai_asmEstimate info + 1023) / 1024)
       (ai_footprint info) t0 (pr_cached (g_program st h t0))).
  split; [exact R|]. split; [exact Hd'|]. split; [exact (fupd_eq _ _ _)|].
  split; [intros h' t Hne; unfold g_program; f_equal; apply fupd_ne; congruence|].
  do 5 (split; [reflexivity|]). intros t Ht'.
  refine (active_after_activation sto U _ d' h (g_params st) _ t0 t Hd' Hh _ Hv (fupd_eq _ _ _) _ eq_refl eq_refl Ht Ht').
  - apply Ho.
  - apply activated_program_ok; auto.
Qed.

(** The module 77 with a footprint of 3 pages is active for 365 days. *)
Lemma ActivateProgram_activates_witness :
  let t0 := 1700000000 in
  let act t r := exists d G d', runs G (getActiveProgram (Programs_Open ex_sto) 0 t (initial_params ex_sto)) d r d' in
  (exists p, pr_footprint p = 3 /\ act (t0 + 365 * 86400 - 3600) (Ok (at_time p (t0 + 365 * 86400 - 3600)))) /\
  act (t0 + 365 * 86400 + 1) (Err (ProgramExpiredError (365 * 86400 + 1 + 798))).
Proof.
  intros t0 act. destruct ex_initial_at as [d Hd].
  destruct (ActivateProgram_activates ex_sto [0] (initial_registry ex_sto) d 0 9 t0 MessageCommitMode false [1; 2; 3] 0
    [1; 2; 3] 0 (mkactivationInfo 77 500 50 4096 3) 1000 ex_pg_space Hd)
    as (G & d' & st' & p & R & _ & _ & _ & Hf & _ & _ & _ & _ & Hact).
  - left.
  - reflexivity.
  - reflexivity.
  - discriminate.
  - left. vm_compute. discriminate.
  - unfold t0. lia.
  - unfold getWasm. eapply runs_bind_free; [apply runs_db_read|].
    do 2 (eapply runs_bind_free; [apply runs_lift || apply runs_ret|]; cbv beta iota). apply runs_lift.
  - apply mem_metered.
  - repeat split; cbn [ai_initGas ai_cachedInitGas ai_asmEstimate ai_footprint length]; try lia.
    intros g Hg. cbn. unfold mem_activate. destruct (Z.ltb_spec g 1000); [lia|reflexivity].
  - split.
    + exists p. split; [exact Hf|]. exists d'.
      exact (Hact (t0 + 365 * 86400 - 3600) ltac:(unfold t0; lia)).
    + exists d'. exact (Hact (t0 + 365 * 86400 + 1) ltac:(unfold t0; lia)).
Defined.

(** a keepalive fails, without any effect, for a program that is not active
    and for one that is younger than the days to a keepalive; otherwise it
    charges the data fee of the program's code and the program is active, with
    all its data, as if it had been activated at the time of the keepalive. *)
Theorem ProgramKeepalive_renews {E : Env} {EL : EnvLaws E} (sto : Storage) (U : list Z) (st : pg_state) (d : DB)
  (h time : Z) :
  pg_space sto U -> pg_at sto U st d -> h ∈ U -> sp_Version (g_params st) <> 0 -> 2 <= time < 3600 * 2 ^ 24 ->
  let params := g_params st in
  let p := g_program st h time in
  let r := keepalive_spec st h time params in
  exists G d', runs G (ProgramKeepalive (Programs_Open sto) h time params) d r.1 d' /\ pg_at sto U r.2 d' /\
    (forall e, r.1 = Err e -> r.2 = st) /\
    (forall fee, r.1 = Ok fee ->
       fee = g_fee st (asmSize p) time /\ sp_KeepaliveDays params * 86400 <= pr_ageSeconds p /\
       forall t, time <= t < 2 ^ 64 ->
         exists G' d'', runs G' (getActiveProgram (Programs_Open sto) h t params) d'
           (if sp_ExpiryDays params * 86400 <? age_at time t
            then Err (ProgramExpiredError (age_at time t)) else Ok (at_time (renewed p time) t)) d'').
Proof.
  intros NC Hd Hh Hv Ht params p r. destruct (ga_params_ok _ _ _ _ Hd) as [Ho _].
  assert (in_u 16 (sp_ExpiryDays params) /\ in_u 16 (sp_KeepaliveDays params)) as [He Hk] by (split; apply Ho).
  destruct (ProgramKeepalive_ref sto U NC st h time params Hh He Hk Ht d Hd) as (G & d' & R & Hd').
  exists G, d'. fold r in R, Hd'. split; [exact R|]. split; [exact Hd'|].
  unfold r, keepalive_spec in *. fold p in R, Hd' |- *.
  destruct (active_result p params) as [q|e|msg] eqn:Har; [|cbn; split; [reflexivity|discriminate]..].
  destruct (active_result_ok _ _ _ Har) as [-> Hpv].
  destruct (Z.ltb_spec (pr_ageSeconds p) (sp_KeepaliveDays params * 86400)); cbn [fst snd] in *;
    [split; [reflexivity|discriminate]|].
  split; [discriminate|]. intros fee [= <-]. split; [reflexivity|]. split; [lia|]. intros t Ht'.
  refine (active_after_activation sto U _ d' h params _ time t Hd' Hh He Hv (fupd_eq _ _ _) _ Hpv eq_refl Ht Ht').
  apply renewed_ok; [apply program_decode_ok|exact Ht].
Qed.

(** A registry whose program 0 was activated at the time 1700000000. *)
Definition ex_active : pg_state :=
  activated (initial_registry ex_sto) 0 1700000000 (mkactivationInfo 77 500 50 4096 3).

Lemma ex_active_at : exists d : DB, pg_at ex_sto [0] ex_active d.
Proof.
  destruct ex_initial_at as [d Hd].
  destruct (activation_tail_ref ex_sto [0] ex_pg_space (initial_registry ex_sto) 0 1700000000 MessageCommitMode false
    (mkactivationInfo 77 500 50 4096 3) 0 false) with (d := d) as (G & d' & _ & H);
    [left|apply initial_params_ok|lia|unfold in_u; cbn; lia..|exact Hd|exists d'; exact H].
Qed.

Lemma ProgramKeepalive_renews_witness :
  let now := 1700000000 + 40 * 86400 in
  exists d G d', runs G (ProgramKeepalive (Programs_Open ex_sto) 0 now (initial_params ex_sto)) d
      (Ok (g_fee ex_active 4096 now)) d' /\
    exists G' d'' p, runs G' (getActiveProgram (Programs_Open ex_sto) 0 (now + 364 * 86400) (initial_params ex_sto)) d' (Ok p) d''.
Proof.
  intros now. destruct ex_active_at as [d Hd].
  destruct (ProgramKeepalive_renews ex_sto [0] ex_active d 0 now ex_pg_space Hd) as (G & d' & R & _ & _ & H);
    [left|discriminate|unfold now; lia|].
  exists d, G, d'. split; [exact R|].
  destruct (H (g_fee ex_active 4096 now)) as (_ & _ & H'); [vm_compute; reflexivity|].
  destruct (H' (now + 364 * 86400)) as (G' & d'' & R'); [unfold now; lia|]. exists G', d''. eexists. exact R'.
Defined.

(** setting the cache flag of a program fails, without any effect, exactly
    when a program that was never activated or has expired is to be cached;
    otherwise the program reads back with the flag and is unchanged apart from
    it. *)
Theorem SetProgramCached_sets {E : Env} {EL : EnvLaws E} {SE : StylusEnv E} {SL : StylusLaws E SE}
  (sto : Storage) (U : list Z) (st : pg_state) (d : DB) (emitEvent : M unit) (h : Z) (cache : bool) (time : Z)
  (mode : MessageRunMode) (dbg : bool) :
  pg_space sto U -> pg_at sto U st d -> h ∈ U -> refines (pg_at sto U) emitEvent st (Ok tt) st ->
  let params := g_params st in
  let p := g_program st h time in
  let bad := cache && ((pr_version p =? 0) || (sp_ExpiryDays params * 86400 <? pr_ageSeconds p)) in
  exists G d' st' r, runs G (SetProgramCached (Programs_Open sto) emitEvent h cache time params mode dbg) d r d' /\
    pg_at sto U st' d' /\
    (if bad then (exists e, r = Err e) /\ st' = st
     else r = Ok tt /\ runs 800 (ProgramCached (Programs_Open sto) h) d' (Ok cache) d' /\
       forall t, g_program st' h t = with_cached (g_program st h t) cache).
Proof.
  intros NC Hd Hh Hem params p bad. destruct (ga_params_ok _ _ _ _ Hd) as [Ho _].
  assert (in_u 16 (sp_ExpiryDays params)) as He by apply Ho.
  destruct (SetProgramCached_ref sto U NC st emitEvent h cache time params mode dbg Hh He Hem d Hd) as (G & d' & R & Hd').
  exists G, d', (cached_spec st h cache time params).2, (cached_spec st h cache time params).1.
  split; [exact R|]. split; [exact Hd'|]. pose proof (ProgramCached_runs sto U _ d' h 0 Hd' Hh) as Hc.
  unfold cached_spec in *. fold p in Hc, Hd' |- *. unfold bad. clear bad R.
  assert (forall t, g_program (g_set_word st h (program_word (with_cached p cache))) h t = with_cached (g_program st h t) cache) as Hw.
  { intros t. unfold g_program at 1. cbn [g_set_word g_word]. rewrite fupd_eq, program_decode_word; [reflexivity|].
    apply (program_decode_ok (g_word st h) time). }
  assert (forall t, pr_cached (g_program st h t) = pr_cached p) as Hpc by reflexivity.
  destruct cache; rewrite ?andb_true_r, ?andb_false_r in *; cbn [andb].
  - destruct (_ =? 0); cbn [fst snd orb]; [eauto|]. destruct (_ <? _); cbn [fst snd]; [eauto|].
    destruct (Bool.eqb_spec (pr_cached p) true) as [Ep|Ep]; cbn [fst snd] in *; (split; [reflexivity|]).
    + rewrite Hpc, Ep in Hc. split; [exact Hc|]. intros t. rewrite <- Ep at 1. reflexivity.
    + rewrite Hw in Hc. split; [exact Hc|exact Hw].
  - destruct (Bool.eqb_spec (pr_cached p) false) as [Ep|Ep]; cbn [fst snd] in *; (split; [reflexivity|]).
    + rewrite Hpc, Ep in Hc. split; [exact Hc|]. intros t. rewrite <- Ep at 1. reflexivity.
    + rewrite Hw in Hc. split; [exact Hc|exact Hw].
Qed.

Lemma SetProgramCached_sets_witness :
  exists d G d', runs G (SetProgramCached (Programs_Open ex_sto) (ret tt) 0 true 1700000100 (initial_params ex_sto)
      MessageCommitMode false) d (Ok tt) d' /\
    runs 800 (ProgramCached (Programs_Open ex_sto) 0) d' (Ok true) d'.
Proof.
  destruct ex_active_at as [d Hd].
  destruct (SetProgramCached_sets ex_sto [0] ex_active d (ret tt) 0 true 1700000100 MessageCommitMode false ex_pg_space Hd)
    as (G & d' & st' & r & R & _ & H); [left|apply refines_ret|].
  match type of H with if ?b then _ else _ => assert (b = false) as Hb by (vm_compute; reflexivity) end.
  rewrite Hb in H. destruct H as (-> & Hc & _). exists d, G, d'. auto.
Defined.

(** C26: a call of a program that is not active returns the reason and costs
    nothing of the contract's gas; a call whose gas does not cover the memory
    of the program and its initialization runs out of gas without starting the
    program; any other call runs the program with the gas that is left, returns
    its result, and restores the number of open pages. *)
Theorem CallProgram_charges {E : Env} {EL : EnvLaws E} {SE : StylusEnv E} {SL : StylusLaws E SE}
  (sto : Storage) (U : list Z) (st : pg_state) (d : DB) (contract : Contract) (ec : EvmContext) (l1 : M Z) (n Gl : Z)
  (tracing : bool) (calldata : list Z) (reentrant : bool) (gas : Z) :
  pg_space sto U -> pg_at sto U st d -> ct_CodeHash contract ∈ U -> runs Gl l1 d (Ok n) d ->
  let h := ct_CodeHash contract in
  let params := g_params st in
  exists G d' data err left,
    runs G (CallProgram (Programs_Open sto) contract ec l1 tracing calldata reentrant gas) d (Ok (data, err, left)) d' /\
    match active_result (g_program st h (ec_Time ec)) params with
    | Ok p =>
        let cd := call_cached d h params p in
        let cost := call_cost params p (GetStylusPages d).1 (GetStylusPages d).2 cd.1 in
        (gas < cost -> err = Some ErrOutOfGas /\ d' = cd.2) /\
        (cost <= gas ->
           (GetStylusPages d').1 = (GetStylusPages d).1 /\
           exists evm status output d2,
             stylus_call (GetActivatedAsm (AddStylusPages cd.2 (pr_footprint p)) (g_module st h)) calldata
               (goParams_of (pr_version p) (ec_DebugMode ec) params) evm
               (NewMemoryModel (sp_FreePages params) (sp_PageGas params)) (ec_DebugMode ec) (gas - cost)
               (RecordProgram (AddStylusPages cd.2 (pr_footprint p)) (g_module st h)) = ((status, output, left), d2) /\
             toResult status output = (data, err))
    | Err e => err = Some e /\ left = gas
    | Panic _ => False
    end.
Proof.
  intros NC Hd Hh Hl h params. destruct (ga_params_ok _ _ _ _ Hd) as [Ho Hb].
  destruct (active_result (g_program st h (ec_Time ec)) params) as [p|e|msg] eqn:Har.
  - destruct (CallProgram_runs sto U st d contract ec l1 n Gl tracing calldata reentrant gas p Hd Hh Har Hl) as (G & R).
    fold h params in R. set (cd := call_cached d h params p) in *.
    set (cost := call_cost params p (GetStylusPages d).1 (GetStylusPages d).2 cd.1) in *. cbv zeta in R |- *.
    destruct (Z.leb_spec cost gas) as [Hle|Hlt].
    + match type of R with context [SetStylusPagesOpen ?c.2 _] => remember c as call eqn:Hcall end.
      destruct call as [[[status output] left] d2]. cbn [fst snd] in R.
      destruct (toResult status output) as [data err] eqn:Hres. exists G. do 4 eexists. split; [exact R|].
      split; [lia|]. intros _. rewrite GetStylusPages_SetOpen. split; [reflexivity|].
      eexists _, status, output, d2. split; [symmetry; exact Hcall|exact Hres].
    + exists G. do 4 eexists. split; [exact R|]. split; [auto|lia].
  - pose proof (getActiveProgram_runs sto U st d h (ec_Time ec) Hd Hh) as R2. fold params in R2. rewrite Har in R2.
    exists (100 + (800 + 0)), d, [], (Some e), gas. split; [|auto]. unfold CallProgram. cbv zeta.
    eapply runs_catch_ok; [exact (Params_runs sto (g_params st) d Ho (ga_params _ _ _ _ Hd) Hb)|]. cbv beta.
    eapply runs_catch_err; [exact R2|apply runs_ret].
  - revert Har. unfold active_result. destruct (_ =? 0); [discriminate|]. destruct (negb _); [discriminate|].
    destruct (_ <? _); discriminate.
Qed.

(** A call with 10000 gas: 3 pages cost 1000 and the initialization 500. *)
Lemma CallProgram_charges_witness :
  exists d G d' err, runs G (CallProgram (Programs_Open ex_sto) (mkContract 0 5 6 0 None)
      (mkEvmContext 1700000100 1 2 3 4 5 6 false) (ret 17) false [42] false 10000) d (Ok ([42], err, 8500)) d' /\ err = None.
Proof.
  destruct ex_active_at as [d0 Hd0]. set (ec := mkEvmContext 1700000100 1 2 3 4 5 6 false).
  pose (d := mem_set_pages d0 0 0 : @DB StylusMem). assert (pg_at ex_sto [0] ex_active d) as Hd by (eapply pg_at_ext; [|exact Hd0]; reflexivity).
  assert (mem_pages d = (0, 0)) as Hp.
  { unfold mem_pages, d, mem_set_pages. cbn. rewrite lookup_insert_eq, lookup_insert_ne by discriminate.
    rewrite lookup_insert_eq. reflexivity. }
  destruct (CallProgram_charges ex_sto [0] ex_active d (mkContract 0 5 6 0 None) ec (ret 17) 17 0 false [42] false 10000
    ex_pg_space Hd) as (G & d' & data & err & rest & R & H); [left|apply runs_ret|].
  match type of H with match ?r with _ => _ end => assert (r = Ok (g_program ex_active 0 1700000100)) as Hr
    by (vm_compute; reflexivity) end.
  rewrite Hr in H. cbv zeta in H. destruct H as [_ H]. change (@GetStylusPages StylusMem MemStylus d) with (mem_pages d) in H.
  rewrite Hp in H. destruct H as (_ & evm & status & output & d2 & Hc & Hres); [vm_compute; discriminate|].
  match type of Hc with context [10000 - ?c] => assert (c = 1500) as Hcost by (vm_compute; reflexivity) end.
  rewrite Hcost in Hc. assert (status = userSuccess) as -> by exact (f_equal (fun x => x.1.1.1) (eq_sym Hc)).
  assert (output = [42]) as -> by exact (f_equal (fun x => x.1.1.2) (eq_sym Hc)).
  assert (rest = 8500) as -> by exact (f_equal (fun x => x.1.2) (eq_sym Hc)). injection Hres as <- <-.
  exists d, G, d', None. split; [|reflexivity]. exact R.
Defined.
