(* ===== verification/MerkleTree.v ===== *)
(** * util/merkletree: Merkle trees, proofs and trees from an accumulator

    Models merkleTree.go and merkleEventProof.go. What is proved: the hash of a
    tree is the reference root, hence the root of the accumulator over the same
    items; summaries keep hash, size and capacity; trees survive serialization;
    proofs of leaves are accepted, and two accepted proofs for different leaves
    at one place give a keccak collision; and what a tree rebuilt from an
    accumulator hashes to. *)
From Stdlib Require Import ZArith Lia String List.
From stdpp Require Import base list numbers.
From S2P Require Import Prelude Arbmath Host Storage StorageFacts MemEnv Readers Merkle MerkleAccumulator.
Open Scope Z_scope.

(** The implementations of the interface [MerkleTree]. *)
Inductive MerkleTree : Type :=
| merkleTreeLeaf (hash : Z)
| merkleEmpty (capacity : Z)
| merkleInternal (hash size capacity : Z) (left_ right_ : MerkleTree)
| merkleCompleteSubtreeSummary (hash capacity : Z).

Definition SerializedLeaf : Z := 0.
Definition SerializedEmptySubtree : Z := 1.
Definition SerializedInternalNode : Z := 2.
Definition SerializedSubtreeSummary : Z := 3.

Record MerkleProof := mkMerkleProof {
  mp_RootHash : Z; mp_LeafHash : Z; mp_LeafIndex : Z; mp_Proof : list Z
}.

Section Operations.
Context {E : Env}.

Definition MerkleTree_Hash (t : MerkleTree) : Z :=
  match t with
  | merkleTreeLeaf hash => keccak256 (Hash_Bytes hash)
  | merkleEmpty _ => 0
  | merkleInternal hash _ _ _ _ => hash
  | merkleCompleteSubtreeSummary hash _ => hash
  end.

Definition MerkleTree_Size (t : MerkleTree) : Z :=
  match t with
  | merkleTreeLeaf _ => 1
  | merkleEmpty _ => 0
  | merkleInternal _ size _ _ _ => size
  | merkleCompleteSubtreeSummary _ capacity => capacity
  end.

Definition MerkleTree_Capacity (t : MerkleTree) : Z :=
  match t with
  | merkleTreeLeaf _ => 1
  | merkleEmpty capacity => capacity
  | merkleInternal _ _ capacity _ _ => capacity
  | merkleCompleteSubtreeSummary _ capacity => capacity
  end.

Definition NewMerkleLeaf (hash : Z) : MerkleTree := merkleTreeLeaf hash.
Definition NewMerkleEmpty (capacity : Z) : MerkleTree := merkleEmpty capacity.
Definition NewEmptyMerkleTree : MerkleTree := NewMerkleEmpty 0.
Definition NewSummaryMerkleTree (hash capacity : Z) : MerkleTree := merkleCompleteSubtreeSummary hash capacity.

Definition NewMerkleInternal (left_ right_ : MerkleTree) : MerkleTree :=
  merkleInternal (keccak256 (Hash_Bytes (MerkleTree_Hash left_) ++ Hash_Bytes (MerkleTree_Hash right_)))
    (MerkleTree_Size left_ +u64 MerkleTree_Size right_)
    (MerkleTree_Capacity left_ +u64 MerkleTree_Capacity right_) left_ right_.

(** [merkleEmpty.Append]: the capacity is halved down to one, which takes its
    binary logarithm of rounds. *)
Fixpoint merkleEmpty_Append_loop (fuel : nat) (capacity newHash : Z) : MerkleTree :=
  if capacity <=? 1 then NewMerkleLeaf newHash
  else
    match fuel with
    | O => NewMerkleLeaf newHash   (* not reached *)
    | S fuel =>
        let half := capacity / 2 in
        NewMerkleInternal (merkleEmpty_Append_loop fuel half newHash) (NewMerkleEmpty half)
    end.

Definition merkleEmpty_Append (capacity newHash : Z) : MerkleTree :=
  merkleEmpty_Append_loop (Z.to_nat (Z.log2 capacity)) capacity newHash.

Fixpoint MerkleTree_Append (t : MerkleTree) (newHash : Z) : MerkleTree :=
  match t with
  | merkleTreeLeaf _ => NewMerkleInternal t (NewMerkleLeaf newHash)
  | merkleEmpty capacity => merkleEmpty_Append capacity newHash
  | merkleInternal _ size capacity left_ right_ =>
      if size =? capacity then NewMerkleInternal t (merkleEmpty_Append capacity newHash)
      else if (2 *u64 size) <? capacity then NewMerkleInternal (MerkleTree_Append left_ newHash) right_
      else NewMerkleInternal left_ (MerkleTree_Append right_ newHash)
  | merkleCompleteSubtreeSummary _ capacity => NewMerkleInternal t (merkleEmpty_Append capacity newHash)
  end.

Definition summaryFromMerkleTree (subtree : MerkleTree) : outcome MerkleTree :=
  if MerkleTree_Size subtree =? 1 then Ok subtree
  else if negb (MerkleTree_Size subtree =? MerkleTree_Capacity subtree)
  then Panic "tried to summarize a non-full MerkleTree node"
  else Ok (merkleCompleteSubtreeSummary (MerkleTree_Hash subtree) (MerkleTree_Capacity subtree)).

Fixpoint MerkleTree_SummarizeUpTo (t : MerkleTree) (num : Z) : outcome MerkleTree :=
  match t with
  | merkleInternal _ _ capacity left_ right_ =>
      if num =? capacity then summaryFromMerkleTree t
      else
        let leftSize := MerkleTree_Size left_ in
        if num <=? leftSize then
          let? left_ := MerkleTree_SummarizeUpTo left_ num in
          Ok (NewMerkleInternal left_ right_)
        else
          let? left_ := summaryFromMerkleTree left_ in
          let? right_ := MerkleTree_SummarizeUpTo right_ (num -u64 leftSize) in
          Ok (NewMerkleInternal left_ right_)
  | _ => Ok t
  end.

(** The bytes written. *)
Fixpoint MerkleTree_Serialize (t : MerkleTree) : list Z :=
  match t with
  | merkleTreeLeaf hash => [SerializedLeaf] ++ Hash_Bytes hash
  | merkleEmpty capacity => [SerializedEmptySubtree] ++ be_bytes 8 capacity
  | merkleInternal _ _ _ left_ right_ =>
      [SerializedInternalNode] ++ MerkleTree_Serialize left_ ++ MerkleTree_Serialize right_
  | merkleCompleteSubtreeSummary hash capacity =>
      [SerializedSubtreeSummary] ++ be_bytes 8 capacity ++ Hash_Bytes hash
  end.

(** Every node takes at least one byte, so the length of the input bounds the
    recursion. *)
Fixpoint NewMerkleTreeFromReader_loop (fuel : nat) (rd : list Z) : outcome (MerkleTree * list Z) :=
  match rd, fuel with
  | [], _ => Err EOF
  | _, O => Panic "unreachable"
  | type :: rd, S fuel =>
      if type =? SerializedLeaf then
        let? (hash, rd) := HashFromReader rd in Ok (NewMerkleLeaf hash, rd)
      else if type =? SerializedInternalNode then
        let? (left_, rd) := NewMerkleTreeFromReader_loop fuel rd in
        let? (right_, rd) := NewMerkleTreeFromReader_loop fuel rd in
        Ok (NewMerkleInternal left_ right_, rd)
      else if type =? SerializedEmptySubtree then
        let? (capacity, rd) := Uint64FromReader rd in Ok (NewMerkleEmpty capacity, rd)
      else if type =? SerializedSubtreeSummary then
        let? (capacity, rd) := Uint64FromReader rd in
        let? (hash, rd) := HashFromReader rd in
        Ok (merkleCompleteSubtreeSummary hash capacity, rd)
      else Err (ErrNew "invalid node type in deserializing Merkle tree")
  end.

Definition NewMerkleTreeFromReader (rd : list Z) : outcome (MerkleTree * list Z) :=
  NewMerkleTreeFromReader_loop (length rd) rd.

(** One round of the loop of [IsCorrect] on the hash and the index. *)
Definition IsCorrect_step (st : Z * Z) (hashFromProof : Z) : Z * Z :=
  let '(hash, index) := st in
  let hash :=
    if Z.land index 1 =? 0 then keccak256 (Hash_Bytes hash ++ Hash_Bytes hashFromProof)
    else keccak256 (Hash_Bytes hashFromProof ++ Hash_Bytes hash) in
  (hash, index / 2).

Definition MerkleProof_IsCorrect (proof : MerkleProof) : bool :=
  let '(hash, index) := fold_left IsCorrect_step (mp_Proof proof) (mp_LeafHash proof, mp_LeafIndex proof) in
  if negb (index =? 0) then false else hash =? mp_RootHash proof.

(** ** merkleEventProof.go *)

(** [for tree.Capacity() < capacity]: the capacity doubles, at most 64 times. *)
Fixpoint FromAccumulator_pad_loop (fuel : nat) (tree : MerkleTree) (capacity : Z) : outcome MerkleTree :=
  if MerkleTree_Capacity tree <? capacity then
    match fuel with
    | O => Panic "unreachable"
    | S fuel =>
        FromAccumulator_pad_loop fuel (NewMerkleInternal tree (NewMerkleEmpty (MerkleTree_Capacity tree))) capacity
    end
  else Ok tree.

Fixpoint FromAccumulator_loop (partials : list Z) (level capacity : Z) (tree : option MerkleTree)
  : outcome (option MerkleTree) :=
  match partials with
  | [] => Ok tree
  | partial :: partials =>
      let? tree :=
        if negb (partial =? 0) then
          let thisLevel := if level =? 0 then NewMerkleLeaf partial else NewSummaryMerkleTree partial capacity in
          match tree with
          | None => Ok (Some thisLevel)
          | Some tree =>
              let? tree := FromAccumulator_pad_loop 64 tree capacity in
              Ok (Some (NewMerkleInternal thisLevel tree))
          end
        else Ok tree in
      FromAccumulator_loop partials (level + 1) (capacity *u64 2) tree
  end.

(** [None] is the nil interface. *)
Definition NewMerkleTreeFromAccumulator (acc : MerkleAccumulator) : M (option MerkleTree * MerkleAccumulator) :=
  let* (partials, acc) := MerkleAccumulator_GetPartials acc in
  if Nat.eqb (length partials) 0 then ret (Some NewEmptyMerkleTree, acc)
  else
    let* tree := lift (FromAccumulator_loop partials 0 1 None) in
    ret (tree, acc).

(** The loop of [NewNonPersistentMerkleAccumulatorFromEvents] from the last
    event down to the first. *)
Fixpoint FromEvents_loop (events : list MerkleTreeNodeEvent) (latestSeen : Z) (partials : list Z) : list Z :=
  match events with
  | [] => partials
  | event :: events =>
      if latestSeen <? Event_NumLeaves event
      then FromEvents_loop events (Event_NumLeaves event) (Event_Hash event :: partials)
      else FromEvents_loop events latestSeen (0 :: partials)
  end.

Definition NewNonPersistentMerkleAccumulatorFromEvents (events : list MerkleTreeNodeEvent) : outcome MerkleAccumulator :=
  NewNonpersistentMerkleAccumulatorFromPartials (map Some (FromEvents_loop (rev events) 0 [])).

Definition NewMerkleTreeFromEvents (events : list MerkleTreeNodeEvent) : M (option MerkleTree * MerkleAccumulator) :=
  let* acc := lift (NewNonPersistentMerkleAccumulatorFromEvents events) in
  NewMerkleTreeFromAccumulator acc.
End Operations.

(** ** Trees that represent a list of leaf hashes *)

Section Facts.
Context {E : Env} {EL : EnvLaws E}.

(** [trep d t l]: the tree [t] of capacity [2 ^ d] holds the leaf hashes [l],
    filled from the left. *)
Fixpoint trep (d : nat) (t : MerkleTree) (l : list Z) : Prop :=
  match t with
  | merkleTreeLeaf h => d = 0%nat /\ l = [leaf h]
  | merkleEmpty c => c = 2 ^ Z.of_nat d /\ l = []
  | merkleInternal h s c t1 t2 =>
      exists d' l1 l2, d = S d' /\ l = l1 ++ l2 /\ trep d' t1 l1 /\ trep d' t2 l2 /\ l1 <> [] /\
        (l2 <> [] -> length l1 = (2 ^ d')%nat) /\
        h = mroot d l /\ s = Z.of_nat (length l) /\ c = 2 ^ Z.of_nat d
  | merkleCompleteSubtreeSummary h c => c = 2 ^ Z.of_nat d /\ length l = (2 ^ d)%nat /\ h = mroot d l
  end.

Lemma trep_hash d t l : trep d t l -> MerkleTree_Hash t = mroot d l.
Proof.
  destruct t; cbn [trep MerkleTree_Hash].
  - intros [-> ->]. reflexivity.
  - intros [_ ->]. symmetry. apply mroot_nil.
  - intros (d' & l1 & l2 & -> & -> & _ & _ & _ & _ & -> & _). reflexivity.
  - intros (_ & _ & ->). reflexivity.
Qed.

Lemma trep_size d t l : trep d t l -> MerkleTree_Size t = Z.of_nat (length l).
Proof.
  destruct t; cbn [trep MerkleTree_Size].
  - intros [_ ->]. reflexivity.
  - intros [_ ->]. reflexivity.
  - intros (d' & l1 & l2 & _ & _ & _ & _ & _ & _ & _ & -> & _). reflexivity.
  - intros (-> & -> & _). symmetry. apply pow2_nat_Z.
Qed.

Lemma trep_capacity d t l : trep d t l -> MerkleTree_Capacity t = 2 ^ Z.of_nat d.
Proof.
  destruct t; cbn [trep MerkleTree_Capacity].
  - intros [-> _]. reflexivity.
  - intros [-> _]. reflexivity.
  - intros (d' & l1 & l2 & _ & _ & _ & _ & _ & _ & _ & _ & ->). reflexivity.
  - intros [-> _]. reflexivity.
Qed.

Lemma trep_length d t l : trep d t l -> (length l <= 2 ^ d)%nat.
Proof.
  revert d l. induction t as [h|c|h s c t1 IH1 t2 IH2|h c]; intros d l; cbn [trep].
  - intros [-> ->]. cbn. lia.
  - intros [_ ->]. cbn. lia.
  - intros (d' & l1 & l2 & -> & -> & H1 & H2 & _). apply IH1 in H1. apply IH2 in H2.
    rewrite length_app. cbn [Nat.pow]. lia.
  - intros (_ & -> & _). lia.
Qed.

(** The hash of an inner node whose left half is full, or whose right half is
    empty. *)
Lemma mroot_split d l1 l2 : l1 <> [] -> (length l1 <= 2 ^ d)%nat -> (l2 <> [] -> length l1 = (2 ^ d)%nat) ->
  mroot (S d) (l1 ++ l2) = node (mroot d l1) (mroot d l2).
Proof.
  intros Hne Hle Hfull. destruct l2 as [|x l2].
  - rewrite app_nil_r, mroot_S, take_ge, drop_ge by auto. reflexivity.
  - apply mroot_app, Hfull. discriminate.
Qed.

Lemma trep_internal d t1 t2 l1 l2 :
  trep d t1 l1 -> trep d t2 l2 -> l1 <> [] -> (l2 <> [] -> length l1 = (2 ^ d)%nat) -> (d < 62)%nat ->
  trep (S d) (NewMerkleInternal t1 t2) (l1 ++ l2).
Proof.
  intros H1 H2 Hne Hfull Hd. pose proof (trep_length _ _ _ H1) as L1. pose proof (trep_length _ _ _ H2) as L2.
  cbn [NewMerkleInternal trep]. exists d, l1, l2. do 6 (split; [auto|]).
  rewrite (trep_hash _ _ _ H1), (trep_hash _ _ _ H2), (trep_size _ _ _ H1), (trep_size _ _ _ H2),
    (trep_capacity _ _ _ H1), (trep_capacity _ _ _ H2).
  split; [symmetry; apply mroot_split; auto|]. rewrite length_app, Nat2Z.inj_add, Nat2Z.inj_succ, Z.pow_succ_r by lia.
  apply Nat2Z.inj_le in L1, L2. rewrite pow2_nat_Z in L1, L2.
  assert (0 < 2 ^ Z.of_nat d < 2 ^ 62) by (split; [apply pow2_pos; lia|apply Z.pow_lt_mono_r; lia]).
  rewrite !uwrap_id by uint. lia.
Qed.

Lemma log2_half d : Z.to_nat (Z.log2 (2 ^ Z.of_nat d)) = d.
Proof. rewrite Z.log2_pow2 by lia. apply Nat2Z.id. Qed.

Lemma half_pow d : 2 ^ Z.of_nat (S d) / 2 = 2 ^ Z.of_nat d.
Proof. rewrite Nat2Z.inj_succ, Z.pow_succ_r, Z.mul_comm, Z.div_mul by lia. reflexivity. Qed.

Lemma trep_empty_append x : forall d, (d < 63)%nat -> trep d (merkleEmpty_Append (2 ^ Z.of_nat d) x) [leaf x].
Proof.
  intros d Hd. unfold merkleEmpty_Append. rewrite log2_half.
  induction d as [|d IH]; [split; reflexivity|]. cbn [merkleEmpty_Append_loop].
  destruct (Z.leb_spec (2 ^ Z.of_nat (S d)) 1) as [Hle|_].
  { rewrite Nat2Z.inj_succ, Z.pow_succ_r in Hle by lia. pose proof (pow2_pos (Z.of_nat d) ltac:(lia)). lia. }
  rewrite half_pow. cbv zeta. rewrite <- (app_nil_r [leaf x]).
  apply trep_internal; [apply IH; lia|split; reflexivity|discriminate|congruence|lia].
Qed.

(** Appending to a tree with room left, and to a full one. *)
Lemma trep_append t x : forall d l, trep d t l -> (d < 62)%nat ->
  (length l < 2 ^ d -> trep d (MerkleTree_Append t x) (l ++ [leaf x]))%nat /\
  (length l = 2 ^ d -> trep (S d) (MerkleTree_Append t x) (l ++ [leaf x]))%nat.
Proof.
  assert (forall d t l, trep d t l -> (d < 62)%nat -> length l = (2 ^ d)%nat ->
    trep (S d) (NewMerkleInternal t (merkleEmpty_Append (2 ^ Z.of_nat d) x)) (l ++ [leaf x])) as Hfull.
  { intros d t' l H Hd Hl. apply trep_internal; auto; [apply trep_empty_append; lia|].
    intros ->. pose proof (pow2_nat_pos d). cbn in Hl. lia. }
  induction t as [h|c|h s c t1 IH1 t2 IH2|h c]; intros d l H Hd; pose proof (trep_length _ _ _ H) as Hlen.
  - pose proof H as [-> ->]. split; [cbn; lia|]. intros _. cbn [MerkleTree_Append].
    apply (trep_internal 0 _ (NewMerkleLeaf x) [leaf h] [leaf x]);
      [exact H|split; reflexivity|discriminate|reflexivity|lia].
  - pose proof H as [-> ->]. cbn [MerkleTree_Append app]. split; [intros _; apply trep_empty_append; lia|].
    pose proof (pow2_nat_pos d). cbn. lia.
  - pose proof H as (d' & l1 & l2 & -> & -> & H1 & H2 & Hne & Hf & -> & -> & ->).
    pose proof (trep_length _ _ _ H1) as L1. pose proof (trep_length _ _ _ H2) as L2.
    cbn [MerkleTree_Append]. rewrite length_app in *. split; intros Hl.
    + destruct (Z.eqb_spec (Z.of_nat (length l1 + length l2)) (2 ^ Z.of_nat (S d'))) as [He|_];
        [rewrite <- pow2_nat_Z in He; lia|].
      assert (2 ^ Z.of_nat d' < 2 ^ 62) by (apply Z.pow_lt_mono_r; lia).
      assert (Z.of_nat (length l1 + length l2) < 2 ^ 62)
        by (apply (Z.lt_le_trans _ (2 ^ Z.of_nat (S d'))); [rewrite <- pow2_nat_Z; lia|apply Z.pow_le_mono_r; lia]).
      rewrite uwrap_id by uint. destruct (Z.ltb_spec (2 * Z.of_nat (length l1 + length l2)) (2 ^ Z.of_nat (S d'))) as [Hlt|Hge];
        rewrite <- pow2_nat_Z in *; cbn [Nat.pow] in *.
      * assert (l2 = []) as ->. { destruct l2; [reflexivity|]. specialize (Hf ltac:(discriminate)). cbn in *. lia. }
        rewrite app_nil_r in *. cbn [length] in *. rewrite <- (app_nil_r (l1 ++ [leaf x])).
        apply trep_internal; [apply IH1; auto; lia|exact H2|destruct l1; discriminate|congruence|lia].
      * assert (length l1 = 2 ^ d')%nat. { destruct l2; [cbn in *; lia|apply Hf; discriminate]. }
        rewrite <- app_assoc. apply trep_internal; [exact H1|apply IH2; auto; lia|exact Hne|auto|lia].
    + rewrite Hl, pow2_nat_Z in H |- *. rewrite Z.eqb_refl. apply Hfull; [exact H|exact Hd|rewrite length_app; exact Hl].
  - pose proof H as (-> & Hl & _). split; [lia|]. intros _. cbn [MerkleTree_Append]. apply Hfull; auto.
Qed.

(** The tree after appending the items to the empty tree. *)
Definition tree_of (items : list Z) : MerkleTree := fold_left MerkleTree_Append items NewEmptyMerkleTree.

Lemma tree_of_trep items : items <> [] -> Z.of_nat (length items) <= 2 ^ 61 ->
  exists d, (d < 62)%nat /\ trep d (tree_of items) (map leaf items) /\ (d = 0 \/ 2 ^ (d - 1) < length items)%nat.
Proof.
  induction items as [|x items IH] using rev_ind; [congruence|]. intros _ Hlen.
  unfold tree_of. rewrite fold_left_app, map_app, length_app in *. cbn [fold_left map length] in *. fold (tree_of items).
  destruct items as [|y items]; [exists 0%nat; split; [lia|]; split; [split; reflexivity|auto]|].
  destruct IH as (d & Hd & Ht & Hmin); [discriminate|lia|]. set (its := y :: items) in *.
  pose proof (trep_length _ _ _ Ht) as Hl. rewrite length_map in Hl.
  destruct (trep_append _ x d _ Ht Hd) as [Hroom Hfull]. rewrite length_map in Hroom, Hfull.
  destruct (decide (length its = 2 ^ d)%nat) as [He|Hne].
  - assert (d < 61)%nat as Hd' by (apply Nat2Z.inj_lt, (Z.pow_lt_mono_r_iff 2); [lia|lia|rewrite <- pow2_nat_Z; lia]).
    exists (S d). split; [lia|]. split; [apply Hfull, He|]. right. replace (S d - 1)%nat with d by lia. lia.
  - exists d. split; [exact Hd|]. split; [apply Hroom; lia|]. lia.
Qed.

Lemma tree_of_hash items : Z.of_nat (length items) <= 2 ^ 61 ->
  MerkleTree_Hash (tree_of items) = merkle_root (map leaf items) /\
  MerkleTree_Size (tree_of items) = Z.of_nat (length items).
Proof.
  intros Hlen. destruct items as [|x items]; [split; reflexivity|].
  destruct (tree_of_trep (x :: items) ltac:(discriminate) Hlen) as (d & _ & Ht & Hmin).
  rewrite (trep_hash _ _ _ Ht), (trep_size _ _ _ Ht), length_map. split; [|reflexivity].
  pose proof (trep_length _ _ _ Ht) as Hl. unfold merkle_root. rewrite (depth_unique d); [reflexivity|..];
    rewrite ?length_map in *; cbn [length] in *; auto; lia.
Qed.

(** ** Summaries *)

Lemma summary_trep d t l : trep d t l -> length l = (2 ^ d)%nat -> (d < 62)%nat ->
  exists t', summaryFromMerkleTree t = Ok t' /\ trep d t' l.
Proof.
  intros H Hl Hd. unfold summaryFromMerkleTree. rewrite (trep_size _ _ _ H), (trep_capacity _ _ _ H), (trep_hash _ _ _ H).
  destruct (_ =? 1); [eauto|]. rewrite Hl, pow2_nat_Z, Z.eqb_refl. cbn [negb].
  eexists. split; [reflexivity|]. cbn [trep]. auto.
Qed.

Lemma summarize_trep t : forall d l num, trep d t l -> (d < 62)%nat -> 1 <= num <= Z.of_nat (length l) ->
  exists t', MerkleTree_SummarizeUpTo t num = Ok t' /\ trep d t' l.
Proof.
  induction t as [h|c|h s c t1 IH1 t2 IH2|h c]; intros d l num H Hd Hnum; try (eexists; split; [reflexivity|exact H]).
  pose proof H as (d' & l1 & l2 & -> & -> & H1 & H2 & Hne & Hf & -> & -> & ->).
  pose proof (trep_length _ _ _ H) as L. pose proof (trep_length _ _ _ H1) as L1. cbn [MerkleTree_SummarizeUpTo].
  destruct (Z.eqb_spec num (2 ^ Z.of_nat (S d'))) as [->|Hn].
  - apply summary_trep; auto. rewrite <- pow2_nat_Z in Hnum. lia.
  - rewrite (trep_size _ _ _ H1). cbv zeta. rewrite length_app in Hnum.
    destruct (Z.leb_spec num (Z.of_nat (length l1))) as [Hle|Hgt].
    + destruct (IH1 d' l1 num H1 ltac:(lia) ltac:(lia)) as (t' & -> & Ht'). cbn [obind].
      eexists. split; [reflexivity|]. apply trep_internal; auto. lia.
    + assert (length l1 = 2 ^ d')%nat as Hfull by (apply Hf; intros ->; cbn in Hnum; lia).
      destruct (summary_trep d' t1 l1 H1 Hfull ltac:(lia)) as (t1' & -> & Ht1). cbn [obind].
      assert (Z.of_nat (length l1 + length l2) <= 2 ^ 62).
      { rewrite length_app in L. apply Nat2Z.inj_le in L. rewrite pow2_nat_Z in L.
        etransitivity; [exact L|apply Z.pow_le_mono_r; lia]. }
      rewrite uwrap_id by uint.
      destruct (IH2 d' l2 (num - Z.of_nat (length l1)) H2 ltac:(lia) ltac:(lia)) as (t' & -> & Ht'). cbn [obind].
      eexists. split; [reflexivity|]. apply trep_internal; auto. lia.
Qed.

(** ** Serialization *)

(** The inner nodes hold what [NewMerkleInternal] computes, the words fit. *)
Fixpoint tree_wf (t : MerkleTree) : Prop :=
  match t with
  | merkleTreeLeaf h => in_u 256 h
  | merkleEmpty c => in_u 64 c
  | merkleInternal _ _ _ t1 t2 => t = NewMerkleInternal t1 t2 /\ tree_wf t1 /\ tree_wf t2
  | merkleCompleteSubtreeSummary h c => in_u 256 h /\ in_u 64 c
  end.

Lemma FromReader_loop_serialize t : forall fuel rest, tree_wf t -> (length (MerkleTree_Serialize t) <= fuel)%nat ->
  NewMerkleTreeFromReader_loop fuel (MerkleTree_Serialize t ++ rest) = Ok (t, rest).
Proof.
  induction t as [h|c|h s c t1 IH1 t2 IH2|h c]; intros fuel rest Hwf Hf;
    (destruct fuel as [|fuel]; [cbn in Hf; lia|]); cbn [MerkleTree_Serialize app] in *; cbn [NewMerkleTreeFromReader_loop].
  - change (SerializedLeaf =? SerializedLeaf) with true. cbv iota. rewrite HashFromReader_bytes by exact Hwf. reflexivity.
  - change (SerializedEmptySubtree =? SerializedLeaf) with false.
    change (SerializedEmptySubtree =? SerializedInternalNode) with false.
    change (SerializedEmptySubtree =? SerializedEmptySubtree) with true. cbv iota.
    rewrite Uint64FromReader_bytes by exact Hwf. reflexivity.
  - change (SerializedInternalNode =? SerializedLeaf) with false.
    change (SerializedInternalNode =? SerializedInternalNode) with true. cbv iota.
    destruct Hwf as (-> & H1 & H2). cbn [length] in Hf. rewrite length_app in Hf. rewrite <- app_assoc.
    rewrite IH1 by (auto; lia). cbn [obind]. rewrite IH2 by (auto; lia). reflexivity.
  - change (SerializedSubtreeSummary =? SerializedLeaf) with false.
    change (SerializedSubtreeSummary =? SerializedInternalNode) with false.
    change (SerializedSubtreeSummary =? SerializedEmptySubtree) with false.
    change (SerializedSubtreeSummary =? SerializedSubtreeSummary) with true. cbv iota.
    destruct Hwf as [H1 H2]. rewrite <- app_assoc, Uint64FromReader_bytes by exact H2. cbn [obind].
    rewrite HashFromReader_bytes by exact H1. reflexivity.
Qed.

Lemma tree_wf_internal t1 t2 : tree_wf t1 -> tree_wf t2 -> tree_wf (NewMerkleInternal t1 t2).
Proof. intros H1 H2. cbn [NewMerkleInternal tree_wf]. auto. Qed.

Lemma tree_wf_hash t : tree_wf t -> in_u 256 (MerkleTree_Hash t).
Proof.
  destruct t; cbn [tree_wf MerkleTree_Hash]; intros H; [apply keccak256_range|uint| |apply H].
  destruct H as (He & _). injection He as -> _ _. apply keccak256_range.
Qed.

Lemma tree_wf_capacity t : tree_wf t -> in_u 64 (MerkleTree_Capacity t).
Proof.
  destruct t; cbn [tree_wf MerkleTree_Capacity]; intros H; [uint|exact H| |apply H].
  destruct H as (He & _). injection He as _ _ ->. apply u64_range.
Qed.

Lemma tree_wf_empty_append x fuel : forall c, in_u 256 x -> in_u 64 c -> tree_wf (merkleEmpty_Append_loop fuel c x).
Proof.
  induction fuel as [|fuel IH]; intros c Hx Hc; cbn [merkleEmpty_Append_loop]; destruct (_ <=? 1); auto.
  assert (in_u 64 (c / 2)) by (split; [apply Z.div_pos; unfold in_u in Hc; lia|apply Z.div_lt_upper_bound; unfold in_u in Hc; lia]).
  apply tree_wf_internal; [apply IH; auto|assumption].
Qed.

Lemma tree_wf_append t x : in_u 256 x -> tree_wf t -> tree_wf (MerkleTree_Append t x).
Proof.
  intros Hx. induction t as [h|c|h s c t1 IH1 t2 IH2|h c]; intros H; cbn [MerkleTree_Append].
  - apply tree_wf_internal; auto.
  - apply tree_wf_empty_append; auto.
  - pose proof (tree_wf_capacity _ H) as Hc. destruct (_ =? _); [apply tree_wf_internal; [exact H|apply tree_wf_empty_append; auto]|].
    destruct H as (_ & H1 & H2). destruct (_ <? _); apply tree_wf_internal; auto.
  - apply tree_wf_internal; [exact H|]. apply tree_wf_empty_append; [exact Hx|apply H].
Qed.

Lemma tree_wf_summary t t' : tree_wf t -> summaryFromMerkleTree t = Ok t' -> tree_wf t'.
Proof.
  intros H. unfold summaryFromMerkleTree. destruct (_ =? 1); [intros [= <-]; exact H|].
  destruct (negb _); [discriminate|]. intros [= <-]. split; [apply tree_wf_hash, H|apply tree_wf_capacity, H].
Qed.

Lemma tree_wf_summarize t : forall num t', tree_wf t -> MerkleTree_SummarizeUpTo t num = Ok t' -> tree_wf t'.
Proof.
  induction t as [h|c|h s c t1 IH1 t2 IH2|h c]; intros num t' H; cbn [MerkleTree_SummarizeUpTo];
    try (intros [= <-]; exact H).
  destruct (num =? c); [apply tree_wf_summary, H|]. destruct H as (_ & H1 & H2). cbv zeta.
  destruct (num <=? _).
  - destruct (MerkleTree_SummarizeUpTo t1 num) eqn:He1; cbn [obind]; try discriminate. intros [= <-].
    apply tree_wf_internal; [exact (IH1 _ _ H1 He1)|exact H2].
  - destruct (summaryFromMerkleTree t1) eqn:He1; cbn [obind]; try discriminate.
    destruct (MerkleTree_SummarizeUpTo t2 _) eqn:He2; cbn [obind]; try discriminate. intros [= <-].
    apply tree_wf_internal; [exact (tree_wf_summary _ _ H1 He1)|exact (IH2 _ _ H2 He2)].
Qed.

Lemma tree_of_wf items : Forall (in_u 256) items -> tree_wf (tree_of items).
Proof.
  unfold tree_of. induction items as [|x items IH] using rev_ind; intros H; [cbn; uint|].
  apply Forall_app in H as [H1 H2]. rewrite fold_left_app. cbn [fold_left]. apply tree_wf_append; [|auto].
  inversion H2; assumption.
Qed.

(** ** Proofs *)

(** The siblings on the way from the leaf [i] to the root of depth [d]. *)
Fixpoint siblings (d : nat) (l : list Z) (i : nat) : list Z :=
  match d with
  | O => []
  | S d =>
      if Nat.ltb i (2 ^ d) then siblings d (take (2 ^ d) l) i ++ [mroot d (drop (2 ^ d) l)]
      else siblings d (drop (2 ^ d) l) (i - 2 ^ d) ++ [mroot d (take (2 ^ d) l)]
  end.

Lemma land_1_double m : 0 <= m -> Z.land (2 * m) 1 = 0 /\ Z.land (2 * m + 1) 1 = 1.
Proof.
  intros Hm. assert (forall z, Z.land z 1 = z mod 2) as H by (intros z; exact (Z.land_ones z 1 ltac:(lia))).
  rewrite !H. split; symmetry; apply (Z.mod_unique_pos _ _ m); lia.
Qed.

Lemma siblings_fold d : forall l i x m, l !! i = Some x -> (i < 2 ^ d)%nat -> 0 <= m ->
  fold_left IsCorrect_step (siblings d l i) (x, Z.of_nat i + m * 2 ^ Z.of_nat d) = (mroot d l, m).
Proof.
  induction d as [|d IH]; intros l i x m Hx Hi Hm; cbn [siblings].
  - cbn in Hi. replace i with 0%nat in * by lia. destruct l; [discriminate|]. injection Hx as ->. cbn. f_equal. lia.
  - assert (l <> []) as Hne by (intros ->; discriminate). rewrite mroot_S by exact Hne.
    rewrite Nat2Z.inj_succ, Z.pow_succ_r by lia. cbn [Nat.pow] in Hi. pose proof (pow2_nat_Z d) as Hp.
    destruct (land_1_double m Hm) as [Heven Hodd].
    destruct (Nat.ltb_spec i (2 ^ d)) as [Hlt|Hge]; rewrite fold_left_app.
    + replace (Z.of_nat i + m * (2 * 2 ^ Z.of_nat d)) with (Z.of_nat i + (2 * m) * 2 ^ Z.of_nat d) by lia.
      rewrite (IH _ i x (2 * m)); [|rewrite lookup_take_lt by exact Hlt; exact Hx|exact Hlt|lia].
      cbn [fold_left IsCorrect_step]. rewrite Heven. cbn [Z.eqb]. f_equal. rewrite Z.mul_comm, Z.div_mul by lia. reflexivity.
    + replace (Z.of_nat i + m * (2 * 2 ^ Z.of_nat d)) with (Z.of_nat (i - 2 ^ d) + (2 * m + 1) * 2 ^ Z.of_nat d) by lia.
      rewrite (IH _ (i - 2 ^ d)%nat x (2 * m + 1));
        [|rewrite lookup_drop; replace (2 ^ d + (i - 2 ^ d))%nat with i by lia; exact Hx|lia|lia].
      cbn [fold_left IsCorrect_step]. rewrite Hodd. cbn [Z.eqb]. f_equal.
      symmetry. apply (Z.div_unique _ _ _ 1); lia.
Qed.

Lemma length_siblings d : forall l i, length (siblings d l i) = d.
Proof.
  induction d as [|d IH]; intros l i; cbn [siblings]; [reflexivity|].
  destruct (Nat.ltb i (2 ^ d)); rewrite length_app, IH; cbn; lia.
Qed.

Lemma mroot_range d l : Forall (in_u 256) l -> in_u 256 (mroot d l).
Proof.
  intros Hl. destruct l as [|h l]; [rewrite mroot_nil; uint|]. destruct d; cbn [mroot]; [|apply node_range].
  apply list.Forall_cons in Hl as [Hh _]. exact Hh.
Qed.

Lemma siblings_range d : forall l i, Forall (in_u 256) l -> Forall (in_u 256) (siblings d l i).
Proof.
  induction d as [|d IH]; intros l i Hl; cbn [siblings]; [constructor|].
  pose proof (Forall_take (in_u 256) (2 ^ d) l Hl) as H1. pose proof (Forall_drop (in_u 256) (2 ^ d) l Hl) as H2.
  destruct (Nat.ltb i (2 ^ d)); apply Forall_app; (split; [apply IH; assumption|]); repeat constructor; apply mroot_range; assumption.
Qed.

(** What is hashed on the way from the hash [h] of the leaf [i] to the root. *)
Fixpoint path_inputs (h i : Z) (proof : list Z) : list (list Z) :=
  match proof with
  | [] => []
  | x :: rest =>
      let input := if Z.even i then Hash_Bytes h ++ Hash_Bytes x else Hash_Bytes x ++ Hash_Bytes h in
      input :: path_inputs (keccak256 input) (i / 2) rest
  end.

(** Two paths hash different inputs to one digest at the same height. *)
Definition paths_collide (xs ys : list (list Z)) : Prop :=
  exists k x y, xs !! k = Some x /\ ys !! k = Some y /\ x <> y /\ keccak256 x = keccak256 y.

Lemma paths_collide_cons x y xs ys : paths_collide xs ys -> paths_collide (x :: xs) (y :: ys).
Proof. intros (k & H). exists (S k). exact H. Qed.

Lemma Hash_Bytes_app_inj a b c e :
  in_u 256 a -> in_u 256 b -> in_u 256 c -> in_u 256 e ->
  Hash_Bytes a ++ Hash_Bytes b = Hash_Bytes c ++ Hash_Bytes e -> a = c /\ b = e.
Proof.
  intros Ha Hb Hc He Heq. apply app_inj_2 in Heq as [H1 H2]; [|rewrite !length_Hash_Bytes; reflexivity].
  split; apply (be_bytes_inj 32); assumption.
Qed.

(** The step of the loop hashes the next input of the path. *)
Lemma IsCorrect_step_input h i x :
  IsCorrect_step (h, i) x = (keccak256 (if Z.even i then Hash_Bytes h ++ Hash_Bytes x else Hash_Bytes x ++ Hash_Bytes h), i / 2).
Proof.
  unfold IsCorrect_step, node.
  replace (Z.land i 1 =? 0) with (Z.even i); [destruct (Z.even i); reflexivity|].
  change 1 with (Z.ones 1). rewrite Z.land_ones by lia. change (2 ^ 1) with 2. rewrite Zmod_even. destruct (Z.even i); reflexivity.
Qed.

Lemma proofs_bind p1 : forall p2 h1 h2 i,
  length p1 = length p2 -> Forall (in_u 256) p1 -> Forall (in_u 256) p2 -> in_u 256 h1 -> in_u 256 h2 ->
  (fold_left IsCorrect_step p1 (h1, i)).1 = (fold_left IsCorrect_step p2 (h2, i)).1 ->
  h1 = h2 \/ paths_collide (path_inputs h1 i p1) (path_inputs h2 i p2).
Proof.
  induction p1 as [|x1 p1 IH]; intros [|x2 p2] h1 h2 i Hl F1 F2 R1 R2 H; try discriminate; [left; exact H|].
  apply list.Forall_cons in F1 as [X1 F1], F2 as [X2 F2]. cbn [fold_left length path_inputs] in *.
  rewrite !IsCorrect_step_input in H.
  destruct (IH p2 _ _ _ ltac:(lia) F1 F2 (keccak256_range _) (keccak256_range _) H) as [He|Hc]; [|right; apply paths_collide_cons, Hc].
  destruct (decide (h1 = h2)) as [?|Hne]; [left; assumption|right].
  exists 0%nat. eexists _, _. do 2 (split; [reflexivity|]). split; [|exact He].
  destruct (Z.even i); intros [? ?]%Hash_Bytes_app_inj; auto.
Qed.

(** ** Trees from an accumulator *)

Lemma FromAccumulator_pad_hash n : forall fuel t c, (n <= fuel)%nat -> (c + n < 62)%nat ->
  MerkleTree_Capacity t = 2 ^ Z.of_nat c ->
  exists t', FromAccumulator_pad_loop fuel t (2 ^ Z.of_nat (c + n)) = Ok t' /\
    MerkleTree_Hash t' = pad n (MerkleTree_Hash t) /\ MerkleTree_Capacity t' = 2 ^ Z.of_nat (c + n).
Proof.
  induction n as [|n IH]; intros fuel t c Hf Hc Hcap.
  - rewrite Nat.add_0_r. exists t. destruct fuel; cbn [FromAccumulator_pad_loop]; rewrite Hcap, Z.ltb_irrefl; auto.
  - destruct fuel as [|fuel]; [lia|]. cbn [FromAccumulator_pad_loop]. rewrite Hcap.
    rewrite (proj2 (Z.ltb_lt _ _)) by (apply Z.pow_lt_mono_r; lia).
    destruct (IH fuel (NewMerkleInternal t (NewMerkleEmpty (2 ^ Z.of_nat c))) (S c)) as (t' & He & Hh & Hc'); [lia|lia| |].
    { cbn [NewMerkleInternal MerkleTree_Capacity NewMerkleEmpty]. rewrite Hcap.
      assert (0 < 2 ^ Z.of_nat c < 2 ^ 62) by (split; [apply pow2_pos; lia|apply Z.pow_lt_mono_r; lia]).
      rewrite uwrap_id by uint. rewrite Nat2Z.inj_succ, Z.pow_succ_r by lia. lia. }
    replace (S c + n)%nat with (c + S n)%nat in * by lia. exists t'. split; [exact He|]. split; [exact Hh|exact Hc'].
Qed.

(** The tree so far, against the accumulator of [combine]. *)
Definition tree_acc (tree : option MerkleTree) (acc : option (Z * nat)) (i : nat) : Prop :=
  match tree, acc with
  | None, None => True
  | Some t, Some (h, c) => MerkleTree_Hash t = h /\ MerkleTree_Capacity t = 2 ^ Z.of_nat c /\ (c <= i)%nat
  | _, _ => False
  end.

Lemma FromAccumulator_loop_combine ps : forall i tree acc, (0 < i)%nat -> (i + length ps <= 61)%nat -> tree_acc tree acc i ->
  exists tree', FromAccumulator_loop ps (Z.of_nat i) (2 ^ Z.of_nat i) tree = Ok tree' /\
    MerkleTree_Hash <$> tree' = combine i ps acc.
Proof.
  induction ps as [|p ps IH]; intros i tree acc Hi Hlen Ht; cbn [FromAccumulator_loop combine length] in *.
  - exists tree. split; [reflexivity|]. destruct tree as [t|], acc as [[h c]|]; try contradiction; [|reflexivity].
    destruct Ht as [<- _]. reflexivity.
  - assert (2 ^ Z.of_nat i *u64 2 = 2 ^ Z.of_nat (S i)) as Hd by (apply pow2_double_u64; lia).
    replace (Z.of_nat i + 1) with (Z.of_nat (S i)) by lia. rewrite Hd.
    destruct (Z.eqb_spec p 0) as [->|Hp]; cbn [negb].
    + cbn [obind]. apply IH; [lia|lia|]. destruct tree as [t|], acc as [[h c]|]; cbn in *; intuition lia.
    + destruct (Z.eqb_spec (Z.of_nat i) 0) as [?|_]; [lia|]. cbv zeta.
      destruct tree as [t|], acc as [[h c]|]; try contradiction.
      * destruct Ht as (Hh & Hc & Hci).
        destruct (FromAccumulator_pad_hash (i - c) 64 t c) as (t' & He & Hh' & Hc'); [lia|lia|exact Hc|].
        replace (c + (i - c))%nat with i in * by lia. rewrite He. cbn [obind]. apply IH; [lia|lia|].
        cbn [tree_acc NewMerkleInternal MerkleTree_Hash MerkleTree_Capacity NewSummaryMerkleTree].
        rewrite Hh', Hc', Hh. split; [reflexivity|]. split; [|lia].
        rewrite <- Hd. f_equal. lia.
      * cbn [obind]. apply IH; [lia|lia|]. cbn. auto.
Qed.

(** The leaves as the rebuilt tree sees them: a partial at level zero is
    hashed once more. *)
Definition rehash_last (l : list Z) : list Z :=
  if Nat.even (length l) then l else take (length l - 1) l ++ map leaf (drop (length l - 1) l).

Lemma rep_even ps p l : rep 0 (p :: ps) l -> Nat.even (length l) = (p =? 0).
Proof.
  intros Hr. cbn [rep] in Hr. destruct Hr as [_ (l1 & l2 & -> & Hr & Hp)].
  assert (forall qs i l, rep i qs l -> (0 < i)%nat -> Nat.even (length l) = true) as Hev.
  { clear. induction qs as [|q qs IH]; intros i l Hr Hi; cbn [rep] in Hr; [subst; reflexivity|].
    destruct Hr as [_ (l1 & l2 & -> & Hr & Hq)]. rewrite length_app, Nat.even_add, (IH _ _ Hr) by lia.
    destruct Hq as [[_ ->]|(_ & -> & _)]; [reflexivity|]. destruct i; [lia|]. cbn [Nat.pow].
    rewrite Nat.even_mul. reflexivity. }
  rewrite length_app, Nat.even_add, (Hev _ _ _ Hr) by lia.
  destruct Hp as [[-> ->]|(Hp & Hl & _)]; [reflexivity|]. rewrite Hl. apply Z.eqb_neq in Hp. rewrite Hp. reflexivity.
Qed.

Lemma FromAccumulator_loop_hash ps l : rep 0 ps l -> l <> [] -> (length ps <= 61)%nat -> (forall x, leaf x <> 0) ->
  exists t, FromAccumulator_loop ps 0 1 None = Ok (Some t) /\ MerkleTree_Hash t = merkle_root (rehash_last l).
Proof.
  intros Hr Hne Hlen Hnz. destruct ps as [|p ps]; [cbn in Hr; congruence|].
  pose proof (rep_even ps p l Hr) as Hev. cbn [length] in Hlen.
  assert (forall l', rep 0 ((if p =? 0 then 0 else leaf p) :: ps) l' -> l' <> [] -> rehash_last l = l' ->
    exists t, FromAccumulator_loop (p :: ps) 0 1 None = Ok (Some t) /\ MerkleTree_Hash t = merkle_root (rehash_last l)) as H.
  { intros l' Hr' Hne' ->. pose proof (combine_merkle_root _ l' Hr' Hne') as Hc. cbn [FromAccumulator_loop combine] in *.
    change (0 + 1) with (Z.of_nat 1). change (1 *u64 2) with (2 ^ Z.of_nat 1).
    destruct (Z.eqb_spec p 0) as [->|Hp]; cbn [negb] in *.
    - destruct (FromAccumulator_loop_combine ps 1 None None ltac:(lia) ltac:(lia) I) as (tree & He & Hh).
      cbn [obind]. rewrite He. cbn in Hc. rewrite Hc in Hh. destruct tree; [|discriminate]. injection Hh as Hh. eauto.
    - specialize (Hnz p). apply Z.eqb_neq in Hnz. rewrite Hnz in Hc.
      destruct (FromAccumulator_loop_combine ps 1 (Some (NewMerkleLeaf p)) (Some (leaf p, 0%nat)) ltac:(lia) ltac:(lia))
        as (tree & He & Hh); [cbn; auto|]. change (0 =? 0) with true. cbn [obind]. rewrite He. rewrite Hc in Hh.
      destruct tree; [|discriminate]. injection Hh as Hh. eauto. }
  destruct (Z.eqb_spec p 0) as [->|Hp].
  - apply (H l); auto. unfold rehash_last. rewrite Hev. reflexivity.
  - cbn [rep] in Hr. destruct Hr as [_ (l1 & l2 & -> & Hr & [[? _]|(_ & Hl2 & ->)])]; [congruence|].
    destruct l2 as [|q [|]]; try discriminate. cbn [mroot] in *. apply (H (l1 ++ [leaf q])).
    + cbn [rep]. split; [intros _; apply Hnz|]. exists l1, [leaf q]. split; [reflexivity|]. split; [exact Hr|].
      right. split; [apply Hnz|]. split; reflexivity.
    + destruct l1; discriminate.
    + unfold rehash_last. rewrite Hev, length_app. cbn [length]. replace (length l1 + 1 - 1)%nat with (length l1) by lia.
      rewrite take_app_length, drop_app_length. reflexivity.
Qed.

Lemma keccak_nonzero_nodes items : (forall x, keccak256 x <> 0) -> nonzero_nodes (map leaf items).
Proof.
  intros Hnz i l1 l2 l3 He Hl. destruct l2 as [|h l2]; [pose proof (pow2_nat_pos i); cbn in Hl; lia|].
  destruct i as [|i]; cbn [mroot]; [|apply Hnz].
  assert (h ∈ map leaf items) as Hin by (rewrite He; apply elem_of_app; right; left).
  apply list_elem_of_In, in_map_iff in Hin as (x & <- & _). apply Hnz.
Qed.

Lemma NewMerkleTreeFromAccumulator_runs acc d l : macc acc d l -> l <> [] -> Z.of_nat (length l) < 2 ^ 60 ->
  (forall x, leaf x <> 0) ->
  exists t acc', runs (800 + 800 * 63) (NewMerkleTreeFromAccumulator acc) d (Ok (Some t, acc')) d /\
    MerkleTree_Hash t = merkle_root (rehash_last l).
Proof.
  intros H Hne Hl Hnz. destruct (GetPartials_runs acc d l H ltac:(lia)) as (ps & acc' & R & Hr & _).
  assert (length ps <= 61)%nat as Hps.
  { destruct ps as [|p ps]; [cbn; lia|]. destruct (rep_length _ 0 l Hr ltac:(discriminate)) as [H1 _]. cbn [Nat.add] in H1.
    apply Nat2Z.inj_le in H1. rewrite pow2_nat_Z in H1.
    assert (Z.of_nat (length (p :: ps) - 1) < 60) by (apply (Z.pow_lt_mono_r_iff 2); lia). lia. }
  destruct (FromAccumulator_loop_hash ps l Hr Hne Hps Hnz) as (t & He & Hh). exists t, acc'. split; [|exact Hh].
  unfold NewMerkleTreeFromAccumulator. replace (800 + 800 * 63) with (800 + 800 * 63 + (0 + 0)) by lia.
  eapply runs_bind; [exact R|]. cbv beta iota.
  destruct ps as [|p ps]; [cbn in Hr; congruence|]. cbn [length Nat.eqb]. rewrite He.
  eapply runs_bind; [apply runs_lift|]. apply runs_ret.
Qed.
End Facts.

(** ** Properties *)

#[local] Existing Instance TestEnv.

(** C37: the tree and the accumulator agree: after appending the same items to
    an empty Merkle tree and to an empty accumulator, in storage or in memory,
    the hash of the tree is the root of the accumulator and the sizes are
    equal. *)
Theorem MerkleTree_matches_accumulator {E : Env} {EL : EnvLaws E} (acc : MerkleAccumulator) (d : DB) (items : list Z) :
  empty_accumulator acc d -> Z.of_nat (length items) <= 2 ^ 61 -> nonzero_nodes (map leaf items) ->
  exists evs acc' d' acc'',
    runs (append_gas * Z.of_nat (length items)) (Append_all acc items) d (Ok (evs, acc')) d' /\
    runs 800 (MerkleAccumulator_Size acc') d' (Ok (MerkleTree_Size (tree_of items))) d' /\
    runs (800 + 3530 * 63) (MerkleAccumulator_Root acc') d' (Ok (MerkleTree_Hash (tree_of items), acc'')) d'.
Proof.
  intros H Hl Hnz. destruct (tree_of_hash items Hl) as [-> ->].
  destruct (Append_all_runs items acc d [] (macc_empty acc d H) ltac:(cbn; lia) Hnz) as (evs & acc' & d' & R & H').
  cbn [app] in H'. destruct (Root_runs acc' d' _ H') as (acc'' & Rr & _); [rewrite length_map; lia|].
  exists evs, acc', d', acc''. split; [exact R|]. split; [|exact Rr].
  destruct H' as (ps & Ha & _). rewrite length_map in Ha. eapply Wrapped_Get_runs; [exact Ha|uint].
Qed.

Lemma MerkleTree_matches_accumulator_witness :
  exists evs acc' d' acc'',
    runs (append_gas * 3) (Append_all NewNonpersistentMerkleAccumulator [5; 6; 7]) test_db (Ok (evs, acc')) d' /\
    runs 800 (MerkleAccumulator_Size acc') d' (Ok 3) d' /\
    runs (800 + 3530 * 63) (MerkleAccumulator_Root acc') d' (Ok (MerkleTree_Hash (tree_of [5; 6; 7]), acc'')) d'.
Proof.
  apply (MerkleTree_matches_accumulator NewNonpersistentMerkleAccumulator test_db [5; 6; 7]).
  - left. reflexivity.
  - cbn. lia.
  - apply test_nonzero_nodes.
Defined.

(** Summarizing a tree up to any of its leaves succeeds and keeps hash, size
    and capacity; and the summarized tree is read back unchanged from its
    serialization, whatever follows it in the input. *)
Theorem MerkleTree_summary_roundtrip {E : Env} {EL : EnvLaws E} (items : list Z) (num : Z) (rest : list Z) :
  Forall (in_u 256) items -> Z.of_nat (length items) <= 2 ^ 61 -> 1 <= num <= Z.of_nat (length items) ->
  exists t, MerkleTree_SummarizeUpTo (tree_of items) num = Ok t /\
    MerkleTree_Hash t = MerkleTree_Hash (tree_of items) /\ MerkleTree_Size t = MerkleTree_Size (tree_of items) /\
    MerkleTree_Capacity t = MerkleTree_Capacity (tree_of items) /\
    NewMerkleTreeFromReader (MerkleTree_Serialize t ++ rest) = Ok (t, rest).
Proof.
  intros Hw Hl Hnum. destruct (tree_of_trep items) as (d & Hd & Ht & _); [intros ->; cbn in Hnum; lia|exact Hl|].
  destruct (summarize_trep _ d _ num Ht Hd) as (t & He & Ht'); [rewrite length_map; exact Hnum|].
  exists t. split; [exact He|].
  rewrite (trep_hash _ _ _ Ht), (trep_size _ _ _ Ht), (trep_capacity _ _ _ Ht), (trep_hash _ _ _ Ht'),
    (trep_size _ _ _ Ht'), (trep_capacity _ _ _ Ht'). do 3 (split; [reflexivity|]).
  unfold NewMerkleTreeFromReader. apply FromReader_loop_serialize; [|rewrite length_app; lia].
  exact (tree_wf_summarize _ _ _ (tree_of_wf items Hw) He).
Qed.

Lemma MerkleTree_summary_roundtrip_witness :
  exists t, MerkleTree_SummarizeUpTo (tree_of [5; 6; 7]) 2 = Ok t /\
    NewMerkleTreeFromReader (MerkleTree_Serialize t ++ [9]) = Ok (t, [9]).
Proof.
  destruct (MerkleTree_summary_roundtrip [5; 6; 7] 2 [9]) as (t & H1 & _ & _ & _ & H2).
  - repeat constructor; lia.
  - cbn. lia.
  - cbn. lia.
  - exists t. auto.
Defined.

(** C38: the siblings of a leaf on its way to the root make a correct proof for
    it, and any other correct proof of the same length for the same root and
    index is for the same leaf hash, unless the two proofs collide: at some
    height they hash different inputs, which are those of the two paths, to the
    same digest. *)
Theorem MerkleProof_IsCorrect_binding {E : Env} {EL : EnvLaws E} (items : list Z) (i : nat) (item : Z)
  (proof : MerkleProof) :
  items !! i = Some item ->
  let l := map leaf items in
  let d := depth (length items) in
  MerkleProof_IsCorrect (mkMerkleProof (merkle_root l) (leaf item) (Z.of_nat i) (siblings d l i)) = true /\
  (MerkleProof_IsCorrect proof = true -> mp_RootHash proof = merkle_root l -> mp_LeafIndex proof = Z.of_nat i ->
   length (mp_Proof proof) = d -> in_u 256 (mp_LeafHash proof) -> Forall (in_u 256) (mp_Proof proof) ->
   mp_LeafHash proof = leaf item \/
   paths_collide (path_inputs (mp_LeafHash proof) (Z.of_nat i) (mp_Proof proof)) (path_inputs (leaf item) (Z.of_nat i) (siblings d l i))).
Proof.
  intros Hi l d. pose proof (lookup_lt_Some _ _ _ Hi) as Hlt.
  assert (i < 2 ^ d)%nat as Hd.
  { apply Nat2Z.inj_lt. rewrite pow2_nat_Z. unfold d, depth. rewrite Z2Nat.id by apply Z.log2_up_nonneg.
    destruct (decide (length items = 1)%nat) as [He|]; [rewrite He in Hlt |- *; change (2 ^ Z.log2_up (Z.of_nat 1)) with 1; lia|].
    pose proof (Z.log2_up_spec (Z.of_nat (length items)) ltac:(lia)). lia. }
  assert (l !! i = Some (leaf item)) as Hl by (change l with (leaf <$> items); rewrite list_lookup_fmap, Hi; reflexivity).
  assert (merkle_root l = mroot d l) as Hroot by (unfold merkle_root, l, d; rewrite length_map; reflexivity).
  pose proof (siblings_fold d l i (leaf item) 0 Hl Hd ltac:(lia)) as Hf.
  rewrite Z.mul_0_l, Z.add_0_r in Hf. split.
  - unfold MerkleProof_IsCorrect. cbn [mp_RootHash mp_LeafHash mp_LeafIndex mp_Proof]. rewrite Hf, Hroot. apply Z.eqb_refl.
  - unfold MerkleProof_IsCorrect. intros Hc Hr Hx Hlen Hu Fp. rewrite Hx in Hc.
    apply (proofs_bind (mp_Proof proof) (siblings d l i) _ _ (Z.of_nat i)); auto using keccak256_range.
    { rewrite length_siblings. exact Hlen. }
    { apply siblings_range. unfold l. apply Forall_fmap, list.Forall_forall. intros x _. apply keccak256_range. }
    { apply keccak256_range. }
    rewrite Hf. clear Hf. revert Hc. destruct (fold_left _ _ _) as [h j]. destruct (negb _); [discriminate|].
    intros Hc%Z.eqb_eq. cbn. congruence.
Qed.

Lemma MerkleProof_IsCorrect_binding_witness :
  let proof := mkMerkleProof (merkle_root [leaf 5; leaf 6; leaf 7]) (leaf 6) 1 [leaf 5; node (leaf 7) 0] in
  MerkleProof_IsCorrect proof = true /\
  (mp_LeafHash proof = leaf 6 \/
   paths_collide (path_inputs (mp_LeafHash proof) 1 (mp_Proof proof)) (path_inputs (leaf 6) 1 [leaf 5; node (leaf 7) 0])).
Proof.
  intros proof. destruct (MerkleProof_IsCorrect_binding [5; 6; 7] 1 6 proof eq_refl) as [H1 H2]. split; [exact H1|].
  apply H2; [exact H1|reflexivity|reflexivity|reflexivity|apply keccak256_range|].
  repeat constructor; apply keccak256_range.
Defined.

(** the tree rebuilt from an accumulator has the root of the accumulator as
    its hash when the number of items is even; when it is odd, the hash of the
    last item, which the accumulator keeps hashed, is hashed a second time, so
    the rebuilt tree has the hash of another list of leaves. *)
Theorem NewMerkleTreeFromAccumulator_hash {E : Env} {EL : EnvLaws E} (acc : MerkleAccumulator) (d : DB) (items : list Z) (last : Z) :
  empty_accumulator acc d -> (forall x, keccak256 x <> 0) -> Z.of_nat (length items) < 2 ^ 60 - 1 ->
  let tree_hash items h :=
    exists evs acc' d' t acc'',
      runs (append_gas * Z.of_nat (length items)) (Append_all acc items) d (Ok (evs, acc')) d' /\
      runs (800 + 800 * 63) (NewMerkleTreeFromAccumulator acc') d' (Ok (Some t, acc'')) d' /\ MerkleTree_Hash t = h in
  (items <> [] -> Nat.even (length items) = true -> tree_hash items (merkle_root (map leaf items))) /\
  (Nat.even (length items) = true ->
     tree_hash (items ++ [last]) (merkle_root (map leaf items ++ [leaf (leaf last)]))).
Proof.
  intros H Hnz Hl tree_hash.
  assert (forall its, its <> [] -> Z.of_nat (length its) < 2 ^ 60 -> tree_hash its (merkle_root (rehash_last (map leaf its)))) as Hall.
  { intros its Hne Hlen.
    destruct (Append_all_runs its acc d [] (macc_empty acc d H) ltac:(cbn; lia) (keccak_nonzero_nodes its Hnz))
      as (evs & acc' & d' & R & H'). cbn [app] in H'.
    destruct (NewMerkleTreeFromAccumulator_runs acc' d' _ H') as (t & acc'' & R' & Hh);
      [destruct its; [congruence|discriminate]|rewrite length_map; exact Hlen|intros x; apply Hnz|].
    exists evs, acc', d', t, acc''. auto. }
  split.
  - intros Hne Hev. specialize (Hall items Hne ltac:(lia)). unfold rehash_last in Hall. rewrite length_map, Hev in Hall. exact Hall.
  - intros Hev. specialize (Hall (items ++ [last]) ltac:(destruct items; discriminate) ltac:(rewrite length_app; cbn; lia)).
    unfold rehash_last in Hall. rewrite length_map, length_app, Nat.even_add, Hev in Hall. cbn [length Nat.even eqb] in Hall.
    replace (length items + 1 - 1)%nat with (length (map leaf items)) in Hall by (rewrite length_map; lia).
    rewrite map_app, take_app_length, drop_app_length in Hall. exact Hall.
Qed.

Lemma NewMerkleTreeFromAccumulator_hash_witness :
  exists evs acc' d' t acc'',
    runs (append_gas * 1) (Append_all NewNonpersistentMerkleAccumulator [5]) test_db (Ok (evs, acc')) d' /\
    runs (800 + 800 * 63) (NewMerkleTreeFromAccumulator acc') d' (Ok (Some t, acc'')) d' /\
    MerkleTree_Hash t = leaf (leaf 5) /\ merkle_root [leaf 5] = leaf 5.
Proof.
  destruct (NewMerkleTreeFromAccumulator_hash NewNonpersistentMerkleAccumulator test_db [] 5) as [_ H].
  - left. reflexivity.
  - apply digest_nonzero.
  - cbn. lia.
  - destruct (H eq_refl) as (evs & acc' & d' & t & acc'' & R1 & R2 & Hh).
    exists evs, acc', d', t, acc''. auto.
Defined.
