(* ===== verification/IncomingMessage.v ===== *)
(** * arbos/arbostypes/incomingmessage.go: messages from the parent chain

    The header and payload of a message, their wire format, the parser of a
    batch posting report with the gas its batch cost, and the parser of the init
    message. What is proved: messages survive serialization; a batch posting
    report gets the cost of the batch whose hash it names, and of no other. *)
From Stdlib Require Import ZArith Lia String List.
From stdpp Require Import base list numbers.
From S2P Require Import Prelude Arbmath Host Storage StorageFacts MemEnv Readers.
Open Scope Z_scope.

Definition L1MessageType_L2Message : Z := 3.
Definition L1MessageType_EndOfBlock : Z := 6.
Definition L1MessageType_L2FundedByL1 : Z := 7.
Definition L1MessageType_RollupEvent : Z := 8.
Definition L1MessageType_SubmitRetryable : Z := 9.
Definition L1MessageType_BatchForGasEstimation : Z := 10.
Definition L1MessageType_Initialize : Z := 11.
Definition L1MessageType_EthDeposit : Z := 12.
Definition L1MessageType_BatchPostingReport : Z := 13.
Definition L1MessageType_Invalid : Z := 0xFF.

Definition MaxL2MessageSize : Z := 256 * 1024.

(** A nil pointer is [None]. *)
Record L1IncomingMessageHeader := mkL1Header {
  h_Kind : Z;
  h_Poster : Z;
  h_BlockNumber : Z;
  h_Timestamp : Z;
  h_RequestId : option Z;
  h_L1BaseFee : option Z
}.

Record L1IncomingMessage := mkL1IncomingMessage {
  msg_Header : L1IncomingMessageHeader;
  msg_L2msg : list Z;
  msg_BatchGasCost : option Z
}.

Definition InvalidL1Message : L1IncomingMessage :=
  mkL1IncomingMessage (mkL1Header L1MessageType_Invalid 0 0 0 None None) [] None.

Definition L1IncomingMessage_Serialize (msg : L1IncomingMessage) : outcome (list Z) :=
  let h := msg_Header msg in
  let wr := [h_Kind h] in
  let wr := AddressTo256ToWriter (h_Poster h) wr in
  let wr := Uint64ToWriter (h_BlockNumber h) wr in
  let wr := Uint64ToWriter (h_Timestamp h) wr in
  match h_RequestId h with
  | None => Err (ErrNew "cannot serialize L1IncomingMessage without RequestId")
  | Some requestId =>
      let wr := HashToWriter requestId wr in
      match h_L1BaseFee h with
      | None => Err (ErrNew "cannot serialize L1IncomingMessage without L1BaseFee")
      | Some l1BaseFee =>
          let wr := HashToWriter (BigToHash l1BaseFee) wr in
          Ok (wr ++ msg_L2msg msg)
      end
  end.

Definition hashesEqual (ha hb : option Z) : bool :=
  match ha, hb with
  | None, None => true
  | Some a, Some b => a =? b
  | _, _ => false
  end.

(** [BigEquals] compares two nil pointers as equal and reads through any other. *)
Definition BigEquals_ptr (a b : option Z) : outcome bool :=
  match a, b with
  | None, None => Ok true
  | Some a, Some b => Ok (BigEquals a b)
  | _, _ => Panic "nil pointer dereference"
  end.

Definition TxDataZeroGas : Z := 4.
Definition Keccak256Gas : Z := 30.
Definition Keccak256WordGas : Z := 6.

Definition ComputeBatchGasCost (data : list Z) : Z :=
  let gas := fold_left (fun gas b => if b =? 0 then gas +u64 TxDataZeroGas else gas +u64 TxDataNonZeroGasEIP2028) data 0 in
  let keccakWords := WordsForBytes (Z.of_nat (length data)) in
  let gas := gas +u64 (Keccak256Gas +u64 (keccakWords *u64 Keccak256WordGas)) in
  gas +u64 (2 * SstoreSetGasEIP2200).

Record BatchPostingReport := mkBatchPostingReport {
  rep_batchTimestamp : Z;
  rep_batchPosterAddr : Z;
  rep_dataHash : Z;
  rep_batchNum : Z;
  rep_l1BaseFee : Z;
  rep_extraGas : Z
}.

Definition ParseBatchPostingReportMessageFields (rd : list Z) : outcome BatchPostingReport :=
  let? (batchTimestamp, rd) := HashFromReader rd in
  let? (batchPosterAddr, rd) := AddressFromReader rd in
  let? (dataHash, rd) := HashFromReader rd in
  let? (batchNum, rd) := HashFromReader rd in
  let? (l1BaseFee, rd) := HashFromReader rd in
  let? extraGas :=
    match Uint64FromReader rd with
    | Ok (extraGas, _) => Ok extraGas
    | Err e => if Is_EOF e then Ok 0 else Err e
    | Panic s => Panic s
    end in
  if IsUint64 batchNum
  then Ok (mkBatchPostingReport batchTimestamp batchPosterAddr dataHash batchNum l1BaseFee extraGas)
  else Err (ErrNew "batch number is not a uint64").

(** go-ethereum's [params.ChainConfig]: the fields that are read. *)
Record ChainConfig := mkChainConfig {
  cc_ChainID : Z;
  cc_InitialArbOSVersion : Z;
  cc_InitialChainOwner : Z;
  cc_GenesisBlockNum : Z
}.

Record ParsedInitMessage := mkParsedInitMessage {
  im_ChainId : Z;
  im_InitialL1BaseFee : Z;
  im_ChainConfig : option ChainConfig;
  im_SerializedChainConfig : list Z
}.

Definition DefaultInitialL1BaseFee : Z := 50 * 1000000000.

Section Messages.
Context {E : Env}.

(** A [FallibleBatchFetcher]; the nil function is [None]. *)
Definition FallibleBatchFetcher : Type := option (Z -> outcome (list Z)).

(** The message with its [BatchGasCost] filled in; it is unchanged on an error. *)
Definition FillInBatchGasCost (msg : L1IncomingMessage) (batchFetcher : FallibleBatchFetcher)
    : outcome L1IncomingMessage :=
  match batchFetcher, msg_BatchGasCost msg with
  | Some fetch, None =>
      if h_Kind (msg_Header msg) =? L1MessageType_BatchPostingReport then
        match ParseBatchPostingReportMessageFields (msg_L2msg msg) with
        | Err e => Err (ErrWrap "failed to parse batch posting report" e)
        | Panic s => Panic s
        | Ok report =>
            match fetch (rep_batchNum report) with
            | Err e => Err (ErrWrap "failed to fetch batch mentioned by batch posting report" e)
            | Panic s => Panic s
            | Ok batchData =>
                if keccak256 batchData =? rep_dataHash report then
                  Ok (mkL1IncomingMessage (msg_Header msg) (msg_L2msg msg) (Some (ComputeBatchGasCost batchData)))
                else Err (ErrNew "batch fetcher returned incorrect data hash")
            end
        end
      else Ok msg
  | _, _ => Ok msg
  end.

Definition ParseIncomingL1Message (rd : list Z) (batchFetcher : FallibleBatchFetcher)
    : outcome L1IncomingMessage :=
  let? (kind, rd) := ReadByte rd in
  let? (sender, rd) := AddressFrom256FromReader rd in
  let? (blockNumber, rd) := Uint64FromReader rd in
  let? (timestamp, rd) := Uint64FromReader rd in
  let? (requestId, rd) := HashFromReader rd in
  let? (baseFeeL1, data) := HashFromReader rd in
  let msg :=
    mkL1IncomingMessage
      (mkL1Header kind sender blockNumber timestamp (Some requestId) (Some baseFeeL1)) data None in
  FillInBatchGasCost msg batchFetcher.

(** [json_Unmarshal] is encoding/json's decoder at [params.ChainConfig]. *)
Definition ParseInitMessage (json_Unmarshal : list Z -> outcome ChainConfig) (msg : L1IncomingMessage)
    : outcome ParsedInitMessage :=
  let L2msg := msg_L2msg msg in
  let withConfig chainId basefee serializedChainConfig :=
    match json_Unmarshal serializedChainConfig with
    | Ok chainConfig => Ok (mkParsedInitMessage chainId basefee (Some chainConfig) serializedChainConfig)
    | Err e => Err (ErrWrap "failed to parse init message" e)
    | Panic s => Panic s
    end in
  if negb (h_Kind (msg_Header msg) =? L1MessageType_Initialize) then Err (ErrNew "invalid init message kind")
  else if (length L2msg =? 32)%nat then
    Ok (mkParsedInitMessage (be (take 32 L2msg)) DefaultInitialL1BaseFee None [])
  else
    match drop 32 L2msg with
    | [] => Err (ErrNew "invalid init message data")
    | version :: reader =>
        let chainId := be (take 32 L2msg) in
        if version =? 1 then
          let? (basefee, reader) := Uint256FromReader reader in withConfig chainId basefee reader
        else if version =? 0 then withConfig chainId DefaultInitialL1BaseFee reader
        else Err (ErrNew "invalid init message data")
    end.

End Messages.

(** A header whose fields fit their types and that can be serialized. *)
Definition header_ok (h : L1IncomingMessageHeader) : Prop :=
  is_byte (h_Kind h) /\ in_u 160 (h_Poster h) /\ in_u 64 (h_BlockNumber h) /\ in_u 64 (h_Timestamp h) /\
  (exists r, h_RequestId h = Some r /\ in_u 256 r) /\ (exists f, h_L1BaseFee h = Some f /\ in_u 256 f).

(** The payload of a batch posting report; older reports have no extra gas. *)
Definition report_bytes (r : BatchPostingReport) (withExtraGas : bool) : list Z :=
  Hash_Bytes (rep_batchTimestamp r) ++ Address_Bytes (rep_batchPosterAddr r) ++ Hash_Bytes (rep_dataHash r)
  ++ Hash_Bytes (rep_batchNum r) ++ Hash_Bytes (rep_l1BaseFee r)
  ++ (if withExtraGas then be_bytes 8 (rep_extraGas r) else []).

Definition report_ok (r : BatchPostingReport) (withExtraGas : bool) : Prop :=
  in_u 256 (rep_batchTimestamp r) /\ in_u 160 (rep_batchPosterAddr r) /\ in_u 256 (rep_dataHash r) /\
  in_u 64 (rep_batchNum r) /\ in_u 256 (rep_l1BaseFee r) /\
  (if withExtraGas then in_u 64 (rep_extraGas r) else rep_extraGas r = 0).

(** The gas of posting a batch: the calldata, the hash of it and two new slots. *)
Definition batch_gas (data : list Z) : Z :=
  let n := Z.of_nat (length data) in
  let zeros := Z.of_nat (length (filter (fun b => b = 0) data)) in
  4 * zeros + 16 * (n - zeros) + 30 + 6 * ((n + 31) / 32) + 40000.

Section Facts.
Context {E : Env}.

Lemma Serialize_bytes msg r f :
  h_RequestId (msg_Header msg) = Some r -> h_L1BaseFee (msg_Header msg) = Some f ->
  L1IncomingMessage_Serialize msg =
    Ok (h_Kind (msg_Header msg) :: repeat 0 12 ++ Address_Bytes (h_Poster (msg_Header msg))
        ++ be_bytes 8 (h_BlockNumber (msg_Header msg)) ++ be_bytes 8 (h_Timestamp (msg_Header msg))
        ++ Hash_Bytes r ++ Hash_Bytes (BigToHash f) ++ msg_L2msg msg).
Proof.
  intros Hr Hf. unfold L1IncomingMessage_Serialize. rewrite Hr, Hf. cbv zeta.
  unfold HashToWriter, Uint64ToWriter, AddressTo256ToWriter, AddressToWriter. now rewrite <- !app_assoc.
Qed.

(** What the parser makes of a serialized message, before the cost is filled in. *)
Lemma Parse_Serialize msg fetcher : header_ok (msg_Header msg) ->
  exists b, L1IncomingMessage_Serialize msg = Ok b /\
    ParseIncomingL1Message b fetcher =
      FillInBatchGasCost (mkL1IncomingMessage (msg_Header msg) (msg_L2msg msg) None) fetcher.
Proof.
  intros (_ & Hp & Hb & Ht & (r & Hr & Hr') & (f & Hf & Hf')).
  eexists. split; [apply (Serialize_bytes msg r f Hr Hf)|].
  unfold ParseIncomingL1Message. cbn [ReadByte obind].
  rewrite AddressFrom256FromReader_bytes by exact Hp. cbn [obind].
  rewrite (Uint64FromReader_bytes _ _ Hb). cbn [obind]. rewrite (Uint64FromReader_bytes _ _ Ht). cbn [obind].
  rewrite (HashFromReader_bytes _ _ Hr'). cbn [obind].
  assert (BigToHash f = f) as -> by (unfold BigToHash, in_u in *; rewrite Z.abs_eq, Z.mod_small; lia).
  rewrite (HashFromReader_bytes _ _ Hf'). cbn [obind]. do 2 f_equal.
  destruct (msg_Header msg); cbn in *; subst. reflexivity.
Qed.

Lemma ParseBatchPostingReport_bytes r x : report_ok r x ->
  ParseBatchPostingReportMessageFields (report_bytes r x) = Ok r.
Proof.
  intros (H1 & H2 & H3 & H4 & H5 & H6). unfold ParseBatchPostingReportMessageFields, report_bytes.
  rewrite (HashFromReader_bytes _ _ H1). cbn [obind]. rewrite (AddressFromReader_bytes _ _ H2). cbn [obind].
  rewrite (HashFromReader_bytes _ _ H3). cbn [obind].
  rewrite HashFromReader_bytes by (unfold in_u in *; lia). cbn [obind].
  rewrite (HashFromReader_bytes _ _ H5). cbn [obind].
  assert (match Uint64FromReader (if x then be_bytes 8 (rep_extraGas r) else []) with
          | Ok (extraGas, _) => Ok extraGas | Err e => if Is_EOF e then Ok 0 else Err e | Panic s => Panic s
          end = Ok (rep_extraGas r)) as ->.
  { destruct x; [|now rewrite H6]. rewrite <- (app_nil_r (be_bytes _ _)), (Uint64FromReader_bytes _ _ H6).
    reflexivity. }
  cbn [obind]. rewrite (IsUint64_true _ H4). now destruct r.
Qed.

Lemma gas_fold data : forall gas, 0 <= gas -> gas + 16 * Z.of_nat (length data) < 2 ^ 64 ->
  fold_left (fun gas b => if b =? 0 then gas +u64 TxDataZeroGas else gas +u64 TxDataNonZeroGasEIP2028) data gas =
  gas + 4 * Z.of_nat (length (filter (fun b => b = 0) data))
      + 16 * (Z.of_nat (length data) - Z.of_nat (length (filter (fun b => b = 0) data))).
Proof.
  unfold TxDataZeroGas, TxDataNonZeroGasEIP2028.
  induction data as [|b data IH]; intros gas Hg Hb; cbn [fold_left]; [cbn; lia|].
  cbn [length] in *. rewrite filter_cons.
  destruct (Z.eqb_spec b 0) as [Hz|Hz]; (rewrite uwrap_id by (unfold in_u; lia)); rewrite IH by lia.
  - rewrite decide_True by exact Hz. cbn [length]. lia.
  - rewrite decide_False by exact Hz. lia.
Qed.

Lemma ComputeBatchGasCost_spec data : Z.of_nat (length data) < 2 ^ 50 -> ComputeBatchGasCost data = batch_gas data.
Proof.
  intros Hn. unfold ComputeBatchGasCost, batch_gas. rewrite gas_fold by lia.
  pose proof (length_filter (fun b => b = 0) data).
  set (z := Z.of_nat (length (filter _ data))) in *. set (n := Z.of_nat (length data)) in *.
  assert (0 <= z <= n) by lia.
  assert (WordsForBytes n = (n + 31) / 32) as -> by (unfold WordsForBytes; rewrite uwrap_id; [reflexivity|unfold in_u; lia]).
  assert (0 <= (n + 31) / 32 <= n + 31) by (split; [apply Z.div_pos; lia|apply Z.div_le_upper_bound; lia]).
  unfold Keccak256Gas, Keccak256WordGas, SstoreSetGasEIP2200.
  rewrite (uwrap_id 64 ((n + 31) / 32 * 6)), (uwrap_id 64 (30 + _)) by (unfold in_u; lia).
  rewrite (uwrap_id 64 (_ + (30 + _))) by (unfold in_u; lia). rewrite uwrap_id by (unfold in_u; lia). lia.
Qed.

(** A message that was serialized is parsed back as it was: kind, poster,
    block number, timestamp, request id, base fee and payload. A batch posting
    report that comes back with no cost is given the gas of the batch it names,
    if the fetched data has the hash it names; if the hash differs, or the batch
    cannot be fetched, the message is refused. *)
Theorem ParseIncomingL1Message_Serialize msg fetch :
  header_ok (msg_Header msg) -> msg_BatchGasCost msg = None ->
  exists b, L1IncomingMessage_Serialize msg = Ok b /\
    ParseIncomingL1Message b None = Ok msg /\
    (h_Kind (msg_Header msg) <> L1MessageType_BatchPostingReport -> ParseIncomingL1Message b (Some fetch) = Ok msg) /\
    (forall r x, h_Kind (msg_Header msg) = L1MessageType_BatchPostingReport ->
       report_ok r x -> msg_L2msg msg = report_bytes r x ->
       (forall data, fetch (rep_batchNum r) = Ok data -> keccak256 data = rep_dataHash r ->
          Z.of_nat (length data) < 2 ^ 50 ->
          ParseIncomingL1Message b (Some fetch) =
            Ok (mkL1IncomingMessage (msg_Header msg) (msg_L2msg msg) (Some (batch_gas data)))) /\
       (forall m, ParseIncomingL1Message b (Some fetch) = Ok m ->
          exists data, fetch (rep_batchNum r) = Ok data /\ keccak256 data = rep_dataHash r)).
Proof.
  intros Hh Hc. destruct (Parse_Serialize msg None Hh) as (b & Hb & Hp). exists b.
  assert (forall f, ParseIncomingL1Message b f = FillInBatchGasCost msg f) as HP.
  { intros f. destruct (Parse_Serialize msg f Hh) as (b' & Hb' & Hp'). assert (b' = b) as -> by congruence.
    rewrite Hp'. destruct msg; cbn in *; now subst. }
  rewrite !HP. unfold FillInBatchGasCost. rewrite Hc. split; [exact Hb|]. split; [reflexivity|]. split.
  - intros Hk. now rewrite (proj2 (Z.eqb_neq _ _) Hk).
  - intros r x Hk Hr Hl. rewrite Hk, Hl, (ParseBatchPostingReport_bytes r x Hr).
    change (L1MessageType_BatchPostingReport =? L1MessageType_BatchPostingReport) with true. cbv iota.
    split.
    + intros data Hd Hk' Hn. rewrite Hd, (proj2 (Z.eqb_eq _ _) Hk'). now rewrite ComputeBatchGasCost_spec.
    + intros m. destruct (fetch (rep_batchNum r)) as [data|e|s]; [|discriminate..].
      destruct (Z.eqb_spec (keccak256 data) (rep_dataHash r)); [eauto|discriminate].
Qed.

End Facts.

Definition test_report : BatchPostingReport :=
  mkBatchPostingReport 7 8 (keccak256 (Env := TestEnv) [0; 1]) 5 9 10.

Lemma ParseIncomingL1Message_Serialize_witness :
  let msg := mkL1IncomingMessage (mkL1Header 13 1 2 3 (Some 4) (Some 5)) (report_bytes test_report true) None in
  exists b, L1IncomingMessage_Serialize msg = Ok b /\
    ParseIncomingL1Message (E := TestEnv) b (Some (fun _ => Ok [0; 1])) =
      Ok (mkL1IncomingMessage (msg_Header msg) (msg_L2msg msg) (Some (4 + 16 + 30 + 6 + 40000))).
Proof.
  intros msg.
  destruct (ParseIncomingL1Message_Serialize (E := TestEnv) msg (fun _ => Ok [0; 1])) as (b & Hb & _ & _ & Hr).
  - repeat split; cbn; try lia; eexists; (split; [reflexivity|unfold in_u; lia]).
  - reflexivity.
  - exists b. split; [exact Hb|].
    destruct (Hr test_report true eq_refl) as [H _]; [|reflexivity|apply (H [0; 1]); reflexivity].
    unfold report_ok, in_u, test_report. cbn. repeat split; try lia; vm_compute; congruence.
Defined.
