(* ===== verification/ArbosState.v ===== *)
(** * arbos/arbosState/arbosstate.go: the ArbOS state and its upgrades

    The components of ArbOS live in sub-spaces of one storage space of the
    ArbOS account; [ArbosState] opens them all. What is proved: the effect of an
    upgrade on every word of the spaces it touches, that a version this node
    does not know is refused without recording it, and when a scheduled upgrade
    is applied. *)
From Stdlib Require Import ZArith Lia String List.
From stdpp Require Import base list numbers.
From S2P Require Import Prelude Arbmath Host Storage StorageFacts Refine MemEnv Queue Blockhash AddressSet AddressTable MerkleAccumulator L2Pricing Transfer BatchPoster L1Pricing Retryables DataPricer StylusParams Programs IncomingMessage.
Open Scope Z_scope.

(** What this code calls of go-ethereum beside [Env]: the code of an account,
    and the precompiles that are active under a chain's rules. *)
Class GethEnv (E : Env) := {
  SetCode : DB -> Z -> list Z -> DB;
  RulesT : Type;
  Rules : ChainConfig -> Z -> bool -> Z -> Z -> RulesT;
  set_IsArbitrum : bool -> RulesT -> RulesT;
  ActivePrecompiles : RulesT -> list Z
}.

Record ArbosState := mkArbosState {
  as_arbosVersion : Z;
  as_upgradeVersion : StorageSlot;
  as_upgradeTimestamp : StorageSlot;
  as_networkFeeAccount : StorageSlot;
  as_l1PricingState : L1PricingState;
  as_l2PricingState : L2PricingState;
  as_retryableState : RetryableState;
  as_addressTable : AddressTable;
  as_chainOwners : AddressSet;
  as_sendMerkle : option MerkleAccumulator;
  as_programs : Programs;
  as_blockhashes : Blockhashes;
  as_chainId : StorageSlot;
  as_chainConfig : Storage;
  as_genesisBlockNum : StorageSlot;
  as_infraFeeAccount : StorageSlot;
  as_brotliCompressionLevel : StorageSlot;
  as_store : Storage
}.

Definition ErrUninitializedArbOS : error := ErrNew "ArbOS uninitialized".
Definition ErrAlreadyInitialized : error := ErrNew "ArbOS is already initialized".
Definition ErrFatalNodeOutOfDate : error := ErrNew "please upgrade to the latest version of the node software".

Definition versionOffset : Z := 0.
Definition upgradeVersionOffset : Z := 1.
Definition upgradeTimestampOffset : Z := 2.
Definition networkFeeAccountOffset : Z := 3.
Definition chainIdOffset : Z := 4.
Definition genesisBlockNumOffset : Z := 5.
Definition infraFeeAccountOffset : Z := 6.
Definition brotliCompressionLevelOffset : Z := 7.

Definition l1PricingSubspace : list Z := [0].
Definition l2PricingSubspace : list Z := [1].
Definition retryablesSubspace : list Z := [2].
Definition addressTableSubspace : list Z := [3].
Definition chainOwnerSubspace : list Z := [4].
Definition sendMerkleSubspace : list Z := [5].
Definition blockhashesSubspace : list Z := [6].
Definition chainConfigSubspace : list Z := [7].
Definition programsSubspace : list Z := [8].

(** arbcompress *)
Definition LEVEL_WELL : Z := 11.

Definition with_version (state : ArbosState) (version : Z) : ArbosState :=
  mkArbosState version (as_upgradeVersion state) (as_upgradeTimestamp state) (as_networkFeeAccount state)
    (as_l1PricingState state) (as_l2PricingState state) (as_retryableState state) (as_addressTable state)
    (as_chainOwners state) (as_sendMerkle state) (as_programs state) (as_blockhashes state) (as_chainId state)
    (as_chainConfig state) (as_genesisBlockNum state) (as_infraFeeAccount state)
    (as_brotliCompressionLevel state) (as_store state).

Section Operations.
Context {E : Env}.

(** The struct that [OpenArbosState] builds over the root space. *)
Definition arbosStateAt (backingStorage : Storage) (arbosVersion : Z) : ArbosState :=
  mkArbosState arbosVersion
    (OpenStorageBackedUint64 backingStorage upgradeVersionOffset)
    (OpenStorageBackedUint64 backingStorage upgradeTimestampOffset)
    (OpenStorageBackedAddress backingStorage networkFeeAccountOffset)
    (OpenL1PricingState (OpenCachedSubStorage backingStorage l1PricingSubspace))
    (OpenL2PricingState (OpenCachedSubStorage backingStorage l2PricingSubspace))
    (OpenRetryableState (OpenCachedSubStorage backingStorage retryablesSubspace))
    (AddressTable_Open (OpenCachedSubStorage backingStorage addressTableSubspace))
    (OpenAddressSet (OpenCachedSubStorage backingStorage chainOwnerSubspace))
    (Some (OpenMerkleAccumulator (OpenCachedSubStorage backingStorage sendMerkleSubspace)))
    (Programs_Open (OpenSubStorage backingStorage programsSubspace))
    (OpenBlockhashes (OpenCachedSubStorage backingStorage blockhashesSubspace))
    (OpenStorageBackedBigInt backingStorage chainIdOffset)
    (OpenStorageBackedBytes backingStorage chainConfigSubspace)
    (OpenStorageBackedUint64 backingStorage genesisBlockNumOffset)
    (OpenStorageBackedAddress backingStorage infraFeeAccountOffset)
    (OpenStorageBackedUint64 backingStorage brotliCompressionLevelOffset)
    backingStorage.

Definition OpenArbosState : M ArbosState :=
  let* backingStorage := NewGeth in
  let* arbosVersion := Storage_GetUint64ByUint64 backingStorage versionOffset in
  if arbosVersion =? 0 then fail ErrUninitializedArbOS
  else ret (arbosStateAt backingStorage arbosVersion).

(** [state.Restrict(m())] *)
Definition restricted {A} (m : M A) : M unit :=
  let* r := attempt m in
  restrict (match r with Err e => Some e | _ => None end).

(** [x, err := m(); state.Restrict(err)], where [m] returns [zero] beside an error. *)
Definition restricted_value {A} (zero : A) (m : M A) : M A :=
  let* r := attempt m in
  restrict (match r with Err e => Some e | _ => None end) ;;;
  ret (match r with Ok a => a | _ => zero end).

(** The closure [ensure] of [UpgradeArbosVersion]. *)
Definition ensure {A} (m : M A) : M A :=
  let* r := attempt m in
  match r with
  | Ok a => ret a
  | Err _ => panic "Failed to upgrade ArbOS version"
  | Panic s => panic s
  end.

Definition SetBrotliCompressionLevel (state : ArbosState) (val : Z) : M unit :=
  if val <=? LEVEL_WELL then StorageBackedUint64_Set (as_brotliCompressionLevel state) val
  else fail (ErrNew "invalid brotli compression level").

Definition BrotliCompressionLevel (state : ArbosState) : M Z :=
  StorageBackedUint64_Get (as_brotliCompressionLevel state).

(** The switch of [UpgradeArbosVersion] on the next version: the changes of the
    state, or [None] for a version that is not supported. *)
Definition upgradeStep (state : ArbosState) (nextArbosVersion : Z) (firstTime : bool) : option (M unit) :=
  let l1 := as_l1PricingState state in
  if nextArbosVersion =? 2 then Some (ensure (SetLastSurplus l1 0 1))
  else if nextArbosVersion =? 3 then
    Some (ensure (SetPerBatchGasCost l1 0) ;;; ensure (SetAmortizedCostCapBips l1 MaxUint64))
  else if (4 <=? nextArbosVersion) && (nextArbosVersion <=? 9) then Some (ret tt)
  else if nextArbosVersion =? 10 then
    Some (let* balance := db_read (fun d => GetBalance d L1PricerFundsPoolAddress) in
          ensure (SetL1FeesAvailable l1 balance))
  else if nextArbosVersion =? 11 then
    Some (ensure (SetPerBatchGasCost l1 InitialPerBatchGasCostV12) ;;;
          let* oldAmortizationCap := ensure (AmortizedCostCapBips l1) in
          (if oldAmortizationCap =? MaxUint64 then ensure (SetAmortizedCostCapBips l1 0) else ret tt) ;;;
          if negb firstTime then ensure (AddressSet_ClearList (as_chainOwners state)) else ret tt)
  else if nextArbosVersion =? 20 then
    Some (ensure (SetBrotliCompressionLevel state 1) ;;;
          Programs_Initialize (OpenSubStorage (as_store state) programsSubspace))
  else if (12 <=? nextArbosVersion) && (nextArbosVersion <=? 19) then Some (ret tt)
  else None.

(** The loop of [UpgradeArbosVersion]; it returns the state, whose version is
    set in place, and an error. There is no version above 20, so 21 rounds are
    enough. The error of an unsupported version wraps [ErrFatalNodeOutOfDate]. *)
Fixpoint UpgradeArbosVersion_loop (fuel : nat) (state : ArbosState) (upgradeTo : Z) (firstTime : bool)
    : M (ArbosState * option error) :=
  if as_arbosVersion state <? upgradeTo then
    match fuel with
    | O => panic "out of fuel"
    | S fuel =>
        let nextArbosVersion := as_arbosVersion state +u64 1 in
        match upgradeStep state nextArbosVersion firstTime with
        | Some step =>
            step ;;;
            UpgradeArbosVersion_loop fuel (with_version state nextArbosVersion) upgradeTo firstTime
        | None => ret (state, Some ErrFatalNodeOutOfDate)
        end
    end
  else ret (state, None).

Definition UpgradeArbosVersion (state : ArbosState) (upgradeTo : Z) (firstTime : bool)
    : M (ArbosState * option error) :=
  let* (state, err) := UpgradeArbosVersion_loop 21 state upgradeTo firstTime in
  match err with
  | Some e => ret (state, Some e)
  | None =>
      (if firstTime && (6 <=? upgradeTo) then
         (if upgradeTo <? 11
          then restricted (SetPerBatchGasCost (as_l1PricingState state) InitialPerBatchGasCostV6)
          else ret tt) ;;;
         restricted (SetEquilibrationUnits (as_l1PricingState state) InitialEquilibrationUnitsV6) ;;;
         restricted (SetSpeedLimitPerSecond (as_l2PricingState state) InitialSpeedLimitPerSecondV6) ;;;
         restricted (SetMaxPerBlockGasLimit (as_l2PricingState state) InitialPerBlockGasLimitV6)
       else ret tt) ;;;
      restricted (Storage_SetUint64ByUint64 (as_store state) versionOffset (as_arbosVersion state)) ;;;
      ret (state, None)
  end.

Definition UpgradeArbosVersionIfNecessary (state : ArbosState) (currentTimestamp : Z)
    : M (ArbosState * option error) :=
  let* upgradeTo := restricted_value 0 (StorageBackedUint64_Get (as_upgradeVersion state)) in
  let* flagday := value_or 0 (StorageBackedUint64_Get (as_upgradeTimestamp state)) in
  if (as_arbosVersion state <? upgradeTo) && (flagday <=? currentTimestamp)
  then UpgradeArbosVersion state upgradeTo false
  else ret (state, None).

Definition ScheduleArbOSUpgrade (state : ArbosState) (newVersion timestamp : Z) : M unit :=
  StorageBackedUint64_Set (as_upgradeVersion state) newVersion ;;;
  StorageBackedUint64_Set (as_upgradeTimestamp state) timestamp.

Definition GetScheduledUpgrade (state : ArbosState) : M (Z * Z) :=
  let* version := StorageBackedUint64_Get (as_upgradeVersion state) in
  let* timestamp := StorageBackedUint64_Get (as_upgradeTimestamp state) in
  ret (version, timestamp).

Definition SetFormatVersion (state : ArbosState) (val : Z) : M ArbosState :=
  restricted (Storage_SetUint64ByUint64 (as_store state) versionOffset val) ;;;
  ret (with_version state val).

Definition SendMerkleAccumulator (state : ArbosState) : MerkleAccumulator :=
  match as_sendMerkle state with
  | Some acc => acc
  | None => OpenMerkleAccumulator (OpenCachedSubStorage (as_store state) sendMerkleSubspace)
  end.

Definition NetworkFeeAccount (state : ArbosState) : M Z := StorageBackedAddress_Get (as_networkFeeAccount state).
Definition SetNetworkFeeAccount (state : ArbosState) (account : Z) : M unit :=
  StorageBackedAddress_Set (as_networkFeeAccount state) account.
Definition InfraFeeAccount (state : ArbosState) : M Z := StorageBackedAddress_Get (as_infraFeeAccount state).
Definition SetInfraFeeAccount (state : ArbosState) (account : Z) : M unit :=
  StorageBackedAddress_Set (as_infraFeeAccount state) account.
Definition ChainId (state : ArbosState) : M Z := StorageBackedBigInt_Get (as_chainId state).
Definition ChainConfig_ (state : ArbosState) : M (list Z) := StorageBackedBytes_Get (as_chainConfig state).
Definition SetChainConfig (state : ArbosState) (serializedChainConfig : list Z) : M unit :=
  StorageBackedBytes_Set (as_chainConfig state) serializedChainConfig.
Definition GenesisBlockNum (state : ArbosState) : M Z := StorageBackedUint64_Get (as_genesisBlockNum state).
End Operations.

Section Genesis.
Context {E : Env} {GE : GethEnv E}.

Definition getArbitrumOnlyGenesisPrecompiles (chainConfig : ChainConfig) : list Z :=
  let rules := Rules chainConfig 0 false 0 (cc_InitialArbOSVersion chainConfig) in
  let arbPrecompiles := ActivePrecompiles rules in
  let ethPrecompiles := ActivePrecompiles (set_IsArbitrum false rules) in
  filter (fun addr => addr ∉ ethPrecompiles) arbPrecompiles.

Definition InitializeArbosState (chainConfig : ChainConfig) (initMessage : ParsedInitMessage) : M ArbosState :=
  let* sto := NewGeth in
  let* arbosVersion := Storage_GetUint64ByUint64 sto versionOffset in
  if negb (arbosVersion =? 0) then fail ErrAlreadyInitialized
  else
    let desiredArbosVersion := cc_InitialArbOSVersion chainConfig in
    if desiredArbosVersion =? 0 then fail (ErrNew "cannot initialize to ArbOS version 0")
    else
      db_write (fun d => fold_left (fun d addr => SetCode d addr [254])
                           (getArbitrumOnlyGenesisPrecompiles chainConfig) d) ;;;
      let initialChainOwner := cc_InitialChainOwner chainConfig in
      ignore (Storage_SetUint64ByUint64 sto versionOffset 1) ;;;
      ignore (Storage_SetUint64ByUint64 sto upgradeVersionOffset 0) ;;;
      ignore (Storage_SetUint64ByUint64 sto upgradeTimestampOffset 0) ;;;
      (if 2 <=? desiredArbosVersion
       then ignore (Storage_SetByUint64 sto networkFeeAccountOffset (AddressToHash initialChainOwner))
       else ignore (Storage_SetByUint64 sto networkFeeAccountOffset 0)) ;;;
      ignore (Storage_SetByUint64 sto chainIdOffset (BigToHash (cc_ChainID chainConfig))) ;;;
      ignore (StorageBackedBytes_Set (OpenStorageBackedBytes sto chainConfigSubspace)
                (im_SerializedChainConfig initMessage)) ;;;
      ignore (Storage_SetUint64ByUint64 sto genesisBlockNumOffset (cc_GenesisBlockNum chainConfig)) ;;;
      ignore (Storage_SetUint64ByUint64 sto brotliCompressionLevelOffset 0) ;;;
      let initialRewardsRecipient := if 2 <=? desiredArbosVersion then initialChainOwner else BatchPosterAddress in
      ignore (InitializeL1PricingState (OpenCachedSubStorage sto l1PricingSubspace) initialRewardsRecipient
                (im_InitialL1BaseFee initMessage)) ;;;
      ignore (InitializeL2PricingState (OpenCachedSubStorage sto l2PricingSubspace)) ;;;
      ignore (InitializeRetryableState (OpenCachedSubStorage sto retryablesSubspace)) ;;;
      AddressTable_Initialize (OpenCachedSubStorage sto addressTableSubspace) ;;;
      InitializeMerkleAccumulator (OpenCachedSubStorage sto sendMerkleSubspace) ;;;
      InitializeBlockhashes (OpenCachedSubStorage sto blockhashesSubspace) ;;;
      let ownersStorage := OpenCachedSubStorage sto chainOwnerSubspace in
      ignore (AddressSet_Initialize ownersStorage) ;;;
      ignore (AddressSet_Add (OpenAddressSet ownersStorage) initialChainOwner) ;;;
      let* aState := OpenArbosState in
      if 1 <? desiredArbosVersion then
        let* (aState, err) := UpgradeArbosVersion aState desiredArbosVersion true in
        match err with Some e => fail e | None => ret aState end
      else ret aState.
End Genesis.

(** ** The words an upgrade changes *)

(** The spaces an upgrade writes to, below the root space. *)
Definition arb_spaces {E : Env} (root : Storage) : list Storage :=
  let programs := OpenSubStorage root programsSubspace in
  [root; OpenCachedSubStorage root l1PricingSubspace; OpenCachedSubStorage root l2PricingSubspace;
   OpenCachedSubStorage root chainOwnerSubspace; OpenSubStorage programs paramsKey;
   OpenSubStorage programs dataPricerKey; OpenCachedSubStorage programs cacheManagersKey].

(** An upgrade from version [v] to [u] goes through version [n]. *)
Definition crosses (v u n : Z) : bool := (v <? n) && (n <=? u).

(** The parameters of Stylus that version 20 starts with. *)
Definition initial_params : Z :=
  params_word (mkStylusParams None 1 initialInkPrice initialStackDepth InitialFreePages InitialPageGas
    initialPageRamp initialPageLimit initialMinInitGas initialMinCachedInitGas initialExpiryDays
    initialKeepaliveDays initialRecentCacheSize).

Definition initial_pricer (k : Z) : option Z :=
  match k with
  | 0 => Some initialDemand
  | 1 => Some initialBytesPerSecond
  | 2 => Some initialLastUpdateTime
  | 3 => Some initialMinPrice
  | 4 => Some initialInertia
  | _ => None
  end.

(** The words after the migrations from version [v] to [u], where [pool] is the
    balance of the pool of the L1 pricer. *)
Definition migrated (v u : Z) (firstTime : bool) (pool : Z) (c : words) : words := fun i k =>
  match i with
  | 0%nat => if (k =? brotliCompressionLevelOffset) && crosses v u 20 then 1 else c i k
  | 1%nat =>
      if (k =? lastSurplusOffset) && crosses v u 2 then 0
      else if (k =? perBatchGasCostOffset) && crosses v u 11 then InitialPerBatchGasCostV12
      else if (k =? perBatchGasCostOffset) && crosses v u 3 then 0
      else if (k =? amortizedCostCapBipsOffset) && crosses v u 11
              && (crosses v u 3 || (c i k =? MaxUint64)) then 0
      else if (k =? amortizedCostCapBipsOffset) && crosses v u 3 then MaxUint64
      else if (k =? l1FeesAvailableOffset) && crosses v u 10 then pool
      else c i k
  | 3%nat => if crosses v u 11 && negb firstTime && (k <=? c i 0) then 0 else c i k
  | 4%nat => if (k =? 0) && crosses v u 20 then initial_params else c i k
  | 5%nat => if crosses v u 20 then default (c i k) (initial_pricer k) else c i k
  | 6%nat => if (k =? 0) && crosses v u 20 then 0 else c i k
  | _ => c i k
  end.

(** The words after an upgrade: the version is recorded, and a new chain gets
    the parameters of version 6. *)
Definition upgraded (v u : Z) (firstTime : bool) (pool : Z) (c : words) : words := fun i k =>
  let new6 := firstTime && (6 <=? u) in
  match i with
  | 0%nat => if k =? versionOffset then u else migrated v u firstTime pool c i k
  | 1%nat =>
      if (k =? perBatchGasCostOffset) && new6 && (u <? 11) then InitialPerBatchGasCostV6
      else if (k =? equilibrationUnitsOffset) && new6 then InitialEquilibrationUnitsV6
      else migrated v u firstTime pool c i k
  | 2%nat =>
      if (k =? speedLimitPerSecondOffset) && new6 then InitialSpeedLimitPerSecondV6
      else if (k =? perBlockGasLimitOffset) && new6 then InitialPerBlockGasLimitV6
      else c i k
  | _ => migrated v u firstTime pool c i k
  end.

(** Decides equalities of words that differ in conditions on the versions. *)
Ltac words_eq :=
  repeat match goal with
  | |- context [decide ?P] => destruct (decide P)
  | H : context [decide ?P] |- _ => destruct (decide P)
  | H : _ = _ /\ _ |- _ => destruct H
  | |- context [?a =? ?b] => destruct (Z.eqb_spec a b)
  | |- context [?a <? ?b] => destruct (Z.ltb_spec a b)
  | |- context [?a <=? ?b] => destruct (Z.leb_spec a b)
  end; subst; cbn [andb orb negb]; try lia; try reflexivity; try congruence.

Lemma crosses_succ v n m : v <= n -> crosses v (n + 1) m = crosses v n m || (m =? n + 1).
Proof. intros H. unfold crosses. words_eq. Qed.

Lemma crosses_above v n m : n < m -> crosses v n m = false.
Proof. intros H. unfold crosses. words_eq. Qed.

Section Facts.
Context {E : Env} {EL : EnvLaws E} (root : Storage) (NC : spaces_ok (arb_spaces root)) (d0 : DB).

#[local] Notation at_ := (words_at (arb_spaces root) d0).

Lemma refines_ensure {A} (m : M A) c a c' : refines at_ m c (Ok a) c' -> refines at_ (ensure m) c (Ok a) c'.
Proof. intros H. eapply refines_bind; [apply refines_attempt, H|]. apply refines_ret. Qed.

Ltac slot_set_runs :=
  intros d; unfold OpenStorageBackedUint64, OpenStorageBackedBigUint, OpenStorageBackedInt64, OpenStorageBackedBigInt,
    OpenStorageBackedUint32, StorageBackedBigInt_Set_preVersion7, StorageBackedUint64_Clear;
  rewrite ?NewSlot_skey by (split; [vm_compute; discriminate|reflexivity]).

(** The state of the chain owners is cleared. *)
Definition cleared (c : words) : words := fun i k =>
  if decide (i = 3%nat /\ k <= c 3%nat 0) then 0 else c i k.

Lemma clear_loop_refines (n : nat) : forall c j, 1 <= j -> j + Z.of_nat n < 2 ^ 64 ->
  refines at_ (AddressSet_ClearList_loop n (OpenAddressSet (OpenCachedSubStorage root chainOwnerSubspace)) j (j + Z.of_nat n - 1))
    c (Ok tt) (fun i k => if decide (i = 3%nat /\ j <= k < j + Z.of_nat n) then 0 else c i k).
Proof.
  induction n as [|n IH]; intros c j Hj Hn; cbn [AddressSet_ClearList_loop].
  - eapply refines_words_ext; [|apply refines_ret]. intros i k _ _. cbv beta. now rewrite decide_False by lia.
  - destruct (Z.leb_spec j (j + Z.of_nat (S n) - 1)); [|lia].
    cbn [OpenAddressSet as_backingStorage]. rewrite Storage_ClearByUint64_WithoutCache.
    eapply refines_bind.
    + eapply (refines_word_set _ NC _ _ _ _ _ 3%nat _ j); [reflexivity|unfold in_u; lia|].
      intros d. apply Storage_ClearByUint64_runs. unfold in_u. lia.
    + rewrite uwrap_id by (unfold in_u; lia).
      replace (j + Z.of_nat (S n) - 1) with (j + 1 + Z.of_nat n - 1) by lia.
      eapply refines_words_ext; [|apply IH; lia]. intros i k _ _. cbv beta. unfold wupd. words_eq.
Qed.

Lemma ClearList_refines c : 0 <= c 3%nat 0 < 2 ^ 64 - 1 ->
  refines at_ (AddressSet_ClearList (OpenAddressSet (OpenCachedSubStorage root chainOwnerSubspace))) c (Ok tt) (cleared c).
Proof.
  intros Hs. unfold AddressSet_ClearList. cbn [OpenAddressSet as_size]. unfold OpenStorageBackedUint64.
  rewrite NewSlot_skey by (unfold in_u; lia).
  eapply refines_bind.
  - apply (refines_word_get _ _ _ (fun z => z) 800 c 3%nat (OpenCachedSubStorage root chainOwnerSubspace) 0); [reflexivity|unfold in_u; lia|].
    intros d Hd. rewrite <- Hd. apply StorageBackedUint64_Get_runs. rewrite Hd. unfold in_u. lia.
  - cbv beta. destruct (Z.eqb_spec (c 3%nat 0) 0) as [E0|E0].
    + eapply refines_words_ext; [|apply refines_ret]. intros i k _ Hk. unfold cleared, in_u in *. words_eq.
      replace k with 0 by lia. congruence.
    + eapply refines_bind.
      * pose proof (clear_loop_refines (Z.to_nat (c 3%nat 0)) c 1 ltac:(lia) ltac:(lia)) as HL.
        replace (1 + Z.of_nat (Z.to_nat (c 3%nat 0)) - 1) with (c 3%nat 0) in HL by lia. exact HL.
      * eapply refines_words_ext; [|eapply (refines_word_set _ NC _ _ _ _ _ 3%nat _ 0); [reflexivity|unfold in_u; lia|]].
        2: { intros d. apply StorageBackedUint64_Set_runs. unfold in_u. lia. }
        intros i k _ Hk. unfold wupd, cleared, in_u in *. words_eq.
Qed.

(** Writes of one word by the setters that upgrades use. *)
Lemma set_word {A} (m : M A) a G c i s k v : arb_spaces root !! i = Some s -> in_u 64 k ->
  (forall d, runs G m d (Ok a) (slot_set d (skey s k) v)) -> refines at_ m c (Ok a) (wupd c i k v).
Proof. apply refines_word_set, NC. Qed.

Lemma Programs_Initialize_refines c :
  refines at_ (Programs_Initialize (OpenSubStorage root programsSubspace)) c (Ok tt)
    (fun i k => match i with
                | 4%nat => if k =? 0 then initial_params else c i k
                | 5%nat => default (c i k) (initial_pricer k)
                | 6%nat => if k =? 0 then 0 else c i k
                | _ => c i k
                end).
Proof.
  eapply refines_words_ext; [|eapply refines_bind; [|eapply refines_bind]].
  2: { eapply refines_ignore, (set_word _ _ 20000 c 4%nat _ 0 initial_params); [reflexivity|unfold in_u; lia|].
       intros d. eapply Save_runs; [|reflexivity]. repeat split; vm_compute; congruence. }
  2: { unfold initDataPricer. cbv zeta.
       eapply refines_bind; [eapply refines_ignore, (set_word _ _ 20000 _ 5%nat _ 0 initialDemand); [reflexivity|unfold in_u; lia|]|].
       { slot_set_runs. apply StorageBackedUint32_Set_runs. split; vm_compute; congruence. }
       eapply refines_bind; [eapply refines_ignore, (set_word _ _ 20000 _ 5%nat _ 1 initialBytesPerSecond); [reflexivity|unfold in_u; lia|]|].
       { slot_set_runs. apply StorageBackedUint32_Set_runs. split; vm_compute; congruence. }
       eapply refines_bind; [eapply refines_ignore, (set_word _ _ 20000 _ 5%nat _ 2 initialLastUpdateTime); [reflexivity|unfold in_u; lia|]|].
       { slot_set_runs. apply StorageBackedUint64_Set_runs. split; vm_compute; congruence. }
       eapply refines_bind; [eapply refines_ignore, (set_word _ _ 20000 _ 5%nat _ 3 initialMinPrice); [reflexivity|unfold in_u; lia|]|].
       { slot_set_runs. apply StorageBackedUint32_Set_runs. split; vm_compute; congruence. }
       eapply refines_ignore, (set_word _ _ 20000 _ 5%nat _ 4 initialInertia); [reflexivity|unfold in_u; lia|].
       slot_set_runs. apply StorageBackedUint32_Set_runs. split; vm_compute; congruence. }
  2: { eapply refines_ignore, (set_word _ _ 20000 _ 6%nat _ 0 0); [reflexivity|unfold in_u; lia|].
       intros d. apply Storage_SetUint64ByUint64_runs; unfold in_u; lia. }
  intros i k Hi Hk. unfold wupd. unfold in_u in Hk.
  destruct i as [|[|[|[|[|[|[|i]]]]]]]; [words_eq..|simpl in Hi; lia].
  unfold initial_pricer. destruct k as [|[[[]|[]|]|[[]|[]|]|]|]; reflexivity || lia.
Qed.

Context (c : words) (v : Z) (firstTime : bool).
Context (Hv : 1 <= v) (Hpool : in_u 256 (GetBalance d0 L1PricerFundsPoolAddress)).
Context (Hcap : in_u 64 (c 1%nat amortizedCostCapBipsOffset)) (Howners : 0 <= c 3%nat 0 < 2 ^ 64 - 1).

#[local] Notation mig n := (migrated v n firstTime (GetBalance d0 L1PricerFundsPoolAddress) c).

(** The round from [n] to [n + 1] changes the words as [migrated] says. The keys
    of the L1 pricer are told apart first. *)
Ltac word_cases :=
  repeat match goal with
  | H : crosses ?a ?b ?m = _ |- context [crosses ?a ?b ?m] => rewrite H
  | |- context [crosses ?a ?b ?m] => destruct (crosses a b m)
  | |- context [negb firstTime] => destruct firstTime
  end; cbn [andb orb negb]; words_eq.

Ltac key_case k off :=
  destruct (Z.eq_dec k off) as [->|?]; [cbn [Z.eqb Pos.eqb andb orb]; word_cases|].

Ltac mig_eq n :=
  let i := fresh "i" in let k := fresh "k" in let Hi := fresh "Hi" in let Hk := fresh "Hk" in
  intros i k Hi Hk; unfold wupd, cleared, migrated;
  rewrite ?(crosses_succ v n) by lia;
  rewrite ?(crosses_above v n 2), ?(crosses_above v n 3), ?(crosses_above v n 10), ?(crosses_above v n 11),
    ?(crosses_above v n 20) by lia;
  let m := eval vm_compute in (n + 1) in change (n + 1) with m;
  cbn [Z.eqb Pos.eqb andb orb]; rewrite ?orb_true_r, ?orb_false_r, ?andb_false_r, ?andb_true_r;
  unfold lastSurplusOffset, perBatchGasCostOffset, amortizedCostCapBipsOffset, l1FeesAvailableOffset,
    brotliCompressionLevelOffset, in_u in *;
  destruct i as [|[|[|[|[|[|[|i]]]]]]];
  [ word_cases
  | key_case k 8; key_case k 9; key_case k 10; key_case k 11; words_eq
  | word_cases | word_cases | word_cases | word_cases | word_cases | simpl in Hi; lia ].

Ltac set_uint64 := slot_set_runs; apply StorageBackedUint64_Set_runs; split; [vm_compute; discriminate|reflexivity].

Lemma migrated_noop n i k : v <= n -> ~ In (n + 1) [2; 3; 10; 11; 20] -> mig n i k = mig (n + 1) i k.
Proof.
  intros Hn Hin. simpl in Hin. unfold migrated. rewrite !(crosses_succ v n) by lia.
  rewrite !(proj2 (Z.eqb_neq _ (n + 1))) by lia. now rewrite !orb_false_r.
Qed.

(** The round to version 11: a new cost per batch, the cap is reset if it was
    the old default, and the list of the chain owners is cleared. *)
Lemma step11_refines : v <= 10 ->
  refines at_
    (ensure (SetPerBatchGasCost (OpenL1PricingState (OpenCachedSubStorage root l1PricingSubspace)) InitialPerBatchGasCostV12) ;;;
     let* oldAmortizationCap := ensure (AmortizedCostCapBips (OpenL1PricingState (OpenCachedSubStorage root l1PricingSubspace))) in
     (if oldAmortizationCap =? MaxUint64
      then ensure (SetAmortizedCostCapBips (OpenL1PricingState (OpenCachedSubStorage root l1PricingSubspace)) 0) else ret tt) ;;;
     if negb firstTime then ensure (AddressSet_ClearList (OpenAddressSet (OpenCachedSubStorage root chainOwnerSubspace))) else ret tt)
    (mig 10) (Ok tt) (mig (10 + 1)).
Proof.
  intros Hn. set (c1 := wupd (mig 10) 1%nat perBatchGasCostOffset InitialPerBatchGasCostV12).
  set (cap := mig 10 1%nat amortizedCostCapBipsOffset).
  set (c2 := if cap =? MaxUint64 then wupd c1 1%nat amortizedCostCapBipsOffset 0 else c1).
  assert (cap = if crosses v 10 3 then MaxUint64 else c 1%nat amortizedCostCapBipsOffset) as Ecap.
  { unfold cap, migrated, amortizedCostCapBipsOffset, lastSurplusOffset, perBatchGasCostOffset, l1FeesAvailableOffset.
    cbn [Z.eqb Pos.eqb andb]. rewrite crosses_above by lia. cbn [andb]. reflexivity. }
  assert (in_u 64 cap) as Hc by (rewrite Ecap; destruct (crosses v 10 3); [split; vm_compute; congruence|exact Hcap]).
  eapply refines_bind; [|eapply (refines_bind _ _ _ _ cap c1); [|eapply (refines_bind _ _ _ _ tt c2)]].
  - apply refines_ensure. eapply (set_word _ _ 20000 _ 1%nat (OpenCachedSubStorage root l1PricingSubspace) perBatchGasCostOffset InitialPerBatchGasCostV12);
      [reflexivity|split; [vm_compute; discriminate|reflexivity]|].
    slot_set_runs. apply (StorageBackedInt64_Set_runs _ InitialPerBatchGasCostV12).
  - apply refines_ensure.
    apply (refines_word_get _ _ _ (fun z => z) 800 c1 1%nat (OpenCachedSubStorage root l1PricingSubspace) amortizedCostCapBipsOffset);
      [reflexivity|split; [vm_compute; discriminate|reflexivity]|].
    intros d Hd. change (c1 1%nat amortizedCostCapBipsOffset) with cap in *.
    unfold AmortizedCostCapBips. cbn [l1_amortizedCostCapBips OpenL1PricingState]. unfold OpenStorageBackedUint64.
    rewrite NewSlot_skey by (split; [vm_compute; discriminate|reflexivity]). rewrite <- Hd.
    apply StorageBackedUint64_Get_runs. now rewrite Hd.
  - unfold c2. destruct (cap =? MaxUint64); [|apply refines_ret]. apply refines_ensure.
    eapply (set_word _ _ 20000 _ 1%nat (OpenCachedSubStorage root l1PricingSubspace) amortizedCostCapBipsOffset 0);
      [reflexivity|split; [vm_compute; discriminate|reflexivity]|set_uint64].
  - assert (forall i k, (i < 7)%nat -> in_u 64 k ->
      (if negb firstTime then cleared c2 else c2) i k = mig (10 + 1) i k) as He.
    { unfold c2, c1, amortizedCostCapBipsOffset in *. clearbody cap. clear c1 c2 Hc.
      destruct (cap =? MaxUint64) eqn:Ec; [apply Z.eqb_eq in Ec|apply Z.eqb_neq in Ec]; rewrite Ecap in Ec;
        destruct (crosses v 10 3) eqn:E3; destruct (negb firstTime) eqn:Ef; try congruence; mig_eq 10. }
    destruct (negb firstTime); (eapply refines_words_ext; [exact He|]).
    + apply refines_ensure, ClearList_refines. replace (c2 3%nat 0) with (c 3%nat 0); [exact Howners|].
      unfold c2, c1, migrated. rewrite (crosses_above v 10 11) by lia. now destruct (cap =? MaxUint64).
    + apply refines_ret.
Qed.

(** One round of the loop. *)
Lemma upgradeStep_refines n w : v <= n < 20 ->
  exists step, upgradeStep (arbosStateAt root w) (n + 1) firstTime = Some step /\
    refines at_ step (mig n) (Ok tt) (mig (n + 1)).
Proof.
  intros Hn. unfold upgradeStep. cbn [as_l1PricingState as_chainOwners as_store arbosStateAt].
  destruct (Z.eqb_spec (n + 1) 2) as [E2|E2].
  { eexists. split; [reflexivity|]. eapply refines_words_ext; [|eapply refines_ensure,
      (set_word _ _ 20000 _ 1%nat (OpenCachedSubStorage root l1PricingSubspace) lastSurplusOffset 0);
      [reflexivity|split; [vm_compute; discriminate|reflexivity]|slot_set_runs; apply StorageSlot_Set_runs]].
    replace n with 1 in * by lia. mig_eq 1. }
  destruct (Z.eqb_spec (n + 1) 3) as [E3|E3].
  { eexists. split; [reflexivity|]. eapply refines_words_ext; [|eapply refines_bind; eapply refines_ensure].
    2: { eapply (set_word _ _ 20000 _ 1%nat (OpenCachedSubStorage root l1PricingSubspace) perBatchGasCostOffset 0);
         [reflexivity|split; [vm_compute; discriminate|reflexivity]|].
         slot_set_runs. apply (StorageBackedInt64_Set_runs _ 0). }
    2: { eapply (set_word _ _ 20000 _ 1%nat (OpenCachedSubStorage root l1PricingSubspace) amortizedCostCapBipsOffset MaxUint64);
         [reflexivity|split; [vm_compute; discriminate|reflexivity]|set_uint64]. }
    replace n with 2 in * by lia. mig_eq 2. }
  destruct ((4 <=? n + 1) && (n + 1 <=? 9)) eqn:E9.
  { apply andb_prop in E9 as [E4%Z.leb_le E9%Z.leb_le]. eexists. split; [reflexivity|].
    eapply refines_words_ext; [|apply refines_ret]. intros i k _ _. apply migrated_noop; simpl; lia. }
  apply andb_false_iff in E9.
  destruct (Z.eqb_spec (n + 1) 10) as [E10|E10].
  { eexists. split; [reflexivity|]. eapply refines_words_ext; [|eapply refines_bind].
    2: { apply (refines_read _ 0 _ _ (GetBalance d0 L1PricerFundsPoolAddress)). intros d Hd. rewrite <- (words_at_balance _ _ _ _ _ Hd).
         apply (runs_db_read (fun d => GetBalance d L1PricerFundsPoolAddress)). }
    2: { eapply refines_ensure, (set_word _ _ 20000 _ 1%nat (OpenCachedSubStorage root l1PricingSubspace) l1FeesAvailableOffset);
         [reflexivity|split; [vm_compute; discriminate|reflexivity]|].
         slot_set_runs. apply StorageBackedBigUint_SetChecked_runs, Hpool. }
    replace n with 9 in * by lia. mig_eq 9. }
  destruct (Z.eqb_spec (n + 1) 11) as [E11|E11].
  { eexists. split; [reflexivity|]. replace n with 10 in * by lia. apply step11_refines; lia. }
  destruct (Z.eqb_spec (n + 1) 20) as [E20|E20].
  { eexists. split; [reflexivity|]. eapply refines_words_ext; [|eapply refines_bind; [eapply refines_ensure|]].
    2: { unfold SetBrotliCompressionLevel. cbn [as_brotliCompressionLevel]. change (1 <=? LEVEL_WELL) with true. cbv iota.
         eapply (set_word _ _ 20000 _ 0%nat root brotliCompressionLevelOffset 1);
         [reflexivity|split; [vm_compute; discriminate|reflexivity]|set_uint64]. }
    2: apply Programs_Initialize_refines.
    replace n with 19 in * by lia. mig_eq 19. }
  destruct ((12 <=? n + 1) && (n + 1 <=? 19)) eqn:E19.
  - apply andb_prop in E19 as [E12%Z.leb_le E19%Z.leb_le]. eexists. split; [reflexivity|].
    eapply refines_words_ext; [|apply refines_ret]. intros i k _ _. apply migrated_noop; simpl; lia.
  - apply andb_false_iff in E19. exfalso. destruct E9 as [E9%Z.leb_gt|E9%Z.leb_gt], E19 as [E19%Z.leb_gt|E19%Z.leb_gt]; lia.
Qed.

Lemma migrated_start i k : mig v i k = c i k.
Proof.
  assert (forall m, crosses v v m = false) as Hc by (intros m; unfold crosses; words_eq).
  unfold migrated. rewrite !Hc, !andb_false_r. cbn [andb]. now destruct i as [|[|[|[|[|[|[|i]]]]]]].
Qed.

Lemma UpgradeArbosVersion_loop_refines (fuel : nat) : forall n u, v <= n <= u -> u <= 20 -> u - n <= Z.of_nat fuel ->
  refines at_ (UpgradeArbosVersion_loop fuel (arbosStateAt root n) u firstTime) (mig n)
    (Ok (arbosStateAt root u, None)) (mig u).
Proof.
  induction fuel as [|fuel IH]; intros n u Hn Hu Hf; cbn [UpgradeArbosVersion_loop as_arbosVersion arbosStateAt];
    destruct (Z.ltb_spec n u); try lia; try (replace n with u by lia; apply refines_ret).
  rewrite uwrap_id by (unfold in_u; lia).
  destruct (upgradeStep_refines n n ltac:(lia)) as (step & -> & Hs).
  eapply refines_bind; [exact Hs|]. apply IH; lia.
Qed.

(** A version above 20 is refused, after the rounds up to 20. *)
Lemma UpgradeArbosVersion_loop_unsupported (fuel : nat) : forall n u, v <= n <= 20 -> 20 < u -> 20 - n < Z.of_nat fuel ->
  refines at_ (UpgradeArbosVersion_loop fuel (arbosStateAt root n) u firstTime) (mig n)
    (Ok (arbosStateAt root 20, Some ErrFatalNodeOutOfDate)) (mig 20).
Proof.
  induction fuel as [|fuel IH]; intros n u Hn Hu Hf; [lia|].
  cbn [UpgradeArbosVersion_loop as_arbosVersion arbosStateAt]. destruct (Z.ltb_spec n u); [|lia].
  rewrite uwrap_id by (unfold in_u; lia). destruct (decide (n = 20)) as [->|Hne]; [apply refines_ret|].
  destruct (upgradeStep_refines n n ltac:(lia)) as (step & -> & Hs).
  eapply refines_bind; [exact Hs|]. apply IH; lia.
Qed.

(** [Restrict] of a system burner does nothing. *)
Context (Hsys : forall e b, Restrict e b = Ok tt).

Lemma runs_restrict e d : runs 0 (restrict e) d (Ok tt) d.
Proof.
  split; [lia|]. intros b n Ha Hn Hro. exists b. unfold restrict. cbn [wburner]. rewrite Hsys.
  split; [reflexivity|]. split; [eapply affords_le; [exact Ha|lia]|exact Hro].
Qed.

Lemma refines_restricted {A} (m : M A) c1 a c2 : refines at_ m c1 (Ok a) c2 -> refines at_ (restricted m) c1 (Ok tt) c2.
Proof.
  intros H. eapply refines_bind; [apply refines_attempt, H|]. intros d Hd. exists 0, d.
  split; [apply runs_restrict|exact Hd].
Qed.

(** The parameters a new chain gets from version 6 on. *)
Definition new_chain (u : Z) (c : words) : words :=
  let c1 := if u <? 11 then wupd c 1%nat perBatchGasCostOffset InitialPerBatchGasCostV6 else c in
  wupd (wupd (wupd c1 1%nat equilibrationUnitsOffset InitialEquilibrationUnitsV6)
    2%nat speedLimitPerSecondOffset InitialSpeedLimitPerSecondV6) 2%nat perBlockGasLimitOffset InitialPerBlockGasLimitV6.

Lemma new_chain_refines u c1 :
  let l1 := OpenL1PricingState (OpenCachedSubStorage root l1PricingSubspace) in
  let l2 := OpenL2PricingState (OpenCachedSubStorage root l2PricingSubspace) in
  refines at_
    ((if u <? 11 then restricted (SetPerBatchGasCost l1 InitialPerBatchGasCostV6) else ret tt) ;;;
     restricted (SetEquilibrationUnits l1 InitialEquilibrationUnitsV6) ;;;
     restricted (SetSpeedLimitPerSecond l2 InitialSpeedLimitPerSecondV6) ;;;
     restricted (SetMaxPerBlockGasLimit l2 InitialPerBlockGasLimitV6)) c1 (Ok tt) (new_chain u c1).
Proof.
  intros l1 l2. unfold new_chain.
  eapply (refines_bind _ _ _ _ tt (if u <? 11 then wupd c1 1%nat perBatchGasCostOffset InitialPerBatchGasCostV6 else c1));
    [|eapply refines_bind; [|eapply refines_bind]].
  - destruct (u <? 11); [|apply refines_ret].
    eapply refines_restricted, (set_word _ tt 20000 _ 1%nat (OpenCachedSubStorage root l1PricingSubspace) perBatchGasCostOffset InitialPerBatchGasCostV6);
      [reflexivity|split; [vm_compute; discriminate|reflexivity]|].
    slot_set_runs. apply (StorageBackedInt64_Set_runs _ InitialPerBatchGasCostV6).
  - eapply refines_restricted, (set_word _ tt 20000 _ 1%nat (OpenCachedSubStorage root l1PricingSubspace) equilibrationUnitsOffset InitialEquilibrationUnitsV6);
      [reflexivity|split; [vm_compute; discriminate|reflexivity]|].
    slot_set_runs. apply StorageBackedBigUint_SetChecked_runs. split; [vm_compute; discriminate|reflexivity].
  - eapply refines_restricted, (set_word _ tt 20000 _ 2%nat (OpenCachedSubStorage root l2PricingSubspace) speedLimitPerSecondOffset InitialSpeedLimitPerSecondV6);
      [reflexivity|split; [vm_compute; discriminate|reflexivity]|set_uint64].
  - eapply refines_restricted, (set_word _ tt 20000 _ 2%nat (OpenCachedSubStorage root l2PricingSubspace) perBlockGasLimitOffset InitialPerBlockGasLimitV6);
      [reflexivity|split; [vm_compute; discriminate|reflexivity]|set_uint64].
Qed.

Lemma upgraded_eq u i k :
  wupd (if firstTime && (6 <=? u) then new_chain u (mig u) else mig u) 0%nat versionOffset u i k =
  upgraded v u firstTime (GetBalance d0 L1PricerFundsPoolAddress) c i k.
Proof.
  unfold upgraded, new_chain, wupd. set (m := mig u).
  assert (m 2%nat k = c 2%nat k) as E2 by reflexivity. clearbody m.
  unfold versionOffset, perBatchGasCostOffset, equilibrationUnitsOffset, speedLimitPerSecondOffset, perBlockGasLimitOffset.
  destruct (firstTime && (6 <=? u)), (u <? 11); rewrite ?andb_true_r, ?andb_false_r;
    destruct i as [|[|[|i]]]; words_eq.
Qed.

Lemma UpgradeArbosVersion_refines u : v <= u <= 20 ->
  refines at_ (UpgradeArbosVersion (arbosStateAt root v) u firstTime) c (Ok (arbosStateAt root u, None))
    (upgraded v u firstTime (GetBalance d0 L1PricerFundsPoolAddress) c).
Proof.
  intros Hu. unfold UpgradeArbosVersion. eapply refines_bind.
  { intros d Hd. apply (UpgradeArbosVersion_loop_refines 21 v u ltac:(lia) ltac:(lia) ltac:(lia)).
    eapply words_at_ext; [|exact Hd]. intros i k _ _. symmetry. apply migrated_start. }
  cbv beta iota. cbn [as_l1PricingState as_l2PricingState as_store as_arbosVersion arbosStateAt].
  eapply (refines_bind _ _ _ _ tt (if firstTime && (6 <=? u) then new_chain u (mig u) else mig u)).
  - destruct (firstTime && (6 <=? u)); [exact (new_chain_refines u (mig u))|apply refines_ret].
  - eapply refines_bind.
    + eapply refines_restricted, (set_word _ tt 20000 _ 0%nat root versionOffset u);
        [reflexivity|split; [vm_compute; discriminate|reflexivity]|].
      intros d. apply Storage_SetUint64ByUint64_runs; [split; [vm_compute; discriminate|reflexivity]|unfold in_u; lia].
    + eapply refines_words_ext; [|apply refines_ret]. intros i k _ _. apply upgraded_eq.
Qed.

Lemma UpgradeArbosVersion_refuses u : v <= 20 < u ->
  refines at_ (UpgradeArbosVersion (arbosStateAt root v) u firstTime) c
    (Ok (arbosStateAt root 20, Some ErrFatalNodeOutOfDate)) (mig 20).
Proof.
  intros Hu. unfold UpgradeArbosVersion.
  eapply (refines_bind _ _ _ _ (arbosStateAt root 20, Some ErrFatalNodeOutOfDate) (mig 20)); [|apply refines_ret].
  intros d Hd. apply (UpgradeArbosVersion_loop_unsupported 21 v u ltac:(lia) ltac:(lia) ltac:(lia)).
  eapply words_at_ext; [|exact Hd]. intros i k _ _. symmetry. apply migrated_start.
Qed.
End Facts.

(** The words of a database. *)
Definition words_of {E : Env} (sps : list Storage) (d : DB) : words :=
  fun i k => match sps !! i with Some s => slot_get d (skey s k) | None => 0 end.

Lemma words_of_at {E : Env} {EL : EnvLaws E} sps d : words_at sps d (words_of sps d) d.
Proof. split; [|reflexivity]. intros i s k Hi _. unfold words_of. now rewrite Hi. Qed.

(** An upgrade that is due: scheduled above the version of the state, and its
    time has come. *)
Definition upgrade_due (c : words) (v now : Z) : Prop :=
  v < c 0%nat upgradeVersionOffset /\ c 0%nat upgradeTimestampOffset <= now.

(** The state of an ArbOS at version [v], as far as upgrades read it. *)
Definition upgradable (c : words) (v pool : Z) : Prop :=
  1 <= v /\ in_u 256 pool /\ in_u 64 (c 1%nat amortizedCostCapBipsOffset) /\ 0 <= c 3%nat 0 < 2 ^ 64 - 1 /\
  in_u 64 (c 0%nat upgradeVersionOffset) /\ in_u 64 (c 0%nat upgradeTimestampOffset).

Lemma UpgradeIfNecessary_reads {E : Env} {EL : EnvLaws E} root d c v pool now G r d' :
  (forall e b, Restrict e b = Ok tt) -> upgradable c v pool -> words_at (arb_spaces root) d c d ->
  (if (v <? c 0%nat upgradeVersionOffset) && (c 0%nat upgradeTimestampOffset <=? now)
   then runs G (UpgradeArbosVersion (arbosStateAt root v) (c 0%nat upgradeVersionOffset) false) d r d'
   else runs G (ret (arbosStateAt root v, None)) d r d') ->
  runs (800 + (800 + G)) (UpgradeArbosVersionIfNecessary (arbosStateAt root v) now) d r d'.
Proof.
  intros Hsys (_ & _ & _ & _ & Hu & Ht) [Hw _] R. unfold UpgradeArbosVersionIfNecessary, restricted_value.
  cbn [as_upgradeVersion as_upgradeTimestamp as_arbosVersion arbosStateAt]. unfold OpenStorageBackedUint64.
  rewrite !NewSlot_skey by (split; [vm_compute; discriminate|reflexivity]).
  pose proof (Hw 0%nat root upgradeVersionOffset eq_refl ltac:(split; [vm_compute; discriminate|reflexivity])) as E1.
  pose proof (Hw 0%nat root upgradeTimestampOffset eq_refl ltac:(split; [vm_compute; discriminate|reflexivity])) as E2.
  eapply (runs_bind 800 (800 + G) _ _ d (c 0%nat upgradeVersionOffset) d).
  - change 800 with (800 + 0). eapply runs_bind.
    + apply runs_attempt_ok, StorageBackedUint64_Get_runs. now rewrite E1.
    + eapply runs_bind_free; [apply runs_restrict, Hsys|]. cbv iota. rewrite E1. apply runs_ret.
  - eapply runs_bind; [apply runs_value_or, StorageBackedUint64_Get_runs; now rewrite E2|].
    rewrite E2. now destruct ((v <? _) && _).
Qed.

(** The root space of ArbOS. *)
Definition arbos_root : Storage := mkStorage ArbosStateAddress [] true.

Lemma OpenArbosState_runs {E : Env} {EL : EnvLaws E} d v : in_u 64 v -> v <> 0 ->
  slot_get d (skey arbos_root versionOffset) = v ->
  runs 800 OpenArbosState d (Ok (arbosStateAt arbos_root v)) (SetNonce d ArbosStateAddress 1).
Proof.
  intros Hv H0 Hs. unfold OpenArbosState, NewGeth. fold arbos_root. change 800 with (0 + (800 + 0)).
  assert (slot_get (SetNonce d ArbosStateAddress 1) (skey arbos_root versionOffset) = v) as Hs'
    by (unfold slot_get; rewrite GetState_SetNonce; exact Hs).
  eapply runs_bind.
  - change 0 with (0 + 0). eapply runs_bind; [apply (runs_db_write (fun d => SetNonce d ArbosStateAddress 1))|apply runs_ret].
  - eapply runs_bind.
    + apply Storage_GetUint64ByUint64_runs; [split; [vm_compute; discriminate|reflexivity]|]. now rewrite Hs'.
    + rewrite Hs'. destruct (Z.eqb_spec v 0); [contradiction|]. apply runs_ret.
Qed.

#[local] Existing Instance TestEnv.

(** C30: an upgrade of ArbOS to a later version that this node supports always
    succeeds and does exactly what the versions it passes through call for:
    [upgraded] gives every word of the spaces of the root, the two pricers, the
    chain owners and the programs, and nothing else in the database changes, no
    balance and no other slot. Opening the state afterwards gives the same
    state at the new version. *)
Theorem UpgradeArbosVersion_upgrades {E : Env} {EL : EnvLaws E} (d : DB) (v u : Z) (firstTime : bool) :
  let c := words_of (arb_spaces arbos_root) d in
  let pool := GetBalance d L1PricerFundsPoolAddress in
  spaces_ok (arb_spaces arbos_root) -> (forall e b, Restrict e b = Ok tt) -> upgradable c v pool -> v <= u <= 20 ->
  exists G d', runs G (UpgradeArbosVersion (arbosStateAt arbos_root v) u firstTime) d (Ok (arbosStateAt arbos_root u, None)) d' /\
    words_at (arb_spaces arbos_root) d (upgraded v u firstTime pool c) d' /\
    runs 800 OpenArbosState d' (Ok (arbosStateAt arbos_root u)) (SetNonce d' ArbosStateAddress 1).
Proof.
  intros c pool NC Hsys (Hv & Hp & Hc & Ho & _) Hu.
  destruct (UpgradeArbosVersion_refines arbos_root NC d c v firstTime Hv Hp Hc Ho Hsys u Hu d (words_of_at _ d))
    as (G & d' & R & Hd'). exists G, d'. split; [exact R|]. split; [exact Hd'|].
  apply OpenArbosState_runs; [unfold in_u; lia|lia|].
  exact (proj1 Hd' 0%nat arbos_root versionOffset eq_refl ltac:(split; [vm_compute; discriminate|reflexivity])).
Qed.

(** An ArbOS at version 9 with three chain owners, the old cap and a pool. *)
Definition example_arbos : @DB TestEnv :=
  let d := AddBalance test_db L1PricerFundsPoolAddress 500 in
  let d := slot_set d (skey arbos_root versionOffset) 9 in
  let d := slot_set d (skey arbos_root upgradeVersionOffset) 20 in
  let d := slot_set d (skey arbos_root upgradeTimestampOffset) 1000 in
  let d := slot_set d (skey (OpenCachedSubStorage arbos_root l1PricingSubspace) amortizedCostCapBipsOffset) MaxUint64 in
  let owners := OpenCachedSubStorage arbos_root chainOwnerSubspace in
  slot_set (slot_set (slot_set (slot_set d (skey owners 0) 3) (skey owners 1) 77) (skey owners 2) 78) (skey owners 3) 79.

Lemma example_spaces : spaces_ok (arb_spaces arbos_root).
Proof.
  apply test_spaces_ok. change (NoDup (map (fun s => space_tag (sto_storageKey s)) (arb_spaces arbos_root))).
  apply (bool_decide_unpack _). vm_compute. exact I.
Qed.

Lemma example_upgradable :
  upgradable (words_of (arb_spaces arbos_root) example_arbos) 9 (GetBalance example_arbos L1PricerFundsPoolAddress).
Proof. repeat split; vm_compute; congruence. Qed.

Lemma UpgradeArbosVersion_upgrades_witness :
  exists G d', runs G (UpgradeArbosVersion (arbosStateAt arbos_root 9) 20 false) example_arbos
      (Ok (arbosStateAt arbos_root 20, None)) d' /\
    slot_get d' (skey arbos_root versionOffset) = 20 /\
    slot_get d' (skey (OpenCachedSubStorage arbos_root l1PricingSubspace) l1FeesAvailableOffset) = 500 /\
    slot_get d' (skey (OpenCachedSubStorage arbos_root l1PricingSubspace) amortizedCostCapBipsOffset) = 0 /\
    slot_get d' (skey (OpenCachedSubStorage arbos_root chainOwnerSubspace) 0) = 0.
Proof.
  destruct (UpgradeArbosVersion_upgrades example_arbos 9 20 false example_spaces (fun e b => eq_refl) example_upgradable ltac:(lia))
    as (G & d' & R & [Hd' _] & _).
  exists G, d'. split; [exact R|].
  rewrite (Hd' 0%nat arbos_root versionOffset eq_refl ltac:(split; vm_compute; congruence)).
  rewrite (Hd' 1%nat _ l1FeesAvailableOffset eq_refl ltac:(split; vm_compute; congruence)).
  rewrite (Hd' 1%nat _ amortizedCostCapBipsOffset eq_refl ltac:(split; vm_compute; congruence)).
  rewrite (Hd' 3%nat _ 0 eq_refl ltac:(split; vm_compute; congruence)).
  vm_compute. auto.
Defined.

(** A scheduled upgrade is applied exactly when it is due. While the
    scheduled version is not above the current one or its time has not come,
    nothing changes. When it is due and supported, the state is upgraded to it.
    When it is due and this node does not know the version, the upgrade fails
    with the error that the node is out of date, the recorded version stays as
    it was, so that a newer node can still perform the upgrade, but the
    migrations up to version 20 have been made. *)
Theorem UpgradeArbosVersionIfNecessary_scheduled {E : Env} {EL : EnvLaws E} (d : DB) (v now : Z) :
  let c := words_of (arb_spaces arbos_root) d in
  let pool := GetBalance d L1PricerFundsPoolAddress in
  let target := c 0%nat upgradeVersionOffset in
  spaces_ok (arb_spaces arbos_root) -> (forall e b, Restrict e b = Ok tt) -> upgradable c v pool -> v <= 20 ->
  (~ upgrade_due c v now ->
   runs 1600 (UpgradeArbosVersionIfNecessary (arbosStateAt arbos_root v) now) d (Ok (arbosStateAt arbos_root v, None)) d) /\
  (upgrade_due c v now ->
   exists G d',
     runs G (UpgradeArbosVersionIfNecessary (arbosStateAt arbos_root v) now) d
       (Ok (if target <=? 20 then (arbosStateAt arbos_root target, None)
            else (arbosStateAt arbos_root 20, Some ErrFatalNodeOutOfDate))) d' /\
     words_at (arb_spaces arbos_root) d
       (if target <=? 20 then upgraded v target false pool c else migrated v 20 false pool c) d').
Proof.
  intros c pool target NC Hsys Hup Hv. pose proof (words_of_at (arb_spaces arbos_root) d) as Hw.
  pose proof Hup as (H1 & Hp & Hc & Ho & _). split; intros Hdue.
  - apply (UpgradeIfNecessary_reads arbos_root d c v pool now 0 _ d Hsys Hup Hw).
    destruct ((v <? c 0%nat upgradeVersionOffset) && (c 0%nat upgradeTimestampOffset <=? now)) eqn:Ed; [|apply runs_ret].
    apply andb_prop in Ed as [E1%Z.ltb_lt E2%Z.leb_le]. destruct Hdue. split; assumption.
  - destruct Hdue as [Hd1 Hd2]. fold target in Hd1. destruct (Z.leb_spec target 20) as [Ht|Ht].
    + destruct (UpgradeArbosVersion_refines arbos_root NC d c v false H1 Hp Hc Ho Hsys target ltac:(lia) d Hw) as (G & d' & R & Hd').
      exists (800 + (800 + G)), d'. split; [|exact Hd'].
      apply (UpgradeIfNecessary_reads arbos_root d c v pool now G _ d' Hsys Hup Hw). fold target.
      now rewrite (proj2 (Z.ltb_lt v target)), (proj2 (Z.leb_le _ now)) by lia.
    + destruct (UpgradeArbosVersion_refuses arbos_root NC d c v false H1 Hp Hc Ho target ltac:(lia) d Hw) as (G & d' & R & Hd').
      exists (800 + (800 + G)), d'. split; [|exact Hd'].
      apply (UpgradeIfNecessary_reads arbos_root d c v pool now G _ d' Hsys Hup Hw). fold target.
      now rewrite (proj2 (Z.ltb_lt v target)), (proj2 (Z.leb_le _ now)) by lia.
Qed.

Lemma UpgradeArbosVersionIfNecessary_scheduled_witness :
  runs 1600 (UpgradeArbosVersionIfNecessary (arbosStateAt arbos_root 9) 999) example_arbos
    (Ok (arbosStateAt arbos_root 9, None)) example_arbos /\
  exists G d', runs G (UpgradeArbosVersionIfNecessary (arbosStateAt arbos_root 9) 1000) example_arbos
    (Ok (arbosStateAt arbos_root 20, None)) d'.
Proof.
  split.
  - apply (UpgradeArbosVersionIfNecessary_scheduled example_arbos 9 999 example_spaces (fun e b => eq_refl) example_upgradable ltac:(lia)).
    intros [_ H]. revert H. vm_compute. congruence.
  - destruct (UpgradeArbosVersionIfNecessary_scheduled example_arbos 9 1000 example_spaces (fun e b => eq_refl) example_upgradable ltac:(lia))
      as [_ H].
    destruct H as (G & d' & R & _); [split; vm_compute; congruence|]. exists G, d'. exact R.
Defined.
