(* ===== verification/Zeroheavy.v ===== *)
(** * zeroheavy/zeroheavy.go: the zero-heavy encoding of batch data

    The encoder turns a byte stream, followed by the padding bits 0 1 1 1 ...,
    into a prefix code with many zero bytes; the decoder expands the codes and
    drops the last zero bit with the ones behind it. A reader ([io.Reader]) is
    the bytes it still delivers and the error it then ends with. What is proved:
    a decoder ends on every source, with a bounded output, and reads back what
    an encoder wrote, however the reads are split. *)
From Stdlib Require Import ZArith Lia String List.
From stdpp Require Import base list numbers.
From S2P Require Import Prelude Arbmath Readers.
Open Scope Z_scope.

(** A reader that delivers [rd_bytes] and then fails with [rd_err]; the reader
    of a byte slice ([bytes.NewReader]) fails with [EOF]. *)
Record Reader := mkReader { rd_bytes : list Z; rd_err : error }.

Definition bytes_NewReader (b : list Z) : Reader := mkReader b EOF.

(** One read into a buffer of one byte. *)
Definition Reader_Read1 (r : Reader) : outcome Z * Reader :=
  match rd_bytes r with
  | [] => (Err (rd_err r), r)
  | b :: bs => (Ok b, mkReader bs (rd_err r))
  end.

(** ** The encoder *)

Record ZeroheavyEncoder := mkZeroheavyEncoder {
  ze_inner : Reader;
  ze_buffer : Z;
  ze_bitsReadFromBuffer : Z;
  ze_nowInPadding : bool;
  ze_atEof : bool
}.

Definition NewZeroheavyEncoder (inner : Reader) : ZeroheavyEncoder :=
  mkZeroheavyEncoder inner 0 8 false false.

Definition nextInputBit (enc : ZeroheavyEncoder) : outcome bool * ZeroheavyEncoder :=
  let take inner buffer bitsRead :=
    (Ok (negb (Z.land buffer (uwrap 8 (Z.shiftl 1 (uwrap 8 (7 - bitsRead)))) =? 0)),
     mkZeroheavyEncoder inner buffer (uwrap 8 (bitsRead + 1)) (ze_nowInPadding enc) (ze_atEof enc)) in
  if ze_nowInPadding enc then (Ok true, enc)
  else if ze_bitsReadFromBuffer enc =? 8 then
    match Reader_Read1 (ze_inner enc) with
    | (Err (ErrNew "EOF"), inner) =>
        (Ok false, mkZeroheavyEncoder inner (ze_buffer enc) (ze_bitsReadFromBuffer enc) true (ze_atEof enc))
    | (Err err, inner) =>
        (Err err, mkZeroheavyEncoder inner (ze_buffer enc) (ze_bitsReadFromBuffer enc)
                    (ze_nowInPadding enc) (ze_atEof enc))
    | (Panic msg, inner) => (Panic msg, enc)
    | (Ok b, inner) => take inner b 0
    end
  else take (ze_inner enc) (ze_buffer enc) (ze_bitsReadFromBuffer enc).

(** The two loops of [readOneImpl]: [n] more bits are shifted into [ret]. (The
    second one shifts before it reads, to the same effect.) *)
Fixpoint readBits_loop (n : nat) (ret : Z) (enc : ZeroheavyEncoder) : outcome Z * ZeroheavyEncoder :=
  match n with
  | O => (Ok ret, enc)
  | S n =>
      let^ (nextBit, enc) := nextInputBit enc in
      let ret := uwrap 8 (Z.shiftl ret 1) in
      readBits_loop n (if nextBit then uwrap 8 (ret + 1) else ret) enc
  end.

Definition readOneImpl (enc : ZeroheavyEncoder) : outcome Z * ZeroheavyEncoder :=
  let^ (firstBit, enc) := nextInputBit enc in
  if negb firstBit then
    let^ (secondBit, enc) := nextInputBit enc in
    if negb secondBit then (Ok 0, enc)
    else
      let^ (ret, enc) := readBits_loop 6 1 enc in
      if ret =? 64 then (Ok 1, enc)
      else
        let ret := Z.land (uwrap 8 (Z.shiftl ret 1)) 127 in
        let^ (nextBit, enc) := nextInputBit enc in
        (Ok (if nextBit then uwrap 8 (ret + 1) else ret), enc)
  else readBits_loop 7 1 enc.

Definition ZeroheavyEncoder_readOne (enc : ZeroheavyEncoder) : outcome Z * ZeroheavyEncoder :=
  if ze_atEof enc then (Err EOF, enc)
  else
    let^ (b, enc) := readOneImpl enc in
    if ze_nowInPadding enc then
      (Ok b, mkZeroheavyEncoder (ze_inner enc) (ze_buffer enc) (ze_bitsReadFromBuffer enc) true true)
    else (Ok b, enc).

(** [Read] fills a buffer of [n] bytes; on an error it returns the bytes it
    has written so far. The same loop is in the encoder and the decoder. *)
Fixpoint Read_loop {S : Type} (readOne : S -> outcome Z * S) (n : nat) (s : S) : list Z * outcome unit * S :=
  match n with
  | O => ([], Ok tt, s)
  | S n =>
      match readOne s with
      | (Ok b, s) => let '(bs, r, s) := Read_loop readOne n s in (b :: bs, r, s)
      | (Err e, s) => ([], Err e, s)
      | (Panic msg, s) => ([], Panic msg, s)
      end
  end.

Definition ZeroheavyEncoder_Read (enc : ZeroheavyEncoder) (n : nat) : list Z * outcome unit * ZeroheavyEncoder :=
  Read_loop ZeroheavyEncoder_readOne n enc.

(** ** The decoder *)

Record ZeroheavyDecoder := mkZeroheavyDecoder {
  zd_source : Reader;
  zd_buffer : list bool;
  zd_eofAfterBuffer : bool;
  zd_deferredZero : bool;
  zd_numDeferredOnes : Z
}.

Definition NewZeroheavyDecoder (source : Reader) : ZeroheavyDecoder :=
  mkZeroheavyDecoder source [] false false 0.

(** The loop of [pushBit] that appends the deferred ones. *)
Fixpoint pushBit_loop (fuel : nat) (br : ZeroheavyDecoder) : ZeroheavyDecoder :=
  match fuel with
  | O => br
  | S fuel =>
      if 0 <? zd_numDeferredOnes br then
        pushBit_loop fuel (mkZeroheavyDecoder (zd_source br) (zd_buffer br ++ [true]) (zd_eofAfterBuffer br)
                             (zd_deferredZero br) (zd_numDeferredOnes br -u64 1))
      else br
  end.

Definition pushBit (br : ZeroheavyDecoder) (b : bool) : ZeroheavyDecoder :=
  if zd_deferredZero br then
    if b then mkZeroheavyDecoder (zd_source br) (zd_buffer br) (zd_eofAfterBuffer br) true
                (zd_numDeferredOnes br +u64 1)
    else pushBit_loop (Z.to_nat (zd_numDeferredOnes br))
           (mkZeroheavyDecoder (zd_source br) (zd_buffer br ++ [false]) (zd_eofAfterBuffer br) true
              (zd_numDeferredOnes br))
  else
    if b then mkZeroheavyDecoder (zd_source br) (zd_buffer br ++ [true]) (zd_eofAfterBuffer br) false
                (zd_numDeferredOnes br)
    else mkZeroheavyDecoder (zd_source br) (zd_buffer br) (zd_eofAfterBuffer br) true (zd_numDeferredOnes br).

Definition push7Bits (br : ZeroheavyDecoder) (b : Z) : ZeroheavyDecoder :=
  fold_left (fun br i => pushBit br (negb (Z.land b (uwrap 8 (Z.shiftl 1 (6 - Z.of_nat i))) =? 0)))
    (seq 0 7) br.

(** [io.ReadFull] of one byte returns it, or the error of the source. *)
Definition refill (br : ZeroheavyDecoder) : bool * ZeroheavyDecoder :=
  match Reader_Read1 (zd_source br) with
  | (Ok b, source) =>
      let br := mkZeroheavyDecoder source (zd_buffer br) (zd_eofAfterBuffer br) (zd_deferredZero br)
                  (zd_numDeferredOnes br) in
      (false,
       if b =? 0 then pushBit (pushBit br false) false
       else if b =? 1 then
         fold_left (fun br _ => pushBit br false) (seq 0 6) (pushBit (pushBit br false) true)
       else if b <? 128 then push7Bits (pushBit (pushBit br false) true) b
       else push7Bits (pushBit br true) (Z.land b 127))
  | (_, source) =>
      (true, mkZeroheavyDecoder source (zd_buffer br) (zd_eofAfterBuffer br) (zd_deferredZero br)
               (zd_numDeferredOnes br))
  end.

(** The loop of [nextBit] refills an empty buffer; every round takes a byte of
    the source or sets [eofAfterBuffer], so two rounds more than there are
    bytes are enough ([nextBit_spec]). *)
Fixpoint nextBit_loop (fuel : nat) (br : ZeroheavyDecoder) : outcome bool * ZeroheavyDecoder :=
  match zd_buffer br with
  | ret :: buffer =>
      (Ok ret, mkZeroheavyDecoder (zd_source br) buffer (zd_eofAfterBuffer br) (zd_deferredZero br)
                 (zd_numDeferredOnes br))
  | [] =>
      if zd_eofAfterBuffer br then (Err EOF, br)
      else
        match fuel with
        | O => (Panic "out of fuel", br)
        | S fuel =>
            let '(eof, br) := refill br in
            nextBit_loop fuel (mkZeroheavyDecoder (zd_source br) (zd_buffer br) eof (zd_deferredZero br)
                                 (zd_numDeferredOnes br))
        end
  end.

Definition nextBit (br : ZeroheavyDecoder) : outcome bool * ZeroheavyDecoder :=
  nextBit_loop (length (rd_bytes (zd_source br)) + 2) br.

Fixpoint Decoder_readOne_loop (n : nat) (ret : Z) (br : ZeroheavyDecoder) : outcome Z * ZeroheavyDecoder :=
  match n with
  | O => (Ok ret, br)
  | S n =>
      let^ (b, br) := nextBit br in
      let ret := uwrap 8 (Z.shiftl ret 1) in
      Decoder_readOne_loop n (if b then Z.lor ret 1 else ret) br
  end.

Definition ZeroheavyDecoder_readOne (br : ZeroheavyDecoder) : outcome Z * ZeroheavyDecoder :=
  Decoder_readOne_loop 8 0 br.

Definition ZeroheavyDecoder_Read (br : ZeroheavyDecoder) (n : nat) : list Z * outcome unit * ZeroheavyDecoder :=
  Read_loop ZeroheavyDecoder_readOne n br.

(** [io.ReadAll]: reads into buffers of the sizes [chunks], which depend on how
    the result grows, until a read fails; [EOF] is the end and not an error. *)
Fixpoint ReadAll {S : Type} (Read : S -> nat -> list Z * outcome unit * S) (chunks : list nat) (s : S)
    : list Z * outcome unit :=
  match chunks with
  | [] => ([], Panic "more reads needed")
  | n :: chunks =>
      match Read s n with
      | (bs, Ok tt, s) => let '(bs', r) := ReadAll Read chunks s in (bs ++ bs', r)
      | (bs, Err (ErrNew "EOF"), _) => (bs, Ok tt)
      | (bs, r, _) => (bs, r)
      end
  end.

(** ** Bits *)

(** The bits of a byte, the highest first. *)
Definition byte_bits (b : Z) : list bool := map (fun i => Z.testbit b (7 - Z.of_nat i)) (seq 0 8).
Definition low7 (b : Z) : list bool := map (fun i => Z.testbit b (6 - Z.of_nat i)) (seq 0 7).
Definition bits_of (data : list Z) : list bool := concat (map byte_bits data).

(** The bits a code byte stands for. *)
Definition expand (b : Z) : list bool :=
  if b =? 0 then [false; false]
  else if b =? 1 then false :: true :: replicate 6 false
  else if b <? 128 then false :: true :: low7 b
  else true :: low7 b.

(** Drops the last zero with the ones behind it. *)
Fixpoint unpad (l : list bool) : list bool :=
  match l with
  | [] => []
  | b :: r => if b || existsb negb r then b :: unpad r else []
  end.

(** The whole bytes of a bit string. *)
Fixpoint pack (l : list bool) : list Z :=
  match l with
  | b7 :: b6 :: b5 :: b4 :: b3 :: b2 :: b1 :: b0 :: r =>
      128 * Z.b2z b7 + 64 * Z.b2z b6 + 32 * Z.b2z b5 + 16 * Z.b2z b4 +
      8 * Z.b2z b3 + 4 * Z.b2z b2 + 2 * Z.b2z b1 + Z.b2z b0 :: pack r
  | _ => []
  end.

Lemma land_bit b n : 0 <= n < 8 -> negb (Z.land b (uwrap 8 (Z.shiftl 1 n)) =? 0) = Z.testbit b n.
Proof.
  intros Hn. rewrite Z.shiftl_1_l, uwrap_id
    by (split; [apply Z.pow_nonneg; lia|apply Z.pow_lt_mono_r; lia]).
  destruct (Z.testbit b n) eqn:Eb.
  - apply negb_true_iff, Z.eqb_neq. intros H.
    assert (Z.testbit (Z.land b (2 ^ n)) n = false) as F by (rewrite H; apply Z.bits_0).
    rewrite Z.land_spec, Eb, Z.pow2_bits_true in F by lia. discriminate.
  - apply negb_false_iff, Z.eqb_eq, Z.bits_inj_0. intros m.
    rewrite Z.land_spec, Z.pow2_bits_eqb by lia.
    destruct (Z.eqb_spec n m) as [->|]; [now rewrite Eb|apply andb_false_r].
Qed.

Lemma length_byte_bits b : length (byte_bits b) = 8%nat.
Proof. reflexivity. Qed.

Lemma length_bits_of data : length (bits_of data) = (8 * length data)%nat.
Proof. unfold bits_of. induction data; simpl; [reflexivity|]. rewrite IHdata. lia. Qed.

Lemma drop_byte_bits b (k : nat) : (k < 8)%nat ->
  drop k (byte_bits b) = Z.testbit b (7 - Z.of_nat k) :: drop (S k) (byte_bits b).
Proof. intros Hk. do 8 (destruct k as [|k]; [reflexivity|]). lia. Qed.

Lemma pack_byte b r : is_byte b -> pack (byte_bits b ++ r) = b :: pack r.
Proof.
  intros Hb. simpl. f_equal.
  assert (forallb (fun n => let b := Z.of_nat n in
     128 * Z.b2z (Z.testbit b 7) + 64 * Z.b2z (Z.testbit b 6) + 32 * Z.b2z (Z.testbit b 5) + 16 * Z.b2z (Z.testbit b 4) +
      8 * Z.b2z (Z.testbit b 3) + 4 * Z.b2z (Z.testbit b 2) + 2 * Z.b2z (Z.testbit b 1) + Z.b2z (Z.testbit b 0) =? b)
     (seq 0 256) = true) as F by (vm_compute; reflexivity).
  rewrite forallb_forall in F. unfold is_byte in Hb.
  specialize (F (Z.to_nat b)). cbv zeta in F. rewrite Z2Nat.id in F by lia.
  apply Z.eqb_eq, F, in_seq. lia.
Qed.

Lemma pack_bits_of data : Forall is_byte data -> pack (bits_of data) = data.
Proof.
  unfold bits_of. induction 1 as [|b data Hb Hd IH]; [reflexivity|].
  change (concat (map byte_bits (b :: data))) with (byte_bits b ++ concat (map byte_bits data)).
  now rewrite pack_byte, IH.
Qed.

Lemma unpad_length l : (length (unpad l) <= length l)%nat.
Proof. induction l as [|b r IH]; simpl; [lia|]. destruct (b || existsb negb r); simpl; lia. Qed.

Lemma ones_no_zero k : existsb negb (replicate k true) = false.
Proof. induction k; simpl; auto. Qed.

Lemma unpad_ones k : unpad (replicate k true) = replicate k true.
Proof. induction k; simpl; [reflexivity|]. now rewrite IHk. Qed.

Lemma unpad_padded l k : unpad (l ++ false :: replicate k true) = l.
Proof.
  induction l as [|b r IH]; simpl.
  - now rewrite ones_no_zero.
  - rewrite existsb_app. simpl. rewrite orb_true_r, orb_true_r. now rewrite IH.
Qed.

Lemma expand_length b : (2 <= length (expand b) <= 9)%nat.
Proof. unfold expand. repeat case_match; simpl; lia. Qed.

Lemma length_expands src : (length (concat (map expand src)) <= 9 * length src)%nat.
Proof.
  induction src as [|b src IH]; simpl; [lia|].
  rewrite length_app. pose proof (expand_length b). lia.
Qed.

(** ** Streams of bytes *)

Section Emits.
Context {S : Type} (readOne : S -> outcome Z * S).

(** From the state [s], [readOne] delivers the bytes [out] and then fails. *)
Inductive emits : S -> list Z -> error -> Prop :=
| emits_end s e s' : readOne s = (Err e, s') -> emits s [] e
| emits_cons s b s' bs e : readOne s = (Ok b, s') -> emits s' bs e -> emits s (b :: bs) e.

Lemma Read_emits_some s out e n : emits s out e -> (n <= length out)%nat ->
  exists s', Read_loop readOne n s = (take n out, Ok tt, s') /\ emits s' (drop n out) e.
Proof.
  revert s out. induction n as [|n IH]; intros s out He Hn; [exists s; auto|].
  inversion He as [|? b s1 bs ? E He']; subst; [simpl in Hn; lia|].
  destruct (IH s1 bs He') as (s' & Er & E'); [simpl in Hn; lia|].
  exists s'. simpl. rewrite E, Er. auto.
Qed.

Lemma Read_emits_all s out e n : emits s out e -> (length out < n)%nat ->
  exists s', Read_loop readOne n s = (out, Err e, s').
Proof.
  intros He. revert n. induction He as [s e s' E|s b s' bs e E He IH]; intros [|n] Hn; simpl in *; try lia.
  - rewrite E. eauto.
  - destruct (IH n) as (s2 & Er); [lia|]. rewrite E, Er. eauto.
Qed.

Lemma ReadAll_emits chunks : forall s out, emits s out EOF -> (length out < sum_list chunks)%nat ->
  ReadAll (fun s n => Read_loop readOne n s) chunks s = (out, Ok tt).
Proof.
  induction chunks as [|n chunks IH]; simpl; intros s out He Hn; [lia|].
  destruct (decide (n <= length out)%nat) as [Hle|Hgt].
  - destruct (Read_emits_some s out EOF n He Hle) as (s' & -> & He').
    rewrite (IH s' (drop n out) He') by (rewrite length_drop; lia).
    now rewrite take_drop.
  - destruct (Read_emits_all s out EOF n He) as (s' & ->); [lia|]. reflexivity.
Qed.
End Emits.

(** ** The encoder on bit streams

    The input of the encoder is [Some l] as long as the bits [l] of the data are
    to come, and [None] in the padding. *)

Definition next (st : option (list bool)) : bool * option (list bool) :=
  match st with
  | Some (b :: l) => (b, Some l)
  | Some [] => (false, None)
  | None => (true, None)
  end.

Fixpoint next_bits (n : nat) (st : option (list bool)) : list bool * option (list bool) :=
  match n with
  | O => ([], st)
  | S n => let '(b, st) := next st in let '(bs, st) := next_bits n st in (b :: bs, st)
  end.

Definition enc_at (enc : ZeroheavyEncoder) (st : option (list bool)) : Prop :=
  ze_atEof enc = false /\
  match st with
  | None => ze_nowInPadding enc = true
  | Some l =>
      ze_nowInPadding enc = false /\ rd_err (ze_inner enc) = EOF /\
      exists k : nat, (k <= 8)%nat /\ ze_bitsReadFromBuffer enc = Z.of_nat k /\
        l = drop k (byte_bits (ze_buffer enc)) ++ bits_of (rd_bytes (ze_inner enc))
  end.

Lemma nextInputBit_spec enc st : enc_at enc st ->
  exists enc', nextInputBit enc = (Ok (next st).1, enc') /\ enc_at enc' (next st).2.
Proof.
  assert (forall inner buffer (k : nat), (k < 8)%nat -> rd_err inner = EOF ->
    exists enc', (Ok (negb (Z.land buffer (uwrap 8 (Z.shiftl 1 (uwrap 8 (7 - Z.of_nat k)))) =? 0)),
      mkZeroheavyEncoder inner buffer (uwrap 8 (Z.of_nat k + 1)) false false) =
      (Ok (next (Some (drop k (byte_bits buffer) ++ bits_of (rd_bytes inner)))).1, enc') /\
      enc_at enc' (next (Some (drop k (byte_bits buffer) ++ bits_of (rd_bytes inner)))).2) as Htake.
  { intros inner buffer k Hk Hr. rewrite drop_byte_bits by lia. eexists. split.
    - rewrite (uwrap_id 8 (7 - _)) by (unfold in_u; lia). rewrite land_bit by lia. reflexivity.
    - split; [reflexivity|]. simpl. split; [reflexivity|split; [exact Hr|]].
      exists (S k). rewrite uwrap_id by (unfold in_u; lia). split; [lia|split; [lia|reflexivity]]. }
  destruct enc as [[bytes re] buf k pad eof]. intros [Heof Hst]. simpl in Heof. subst eof.
  unfold nextInputBit. destruct st as [l|]; simpl in Hst.
  - destruct Hst as (-> & -> & j & Hj & -> & ->). simpl.
    destruct (Z.eqb_spec (Z.of_nat j) 8) as [E|E].
    + replace j with 8%nat by lia. destruct bytes as [|b bytes]; simpl.
      * eexists. split; [reflexivity|]. split; reflexivity.
      * exact (Htake (mkReader bytes EOF) b 0%nat ltac:(lia) eq_refl).
    + exact (Htake (mkReader bytes EOF) buf j ltac:(lia) eq_refl).
  - subst pad. simpl. eexists. split; [reflexivity|]. split; reflexivity.
Qed.

(** The value of [ret] after the bits [bs] are shifted into it. *)
Definition shift_in (ret : Z) (bs : list bool) : Z :=
  fold_left (fun ret (b : bool) => let ret := uwrap 8 (Z.shiftl ret 1) in if b then uwrap 8 (ret + 1) else ret) bs ret.

(** The stream [st] starts with the bits [bs] and goes on as [st']. *)
Definition takes (st : option (list bool)) (bs : list bool) (st' : option (list bool)) : Prop :=
  next_bits (length bs) st = (bs, st').

Lemma takes_cons st b st1 bs st2 : next st = (b, st1) -> takes st1 bs st2 -> takes st (b :: bs) st2.
Proof. unfold takes. simpl. now intros -> ->. Qed.

Lemma takes_app bs1 : forall st st1 bs2 st2, takes st bs1 st1 -> takes st1 bs2 st2 -> takes st (bs1 ++ bs2) st2.
Proof.
  induction bs1 as [|b bs1 IH]; unfold takes; simpl; intros st st1 bs2 st2 H1 H2; [congruence|].
  destruct (next st) as [b' st'], (next_bits (length bs1) st') as [bs' st''] eqn:E.
  inversion H1; subst. specialize (IH st' st1 bs2 st2 E H2). unfold takes in IH. now rewrite IH.
Qed.

Lemma nextInputBit_takes enc st : enc_at enc st ->
  exists b enc' st', nextInputBit enc = (Ok b, enc') /\ enc_at enc' st' /\ takes st [b] st'.
Proof.
  intros He. destruct (nextInputBit_spec enc st He) as (enc' & E & H).
  exists (next st).1, enc', (next st).2. unfold takes. simpl. destruct (next st). auto.
Qed.

Lemma readBits_loop_spec n : forall enc st ret, enc_at enc st ->
  exists bs enc' st', readBits_loop n ret enc = (Ok (shift_in ret bs), enc') /\ length bs = n /\
    enc_at enc' st' /\ takes st bs st'.
Proof.
  induction n as [|n IH]; intros enc st ret He; [exists [], enc, st; repeat split; auto; apply He|].
  destruct (nextInputBit_takes enc st He) as (b & enc1 & st1 & E1 & H1 & T1). simpl. rewrite E1.
  destruct (IH enc1 st1 (let ret := uwrap 8 (Z.shiftl ret 1) in if b then uwrap 8 (ret + 1) else ret) H1)
    as (bs & enc2 & st2 & E2 & L & H2 & T2).
  exists (b :: bs), enc2, st2. cbv zeta in E2. rewrite E2. simpl. repeat split; auto; try apply H2.
  exact (takes_app [b] st st1 bs st2 T1 T2).
Qed.

(** The code bytes of the three forms of a code. *)
Lemma code_high bs : length bs = 7%nat -> is_byte (shift_in 1 bs) /\ expand (shift_in 1 bs) = true :: bs.
Proof.
  intros L. do 7 (destruct bs as [|[] bs]; [discriminate L| |]); destruct bs; try discriminate L;
    (split; [unfold is_byte; vm_compute; split; congruence|vm_compute; reflexivity]).
Qed.

Lemma code_low bs b : length bs = 6%nat ->
  if shift_in 1 bs =? 64 then bs = replicate 6 false
  else
    let ret := Z.land (uwrap 8 (Z.shiftl (shift_in 1 bs) 1)) 127 in
    let ret := if b : bool then uwrap 8 (ret + 1) else ret in
    is_byte ret /\ expand ret = false :: true :: bs ++ [b].
Proof.
  intros L. do 6 (destruct bs as [|[] bs]; [discriminate L| |]); destruct bs; try discriminate L; destruct b;
    vm_compute; try reflexivity; split; try reflexivity; split; congruence.
Qed.

(** A code byte stands for the bits that it was made from. *)
Lemma readOneImpl_spec enc st : enc_at enc st ->
  exists b enc' st', readOneImpl enc = (Ok b, enc') /\ is_byte b /\ enc_at enc' st' /\ takes st (expand b) st'.
Proof.
  intros He. unfold readOneImpl.
  destruct (nextInputBit_takes enc st He) as (b1 & enc1 & st1 & -> & H1 & T1). destruct b1; cbn [negb].
  - destruct (readBits_loop_spec 7 enc1 st1 1 H1) as (bs & enc2 & st2 & -> & L & H2 & T2).
    destruct (code_high bs L) as [Hb Ex]. exists (shift_in 1 bs), enc2, st2.
    rewrite Ex. split; [reflexivity|]. split; [exact Hb|]. split; [exact H2|].
    exact (takes_app [true] st st1 bs st2 T1 T2).
  - destruct (nextInputBit_takes enc1 st1 H1) as (b2 & enc2 & st2 & -> & H2 & T2).
    pose proof (takes_app [false] st st1 [b2] st2 T1 T2) as T12. destruct b2; cbn [negb].
    + destruct (readBits_loop_spec 6 enc2 st2 1 H2) as (bs & enc3 & st3 & -> & L & H3 & T3).
      pose proof (takes_app _ _ _ _ _ T12 T3) as T13.
      destruct (nextInputBit_takes enc3 st3 H3) as (b & enc4 & st4 & E4 & H4 & T4).
      pose proof (code_low bs b L) as Hc. destruct (shift_in 1 bs =? 64).
      * subst bs. exists 1, enc3, st3. repeat split; try (unfold is_byte; lia); try apply H3; exact T13.
      * rewrite E4. destruct Hc as [Hb Ex]. eexists _, enc4, st4.
        split; [reflexivity|]. split; [exact Hb|]. split; [exact H4|]. cbv zeta in Ex. rewrite Ex.
        exact (takes_app _ _ _ _ _ T13 T4).
    + exists 0, enc2, st2. split; [reflexivity|]. split; [unfold is_byte; lia|]. split; [exact H2|exact T12].
Qed.

Lemma takes_ones n : next_bits n None = (replicate n true, None).
Proof. induction n; simpl; [reflexivity|]. now rewrite IHn. Qed.

(** What is taken from a finite input is a part of it, or all of it with padding. *)
Lemma takes_some bs : forall l st', takes (Some l) bs st' ->
  (exists l', st' = Some l' /\ l = bs ++ l') \/ (st' = None /\ exists k, bs = l ++ false :: replicate k true).
Proof.
  induction bs as [|b bs IH]; unfold takes; simpl; intros l st' H; [left; inversion H; eauto|].
  destruct l as [|c l]; simpl in H.
  - rewrite takes_ones in H. inversion H as [[E1 E2 E3]]. right. split; [reflexivity|].
    exists (length bs). simpl. congruence.
  - destruct (next_bits (length bs) (Some l)) as [bs' st1] eqn:E. inversion H; subst.
    destruct (IH l st' E) as [(l' & -> & ->)|(-> & k & ->)]; [left|right]; eauto.
Qed.

Lemma encoder_emits (n : nat) : forall enc l, (length l < n)%nat -> enc_at enc (Some l) ->
  exists out k, emits ZeroheavyEncoder_readOne enc out EOF /\ Forall is_byte out /\
    concat (map expand out) = l ++ false :: replicate k true /\ (2 * length out <= length l + 2)%nat.
Proof.
  induction n as [|n IH]; intros enc l Hn He; [lia|].
  destruct (readOneImpl_spec enc (Some l) He) as (b & enc1 & st1 & E1 & Hb & H1 & T1).
  pose proof (expand_length b) as Lb. assert (ze_atEof enc = false) as E0 by apply He.
  destruct (takes_some _ _ _ T1) as [(l1 & -> & ->)|(-> & k & Ex)].
  - rewrite length_app in Hn.
    destruct (IH enc1 l1 ltac:(lia) H1) as (out & k & Em & Ho & Ec & Lo).
    exists (b :: out), k. split; [|split; [now constructor|split]].
    + refine (emits_cons _ _ _ enc1 _ _ _ Em). unfold ZeroheavyEncoder_readOne. rewrite E0, E1.
      now rewrite (proj1 (proj2 H1)).
    + simpl. now rewrite Ec, app_assoc.
    + simpl. rewrite length_app. lia.
  - exists [b], k. split; [|split; [repeat constructor; apply Hb|split]].
    + unshelve refine (emits_cons _ _ _ (mkZeroheavyEncoder (ze_inner enc1) (ze_buffer enc1) (ze_bitsReadFromBuffer enc1) true true)
        _ _ _ (emits_end _ _ _ _ eq_refl)).
      unfold ZeroheavyEncoder_readOne. rewrite E0, E1, (proj2 H1). reflexivity.
    + simpl. now rewrite app_nil_r.
    + simpl. lia.
Qed.

(** ** The decoder on bit streams *)

(** The bits that were pushed and not yet read. *)
Definition pend (br : ZeroheavyDecoder) : list bool :=
  zd_buffer br ++
  (if zd_deferredZero br then false :: replicate (Z.to_nat (zd_numDeferredOnes br)) true else []).

Definition dec_ok (br : ZeroheavyDecoder) : Prop :=
  0 <= zd_numDeferredOnes br /\ Z.of_nat (length (pend br)) < 2 ^ 64 /\
  (zd_deferredZero br = false -> zd_numDeferredOnes br = 0 /\ existsb negb (zd_buffer br) = false).

(** [br'] is [br] with the bits [bs] pushed. *)
Definition pushed (br : ZeroheavyDecoder) (bs : list bool) (br' : ZeroheavyDecoder) : Prop :=
  dec_ok br' /\ pend br' = pend br ++ bs /\ zd_source br' = zd_source br /\
  zd_eofAfterBuffer br' = zd_eofAfterBuffer br.

Lemma pushBit_loop_spec (n : nat) : forall src buf eof, Z.of_nat n < 2 ^ 64 ->
  pushBit_loop n (mkZeroheavyDecoder src buf eof true (Z.of_nat n)) =
    mkZeroheavyDecoder src (buf ++ replicate n true) eof true 0.
Proof.
  induction n as [|n IH]; intros src buf eof Hn; [simpl; now rewrite app_nil_r|].
  cbn [pushBit_loop zd_source zd_buffer zd_eofAfterBuffer zd_deferredZero zd_numDeferredOnes].
  rewrite (proj2 (Z.ltb_lt 0 (Z.of_nat (S n))) ltac:(lia)).
  rewrite uwrap_id by (unfold in_u; lia). replace (Z.of_nat (S n) - 1) with (Z.of_nat n) by lia.
  rewrite IH by lia. now rewrite <- app_assoc.
Qed.

Lemma pushBit_pushed br b : dec_ok br -> Z.of_nat (length (pend br)) + 1 < 2 ^ 64 -> pushed br [b] (pushBit br b).
Proof.
  destruct br as [src buf eof dz ones]. intros (H0 & _ & Hdz) Hl.
  destruct (Z_of_nat_complete ones H0) as [m ->]. clear H0. simpl in Hdz.
  assert (pend (pushBit (mkZeroheavyDecoder src buf eof dz (Z.of_nat m)) b) =
          pend (mkZeroheavyDecoder src buf eof dz (Z.of_nat m)) ++ [b] /\
          0 <= zd_numDeferredOnes (pushBit (mkZeroheavyDecoder src buf eof dz (Z.of_nat m)) b) /\
          (zd_deferredZero (pushBit (mkZeroheavyDecoder src buf eof dz (Z.of_nat m)) b) = false ->
           zd_numDeferredOnes (pushBit (mkZeroheavyDecoder src buf eof dz (Z.of_nat m)) b) = 0 /\
           existsb negb (zd_buffer (pushBit (mkZeroheavyDecoder src buf eof dz (Z.of_nat m)) b)) = false) /\
          zd_source (pushBit (mkZeroheavyDecoder src buf eof dz (Z.of_nat m)) b) = src /\
          zd_eofAfterBuffer (pushBit (mkZeroheavyDecoder src buf eof dz (Z.of_nat m)) b) = eof) as (Hp & Hn & Hf & Hs & He).
  { unfold pushBit, pend in *. rewrite length_app in Hl.
    cbn [zd_source zd_buffer zd_eofAfterBuffer zd_deferredZero zd_numDeferredOnes] in *. rewrite Nat2Z.id in *.
    destruct dz.
    - cbn [length] in Hl. rewrite length_replicate in Hl. destruct b.
      + rewrite uwrap_id by (unfold in_u; lia).
        cbn [zd_source zd_buffer zd_eofAfterBuffer zd_deferredZero zd_numDeferredOnes].
        replace (Z.to_nat (Z.of_nat m + 1)) with (m + 1)%nat by lia. rewrite replicate_add, <- app_assoc.
        repeat split; try lia; discriminate.
      + rewrite pushBit_loop_spec by lia.
        cbn [zd_source zd_buffer zd_eofAfterBuffer zd_deferredZero zd_numDeferredOnes].
        rewrite <- !app_assoc. repeat split; try lia; discriminate.
    - destruct (Hdz eq_refl) as [Hm Hb]. replace m with 0%nat by lia.
      destruct b; cbn [zd_source zd_buffer zd_eofAfterBuffer zd_deferredZero zd_numDeferredOnes].
      + rewrite !app_nil_r, existsb_app, Hb. auto with lia.
      + rewrite app_nil_r. repeat split; try lia; discriminate. }
  unfold pushed, dec_ok. rewrite Hp, length_app. simpl length. auto 7 with lia.
Qed.

Lemma pushed_trans br br1 br2 bs1 bs2 : pushed br bs1 br1 -> pushed br1 bs2 br2 -> pushed br (bs1 ++ bs2) br2.
Proof. unfold pushed. intros (? & E1 & ? & ?) (? & E2 & ? & ?). rewrite E2, E1, app_assoc. intuition congruence. Qed.

Lemma push_all_pushed {A} (f : A -> bool) l : forall br, dec_ok br ->
  Z.of_nat (length (pend br) + length l) < 2 ^ 64 ->
  pushed br (map f l) (fold_left (fun br x => pushBit br (f x)) l br).
Proof.
  induction l as [|x l IH]; intros br Hok Hl; cbn [map fold_left length] in *.
  - unfold pushed. rewrite app_nil_r. auto.
  - pose proof (pushBit_pushed br (f x) Hok ltac:(lia)) as Hp.
    refine (pushed_trans _ _ _ [f x] _ Hp (IH _ (proj1 Hp) _)).
    rewrite (proj1 (proj2 Hp)), length_app. simpl. lia.
Qed.

Lemma low7_land b : low7 (Z.land b 127) = low7 b.
Proof.
  unfold low7. apply map_ext_in. intros i Hi. apply in_seq in Hi. rewrite Z.land_spec.
  do 7 (destruct i as [|i]; [simpl; now rewrite andb_true_r|]). lia.
Qed.

Lemma push7Bits_pushed br b : dec_ok br -> Z.of_nat (length (pend br) + 7) < 2 ^ 64 ->
  pushed br (low7 b) (push7Bits br b).
Proof.
  intros Hok Hl. unfold push7Bits.
  replace (low7 b) with (map (fun i => negb (Z.land b (uwrap 8 (Z.shiftl 1 (6 - Z.of_nat i))) =? 0)) (seq 0 7)).
  - apply push_all_pushed; [exact Hok|]. now rewrite length_seq.
  - apply map_ext_in. intros i Hi. apply in_seq in Hi. apply land_bit. lia.
Qed.

Lemma refill_pushed br b bytes re : dec_ok br -> Z.of_nat (length (pend br) + 9) < 2 ^ 64 ->
  zd_source br = mkReader (b :: bytes) re ->
  exists br', refill br = (false, br') /\ dec_ok br' /\ pend br' = pend br ++ expand b /\
    zd_source br' = mkReader bytes re /\ zd_eofAfterBuffer br' = zd_eofAfterBuffer br.
Proof.
  intros Hok Hl Es. unfold refill. rewrite Es. cbn [Reader_Read1 rd_bytes rd_err].
  set (br0 := mkZeroheavyDecoder _ _ _ _ _).
  assert (pushed br0 (expand b) (if b =? 0 then pushBit (pushBit br0 false) false
       else if b =? 1 then
         fold_left (fun br _ => pushBit br false) (seq 0 6) (pushBit (pushBit br0 false) true)
       else if b <? 128 then push7Bits (pushBit (pushBit br0 false) true) b
       else push7Bits (pushBit br0 true) (Z.land b 127))) as Hp.
  { assert (dec_ok br0) as Hok0 by exact Hok.
    assert (pend br0 = pend br) as Ep by reflexivity. unfold expand.
    assert (forall c, pushed br0 [c] (pushBit br0 c)) as H1 by (intros c; apply pushBit_pushed; [exact Hok0|rewrite Ep; lia]).
    assert (forall c d, pushed br0 [c; d] (pushBit (pushBit br0 c) d)) as H2.
    { intros c d. refine (pushed_trans _ _ _ [c] [d] (H1 c) (pushBit_pushed _ _ (proj1 (H1 c)) _)).
      rewrite (proj1 (proj2 (H1 c))), length_app, Ep. simpl. lia. }
    assert (forall c d, Z.of_nat (length (pend (pushBit (pushBit br0 c) d)) + 7) < 2 ^ 64) as L2.
    { intros c d. rewrite (proj1 (proj2 (H2 c d))), length_app, Ep. simpl. lia. }
    destruct (b =? 0); [apply H2|]. destruct (b =? 1).
    - refine (pushed_trans _ _ _ [false; true] _ (H2 _ _) (push_all_pushed (fun _ => false) (seq 0 6) _ (proj1 (H2 _ _)) _)).
      specialize (L2 false true). rewrite length_seq. lia.
    - destruct (b <? 128).
      + exact (pushed_trans _ _ _ [false; true] _ (H2 _ _) (push7Bits_pushed _ b (proj1 (H2 _ _)) (L2 _ _))).
      + rewrite <- low7_land.
        refine (pushed_trans _ _ _ [true] _ (H1 _) (push7Bits_pushed _ _ (proj1 (H1 _)) _)).
        rewrite (proj1 (proj2 (H1 true))), length_app, Ep. simpl. lia. }
  destruct Hp as (H1 & H2 & H3 & H4). eexists. split; [reflexivity|]. auto.
Qed.

(** The decoder has the bits [T] in its buffer and in its source. *)
Definition dec_at (br : ZeroheavyDecoder) (T : list bool) : Prop :=
  dec_ok br /\ T = pend br ++ concat (map expand (rd_bytes (zd_source br))) /\
  (zd_eofAfterBuffer br = true -> rd_bytes (zd_source br) = []) /\ Z.of_nat (length T) + 9 < 2 ^ 64.

Lemma dec_at_pop src ret buf eof dz ones T : dec_at (mkZeroheavyDecoder src (ret :: buf) eof dz ones) T ->
  exists T', dec_at (mkZeroheavyDecoder src buf eof dz ones) T' /\ unpad T = ret :: unpad T'.
Proof.
  intros ((H0 & H1 & H2) & ET & He & Hl). unfold dec_at, dec_ok, pend in *. simpl in *.
  set (T' := (buf ++ (if dz then false :: replicate (Z.to_nat ones) true else [])) ++ concat (map expand (rd_bytes src))) in *.
  exists T'. subst T. simpl in Hl. split; [split; [split; [exact H0|split; [lia|]]|]|].
  - intros Hdz. destruct (H2 Hdz) as [Ho Hb]. apply orb_false_iff in Hb as [_ Hb]. auto.
  - split; [reflexivity|]. split; [exact He|lia].
  - simpl. replace (ret || existsb negb T') with true; [reflexivity|]. symmetry. destruct dz.
    + apply orb_true_iff. right. unfold T'. rewrite !existsb_app. simpl. now rewrite orb_true_r.
    + destruct (H2 eq_refl) as [_ Hb]. apply orb_false_iff in Hb as [Hb _]. now destruct ret.
Qed.

Lemma unpad_deferred (dz : bool) n : unpad (if dz then false :: replicate n true else []) = [].
Proof. destruct dz; [apply (unpad_padded [])|reflexivity]. Qed.

Lemma nextBit_loop_spec fuel : forall br T, dec_at br T ->
  (zd_eofAfterBuffer br = true \/ length (rd_bytes (zd_source br)) + 1 <= fuel)%nat ->
  match unpad T with
  | [] => exists br', nextBit_loop fuel br = (Err EOF, br')
  | b :: u => exists br' T', nextBit_loop fuel br = (Ok b, br') /\ dec_at br' T' /\ unpad T' = u
  end.
Proof.
  induction fuel as [|fuel IH]; intros [[bytes re] [|ret buf] eof dz ones] T HT Hf;
    try (destruct (dec_at_pop _ _ _ _ _ _ _ HT) as (T' & HT' & ->);
         eexists _, T'; split; [reflexivity|]; split; [exact HT'|reflexivity]);
    destruct eof; try (destruct HT as (_ & -> & He & _); simpl in He; rewrite (He eq_refl); unfold pend; simpl;
         rewrite app_nil_r, unpad_deferred; eexists; reflexivity).
  - destruct Hf as [Hf|Hf]; simpl in Hf; [discriminate|lia].
  - destruct Hf as [Hf|Hf]; [discriminate|]. destruct HT as (Hok & ET & He & Hl). simpl in Hf, ET.
    cbn [nextBit_loop zd_buffer zd_eofAfterBuffer]. destruct bytes as [|b bytes].
    + cbn [refill Reader_Read1 zd_source rd_bytes]. unfold refill. cbn [Reader_Read1 zd_source rd_bytes].
      apply IH; [|left; reflexivity]. split; [exact Hok|]. split; [exact ET|]. split; [reflexivity|exact Hl].
    + subst T. rewrite length_app in Hl. cbn [map concat] in Hl. rewrite length_app in Hl.
      destruct (refill_pushed (mkZeroheavyDecoder (mkReader (b :: bytes) re) [] false dz ones) b bytes re Hok ltac:(lia) eq_refl)
        as (br' & -> & Hok' & Ep & Es & Ee).
      destruct br' as [src' buf' eof' dz' ones']. simpl in Es. subst src'. apply IH; [|simpl; right; simpl in Hf; lia].
      split; [exact Hok'|]. cbn [zd_source rd_bytes]. split; [|split; [discriminate|]].
      * unfold pend in Ep |- *.
        cbn [zd_source zd_buffer zd_deferredZero zd_numDeferredOnes rd_bytes] in Ep |- *.
        rewrite Ep. cbn [map concat]. now rewrite app_assoc.
      * cbn [map concat]. rewrite !length_app. lia.
Qed.

Lemma nextBit_spec br T : dec_at br T ->
  match unpad T with
  | [] => exists br', nextBit br = (Err EOF, br')
  | b :: u => exists br' T', nextBit br = (Ok b, br') /\ dec_at br' T' /\ unpad T' = u
  end.
Proof. intros HT. apply nextBit_loop_spec; [exact HT|lia]. Qed.

(** The value of [ret] after [readOne] has shifted the bits [bs] into it. *)
Definition shift_or (ret : Z) (bs : list bool) : Z :=
  fold_left (fun ret (b : bool) => let ret := uwrap 8 (Z.shiftl ret 1) in if b then Z.lor ret 1 else ret) bs ret.

Lemma Decoder_readOne_loop_spec n : forall br T ret, dec_at br T ->
  if decide (n <= length (unpad T))%nat
  then exists br' T', Decoder_readOne_loop n ret br = (Ok (shift_or ret (take n (unpad T))), br') /\
         dec_at br' T' /\ unpad T' = drop n (unpad T)
  else exists br', Decoder_readOne_loop n ret br = (Err EOF, br').
Proof.
  induction n as [|n IH]; intros br T ret HT.
  - destruct (decide _) as [_|Hn]; [|lia]. exists br, T. auto.
  - pose proof (nextBit_spec br T HT) as Hb. cbn [Decoder_readOne_loop].
    destruct (unpad T) as [|b u].
    + destruct Hb as (br' & ->). destruct (decide _) as [Hn|_]; [simpl in Hn; lia|]. eauto.
    + destruct Hb as (br1 & T1 & -> & H1 & <-).
      specialize (IH br1 T1 (let ret := uwrap 8 (Z.shiftl ret 1) in if b then Z.lor ret 1 else ret) H1).
      destruct (decide (n <= _)%nat), (decide (S n <= _)%nat) as [Hs|Hs]; simpl in Hs; try lia; exact IH.
Qed.

Lemma pack_cons u : (8 <= length u)%nat -> pack u = shift_or 0 (take 8 u) :: pack (drop 8 u).
Proof.
  intros Hu. do 8 (destruct u as [|? u]; [simpl in Hu; lia|]). simpl drop. simpl take. cbn [pack]. f_equal.
  repeat match goal with b : bool |- _ => destruct b end; reflexivity.
Qed.

Lemma pack_short u : (length u < 8)%nat -> pack u = [].
Proof. intros Hu. do 8 (destruct u as [|? u]; [reflexivity|]). simpl in Hu. lia. Qed.

Lemma pack_length (n : nat) : forall u, (length u < n)%nat -> (8 * length (pack u) <= length u)%nat.
Proof.
  induction n as [|n IH]; intros u Hn; [lia|]. destruct (decide (8 <= length u)%nat).
  - rewrite pack_cons by lia. cbn [length]. specialize (IH (drop 8 u)). rewrite length_drop in IH. lia.
  - rewrite pack_short by lia. simpl. lia.
Qed.

Lemma decoder_emits (n : nat) : forall br T, dec_at br T -> (length (unpad T) < n)%nat ->
  emits ZeroheavyDecoder_readOne br (pack (unpad T)) EOF.
Proof.
  induction n as [|n IH]; intros br T HT Hn; [lia|].
  pose proof (Decoder_readOne_loop_spec 8 br T 0 HT) as H8. destruct (decide _) as [H|H].
  - destruct H8 as (br' & T' & E & HT' & Eu). rewrite pack_cons by lia.
    refine (emits_cons _ _ _ br' _ _ E _). rewrite <- Eu. apply IH; [exact HT'|].
    rewrite Eu, length_drop. lia.
  - destruct H8 as (br' & E). rewrite pack_short by lia. exact (emits_end _ _ _ _ E).
Qed.

Lemma decoder_emits_source src : Z.of_nat (length (rd_bytes src)) < 2 ^ 60 ->
  emits ZeroheavyDecoder_readOne (NewZeroheavyDecoder src) (pack (unpad (concat (map expand (rd_bytes src))))) EOF.
Proof.
  intros Hs. pose proof (length_expands (rd_bytes src)).
  eapply decoder_emits; [|apply Nat.lt_succ_diag_r].
  split; [|split; [reflexivity|split; [discriminate|lia]]].
  split; [simpl; lia|split; [simpl; lia|auto]].
Qed.

(** ** Properties *)

(** The decoder ends on every source, also on one that no encoder wrote:
    reading it to the end takes the source's bytes, expands their codes, drops
    the last zero bit with the ones behind it and returns the whole bytes of
    what is left, at most 9/8 of the length of the source, however the reads are
    split; an error of the source is taken for its end. *)
Theorem ZeroheavyDecoder_total (src : Reader) (chunks : list nat) :
  Z.of_nat (length (rd_bytes src)) < 2 ^ 60 ->
  (9 * length (rd_bytes src) < 8 * sum_list chunks)%nat ->
  exists out, ReadAll ZeroheavyDecoder_Read chunks (NewZeroheavyDecoder src) = (out, Ok tt) /\
    out = pack (unpad (concat (map expand (rd_bytes src)))) /\
    (8 * length out <= 9 * length (rd_bytes src))%nat.
Proof.
  intros Hs Hc. pose proof (length_expands (rd_bytes src)) as L1.
  pose proof (unpad_length (concat (map expand (rd_bytes src)))) as L2.
  pose proof (pack_length _ (unpad (concat (map expand (rd_bytes src)))) (Nat.lt_succ_diag_r _)) as L3.
  eexists. split; [|split; [reflexivity|lia]].
  apply (ReadAll_emits ZeroheavyDecoder_readOne); [exact (decoder_emits_source src Hs)|lia].
Qed.

Lemma ZeroheavyDecoder_total_witness :
  exists out, ReadAll ZeroheavyDecoder_Read [1; 2; 4; 8]%nat
      (NewZeroheavyDecoder (mkReader [0; 200; 3; 77] (ErrNew "connection reset"))) = (out, Ok tt) /\
    out = [50; 16; 108] /\ (8 * length out <= 9 * 4)%nat.
Proof.
  destruct (ZeroheavyDecoder_total (mkReader [0; 200; 3; 77] (ErrNew "connection reset")) [1; 2; 4; 8]%nat
    ltac:(vm_compute; reflexivity) ltac:(vm_compute; lia)) as (out & E & Eo & L).
  exists out. split; [exact E|]. split; [rewrite Eo; vm_compute; reflexivity|exact L].
Defined.

(** What an encoder writes, a decoder reads back: reading an encoder over
    any bytes to its end gives a finite output of at most four bytes per input
    byte and one for the padding, and reading a decoder over that output to its
    end gives the bytes again, however either side splits its reads. *)
Theorem Zeroheavy_roundtrip (data : list Z) (chunks chunks' : list nat) :
  Forall is_byte data -> Z.of_nat (length data) < 2 ^ 57 ->
  (4 * length data + 1 < sum_list chunks)%nat -> (length data < sum_list chunks')%nat ->
  exists out, ReadAll ZeroheavyEncoder_Read chunks (NewZeroheavyEncoder (bytes_NewReader data)) = (out, Ok tt) /\
    Forall is_byte out /\ (length out <= 4 * length data + 1)%nat /\
    ReadAll ZeroheavyDecoder_Read chunks' (NewZeroheavyDecoder (bytes_NewReader out)) = (data, Ok tt).
Proof.
  intros Hd Hl Hc Hc'.
  destruct (encoder_emits _ (NewZeroheavyEncoder (bytes_NewReader data)) (bits_of data) (Nat.lt_succ_diag_r _))
    as (out & k & Em & Hb & Ex & Lo).
  { split; [reflexivity|]. split; [reflexivity|]. split; [reflexivity|]. exists 8%nat. auto with lia. }
  rewrite length_bits_of in Lo. exists out. split; [|split; [exact Hb|split; [lia|]]].
  - apply (ReadAll_emits ZeroheavyEncoder_readOne); [exact Em|lia].
  - apply (ReadAll_emits ZeroheavyDecoder_readOne); [|lia].
    pose proof (decoder_emits_source (bytes_NewReader out) ltac:(simpl; lia)) as Ed.
    cbn [rd_bytes bytes_NewReader] in Ed. now rewrite Ex, unpad_padded, (pack_bits_of data Hd) in Ed.
Qed.

Lemma Zeroheavy_roundtrip_witness :
  exists out, ReadAll ZeroheavyEncoder_Read [5; 50]%nat (NewZeroheavyEncoder (bytes_NewReader [0; 1; 255; 64])) = (out, Ok tt) /\
    ReadAll ZeroheavyDecoder_Read [3; 3]%nat (NewZeroheavyDecoder (bytes_NewReader out)) = ([0; 1; 255; 64], Ok tt).
Proof.
  destruct (Zeroheavy_roundtrip [0; 1; 255; 64] [5; 50]%nat [3; 3]%nat) as (out & E & _ & _ & D).
  - repeat constructor; unfold is_byte; lia.
  - vm_compute. reflexivity.
  - vm_compute. lia.
  - vm_compute. lia.
  - exists out. split; [exact E|exact D].
Defined.
