(* ===== verification/InternalTx.v ===== *)
(** * arbos/internal_tx.go: the transactions that ArbOS sends to itself

    The start of a block and the report of a posted batch. The ABI coding of
    their data is go-ethereum's and is the class [InternalTxAbi]. What is
    proved: what a batch posting report does to the L1 pricer, and that its
    failure does not fail the transaction. *)
From Stdlib Require Import ZArith Lia String List.
From stdpp Require Import base list numbers.
From S2P Require Import Prelude Arbmath Host Storage StorageFacts Refine MemEnv AddressSet Blockhash L2Pricing Transfer BatchPoster L1Pricing L1PricingFacts Retryables ArbosState.
Open Scope Z_scope.

(** The inputs of the two methods that are read. *)
Record StartBlockInputs := mkStartBlockInputs {
  sb_l1BlockNumber : Z; sb_l2BlockNumber : Z; sb_timePassed : Z
}.

Record BatchPostingReportInputs := mkBatchPostingReportInputs {
  bpr_batchTimestamp : Z; bpr_batchPosterAddress : Z; bpr_batchDataGas : Z; bpr_l1BaseFeeWei : Z
}.

(** The selectors and the coding of the methods of ArbosActs. *)
Class InternalTxAbi := {
  InternalTxStartBlockMethodID : list Z;
  InternalTxBatchPostingReportMethodID : list Z;
  PackInternalTxDataStartBlock : Z -> Z -> Z -> Z -> outcome (list Z);
  UnpackInternalTxDataStartBlock : list Z -> outcome StartBlockInputs;
  PackInternalTxDataBatchPostingReport : Z -> Z -> Z -> Z -> Z -> outcome (list Z);
  UnpackInternalTxDataBatchPostingReport : list Z -> outcome BatchPostingReportInputs
}.

(** The fields of go-ethereum's types that are read. *)
Record Header := mkHeader { h_Number : Z; h_Time : Z }.
Record ArbitrumInternalTx := mkArbitrumInternalTx { itx_ChainId : Z; itx_Data : list Z }.
Record BlockContext := mkBlockContext { bc_BlockNumber : Z; bc_Time : Z; bc_GetHash : Z -> Z }.

Section Operations.
Context {E : Env} {ABI : InternalTxAbi}.

(** A nil base fee is [None]. *)
Definition InternalTxStartBlock (chainId : Z) (l1BaseFee : option Z) (l1BlockNum : Z) (header lastHeader : Header)
    : outcome ArbitrumInternalTx :=
  let l2BlockNum := u64 (h_Number header) in
  let timePassed := h_Time header -u64 h_Time lastHeader in
  match PackInternalTxDataStartBlock (default 0 l1BaseFee) l1BlockNum l2BlockNum timePassed with
  | Ok data => Ok (mkArbitrumInternalTx chainId data)
  | Err _ => Panic "Failed to pack internal tx"
  | Panic s => Panic s
  end.

(** The case of [ApplyInternalTxUpdate] for the start of a block. *)
Definition applyStartBlock (inputs : StartBlockInputs) (state : ArbosState) (ctx : BlockContext) (evm : EVM)
    : M (ArbosState * option error) :=
  let timePassed := if as_arbosVersion state <? 3 then sb_l2BlockNumber inputs else sb_timePassed inputs in
  let l1BlockNumber := if as_arbosVersion state <? 8 then sb_l1BlockNumber inputs +u64 1 else sb_l1BlockNumber inputs in
  let* oldL1BlockNumber := restricted_value 0 (L1BlockNumber (as_blockhashes state)) in
  let* l2BaseFee := restricted_value 0 (BaseFeeWei (as_l2PricingState state)) in
  (if oldL1BlockNumber <? l1BlockNumber then
     let prevHash := if 0 <? bc_BlockNumber ctx then bc_GetHash ctx (u64 (bc_BlockNumber ctx) -u64 1) else 0 in
     restricted (RecordNewL1Block (as_blockhashes state) (l1BlockNumber -u64 1) prevHash (as_arbosVersion state))
   else ret tt) ;;;
  let currentTime := bc_Time ctx in
  ignore (TryToReapOneRetryable (as_retryableState state) currentTime evm TracingDuringEVM) ;;;
  ignore (TryToReapOneRetryable (as_retryableState state) currentTime evm TracingDuringEVM) ;;;
  UpdatePricingModel (as_l2PricingState state) l2BaseFee timePassed false ;;;
  UpgradeArbosVersionIfNecessary state currentTime.

(** The case of [ApplyInternalTxUpdate] for a batch posting report; the errors
    are logged. *)
Definition applyBatchPostingReport (inputs : BatchPostingReportInputs) (state : ArbosState) (ctx : BlockContext) (evm : EVM)
    : M (ArbosState * option error) :=
  let l1p := as_l1PricingState state in
  let* perBatchGas := value_or 0 (PerBatchGasCost l1p) in
  let gasSpent := SaturatingAdd 64 perBatchGas (SaturatingCast 64 64 (bpr_batchDataGas inputs)) in
  let weiSpent := BigMulByUint (bpr_l1BaseFeeWei inputs) (SaturatingUCast 64 64 gasSpent) in
  ignore (UpdateForBatchPosterSpending l1p evm (as_arbosVersion state) (u64 (bpr_batchTimestamp inputs)) (bc_Time ctx)
            (bpr_batchPosterAddress inputs) weiSpent (bpr_l1BaseFeeWei inputs) TracingDuringEVM) ;;;
  ret (state, None).

(** It returns the state, whose version an upgrade sets, and an error. *)
Definition ApplyInternalTxUpdate (tx : ArbitrumInternalTx) (state : ArbosState) (ctx : BlockContext) (evm : EVM)
    : M (ArbosState * option error) :=
  if (length (itx_Data tx) <? 4)%nat then ret (state, Some (ErrNew "internal tx data is too short"))
  else
    let selector := take 4 (itx_Data tx) in
    if decide (selector = InternalTxStartBlockMethodID) then
      match UnpackInternalTxDataStartBlock (itx_Data tx) with
      | Ok inputs => applyStartBlock inputs state ctx evm
      | Err e => ret (state, Some e)
      | Panic s => panic s
      end
    else if decide (selector = InternalTxBatchPostingReportMethodID) then
      match UnpackInternalTxDataBatchPostingReport (itx_Data tx) with
      | Ok inputs => applyBatchPostingReport inputs state ctx evm
      | Err e => ret (state, Some e)
      | Panic s => panic s
      end
    else ret (state, Some (ErrNew "unknown internal tx method selector")).
End Operations.

Section Facts.
Context {E : Env} {EL : EnvLaws E} {ABI : InternalTxAbi}.

(** What the poster is credited for a batch: the base fee for the gas of the
    batch data and the fixed gas per batch. *)
Definition batch_cost (perBatchGas dataGas l1BaseFee : Z) : Z := l1BaseFee * Z.max 0 (perBatchGas + dataGas).

Lemma batch_cost_eq perBatchGas dataGas l1BaseFee :
  in_s 64 perBatchGas -> 0 <= dataGas -> in_s 64 (perBatchGas + dataGas) -> dataGas < 2 ^ 63 ->
  BigMulByUint l1BaseFee (SaturatingUCast 64 64 (SaturatingAdd 64 perBatchGas (SaturatingCast 64 64 dataGas))) =
  batch_cost perBatchGas dataGas l1BaseFee.
Proof.
  intros Hp Hd Hs Hm. unfold BigMulByUint, batch_cost.
  rewrite SaturatingCast_min, Z.min_l by (unfold in_u; lia).
  rewrite SaturatingAdd_exact by (auto; unfold in_s in *; lia). now rewrite SaturatingUCast_max by (auto; lia).
Qed.

Lemma PerBatchGasCost_runs s U st d : l1_at s U st d ->
  in_s 64 (l1_cells st perBatchGasCostOffset) /\
  runs 800 (PerBatchGasCost (OpenL1PricingState s)) d (Ok (l1_cells st perBatchGasCostOffset)) d.
Proof.
  intros Hd. destruct (la_cell _ _ _ _ Hd perBatchGasCostOffset ltac:(vm_compute; split; congruence)) as [Hw Hr].
  split; [exact Hr|]. unfold PerBatchGasCost. cbn [l1_perBatchGasCost OpenL1PricingState]. unfold OpenStorageBackedInt64.
  rewrite NewSlot_skey by (split; [vm_compute; discriminate|reflexivity]).
  pose proof (StorageBackedInt64_Get_runs (skey s perBatchGasCostOffset) d) as R. rewrite Hw in R.
  rewrite (swrap_uwrap 64) in R by (lia || exact Hr). apply R, uwrap_range. lia.
Qed.

(** The data of a transaction is a call of the method that reports a batch. *)
Definition is_batch_report (tx : ArbitrumInternalTx) (inputs : BatchPostingReportInputs) : Prop :=
  (4 <= length (itx_Data tx))%nat /\ take 4 (itx_Data tx) = InternalTxBatchPostingReportMethodID /\
  InternalTxBatchPostingReportMethodID <> InternalTxStartBlockMethodID /\
  UnpackInternalTxDataBatchPostingReport (itx_Data tx) = Ok inputs.

Lemma batch_report_runs tx inputs root v ctx evm U st d r G d' :
  let s := OpenCachedSubStorage root l1PricingSubspace in
  let wei := batch_cost (l1_cells st perBatchGasCostOffset) (bpr_batchDataGas inputs) (bpr_l1BaseFeeWei inputs) in
  is_batch_report tx inputs -> l1_at s U st d -> in_u 64 (bpr_batchTimestamp inputs) ->
  0 <= bpr_batchDataGas inputs < 2 ^ 63 -> in_s 64 (l1_cells st perBatchGasCostOffset + bpr_batchDataGas inputs) ->
  runs G (UpdateForBatchPosterSpending (OpenL1PricingState s) evm v (bpr_batchTimestamp inputs) (bc_Time ctx)
            (bpr_batchPosterAddress inputs) wei (bpr_l1BaseFeeWei inputs) TracingDuringEVM) d r d' ->
  (forall msg, r <> Panic msg) ->
  runs (800 + G) (ApplyInternalTxUpdate tx (arbosStateAt root v) ctx evm) d (Ok (arbosStateAt root v, None)) d'.
Proof.
  intros s wei (Hl & Hsel & Hne & Hun) Hd Ht Hg Hs R Hr. unfold ApplyInternalTxUpdate.
  rewrite (proj2 (Nat.ltb_ge _ _) Hl). cbv zeta. rewrite Hsel, decide_False, decide_True, Hun by auto.
  unfold applyBatchPostingReport. cbn [as_l1PricingState as_arbosVersion arbosStateAt]. fold s.
  destruct (PerBatchGasCost_runs s U st d Hd) as [Hp Rp].
  eapply runs_bind; [apply runs_value_or, Rp|]. cbv beta zeta.
  rewrite batch_cost_eq by (auto; lia). rewrite uwrap_id by exact Ht. fold wei.
  replace G with (G + 0) by lia. eapply runs_bind; [|apply runs_ret].
  destruct r as [[]|e|msg]; [eapply runs_ignore, R| |destruct (Hr msg eq_refl)].
  unfold ignore. replace G with (G + 0) by lia. eapply runs_bind; [apply runs_attempt_err, R|apply runs_ret].
Qed.
End Facts.

#[local] Existing Instance TestEnv.

(** From ArbOS version 10 on, a report of a posted batch never fails the
    transaction and leaves the state open at its version. When its time is
    valid, the L1 pricer settles with the poster for exactly the base fee times
    the gas of the batch data plus the fixed gas per batch. When its time lies
    in the future or before the last update, nothing is settled: at most the
    poster is registered. *)
Lemma ApplyInternalTxUpdate_batch_report {E : Env} {EL : EnvLaws E} {ABI : InternalTxAbi} (root : Storage) (U : list Z)
  (tx : ArbitrumInternalTx) (inputs : BatchPostingReportInputs) (st : l1_state) (d : DB) (v : Z) (ctx : BlockContext) (evm : EVM) :
  let s := OpenCachedSubStorage root l1PricingSubspace in
  let ut := bpr_batchTimestamp inputs in
  let poster := bpr_batchPosterAddress inputs in
  let wei := batch_cost (l1_cells st perBatchGasCostOffset) (bpr_batchDataGas inputs) (bpr_l1BaseFeeWei inputs) in
  spaces_ok (bp_spaces (OpenCachedSubStorage s [0]) U ++ [s]) -> Forall (in_u 160) U -> poster ∈ U ->
  l1_at s U st d -> l1_sane st poster -> 10 <= v -> is_batch_report tx inputs -> in_u 64 ut -> in_u 64 (bc_Time ctx) ->
  0 <= bpr_batchDataGas inputs < 2 ^ 63 -> in_s 64 (l1_cells st perBatchGasCostOffset + bpr_batchDataGas inputs) ->
  0 <= bpr_l1BaseFeeWei inputs -> wei < 2 ^ 250 ->
  exists st' G d',
    runs G (ApplyInternalTxUpdate tx (arbosStateAt root v) ctx evm) d (Ok (arbosStateAt root v, None)) d' /\
    l1_at s U st' d' /\
    (if decide (l1_last (l1_cells st lastUpdateTimeOffset) ut <= ut <= bc_Time ctx)
     then exists units spent reward refund,
       settlement st ut (bc_Time ctx) poster wei (bpr_l1BaseFeeWei inputs) units spent reward refund st'
     else st' = set_table st (bp_open (l1_table st) poster)).
Proof.
  intros s ut poster wei NC HU Hp Hd Hst Hv Htx Hut Hct Hg Hsum Hb Hw.
  assert (0 <= wei) as Hw0 by (subst wei; unfold batch_cost; nia).
  case_decide as Ht.
  - destruct (update_runs s U NC HU st d poster v ut (bc_Time ctx) wei (bpr_l1BaseFeeWei inputs) evm TracingDuringEVM
      Hd Hp Hst Hv) as (ua & sp & rw & rf & st' & G & d' & R & Hd' & HS); [right; right; reflexivity|exact Ht|uint..|].
    exists st', (800 + G), d'. split; [|split; [exact Hd'|eauto]].
    eapply (batch_report_runs tx inputs root v ctx evm U st d (Ok tt)); eauto; discriminate.
  - destruct (update_invalid_time s U NC HU st d poster v ut (bc_Time ctx) wei (bpr_l1BaseFeeWei inputs) evm TracingDuringEVM
      Hd Hp (ls_posters _ _ Hst) Hv Hut) as (G & d' & R & Hd'); [unfold lastUpdateTimeOffset in *; lia|].
    exists (set_table st (bp_open (l1_table st) poster)), (800 + G), d'. split; [|split; [exact Hd'|reflexivity]].
    eapply (batch_report_runs tx inputs root v ctx evm U st d (Err ErrInvalidTime)); eauto; discriminate.
Qed.

(** A coding of reports by one word per input, for the example. *)
Definition example_abi : InternalTxAbi := {|
  InternalTxStartBlockMethodID := [1; 0; 0; 0];
  InternalTxBatchPostingReportMethodID := [2; 0; 0; 0];
  PackInternalTxDataStartBlock := fun _ l1BlockNum l2BlockNum timePassed => Ok ([1; 0; 0; 0] ++ [l1BlockNum; l2BlockNum; timePassed]);
  UnpackInternalTxDataStartBlock := fun data =>
    match drop 4 data with
    | [l1BlockNum; l2BlockNum; timePassed] => Ok (mkStartBlockInputs l1BlockNum l2BlockNum timePassed)
    | _ => Err (ErrNew "abi")
    end;
  PackInternalTxDataBatchPostingReport := fun time poster _ gas fee => Ok ([2; 0; 0; 0] ++ [time; poster; gas; fee]);
  UnpackInternalTxDataBatchPostingReport := fun data =>
    match drop 4 data with
    | [time; poster; gas; fee] => Ok (mkBatchPostingReportInputs time poster gas fee)
    | _ => Err (ErrNew "abi")
    end
|}.

Definition example_root : Storage := mkStorage 1 [7] false.
Definition example_l1 : Storage := OpenCachedSubStorage example_root l1PricingSubspace.

Lemma example_l1_spaces : spaces_ok (bp_spaces (OpenCachedSubStorage example_l1 [0]) ex_posters ++ [example_l1]).
Proof. apply test_spaces_ok. apply (bool_decide_eq_true _). vm_compute. reflexivity. Qed.

Lemma example_l1_at : exists d, l1_at example_l1 ex_posters ex_state d.
Proof.
  destruct (initialize_runs example_l1 ex_posters example_l1_spaces ex_posters_ok 9 7 ex_funded) as (G & d & _ & H);
    [split; [lia|reflexivity]|lia|left|intros; reflexivity|intros; reflexivity|].
  eexists. eapply (cell_write example_l1 ex_posters example_l1_spaces _ _ unitsSinceOffset 50 50); [|l1k|split; [reflexivity|l1k]].
  eapply (cell_write example_l1 ex_posters example_l1_spaces _ _ l1FeesAvailableOffset 1000 1000); [exact H|l1k|split; [reflexivity|l1k]].
Qed.
