(* ===== verification/ParseL2.v ===== *)
(** * arbos/parse_l2.go: the transactions of a message

    The parsers of every kind of message, and [messageFromTxes] of
    execution/gethexec/executionengine.go, which writes the message of a
    sequenced block. Signed transactions are go-ethereum's ([GethTxs]). What is
    proved: the parser of L2 messages accepts exactly the messages of a grammar
    and returns their transactions in order, with request ids that follow their
    place in the batch; it returns on every input; the sequencer's message is
    parsed to the transactions that were included; the retryable of a submission
    is read as it was sent; and a report of a batch reaches the L1 pricer. *)
From Stdlib Require Import ZArith Lia String List.
From stdpp Require Import base list numbers.
From S2P Require Import Prelude Arbmath Host Storage StorageFacts Refine MemEnv Readers AddressSet Transfer BatchPoster L1Pricing L1PricingFacts IncomingMessage ArbosState InternalTx.
Open Scope Z_scope.
#[local] Set Warnings "-register-all".

(** Signed transactions: their type, their binary form, and the limits of the
    types that go-ethereum defines. *)
Class GethTxs := {
  GethTx : Type;
  GethTx_Type : GethTx -> Z;
  UnmarshalBinary : list Z -> outcome GethTx;
  MarshalBinary : GethTx -> outcome (list Z);
  ArbitrumDepositTxType : Z;
  BlobTxType : Z;
  ErrTxTypeNotSupported : error
}.

(** The transactions that messages make, with the fields that are filled in. *)
Record ArbitrumUnsignedTx := mkArbitrumUnsignedTx {
  utx_ChainId : Z; utx_From : Z; utx_Nonce : Z; utx_GasFeeCap : Z; utx_Gas : Z;
  utx_To : option Z; utx_Value : Z; utx_Data : list Z
}.

Record ArbitrumContractTx := mkArbitrumContractTx {
  ctx_ChainId : Z; ctx_RequestId : Z; ctx_From : Z; ctx_GasFeeCap : Z; ctx_Gas : Z;
  ctx_To : option Z; ctx_Value : Z; ctx_Data : list Z
}.

Record ArbitrumDepositTx := mkArbitrumDepositTx {
  dtx_ChainId : Z; dtx_L1RequestId : Z; dtx_From : Z; dtx_To : Z; dtx_Value : Z
}.

Record ArbitrumSubmitRetryableTx := mkArbitrumSubmitRetryableTx {
  srt_ChainId : Z; srt_RequestId : Z; srt_From : Z; srt_L1BaseFee : option Z; srt_DepositValue : Z;
  srt_GasFeeCap : Z; srt_Gas : Z; srt_RetryTo : option Z; srt_RetryValue : Z; srt_Beneficiary : Z;
  srt_MaxSubmissionFee : Z; srt_FeeRefundAddr : Z; srt_RetryData : list Z
}.

Definition L2MessageKind_UnsignedUserTx : Z := 0.
Definition L2MessageKind_ContractTx : Z := 1.
Definition L2MessageKind_NonmutatingCall : Z := 2.
Definition L2MessageKind_Batch : Z := 3.
Definition L2MessageKind_SignedTx : Z := 4.
Definition L2MessageKind_Heartbeat : Z := 6.
Definition L2MessageKind_SignedCompressedTx : Z := 7.

(** Mon, 08 Aug 2022 16:00:00 GMT. *)
Definition HeartbeatsDisabledAt : Z := 1659974400.

Section Parsers.
Context {E : Env} {G : GethTxs} {ABI : InternalTxAbi}.

Inductive Transaction : Type :=
| Tx_Signed (tx : GethTx)
| Tx_Unsigned (tx : ArbitrumUnsignedTx)
| Tx_Contract (tx : ArbitrumContractTx)
| Tx_Deposit (tx : ArbitrumDepositTx)
| Tx_SubmitRetryable (tx : ArbitrumSubmitRetryableTx)
| Tx_Internal (tx : ArbitrumInternalTx).

(** [to != (common.Address{})] with a nil pointer for the zero address. *)
Definition nonzeroAddress (to : Z) : option Z := if to =? 0 then None else Some to.

(** The nonce is read for unsigned user transactions only. *)
Definition parseUnsignedTx (rd : list Z) (poster : Z) (requestId : option Z) (chainId txKind : Z) : outcome Transaction :=
  let? (gasLimit, rd) := HashFromReader rd in
  if negb (IsUint64 gasLimit) then Err (ErrNew "unsigned user tx gas limit >= 2^64")
  else
    let? (maxFeePerGas, rd) := HashFromReader rd in
    let? (nonce, rd) :=
      if txKind =? L2MessageKind_UnsignedUserTx then
        let? (nonce, rd) := HashFromReader rd in
        if negb (IsUint64 nonce) then Err (ErrNew "unsigned user tx nonce >= 2^64") else Ok (nonce, rd)
      else Ok (0, rd) in
    let? (to, rd) := AddressFrom256FromReader rd in
    let destination := nonzeroAddress to in
    let? (value, calldata) := HashFromReader rd in
    if txKind =? L2MessageKind_UnsignedUserTx then
      Ok (Tx_Unsigned (mkArbitrumUnsignedTx chainId poster nonce maxFeePerGas gasLimit destination value calldata))
    else if txKind =? L2MessageKind_ContractTx then
      match requestId with
      | None => Err (ErrNew "cannot issue contract tx without L1 request id")
      | Some requestId =>
          Ok (Tx_Contract (mkArbitrumContractTx chainId requestId poster maxFeePerGas gasLimit destination value calldata))
      end
    else Err (ErrNew "invalid L2 tx type in parseUnsignedTx").

(** The request id of the message at [index] of a batch. *)
Definition subRequestId (requestId : option Z) (index : Z) : option Z :=
  match requestId with
  | None => None
  | Some requestId => Some (keccak256 (Hash_Bytes requestId ++ U256Bytes index))
  end.

(** The loop over the messages of a batch; every round takes eight bytes or more. *)
Fixpoint parseL2Batch (parse : list Z -> option Z -> outcome (list Transaction)) (fuel : nat) (rd : list Z)
    (requestId : option Z) (index : Z) (segments : list Transaction) : outcome (list Transaction) :=
  match fuel with
  | O => Panic "parseL2Batch: out of fuel"
  | S fuel =>
      match BytestringFromReader rd MaxL2MessageSize with
      | Err _ => Ok segments
      | Panic s => Panic s
      | Ok (nextMsg, rd) =>
          let nextRequestId := subRequestId requestId index in
          let? nestedSegments := parse nextMsg nextRequestId in
          parseL2Batch parse fuel rd requestId (index + 1) (segments ++ nestedSegments)
      end
  end.

(** [levels] is 16 less the depth. *)
Fixpoint parseL2Message (levels : nat) (rd : list Z) (poster timestamp : Z) (requestId : option Z) (chainId : Z)
    : outcome (list Transaction) :=
  let? (l2Kind, rd) := ReadByte rd in
  if l2Kind =? L2MessageKind_UnsignedUserTx then
    let? tx := parseUnsignedTx rd poster requestId chainId L2MessageKind_UnsignedUserTx in Ok [tx]
  else if l2Kind =? L2MessageKind_ContractTx then
    let? tx := parseUnsignedTx rd poster requestId chainId L2MessageKind_ContractTx in Ok [tx]
  else if l2Kind =? L2MessageKind_NonmutatingCall then
    Err (ErrNew "L2 message kind NonmutatingCall is unimplemented")
  else if l2Kind =? L2MessageKind_Batch then
    match levels with
    | O => Err (ErrNew "L2 message batches have a max depth of 16")
    | S levels =>
        parseL2Batch (fun nextMsg nextRequestId => parseL2Message levels nextMsg poster timestamp nextRequestId chainId)
          (S (length rd)) rd requestId 0 []
    end
  else if l2Kind =? L2MessageKind_SignedTx then
    let? newTx := UnmarshalBinary rd in
    if (ArbitrumDepositTxType <=? GethTx_Type newTx) || (GethTx_Type newTx =? BlobTxType)
    then Err ErrTxTypeNotSupported
    else Ok [Tx_Signed newTx]
  else if l2Kind =? L2MessageKind_Heartbeat then
    if HeartbeatsDisabledAt <=? timestamp then Err (ErrNew "heartbeat messages have been disabled") else Ok []
  else if l2Kind =? L2MessageKind_SignedCompressedTx then
    Err (ErrNew "L2 message kind SignedCompressedTx is unimplemented")
  else Err (ErrNew "unkown L2 message kind").

Definition parseEthDepositMessage (rd : list Z) (header : L1IncomingMessageHeader) (chainId : Z) : outcome Transaction :=
  let? (to, rd) := AddressFromReader rd in
  let? (balance, rd) := HashFromReader rd in
  match h_RequestId header with
  | None => Err (ErrNew "cannot issue deposit tx without L1 request id")
  | Some requestId => Ok (Tx_Deposit (mkArbitrumDepositTx chainId requestId (h_Poster header) to balance))
  end.

(** [rd.Read(make([]byte, n))] for [n > 0]: what there is of [n] bytes, the
    rest of the buffer stays zero; an error when there is nothing. *)
Definition readInto (rd : list Z) (n : nat) : outcome (list Z) :=
  match rd with
  | [] => Err EOF
  | _ => Ok (take n rd ++ repeat 0 (n - length rd))
  end.

Definition parseSubmitRetryableMessage (rd : list Z) (header : L1IncomingMessageHeader) (chainId : Z) : outcome Transaction :=
  let? (retryTo, rd) := AddressFrom256FromReader rd in
  let pRetryTo := nonzeroAddress retryTo in
  let? (callvalue, rd) := HashFromReader rd in
  let? (depositValue, rd) := HashFromReader rd in
  let? (maxSubmissionFee, rd) := HashFromReader rd in
  let? (feeRefundAddress, rd) := AddressFrom256FromReader rd in
  let? (callvalueRefundAddress, rd) := AddressFrom256FromReader rd in
  let? (gasLimit, rd) := HashFromReader rd in
  if negb (IsUint64 gasLimit) then Err (ErrNew "gas limit too large")
  else
    let? (maxFeePerGas, rd) := HashFromReader rd in
    let? (dataLength, rd) := HashFromReader rd in
    if negb (IsUint64 dataLength) then Err (ErrNew "data length field too large")
    else if MaxL2MessageSize <? dataLength then Err (ErrNew "retryable data too large")
    else
      let? retryData := if 0 <? dataLength then readInto rd (Z.to_nat dataLength) else Ok [] in
      match h_RequestId header with
      | None => Err (ErrNew "cannot issue submit retryable tx without L1 request id")
      | Some requestId =>
          Ok (Tx_SubmitRetryable
                (mkArbitrumSubmitRetryableTx chainId requestId (h_Poster header) (h_L1BaseFee header) depositValue
                   maxFeePerGas gasLimit pRetryTo callvalue callvalueRefundAddress maxSubmissionFee
                   feeRefundAddress retryData))
      end.

(** An [InfallibleBatchFetcher]; the nil function is [None]. *)
Definition InfallibleBatchFetcher : Type := option (Z -> Z -> list Z).

Definition parseBatchPostingReportMessage (rd : list Z) (chainId : Z) (msgBatchGasCost : option Z)
    (batchFetcher : InfallibleBatchFetcher) : outcome Transaction :=
  let? report := ParseBatchPostingReportMessageFields rd in
  let? batchDataGas :=
    match msgBatchGasCost, batchFetcher with
    | Some gas, _ => Ok gas
    | None, Some fetch => Ok (ComputeBatchGasCost (fetch (rep_batchNum report) (rep_dataHash report)))
    | None, None => Panic "nil pointer dereference"
    end in
  let batchDataGas := SaturatingUAdd 64 batchDataGas (rep_extraGas report) in
  let? data := PackInternalTxDataBatchPostingReport (rep_batchTimestamp report) (rep_batchPosterAddr report)
                 (rep_batchNum report) batchDataGas (rep_l1BaseFee report) in
  Ok (Tx_Internal (mkArbitrumInternalTx chainId data)).

(** [tx.Value()] of the two types that [parseUnsignedTx] makes. *)
Definition unsignedTx_Value (tx : Transaction) : Z :=
  match tx with
  | Tx_Unsigned tx => utx_Value tx
  | Tx_Contract tx => ctx_Value tx
  | _ => 0
  end.

Definition ParseL2Transactions (msg : L1IncomingMessage) (chainId : Z) (batchFetcher : InfallibleBatchFetcher)
    : outcome (list Transaction) :=
  let header := msg_Header msg in
  let L2msg := msg_L2msg msg in
  let kind := h_Kind header in
  if MaxL2MessageSize <? Z.of_nat (length L2msg) then Err (ErrNew "message too large")
  else if kind =? L1MessageType_L2Message then
    parseL2Message 16 L2msg (h_Poster header) (h_Timestamp header) (h_RequestId header) chainId
  else if kind =? L1MessageType_Initialize then
    Err (ErrNew "ParseL2Transactions encounted initialize message (should've been handled explicitly at genesis)")
  else if kind =? L1MessageType_EndOfBlock then Ok []
  else if kind =? L1MessageType_L2FundedByL1 then
    match L2msg, h_RequestId header with
    | [], _ => Err (ErrNew "L2FundedByL1 message has no data")
    | _, None => Err (ErrNew "cannot issue L2 funded by L1 tx without L1 request id")
    | kind :: rd, Some requestId =>
        let depositRequestId := keccak256 (Hash_Bytes requestId ++ U256Bytes 0) in
        let unsignedRequestId := keccak256 (Hash_Bytes requestId ++ U256Bytes 1) in
        let? tx := parseUnsignedTx rd (h_Poster header) (Some unsignedRequestId) chainId kind in
        let deposit := mkArbitrumDepositTx chainId depositRequestId 0 (h_Poster header) (unsignedTx_Value tx) in
        Ok [Tx_Deposit deposit; tx]
    end
  else if kind =? L1MessageType_SubmitRetryable then
    let? tx := parseSubmitRetryableMessage L2msg header chainId in Ok [tx]
  else if kind =? L1MessageType_BatchForGasEstimation then
    Err (ErrNew "L1 message type BatchForGasEstimation is unimplemented")
  else if kind =? L1MessageType_EthDeposit then
    let? tx := parseEthDepositMessage L2msg header chainId in Ok [tx]
  else if kind =? L1MessageType_RollupEvent then Ok []
  else if kind =? L1MessageType_BatchPostingReport then
    let? tx := parseBatchPostingReportMessage L2msg chainId (msg_BatchGasCost msg) batchFetcher in Ok [tx]
  else if kind =? L1MessageType_Invalid then Err (ErrNew "invalid message")
  else Err (ErrNew "invalid message type").

(** The loop of [messageFromTxes]; an index past the end of [txErrors] panics. *)
Fixpoint messageFromTxes_loop (txes : list GethTx) (txErrors : list (option error)) (l2Message : list Z)
    : outcome (list Z) :=
  match txes, txErrors with
  | [], _ => Ok l2Message
  | _ :: _, [] => Panic "index out of range"
  | _ :: txes, Some _ :: txErrors => messageFromTxes_loop txes txErrors l2Message
  | tx :: txes, None :: txErrors =>
      let? txBytes := MarshalBinary tx in
      let sizeBuf := be_bytes 8 (Z.of_nat (length txBytes + 1)) in
      messageFromTxes_loop txes txErrors (l2Message ++ sizeBuf ++ [L2MessageKind_SignedTx] ++ txBytes)
  end.

Definition messageFromTxes (header : L1IncomingMessageHeader) (txes : list GethTx) (txErrors : list (option error))
    : outcome L1IncomingMessage :=
  let batch :=
    let? l2Message := messageFromTxes_loop txes txErrors [L2MessageKind_Batch] in
    Ok (mkL1IncomingMessage header l2Message None) in
  match txes with
  | [tx] =>
      match txErrors with
      | [] => Panic "index out of range"
      | None :: _ =>
          let? txBytes := MarshalBinary tx in
          Ok (mkL1IncomingMessage header (L2MessageKind_SignedTx :: txBytes) None)
      | Some _ :: _ => batch
      end
  | _ => batch
  end.

End Parsers.

(** ** The grammar of L2 messages *)

Section Grammar.
Context {E : Env} {G : GethTxs}.

(** The bytes that the parser does not look at are part of the message: the
    padding of an address, what follows a heartbeat, the tail of a batch. *)
Inductive l2msg : Type :=
| L2Unsigned (gas fee nonce : Z) (pad : list Z) (to value : Z) (data : list Z)
| L2Contract (gas fee : Z) (pad : list Z) (to value : Z) (data : list Z)
| L2Signed (b : list Z) (tx : GethTx)
| L2Heartbeat (rest : list Z)
| L2Batch (ms : list l2msg) (tail : list Z).

Definition unsigned_bytes (gas fee : Z) (nonce pad : list Z) (to value : Z) (data : list Z) : list Z :=
  Hash_Bytes gas ++ Hash_Bytes fee ++ nonce ++ pad ++ Address_Bytes to ++ Hash_Bytes value ++ data.

(** A byte string behind its length. *)
Definition segment (b : list Z) : list Z := be_bytes 8 (Z.of_nat (length b)) ++ b.

Fixpoint encode (m : l2msg) : list Z :=
  match m with
  | L2Unsigned gas fee nonce pad to value data =>
      L2MessageKind_UnsignedUserTx :: unsigned_bytes gas fee (Hash_Bytes nonce) pad to value data
  | L2Contract gas fee pad to value data => L2MessageKind_ContractTx :: unsigned_bytes gas fee [] pad to value data
  | L2Signed b _ => L2MessageKind_SignedTx :: b
  | L2Heartbeat rest => L2MessageKind_Heartbeat :: rest
  | L2Batch ms tail => L2MessageKind_Batch :: concat (map (fun m => segment (encode m)) ms) ++ tail
  end.

Section Indexed.
Context {A B : Type} (f : Z -> A -> list B).

(** The results of [f] at consecutive indices, one after the other. *)
Fixpoint indexed (i : Z) (l : list A) : list B :=
  match l with [] => [] | x :: l => f i x ++ indexed (i + 1) l end.
End Indexed.

(** The transactions of a message of [poster] with request id [id]: those of a
    batch in the order of its messages, the [i]-th with the id derived from [i]. *)
Fixpoint l2_txs (poster chainId : Z) (id : option Z) (m : l2msg) : list Transaction :=
  match m with
  | L2Unsigned gas fee nonce _ to value data =>
      [Tx_Unsigned (mkArbitrumUnsignedTx chainId poster nonce fee gas (nonzeroAddress to) value data)]
  | L2Contract gas fee _ to value data =>
      match id with
      | Some r => [Tx_Contract (mkArbitrumContractTx chainId r poster fee gas (nonzeroAddress to) value data)]
      | None => []
      end
  | L2Signed _ tx => [Tx_Signed tx]
  | L2Heartbeat _ => []
  | L2Batch ms _ => indexed (fun i m => l2_txs poster chainId (subRequestId id i) m) 0 ms
  end.

Definition unsigned_ok (gas fee : Z) (pad : list Z) (to value : Z) (data : list Z) : Prop :=
  in_u 64 gas /\ in_u 256 fee /\ length pad = 12%nat /\ Forall is_byte pad /\ in_u 160 to /\ in_u 256 value /\
  Forall is_byte data.

Definition bool_of {A} (o : option A) : bool := match o with Some _ => true | None => false end.

(** The messages that a parser accepts with [levels] batches around each other
    at most, at a time, with or without a request id. *)
Fixpoint l2_ok (timestamp : Z) (hasId : bool) (levels : nat) (m : l2msg) : Prop :=
  match m with
  | L2Unsigned gas fee nonce pad to value data => unsigned_ok gas fee pad to value data /\ in_u 64 nonce
  | L2Contract gas fee pad to value data => unsigned_ok gas fee pad to value data /\ hasId = true
  | L2Signed b tx =>
      Forall is_byte b /\ UnmarshalBinary b = Ok tx /\ GethTx_Type tx < ArbitrumDepositTxType /\ GethTx_Type tx <> BlobTxType
  | L2Heartbeat rest => Forall is_byte rest /\ timestamp < HeartbeatsDisabledAt
  | L2Batch ms tail =>
      match levels with
      | O => False
      | S levels =>
          Forall (fun m => l2_ok timestamp hasId levels m /\ Z.of_nat (length (encode m)) <= MaxL2MessageSize) ms /\
          Forall is_byte tail /\ exists e, BytestringFromReader tail MaxL2MessageSize = Err e
      end
  end.

(** Decides the comparisons of the kind that was read. *)
Ltac kinds :=
  unfold L2MessageKind_UnsignedUserTx, L2MessageKind_ContractTx, L2MessageKind_NonmutatingCall, L2MessageKind_Batch,
    L2MessageKind_SignedTx, L2MessageKind_Heartbeat, L2MessageKind_SignedCompressedTx; cbn [Z.eqb Pos.eqb].

Lemma bool_of_sub id i : bool_of (subRequestId id i) = bool_of id.
Proof. now destruct id. Qed.

(** *** Transactions without a signature *)

Lemma parseUnsignedTx_user gas fee nonce pad to value data poster id chainId :
  unsigned_ok gas fee pad to value data -> in_u 64 nonce ->
  parseUnsignedTx (unsigned_bytes gas fee (Hash_Bytes nonce) pad to value data) poster id chainId L2MessageKind_UnsignedUserTx =
    Ok (Tx_Unsigned (mkArbitrumUnsignedTx chainId poster nonce fee gas (nonzeroAddress to) value data)).
Proof.
  intros (Hg & Hf & Hp & Hpb & Ht & Hv & _) Hn. unfold parseUnsignedTx, unsigned_bytes.
  rewrite HashFromReader_bytes by (unfold in_u in *; lia). cbn [obind]. rewrite (IsUint64_true _ Hg). cbn [negb].
  rewrite (HashFromReader_bytes _ _ Hf). cbn [obind]. change (_ =? L2MessageKind_UnsignedUserTx) with true. cbv iota.
  rewrite HashFromReader_bytes by (unfold in_u in *; lia). cbn [obind]. rewrite (IsUint64_true _ Hn). cbn [negb obind].
  rewrite (AddressFrom256FromReader_pad _ _ _ Hp Hpb Ht). cbn [obind]. rewrite (HashFromReader_bytes _ _ Hv). reflexivity.
Qed.

Lemma parseUnsignedTx_contract gas fee pad to value data poster r chainId :
  unsigned_ok gas fee pad to value data ->
  parseUnsignedTx (unsigned_bytes gas fee [] pad to value data) poster (Some r) chainId L2MessageKind_ContractTx =
    Ok (Tx_Contract (mkArbitrumContractTx chainId r poster fee gas (nonzeroAddress to) value data)).
Proof.
  intros (Hg & Hf & Hp & Hpb & Ht & Hv & _). unfold parseUnsignedTx, unsigned_bytes.
  rewrite HashFromReader_bytes by (unfold in_u in *; lia). cbn [obind]. rewrite (IsUint64_true _ Hg). cbn [negb].
  rewrite (HashFromReader_bytes _ _ Hf). cbn [obind app].
  change (L2MessageKind_ContractTx =? L2MessageKind_UnsignedUserTx) with false. cbv iota. cbn [obind].
  rewrite (AddressFrom256FromReader_pad _ _ _ Hp Hpb Ht). cbn [obind]. rewrite (HashFromReader_bytes _ _ Hv). reflexivity.
Qed.

(** What the parser read when it made a transaction of either kind. *)
Lemma parseUnsignedTx_inv rd poster id chainId kind tx : Forall is_byte rd ->
  parseUnsignedTx rd poster id chainId kind = Ok tx ->
  exists gas fee nonce pad to value data, unsigned_ok gas fee pad to value data /\ in_u 64 nonce /\
    (kind = L2MessageKind_UnsignedUserTx /\ rd = unsigned_bytes gas fee (Hash_Bytes nonce) pad to value data \/
     kind = L2MessageKind_ContractTx /\ bool_of id = true /\ rd = unsigned_bytes gas fee [] pad to value data).
Proof.
  intros Hb. unfold parseUnsignedTx, unsigned_bytes, unsigned_ok.
  destruct (HashFromReader rd) as [[gas r1]| |] eqn:R1; [|discriminate..]. cbn [obind].
  apply (HashFromReader_inv _ _ _ Hb) in R1 as (-> & _ & B1).
  destruct (IsUint64_spec gas) as [Hg|]; [|discriminate]. cbn [negb].
  destruct (HashFromReader r1) as [[fee r2]| |] eqn:R2; [|discriminate..]. cbn [obind].
  apply (HashFromReader_inv _ _ _ B1) in R2 as (-> & Hf & B2).
  set (rn := if kind =? _ then _ else _). destruct rn as [[nonce r3]| |] eqn:R3; [|discriminate..]. cbn [obind].
  destruct (AddressFrom256FromReader r3) as [[to r4]| |] eqn:R4; [|discriminate..]. cbn [obind].
  destruct (HashFromReader r4) as [[value data]| |] eqn:R5; [|discriminate..]. cbn [obind].
  subst rn. destruct (Z.eqb_spec kind L2MessageKind_UnsignedUserTx) as [Hk|Hk].
  - destruct (HashFromReader r2) as [[n r3']| |] eqn:R3'; [|discriminate..]. cbn [obind] in R3.
    apply (HashFromReader_inv _ _ _ B2) in R3' as (-> & _ & B3).
    destruct (IsUint64_spec n) as [Hn|]; [|discriminate]. injection R3 as -> ->.
    apply (AddressFrom256FromReader_inv _ _ _ B3) in R4 as (pad & -> & Hp & Hpb & Ht & B4).
    apply (HashFromReader_inv _ _ _ B4) in R5 as (-> & Hv & B5).
    intros _. exists gas, fee, nonce, pad, to, value, data. intuition.
  - injection R3 as <- <-. apply (AddressFrom256FromReader_inv _ _ _ B2) in R4 as (pad & -> & Hp & Hpb & Ht & B4).
    apply (HashFromReader_inv _ _ _ B4) in R5 as (-> & Hv & B5).
    destruct (Z.eqb_spec kind L2MessageKind_ContractTx) as [Hk'|]; [|discriminate]. destruct id; [|discriminate].
    assert (in_u 64 0) by (unfold in_u; lia). intros _. exists gas, fee, 0, pad, to, value, data. intuition.
Qed.

(** *** The loop over a batch *)

Section Batch.
Context (parse : list Z -> option Z -> outcome (list Transaction)) (poster chainId : Z).

Definition segments_bytes (ms : list l2msg) (tail : list Z) : list Z :=
  concat (map (fun m => segment (encode m)) ms) ++ tail.

Lemma parseL2Batch_encoded id tail e : BytestringFromReader tail MaxL2MessageSize = Err e ->
  forall ms fuel i segs,
  Forall (fun m => Z.of_nat (length (encode m)) <= MaxL2MessageSize /\
            forall i, parse (encode m) (subRequestId id i) = Ok (l2_txs poster chainId (subRequestId id i) m)) ms ->
  (length (segments_bytes ms tail) < fuel)%nat ->
  parseL2Batch parse fuel (segments_bytes ms tail) id i segs =
    Ok (segs ++ indexed (fun i m => l2_txs poster chainId (subRequestId id i) m) i ms).
Proof.
  intros Ht. induction ms as [|m ms IH]; intros [|fuel] i segs Hms Hf; [lia| |lia|].
  - cbn. now rewrite Ht, app_nil_r.
  - inversion Hms as [|? ? [Hl Hm] Hms']; subst.
    assert (segments_bytes (m :: ms) tail =
      be_bytes 8 (Z.of_nat (length (encode m))) ++ encode m ++ segments_bytes ms tail) as Heq.
    { unfold segments_bytes, segment. cbn [map concat]. now rewrite <- !app_assoc. }
    rewrite Heq in Hf |- *. rewrite !length_app, length_be_bytes in Hf. cbn [parseL2Batch indexed].
    rewrite BytestringFromReader_bytes by (exact Hl || reflexivity). cbv zeta. rewrite Hm. cbn [obind].
    rewrite IH by (auto; lia). now rewrite app_assoc.
Qed.

Lemma parseL2Batch_inv (P : l2msg -> Prop) id :
  (forall b i txs, Forall is_byte b -> parse b (subRequestId id i) = Ok txs ->
     exists m, P m /\ encode m = b /\ l2_txs poster chainId (subRequestId id i) m = txs) ->
  forall fuel rd i segs txs, Forall is_byte rd -> parseL2Batch parse fuel rd id i segs = Ok txs ->
  exists ms tail e, rd = segments_bytes ms tail /\ Forall is_byte tail /\
    BytestringFromReader tail MaxL2MessageSize = Err e /\
    Forall (fun m => P m /\ Z.of_nat (length (encode m)) <= MaxL2MessageSize) ms /\
    txs = segs ++ indexed (fun i m => l2_txs poster chainId (subRequestId id i) m) i ms.
Proof.
  intros HP. induction fuel as [|fuel IH]; intros rd i segs txs Hb; [discriminate|]. cbn [parseL2Batch].
  destruct (BytestringFromReader rd MaxL2MessageSize) as [[b rest]|e|] eqn:Hr; [|intros [= <-]|discriminate].
  - cbv zeta. destruct (BytestringFromReader_inv _ _ _ _ Hb Hr) as (-> & Hl & Hbb & Hbr).
    destruct (parse b (subRequestId id i)) as [ts| |] eqn:Hp; [|discriminate..]. cbn [obind]. intros Hn.
    destruct (HP b i ts Hbb Hp) as (m & HPm & <- & <-).
    destruct (IH _ _ _ _ Hbr Hn) as (ms & tail & e & -> & Ht & He & Hms & ->).
    exists (m :: ms), tail, e. cbn [indexed]. split.
    + unfold segments_bytes, segment. cbn [map concat]. now rewrite <- !app_assoc.
    + split; [exact Ht|]. split; [exact He|]. split; [|now rewrite app_assoc]. constructor; [split; [exact HPm|exact Hl]|exact Hms].
  - exists [], rd, e. repeat split; auto. now rewrite app_nil_r.
Qed.

(** The loop returns, with no more transactions than bytes, if the parser does. *)
Lemma parseL2Batch_total id :
  (forall b i, match parse b (subRequestId id i) with
               | Ok txs => (length txs <= length b)%nat | Err _ => True | Panic _ => False end) ->
  forall fuel rd i segs, (length rd < fuel)%nat ->
  match parseL2Batch parse fuel rd id i segs with
  | Ok txs => (length txs <= length segs + length rd)%nat | Err _ => True | Panic _ => False
  end.
Proof.
  intros HP. induction fuel as [|fuel IH]; intros rd i segs Hf; [lia|]. cbn [parseL2Batch].
  pose proof (proj2 (proj2 (proj2 (proj2 (reader_no_panic rd)))) MaxL2MessageSize) as Hn.
  destruct (BytestringFromReader rd MaxL2MessageSize) as [[b rest]|e|s] eqn:Hr; [|lia|destruct Hn].
  pose proof (BytestringFromReader_shorter _ _ _ _ Hr). cbv zeta.
  specialize (HP b i). destruct (parse b (subRequestId id i)) as [ts| |]; [|exact I|exact HP]. cbn [obind].
  specialize (IH rest (i + 1) (segs ++ ts) ltac:(lia)).
  destruct (parseL2Batch parse fuel rest id (i + 1) (segs ++ ts)); [|exact I|exact IH].
  rewrite length_app in IH. lia.
Qed.
End Batch.

Context {ABI : InternalTxAbi}.

Lemma parseL2Message_encoded poster timestamp chainId : forall levels m id,
  l2_ok timestamp (bool_of id) levels m ->
  parseL2Message levels (encode m) poster timestamp id chainId = Ok (l2_txs poster chainId id m).
Proof.
  induction levels as [|levels IH]; intros m id Hm;
    (destruct m as [gas fee nonce pad to value data|gas fee pad to value data|b tx|rest|ms tail];
     cbn [encode parseL2Message ReadByte obind l2_txs l2_ok] in *; kinds).
  all: try (destruct Hm as [Hu Hn]; now rewrite parseUnsignedTx_user).
  all: try (destruct Hm as [Hu Hn]; destruct id as [r|]; [now rewrite parseUnsignedTx_contract|discriminate]).
  all: try (destruct Hm as (_ & -> & Ht & Hb); cbn [obind]; rewrite (proj2 (Z.leb_gt _ _) Ht), (proj2 (Z.eqb_neq _ _) Hb); reflexivity).
  all: try (destruct Hm as [_ Ht]; now rewrite (proj2 (Z.leb_gt _ _) Ht)).
  - destruct Hm.
  - destruct Hm as (Hms & _ & e & He). apply (parseL2Batch_encoded _ poster chainId id tail e He); [|unfold segments_bytes; lia].
    eapply list.Forall_impl; [exact Hms|]. cbn beta. intros m [Hm Hl]. split; [exact Hl|]. intros i. apply IH.
    now rewrite bool_of_sub.
Qed.

Lemma parseL2Message_inv poster timestamp chainId : forall levels b id txs, Forall is_byte b ->
  parseL2Message levels b poster timestamp id chainId = Ok txs ->
  exists m, l2_ok timestamp (bool_of id) levels m /\ encode m = b /\ l2_txs poster chainId id m = txs.
Proof.
  intros levels. induction levels as [levels IH] using (well_founded_induction lt_wf). intros b id txs Hb.
  assert (forall m, l2_ok timestamp (bool_of id) levels m -> encode m = b ->
    parseL2Message levels b poster timestamp id chainId = Ok txs ->
    exists m, l2_ok timestamp (bool_of id) levels m /\ encode m = b /\ l2_txs poster chainId id m = txs) as Hm.
  { intros m Hm <- Hp. exists m. split; [exact Hm|]. split; [reflexivity|].
    rewrite parseL2Message_encoded in Hp by exact Hm. congruence. }
  intros Hp. pose proof (fun m Ho He => Hm m Ho He Hp) as Hex. clear Hm. revert Hp.
  destruct b as [|kind rd]; [destruct levels; discriminate|]. inversion Hb as [|? ? _ Hrd]; subst.
  destruct levels as [|levels]; cbn [parseL2Message ReadByte obind].
  all: destruct (Z.eqb_spec kind L2MessageKind_UnsignedUserTx) as [->|_];
    [destruct (parseUnsignedTx _ _ _ _ _) as [tx| |] eqn:Hu; [|discriminate..]; intros _;
     destruct (parseUnsignedTx_inv _ _ _ _ _ _ Hrd Hu) as (gas & fee & nonce & pad & to & value & data & Ho & Hn & [[_ ->]|[Hk _]]);
     [exact (Hex (L2Unsigned gas fee nonce pad to value data) (conj Ho Hn) eq_refl)|discriminate]|].
  all: destruct (Z.eqb_spec kind L2MessageKind_ContractTx) as [->|_];
    [destruct (parseUnsignedTx _ _ _ _ _) as [tx| |] eqn:Hu; [|discriminate..]; intros _;
     destruct (parseUnsignedTx_inv _ _ _ _ _ _ Hrd Hu) as (gas & fee & nonce & pad & to & value & data & Ho & Hn & [[Hk _]|(_ & Hi & ->)]);
     [discriminate|exact (Hex (L2Contract gas fee pad to value data) (conj Ho Hi) eq_refl)]|].
  all: destruct (kind =? L2MessageKind_NonmutatingCall); [discriminate|].
  all: destruct (Z.eqb_spec kind L2MessageKind_Batch) as [->|_];
    [try discriminate; intros Hl|].
  1,3: destruct (Z.eqb_spec kind L2MessageKind_SignedTx) as [->|_];
    [destruct (UnmarshalBinary rd) as [tx| |] eqn:Hu; [|discriminate..]; cbn [obind];
     destruct (Z.leb_spec ArbitrumDepositTxType (GethTx_Type tx)), (Z.eqb_spec (GethTx_Type tx) BlobTxType); try discriminate;
     intros _; apply (Hex (L2Signed rd tx)); [cbn [l2_ok]; repeat (split; [assumption|]); assumption|reflexivity]|].
  1,2: destruct (Z.eqb_spec kind L2MessageKind_Heartbeat) as [->|_];
    [destruct (Z.leb_spec HeartbeatsDisabledAt timestamp); [discriminate|]; intros _;
     apply (Hex (L2Heartbeat rd)); [cbn [l2_ok]; repeat (split; [assumption|]); assumption|reflexivity]|destruct (kind =? _); discriminate].
  eapply (parseL2Batch_inv _ poster chainId (l2_ok timestamp (bool_of id) levels)) in Hl as (ms & tail & e & -> & Ht & He & Hms & ->);
    [|intros c i ts Hc Hpc; rewrite <- (bool_of_sub id i); exact (IH levels ltac:(lia) c _ ts Hc Hpc)|exact Hrd].
  exists (L2Batch ms tail). split; [split; [exact Hms|split; [exact Ht|eauto]]|]. split; reflexivity.
Qed.

Lemma parseUnsignedTx_no_panic rd poster id chainId kind : no_panic (parseUnsignedTx rd poster id chainId kind).
Proof.
  assert (forall rd, no_panic (HashFromReader rd)) as Hh by (intros; apply reader_no_panic).
  assert (forall rd, no_panic (AddressFrom256FromReader rd)) as Ha by (intros; apply reader_no_panic).
  unfold parseUnsignedTx. apply no_panic_bind; [apply Hh|]. intros [gas r1]. destruct (negb (IsUint64 gas)); [exact I|].
  apply no_panic_bind; [apply Hh|]. intros [fee r2]. apply no_panic_bind.
  - destruct (kind =? _); [|exact I]. apply no_panic_bind; [apply Hh|]. intros [n r3]. now destruct (negb (IsUint64 n)).
  - intros [n r3]. apply no_panic_bind; [apply Ha|]. intros [to r4]. apply no_panic_bind; [apply Hh|]. intros [v data].
    destruct (kind =? _); [exact I|]. destruct (kind =? _); [|exact I]. now destruct id.
Qed.

Lemma parseL2Message_total poster timestamp chainId : (forall b, no_panic (UnmarshalBinary b)) ->
  forall levels b id,
  match parseL2Message levels b poster timestamp id chainId with
  | Ok txs => (length txs <= length b)%nat | Err _ => True | Panic _ => False
  end.
Proof.
  intros HU. induction levels as [|levels IH]; intros [|kind rd] id; try exact I; cbn [parseL2Message ReadByte obind length].
  all: destruct (kind =? _); [pose proof (parseUnsignedTx_no_panic rd poster id chainId L2MessageKind_UnsignedUserTx);
    destruct (parseUnsignedTx _ _ _ _ _); cbn in *; auto; lia|].
  all: destruct (kind =? _); [pose proof (parseUnsignedTx_no_panic rd poster id chainId L2MessageKind_ContractTx);
    destruct (parseUnsignedTx _ _ _ _ _); cbn in *; auto; lia|].
  all: destruct (kind =? _); [exact I|].
  2: destruct (kind =? _);
    [match goal with |- context [parseL2Batch ?p ?n rd id 0 []] =>
       pose proof (parseL2Batch_total p id (fun b i => IH b (subRequestId id i)) n rd 0 [] ltac:(lia)) as Hl;
       destruct (parseL2Batch p n rd id 0 []); cbn [length] in *; auto; lia end|].
  1: destruct (kind =? _); [exact I|].
  all: destruct (kind =? _); [pose proof (HU rd); destruct (UnmarshalBinary rd); cbn [obind]; auto;
    destruct (_ || _); [exact I|cbn; lia]|].
  all: destruct (kind =? _); [destruct (_ <=? _); [exact I|cbn; lia]|destruct (kind =? _); exact I].
Qed.

(** *** Messages of the sequencer *)

(** The transactions that were included in the block: those without an error. *)
Fixpoint included (txes : list GethTx) (txErrors : list (option error)) : list GethTx :=
  match txes, txErrors with
  | tx :: txes, None :: txErrors => tx :: included txes txErrors
  | _ :: txes, Some _ :: txErrors => included txes txErrors
  | _, _ => []
  end.

(** A transaction that go-ethereum writes and reads back, of a type that the
    parser admits. *)
Definition tx_ok (tx : GethTx) : Prop :=
  exists b, MarshalBinary tx = Ok b /\ UnmarshalBinary b = Ok tx /\ Forall is_byte b /\
    Z.of_nat (length b) < MaxL2MessageSize /\ GethTx_Type tx < ArbitrumDepositTxType /\ GethTx_Type tx <> BlobTxType.

Lemma messageFromTxes_loop_encoded : forall txes txErrors acc, length txErrors = length txes ->
  Forall tx_ok (included txes txErrors) ->
  exists ms, messageFromTxes_loop txes txErrors acc = Ok (acc ++ segments_bytes ms []) /\
    Forall (fun m => (forall ts has levels, l2_ok ts has levels m) /\ Z.of_nat (length (encode m)) <= MaxL2MessageSize) ms /\
    forall poster chainId id i,
      indexed (fun i m => l2_txs poster chainId (subRequestId id i) m) i ms = map Tx_Signed (included txes txErrors).
Proof.
  induction txes as [|tx txes IH]; intros [|[e|] errs] acc Hl Hok; try discriminate; cbn [included messageFromTxes_loop] in *.
  - exists []. cbn. now rewrite app_nil_r.
  - apply IH; [now injection Hl|exact Hok].
  - inversion Hok as [|? ? (b & Hm & Hu & Hb & Hs & Ht) Hok']; subst. rewrite Hm. cbn [obind].
    destruct (IH errs (acc ++ be_bytes 8 (Z.of_nat (length b + 1)) ++ [L2MessageKind_SignedTx] ++ b))
      as (ms & Hms & Hf & Hi); [now injection Hl|exact Hok'|].
    exists (L2Signed b tx :: ms). split; [|split].
    + cbv zeta. rewrite Hms. unfold segments_bytes, segment. cbn [map concat encode length].
      rewrite Nat.add_1_r, !app_nil_r, <- !app_assoc. reflexivity.
    + constructor; [|exact Hf]. split; [destruct levels; cbn [l2_ok]; tauto|]. cbn [encode length]. lia.
    + intros poster chainId id i. cbn [indexed l2_txs map app]. now rewrite Hi.
Qed.

(** The message of a block is an L2 message of the grammar, of any depth. *)
Lemma messageFromTxes_encoded header txes txErrors : length txErrors = length txes ->
  Forall tx_ok (included txes txErrors) ->
  exists m, messageFromTxes header txes txErrors = Ok (mkL1IncomingMessage header (encode m) None) /\
    (forall ts has levels, l2_ok ts has (S levels) m) /\
    forall poster chainId id, l2_txs poster chainId id m = map Tx_Signed (included txes txErrors).
Proof.
  intros Hl Hok.
  assert (exists m, (let? l2Message := messageFromTxes_loop txes txErrors [L2MessageKind_Batch] in
      Ok (mkL1IncomingMessage header l2Message None)) = Ok (mkL1IncomingMessage header (encode m) None) /\
    (forall ts has levels, l2_ok ts has (S levels) m) /\
    forall poster chainId id, l2_txs poster chainId id m = map Tx_Signed (included txes txErrors)) as Hbatch.
  { destruct (messageFromTxes_loop_encoded txes txErrors [L2MessageKind_Batch] Hl Hok) as (ms & -> & Hf & Hi).
    exists (L2Batch ms []). split; [reflexivity|]. split; [|intros; apply Hi]. intros ts has levels. cbn [l2_ok].
    split; [eapply list.Forall_impl; [exact Hf|]; intros m [Hm ?]; split; [apply Hm|assumption]|].
    split; [constructor|]. exists EOF. reflexivity. }
  unfold messageFromTxes. cbv zeta. destruct txes as [|tx [|tx' txes]]; [exact Hbatch| |exact Hbatch].
  destruct txErrors as [|[e|] errs]; [discriminate|exact Hbatch|].
  inversion Hok as [|? ? (b & Hm & Hu & Hb & Hs & Ht) _]; subst. rewrite Hm. cbn [obind].
  exists (L2Signed b tx). split; [reflexivity|]. split; [intros; cbn [l2_ok]; tauto|reflexivity].
Qed.

(** *** Submissions of retryables *)

(** The payload of a submission before its data. *)
Definition submit_bytes (tx : ArbitrumSubmitRetryableTx) (dataLength : Z) : list Z :=
  repeat 0 12 ++ Address_Bytes (default 0 (srt_RetryTo tx)) ++ Hash_Bytes (srt_RetryValue tx)
  ++ Hash_Bytes (srt_DepositValue tx) ++ Hash_Bytes (srt_MaxSubmissionFee tx)
  ++ repeat 0 12 ++ Address_Bytes (srt_FeeRefundAddr tx) ++ repeat 0 12 ++ Address_Bytes (srt_Beneficiary tx)
  ++ Hash_Bytes (srt_Gas tx) ++ Hash_Bytes (srt_GasFeeCap tx) ++ Hash_Bytes dataLength.

Definition submit_ok (tx : ArbitrumSubmitRetryableTx) : Prop :=
  (forall a, srt_RetryTo tx = Some a -> in_u 160 a /\ a <> 0) /\ in_u 256 (srt_RetryValue tx) /\
  in_u 256 (srt_DepositValue tx) /\ in_u 256 (srt_MaxSubmissionFee tx) /\ in_u 160 (srt_FeeRefundAddr tx) /\
  in_u 160 (srt_Beneficiary tx) /\ in_u 64 (srt_Gas tx) /\ in_u 256 (srt_GasFeeCap tx).

Definition set_RetryData (tx : ArbitrumSubmitRetryableTx) (data : list Z) : ArbitrumSubmitRetryableTx :=
  mkArbitrumSubmitRetryableTx (srt_ChainId tx) (srt_RequestId tx) (srt_From tx) (srt_L1BaseFee tx) (srt_DepositValue tx)
    (srt_GasFeeCap tx) (srt_Gas tx) (srt_RetryTo tx) (srt_RetryValue tx) (srt_Beneficiary tx) (srt_MaxSubmissionFee tx)
    (srt_FeeRefundAddr tx) data.

Lemma parseSubmitRetryable_bytes tx n sent kind bn ts : submit_ok tx -> 0 <= n <= MaxL2MessageSize ->
  parseSubmitRetryableMessage (submit_bytes tx n ++ sent)
    (mkL1Header kind (srt_From tx) bn ts (Some (srt_RequestId tx)) (srt_L1BaseFee tx)) (srt_ChainId tx) =
  let? data := if 0 <? n then readInto sent (Z.to_nat n) else Ok [] in Ok (Tx_SubmitRetryable (set_RetryData tx data)).
Proof.
  intros (Hto & Hrv & Hdv & Hms & Hfr & Hbe & Hg & Hfc) [Hn Hm]. unfold MaxL2MessageSize in Hm.
  assert (in_u 160 (default 0 (srt_RetryTo tx)) /\ nonzeroAddress (default 0 (srt_RetryTo tx)) = srt_RetryTo tx) as [Ha Hz].
  { destruct (srt_RetryTo tx) as [a|]; [|split; [unfold in_u; cbn; lia|reflexivity]].
    destruct (Hto a eq_refl) as [Ha Hz]. split; [exact Ha|]. unfold nonzeroAddress. cbn. now rewrite (proj2 (Z.eqb_neq a 0) Hz). }
  unfold submit_bytes, parseSubmitRetryableMessage. rewrite <- !app_assoc.
  rewrite (AddressFrom256FromReader_bytes _ _ Ha). cbn [obind]. rewrite Hz, (HashFromReader_bytes _ _ Hrv). cbn [obind].
  rewrite (HashFromReader_bytes _ _ Hdv). cbn [obind]. rewrite (HashFromReader_bytes _ _ Hms). cbn [obind].
  rewrite (AddressFrom256FromReader_bytes _ _ Hfr). cbn [obind]. rewrite (AddressFrom256FromReader_bytes _ _ Hbe). cbn [obind].
  rewrite HashFromReader_bytes by (unfold in_u in *; lia). cbn [obind]. rewrite (IsUint64_true _ Hg). cbn [negb].
  rewrite (HashFromReader_bytes _ _ Hfc). cbn [obind].
  rewrite HashFromReader_bytes by (unfold in_u in *; lia). cbn [obind].
  rewrite IsUint64_true by (unfold in_u; lia). cbn [negb]. unfold MaxL2MessageSize. rewrite (proj2 (Z.ltb_ge _ _) Hm).
  cbn [h_RequestId h_Poster h_L1BaseFee]. destruct (if 0 <? n then _ else _); reflexivity.
Qed.

(** *** The other parsers return *)

Lemma parseSubmitRetryable_no_panic rd header chainId : no_panic (parseSubmitRetryableMessage rd header chainId).
Proof.
  assert (forall rd, no_panic (HashFromReader rd)) as Hh by (intros; apply reader_no_panic).
  assert (forall rd, no_panic (AddressFrom256FromReader rd)) as Ha by (intros; apply reader_no_panic).
  unfold parseSubmitRetryableMessage. apply no_panic_bind; [apply Ha|]. intros [? ?].
  do 3 (apply no_panic_bind; [apply Hh|]; intros [? ?]). do 2 (apply no_panic_bind; [apply Ha|]; intros [? ?]).
  apply no_panic_bind; [apply Hh|]. intros [g r]. destruct (negb (IsUint64 g)); [exact I|].
  apply no_panic_bind; [apply Hh|]. intros [? ?]. apply no_panic_bind; [apply Hh|]. intros [n r'].
  destruct (negb (IsUint64 n)); [exact I|]. destruct (_ <? n); [exact I|].
  apply no_panic_bind; [destruct (0 <? n); [now destruct r'|exact I]|]. intros data. now destruct (h_RequestId header).
Qed.

Lemma parseEthDeposit_no_panic rd header chainId : no_panic (parseEthDepositMessage rd header chainId).
Proof.
  unfold parseEthDepositMessage. apply no_panic_bind; [apply reader_no_panic|]. intros [? ?].
  apply no_panic_bind; [apply reader_no_panic|]. intros [? ?]. now destruct (h_RequestId header).
Qed.

Lemma parseBatchPostingReport_no_panic rd chainId cost fetch :
  (forall t p n g f, no_panic (PackInternalTxDataBatchPostingReport t p n g f)) ->
  no_panic (parseBatchPostingReportMessage rd chainId cost (Some fetch)).
Proof.
  intros HP. unfold parseBatchPostingReportMessage. apply no_panic_bind.
  - assert (forall rd, no_panic (HashFromReader rd)) as Hh by (intros; apply reader_no_panic).
    unfold ParseBatchPostingReportMessageFields. apply no_panic_bind; [apply Hh|]. intros [? ?].
    apply no_panic_bind; [apply reader_no_panic|]. intros [? ?]. do 2 (apply no_panic_bind; [apply Hh|]; intros [? ?]).
    apply no_panic_bind; [apply Hh|]. intros [? r]. apply no_panic_bind; [|intros; now destruct (IsUint64 _)].
    pose proof (proj1 (proj2 (proj2 (proj2 (reader_no_panic r))))) as Hu.
    destruct (Uint64FromReader r) as [[? ?]|e|]; [exact I|now destruct (Is_EOF e)|exact Hu].
  - intros report. apply no_panic_bind; [now destruct cost|]. intros gas. cbv zeta.
    apply no_panic_bind; [apply HP|]. intros data. exact I.
Qed.

End Grammar.

(** What the ABI coding of reports promises: a packed call is a call of the
    method with the arguments that were packed. *)
Class InternalTxAbiLaws (ABI : InternalTxAbi) := {
  Pack_report : forall chainId t p n g f, in_u 256 t -> in_u 160 p -> in_u 64 n -> in_u 64 g -> in_u 256 f ->
    exists data, PackInternalTxDataBatchPostingReport t p n g f = Ok data /\
      is_batch_report (mkArbitrumInternalTx chainId data) (mkBatchPostingReportInputs t p g f)
}.

Lemma batch_gas_nonneg data : 0 <= batch_gas data.
Proof.
  unfold batch_gas. pose proof (length_filter (fun b => b = 0) data).
  assert (0 <= (Z.of_nat (length data) + 31) / 32) by (apply Z.div_pos; lia). lia.
Qed.

(** The internal transaction that the message of a report is parsed to. *)
Lemma report_message_parsed {E : Env} {G : GethTxs} {ABI : InternalTxAbi} {AL : InternalTxAbiLaws ABI} r x header cost fetch chainId :
  h_Kind header = L1MessageType_BatchPostingReport -> report_ok r x ->
  match cost with Some gas => in_u 64 gas | None => Z.of_nat (length (fetch (rep_batchNum r) (rep_dataHash r))) < 2 ^ 50 end ->
  let gas := match cost with Some gas => gas | None => batch_gas (fetch (rep_batchNum r) (rep_dataHash r)) end + rep_extraGas r in
  gas < 2 ^ 63 ->
  exists data,
    ParseL2Transactions (mkL1IncomingMessage header (report_bytes r x) cost) chainId (Some fetch) =
      Ok [Tx_Internal (mkArbitrumInternalTx chainId data)] /\
    is_batch_report (mkArbitrumInternalTx chainId data)
      (mkBatchPostingReportInputs (rep_batchTimestamp r) (rep_batchPosterAddr r) gas (rep_l1BaseFee r)).
Proof.
  intros Hk Hr Hc gas Hg. pose proof (ParseBatchPostingReport_bytes r x Hr) as Hp.
  assert (length (report_bytes r x) <= 156)%nat as Hl.
  { unfold report_bytes. rewrite !length_app, !length_Hash_Bytes. unfold Address_Bytes. rewrite length_be_bytes.
    destruct x; rewrite ?length_be_bytes; cbn [length]; lia. }
  destruct Hr as (H1 & H2 & H3 & H4 & H5 & Hx).
  assert (0 <= rep_extraGas r) by (destruct x; unfold in_u in *; lia).
  set (base := match cost with Some gas => gas | None => _ end) in *.
  assert (0 <= base) by (unfold base; destruct cost; [unfold in_u in *; lia|apply batch_gas_nonneg]).
  destruct (Pack_report chainId _ _ (rep_batchNum r) gas (rep_l1BaseFee r) H1 H2 H4) as (data & Hd & Hb); [unfold gas, in_u; lia|exact H5|].
  exists data. split; [|exact Hb]. unfold ParseL2Transactions. cbv zeta. cbn [msg_Header msg_L2msg msg_BatchGasCost].
  rewrite (proj2 (Z.ltb_ge _ _)) by (unfold MaxL2MessageSize; lia). rewrite Hk. cbn [Z.eqb Pos.eqb].
  change (L1MessageType_BatchPostingReport) with 13. cbn [Z.eqb Pos.eqb].
  unfold parseBatchPostingReportMessage. rewrite Hp. cbn [obind].
  assert (match cost with Some gas => Ok gas | None => Ok (ComputeBatchGasCost (fetch (rep_batchNum r) (rep_dataHash r))) end
    = Ok base) as ->.
  { unfold base. destruct cost; [reflexivity|]. now rewrite ComputeBatchGasCost_spec. }
  cbn [obind]. rewrite SaturatingUAdd_min, Z.min_l by (unfold gas, in_u in *; lia). fold gas. now rewrite Hd.
Qed.

Section Claims.
Context {E : Env} {G : GethTxs} {ABI : InternalTxAbi}.

(** C17: On a message of kind L2Message of admissible size, the parser returns
    transactions exactly when the payload is a message of the grammar - a signed
    transaction, an unsigned or contract transaction, a heartbeat before they
    were disabled, or a batch of such messages - with at most sixteen batches
    around each other; it then returns the transactions of the message in
    order, each with the request id derived from its path in the batches. *)
Theorem ParseL2Transactions_l2message (msg : L1IncomingMessage) (chainId : Z) (fetcher : InfallibleBatchFetcher)
    (txs : list Transaction) :
  let h := msg_Header msg in
  h_Kind h = L1MessageType_L2Message -> Forall is_byte (msg_L2msg msg) ->
  Z.of_nat (length (msg_L2msg msg)) <= MaxL2MessageSize ->
  ParseL2Transactions msg chainId fetcher = Ok txs <->
  exists m, l2_ok (h_Timestamp h) (bool_of (h_RequestId h)) 16 m /\ encode m = msg_L2msg msg /\
    l2_txs (h_Poster h) chainId (h_RequestId h) m = txs.
Proof.
  intros h Hk Hb Hl. unfold ParseL2Transactions. cbv zeta. fold h. rewrite (proj2 (Z.ltb_ge _ _) Hl), Hk.
  change (L1MessageType_L2Message =? L1MessageType_L2Message) with true. cbv iota. split.
  - now apply parseL2Message_inv.
  - intros (m & Hm & <- & <-). now apply parseL2Message_encoded.
Qed.

(** Parsing the transactions of a message always returns: whatever the kind
    and the payload, there is a list of transactions or an error, never a panic,
    and no more transactions than bytes (but the two of a funded one). *)
Theorem ParseL2Transactions_total (msg : L1IncomingMessage) (chainId : Z) (fetch : Z -> Z -> list Z) :
  (forall b, no_panic (UnmarshalBinary b)) ->
  (forall t p n g f, no_panic (PackInternalTxDataBatchPostingReport t p n g f)) ->
  match ParseL2Transactions msg chainId (Some fetch) with
  | Ok txs => (length txs <= Nat.max 2 (length (msg_L2msg msg)))%nat
  | Err _ => True
  | Panic _ => False
  end.
Proof.
  intros HU HP. unfold ParseL2Transactions. cbv zeta.
  destruct (_ <? _); [exact I|]. destruct (_ =? _).
  { pose proof (parseL2Message_total (h_Poster (msg_Header msg)) (h_Timestamp (msg_Header msg)) chainId HU 16
      (msg_L2msg msg) (h_RequestId (msg_Header msg))) as Ht.
    destruct (parseL2Message _ _ _ _ _ _); [lia|exact I|exact Ht]. }
  destruct (_ =? _); [exact I|]. destruct (_ =? _); [cbn; lia|]. destruct (_ =? _).
  { destruct (msg_L2msg msg) as [|k rd]; [exact I|]. destruct (h_RequestId (msg_Header msg)) as [r|]; [|exact I].
    set (id := Some (keccak256 (Hash_Bytes r ++ U256Bytes 1))).
    pose proof (parseUnsignedTx_no_panic rd (h_Poster (msg_Header msg)) id chainId k).
    destruct (parseUnsignedTx _ _ _ _ _); cbn [obind length]; [lia|exact I|assumption]. }
  assert (forall o : outcome Transaction, no_panic o ->
    match obind o (fun tx => Ok [tx]) with
    | Ok txs => (length txs <= Nat.max 2 (length (msg_L2msg msg)))%nat | Err _ => True | Panic _ => False end) as Hone.
  { intros [tx|e|s]; cbn [obind length no_panic]; auto. lia. }
  destruct (_ =? _); [apply Hone, parseSubmitRetryable_no_panic|]. destruct (_ =? _); [exact I|].
  destruct (_ =? _); [apply Hone, parseEthDeposit_no_panic|]. destruct (_ =? _); [cbn; lia|].
  destruct (_ =? _); [apply Hone, parseBatchPostingReport_no_panic, HP|]. destruct (_ =? _); exact I.
Qed.

(** The message that the sequencer writes for a block is parsed to exactly
    the transactions that the block included, in their order, by every node,
    whatever the time, the poster and the request id. *)
Theorem messageFromTxes_parsed (header : L1IncomingMessageHeader) (txes : list GethTx) (txErrors : list (option error))
    (chainId : Z) (fetcher : InfallibleBatchFetcher) :
  h_Kind header = L1MessageType_L2Message -> length txErrors = length txes -> Forall tx_ok (included txes txErrors) ->
  exists msg, messageFromTxes header txes txErrors = Ok msg /\ msg_Header msg = header /\
    (Z.of_nat (length (msg_L2msg msg)) <= MaxL2MessageSize ->
     ParseL2Transactions msg chainId fetcher = Ok (map Tx_Signed (included txes txErrors))).
Proof.
  intros Hk Hl Hok. destruct (messageFromTxes_encoded header txes txErrors Hl Hok) as (m & Hm & Hw & Ht).
  eexists. split; [exact Hm|]. split; [reflexivity|]. cbn [msg_L2msg]. intros Hs.
  unfold ParseL2Transactions. cbv zeta. cbn [msg_L2msg msg_Header]. rewrite (proj2 (Z.ltb_ge _ _) Hs), Hk.
  change (L1MessageType_L2Message =? L1MessageType_L2Message) with true. cbv iota.
  rewrite parseL2Message_encoded by apply Hw. now rewrite Ht.
Qed.

(** The message of a retryable's submission is read as the transaction that
    was sent, with its data when all of it arrived. When fewer bytes arrived than
    the message says, the rest of the data is zero; when none did, it is refused. *)
Theorem ParseL2Transactions_submit_retryable (tx : ArbitrumSubmitRetryableTx) (n bn ts : Z) (sent : list Z)
    (fetcher : InfallibleBatchFetcher) :
  let msg := mkL1IncomingMessage
    (mkL1Header L1MessageType_SubmitRetryable (srt_From tx) bn ts (Some (srt_RequestId tx)) (srt_L1BaseFee tx))
    (submit_bytes tx n ++ sent) None in
  submit_ok tx -> 0 <= n -> n + Z.of_nat (length (submit_bytes tx n)) <= MaxL2MessageSize -> (length sent <= Z.to_nat n)%nat ->
  (srt_RetryData tx = sent -> Z.of_nat (length sent) = n ->
     ParseL2Transactions msg (srt_ChainId tx) fetcher = Ok [Tx_SubmitRetryable tx]) /\
  (sent <> [] ->
     ParseL2Transactions msg (srt_ChainId tx) fetcher =
       Ok [Tx_SubmitRetryable (set_RetryData tx (sent ++ repeat 0 (Z.to_nat n - length sent)))]) /\
  (sent = [] -> 0 < n -> ParseL2Transactions msg (srt_ChainId tx) fetcher = Err EOF).
Proof.
  intros msg Hok Hn Hs Hl.
  assert (ParseL2Transactions msg (srt_ChainId tx) fetcher =
    let? t := (let? data := if 0 <? n then readInto sent (Z.to_nat n) else Ok [] in
               Ok (Tx_SubmitRetryable (set_RetryData tx data))) in Ok [t]) as ->.
  { unfold ParseL2Transactions, msg. cbn [msg_L2msg msg_Header h_Kind]. rewrite length_app.
    destruct (Z.ltb_spec MaxL2MessageSize (Z.of_nat (length (submit_bytes tx n) + length sent))); [lia|].
    now rewrite parseSubmitRetryable_bytes by (auto; lia). }
  assert (sent <> [] -> (if 0 <? n then readInto sent (Z.to_nat n) else Ok []) =
    Ok (sent ++ repeat 0 (Z.to_nat n - length sent))) as Hread.
  { intros Hne. destruct sent as [|b sent]; [congruence|]. destruct (Z.ltb_spec 0 n); [|cbn in Hl; lia].
    unfold readInto. now rewrite take_ge by lia. }
  split; [|split].
  - intros Hd Hlen. assert (set_RetryData tx sent = tx) as Htx by (unfold set_RetryData; rewrite <- Hd; now destruct tx).
    destruct sent as [|b sent']; [subst n; change (0 <? Z.of_nat (length [])) with false; cbn [obind]; now rewrite Htx|].
    rewrite Hread by discriminate. replace (Z.to_nat n - _)%nat with 0%nat by lia.
    cbn [repeat obind]. now rewrite app_nil_r, Htx.
  - intros Hne. rewrite (Hread Hne). reflexivity.
  - intros -> Hp. now rewrite (proj2 (Z.ltb_lt _ _) Hp).
Qed.

(** C31: The way of a batch posting report from its message to the L1 pricer:
    its message is parsed to one internal transaction; applying that never
    fails, from ArbOS version 10 on; and when the time in the report is valid,
    the pricer settles with the poster named in it for the base fee named in it
    times the gas of the batch - that of the fetched data, unless the message
    has it already - with the extra gas and the fixed gas per batch. *)
Theorem batch_report_message_settles {EL : EnvLaws E} {AL : InternalTxAbiLaws ABI} (root : Storage) (U : list Z)
  (r : BatchPostingReport) (x : bool) (header : L1IncomingMessageHeader) (cost : option Z) (fetch : Z -> Z -> list Z)
  (st : l1_state) (d : DB) (chainId v : Z) (ctx : BlockContext) (evm : EVM) :
  let s := OpenCachedSubStorage root l1PricingSubspace in
  let ut := rep_batchTimestamp r in
  let gas := match cost with Some gas => gas | None => batch_gas (fetch (rep_batchNum r) (rep_dataHash r)) end + rep_extraGas r in
  let wei := batch_cost (l1_cells st perBatchGasCostOffset) gas (rep_l1BaseFee r) in
  h_Kind header = L1MessageType_BatchPostingReport -> report_ok r x ->
  match cost with Some gas => in_u 64 gas | None => Z.of_nat (length (fetch (rep_batchNum r) (rep_dataHash r))) < 2 ^ 50 end ->
  spaces_ok (bp_spaces (OpenCachedSubStorage s [0]) U ++ [s]) -> Forall (in_u 160) U -> rep_batchPosterAddr r ∈ U ->
  l1_at s U st d -> l1_sane st (rep_batchPosterAddr r) -> 10 <= v -> in_u 64 ut -> in_u 64 (bc_Time ctx) ->
  gas < 2 ^ 63 -> in_s 64 (l1_cells st perBatchGasCostOffset + gas) -> wei < 2 ^ 250 ->
  exists tx st' G d',
    ParseL2Transactions (mkL1IncomingMessage header (report_bytes r x) cost) chainId (Some fetch) = Ok [Tx_Internal tx] /\
    runs G (ApplyInternalTxUpdate tx (arbosStateAt root v) ctx evm) d (Ok (arbosStateAt root v, None)) d' /\
    l1_at s U st' d' /\
    (if decide (l1_last (l1_cells st lastUpdateTimeOffset) ut <= ut <= bc_Time ctx)
     then exists units spent reward refund,
       settlement st ut (bc_Time ctx) (rep_batchPosterAddr r) wei (rep_l1BaseFee r) units spent reward refund st'
     else st' = set_table st (bp_open (l1_table st) (rep_batchPosterAddr r))).
Proof.
  intros s ut gas wei Hk Hr Hc NC HU Hp Hd Hs Hv Hut Hct Hg Hsum Hw.
  destruct (report_message_parsed r x header cost fetch chainId Hk Hr Hc) as (data & Hparse & Htx); [exact Hg|].
  fold gas in Htx. destruct Hr as (_ & Hpa & _ & _ & Hf & Hx).
  assert (0 <= gas) as Hg0.
  { assert (0 <= rep_extraGas r) by (destruct x; unfold in_u in *; lia).
    unfold gas. destruct cost; [unfold in_u in *; lia|]. pose proof (batch_gas_nonneg (fetch (rep_batchNum r) (rep_dataHash r))). lia. }
  destruct (ApplyInternalTxUpdate_batch_report root U (mkArbitrumInternalTx chainId data)
    (mkBatchPostingReportInputs ut (rep_batchPosterAddr r) gas (rep_l1BaseFee r)) st d v ctx evm NC HU Hp Hd Hs Hv Htx Hut Hct
    (conj Hg0 Hg) Hsum (proj1 Hf) Hw) as (st' & G' & d' & R & Hd' & HS).
  exists (mkArbitrumInternalTx chainId data), st', G', d'. auto.
Qed.

End Claims.

(** ** Examples *)

(** Transactions that are their own binary form, with their type in front. *)
Definition example_txs : GethTxs := {|
  GethTx := list Z;
  GethTx_Type := fun tx => hd 0 tx;
  UnmarshalBinary := fun b => match b with [] => Err (ErrNew "typed transaction too short") | _ => Ok b end;
  MarshalBinary := fun tx => Ok tx;
  ArbitrumDepositTxType := 0x64;
  BlobTxType := 3;
  ErrTxTypeNotSupported := ErrNew "transaction type not supported"
|}.

#[local] Existing Instance TestEnv.
#[local] Existing Instance example_txs.
#[local] Existing Instance example_abi.

#[local] Instance example_abi_laws : InternalTxAbiLaws example_abi.
Proof.
  constructor. intros. eexists. split; [reflexivity|]. split; [cbn; lia|]. split; [reflexivity|].
  split; [discriminate|reflexivity].
Qed.

Lemma example_bytes l : forallb (fun b => (0 <=? b) && (b <? 256)) l = true -> Forall is_byte l.
Proof.
  intros H. apply list.Forall_forall. intros b Hb. apply list_elem_of_In in Hb.
  rewrite forallb_forall in H. specialize (H b Hb). unfold is_byte. apply andb_prop in H. lia.
Qed.

Definition example_header (kind : Z) : L1IncomingMessageHeader := mkL1Header kind 5 100 200 (Some 7) (Some 9).

(** A signed transaction and a batch with a contract transaction, in a batch. *)
Definition example_message : l2msg :=
  L2Batch [L2Signed [2; 1] [2; 1]; L2Batch [L2Contract 10 11 (repeat 0 12) 12 13 [14]] []] [0].

Lemma ParseL2Transactions_l2message_witness :
  exists txs, ParseL2Transactions (mkL1IncomingMessage (example_header 3) (encode example_message) None) 1 None = Ok txs /\
    length txs = 2%nat.
Proof.
  eexists. split.
  - apply (ParseL2Transactions_l2message (mkL1IncomingMessage (example_header 3) (encode example_message) None) 1 None);
      [reflexivity|apply example_bytes; vm_compute; reflexivity|vm_compute; discriminate|].
    exists example_message. split; [|split; reflexivity].
    assert (Forall is_byte [2; 1] /\ Forall is_byte (repeat 0 12) /\ Forall is_byte [14] /\ Forall is_byte [0])
      as (B1 & B2 & B3 & B4) by (repeat split; apply example_bytes; reflexivity).
    cbn [example_message l2_ok]. split; [|split; [exact B4|exists ErrUnexpectedEOF; reflexivity]].
    constructor; [|constructor; [|constructor]]; (split; [|vm_compute; discriminate]).
    + split; [exact B1|]. cbn. repeat split; lia.
    + split; [|split; [constructor|exists EOF; reflexivity]]. constructor; [|constructor].
      split; [|vm_compute; discriminate]. unfold unsigned_ok, in_u. repeat split; auto; lia.
  - reflexivity.
Defined.

Lemma ParseL2Transactions_total_witness :
  match ParseL2Transactions (mkL1IncomingMessage (example_header 13) [1; 2; 3] None) 1 (Some (fun _ _ => [])) with
  | Ok txs => (length txs <= Nat.max 2 3)%nat | Err _ => True | Panic _ => False
  end.
Proof.
  apply (ParseL2Transactions_total (mkL1IncomingMessage (example_header 13) [1; 2; 3] None) 1 (fun _ _ => []));
    [intros []|intros]; exact I.
Defined.

Lemma messageFromTxes_parsed_witness :
  exists msg, messageFromTxes (G := example_txs) (example_header 3) [[2; 1]; [1; 5]; [2; 8; 8]] [None; Some EOF; None] = Ok msg /\
    ParseL2Transactions msg 1 None = Ok [Tx_Signed (G := example_txs) [2; 1]; Tx_Signed (G := example_txs) [2; 8; 8]].
Proof.
  destruct (messageFromTxes_parsed (G := example_txs) (example_header 3) [[2; 1]; [1; 5]; [2; 8; 8]] [None; Some EOF; None] 1 None)
    as (msg & Hm & _ & Hp); [reflexivity|reflexivity| |].
  - constructor; [|constructor; [|constructor]]; eexists; (split; [reflexivity|]); (split; [reflexivity|]);
      (split; [apply example_bytes; reflexivity|vm_compute; intuition congruence]).
  - exists msg. split; [exact Hm|]. apply Hp. vm_compute in Hm. injection Hm as <-. vm_compute. discriminate.
Defined.

Definition example_submission : ArbitrumSubmitRetryableTx :=
  mkArbitrumSubmitRetryableTx 1 7 5 (Some 9) 1000 20 30000 (Some 77) 400 55 300 66 [1; 2; 3].

Lemma ParseL2Transactions_submit_retryable_witness :
  let msg sent := mkL1IncomingMessage (mkL1Header 9 5 100 200 (Some 7) (Some 9)) (submit_bytes example_submission 3 ++ sent) None in
  ParseL2Transactions (msg [1; 2; 3]) 1 None = Ok [Tx_SubmitRetryable example_submission] /\
  ParseL2Transactions (msg []) 1 None = Err EOF.
Proof.
  assert (submit_ok example_submission) as Hok.
  { unfold submit_ok, in_u. cbn. split; [intros a [= <-]|]; lia. }
  intros msg. split.
  - destruct (ParseL2Transactions_submit_retryable example_submission 3 100 200 [1; 2; 3] None Hok) as [H _];
      [lia|vm_compute; discriminate|cbn; lia|apply H; reflexivity].
  - destruct (ParseL2Transactions_submit_retryable example_submission 3 100 200 [] None Hok) as (_ & _ & H);
      [lia|vm_compute; discriminate|cbn; lia|apply H; [reflexivity|lia]].
Defined.

Lemma batch_report_message_settles_witness :
  exists tx st' d G d',
    ParseL2Transactions (mkL1IncomingMessage (example_header 13) (report_bytes (mkBatchPostingReport 100 5 6 7 1 50) true)
      (Some 250)) 1 (Some (fun _ _ => [])) = Ok [Tx_Internal tx] /\
    runs G (ApplyInternalTxUpdate tx (arbosStateAt example_root 10) (mkBlockContext 7 100 (fun _ => 0)) (mkEVM false 0)) d
      (Ok (arbosStateAt example_root 10, None)) d' /\
    l1_at example_l1 ex_posters st' d'.
Proof.
  destruct example_l1_at as [d Hd].
  destruct (batch_report_message_settles example_root ex_posters (mkBatchPostingReport 100 5 6 7 1 50) true
    (example_header 13) (Some 250) (fun _ _ => []) ex_state d 1 10 (mkBlockContext 7 100 (fun _ => 0)) (mkEVM false 0))
    as (tx & st' & G & d' & Hp & R & Hd' & _);
    [reflexivity|unfold report_ok, in_u; cbn; lia|unfold in_u; lia|exact example_l1_spaces|exact ex_posters_ok
    |right; left|exact Hd|exact ex_state_sane|lia|vm_compute; intuition congruence..|].
  exists tx, st', d, G, d'. auto.
Defined.
