(* ===== verification/Bls.v ===== *)
(** * blsSignatures: aggregated signatures of the data availability committee

    Keys, signatures and their encodings over the curve library of go-ethereum,
    which is the class [BLS12381]. A point stands for itself, whatever its
    coordinates. What is proved: a key made from a private key passes its own
    validity proof, encodings read back as the key they were written from, and
    the sum of signatures verifies under the sum of the keys. *)
From Stdlib Require Import ZArith Lia String List.
From stdpp Require Import base list numbers.
From S2P Require Import Prelude Host Storage StorageFacts MemEnv.
Open Scope Z_scope.

(** The library: two groups with their encodings, the map to the curve, and the
    pairing engine, by the result of the pairs that were added to it. *)
Class BLS12381 := {
  PointG1 : Type;
  PointG2 : Type;
  GT : Type;
  g1_Zero : PointG1;
  g1_Add : PointG1 -> PointG1 -> PointG1;
  g1_MulScalar : PointG1 -> Z -> PointG1;
  g1_ToBytes : PointG1 -> list Z;
  g1_FromBytes : list Z -> outcome PointG1;
  g1_MapToCurve : list Z -> outcome PointG1;
  g2_Zero : PointG2;
  g2_One : PointG2;
  g2_Add : PointG2 -> PointG2 -> PointG2;
  g2_MulScalar : PointG2 -> Z -> PointG2;
  g2_ToBytes : PointG2 -> list Z;
  g2_FromBytes : list Z -> outcome PointG2;
  engine_Result : list (PointG1 * PointG2) -> GT;
  GT_Equal : GT -> GT -> bool
}.

Section Bls.
Context {E : Env} {L : BLS12381}.

(** A key without a validity proof comes from a trusted source. *)
Record PublicKey := mkPublicKey { pk_key : PointG2; pk_validityProof : option PointG1 }.

Definition Signature : Type := PointG1.

Definition hashToG1Curve (message : list Z) (keyValidationMode : bool) : outcome PointG1 :=
  let h := Hash_Bytes (keccak256 message) in
  let padding := (if keyValidationMode then 1 else 0) :: repeat 0 15 in
  g1_MapToCurve (padding ++ h).

Definition signMessage2 (priv : Z) (message : list Z) (keyValidationMode : bool) : outcome Signature :=
  let? pointOnCurve := hashToG1Curve message keyValidationMode in
  Ok (g1_MulScalar pointOnCurve priv).

Definition SignMessage (priv : Z) (message : list Z) : outcome Signature := signMessage2 priv message false.

(** [Result] also resets the engine. *)
Definition verifySignature2 (sig : Signature) (message : list Z) (publicKey : PublicKey) (keyValidationMode : bool)
    : outcome bool :=
  let? pointOnCurve := hashToG1Curve message keyValidationMode in
  let leftSide := engine_Result [(pointOnCurve, pk_key publicKey)] in
  let rightSide := engine_Result [(sig, g2_One)] in
  Ok (GT_Equal leftSide rightSide).

Definition VerifySignature (sig : Signature) (message : list Z) (publicKey : PublicKey) : outcome bool :=
  verifySignature2 sig message publicKey false.

Definition KeyValidityProof (pubKey : PointG2) (privateKey : Z) : outcome Signature :=
  signMessage2 privateKey (g2_ToBytes pubKey) true.

Definition NewPublicKey (pubKey : PointG2) (validityProof : PointG1) : outcome PublicKey :=
  let unverifiedPublicKey := mkPublicKey pubKey (Some validityProof) in
  let? verified := verifySignature2 validityProof (g2_ToBytes pubKey) unverifiedPublicKey true in
  if negb verified then Err (ErrNew "public key validation failed") else Ok unverifiedPublicKey.

Definition NewTrustedPublicKey (pubKey : PointG2) : PublicKey := mkPublicKey pubKey None.

Definition ToTrusted (pubKey : PublicKey) : PublicKey :=
  match pk_validityProof pubKey with
  | None => pubKey
  | Some _ => NewTrustedPublicKey (pk_key pubKey)
  end.

Definition PublicKeyFromPrivateKey (privateKey : Z) : outcome PublicKey :=
  let pubKey := g2_MulScalar g2_One privateKey in
  let? proof := KeyValidityProof pubKey privateKey in
  NewPublicKey pubKey proof.

Definition AggregatePublicKeys (pubKeys : list PublicKey) : PublicKey :=
  NewTrustedPublicKey (fold_left (fun ret pk => g2_Add ret (pk_key pk)) pubKeys g2_Zero).

Definition AggregateSignatures (sigs : list Signature) : Signature :=
  fold_left (fun ret s => g1_Add ret s) sigs g1_Zero.

Definition VerifyAggregatedSignatureSameMessage (sig : Signature) (message : list Z) (pubKeys : list PublicKey)
    : outcome bool :=
  VerifySignature sig message (AggregatePublicKeys pubKeys).

(** The pairs that the loop over the messages adds. *)
Fixpoint hashedPairs (messages : list (list Z)) (pubKeys : list PublicKey) : outcome (list (PointG1 * PointG2)) :=
  match messages, pubKeys with
  | msg :: messages, pk :: pubKeys =>
      let? pointOnCurve := hashToG1Curve msg false in
      let? pairs := hashedPairs messages pubKeys in
      Ok ((pointOnCurve, pk_key pk) :: pairs)
  | _, _ => Ok []
  end.

Definition VerifyAggregatedSignatureDifferentMessages (sig : Signature) (messages : list (list Z))
    (pubKeys : list PublicKey) : outcome bool :=
  if negb (length messages =? length pubKeys)%nat
  then Err (ErrNew "len(messages) does not match (len(pub keys) in verification")
  else
    let? pairs := hashedPairs messages pubKeys in
    let leftSide := engine_Result pairs in
    let rightSide := engine_Result [(sig, g2_One)] in
    Ok (GT_Equal leftSide rightSide).

Definition SignatureToBytes (sig : Signature) : list Z := g1_ToBytes sig.

Definition SignatureFromBytes (b : list Z) : outcome Signature := g1_FromBytes b.

Definition PublicKeyToBytes (pub : PublicKey) : outcome (list Z) :=
  match pk_validityProof pub with
  | None => Ok (0 :: g2_ToBytes (pk_key pub))
  | Some proof =>
      let keyBytes := g2_ToBytes (pk_key pub) in
      let sigBytes := SignatureToBytes proof in
      if 255 <? Z.of_nat (length sigBytes) then Panic "validity proof too large to serialize"
      else Ok (Z.of_nat (length sigBytes) :: sigBytes ++ keyBytes)
  end.

Definition PublicKeyFromBytes (b : list Z) (trustedSource : bool) : outcome PublicKey :=
  match b with
  | [] => Err (ErrNew "tried to deserialize empty public key")
  | proofLen :: b =>
      if proofLen =? 0 then
        if negb trustedSource
        then Err (ErrNew "tried to deserialize unvalidated public key from untrusted source")
        else let? key := g2_FromBytes b in Ok (NewTrustedPublicKey key)
      else if Z.of_nat (length b) <? proofLen then Err (ErrNew "invalid serialized public key")
      else
        let? validityProof := g1_FromBytes (take (Z.to_nat proofLen) b) in
        let? key := g2_FromBytes (drop (Z.to_nat proofLen) b) in
        if trustedSource then Ok (mkPublicKey key (Some validityProof))
        else NewPublicKey key validityProof
  end.

End Bls.

(** What the library promises: the points of the two groups of prime order are
    closed under its operations, the pairing is bilinear on them, points are
    encoded in 96 and 192 bytes that decode to them, and every 48 bytes below the
    modulus of the field, which is larger than [2 ^ 377], map to the curve. *)
Class BLS12381Laws (L : BLS12381) := {
  inG1 : PointG1 -> Prop;
  inG2 : PointG2 -> Prop;
  pairing : PointG1 -> PointG2 -> GT;
  gt_mul : GT -> GT -> GT;
  gt_one : GT;
  gt_one_r a : gt_mul a gt_one = a;
  inG1_Zero : inG1 g1_Zero;
  inG1_Add p q : inG1 p -> inG1 q -> inG1 (g1_Add p q);
  inG1_MulScalar p k : inG1 p -> inG1 (g1_MulScalar p k);
  inG1_MapToCurve b : length b = 48%nat -> be b < 2 ^ 377 -> exists p, g1_MapToCurve b = Ok p /\ inG1 p;
  inG2_Zero : inG2 g2_Zero;
  inG2_One : inG2 g2_One;
  inG2_Add p q : inG2 p -> inG2 q -> inG2 (g2_Add p q);
  inG2_MulScalar p k : inG2 p -> inG2 (g2_MulScalar p k);
  engine_Result_nil : engine_Result [] = gt_one;
  engine_Result_cons p q l : engine_Result ((p, q) :: l) = gt_mul (pairing p q) (engine_Result l);
  GT_Equal_spec a b : GT_Equal a b = true <-> a = b;
  pairing_zero_l q : inG2 q -> pairing g1_Zero q = gt_one;
  pairing_zero_r p : inG1 p -> pairing p g2_Zero = gt_one;
  pairing_add_l p p' q : inG1 p -> inG1 p' -> inG2 q -> pairing (g1_Add p p') q = gt_mul (pairing p q) (pairing p' q);
  pairing_add_r p q q' : inG1 p -> inG2 q -> inG2 q' -> pairing p (g2_Add q q') = gt_mul (pairing p q) (pairing p q');
  pairing_scalar p q k : inG1 p -> inG2 q -> pairing (g1_MulScalar p k) q = pairing p (g2_MulScalar q k);
  g1_ToBytes_length p : inG1 p -> length (g1_ToBytes p) = 96%nat;
  g2_ToBytes_length p : inG2 p -> length (g2_ToBytes p) = 192%nat;
  g1_ToBytes_byte p : inG1 p -> Forall is_byte (g1_ToBytes p);
  g2_ToBytes_byte p : inG2 p -> Forall is_byte (g2_ToBytes p);
  g1_FromBytes_ToBytes p : inG1 p -> g1_FromBytes (g1_ToBytes p) = Ok p;
  g2_FromBytes_ToBytes p : inG2 p -> g2_FromBytes (g2_ToBytes p) = Ok p
}.

Section Facts.
Context {E : Env} {EL : EnvLaws E} {L : BLS12381} {LL : BLS12381Laws L}.

Lemma hashToG1Curve_ok message mode : exists p, hashToG1Curve message mode = Ok p /\ inG1 p.
Proof.
  unfold hashToG1Curve. apply inG1_MapToCurve.
  - rewrite length_app, length_Hash_Bytes. cbn [length]. rewrite repeat_length. reflexivity.
  - rewrite be_app, length_Hash_Bytes. unfold Hash_Bytes. rewrite be_be_bytes.
    pose proof (Z.mod_pos_bound (keccak256 message) (256 ^ Z.of_nat 32) ltac:(lia)).
    assert (be ((if mode then 1 else 0) :: repeat 0 15) <= 2 ^ 120) by (destruct mode; cbn; lia).
    change (256 ^ Z.of_nat 32) with (2 ^ 256) in *. lia.
Qed.

(** A signature is a multiple of the message's point. *)
Lemma signMessage2_ok priv message mode p : hashToG1Curve message mode = Ok p ->
  signMessage2 priv message mode = Ok (g1_MulScalar p priv).
Proof. unfold signMessage2. now intros ->. Qed.

Lemma engine_single p q : engine_Result [(p, q)] = pairing p q.
Proof. now rewrite engine_Result_cons, engine_Result_nil, gt_one_r. Qed.

(** The signature [s] of the point [p] belongs to the key [k]. *)
Definition signs (p s : PointG1) (k : PointG2) : Prop := inG1 s /\ inG2 k /\ pairing s g2_One = pairing p k.

Lemma signs_verify s message mode p pk : hashToG1Curve message mode = Ok p -> signs p s (pk_key pk) ->
  verifySignature2 s message pk mode = Ok true.
Proof.
  intros Hp (_ & _ & Hs). unfold verifySignature2. rewrite Hp. cbn [obind]. rewrite !engine_single, Hs.
  now rewrite (proj2 (GT_Equal_spec _ _) eq_refl).
Qed.

Lemma signs_scalar p priv : inG1 p -> signs p (g1_MulScalar p priv) (g2_MulScalar g2_One priv).
Proof.
  intros Hp. split; [now apply inG1_MulScalar|]. split; [apply inG2_MulScalar, inG2_One|]. apply pairing_scalar; [exact Hp|apply inG2_One].
Qed.

Lemma signs_fold p : inG1 p -> forall sigs pks s k, signs p s k -> Forall2 (fun s pk => signs p s (pk_key pk)) sigs pks ->
  signs p (fold_left g1_Add sigs s) (fold_left (fun ret pk => g2_Add ret (pk_key pk)) pks k).
Proof.
  intros Hp. induction sigs as [|s' sigs IH]; intros pks s k Hs H; inversion H as [|? pk ? pks' Hs' H']; subst; [exact Hs|].
  cbn [fold_left]. apply IH; [|exact H']. destruct Hs as (H1 & H2 & H3), Hs' as (H1' & H2' & H3').
  split; [now apply inG1_Add|]. split; [now apply inG2_Add|].
  rewrite pairing_add_l, pairing_add_r, H3, H3' by (auto using inG2_One). reflexivity.
Qed.

Lemma signs_aggregate p sigs pks : inG1 p -> Forall2 (fun s pk => signs p s (pk_key pk)) sigs pks ->
  signs p (AggregateSignatures sigs) (pk_key (AggregatePublicKeys pks)).
Proof.
  intros Hp H. apply (signs_fold p Hp sigs pks g1_Zero g2_Zero); [|exact H].
  split; [apply inG1_Zero|]. split; [apply inG2_Zero|]. now rewrite pairing_zero_l, pairing_zero_r by (auto using inG2_One).
Qed.

Lemma AggregateSignatures_inG1 sigs : Forall inG1 sigs -> inG1 (AggregateSignatures sigs).
Proof.
  unfold AggregateSignatures. assert (inG1 g1_Zero) as H by apply inG1_Zero. revert H. generalize g1_Zero.
  induction sigs as [|s sigs IH]; intros z Hz Hs; cbn; [exact Hz|]. inversion Hs; subst. apply IH; [now apply inG1_Add|assumption].
Qed.

(** The key of a private key, with a proof that verifies. *)
Lemma PublicKeyFromPrivateKey_ok priv : exists proof,
  PublicKeyFromPrivateKey priv = Ok (mkPublicKey (g2_MulScalar g2_One priv) (Some proof)) /\ inG1 proof.
Proof.
  unfold PublicKeyFromPrivateKey, KeyValidityProof. set (key := g2_MulScalar g2_One priv).
  destruct (hashToG1Curve_ok (g2_ToBytes key) true) as (p & Hp & Hin).
  rewrite (signMessage2_ok priv _ true p Hp). cbn [obind]. exists (g1_MulScalar p priv). split; [|now apply inG1_MulScalar].
  unfold NewPublicKey. erewrite signs_verify; [reflexivity|exact Hp|]. now apply signs_scalar.
Qed.

(** What members of the committee sign, together, verifies under the sum of
    their keys. *)
Lemma AggregateSignatures_verifies privs message sigs pks :
  Forall2 (fun k s => SignMessage k message = Ok s) privs sigs ->
  Forall2 (fun k pk => PublicKeyFromPrivateKey k = Ok pk) privs pks ->
  VerifyAggregatedSignatureSameMessage (AggregateSignatures sigs) message pks = Ok true.
Proof.
  intros Hs Hk. destruct (hashToG1Curve_ok message false) as (p & Hp & Hin).
  apply (signs_verify _ _ _ p); [exact Hp|]. apply signs_aggregate; [exact Hin|].
  revert sigs pks Hs Hk. induction privs as [|k privs IH]; intros sigs pks Hs Hk;
    inversion Hs as [|? s ? sigs' Hs1 Hs2]; inversion Hk as [|? pk ? pks' Hk1 Hk2]; subst; [constructor|].
  constructor; [|now apply IH]. unfold SignMessage in Hs1. rewrite (signMessage2_ok _ _ _ p Hp) in Hs1. injection Hs1 as <-.
  destruct (PublicKeyFromPrivateKey_ok k) as (proof & Hpk & _). rewrite Hpk in Hk1. injection Hk1 as <-. now apply signs_scalar.
Qed.

(** A key that the reader of its encoding accepts. *)
Definition key_ok (pk : PublicKey) (trustedSource : bool) : Prop :=
  inG2 (pk_key pk) /\
  match pk_validityProof pk with
  | None => trustedSource = true
  | Some proof => inG1 proof /\ (trustedSource = false -> NewPublicKey (pk_key pk) proof = Ok pk)
  end.

Lemma PublicKeyToBytes_ok pk trusted : key_ok pk trusted -> exists b,
  PublicKeyToBytes pk = Ok b /\ Z.of_nat (length b) <= 289 /\ Forall is_byte b /\ PublicKeyFromBytes b trusted = Ok pk.
Proof.
  destruct pk as [key [proof|]]; intros [Hk Hp]; cbn [pk_key pk_validityProof] in *; unfold PublicKeyToBytes; cbn [pk_key pk_validityProof];
    unfold SignatureToBytes.
  - destruct Hp as [Hp Hv]. rewrite (g1_ToBytes_length proof Hp). change (255 <? Z.of_nat 96) with false.
    eexists. split; [reflexivity|]. cbn [length]. rewrite length_app, (g1_ToBytes_length proof Hp), (g2_ToBytes_length key Hk).
    split; [lia|]. split; [constructor; [unfold is_byte; lia|]; apply Forall_app; split; [now apply g1_ToBytes_byte|now apply g2_ToBytes_byte]|].
    unfold PublicKeyFromBytes. cbv beta iota. change (Z.of_nat 96 =? 0) with false. cbv iota.
    rewrite (proj2 (Z.ltb_ge _ _)) by (rewrite length_app, (g1_ToBytes_length proof Hp); lia). rewrite Nat2Z.id.
    rewrite take_app_length', drop_app_length' by (symmetry; now apply g1_ToBytes_length).
    rewrite (g1_FromBytes_ToBytes proof Hp), (g2_FromBytes_ToBytes key Hk). cbn [obind]. destruct trusted; auto.
  - eexists. split; [reflexivity|]. cbn [length]. rewrite (g2_ToBytes_length key Hk). split; [lia|].
    split; [constructor; [unfold is_byte; lia|now apply g2_ToBytes_byte]|].
    unfold PublicKeyFromBytes. cbn [Z.eqb]. rewrite Hp. cbn [negb]. now rewrite (g2_FromBytes_ToBytes key Hk).
Qed.

(** A key from an untrusted source is read the same way from a trusted one. *)
Lemma PublicKeyFromBytes_trusted b pk : PublicKeyFromBytes b false = Ok pk -> PublicKeyFromBytes b true = Ok pk.
Proof.
  unfold PublicKeyFromBytes. destruct b as [|n b]; [discriminate|]. destruct (n =? 0); [discriminate|].
  destruct (_ <? n); [discriminate|]. destruct (g1_FromBytes _) as [proof| |]; [|discriminate..].
  destruct (g2_FromBytes _) as [key| |]; [|discriminate..]. cbn [obind]. unfold NewPublicKey.
  destruct (verifySignature2 _ _ _ _) as [v| |]; [|discriminate..]. cbn [obind]. now destruct v.
Qed.

Lemma PublicKeyFromPrivateKey_key_ok priv pk trusted : PublicKeyFromPrivateKey priv = Ok pk -> key_ok pk trusted.
Proof.
  intros H. destruct (PublicKeyFromPrivateKey_ok priv) as (proof & Hpk & Hp). rewrite Hpk in H. injection H as <-.
  split; [apply inG2_MulScalar, inG2_One|]. split; [exact Hp|]. intros _. cbn [pk_key]. rewrite <- Hpk. unfold PublicKeyFromPrivateKey in *.
  destruct (KeyValidityProof _ _) as [pr| |]; [|discriminate..]. cbn [obind] in *. unfold NewPublicKey in *.
  destruct (verifySignature2 pr _ _ _) as [v| |] eqn:Hv; [|discriminate..]. cbn [obind] in *.
  destruct v; [|discriminate]. cbn [negb] in *. injection Hpk as ->. now rewrite Hv.
Qed.

End Facts.

(** ** An example *)

(** The integers modulo 2^64 with their product as the pairing. *)
Definition example_bls : BLS12381 := {|
  PointG1 := Z; PointG2 := Z; GT := Z;
  g1_Zero := 0; g1_Add := fun a b => u64 (a + b); g1_MulScalar := fun a k => u64 (a * k);
  g1_ToBytes := fun a => be_bytes 96 a; g1_FromBytes := fun b => Ok (u64 (be b)); g1_MapToCurve := fun b => Ok (u64 (be b + 1));
  g2_Zero := 0; g2_One := 1; g2_Add := fun a b => u64 (a + b); g2_MulScalar := fun a k => u64 (a * k);
  g2_ToBytes := fun a => be_bytes 192 a; g2_FromBytes := fun b => Ok (u64 (be b));
  engine_Result := fold_right (fun p acc => u64 (fst p * snd p + acc)) 0;
  GT_Equal := Z.eqb
|}.

Lemma example_bls_laws : BLS12381Laws example_bls.
Proof.
  assert (forall n a, in_u 64 a -> (8 <= n)%nat -> be (be_bytes n a) = a) as Hbe.
  { intros n a Ha Hn. rewrite be_be_bytes. apply Z.mod_small. split; [apply Ha|]. apply (Z.lt_le_trans _ (256 ^ 8)); [apply Ha|].
    apply Z.pow_le_mono_r; lia. }
  assert (forall p p' q, u64 (u64 (p + p') * q) = if u64 (p' * q) =? 0 then u64 (p * q) else u64 (u64 (p * q) + u64 (p' * q))) as Hmul.
  { intros p p' q. unfold uwrap. rewrite Zmult_mod_idemp_l, Z.mul_add_distr_r, Zplus_mod.
    destruct (Z.eqb_spec ((p' * q) mod 2 ^ 64) 0) as [->|_]; [|reflexivity]. now rewrite Z.add_0_r, Z.mod_mod by lia. }
  refine {| inG1 := in_u 64 : @PointG1 example_bls -> Prop; inG2 := in_u 64 : @PointG2 example_bls -> Prop;
            pairing := (fun p q => u64 (p * q)) : @PointG1 example_bls -> @PointG2 example_bls -> @GT example_bls;
            gt_mul := (fun a b => if b =? 0 then a else u64 (a + b)) : @GT example_bls -> @GT example_bls -> @GT example_bls;
            gt_one := 0 : @GT example_bls |}.
  - intros a. reflexivity.
  - unfold in_u. cbn. lia.
  - intros p q _ _. apply u64_range.
  - intros p k _. apply u64_range.
  - intros b _ _. eexists. split; [reflexivity|apply u64_range].
  - unfold in_u. cbn. lia.
  - unfold in_u. cbn. lia.
  - intros p q _ _. apply u64_range.
  - intros p k _. apply u64_range.
  - reflexivity.
  - intros p q l. cbn. set (acc := fold_right _ _ _). destruct (Z.eqb_spec acc 0) as [->|_]; [now rewrite Z.add_0_r|].
    unfold uwrap. now rewrite Zplus_mod_idemp_l.
  - apply Z.eqb_eq.
  - reflexivity.
  - intros p _. cbn. now rewrite Z.mul_0_r.
  - intros p p' q _ _ _. apply Hmul.
  - intros p q q' _ _ _. cbn. rewrite !(Z.mul_comm p). apply Hmul.
  - intros p q k _ _. cbn. unfold uwrap. rewrite Zmult_mod_idemp_l, Zmult_mod_idemp_r. f_equal. lia.
  - intros. apply length_be_bytes.
  - intros. apply length_be_bytes.
  - intros. apply be_bytes_is_byte.
  - intros. apply be_bytes_is_byte.
  - intros p Hp. cbn -[be_bytes be]. rewrite Hbe by (exact Hp || lia). now rewrite uwrap_id.
  - intros p Hp. cbn -[be_bytes be]. rewrite Hbe by (exact Hp || lia). now rewrite uwrap_id.
Defined.
