(* ===== verification/DasTree.v ===== *)
(** * das/dastree: the hash tree of a data availability batch

    A preimage is cut into bins of 64 kB; the hashes of the bins are the leaves
    of a tree whose inner nodes hash their children and the number of bytes under
    them. [RecordHash] returns the root with all pairs of hash and preimage that
    it recorded; [Content] gets the preimage back from the root and an oracle.
    What is proved: whatever was recorded is enough for [Content], which then
    ends and returns the preimage. *)
From Stdlib Require Import ZArith Lia String List.
From stdpp Require Import base list numbers sets.
From S2P Require Import Prelude Arbmath Host Storage StorageFacts MemEnv.
Open Scope Z_scope.

Definition BinSize : Z := 64 * 1024.
Definition NodeByte : Z := 0xff.
Definition LeafByte : Z := 0xfe.

Record dnode := mkDnode { dn_hash : Z; dn_size : Z }.

(** The pairs for which the [record] function was called, in order. *)
Definition records : Type := list (Z * list Z).

Section DasTree.
Context {E : Env}.

Definition keccord (value : list Z) (log : records) : Z * records :=
  let hash := keccak256 value in (hash, log ++ [(hash, value)]).

(** The loop over the bins, with 32-bit positions; [unrolled[bin:end]] panics
    when [bin + BinSize] wrapped around. The loop runs at most [length / BinSize]
    times and once more for a rest. *)
Fixpoint binLeaves (fuel : nat) (unrolled : list Z) (length bin : Z) (leaves : list dnode) (log : records)
    : outcome (list dnode * records) :=
  match fuel with
  | O => Ok (leaves, log)
  | S fuel =>
      if bin <? length then
        let end_ := MinInt (uwrap 32 (bin + BinSize)) length in
        if end_ <? bin then Panic "slice bounds out of range"
        else
          let '(inner, log) := keccord (take (Z.to_nat (end_ - bin)) (drop (Z.to_nat bin) unrolled)) log in
          let '(hash, log) := keccord (LeafByte :: Hash_Bytes inner) log in
          binLeaves fuel unrolled length (uwrap 32 (bin + BinSize)) (leaves ++ [mkDnode hash (uwrap 32 (end_ - bin))]) log
      else Ok (leaves, log)
  end.

(** One layer: the nodes two by two, and an odd one as it is. *)
Fixpoint pairUp (layer : list dnode) (log : records) : list dnode * records :=
  match layer with
  | first :: other :: layer =>
      let sizeUnder := uwrap 32 (dn_size first + dn_size other) in
      let dataUnder :=
        ConcatByteSlices [Hash_Bytes (dn_hash first); Hash_Bytes (dn_hash other); Uint32ToBytes sizeUnder] in
      let '(hash, log) := keccord (NodeByte :: dataUnder) log in
      let '(paired, log) := pairUp layer log in
      (mkDnode hash sizeUnder :: paired, log)
  | _ => (layer, log)
  end.

(** A layer of more than one node gets shorter, so its length is enough fuel. *)
Fixpoint reduceLayers (fuel : nat) (layer : list dnode) (log : records) : list dnode * records :=
  match fuel with
  | O => (layer, log)
  | S fuel =>
      if (1 <? length layer)%nat
      then let '(layer, log) := pairUp layer log in reduceLayers fuel layer log
      else (layer, log)
  end.

Definition RecordHash (preimage : list (list Z)) : outcome (Z * records) :=
  let unrolled := ConcatByteSlices preimage in
  if (length unrolled =? 0)%nat then
    let '(inner, log) := keccord [] [] in
    let '(hash, log) := keccord (LeafByte :: Hash_Bytes inner) log in
    Ok (FlipBit hash 0, log)
  else
    let length := uwrap 32 (Z.of_nat (length unrolled)) in
    let? (leaves, log) := binLeaves (S (Z.to_nat (length / BinSize))) unrolled length 0 [] [] in
    let '(layer, log) := reduceLayers (List.length leaves) leaves log in
    match layer with
    | [] => Panic "index out of range [0] with length 0"
    | root :: _ => Ok (FlipBit (dn_hash root) 0, log)
    end.

Definition Hash (preimage : list (list Z)) : outcome Z :=
  let? (hash, log) := RecordHash preimage in Ok hash.

Definition FlatHashToTreeLeaf (flat : Z) : list Z := LeafByte :: Hash_Bytes flat.

Definition FlatHashToTreeHash (flat : Z) : Z := FlipBit (keccak256 (FlatHashToTreeLeaf flat)) 0.

Definition ValidHash (hash : Z) (preimage : list Z) : outcome bool :=
  let? h := Hash [preimage] in
  if hash =? h then Ok true
  else
    match preimage with
    | [] => Ok false
    | kind :: _ =>
        Ok (negb (kind =? NodeByte) && negb (kind =? LeafByte) && (hash =? keccak256 preimage))
    end.

Section Content.
Context (oracle : Z -> outcome (list Z)).

Definition unpeal (hash : Z) : outcome (Z * list Z) :=
  let? data := oracle hash in
  match data with
  | [] => Err (ErrNew "invalid node")
  | kind :: upper =>
      let size := length data in
      if ((kind =? LeafByte) && negb (size =? 33)%nat) || ((kind =? NodeByte) && negb (size =? 69)%nat)
      then Err (ErrNew "invalid node for hash")
      else Ok (kind, upper)
  end.

(** The loop over the stack, whose top is the head of the list. An oracle that
    answers with nodes forever keeps it running: the fuel bounds the steps, and a
    run that needs more is marked as such. *)
Fixpoint contentStack (fuel : nat) (stack leaves : list dnode) : outcome (list dnode) :=
  match stack with
  | [] => Ok leaves
  | place :: stack =>
      match fuel with
      | O => Panic "the stack is not empty yet"
      | S fuel =>
          let? (kind, data) := unpeal (dn_hash place) in
          if kind =? LeafByte then
            contentStack fuel stack (leaves ++ [mkDnode (BytesToHash data) (dn_size place)])
          else if kind =? NodeByte then
            let? count := BytesToUint32 (drop 64 data) in
            let power := uwrap 32 (NextOrCurrentPowerOf2 count) in
            if negb (dn_size place =? count) then Err (ErrNew "invalid size data")
            else
              let prior := mkDnode (BytesToHash (take 32 data)) (power / 2) in
              let after := mkDnode (BytesToHash (take 32 (drop 32 data))) (uwrap 32 (count - power / 2)) in
              contentStack fuel (prior :: after :: stack) leaves
          else Err (ErrNew "failed to resolve preimage")
      end
  end.

Fixpoint contentBins (leaves : list dnode) (preimage : list Z) : outcome (list Z) :=
  match leaves with
  | [] => Ok preimage
  | leaf :: leaves =>
      let? bin := oracle (dn_hash leaf) in
      if negb (Z.of_nat (length bin) =? dn_size leaf) then Err (ErrNew "leaf has an incorrectly sized bin")
      else contentBins leaves (preimage ++ bin)
  end.

Definition Content (fuel : nat) (root : Z) : outcome (list Z) :=
  let start := FlipBit root 0 in
  let? (kind, upper) := unpeal start in
  if kind =? LeafByte then oracle (BytesToHash upper)
  else if kind =? NodeByte then
    let? total := BytesToUint32 (drop 64 upper) in
    let? leaves := contentStack fuel [mkDnode start total] [] in
    let? preimage := contentBins leaves [] in
    let? hash := Hash [preimage] in
    if negb (hash =? root) then Err (ErrNew "preimage not canonically hashed") else Ok preimage
  else Err (ErrNew "unexpected root preimage of kind").

End Content.
End DasTree.

(** ** The tree that the layers build *)

Inductive dtree := DLeaf (bin : list Z) | DNode (l r : dtree).

Fixpoint dbytes (t : dtree) : list Z :=
  match t with DLeaf bin => bin | DNode l r => dbytes l ++ dbytes r end.

Definition dsize (t : dtree) : Z := Z.of_nat (length (dbytes t)).

(** The number of the nodes. *)
Fixpoint dcount (t : dtree) : nat :=
  match t with DLeaf _ => 1 | DNode l r => S (dcount l + dcount r) end.

Fixpoint dleaves (t : dtree) : list (list Z) :=
  match t with DLeaf bin => [bin] | DNode l r => dleaves l ++ dleaves r end.

(** All bins full, [2 ^ k] of them. *)
Fixpoint perfect (k : nat) (t : dtree) : Prop :=
  match t, k with
  | DLeaf bin, O => Z.of_nat (length bin) = BinSize
  | DNode l r, S k => perfect k l /\ perfect k r
  | _, _ => False
  end.

(** To the left of every node a perfect tree that is at least as large as what
    is to its right. *)
Fixpoint shaped (t : dtree) : Prop :=
  match t with
  | DLeaf bin => 1 <= Z.of_nat (length bin) <= BinSize
  | DNode l r => exists k, perfect k l /\ shaped r /\ dsize r <= 2 ^ (16 + Z.of_nat k)
  end.

(** A layer of level [k]: perfect trees and a last one. *)
Fixpoint layer_ok (k : nat) (ts : list dtree) : Prop :=
  match ts with
  | [] => False
  | [t] => shaped t /\ dsize t <= 2 ^ (16 + Z.of_nat k)
  | t :: ts => perfect k t /\ layer_ok k ts
  end.

Fixpoint pair_trees (ts : list dtree) : list dtree :=
  match ts with
  | t :: u :: ts => DNode t u :: pair_trees ts
  | _ => ts
  end.

(** Induction over a list two by two. *)
Lemma list_pair_ind {A} (P : list A -> Prop) :
  P [] -> (forall x, P [x]) -> (forall x y l, P l -> P (x :: y :: l)) -> forall l, P l.
Proof.
  intros H0 H1 H2 l. assert (P l /\ forall x, P (x :: l)) as [H _]; [|exact H].
  induction l as [|y l [IH IH']]; auto.
Qed.

Lemma dsize_node l r : dsize (DNode l r) = dsize l + dsize r.
Proof. unfold dsize. cbn. rewrite length_app. lia. Qed.

Lemma perfect_size : forall t k, perfect k t -> dsize t = 2 ^ (16 + Z.of_nat k).
Proof.
  induction t as [bin|l IHl r IHr]; intros [|k] H; cbn in H; try easy. destruct H as [Hl Hr].
  rewrite dsize_node, (IHl k Hl), (IHr k Hr). replace (16 + Z.of_nat (S k)) with (Z.succ (16 + Z.of_nat k)) by lia.
  rewrite Z.pow_succ_r by lia. lia.
Qed.

Lemma perfect_shaped : forall t k, perfect k t -> shaped t.
Proof.
  induction t as [bin|l IHl r IHr]; intros [|k] H; cbn in *; try easy; [unfold BinSize in *; lia|]. destruct H as [Hl Hr].
  exists k. rewrite (perfect_size r k Hr). split; [exact Hl|]. split; [eauto|lia].
Qed.

Lemma shaped_size : forall t, shaped t -> 1 <= dsize t.
Proof.
  induction t as [bin|l IHl r IHr]; intros H; [exact (proj1 H)|]. destruct H as (k & Hl & Hr & _).
  rewrite dsize_node, (perfect_size l k Hl). specialize (IHr Hr). lia.
Qed.

Lemma pair_trees_ok k : forall ts, layer_ok k ts -> layer_ok (S k) (pair_trees ts).
Proof.
  assert (2 ^ (16 + Z.of_nat (S k)) = 2 * 2 ^ (16 + Z.of_nat k)) as Hp.
  { rewrite <- Z.pow_succ_r by lia. f_equal. lia. }
  induction ts as [|t|t u ts IH] using list_pair_ind; intros H; [exact H|destruct H; split; [assumption|lia]|]. destruct H as [Ht H].
  assert (shaped u /\ dsize u <= 2 ^ (16 + Z.of_nat k)) as [Hu Hsu].
  { destruct ts as [|v ts]; [exact H|]. destruct H as [Hu _]. rewrite (perfect_size u k Hu).
    split; [exact (perfect_shaped u k Hu)|lia]. }
  cbn [pair_trees]. destruct ts as [|v ts].
  - cbn. rewrite dsize_node, (perfect_size t k Ht). split; [eauto|lia].
  - destruct H as [Hpu H]. specialize (IH H). cbn [pair_trees] in *. destruct ts as [|w ts].
    + cbn. auto.
    + split; [cbn; auto|exact IH].
Qed.

Lemma pair_trees_length : forall ts, length (pair_trees ts) = ((length ts + 1) / 2)%nat.
Proof.
  induction ts as [|t|t u ts IH] using list_pair_ind; [reflexivity..|]. cbn [pair_trees length]. rewrite IH.
  replace (S (S (length ts)) + 1)%nat with (length ts + 1 + 1 * 2)%nat by lia. rewrite Nat.div_add by lia. lia.
Qed.

Lemma pair_trees_concat : forall ts, concat (map dbytes (pair_trees ts)) = concat (map dbytes ts) /\
  concat (map dleaves (pair_trees ts)) = concat (map dleaves ts).
Proof.
  induction ts as [|t|t u ts IH] using list_pair_ind; [split; reflexivity..|]. cbn [pair_trees map concat dbytes dleaves].
  destruct IH as [-> ->]. now rewrite <- !app_assoc.
Qed.

Lemma dcount_leaves : forall t, (dcount t = 2 * length (dleaves t) - 1 /\ 1 <= length (dleaves t))%nat.
Proof. induction t as [|l IHl r IHr]; cbn; [lia|]. rewrite length_app. lia. Qed.

Section Facts.
Context {E : Env} {EL : EnvLaws E}.

(** ** What is recorded *)

Definition leaf_data (bin : list Z) : list Z := LeafByte :: Hash_Bytes (keccak256 bin).

Definition node_data (hl hr size : Z) : list Z := NodeByte :: Hash_Bytes hl ++ Hash_Bytes hr ++ be_bytes 4 size.

Fixpoint dhash (t : dtree) : Z :=
  match t with
  | DLeaf bin => keccak256 (leaf_data bin)
  | DNode l r => keccak256 (node_data (dhash l) (dhash r) (dsize (DNode l r)))
  end.

Definition place (t : dtree) : dnode := mkDnode (dhash t) (dsize t).

(** The hashes of the tree are all answered with their preimages. *)
Fixpoint known (answers : Z -> list Z -> Prop) (t : dtree) : Prop :=
  match t with
  | DLeaf bin => answers (keccak256 bin) bin /\ answers (dhash t) (leaf_data bin)
  | DNode l r =>
      answers (dhash t) (node_data (dhash l) (dhash r) (dsize t)) /\ known answers l /\ known answers r
  end.

Definition in_log (log : records) (hash : Z) (value : list Z) : Prop := (hash, value) ∈ log.

Lemma known_mono (p q : Z -> list Z -> Prop) : (forall h v, p h v -> q h v) -> forall t, known p t -> known q t.
Proof. intros H. induction t as [bin|l IHl r IHr]; cbn [known]; intuition. Qed.

Lemma known_app_l log log' t : known (in_log log) t -> known (in_log (log ++ log')) t.
Proof. apply known_mono. unfold in_log. set_solver. Qed.

Lemma Forall_known_app log log' ts : Forall (known (in_log log)) ts -> Forall (known (in_log (log ++ log'))) ts.
Proof. intros H. apply (list.Forall_impl _ _ _ H). intros t. apply known_app_l. Qed.

Lemma dhash_range t : in_u 256 (dhash t).
Proof. destruct t; apply keccak256_range. Qed.

(** ** The layers *)

Definition total (ts : list dtree) : Z := Z.of_nat (length (concat (map dbytes ts))).

Lemma pairUp_trees : forall ts log, total ts < 2 ^ 32 -> Forall (known (in_log log)) ts ->
  exists log', pairUp (map place ts) log = (map place (pair_trees ts), log ++ log') /\
    Forall (known (in_log (log ++ log'))) (pair_trees ts).
Proof.
  induction ts as [|t|t u ts IH] using list_pair_ind; intros log Ht Hk;
    [exists []; rewrite app_nil_r; auto..|].
  unfold total in Ht. cbn [map concat] in Ht. rewrite !length_app in Ht.
  inversion Hk as [|? ? Kt Hk1]; subst. inversion Hk1 as [|? ? Ku Hk2]; subst.
  cbn [map pairUp pair_trees]. cbn [place dn_hash dn_size].
  assert (uwrap 32 (dsize t + dsize u) = dsize (DNode t u)) as ->.
  { rewrite dsize_node. apply uwrap_id. unfold in_u, dsize. lia. }
  unfold keccord. rewrite ConcatByteSlices_concat. cbn [concat]. rewrite app_nil_r.
  change (NodeByte :: Hash_Bytes (dhash t) ++ Hash_Bytes (dhash u) ++ Uint32ToBytes (dsize (DNode t u)))
    with (node_data (dhash t) (dhash u) (dsize (DNode t u))).
  change (keccak256 (node_data (dhash t) (dhash u) (dsize (DNode t u)))) with (dhash (DNode t u)).
  destruct (IH (log ++ [(dhash (DNode t u), node_data (dhash t) (dhash u) (dsize (DNode t u)))])) as (log' & Hp & Hf).
  - unfold total. lia.
  - now apply Forall_known_app.
  - rewrite Hp. rewrite <- app_assoc in *. eexists. split; [reflexivity|]. constructor; [|exact Hf].
    cbn [known]. split; [unfold in_log; set_solver|]. split; now apply known_app_l.
Qed.

Lemma reduceLayers_tree : forall fuel ts k log, (length ts <= fuel)%nat -> layer_ok k ts -> total ts < 2 ^ 32 ->
  Forall (known (in_log log)) ts ->
  exists t log', reduceLayers fuel (map place ts) log = ([place t], log ++ log') /\ shaped t /\
    known (in_log (log ++ log')) t /\ dbytes t = concat (map dbytes ts) /\ dleaves t = concat (map dleaves ts).
Proof.
  induction fuel as [|fuel IH]; intros ts k log Hf Hl Ht Hk; [destruct ts; [destruct Hl|cbn in Hf; lia]|].
  cbn [reduceLayers]. rewrite length_map. destruct (Nat.ltb_spec 1 (length ts)) as [Hlen|Hlen].
  - destruct (pairUp_trees ts log Ht Hk) as (log1 & -> & Hk1). destruct (pair_trees_concat ts) as [Hb Hlv].
    destruct (IH (pair_trees ts) (S k) (log ++ log1)) as (t & log2 & Hr & Hs & Hkt & Hbt & Hlt).
    + rewrite pair_trees_length. pose proof (Nat.Div0.div_lt_upper_bound (length ts + 1) 2 (length ts)). lia.
    + now apply pair_trees_ok.
    + unfold total. now rewrite Hb.
    + exact Hk1.
    + rewrite <- app_assoc in *. exists t, (log1 ++ log2). rewrite <- Hb, <- Hlv. auto.
  - destruct ts as [|t [|u ts]]; [destruct Hl| |cbn in Hlen; lia]. exists t, []. cbn. rewrite !app_nil_r.
    inversion Hk. destruct Hl. auto.
Qed.

(** ** The bins *)

Lemma binLeaves_bins (unrolled : list Z) (len : Z) : len = Z.of_nat (length unrolled) -> len <= 2 ^ 31 ->
  forall fuel done rest leaves log, unrolled = done ++ rest -> rest <> [] ->
  Z.of_nat (length rest) <= Z.of_nat fuel * BinSize ->
  exists bins log',
    binLeaves fuel unrolled len (Z.of_nat (length done)) leaves log = Ok (leaves ++ map (fun b => place (DLeaf b)) bins, log ++ log') /\
    layer_ok 0 (map DLeaf bins) /\ concat bins = rest /\ (length bins <= fuel)%nat /\
    Forall (known (in_log (log ++ log'))) (map DLeaf bins).
Proof.
  intros Hlen Hmax. assert (BinSize = 65536) as HB by reflexivity.
  induction fuel as [|fuel IH]; intros done rest leaves log Hu Hne Hf; [destruct rest; [congruence|cbn in Hf; lia]|].
  assert (len = Z.of_nat (length done) + Z.of_nat (length rest)) as Hl by (rewrite Hlen, Hu, length_app; lia).
  assert (1 <= Z.of_nat (length rest)) as Hr by (destruct rest; [congruence|cbn; lia]).
  cbn [binLeaves]. rewrite (proj2 (Z.ltb_lt _ _)) by lia. rewrite (uwrap_id 32 (_ + BinSize)) by (unfold in_u; lia).
  assert (drop (Z.to_nat (Z.of_nat (length done))) unrolled = rest) as ->.
  { rewrite Nat2Z.id, Hu. apply drop_app_length. }
  assert (MinInt (Z.of_nat (length done) + BinSize) len = Z.of_nat (length done) + Z.min BinSize (Z.of_nat (length rest))) as ->.
  { unfold MinInt. destruct (Z.ltb_spec len (Z.of_nat (length done) + BinSize)); lia. }
  rewrite (proj2 (Z.ltb_ge _ (Z.of_nat (length done)))) by lia.
  replace (Z.of_nat (length done) + Z.min BinSize (Z.of_nat (length rest)) - Z.of_nat (length done))
    with (Z.min BinSize (Z.of_nat (length rest))) by lia.
  rewrite (uwrap_id 32 (Z.min _ _)) by (unfold in_u; lia). set (bin := take _ rest).
  assert (Z.of_nat (length bin) = Z.min BinSize (Z.of_nat (length rest))) as Hbl by (unfold bin; rewrite length_take; lia).
  rewrite <- Hbl. unfold keccord. fold (leaf_data bin).
  rewrite <- (app_assoc log). set (log1 := [(keccak256 bin, bin)] ++ [_]).
  change (mkDnode (keccak256 (leaf_data bin)) (Z.of_nat (length bin))) with (place (DLeaf bin)).
  assert (forall log', known (in_log (log ++ log1 ++ log')) (DLeaf bin)) as Hkb.
  { intros log'. unfold in_log, log1. cbn. set_solver. }
  destruct (Z.le_gt_cases (Z.of_nat (length rest)) BinSize) as [Hlast|Hmore].
  - assert (bin = rest) as Hbr by (unfold bin; rewrite firstn_all2; [reflexivity|lia]).
    exists [bin], log1. split.
    { destruct fuel; cbn [binLeaves]; [reflexivity|]. rewrite (proj2 (Z.ltb_ge _ _)) by lia. reflexivity. }
    cbn [map concat length]. rewrite app_nil_r. split; [unfold layer_ok, shaped, dsize; cbn; rewrite Hbr; lia|].
    split; [exact Hbr|]. split; [lia|]. constructor; [|constructor]. specialize (Hkb []). now rewrite app_nil_r in Hkb.
  - destruct (IH (done ++ bin) (drop (length bin) rest) (leaves ++ [place (DLeaf bin)]) (log ++ log1))
      as (bins & log' & Hb & Hlay & Hc & Hlb & Hk).
    + rewrite <- app_assoc. unfold bin at 1. replace (length bin) with (Z.to_nat (Z.min BinSize (Z.of_nat (length rest)))) by lia.
      now rewrite take_drop.
    + intros Hd. apply (f_equal (@length Z)) in Hd. rewrite length_drop in Hd. cbn in Hd. lia.
    + rewrite length_drop. lia.
    + rewrite length_app, Nat2Z.inj_add, Hbl, Z.min_l in Hb by lia. rewrite Hb. exists (bin :: bins), (log1 ++ log').
      rewrite <- !app_assoc in *. split; [reflexivity|].
      split; [destruct bins as [|b bins]; [destruct Hlay|]; split; [cbn; lia|exact Hlay]|].
      split; [|split; [cbn; lia|now constructor]]. cbn [concat]. rewrite Hc. unfold bin at 1.
      replace (length bin) with (Z.to_nat (Z.min BinSize (Z.of_nat (length rest)))) by lia. apply take_drop.
Qed.

Lemma RecordHash_tree (preimage : list Z) : preimage <> [] -> Z.of_nat (length preimage) <= 2 ^ 31 ->
  exists t log, RecordHash [preimage] = Ok (FlipBit (dhash t) 0, log) /\ shaped t /\ known (in_log log) t /\
    dbytes t = preimage /\ (length (dleaves t) <= S (Z.to_nat (Z.of_nat (length preimage) / BinSize)))%nat.
Proof.
  intros Hne Hlen. unfold RecordHash. rewrite ConcatByteSlices_concat. cbn [concat]. rewrite app_nil_r.
  destruct (Nat.eqb_spec (length preimage) 0) as [H0|_]; [destruct preimage; [congruence|discriminate]|].
  rewrite uwrap_id by (unfold in_u; lia). set (len := Z.of_nat (length preimage)) in *.
  destruct (binLeaves_bins preimage len eq_refl Hlen (S (Z.to_nat (len / BinSize))) [] preimage [] [])
    as (bins & log & Hb & Hlay & Hc & Hl & Hk); [reflexivity|exact Hne| |].
  { rewrite Nat2Z.inj_succ, Z2Nat.id by (apply Z.div_pos; unfold BinSize; lia). fold len.
    pose proof (Z.div_mod len BinSize ltac:(discriminate)). pose proof (Z.mod_pos_bound len BinSize eq_refl). lia. }
  cbn [app] in Hb. change (Z.of_nat (length [])) with 0 in Hb. rewrite Hb. cbn [obind]. rewrite length_map.
  assert (map dbytes (map DLeaf bins) = bins /\ map dleaves (map DLeaf bins) = map (fun b => [b]) bins) as [Hd Hv].
  { rewrite !map_map. split; [apply map_id|reflexivity]. }
  assert (map (fun b => place (DLeaf b)) bins = map place (map DLeaf bins)) as -> by now rewrite map_map.
  destruct (reduceLayers_tree (length bins) (map DLeaf bins) 0 log) as (t & log' & Hr & Hs & Hkt & Hbt & Hlt);
    [rewrite length_map; lia|exact Hlay|unfold total; rewrite Hd, Hc; lia|exact Hk|].
  rewrite Hr. exists t, (log ++ log'). rewrite Hbt, Hlt, Hd, Hv, Hc. repeat (split; [reflexivity || assumption|]).
  assert (length (concat (map (fun b : list Z => [b]) bins)) = length bins) as ->; [|exact Hl].
  clear. induction bins; cbn; congruence.
Qed.

(** ** Getting the preimage back *)

Section Content.
Context (oracle : Z -> outcome (list Z)).

Definition answers (hash : Z) (value : list Z) : Prop := oracle hash = Ok value.

Lemma unpeal_leaf bin : known answers (DLeaf bin) ->
  unpeal oracle (dhash (DLeaf bin)) = Ok (LeafByte, Hash_Bytes (keccak256 bin)).
Proof.
  intros [_ Hk]. unfold unpeal. rewrite Hk. cbn [obind leaf_data length].
  rewrite length_Hash_Bytes. reflexivity.
Qed.

Lemma unpeal_node l r : known answers (DNode l r) ->
  unpeal oracle (dhash (DNode l r)) =
    Ok (NodeByte, Hash_Bytes (dhash l) ++ Hash_Bytes (dhash r) ++ be_bytes 4 (dsize (DNode l r))).
Proof.
  intros [Hk _]. unfold unpeal. rewrite Hk. cbn [obind node_data length].
  rewrite !length_app, !length_Hash_Bytes, length_be_bytes. reflexivity.
Qed.

Lemma node_count (l r : dtree) : dsize (DNode l r) < 2 ^ 32 ->
  BytesToUint32 (drop 64 (Hash_Bytes (dhash l) ++ Hash_Bytes (dhash r) ++ be_bytes 4 (dsize (DNode l r)))) =
    Ok (dsize (DNode l r)).
Proof.
  intros H. rewrite app_assoc, drop_app_length' by (rewrite length_app, !length_Hash_Bytes; reflexivity).
  unfold BytesToUint32, BigEndian_read. rewrite length_be_bytes.
  cbn [Nat.leb]. rewrite take_ge by (now rewrite length_be_bytes). rewrite be_be_bytes, Z.mod_small; [reflexivity|]. split; [unfold dsize; lia|exact H].
Qed.

Definition leaf_place (bin : list Z) : dnode := mkDnode (keccak256 bin) (Z.of_nat (length bin)).

(** A subtree on the stack turns into its leaves. *)
Lemma contentStack_tree : forall t fuel stack leaves, shaped t -> dsize t <= 2 ^ 31 -> known answers t ->
  contentStack oracle (dcount t + fuel) (place t :: stack) leaves =
    contentStack oracle fuel stack (leaves ++ map leaf_place (dleaves t)).
Proof.
  induction t as [bin|l IHl r IHr]; intros fuel stack leaves Hs Hsz Hk.
  - cbn [dcount Nat.add contentStack place dn_hash dn_size]. rewrite (unpeal_leaf bin Hk). cbn [obind].
    rewrite BytesToHash_bytes by apply keccak256_range. reflexivity.
  - pose proof Hs as (k & Hp & Hr & Hle). pose proof (perfect_size l k Hp) as Hl. pose proof (shaped_size r Hr) as Hr1.
    pose proof (dsize_node l r) as Hn. assert (dsize (DNode l r) < 2 ^ 32) as H32 by lia.
    cbn [dcount Nat.add contentStack]. cbn [place dn_hash dn_size]. rewrite (unpeal_node l r Hk). cbn [obind].
    rewrite (node_count l r H32). cbn [obind]. rewrite !Z.eqb_refl.
    change (NodeByte =? LeafByte) with false. cbn [negb].
    assert (16 + Z.of_nat k < 31) as Hk31.
    { apply (Z.pow_lt_mono_r_iff 2); [lia..|]. rewrite <- Hl. lia. }
    assert (NextOrCurrentPowerOf2 (dsize (DNode l r)) = 2 ^ (16 + Z.of_nat k + 1)) as Hpow.
    { apply NextOrCurrentPowerOf2_spec; [lia|]. rewrite Z.add_1_r, Z.pow_succ_r by lia. lia. }
    assert (2 ^ (16 + Z.of_nat k + 1) = dsize l * 2) as Hpl by (rewrite Z.add_1_r, Z.pow_succ_r by lia; lia).
    rewrite Hpow, Hpl, (uwrap_id 32 (dsize l * 2)) by (unfold in_u; lia). rewrite Z.div_mul by lia.
    rewrite uwrap_id by (unfold in_u; lia).
    rewrite (take_app_length' (Hash_Bytes (dhash l))), (drop_app_length' (Hash_Bytes (dhash l))), (take_app_length' (Hash_Bytes (dhash r)))
      by (symmetry; apply length_Hash_Bytes).
    rewrite !BytesToHash_bytes by apply dhash_range. replace (dsize (DNode l r) - dsize l) with (dsize r) by lia.
    destruct Hk as (_ & Hkl & Hkr). rewrite <- Nat.add_assoc. change (mkDnode (dhash l) (dsize l)) with (place l).
    rewrite (IHl (dcount r + fuel)%nat) by (lia || eauto using perfect_shaped).
    change (mkDnode (dhash r) (dsize r)) with (place r). rewrite (IHr fuel) by (lia || auto).
    cbn [dleaves]. rewrite map_app, <- app_assoc. reflexivity.
Qed.

Lemma contentBins_tree : forall bins preimage, Forall (fun b => answers (keccak256 b) b) bins ->
  contentBins oracle (map leaf_place bins) preimage = Ok (preimage ++ concat bins).
Proof.
  induction bins as [|b bins IH]; intros preimage H; cbn [map contentBins concat]; [now rewrite app_nil_r|].
  inversion H as [|? ? Hb Hbs]; subst. cbn [leaf_place dn_hash dn_size]. unfold answers in Hb. rewrite Hb. cbn [obind].
  rewrite Z.eqb_refl. cbn [negb]. now rewrite (IH _ Hbs), app_assoc.
Qed.

Lemma known_bins : forall t, known answers t -> Forall (fun b => answers (keccak256 b) b) (dleaves t).
Proof.
  induction t as [b|l IHl r IHr]; cbn [known dleaves]; intros H; [constructor; [apply H|constructor]|].
  apply Forall_app. intuition.
Qed.

Lemma concat_dleaves : forall t, concat (dleaves t) = dbytes t.
Proof. induction t as [b|l IHl r IHr]; cbn; [apply app_nil_r|]. now rewrite concat_app, IHl, IHr. Qed.

(** A single leaf, also of a bin that is larger than the others. *)
Lemma Content_leaf fuel flat preimage : in_u 256 flat ->
  answers (keccak256 (FlatHashToTreeLeaf flat)) (FlatHashToTreeLeaf flat) -> answers flat preimage ->
  Content oracle fuel (FlatHashToTreeHash flat) = Ok preimage.
Proof.
  intros Hr Hl Hp. unfold Content, FlatHashToTreeHash. rewrite FlipBit_FlipBit. unfold unpeal, answers in *. rewrite Hl.
  cbn [obind FlatHashToTreeLeaf length]. rewrite length_Hash_Bytes. cbn [LeafByte NodeByte Z.eqb Pos.eqb Nat.eqb negb andb orb obind].
  now rewrite BytesToHash_bytes.
Qed.

End Content.

(** A preimage that fits into one bin is recorded as a leaf. *)
Lemma RecordHash_one_bin preimage : Z.of_nat (length preimage) <= BinSize ->
  exists log, RecordHash [preimage] = Ok (FlatHashToTreeHash (keccak256 preimage), log) /\
    (keccak256 preimage, preimage) ∈ log /\ (keccak256 (leaf_data preimage), leaf_data preimage) ∈ log.
Proof.
  intros Hl. destruct (decide (preimage = [])) as [->|Hne].
  { eexists. split; [reflexivity|]. cbn. split; [left|right; left]. }
  destruct (RecordHash_tree preimage Hne) as (t & log & Hr & Hs & Hk & Hb & _); [unfold BinSize in Hl; lia|].
  destruct t as [bin|l r]; [cbn in Hb; subst; eexists; split; [exact Hr|apply Hk]|].
  destruct Hs as (k & Hp & Hsr & _). pose proof (perfect_size l k Hp) as Hsl. pose proof (shaped_size r Hsr).
  pose proof (dsize_node l r) as Hn. unfold dsize at 1 in Hn. rewrite Hb in Hn.
  pose proof (Z.pow_le_mono_r 2 16 (16 + Z.of_nat k) ltac:(lia) ltac:(lia)). change (2 ^ 16) with BinSize in *. lia.
Qed.

End Facts.

Section Claims.
Context {E : Env} {EL : EnvLaws E}.

(** Hashing succeeds, and what it records is enough to get the preimage back. *)
Lemma Content_of_recorded (preimage : list Z) : Z.of_nat (length preimage) <= 2 ^ 31 ->
  exists hash log, RecordHash [preimage] = Ok (hash, log) /\
    forall (oracle : Z -> outcome (list Z)) (fuel : nat),
      (forall h v, (h, v) ∈ log -> oracle h = Ok v) ->
      2 * (Z.of_nat (length preimage) / BinSize + 1) <= Z.of_nat fuel ->
      Content oracle fuel hash = Ok preimage.
Proof.
  intros Hlen. destruct (decide (preimage = [])) as [->|Hne].
  { do 2 eexists. split; [reflexivity|]. intros oracle fuel Ho _. unfold Content. rewrite FlipBit_FlipBit.
    unfold unpeal. erewrite Ho by (cbn; right; left). cbn [obind]. rewrite length_cons, length_Hash_Bytes. cbn.
    rewrite BytesToHash_bytes by apply keccak256_range. apply Ho. cbn. left. }
  destruct (RecordHash_tree preimage Hne Hlen) as (t & log & Hr & Hs & Hk & Hb & Hl).
  exists (FlipBit (dhash t) 0), log. split; [exact Hr|]. intros oracle fuel Ho Hf.
  apply (known_mono _ (answers oracle)) in Hk; [|exact Ho].
  assert (dsize t <= 2 ^ 31) as Hsz by (unfold dsize; now rewrite Hb).
  unfold Content. rewrite FlipBit_FlipBit. destruct t as [bin|l r].
  - rewrite (unpeal_leaf oracle bin Hk). cbn [obind]. rewrite Z.eqb_refl.
    rewrite BytesToHash_bytes by apply keccak256_range. cbn in Hb. subst. apply Hk.
  - rewrite (unpeal_node oracle l r Hk). cbn [obind NodeByte LeafByte Z.eqb Pos.eqb].
    rewrite (node_count l r) by lia. cbn [obind]. change (mkDnode (dhash (DNode l r)) (dsize (DNode l r))) with (place (DNode l r)).
    pose proof (dcount_leaves (DNode l r)) as Hc.
    assert (0 <= Z.of_nat (length preimage) / BinSize) by (apply Z.div_pos; unfold BinSize; lia).
    replace fuel with (dcount (DNode l r) + (fuel - dcount (DNode l r)))%nat by lia.
    rewrite contentStack_tree by assumption. destruct (fuel - _)%nat; cbn [contentStack obind app];
      rewrite (contentBins_tree oracle _ _ (known_bins oracle _ Hk)); cbn [obind app]; rewrite concat_dleaves, Hb;
      unfold Hash; rewrite Hr; cbn [obind]; now rewrite Z.eqb_refl.
Qed.

(** C34: Hashing a preimage of at most 2^31 bytes does not fail, and whatever
    oracle answers the recorded hashes with the recorded preimages, [Content]
    ends and gets exactly the preimage back from the root: the sizes it computes
    on the way down are those of the tree, and its checks succeed. Two steps of
    the stack per bin are enough. *)
Theorem Content_RecordHash (preimage : list Z) : Z.of_nat (length preimage) <= 2 ^ 31 ->
  exists hash log, RecordHash [preimage] = Ok (hash, log) /\
    forall (oracle : Z -> outcome (list Z)) (fuel : nat),
      (forall h v, (h, v) ∈ log -> oracle h = Ok v) ->
      2 * (Z.of_nat (length preimage) / BinSize + 1) <= Z.of_nat fuel ->
      Content oracle fuel hash = Ok preimage.
Proof. apply Content_of_recorded. Qed.

End Claims.

(** ** Example *)

(** An oracle that looks answers up in what was recorded. *)
Definition log_oracle (log : records) (hash : Z) : outcome (list Z) :=
  match find (fun p => fst p =? hash) log with Some p => Ok (snd p) | None => Err (ErrNew "unknown hash") end.

Lemma Content_RecordHash_witness :
  exists hash log, RecordHash (E := TestEnv) [[1; 2; 3]] = Ok (hash, log) /\ Content (E := TestEnv) (log_oracle log) 2 hash = Ok [1; 2; 3].
Proof.
  destruct (Content_RecordHash (E := TestEnv) [1; 2; 3]) as (hash & log & Hr & H); [cbn; lia|].
  exists hash, log. split; [exact Hr|]. apply H; [|reflexivity].
  vm_compute in Hr. injection Hr as <- <-. intros h v Hv. unfold log_oracle.
  repeat (apply elem_of_cons in Hv as [[= -> ->]|Hv]; [reflexivity|]). now apply elem_of_nil in Hv.
Defined.
