(* ===== verification/Inbox.v ===== *)
(** * arbstate/inbox.go: from batches to messages

    The header bits of a batch (arbstate/das_reader.go), the parser of a batch,
    and the multiplexer that turns batches and the delayed inbox into one
    sequence of messages. The sources of batches and delayed messages are the
    class [InboxBackend]; decompression and the rlp streams of go-ethereum are
    the class [Codecs]; the providers of data are records of their methods. *)
From Stdlib Require Import ZArith Lia String List.
From stdpp Require Import base list numbers.
From S2P Require Import Prelude Arbmath Host Storage Readers L1Pricing IncomingMessage ArbosState Zeroheavy.
Open Scope Z_scope.

(** ** Header bytes *)

Definition DASMessageHeaderFlag : Z := 0x80.
Definition TreeDASMessageHeaderFlag : Z := 0x08.
Definition L1AuthenticatedMessageHeaderFlag : Z := 0x40.
Definition ZeroheavyMessageHeaderFlag : Z := 0x20.
Definition BlobHashesHeaderFlag : Z := Z.lor L1AuthenticatedMessageHeaderFlag 0x10.
Definition BrotliMessageHeaderByte : Z := 0.
Definition KnownHeaderBits : Z :=
  Z.lor DASMessageHeaderFlag (Z.lor TreeDASMessageHeaderFlag (Z.lor L1AuthenticatedMessageHeaderFlag
    (Z.lor ZeroheavyMessageHeaderFlag (Z.lor BlobHashesHeaderFlag BrotliMessageHeaderByte)))).

Definition hasBits (checking bits : Z) : bool := Z.land checking bits =? bits.

Definition IsL1AuthenticatedMessageHeaderByte (header : Z) : bool := hasBits header L1AuthenticatedMessageHeaderFlag.
Definition IsDASMessageHeaderByte (header : Z) : bool := hasBits header DASMessageHeaderFlag.
Definition IsTreeDASMessageHeaderByte (header : Z) : bool := hasBits header TreeDASMessageHeaderFlag.
Definition IsZeroheavyEncodedHeaderByte (header : Z) : bool := hasBits header ZeroheavyMessageHeaderFlag.
Definition IsBlobHashesHeaderByte (header : Z) : bool := hasBits header BlobHashesHeaderFlag.
Definition IsBrotliMessageHeaderByte (b : Z) : bool := b =? BrotliMessageHeaderByte.
Definition IsKnownHeaderByte (b : Z) : bool := Z.ldiff b KnownHeaderBits =? 0.

(** ** Interfaces *)

Record MessageWithMetadata := mkMessageWithMetadata {
  mm_Message : L1IncomingMessage;
  mm_DelayedMessagesRead : Z
}.

Class InboxBackend (B : Type) := {
  PeekSequencerInbox : B -> outcome (list Z * Z);
  GetSequencerInboxPosition : B -> Z;
  AdvanceSequencerInbox : B -> B;
  GetPositionWithinMessage : B -> Z;
  SetPositionWithinMessage : B -> Z -> B;
  ReadDelayedInbox : B -> Z -> outcome L1IncomingMessage
}.

(** arbcompress's [Decompress], and the streams of go-ethereum's rlp package:
    one of a reader with a limit, its next byte string, its next integer. Their
    errors are only logged, and are [None]. *)
Class Codecs := {
  Decompress : list Z -> Z -> option (list Z);
  Stream : Type;
  NewStream : list Z -> Z -> Stream;
  Stream_Decode : Stream -> option (list Z * Stream);
  Stream_Uint64 : Stream -> option Z
}.

(** A payload that is nil is [None]. *)
Record DataAvailabilityProvider := mkDataAvailabilityProvider {
  IsValidHeaderByte : Z -> bool;
  RecoverPayloadFromBatch : Z -> Z -> list Z -> Z -> outcome (option (list Z))
}.

Definition KeysetValidate : Z := 0.
Definition KeysetPanicIfInvalid : Z := 1.
Definition KeysetDontValidate : Z := 2.

(** ** Batches *)

Record sequencerMessage := mkSequencerMessage {
  sm_minTimestamp : Z;
  sm_maxTimestamp : Z;
  sm_minL1Block : Z;
  sm_maxL1Block : Z;
  sm_afterDelayedMessages : Z;
  sm_segments : list (list Z)
}.

Definition set_segments (m : sequencerMessage) (segments : list (list Z)) : sequencerMessage :=
  mkSequencerMessage (sm_minTimestamp m) (sm_maxTimestamp m) (sm_minL1Block m) (sm_maxL1Block m)
    (sm_afterDelayedMessages m) segments.

Definition MaxDecompressedLen : Z := 1024 * 1024 * 16.
Definition maxZeroheavyDecompressedLen : Z := 101 * MaxDecompressedLen / 100 + 64.
Definition MaxSegmentsPerSequencerMessage : Z := 100 * 1024.

Definition ErrNoBlobReader : error := ErrNew "blob batch payload was encountered but no BlobReader was configured".

(** [io.LimitReader]: at most [N] more bytes of a reader. *)
Definition LimitedReader_Read {S : Type} (Read : S -> nat -> list Z * outcome unit * S) (l : S * Z) (n : nat)
    : list Z * outcome unit * (S * Z) :=
  let '(s, N) := l in
  if N <=? 0 then ([], Err EOF, (s, N))
  else
    let n := Nat.min n (Z.to_nat N) in
    let '(bs, r, s) := Read s n in (bs, r, (s, N - Z.of_nat (length bs))).

(** [io.ReadAll] of the limited decoder, in buffers of 512 bytes; the decoder
    makes at most nine bytes of eight, so there are buffers enough. *)
Definition readZeroheavy (payload : list Z) : list Z * outcome unit :=
  ReadAll (LimitedReader_Read ZeroheavyDecoder_Read) (repeat 512%nat (S (length payload)))
    (NewZeroheavyDecoder (bytes_NewReader payload), maxZeroheavyDecompressedLen).

(** The first provider that knows the header byte; a nil provider is [None]. *)
Fixpoint findProvider (daProviders : list (option DataAvailabilityProvider)) (headerByte : Z)
    : option DataAvailabilityProvider :=
  match daProviders with
  | [] => None
  | Some provider :: daProviders =>
      if IsValidHeaderByte provider headerByte then Some provider else findProvider daProviders headerByte
  | None :: daProviders => findProvider daProviders headerByte
  end.

Section Parsing.
Context {C : Codecs}.

(** The loop over the segments of a batch. It stops at [MaxSegmentsPerSequencerMessage]
    segments, so that many rounds and one more are enough. *)
Fixpoint readSegments (fuel : nat) (stream : Stream) (segments : list (list Z)) : list (list Z) :=
  match fuel with
  | O => segments
  | S fuel =>
      match Stream_Decode stream with
      | Some (segment, stream) =>
          if MaxSegmentsPerSequencerMessage <=? Z.of_nat (length segments) then segments
          else readSegments fuel stream (segments ++ [segment])
      | None => segments
      end
  end.

(** Stages 2 and 3 of [parseSequencerMessage]: from the payload to the segments. *)
Definition parsePayload (parsedMsg : sequencerMessage) (payload : list Z) : sequencerMessage :=
  let brotli payload :=
    match payload with
    | b :: compressed =>
        if IsBrotliMessageHeaderByte b then
          match Decompress compressed MaxDecompressedLen with
          | Some decompressed =>
              set_segments parsedMsg
                (readSegments (S (Z.to_nat MaxSegmentsPerSequencerMessage)) (NewStream decompressed MaxDecompressedLen) [])
          | None => parsedMsg
          end
        else parsedMsg
    | [] => parsedMsg
    end in
  match payload with
  | b :: encoded =>
      if IsZeroheavyEncodedHeaderByte b then
        match readZeroheavy encoded with
        | (pl, Ok _) => brotli pl
        | (_, _) => parsedMsg
        end
      else brotli payload
  | [] => brotli payload
  end.

Definition parseSequencerMessage (batchNum batchBlockHash : Z) (data : list Z)
    (daProviders : list (option DataAvailabilityProvider)) (keysetValidationMode : Z) : outcome sequencerMessage :=
  if (length data <? 40)%nat then Err (ErrNew "sequencer message missing L1 header")
  else
    let u i := be (take 8 (drop i data)) in
    let parsedMsg := mkSequencerMessage (u 0%nat) (u 8%nat) (u 16%nat) (u 24%nat) (u 32%nat) [] in
    let payload := drop 40 data in
    match payload with
    | [] => Ok (parsePayload parsedMsg payload)
    | b :: _ =>
        if IsL1AuthenticatedMessageHeaderByte b && negb (IsKnownHeaderByte b)
        then Err (ErrWrap "batch has unsupported authenticated header byte" ErrFatalNodeOutOfDate)
        else
          match findProvider daProviders b with
          | Some provider =>
              let? payload := RecoverPayloadFromBatch provider batchNum batchBlockHash data keysetValidationMode in
              match payload with
              | None => Ok parsedMsg
              | Some payload => Ok (parsePayload parsedMsg payload)
              end
          | None =>
              if negb (IsDASMessageHeaderByte b) && IsBlobHashesHeaderByte b then Err ErrNoBlobReader
              else Ok (parsePayload parsedMsg payload)
          end
    end.

End Parsing.

(** ** The multiplexer *)

Definition BatchSegmentKindL2Message : Z := 0.
Definition BatchSegmentKindL2MessageBrotli : Z := 1.
Definition BatchSegmentKindDelayedMessages : Z := 2.
Definition BatchSegmentKindAdvanceTimestamp : Z := 3.
Definition BatchSegmentKindAdvanceL1BlockNumber : Z := 4.

(** Where the multiplexer is in the batch: the [cachedSegmentNum], [-Timestamp],
    [-BlockNumber] and [cachedSubMessageNumber] of the code. *)
Record segmentCursor := mkCursor {
  cur_segmentNum : nat;
  cur_timestamp : Z;
  cur_blockNumber : Z;
  cur_submessageNumber : Z
}.

Definition zero_cursor : segmentCursor := mkCursor 0 0 0 0.

Section Multiplexer.
Context {C : Codecs} {B : Type} {IB : InboxBackend B}.

(** The fields [daProviders] and [keysetValidationMode] never change. *)
Context (daProviders : list (option DataAvailabilityProvider)) (keysetValidationMode : Z).

Record inboxMultiplexer := mkInboxMultiplexer {
  mx_backend : B;
  mx_delayedMessagesRead : Z;
  mx_cachedSequencerMessage : option sequencerMessage;
  mx_cachedSequencerMessageNum : Z;
  mx_cursor : segmentCursor
}.

Definition NewInboxMultiplexer (backend : B) (delayedMessagesRead : Z) : inboxMultiplexer :=
  mkInboxMultiplexer backend delayedMessagesRead None 0 zero_cursor.

Definition advanceSequencerMsg (r : inboxMultiplexer) : inboxMultiplexer :=
  let delayedMessagesRead :=
    match mx_cachedSequencerMessage r with
    | Some m => sm_afterDelayedMessages m
    | None => mx_delayedMessagesRead r
    end in
  mkInboxMultiplexer (AdvanceSequencerInbox (SetPositionWithinMessage (mx_backend r) 0)) delayedMessagesRead None
    (mx_cachedSequencerMessageNum r) zero_cursor.

Definition advanceSubMsg (r : inboxMultiplexer) : inboxMultiplexer :=
  let prevPos := GetPositionWithinMessage (mx_backend r) in
  mkInboxMultiplexer (SetPositionWithinMessage (mx_backend r) (prevPos +u64 1)) (mx_delayedMessagesRead r)
    (mx_cachedSequencerMessage r) (mx_cachedSequencerMessageNum r) (mx_cursor r).

(** A segment that makes a message. *)
Definition isMessageSegment (segment : list Z) : bool :=
  match segment with
  | [] => false
  | kind :: _ =>
      (kind =? BatchSegmentKindL2Message) || (kind =? BatchSegmentKindL2MessageBrotli)
      || (kind =? BatchSegmentKindDelayedMessages)
  end.

Definition IsCachedSegementLast (seqMsg : sequencerMessage) (r : inboxMultiplexer) : bool :=
  if mx_delayedMessagesRead r <? sm_afterDelayedMessages seqMsg then false
  else negb (existsb isMessageSegment (drop (S (cur_segmentNum (mx_cursor r))) (sm_segments seqMsg))).

(** The loop of [getNextMsg] over [segments], those from the cursor on: it reads
    the advances and skips sub-messages up to the target. The counters grow no
    further than the number of segments and the target. *)
Fixpoint seekSubMessage (segments : list (list Z)) (targetSubMessage : Z) (c : segmentCursor) : segmentCursor :=
  match segments with
  | [] => c
  | segment :: segments =>
      let next timestamp blockNumber submessageNumber :=
        seekSubMessage segments targetSubMessage
          (mkCursor (S (cur_segmentNum c)) timestamp blockNumber submessageNumber) in
      match segment with
      | [] => next (cur_timestamp c) (cur_blockNumber c) (cur_submessageNumber c)
      | segmentKind :: rd =>
          if (segmentKind =? BatchSegmentKindAdvanceTimestamp) || (segmentKind =? BatchSegmentKindAdvanceL1BlockNumber) then
            match Stream_Uint64 (NewStream rd 16) with
            | Some advancing =>
                if segmentKind =? BatchSegmentKindAdvanceTimestamp
                then next (cur_timestamp c +u64 advancing) (cur_blockNumber c) (cur_submessageNumber c)
                else next (cur_timestamp c) (cur_blockNumber c +u64 advancing) (cur_submessageNumber c)
            | None => next (cur_timestamp c) (cur_blockNumber c) (cur_submessageNumber c)
            end
          else if cur_submessageNumber c <? targetSubMessage
          then next (cur_timestamp c) (cur_blockNumber c) (cur_submessageNumber c + 1)
          else c
      end
  end.

Definition clampToBounds (v lo hi : Z) : Z := if v <? lo then lo else if hi <? v then hi else v.

(** The message, or [None] for a parsing error. *)
Definition getNextMsg (seqMsg : sequencerMessage) (r : inboxMultiplexer)
    : outcome (option MessageWithMetadata) * inboxMultiplexer :=
  let targetSubMessage := GetPositionWithinMessage (mx_backend r) in
  let segments := sm_segments seqMsg in
  let c := seekSubMessage (drop (cur_segmentNum (mx_cursor r)) segments) targetSubMessage (mx_cursor r) in
  let after delayedMessagesRead :=
    mkInboxMultiplexer (mx_backend r) delayedMessagesRead (mx_cachedSequencerMessage r)
      (mx_cachedSequencerMessageNum r) c in
  let read := mx_delayedMessagesRead r in
  let timestamp := clampToBounds (cur_timestamp c) (sm_minTimestamp seqMsg) (sm_maxTimestamp seqMsg) in
  let blockNumber := clampToBounds (cur_blockNumber c) (sm_minL1Block seqMsg) (sm_maxL1Block seqMsg) in
  let segment := default [BatchSegmentKindDelayedMessages] (segments !! cur_segmentNum c) in
  match segment with
  | [] => (Ok None, after read)
  | kind :: segment =>
      if (kind =? BatchSegmentKindL2Message) || (kind =? BatchSegmentKindL2MessageBrotli) then
        let l2msg :=
          if kind =? BatchSegmentKindL2MessageBrotli then Decompress segment MaxL2MessageSize else Some segment in
        match l2msg with
        | Some segment =>
            let header := mkL1Header L1MessageType_L2Message BatchPosterAddress blockNumber timestamp None (Some 0) in
            (Ok (Some (mkMessageWithMetadata (mkL1IncomingMessage header segment None) read)), after read)
        | None => (Ok None, after read)
        end
      else if kind =? BatchSegmentKindDelayedMessages then
        if sm_afterDelayedMessages seqMsg <=? read then
          (Ok (Some (mkMessageWithMetadata InvalidL1Message (sm_afterDelayedMessages seqMsg))), after read)
        else
          match ReadDelayedInbox (mx_backend r) read with
          | Ok delayed => (Ok (Some (mkMessageWithMetadata delayed (read +u64 1))), after (read +u64 1))
          | Err e => (Err e, after read)
          | Panic s => (Panic s, after read)
          end
      else (Ok None, after read)
  end.

(** The head of [Pop]: the batch at the front of the inbox is parsed once. *)
Definition loadSequencerMessage (r : inboxMultiplexer) : outcome sequencerMessage * inboxMultiplexer :=
  match mx_cachedSequencerMessage r with
  | Some seqMsg => (Ok seqMsg, r)
  | None =>
      match PeekSequencerInbox (mx_backend r) with
      | Ok (bytes, batchBlockHash) =>
          let num := GetSequencerInboxPosition (mx_backend r) in
          let set cached := mkInboxMultiplexer (mx_backend r) (mx_delayedMessagesRead r) cached num (mx_cursor r) in
          match parseSequencerMessage num batchBlockHash bytes daProviders keysetValidationMode with
          | Ok seqMsg => (Ok seqMsg, set (Some seqMsg))
          | Err e => (Err e, set None)
          | Panic s => (Panic s, set None)
          end
      | Err e => (Err e, r)
      | Panic s => (Panic s, r)
      end
  end.

Definition Pop (r : inboxMultiplexer) : outcome MessageWithMetadata * inboxMultiplexer :=
  match loadSequencerMessage r with
  | (Ok seqMsg, r) =>
      let '(msg, r) := getNextMsg seqMsg r in
      let r := if IsCachedSegementLast seqMsg r then advanceSequencerMsg r else advanceSubMsg r in
      match msg with
      | Ok (Some msg) => (Ok msg, r)
      | Ok None => (Ok (mkMessageWithMetadata InvalidL1Message (mx_delayedMessagesRead r)), r)
      | Err e => (Err e, r)
      | Panic s => (Panic s, r)
      end
  | (Err e, r) => (Err e, r)
  | (Panic s, r) => (Panic s, r)
  end.

End Multiplexer.
