(* ===== verification/DasReader.v ===== *)
(** * arbstate/das_reader.go: certificates and keysets of the data availability committee

    A batch may hold a certificate in place of its data: the hash of the data
    and an aggregated signature of members of the committee, whose keys are in a
    keyset that is looked up by its hash. The modules are the certificate (with
    [Serialize] of das/das.go), the keyset, [RecoverPayloadFromDasBatch] of
    arbstate/inbox.go, and the reader of the replay binary, which gets data by
    its hash tree. What is proved: a certificate that enough members signed gives
    the payload; a payload that is returned has the hash that they signed; and
    the preimages that are recorded let the replay binary recover the same. *)
From Stdlib Require Import ZArith Lia String List.
From stdpp Require Import base list numbers sets.
From S2P Require Import Prelude Arbmath Host Storage StorageFacts MemEnv Readers Bls DasTree Inbox.
Open Scope Z_scope.

Definition MinLifetimeSecondsForDataAvailabilityCert : Z := 7 * 24 * 60 * 60.

Definition ErrHashMismatch : error := ErrNew "result does not match expected hash".

Section DasReader.
Context {E : Env} {L : BLS12381}.

(** ** Certificates *)

Record DataAvailabilityCertificate := mkCertificate {
  cert_KeysetHash : Z;
  cert_DataHash : Z;
  cert_Timeout : Z;
  cert_SignersMask : Z;
  cert_Sig : Signature;
  cert_Version : Z
}.

Definition DeserializeDASCertFrom (rd : list Z) : outcome DataAvailabilityCertificate :=
  let? (header, r) := ReadByte rd in
  if negb (IsDASMessageHeaderByte header)
  then Err (ErrNew "tried to deserialize a message that doesn't have the DAS header")
  else
    let? (keysetHash, r) := ReadFull r 32 in
    let? (dataHash, r) := ReadFull r 32 in
    let? (timeoutBuf, r) := ReadFull r 8 in
    let? (version, r) :=
      if IsTreeDASMessageHeaderByte header
      then let? (versionBuf, r) := ReadFull r 1 in Ok (be versionBuf, r)
      else Ok (0, r) in
    let? (signersMaskBuf, r) := ReadFull r 8 in
    let? (blsSignaturesBuf, r) := ReadFull r 96 in
    let? sig := SignatureFromBytes blsSignaturesBuf in
    Ok (mkCertificate (BytesToHash keysetHash) (BytesToHash dataHash) (be timeoutBuf) (be signersMaskBuf) sig version).

Definition SerializeSignableFields (c : DataAvailabilityCertificate) : list Z :=
  Hash_Bytes (cert_DataHash c) ++ be_bytes 8 (cert_Timeout c) ++
  (if cert_Version c =? 0 then [] else [cert_Version c]).

Definition das_Serialize (c : DataAvailabilityCertificate) : list Z :=
  let flags := DASMessageHeaderFlag in
  let flags := if cert_Version c =? 0 then flags else Z.lor flags TreeDASMessageHeaderFlag in
  [flags] ++ Hash_Bytes (cert_KeysetHash c) ++ SerializeSignableFields c ++ be_bytes 8 (cert_SignersMask c) ++
  SignatureToBytes (cert_Sig c).

(** ** Keysets *)

Record DataAvailabilityKeyset := mkKeyset { ks_AssumedHonest : Z; ks_PubKeys : list PublicKey }.

Fixpoint Keyset_Serialize_loop (pubKeys : list PublicKey) (wr : list Z) : outcome (list Z) :=
  match pubKeys with
  | [] => Ok wr
  | pk :: pubKeys =>
      let? pkBuf := PublicKeyToBytes pk in
      let len := Z.of_nat (length pkBuf) in
      let buf := [uwrap 8 (len / 256); len mod 256] in
      Keyset_Serialize_loop pubKeys (wr ++ buf ++ pkBuf)
  end.

Definition Keyset_Serialize (keyset : DataAvailabilityKeyset) (wr : list Z) : outcome (list Z) :=
  let wr := Uint64ToWriter (ks_AssumedHonest keyset) wr in
  let wr := Uint64ToWriter (Z.of_nat (length (ks_PubKeys keyset))) wr in
  Keyset_Serialize_loop (ks_PubKeys keyset) wr.

Definition Keyset_Hash (keyset : DataAvailabilityKeyset) : outcome Z :=
  let? wr := Keyset_Serialize keyset [] in
  if BinSize <? Z.of_nat (length wr) then Err (ErrNew "keyset too large") else Hash [wr].

Fixpoint DeserializeKeyset_loop (numKeys : nat) (rd : list Z) (assumeKeysetValid : bool) (pubkeys : list PublicKey)
    : outcome (list PublicKey) :=
  match numKeys with
  | O => Ok pubkeys
  | S numKeys =>
      let? (buf2, rd) := ReadFull rd 2 in
      let? (buf, rd) := ReadFull rd (Z.to_nat (be buf2)) in
      let? pk := PublicKeyFromBytes buf assumeKeysetValid in
      DeserializeKeyset_loop numKeys rd assumeKeysetValid (pubkeys ++ [pk])
  end.

Definition DeserializeKeyset (rd : list Z) (assumeKeysetValid : bool) : outcome DataAvailabilityKeyset :=
  let? (assumedHonest, rd) := Uint64FromReader rd in
  let? (numKeys, rd) := Uint64FromReader rd in
  if 64 <? numKeys then Err (ErrNew "too many keys in serialized DataAvailabilityKeyset")
  else
    let? pubkeys := DeserializeKeyset_loop (Z.to_nat numKeys) rd assumeKeysetValid [] in
    Ok (mkKeyset assumedHonest pubkeys).

(** The loop over the keys from the [i]-th on: who signed, and how many did not. *)
Fixpoint VerifySignature_loop (pubKeys : list PublicKey) (i : Z) (signersMask : Z) (signers : list PublicKey)
    (numNonSigners : Z) : list PublicKey * Z :=
  match pubKeys with
  | [] => (signers, numNonSigners)
  | pk :: pubKeys =>
      if negb (Z.land (u64 (Z.shiftl 1 i)) signersMask =? 0)
      then VerifySignature_loop pubKeys (i + 1) signersMask (signers ++ [pk]) numNonSigners
      else VerifySignature_loop pubKeys (i + 1) signersMask signers (numNonSigners +u64 1)
  end.

Definition Keyset_VerifySignature (keyset : DataAvailabilityKeyset) (signersMask : Z) (data : list Z) (sig : Signature)
    : outcome unit :=
  let '(pubkeys, numNonSigners) := VerifySignature_loop (ks_PubKeys keyset) 0 signersMask [] 0 in
  if ks_AssumedHonest keyset <=? numNonSigners then Err (ErrNew "not enough signers")
  else
    let? success := VerifySignature sig data (AggregatePublicKeys pubkeys) in
    if negb success then Err (ErrNew "bad signature") else Ok tt.

Definition RecoverKeyset (c : DataAvailabilityCertificate) (GetByHash : Z -> outcome (list Z)) (assumeKeysetValid : bool)
    : outcome DataAvailabilityKeyset :=
  let? keysetBytes := GetByHash (cert_KeysetHash c) in
  let? valid := ValidHash (cert_KeysetHash c) keysetBytes in
  if negb valid then Err (ErrNew "keyset hash does not match cert")
  else DeserializeKeyset keysetBytes assumeKeysetValid.

(** ** Payloads *)

Definition getByHash (GetByHash : Z -> outcome (list Z)) (version hash : Z) : outcome (list Z) :=
  let newHash := if version =? 0 then FlatHashToTreeHash hash else hash in
  let? preimage :=
    match GetByHash newHash with
    | Err e => if negb (hash =? newHash) then GetByHash hash else Err e
    | r => r
    end in
  let? mismatch :=
    if version =? 0 then Ok (negb (keccak256 preimage =? hash))
    else if version =? 1 then let? h := Hash [preimage] in Ok (negb (h =? hash))
    else Ok false in
  if mismatch then Err ErrHashMismatch else Ok preimage.

(** [log] are the preimages that were recorded so far, [None] when there is no
    map to record them in. *)
Definition record_tree (log : option records) (preimage : list Z) : outcome (option records) :=
  match log with
  | None => Ok None
  | Some log => let? (hash, new) := RecordHash [preimage] in Ok (Some (log ++ new))
  end.

Definition RecoverPayloadFromDasBatch (sequencerMsg : list Z) (GetByHash : Z -> outcome (list Z))
    (preimages : option records) (keysetValidationMode : Z) : outcome (option (list Z)) * option records :=
  if (length sequencerMsg <? 40)%nat then (Panic "slice bounds out of range", preimages)
  else
    match DeserializeDASCertFrom (drop 40 sequencerMsg) with
    | Err _ => (Ok None, preimages)
    | Panic s => (Panic s, preimages)
    | Ok cert =>
        let version := cert_Version cert in
        if 2 <=? version then (Ok None, preimages)
        else
          let^ (keysetPreimage, preimages) := (getByHash GetByHash version (cert_KeysetHash cert), preimages) in
          let^ (log, preimages) := (record_tree preimages keysetPreimage, preimages) in
          let preimages := log in
          match DeserializeKeyset keysetPreimage (keysetValidationMode =? KeysetDontValidate) with
          | Err _ =>
              (if keysetValidationMode =? KeysetPanicIfInvalid then Panic "Couldn't deserialize keyset" else Ok None, preimages)
          | Panic s => (Panic s, preimages)
          | Ok keyset =>
              match Keyset_VerifySignature keyset (cert_SignersMask cert) (SerializeSignableFields cert) (cert_Sig cert) with
              | Err _ => (Ok None, preimages)
              | Panic s => (Panic s, preimages)
              | Ok _ =>
                  let maxTimestamp := be (take 8 (drop 8 sequencerMsg)) in
                  if cert_Timeout cert <? maxTimestamp +u64 MinLifetimeSecondsForDataAvailabilityCert
                  then (Ok None, preimages)
                  else
                    let dataHash := cert_DataHash cert in
                    let^ (payload, preimages) := (getByHash GetByHash version dataHash, preimages) in
                    match preimages with
                    | None => (Ok (Some payload), None)
                    | Some log =>
                        if version =? 0 then
                          let treeLeaf := FlatHashToTreeLeaf dataHash in
                          (Ok (Some payload), Some (log ++ [(dataHash, payload); (keccak256 treeLeaf, treeLeaf)]))
                        else
                          let^ (log, preimages) := (record_tree preimages payload, preimages) in
                          (Ok (Some payload), log)
                    end
              end
          end
    end.

(** ** The providers *)

Definition NewDAProviderDAS (GetByHash : Z -> outcome (list Z)) : DataAvailabilityProvider :=
  mkDataAvailabilityProvider IsDASMessageHeaderByte
    (fun batchNum batchBlockHash sequencerMsg keysetValidationMode =>
       fst (RecoverPayloadFromDasBatch sequencerMsg GetByHash None keysetValidationMode)).

(** Steps enough for every preimage that can be hashed. *)
Definition contentFuel : nat := Z.to_nat (2 * (2 ^ 31 / BinSize + 1)).

Definition PreimageDASReader_GetByHash (ResolveKeccakPreimage : Z -> outcome (list Z)) (hash : Z) : outcome (list Z) :=
  Content ResolveKeccakPreimage contentFuel hash.

End DasReader.

Section Facts.
Context {E : Env} {EL : EnvLaws E} {L : BLS12381} {LL : BLS12381Laws L}.

(** ** Encodings *)

Lemma ReadFull_app b rest n : length b = n -> ReadFull (b ++ rest) n = Ok (b, rest).
Proof. intros <-. apply (ReadFull_reads b). Qed.

Lemma be_be_bytes_u n v : in_u (8 * Z.of_nat n) v -> be (be_bytes n v) = v.
Proof.
  intros Hv. rewrite be_be_bytes. apply Z.mod_small. change 256 with (2 ^ 8). now rewrite <- Z.pow_mul_r by lia.
Qed.

Record cert_ok (c : DataAvailabilityCertificate) : Prop := {
  ck_KeysetHash : in_u 256 (cert_KeysetHash c);
  ck_DataHash : in_u 256 (cert_DataHash c);
  ck_Timeout : in_u 64 (cert_Timeout c);
  ck_SignersMask : in_u 64 (cert_SignersMask c);
  ck_Sig : inG1 (cert_Sig c)
}.

Lemma DeserializeDASCertFrom_Serialize c : cert_ok c -> DeserializeDASCertFrom (das_Serialize c) = Ok c.
Proof.
  intros [H1 H2 H3 H4 H5]. rewrite <- (app_nil_r (das_Serialize c)). unfold das_Serialize, SerializeSignableFields, DeserializeDASCertFrom.
  rewrite <- !app_assoc. cbn [app ReadByte obind].
  assert (Hsig : ReadFull (SignatureToBytes (cert_Sig c) ++ []) 96 = Ok (SignatureToBytes (cert_Sig c), [])).
  { apply ReadFull_app, g1_ToBytes_length, H5. }
  assert (Hmask : ReadFull (be_bytes 8 (cert_SignersMask c) ++ SignatureToBytes (cert_Sig c) ++ []) 8 =
    Ok (be_bytes 8 (cert_SignersMask c), SignatureToBytes (cert_Sig c) ++ [])) by apply ReadFull_app, length_be_bytes.
  destruct (Z.eqb_spec (cert_Version c) 0) as [Hv|Hv].
  - cbn [app]. change (IsDASMessageHeaderByte DASMessageHeaderFlag) with true. change (IsTreeDASMessageHeaderByte DASMessageHeaderFlag) with false.
    cbn [negb]. rewrite !(ReadFull_app (Hash_Bytes _)) by apply length_Hash_Bytes. cbn [obind].
    rewrite !(ReadFull_app (Hash_Bytes _)) by apply length_Hash_Bytes. cbn [obind].
    rewrite (ReadFull_app (be_bytes 8 (cert_Timeout c))) by apply length_be_bytes. cbn [obind]. rewrite Hmask. cbn [obind]. rewrite Hsig. cbn [obind].
    unfold SignatureFromBytes, SignatureToBytes. rewrite (g1_FromBytes_ToBytes _ H5). cbn [obind].
    rewrite !BytesToHash_bytes, !be_be_bytes_u, <- Hv by assumption. now destruct c.
  - cbn [app]. change (IsDASMessageHeaderByte (Z.lor DASMessageHeaderFlag TreeDASMessageHeaderFlag)) with true.
    change (IsTreeDASMessageHeaderByte (Z.lor DASMessageHeaderFlag TreeDASMessageHeaderFlag)) with true.
    cbn [negb]. rewrite !(ReadFull_app (Hash_Bytes _)) by apply length_Hash_Bytes. cbn [obind].
    rewrite !(ReadFull_app (Hash_Bytes _)) by apply length_Hash_Bytes. cbn [obind].
    rewrite (ReadFull_app (be_bytes 8 (cert_Timeout c))) by apply length_be_bytes. cbn [obind].
    change (cert_Version c :: ?l) with ([cert_Version c] ++ l). rewrite (ReadFull_app [cert_Version c]) by reflexivity. cbn [obind].
    rewrite Hmask. cbn [obind]. rewrite Hsig. cbn [obind].
    unfold SignatureFromBytes, SignatureToBytes. rewrite (g1_FromBytes_ToBytes _ H5). cbn [obind].
    rewrite !BytesToHash_bytes, !be_be_bytes_u by assumption. now destruct c.
Qed.

Lemma Keyset_loops trusted : forall pks wr, Forall (fun pk => key_ok pk trusted) pks -> exists b,
  Keyset_Serialize_loop pks wr = Ok (wr ++ b) /\ Z.of_nat (length b) <= 291 * Z.of_nat (length pks) /\
  forall rest acc, DeserializeKeyset_loop (length pks) (b ++ rest) trusted acc = Ok (acc ++ pks).
Proof.
  induction pks as [|pk pks IH]; intros wr Hk.
  { exists []. cbn. rewrite app_nil_r. split; [reflexivity|]. split; [lia|]. intros rest acc. now rewrite app_nil_r. }
  inversion Hk as [|? ? Hpk Hpks]; subst. cbn [Keyset_Serialize_loop]. destruct (PublicKeyToBytes_ok pk trusted Hpk) as (b & -> & Hl & _ & Hr).
  cbn [obind]. set (len := Z.of_nat (length b)) in *. assert (0 <= len / 256 < 256 /\ 0 <= len mod 256 < 256) as [Hd Hm].
  { split; [split; [apply Z.div_pos; lia|apply Z.div_lt_upper_bound; lia]|apply Z.mod_pos_bound; lia]. }
  rewrite (uwrap_id 8) by exact Hd. set (buf := [len / 256; len mod 256]).
  destruct (IH (wr ++ buf ++ b) Hpks) as (b' & -> & Hl' & Hr'). exists (buf ++ b ++ b'). rewrite <- !app_assoc. split; [reflexivity|].
  split; [rewrite !length_app; cbn [length buf]; lia|]. intros rest acc. rewrite <- !app_assoc. cbn [length DeserializeKeyset_loop].
  rewrite (ReadFull_app buf) by reflexivity. cbn [obind].
  assert (Z.to_nat (be buf) = length b) as ->.
  { unfold buf. rewrite <- (Nat2Z.id (length b)). fold len. f_equal. cbn. pose proof (Z.div_mod len 256). lia. }
  rewrite (ReadFull_app b) by reflexivity. cbn [obind]. rewrite Hr. cbn [obind]. rewrite Hr', <- app_assoc. reflexivity.
Qed.

(** A keyset is read back, whatever follows it, and is hashed as one bin. *)
Lemma Keyset_Serialize_ok ks trusted : in_u 64 (ks_AssumedHonest ks) -> (length (ks_PubKeys ks) <= 64)%nat ->
  Forall (fun pk => key_ok pk trusted) (ks_PubKeys ks) -> exists b,
  Keyset_Serialize ks [] = Ok b /\ Z.of_nat (length b) <= BinSize /\ Keyset_Hash ks = Hash [b] /\
  forall rest, DeserializeKeyset (b ++ rest) trusted = Ok ks.
Proof.
  intros Hh Hn Hk. unfold Keyset_Hash, Keyset_Serialize, Uint64ToWriter. cbn [app].
  destruct (Keyset_loops trusted _ (be_bytes 8 (ks_AssumedHonest ks) ++ be_bytes 8 (Z.of_nat (length (ks_PubKeys ks)))) Hk)
    as (b & -> & Hl & Hr). cbn [obind]. eexists. split; [reflexivity|].
  assert (Z.of_nat (length ((be_bytes 8 (ks_AssumedHonest ks) ++ be_bytes 8 (Z.of_nat (length (ks_PubKeys ks)))) ++ b)) <= BinSize) as Hsz.
  { rewrite !length_app, !length_be_bytes. unfold BinSize. lia. }
  split; [exact Hsz|]. split; [now rewrite (proj2 (Z.ltb_ge _ _) Hsz)|]. intros rest. rewrite <- !app_assoc. unfold DeserializeKeyset.
  rewrite Uint64FromReader_bytes by exact Hh. cbn [obind]. rewrite Uint64FromReader_bytes by (unfold in_u; lia). cbn [obind].
  rewrite (proj2 (Z.ltb_ge _ _)) by lia. rewrite Nat2Z.id, Hr. now destruct ks.
Qed.

(** ** Signers *)

Definition signed (i mask : Z) : bool := negb (Z.land (u64 (Z.shiftl 1 i)) mask =? 0).

(** The elements from the [i]-th on whose bit is set. *)
Fixpoint selected {A} (l : list A) (i mask : Z) : list A :=
  match l with
  | [] => []
  | x :: l => if signed i mask then x :: selected l (i + 1) mask else selected l (i + 1) mask
  end.

Lemma selected_length {A} (l : list A) mask : forall i, (length (selected l i mask) <= length l)%nat.
Proof. induction l as [|x l IH]; intros i; cbn; [lia|]. specialize (IH (i + 1)). destruct (signed i mask); cbn; lia. Qed.

Lemma selected_Forall2 {A B} (P : A -> B -> Prop) mask : forall l l' i, Forall2 P l l' ->
  Forall2 P (selected l i mask) (selected l' i mask).
Proof.
  induction l as [|x l IH]; intros l' i H; inversion H; subst; cbn; [constructor|]. destruct (signed i mask); auto.
Qed.

Lemma VerifySignature_loop_spec mask : forall pks i acc n, 0 <= n -> n + Z.of_nat (length pks) < 2 ^ 64 ->
  VerifySignature_loop pks i mask acc n =
    (acc ++ selected pks i mask, n + (Z.of_nat (length pks) - Z.of_nat (length (selected pks i mask)))).
Proof.
  induction pks as [|pk pks IH]; intros i acc n Hn Hl; cbn [VerifySignature_loop selected length] in *.
  { rewrite app_nil_r. f_equal. lia. }
  fold (signed i mask). destruct (signed i mask); cbn [length].
  - rewrite IH by lia. rewrite <- app_assoc. f_equal. lia.
  - rewrite (uwrap_id 64) by (unfold in_u; lia). rewrite IH by lia. f_equal. pose proof (selected_length pks mask (i + 1)). lia.
Qed.

(** The number of members that did not sign. *)
Definition nonSigners {A} (l : list A) (mask : Z) : Z := Z.of_nat (length l) - Z.of_nat (length (selected l 0 mask)).

Lemma Keyset_VerifySignature_spec ks mask data sig : Z.of_nat (length (ks_PubKeys ks)) < 2 ^ 64 ->
  Keyset_VerifySignature ks mask data sig = Ok tt <->
  nonSigners (ks_PubKeys ks) mask < ks_AssumedHonest ks /\
  VerifyAggregatedSignatureSameMessage sig data (selected (ks_PubKeys ks) 0 mask) = Ok true.
Proof.
  intros Hl. unfold Keyset_VerifySignature, VerifyAggregatedSignatureSameMessage. rewrite VerifySignature_loop_spec by lia.
  cbn [app]. fold (nonSigners (ks_PubKeys ks) mask). rewrite Z.add_0_l.
  destruct (Z.leb_spec (ks_AssumedHonest ks) (nonSigners (ks_PubKeys ks) mask)); [split; [discriminate|lia]|].
  destruct (VerifySignature _ _ _) as [[]|e|s]; cbn; split; try discriminate; intuition; discriminate.
Qed.

Lemma DeserializeKeyset_loop_length trusted : forall n rd acc pks, DeserializeKeyset_loop n rd trusted acc = Ok pks ->
  length pks = (length acc + n)%nat.
Proof.
  induction n as [|n IH]; intros rd acc pks H; cbn in H; [injection H as <-; lia|].
  destruct (ReadFull rd 2) as [[buf2 rd2]| |]; [|discriminate..]. cbn [obind] in H.
  destruct (ReadFull rd2 _) as [[buf rd3]| |]; [|discriminate..]. cbn [obind] in H.
  destruct (PublicKeyFromBytes buf trusted) as [pk| |]; [|discriminate..]. cbn [obind] in H.
  apply IH in H. rewrite length_app in H. cbn in H. lia.
Qed.

Lemma DeserializeKeyset_length rd trusted ks : DeserializeKeyset rd trusted = Ok ks -> (length (ks_PubKeys ks) <= 64)%nat.
Proof.
  unfold DeserializeKeyset. destruct (Uint64FromReader rd) as [[h rd1]| |]; [|discriminate..]. cbn [obind].
  destruct (Uint64FromReader rd1) as [[n rd2]| |]; [|discriminate..]. cbn [obind].
  destruct (Z.ltb_spec 64 n); [discriminate|]. destruct (DeserializeKeyset_loop _ _ _ _) as [pks| |] eqn:Hp; [|discriminate..].
  intros [= <-]. apply DeserializeKeyset_loop_length in Hp. cbn in *. lia.
Qed.

(** A keyset that passes the checks of its keys is read the same without them. *)
Lemma DeserializeKeyset_loop_trusted : forall n rd acc pks, DeserializeKeyset_loop n rd false acc = Ok pks ->
  DeserializeKeyset_loop n rd true acc = Ok pks.
Proof.
  induction n as [|n IH]; intros rd acc pks H; cbn in *; [exact H|].
  destruct (ReadFull rd 2) as [[buf2 rd2]| |]; [|discriminate..]. cbn [obind] in *.
  destruct (ReadFull rd2 _) as [[buf rd3]| |]; [|discriminate..]. cbn [obind] in *.
  destruct (PublicKeyFromBytes buf false) as [pk| |] eqn:Hpk; [|discriminate..]. cbn [obind] in H.
  rewrite (PublicKeyFromBytes_trusted buf pk Hpk). cbn [obind]. auto.
Qed.

Lemma DeserializeKeyset_trusted rd ks trusted : DeserializeKeyset rd false = Ok ks -> DeserializeKeyset rd trusted = Ok ks.
Proof.
  destruct trusted; [|auto]. unfold DeserializeKeyset. destruct (Uint64FromReader rd) as [[h rd1]| |]; [|discriminate..]. cbn [obind].
  destruct (Uint64FromReader rd1) as [[n rd2]| |]; [|discriminate..]. cbn [obind]. destruct (64 <? n); [discriminate|].
  destruct (DeserializeKeyset_loop _ _ false _) as [pks| |] eqn:Hp; [|discriminate..].
  now rewrite (DeserializeKeyset_loop_trusted _ _ _ _ Hp).
Qed.

(** ** Recovery *)

(** The hash of a preimage, by the version of the certificate. *)
Definition names (version hash : Z) (preimage : list Z) : Prop :=
  (version = 0 /\ keccak256 preimage = hash) \/ (version = 1 /\ Hash [preimage] = Ok hash).

Lemma getByHash_names GetByHash version hash preimage : 0 <= version <= 1 ->
  getByHash GetByHash version hash = Ok preimage -> names version hash preimage.
Proof.
  intros Hv. unfold getByHash, names. destruct (match GetByHash _ with Err _ => _ | _ => _ end) as [p| |]; [|discriminate..]. cbn [obind].
  destruct (Z.eqb_spec version 0) as [H0|H0]; [cbn [obind]; destruct (Z.eqb_spec (keccak256 p) hash)|].
  - intros [= <-]. auto.
  - discriminate.
  - rewrite (proj2 (Z.eqb_eq version 1)) by lia. destruct (Hash [p]) as [h| |] eqn:Hh; [|discriminate..]. cbn [obind].
    destruct (Z.eqb_spec h hash); [|discriminate]. intros [= <-]. right. split; [lia|]. congruence.
Qed.

(** A reader that has the preimage gives it. *)
Lemma getByHash_serves GetByHash version hash preimage : names version hash preimage ->
  GetByHash (if version =? 0 then FlatHashToTreeHash hash else hash) = Ok preimage ->
  getByHash GetByHash version hash = Ok preimage.
Proof.
  intros Hn Hg. unfold getByHash. rewrite Hg. cbn [obind]. destruct Hn as [[-> Hh]|[-> Hh]]; cbn [Z.eqb].
  - rewrite Hh, Z.eqb_refl. reflexivity.
  - change (1 =? 1) with true. cbv iota. rewrite Hh. cbn [obind]. now rewrite Z.eqb_refl.
Qed.

(** What is recorded of a payload. *)
Definition record_payload (version : Z) (log : option records) (hash : Z) (payload : list Z) : outcome (option records) :=
  match log with
  | None => Ok None
  | Some l =>
      if version =? 0 then
        Ok (Some (l ++ [(hash, payload); (keccak256 (FlatHashToTreeLeaf hash), FlatHashToTreeLeaf hash)]))
      else record_tree log payload
  end.

(** The run that returns a payload. *)
Record recovery (msg : list Z) (GetByHash : Z -> outcome (list Z)) (log : option records) (mode : Z)
    (cert : DataAvailabilityCertificate) (ksBytes : list Z) (ks : DataAvailabilityKeyset) (payload : list Z)
    (log' log'' : option records) : Prop := {
  rc_length : (40 <= length msg)%nat;
  rc_cert : DeserializeDASCertFrom (drop 40 msg) = Ok cert;
  rc_version : cert_Version cert < 2;
  rc_keyset : getByHash GetByHash (cert_Version cert) (cert_KeysetHash cert) = Ok ksBytes;
  rc_log : record_tree log ksBytes = Ok log';
  rc_read : DeserializeKeyset ksBytes (mode =? KeysetDontValidate) = Ok ks;
  rc_signed : Keyset_VerifySignature ks (cert_SignersMask cert) (SerializeSignableFields cert) (cert_Sig cert) = Ok tt;
  rc_time : be (take 8 (drop 8 msg)) +u64 MinLifetimeSecondsForDataAvailabilityCert <= cert_Timeout cert;
  rc_payload : getByHash GetByHash (cert_Version cert) (cert_DataHash cert) = Ok payload;
  rc_log' : record_payload (cert_Version cert) log' (cert_DataHash cert) payload = Ok log''
}.

Lemma recovery_runs msg GetByHash log mode cert ksBytes ks payload log' log'' :
  recovery msg GetByHash log mode cert ksBytes ks payload log' log'' ->
  RecoverPayloadFromDasBatch msg GetByHash log mode = (Ok (Some payload), log'').
Proof.
  intros [H1 H2 H3 H4 H5 H6 H7 H8 H9 H10]. unfold RecoverPayloadFromDasBatch.
  rewrite (proj2 (Nat.ltb_ge _ _) H1), H2. rewrite (proj2 (Z.leb_gt _ _)) by lia. rewrite H4, H5, H6, H7.
  rewrite (proj2 (Z.ltb_ge _ _) H8), H9. unfold record_payload in H10. destruct log' as [l|]; [|now injection H10 as <-].
  destruct (_ =? 0); [now injection H10 as <-|]. now rewrite H10.
Qed.

Lemma recovery_inv msg GetByHash log mode payload log'' :
  RecoverPayloadFromDasBatch msg GetByHash log mode = (Ok (Some payload), log'') ->
  exists cert ksBytes ks log', recovery msg GetByHash log mode cert ksBytes ks payload log' log''.
Proof.
  unfold RecoverPayloadFromDasBatch. destruct (Nat.ltb_spec (length msg) 40) as [|H1]; [discriminate|].
  destruct (DeserializeDASCertFrom _) as [cert| |] eqn:H2; [|discriminate..].
  destruct (Z.leb_spec 2 (cert_Version cert)) as [|H3]; [discriminate|].
  destruct (getByHash _ _ (cert_KeysetHash cert)) as [ksBytes| |] eqn:H4; [|discriminate..].
  destruct (record_tree log ksBytes) as [log'| |] eqn:H5; [|discriminate..].
  destruct (DeserializeKeyset _ _) as [ks| |] eqn:H6; [|destruct (_ =? KeysetPanicIfInvalid); discriminate|discriminate].
  destruct (Keyset_VerifySignature _ _ _ _) as [[]| |] eqn:H7; [|discriminate..].
  destruct (Z.ltb_spec (cert_Timeout cert) (be (take 8 (drop 8 msg)) +u64 MinLifetimeSecondsForDataAvailabilityCert)) as [|H8]; [discriminate|].
  destruct (getByHash _ _ (cert_DataHash cert)) as [p| |] eqn:H9; [|discriminate..]. intros H.
  exists cert, ksBytes, ks, log'. assert (p = payload /\ record_payload (cert_Version cert) log' (cert_DataHash cert) p = Ok log'') as [<- H10].
  { unfold record_payload. destruct log' as [l|]; [|now injection H as -> <-].
    destruct (cert_Version cert =? 0); [now injection H as -> <-|].
    destruct (record_tree (Some l) p) as [l'| |]; [|discriminate..]. now injection H as -> <-. }
  now constructor.
Qed.

(** ** What the replay binary recovers *)

(** The pairs that recovery by the version of a certificate needs. *)
Definition recorded_for (version hash : Z) (preimage : list Z) (log : records) : Prop :=
  if version =? 0 then (hash, preimage) ∈ log /\ (keccak256 (FlatHashToTreeLeaf hash), FlatHashToTreeLeaf hash) ∈ log
  else exists h new, RecordHash [preimage] = Ok (h, new) /\ new ⊆ log.

Lemma getByHash_replay Resolve version hash preimage log : names version hash preimage ->
  Z.of_nat (length preimage) <= 2 ^ 31 -> recorded_for version hash preimage log ->
  (forall h v, (h, v) ∈ log -> Resolve h = Ok v) ->
  getByHash (PreimageDASReader_GetByHash Resolve) version hash = Ok preimage.
Proof.
  intros Hn Hl Hr Ho. apply getByHash_serves; [exact Hn|]. unfold PreimageDASReader_GetByHash, recorded_for in *.
  destruct Hn as [[-> Hh]|[-> Hh]]; cbn [Z.eqb] in *.
  - destruct Hr as [Hp Hlf]. apply Content_leaf; [rewrite <- Hh; apply keccak256_range|now apply Ho..].
  - destruct Hr as (h & new & Hr & Hin). unfold Hash in Hh. rewrite Hr in Hh. injection Hh as ->.
    destruct (Content_of_recorded preimage Hl) as (h' & log' & Hr' & Hc). rewrite Hr in Hr'. injection Hr' as <- <-.
    apply Hc; [set_solver|]. unfold contentFuel. rewrite Z2Nat.id by (vm_compute; discriminate).
    pose proof (Z.div_le_mono (Z.of_nat (length preimage)) (2 ^ 31) BinSize ltac:(reflexivity) Hl). lia.
Qed.

Lemma record_tree_for version hash preimage log log' : names version hash preimage ->
  (version = 0 -> Z.of_nat (length preimage) <= BinSize) ->
  record_tree (Some log) preimage = Ok (Some log') -> recorded_for version hash preimage log' /\ log ⊆ log'.
Proof.
  intros Hn Hb. unfold record_tree. destruct (RecordHash [preimage]) as [[h new]| |] eqn:Hr; [|discriminate..]. intros [= <-].
  split; [|set_solver]. unfold recorded_for. destruct Hn as [[-> Hh]|[-> Hh]]; cbn [Z.eqb].
  - destruct (RecordHash_one_bin preimage (Hb eq_refl)) as (log' & Hr' & H1 & H2). rewrite Hr in Hr'. injection Hr' as _ <-.
    rewrite Hh in *. unfold leaf_data in H2. rewrite Hh in H2. unfold FlatHashToTreeLeaf. set_solver.
  - exists h, new. split; [exact Hr|set_solver].
Qed.

Lemma record_payload_for version hash payload log log' : names version hash payload ->
  record_payload version (Some log) hash payload = Ok (Some log') -> recorded_for version hash payload log' /\ log ⊆ log'.
Proof.
  intros Hn. unfold record_payload. destruct (Z.eqb_spec version 0) as [H0|H0].
  - intros [= <-]. unfold recorded_for. rewrite H0. cbn [Z.eqb]. split; [|set_solver]. set_solver.
  - apply record_tree_for; [exact Hn|]. congruence.
Qed.

Lemma recorded_for_mono version hash preimage log log' : log ⊆ log' ->
  recorded_for version hash preimage log -> recorded_for version hash preimage log'.
Proof. unfold recorded_for. intros H. destruct (version =? 0); [set_solver|]. intros (h & new & Hr & Hn). exists h, new. set_solver. Qed.

Lemma ReadFull_bytes rd n b r : Forall is_byte rd -> ReadFull rd n = Ok (b, r) -> Forall is_byte b /\ Forall is_byte r.
Proof.
  unfold ReadFull. intros H. destruct (_ <? n)%nat; [destruct rd; discriminate|]. intros [= <- <-].
  split; [now apply Forall_take|now apply Forall_drop].
Qed.

Lemma DeserializeDASCertFrom_version rd cert : Forall is_byte rd -> DeserializeDASCertFrom rd = Ok cert -> 0 <= cert_Version cert.
Proof.
  intros H. unfold DeserializeDASCertFrom, ReadByte. destruct rd as [|header r]; [discriminate|]. cbn [obind].
  inversion H as [|? ? _ Hr]; subst. destruct (negb _); [discriminate|].
  destruct (ReadFull r 32) as [[b1 r1]| |] eqn:H1; [|discriminate..]. cbn [obind]. apply (ReadFull_bytes _ _ _ _ Hr) in H1 as [_ Hr1].
  destruct (ReadFull r1 32) as [[b2 r2]| |] eqn:H2; [|discriminate..]. cbn [obind]. apply (ReadFull_bytes _ _ _ _ Hr1) in H2 as [_ Hr2].
  destruct (ReadFull r2 8) as [[b3 r3]| |] eqn:H3; [|discriminate..]. cbn [obind]. apply (ReadFull_bytes _ _ _ _ Hr2) in H3 as [_ Hr3].
  destruct (if IsTreeDASMessageHeaderByte header then _ else _) as [[v r4]| |] eqn:H4; [|discriminate..]. cbn [obind].
  assert (0 <= v) as Hv.
  { destruct (IsTreeDASMessageHeaderByte header); [|now injection H4 as <- _].
    destruct (ReadFull r3 1) as [[b4 r5]| |] eqn:H5; [|discriminate..]. injection H4 as <- _.
    apply (ReadFull_bytes _ _ _ _ Hr3) in H5 as [Hb _]. apply (be_range b4 Hb). }
  destruct (ReadFull r4 8) as [[b5 r6]| |]; [|discriminate..]. cbn [obind].
  destruct (ReadFull r6 96) as [[b6 r7]| |]; [|discriminate..]. cbn [obind].
  destruct (SignatureFromBytes b6); [|discriminate..]. now intros [= <-].
Qed.

End Facts.

Section Claims.
Context {E : Env} {EL : EnvLaws E} {L : BLS12381} {LL : BLS12381Laws L}.

(** A certificate for [payload] under the keyset of the members with the private
    keys [privs]: enough of those whose bits are set signed its fields. *)
Record committee_signed (privs : list Z) (ks : DataAvailabilityKeyset) (ksBytes : list Z) (c : DataAvailabilityCertificate)
    (payload : list Z) : Prop := {
  cs_keys : Forall2 (fun k pk => PublicKeyFromPrivateKey k = Ok pk) privs (ks_PubKeys ks);
  cs_count : (length privs <= 64)%nat;
  cs_honest : in_u 64 (ks_AssumedHonest ks);
  cs_enough : nonSigners privs (cert_SignersMask c) < ks_AssumedHonest ks;
  cs_sig : exists sigs,
    Forall2 (fun k s => SignMessage k (SerializeSignableFields c) = Ok s) (selected privs 0 (cert_SignersMask c)) sigs /\
    cert_Sig c = AggregateSignatures sigs;
  cs_keyset : Keyset_Serialize ks [] = Ok ksBytes;
  cs_keysetHash : names (cert_Version c) (cert_KeysetHash c) ksBytes;
  cs_dataHash : names (cert_Version c) (cert_DataHash c) payload;
  cs_ranges : in_u 256 (cert_KeysetHash c) /\ in_u 256 (cert_DataHash c) /\ in_u 64 (cert_Timeout c) /\ in_u 64 (cert_SignersMask c)
}.

(** C32: A batch whose data the committee holds is not lost. If fewer members than
    are assumed honest did not sign a certificate, whose signature is the sum of
    the members' signatures, if it lives long enough after the batch, and if the
    reader has the keyset and the payload, then the payload is recovered from the
    posted certificate, in every mode of keyset validation and for both ways of
    hashing: serialization, keyset, signature and hashes all pass. *)
Theorem RecoverPayloadFromDasBatch_accepts (privs : list Z) (ks : DataAvailabilityKeyset) (ksBytes : list Z)
    (c : DataAvailabilityCertificate) (payload header : list Z) (GetByHash : Z -> outcome (list Z)) (mode : Z) :
  committee_signed privs ks ksBytes c payload -> length header = 40%nat ->
  be (take 8 (drop 8 header)) +u64 MinLifetimeSecondsForDataAvailabilityCert <= cert_Timeout c ->
  (forall hash preimage, (hash, preimage) ∈ [(cert_KeysetHash c, ksBytes); (cert_DataHash c, payload)] ->
     GetByHash (if cert_Version c =? 0 then FlatHashToTreeHash hash else hash) = Ok preimage) ->
  fst (RecoverPayloadFromDasBatch (header ++ das_Serialize c) GetByHash None mode) = Ok (Some payload).
Proof.
  intros [Hk Hn Hh He (sigs & Hs & Hsig) Hks Hkh Hdh (R1 & R2 & R3 & R4)] Hl Ht Hg.
  pose proof (Forall2_length _ _ _ Hk) as Hlen. assert (length (ks_PubKeys ks) <= 64)%nat as Hn' by lia.
  assert (VerifyAggregatedSignatureSameMessage (cert_Sig c) (SerializeSignableFields c)
    (selected (ks_PubKeys ks) 0 (cert_SignersMask c)) = Ok true) as Hv.
  { rewrite Hsig. apply (AggregateSignatures_verifies (selected privs 0 (cert_SignersMask c))); [exact Hs|].
    now apply selected_Forall2. }
  assert (inG1 (cert_Sig c)) as Hin.
  { rewrite Hsig. destruct (hashToG1Curve_ok (SerializeSignableFields c) false) as (p & Hp & Hi).
    apply (AggregateSignatures_inG1 sigs). apply (Forall2_Forall_r _ _ _ _ Hs), list.Forall_forall. intros k _ s Hk'. unfold SignMessage in Hk'.
    rewrite (signMessage2_ok k _ _ p Hp) in Hk'. injection Hk' as <-. now apply inG1_MulScalar. }
  destruct (Keyset_Serialize_ok ks (mode =? KeysetDontValidate) Hh Hn') as (b & Hb & _ & _ & Hrd).
  { apply (Forall2_Forall_r _ _ _ _ Hk), list.Forall_forall. intros k _ pk Hk'.
    exact (PublicKeyFromPrivateKey_key_ok k pk _ Hk'). }
  rewrite Hks in Hb. injection Hb as <-. specialize (Hrd []). rewrite app_nil_r in Hrd.
  erewrite recovery_runs; [reflexivity|]. apply (Build_recovery _ _ _ _ c ksBytes ks payload None None).
  - rewrite length_app. lia.
  - rewrite drop_app_length' by lia. apply DeserializeDASCertFrom_Serialize. now constructor.
  - destruct Hdh as [[-> _]|[-> _]]; lia.
  - apply getByHash_serves; [exact Hkh|]. apply Hg. left.
  - reflexivity.
  - exact Hrd.
  - apply Keyset_VerifySignature_spec; [lia|]. split; [|exact Hv]. unfold nonSigners in *.
    pose proof (Forall2_length _ _ _ (selected_Forall2 _ (cert_SignersMask c) _ _ 0 Hk)). lia.
  - rewrite skipn_app, firstn_app, length_drop, Hl. cbn [Nat.sub firstn]. now rewrite app_nil_r.
  - apply getByHash_serves; [exact Hdh|]. apply Hg. right. left.
  - reflexivity.
Qed.

(** C20: A payload that is recovered is the one that was signed: the batch holds a
    certificate of version 0 or 1, the payload has the hash in it, the keyset has
    the hash in it and at most 64 keys, fewer of its members than are assumed
    honest did not sign, the signature verifies under the sum of the keys of those
    who did, and the certificate does not expire within a week of the batch. *)
Theorem RecoverPayloadFromDasBatch_sound (msg : list Z) (GetByHash : Z -> outcome (list Z)) (preimages log : option records)
    (mode : Z) (payload : list Z) : Forall is_byte msg ->
  RecoverPayloadFromDasBatch msg GetByHash preimages mode = (Ok (Some payload), log) ->
  exists cert ksBytes ks, DeserializeDASCertFrom (drop 40 msg) = Ok cert /\
    names (cert_Version cert) (cert_DataHash cert) payload /\ names (cert_Version cert) (cert_KeysetHash cert) ksBytes /\
    DeserializeKeyset ksBytes (mode =? KeysetDontValidate) = Ok ks /\ (length (ks_PubKeys ks) <= 64)%nat /\
    nonSigners (ks_PubKeys ks) (cert_SignersMask cert) < ks_AssumedHonest ks /\
    VerifyAggregatedSignatureSameMessage (cert_Sig cert) (SerializeSignableFields cert)
      (selected (ks_PubKeys ks) 0 (cert_SignersMask cert)) = Ok true /\
    be (take 8 (drop 8 msg)) +u64 MinLifetimeSecondsForDataAvailabilityCert <= cert_Timeout cert.
Proof.
  intros Hb H. destruct (recovery_inv _ _ _ _ _ _ H) as (cert & ksBytes & ks & log' & [_ Hc Hv Hk _ Hr Hs Ht Hp _]).
  pose proof (DeserializeDASCertFrom_version _ _ (Forall_drop _ _ _ Hb) Hc) as Hv0.
  pose proof (DeserializeKeyset_length _ _ _ Hr) as Hl. apply Keyset_VerifySignature_spec in Hs as [Hn Hs]; [|lia].
  exists cert, ksBytes, ks. repeat split; try assumption; eapply getByHash_names; eauto; lia.
Qed.

(** The replay binary recovers what the node recovered and recorded. *)
Lemma das_replayed (msg : list Z) (GetByHash Resolve : Z -> outcome (list Z)) (mode mode' : Z)
    (payload : list Z) (log : records) : Forall is_byte msg ->
  RecoverPayloadFromDasBatch msg GetByHash (Some []) mode = (Ok (Some payload), Some log) ->
  (forall cert ksBytes, DeserializeDASCertFrom (drop 40 msg) = Ok cert ->
     getByHash GetByHash (cert_Version cert) (cert_KeysetHash cert) = Ok ksBytes -> Z.of_nat (length ksBytes) <= BinSize) ->
  Z.of_nat (length payload) <= 2 ^ 31 -> (mode = KeysetDontValidate -> mode' = KeysetDontValidate) ->
  (forall h v, (h, v) ∈ log -> Resolve h = Ok v) ->
  RecoverPayloadFromDasBatch msg (PreimageDASReader_GetByHash Resolve) None mode' = (Ok (Some payload), None).
Proof.
  intros Hb H Hks Hl Hm Ho. destruct (recovery_inv _ _ _ _ _ _ H) as (cert & ksBytes & ks & log' & [Hlen Hc Hv Hk Hlog Hr Hs Ht Hp Hlog']).
  pose proof (DeserializeDASCertFrom_version _ _ (Forall_drop _ _ _ Hb) Hc) as Hv0. pose proof (Hks cert ksBytes Hc Hk) as Hsz.
  assert (0 <= cert_Version cert <= 1) as Hv1 by lia.
  pose proof (getByHash_names _ _ _ _ Hv1 Hk) as Nk. pose proof (getByHash_names _ _ _ _ Hv1 Hp) as Np.
  assert (exists l, log' = Some l) as [l ->] by (unfold record_tree in Hlog; destruct (RecordHash _) as [[]| |]; [|discriminate..]; injection Hlog as <-; eauto).
  destruct (record_tree_for _ _ _ _ _ Nk (fun _ => Hsz) Hlog) as [Fk _]. destruct (record_payload_for _ _ _ _ _ Np Hlog') as [Fp Hsub].
  apply (recovery_runs msg _ None mode' cert ksBytes ks payload None None). constructor; auto.
  - apply (getByHash_replay Resolve _ _ _ log); auto; [unfold BinSize in Hsz; lia|]. now apply (recorded_for_mono _ _ _ l).
  - destruct (Z.eqb_spec mode KeysetDontValidate) as [Hd|Hd]; [now rewrite (Hm Hd)|]. now apply DeserializeKeyset_trusted.
  - now apply (getByHash_replay Resolve _ _ _ log).
Qed.

(** Recording does not change what is recovered. *)
Lemma das_unrecorded (msg : list Z) (GetByHash : Z -> outcome (list Z)) (mode : Z) (payload : list Z) (log : records) :
  RecoverPayloadFromDasBatch msg GetByHash (Some []) mode = (Ok (Some payload), Some log) ->
  RecoverPayloadFromDasBatch msg GetByHash None mode = (Ok (Some payload), None).
Proof.
  intros H. destruct (recovery_inv _ _ _ _ _ _ H) as (cert & ksBytes & ks & log' & Hr). destruct Hr.
  apply (recovery_runs msg _ None mode cert ksBytes ks payload None None). now constructor.
Qed.

(** A certificate that no reader can use. *)
Definition unreadable (msg : list Z) : Prop :=
  (exists e, DeserializeDASCertFrom (drop 40 msg) = Err e) \/
  (exists cert, DeserializeDASCertFrom (drop 40 msg) = Ok cert /\ 2 <= cert_Version cert).

Lemma das_unreadable (msg : list Z) (GetByHash : Z -> outcome (list Z)) (mode : Z) : (40 <= length msg)%nat -> unreadable msg ->
  RecoverPayloadFromDasBatch msg GetByHash None mode = (Ok None, None).
Proof.
  intros Hl H. unfold RecoverPayloadFromDasBatch. rewrite (proj2 (Nat.ltb_ge _ _) Hl).
  destruct H as [[e ->]|(cert & -> & Hv)]; [reflexivity|]. now rewrite (proj2 (Z.leb_le _ _) Hv).
Qed.

(** C13: The preimages that a node records when it recovers the payload of a batch
    are enough for the replay binary: with an oracle that knows them, its reader,
    which follows the hash trees, recovers the same payload - as long as it does
    not check the keys of a keyset that the node did not check. Keysets fit into
    one bin, as the rollup's contract demands. *)
Theorem RecoverPayloadFromDasBatch_replayed (msg : list Z) (GetByHash Resolve : Z -> outcome (list Z)) (mode mode' : Z)
    (payload : list Z) (log : records) : Forall is_byte msg ->
  RecoverPayloadFromDasBatch msg GetByHash (Some []) mode = (Ok (Some payload), Some log) ->
  (forall cert ksBytes, DeserializeDASCertFrom (drop 40 msg) = Ok cert ->
     getByHash GetByHash (cert_Version cert) (cert_KeysetHash cert) = Ok ksBytes -> Z.of_nat (length ksBytes) <= BinSize) ->
  Z.of_nat (length payload) <= 2 ^ 31 -> (mode = KeysetDontValidate -> mode' = KeysetDontValidate) ->
  (forall h v, (h, v) ∈ log -> Resolve h = Ok v) ->
  RecoverPayloadFromDasBatch msg (PreimageDASReader_GetByHash Resolve) None mode' = (Ok (Some payload), None).
Proof. apply das_replayed. Qed.

End Claims.

(** ** Example: three members, of whom two signed *)

#[local] Existing Instance TestEnv.
#[local] Existing Instance TestEnvLaws.
#[local] Existing Instance example_bls.
#[local] Existing Instance example_bls_laws.

Definition example_payload : list Z := [0; 1; 2].

Definition example_keyset : DataAvailabilityKeyset :=
  mkKeyset 2 (map (fun k => match PublicKeyFromPrivateKey k with Ok pk => pk | _ => NewTrustedPublicKey g2_Zero end) [5; 7; 9]).

Definition example_ksBytes : list Z := Eval vm_compute in match Keyset_Serialize example_keyset [] with Ok b => b | _ => [] end.

Definition hash_of (preimage : list Z) : Z := match Hash [preimage] with Ok h => h | _ => 0 end.

Definition example_unsigned : DataAvailabilityCertificate :=
  mkCertificate (hash_of example_ksBytes) (hash_of example_payload) 700000 3 g1_Zero 1.

Definition example_sigs : list Signature :=
  map (fun k => match SignMessage k (SerializeSignableFields example_unsigned) with Ok s => s | _ => g1_Zero end) [5; 7].

Definition example_cert : DataAvailabilityCertificate :=
  mkCertificate (hash_of example_ksBytes) (hash_of example_payload) 700000 3 (AggregateSignatures example_sigs) 1.

Definition example_reader (hash : Z) : outcome (list Z) :=
  if hash =? cert_KeysetHash example_cert then Ok example_ksBytes
  else if hash =? cert_DataHash example_cert then Ok example_payload else Err (ErrNew "not found").

Definition example_das_batch : list Z := repeat 0 40 ++ das_Serialize example_cert.

Lemma example_das_batch_bytes : Forall is_byte example_das_batch.
Proof.
  apply list.Forall_forall. intros x Hx. assert (forallb (fun x => (0 <=? x) && (x <? 256)) example_das_batch = true) as H by (vm_compute; reflexivity).
  rewrite forallb_forall in H. specialize (H x (proj1 (list_elem_of_In _ _) Hx)). unfold is_byte. lia.
Qed.

Lemma example_cert_read : DeserializeDASCertFrom (drop 40 example_das_batch) = Ok example_cert.
Proof.
  unfold example_das_batch. rewrite drop_app_length' by reflexivity. apply DeserializeDASCertFrom_Serialize.
  constructor; unfold inG1, in_u; vm_compute; split; discriminate || reflexivity.
Qed.

Lemma RecoverPayloadFromDasBatch_accepts_witness :
  fst (RecoverPayloadFromDasBatch example_das_batch example_reader None KeysetValidate) = Ok (Some example_payload).
Proof.
  apply (RecoverPayloadFromDasBatch_accepts [5; 7; 9] example_keyset example_ksBytes example_cert example_payload (repeat 0 40)).
  - constructor.
    + repeat constructor.
    + cbn. lia.
    + unfold in_u. cbn. lia.
    + vm_compute. reflexivity.
    + exists example_sigs. split; [|reflexivity]. repeat constructor.
    + vm_compute. reflexivity.
    + right. split; vm_compute; reflexivity.
    + right. split; vm_compute; reflexivity.
    + unfold in_u. vm_compute. repeat split; discriminate.
  - reflexivity.
  - vm_compute. discriminate.
  - intros hash preimage H. apply list_elem_of_In in H. destruct H as [H|[H|[]]].
    + rewrite <- (f_equal fst H : _ = hash), <- (f_equal snd H : _ = preimage). vm_compute. reflexivity.
    + rewrite <- (f_equal fst H : _ = hash), <- (f_equal snd H : _ = preimage). vm_compute. reflexivity.
Defined.

Lemma RecoverPayloadFromDasBatch_sound_witness :
  exists cert, DeserializeDASCertFrom (drop 40 example_das_batch) = Ok cert /\ names (cert_Version cert) (cert_DataHash cert) example_payload.
Proof.
  destruct (RecoverPayloadFromDasBatch_sound example_das_batch example_reader None None KeysetValidate example_payload)
    as (cert & ksBytes & ks & Hc & Hn & _).
  - exact example_das_batch_bytes.
  - vm_compute. reflexivity.
  - exists cert. split; [exact Hc|exact Hn].
Defined.

Definition example_log : records := Eval vm_compute in
  match RecoverPayloadFromDasBatch example_das_batch example_reader (Some []) KeysetValidate with (_, Some log) => log | _ => [] end.

Lemma RecoverPayloadFromDasBatch_replayed_witness :
  RecoverPayloadFromDasBatch example_das_batch (PreimageDASReader_GetByHash (log_oracle example_log)) None KeysetPanicIfInvalid =
    (Ok (Some example_payload), None).
Proof.
  apply (RecoverPayloadFromDasBatch_replayed example_das_batch example_reader (log_oracle example_log) KeysetValidate
    KeysetPanicIfInvalid example_payload example_log).
  - exact example_das_batch_bytes.
  - vm_compute. reflexivity.
  - intros cert ksBytes Hc Hk. rewrite example_cert_read in Hc. assert (cert = example_cert) as -> by congruence.
    assert (getByHash example_reader (cert_Version example_cert) (cert_KeysetHash example_cert) = Ok example_ksBytes) as Hk'
      by (vm_compute; reflexivity).
    assert (ksBytes = example_ksBytes) as -> by congruence. vm_compute. discriminate.
  - vm_compute. discriminate.
  - discriminate.
  - assert (forallb (fun '(h, v) => match log_oracle example_log h with Ok w => bool_decide (v = w) | _ => false end) example_log = true) as H
      by (vm_compute; reflexivity).
    intros h v Hv. rewrite forallb_forall in H. specialize (H (h, v) (proj1 (list_elem_of_In _ _) Hv)). cbn in H.
    destruct (log_oracle example_log h); [|discriminate..]. apply bool_decide_eq_true_1 in H. now subst.
Defined.
