(* ===== verification/Blobs.v ===== *)
(** * util/blobs/blobs.go: batch data in EIP-4844 blobs

    A blob is [BlobTxFieldElementsPerBlob] field elements of 32 bytes, of which
    254 bits can be used: 31 whole bytes, and six bits of the first byte. Data is
    rlp-encoded, fills the whole bytes of a blob first and its spare bits then,
    and goes on in the next blob. The rlp package, KZG commitments and SHA-256 are
    the class [BlobCodecs]. Also the provider of arbstate/inbox.go that recovers a
    payload from the hashes of blobs, and the reader of the replay binary. What is
    proved: blobs decode to what was encoded, in as few blobs as it takes. *)
From Stdlib Require Import ZArith Lia String List.
From stdpp Require Import base list numbers.
From S2P Require Import Prelude Arbmath Host Storage StorageFacts Inbox.
Open Scope Z_scope.

(** EIP-4844 *)
Definition BlobTxFieldElementsPerBlob : Z := 4096.

Class BlobCodecs := {
  rlp_Encode : list Z -> outcome (list Z);
  rlp_Decode : list Z -> outcome (list Z);
  BlobToCommitment : list Z -> outcome (list Z);
  ComputeBlobProof : list Z -> list Z -> outcome (list Z);
  Sum256 : list Z -> Z
}.

Definition spareBlobBits : Z := 6.
Definition BlobEncodableData : Z := 254 * BlobTxFieldElementsPerBlob / 8.

(** [copy] of the front of [src] over the front of [dst]. *)
Definition copy (dst src : list Z) : list Z := take (length dst) src ++ drop (length src) dst.

(** The loop over the field elements, which are the next 32 bytes of the blob
    each; the filled blob and the data that is left. *)
Fixpoint fillBlobBytes (fieldElements : nat) (blob data : list Z) : list Z * list Z :=
  match fieldElements with
  | O => (blob, data)
  | S fieldElements =>
      let element := take 32 blob in
      let element := take 1 element ++ copy (drop 1 element) data in
      if (length data <=? 31)%nat then (element ++ drop 32 blob, [])
      else
        let '(blob, data) := fillBlobBytes fieldElements (drop 32 blob) (drop 31 data) in
        (element ++ blob, data)
  end.

Fixpoint fillBlobBits_loop (fieldElements : nat) (acc accBits : Z) (blob data : list Z) : list Z * list Z * Z :=
  match fieldElements with
  | O => (blob, data, accBits)
  | S fieldElements =>
      let '(acc, accBits, data) :=
        match data with
        | b :: data' =>
            if accBits <? spareBlobBits
            then (Z.lor acc (uwrap 16 (Z.shiftl b accBits)), accBits + 8, data')
            else (acc, accBits, data)
        | [] => (acc, accBits, data)
        end in
      let element := uwrap 8 (Z.land acc (Z.shiftl 1 spareBlobBits - 1)) :: drop 1 (take 32 blob) in
      let accBits := accBits - spareBlobBits in
      if accBits <? 0 then (element ++ drop 32 blob, data, accBits)
      else
        let acc := Z.shiftr acc spareBlobBits in
        let '(blob, data, accBits) := fillBlobBits_loop fieldElements acc accBits (drop 32 blob) data in
        (element ++ blob, data, accBits)
  end.

Definition fillBlobBits (fieldElements : nat) (blob data : list Z) : outcome (list Z * list Z) :=
  let '(blob, data, accBits) := fillBlobBits_loop fieldElements 0 0 blob data in
  if 0 <? accBits then Err (ErrNew "somehow ended up with spare accBits") else Ok (blob, data).

(** Every blob takes at least one byte, so the length of the data is enough fuel. *)
Fixpoint EncodeBlobs_loop (fuel fieldElements : nat) (data : list Z) (blobs : list (list Z)) : outcome (list (list Z)) :=
  match data, fuel with
  | [], _ => Ok blobs
  | _, O => Panic "there is data left"
  | _, S fuel =>
      let b := repeat 0 (32 * fieldElements) in
      let '(b, data) := fillBlobBytes fieldElements b data in
      let? (b, data) := fillBlobBits fieldElements b data in
      EncodeBlobs_loop fuel fieldElements data (blobs ++ [b])
  end.

Fixpoint blobBytes (fieldElements : nat) (blob : list Z) : list Z :=
  match fieldElements with
  | O => []
  | S fieldElements => drop 1 (take 32 blob) ++ blobBytes fieldElements (drop 32 blob)
  end.

(** [blob[fieldIndex*32]] of a blob of the right length. *)
Fixpoint blobBits (fieldElements : nat) (acc accBits : Z) (blob rlpData : list Z) : list Z * Z :=
  match fieldElements with
  | O => (rlpData, accBits)
  | S fieldElements =>
      let acc := Z.lor acc (uwrap 16 (Z.shiftl (hd 0 blob) accBits)) in
      let accBits := accBits + spareBlobBits in
      if 8 <=? accBits
      then blobBits fieldElements (Z.shiftr acc 8) (accBits - 8) (drop 32 blob) (rlpData ++ [uwrap 8 acc])
      else blobBits fieldElements acc accBits (drop 32 blob) rlpData
  end.

Fixpoint DecodeBlobs_loop (fieldElements : nat) (blobs : list (list Z)) (rlpData : list Z) : outcome (list Z) :=
  match blobs with
  | [] => Ok rlpData
  | blob :: blobs =>
      let rlpData := rlpData ++ blobBytes fieldElements blob in
      let '(rlpData, accBits) := blobBits fieldElements 0 0 blob rlpData in
      if negb (accBits =? 0) then Err (ErrNew "somehow ended up with spare accBits")
      else DecodeBlobs_loop fieldElements blobs rlpData
  end.

Definition CommitmentToVersionedHash {B : BlobCodecs} (commitment : list Z) : Z :=
  let hash := Sum256 commitment in 2 ^ 248 + hash mod 2 ^ 248.

Section Blobs.
Context {B : BlobCodecs}.

Definition EncodeBlobs (data : list Z) : outcome (list (list Z)) :=
  let? data := rlp_Encode data in
  EncodeBlobs_loop (length data) (Z.to_nat BlobTxFieldElementsPerBlob) data [].

Definition DecodeBlobs (blobs : list (list Z)) : outcome (list Z) :=
  let? rlpData := DecodeBlobs_loop (Z.to_nat BlobTxFieldElementsPerBlob) blobs [] in
  rlp_Decode rlpData.

Fixpoint ComputeCommitmentsAndHashes (blobs : list (list Z)) : outcome (list (list Z) * list Z) :=
  match blobs with
  | [] => Ok ([], [])
  | blob :: blobs =>
      let? commitment := BlobToCommitment blob in
      let? (commitments, versionedHashes) := ComputeCommitmentsAndHashes blobs in
      Ok (commitment :: commitments, CommitmentToVersionedHash commitment :: versionedHashes)
  end.

Fixpoint ComputeBlobProofs_loop (blobs commitments : list (list Z)) : outcome (list (list Z)) :=
  match blobs, commitments with
  | blob :: blobs, commitment :: commitments =>
      let? proof := ComputeBlobProof blob commitment in
      let? proofs := ComputeBlobProofs_loop blobs commitments in
      Ok (proof :: proofs)
  | _, _ => Ok []
  end.

Definition ComputeBlobProofs (blobs commitments : list (list Z)) : outcome (list (list Z)) :=
  if negb (length blobs =? length commitments)%nat
  then Err (ErrNew "ComputeBlobProofs got blobs but commitments")
  else ComputeBlobProofs_loop blobs commitments.

(** ** The provider *)

Definition ErrInvalidBlobDataFormat : error := ErrNew "blob batch data is not a list of hashes as expected".

Fixpoint splitHashes (n : nat) (blobHashes : list Z) : list Z :=
  match n with
  | O => []
  | S n => BytesToHash (take 32 blobHashes) :: splitHashes n (drop 32 blobHashes)
  end.

Definition RecoverPayloadFromBlobBatch (GetBlobs : Z -> list Z -> outcome (list (list Z))) (batchBlockHash : Z)
    (sequencerMsg : list Z) : outcome (option (list Z)) :=
  if (length sequencerMsg <? 41)%nat then Panic "slice bounds out of range"
  else
    let blobHashes := drop 41 sequencerMsg in
    if negb (length blobHashes mod 32 =? 0)%nat then Err ErrInvalidBlobDataFormat
    else
      let versionedHashes := splitHashes (length blobHashes / 32) blobHashes in
      match GetBlobs batchBlockHash versionedHashes with
      | Err e => Err (ErrWrap "failed to get blobs" e)
      | Panic s => Panic s
      | Ok kzgBlobs =>
          match DecodeBlobs kzgBlobs with
          | Err _ => Ok None
          | Panic s => Panic s
          | Ok payload => Ok (Some payload)
          end
      end.

Definition NewDAProviderBlobReader (GetBlobs : Z -> list Z -> outcome (list (list Z))) : DataAvailabilityProvider :=
  mkDataAvailabilityProvider IsBlobHashesHeaderByte
    (fun batchNum batchBlockHash sequencerMsg keysetValidationMode =>
       RecoverPayloadFromBlobBatch GetBlobs batchBlockHash sequencerMsg).

(** cmd/replay/main.go: the blobs by their hashes, from the oracle. *)
Fixpoint BlobPreimageReader_GetBlobs (ResolveBlobPreimage : Z -> outcome (list Z)) (versionedHashes : list Z)
    : outcome (list (list Z)) :=
  match versionedHashes with
  | [] => Ok []
  | h :: versionedHashes =>
      let? preimage := ResolveBlobPreimage h in
      if negb (Z.of_nat (length preimage) =? 32 * BlobTxFieldElementsPerBlob)
      then Err (ErrNew "got back preimage of wrong length")
      else
        let? blobs := BlobPreimageReader_GetBlobs ResolveBlobPreimage versionedHashes in
        Ok (preimage :: blobs)
  end.

End Blobs.

(** ** Digits *)

(** The value of digits to the base [w], the lowest first. *)
Fixpoint le (w : Z) (l : list Z) : Z :=
  match l with [] => 0 | x :: l => x + w * le w l end.

Definition digits (w : Z) (l : list Z) : Prop := Forall (fun x => 0 <= x < w) l.

Lemma le_range w l : 0 < w -> digits w l -> 0 <= le w l < w ^ Z.of_nat (length l).
Proof.
  intros Hw. induction l as [|x l IH]; intros H; [cbn; lia|]. inversion H as [|? ? Hx Hl]; subst. specialize (IH Hl).
  cbn [le length]. rewrite Nat2Z.inj_succ, Z.pow_succ_r by lia. nia.
Qed.

Lemma le_inj w : 0 < w -> forall l l', digits w l -> digits w l' -> length l = length l' -> le w l = le w l' -> l = l'.
Proof.
  intros Hw. induction l as [|x l IH]; intros [|y l'] Hl Hl' Hn He; try discriminate; [reflexivity|].
  inversion Hl as [|? ? Hx Hl1]; inversion Hl' as [|? ? Hy Hl1']; subst. cbn [le] in He. injection Hn as Hn.
  assert (x = y) as -> by (apply (f_equal (fun z => z mod w)) in He; rewrite !(Z.mul_comm w), !Z.mod_add, !Z.mod_small in He by lia; exact He).
  f_equal. apply IH; auto. nia.
Qed.

Lemma le_zeros w n : le w (repeat 0 n) = 0.
Proof. induction n as [|n IH]; cbn; [reflexivity|]. rewrite IH. lia. Qed.

Lemma take_repeat {A} (x : A) : forall n m, take n (repeat x m) = repeat x (Nat.min n m).
Proof. induction n as [|n IH]; intros [|m]; cbn; [reflexivity..|]. now rewrite IH. Qed.

Lemma drop_repeat {A} (x : A) : forall n m, drop n (repeat x m) = repeat x (m - n).
Proof. induction n as [|n IH]; intros [|m]; cbn; [reflexivity..|]. apply IH. Qed.

(** The first [k] of the digits, which go on with zeros. *)
Definition padded (k : nat) (l : list Z) : list Z := take k (l ++ repeat 0 k).

Lemma padded_length k l : length (padded k l) = k.
Proof. unfold padded. rewrite length_take, length_app, repeat_length. lia. Qed.

Lemma zeros_digits w n : 0 < w -> digits w (repeat 0 n).
Proof.
  intros Hw. apply list.Forall_forall. intros x Hx. apply list_elem_of_In, repeat_spec in Hx. lia.
Qed.

Lemma padded_digits w k l : 0 < w -> digits w l -> digits w (padded k l).
Proof.
  intros Hw Hl. apply Forall_take, Forall_app. split; [exact Hl|]. now apply zeros_digits.
Qed.

Lemma le_padded w : 0 < w -> forall k l, digits w l -> le w (padded k l) = le w l mod w ^ Z.of_nat k.
Proof.
  intros Hw. unfold padded. induction k as [|k IH]; intros l Hl; [cbn; now rewrite Z.mod_1_r|].
  rewrite Nat2Z.inj_succ, Z.pow_succ_r, Z.rem_mul_r by lia. destruct l as [|x l].
  - rewrite app_nil_l, (firstn_all2 (repeat 0 (S k))) by (rewrite repeat_length; lia). rewrite le_zeros. cbn [le].
    pose proof (Z.pow_pos_nonneg w (Z.of_nat k)). rewrite Z.div_0_l, !Z.mod_0_l by lia. lia.
  - inversion Hl as [|? ? Hx Hl1]; subst. cbn [app firstn le].
    rewrite (Z.mul_comm w (le w l)), Z.mod_add, Z.div_add, Z.mod_small, Z.div_small by lia. rewrite Z.add_0_l. f_equal. f_equal.
    rewrite <- (IH l Hl1). f_equal. rewrite !firstn_app. f_equal.
    destruct (Nat.le_gt_cases k (length l)); [replace (k - length l)%nat with 0%nat by lia; reflexivity|].
    rewrite !take_repeat. f_equal; lia.
Qed.

(** Bits above the ones that are there. *)
Lemma lor_shift a acc b : 0 <= a -> 0 <= acc < 2 ^ a -> 0 <= b -> Z.lor acc (b * 2 ^ a) = acc + b * 2 ^ a.
Proof.
  intros Ha Hacc Hb. assert (Z.land acc (b * 2 ^ a) = 0) as Hl.
  { apply Z.bits_inj'. intros i Hi. rewrite Z.land_spec, Z.bits_0. destruct (Z.lt_ge_cases i a).
    - now rewrite Z.mul_pow2_bits_low, andb_false_r by lia.
    - destruct (Z.eq_dec acc 0) as [->|]; [now rewrite Z.bits_0|]. rewrite (Z.bits_above_log2 acc); [reflexivity|lia|].
      apply (Z.lt_le_trans _ a); [apply Z.log2_lt_pow2; lia|lia]. }
  rewrite Z.add_nocarry_lxor by exact Hl. symmetry. now apply Z.lxor_lor.
Qed.

(** ** One blob *)

(** The first bytes of the field elements. *)
Fixpoint blobTops (fieldElements : nat) (blob : list Z) : list Z :=
  match fieldElements with
  | O => []
  | S fieldElements => hd 0 blob :: blobTops fieldElements (drop 32 blob)
  end.

Lemma blob_element n (blob : list Z) : length blob = (32 * S n)%nat ->
  exists t r rest, blob = (t :: r) ++ rest /\ length r = 31%nat /\ length rest = (32 * n)%nat.
Proof.
  intros H. destruct blob as [|t blob]; [cbn in H; lia|]. exists t, (take 31 blob), (drop 31 blob). cbn in H.
  cbn [app]. rewrite take_drop, length_take, length_drop. repeat split; lia.
Qed.

Lemma element_take_drop t (r rest : list Z) : length r = 31%nat ->
  take 32 ((t :: r) ++ rest) = t :: r /\ drop 32 ((t :: r) ++ rest) = rest.
Proof. intros H. split; [apply take_app_length'|apply drop_app_length']; cbn; lia. Qed.

Lemma drop_padded k j l : drop k (padded (k + j) l) = padded j (drop k l).
Proof.
  unfold padded. rewrite skipn_firstn_comm. replace (k + j - k)%nat with j by lia. rewrite skipn_app, !firstn_app. f_equal.
  destruct (Nat.le_gt_cases k (length l)).
  - replace (k - length l)%nat with 0%nat by lia. rewrite drop_0, !take_repeat, length_drop. apply (f_equal (repeat 0)). lia.
  - rewrite (drop_ge l k) by lia. cbn [length]. rewrite Nat.sub_0_r, drop_repeat, !take_repeat. apply (f_equal (repeat 0)). lia.
Qed.

Lemma take_padded k j l : take k (padded (k + j) l) = padded k l.
Proof.
  unfold padded. rewrite firstn_firstn, Nat.min_l, !firstn_app by lia. f_equal. rewrite !take_repeat. apply (f_equal (repeat 0)). lia.
Qed.

Lemma padded_split k j l : padded (k + j) l = padded k l ++ padded j (drop k l).
Proof. rewrite <- (take_drop k (padded (k + j) l)). now rewrite take_padded, drop_padded. Qed.

Lemma copy_zeros n l : copy (repeat 0 n) l = padded n l.
Proof.
  unfold copy, padded. rewrite repeat_length, firstn_app, drop_repeat, take_repeat. f_equal. apply (f_equal (repeat 0)). lia.
Qed.

Lemma fillBlobBytes_spec : forall n blob data, length blob = (32 * n)%nat -> blobBytes n blob = repeat 0 (31 * n) ->
  exists blob', fillBlobBytes n blob data = (blob', drop (31 * n) data) /\ length blob' = (32 * n)%nat /\
    blobTops n blob' = blobTops n blob /\ blobBytes n blob' = padded (31 * n) data.
Proof.
  induction n as [|n IH]; intros blob data Hl Hz.
  { exists blob. auto. }
  destruct (blob_element n blob Hl) as (t & r & rest & -> & Hr & Hrest). destruct (element_take_drop t r rest Hr) as [Ht Hd].
  cbn [fillBlobBytes blobBytes blobTops] in *. rewrite Ht, Hd in *. cbn [skipn firstn hd app] in *.
  replace (31 * S n)%nat with (31 + 31 * n)%nat in * by lia. rewrite repeat_app in Hz.
  apply app_inj_1 in Hz as [Hz1 Hz2]; [|rewrite drop_0, repeat_length; exact Hr].
  rewrite drop_0 in Hz1 |- *. subst r. rewrite copy_zeros. cbn [firstn app].
  assert (forall rest', drop 32 (t :: padded 31 data ++ rest') = rest' /\ take 32 (t :: padded 31 data ++ rest') = t :: padded 31 data) as Hel.
  { intros rest'. destruct (element_take_drop t (padded 31 data) rest') as [H1 H2]; [apply padded_length|]. auto. }
  destruct (Nat.leb_spec (length data) 31) as [Hshort|Hlong].
  - exists (t :: padded 31 data ++ rest). rewrite drop_ge by lia. destruct (Hel rest) as [-> ->].
    split; [reflexivity|]. split; [cbn; rewrite length_app, padded_length; lia|]. split; [reflexivity|].
    cbn [skipn]. rewrite drop_0, Hz2, padded_split, (drop_ge data 31) by lia. f_equal. unfold padded. cbn [app]. symmetry. apply firstn_all2.
    rewrite repeat_length. lia.
  - destruct (IH rest (drop 31 data) Hrest Hz2) as (blob' & -> & Hl' & Ht' & Hb'). exists (t :: padded 31 data ++ blob').
    destruct (Hel blob') as [-> ->]. rewrite drop_drop. split; [reflexivity|].
    split; [cbn; rewrite length_app, padded_length; lia|]. split; [now rewrite Ht'|]. cbn [skipn]. now rewrite drop_0, Hb', padded_split.
Qed.

(** The bits that are pending: 0, 2, 4 or 6 of them. *)
Definition pending (acc a : Z) : Prop := (a = 0 \/ a = 2 \/ a = 4 \/ a = 6) /\ 0 <= acc < 2 ^ a.

(** What taking a byte, if there is room for it, does to the number that is
    still to be written. *)
Definition take_byte (acc a : Z) (data : list Z) : Z * Z * list Z :=
  match data with
  | b :: data' => if a <? spareBlobBits then (Z.lor acc (uwrap 16 (Z.shiftl b a)), a + 8, data') else (acc, a, data)
  | [] => (acc, a, data)
  end.

Lemma take_byte_spec acc a data : pending acc a -> digits 256 data ->
  let '(acc1, a1, data1) := take_byte acc a data in
  acc1 + 2 ^ a1 * le 256 data1 = acc + 2 ^ a * le 256 data /\ 0 <= acc1 < 2 ^ a1 /\ digits 256 data1 /\
  (data = [] /\ a < 6 /\ acc1 = acc /\ a1 = a /\ data1 = [] \/
   (a1 = 6 \/ a1 = 8 \/ a1 = 10 \/ a1 = 12) /\ exists c, data1 = drop c data /\ (c <= length data)%nat /\ 8 * Z.of_nat c + a = a1).
Proof.
  intros [Ha Hacc] Hd. unfold take_byte, spareBlobBits. destruct data as [|b data].
  - split; [reflexivity|]. split; [exact Hacc|]. split; [exact Hd|]. destruct (Z.eq_dec a 6) as [->|]; [|left; repeat split; lia].
    right. split; [lia|]. exists 0%nat. repeat split; lia.
  - inversion Hd as [|? ? Hb Hd']; subst. destruct (Z.ltb_spec a 6) as [Hlt|Hge].
    + assert (uwrap 16 (Z.shiftl b a) = b * 2 ^ a) as ->.
      { rewrite Z.shiftl_mul_pow2 by lia. apply uwrap_id. unfold in_u. destruct Ha as [-> |[-> |[-> | ->]]]; lia. }
      rewrite lor_shift by lia. cbn [le]. rewrite Z.pow_add_r by lia. change (2 ^ 8) with 256.
      split; [lia|]. split; [nia|]. split; [exact Hd'|]. right. split; [lia|]. exists 1%nat. cbn. repeat split; lia.
    + split; [reflexivity|]. split; [exact Hacc|]. split; [exact Hd|]. right. split; [lia|]. exists 0%nat. cbn. repeat split; lia.
Qed.

Lemma fillBlobBits_spec : forall n acc a blob data, pending acc a -> digits 256 data ->
  length blob = (32 * n)%nat -> blobTops n blob = repeat 0 n ->
  exists blob' data' a', fillBlobBits_loop n acc a blob data = (blob', data', a') /\ length blob' = (32 * n)%nat /\
    blobBytes n blob' = blobBytes n blob /\ digits 64 (blobTops n blob') /\
    le 64 (blobTops n blob') = (acc + 2 ^ a * le 256 data) mod 64 ^ Z.of_nat n /\
    (data' = [] /\ a' < 0 /\ 8 * Z.of_nat (length data) + a < 6 * Z.of_nat n \/
     0 <= a' <= 6 /\ exists c, data' = drop c data /\ (c <= length data)%nat /\ 8 * Z.of_nat c + a = 6 * Z.of_nat n + a').
Proof.
  induction n as [|n IH]; intros acc a blob data Hp Hd Hl Hz.
  { exists blob, data, a. split; [reflexivity|]. split; [exact Hl|]. split; [reflexivity|]. split; [constructor|].
    split; [cbn; now rewrite Z.mod_1_r|]. right. destruct Hp as [Ha _]. split; [lia|]. exists 0%nat. cbn. repeat split; lia. }
  destruct (blob_element n blob Hl) as (t & r & rest & -> & Hr & Hrest). destruct (element_take_drop t r rest Hr) as [Ht Hdr].
  cbn [fillBlobBits_loop blobTops blobBytes repeat] in *. rewrite Ht, Hdr in *. cbn [hd app skipn firstn] in Hz |- *. rewrite drop_0 in *.
  injection Hz as Ht0 Hz. fold (take_byte acc a data). pose proof (take_byte_spec acc a data Hp Hd) as Hb.
  destruct (take_byte acc a data) as [[acc1 a1] data1]. destruct Hb as (HX & Hacc1 & Hd1 & Hcase).
  assert (0 <= acc1 mod 64 < 64) as Hm by (apply Z.mod_pos_bound; lia).
  assert (uwrap 8 (Z.land acc1 (Z.shiftl 1 spareBlobBits - 1)) = acc1 mod 64) as Htop.
  { change (Z.shiftl 1 spareBlobBits - 1) with (Z.ones 6). rewrite Z.land_ones by lia. apply uwrap_id. unfold in_u. change (2 ^ 6) with 64. lia. }
  rewrite Htop. rewrite <- HX. rewrite Nat2Z.inj_succ, Z.pow_succ_r by lia.
  assert (forall blob', drop 32 ((acc1 mod 64 :: r) ++ blob') = blob' /\ take 32 ((acc1 mod 64 :: r) ++ blob') = acc1 mod 64 :: r) as Hel.
  { intros blob'. destruct (element_take_drop (acc1 mod 64) r blob' Hr); auto. }
  destruct Hcase as [(-> & Ha6 & -> & -> & ->)|[Ha1 (c & -> & Hc & Hbits)]].
  - unfold spareBlobBits. rewrite (proj2 (Z.ltb_lt (a - 6) 0)) by lia. exists (acc mod 64 :: r ++ rest), [], (a - 6).
    destruct (Hel rest) as [E1 E2]. cbn [app] in E1, E2. rewrite E1, E2. split; [reflexivity|]. split; [cbn; rewrite length_app; lia|].
    split; [reflexivity|]. cbn [hd]. rewrite Hz. split; [constructor; [exact Hm|]; now apply zeros_digits|].
    split; [|left; cbn; repeat split; lia]. cbn [le]. rewrite le_zeros, !Z.mul_0_r, !Z.add_0_r.
    assert (acc < 64) as Hsm by (destruct Hp as [[-> |[-> |[-> | ->]]] ?]; lia).
    pose proof (Z.pow_pos_nonneg 64 (Z.of_nat n)). rewrite !Z.mod_small by nia. reflexivity.
  - unfold spareBlobBits. rewrite (proj2 (Z.ltb_ge (a1 - 6) 0)) by lia.
    assert (2 ^ a1 = 64 * 2 ^ (a1 - 6)) as Hpow by (change 64 with (2 ^ 6); rewrite <- Z.pow_add_r by lia; f_equal; lia).
    destruct (IH (Z.shiftr acc1 6) (a1 - 6) rest (drop c data)) as (blob' & data' & a' & -> & Hl' & Hb' & Hdg & Hle & Hend); auto.
    { split; [lia|]. rewrite Z.shiftr_div_pow2 by lia. change (2 ^ 6) with 64. split; [apply Z.div_pos; lia|apply Z.div_lt_upper_bound; lia]. }
    exists (acc1 mod 64 :: r ++ blob'), data', a'. destruct (Hel blob') as [E1 E2]. cbn [app] in E1, E2. rewrite E1, E2.
    split; [reflexivity|]. split; [cbn; rewrite length_app; lia|]. split; [cbn; now rewrite drop_0, Hb'|]. cbn [hd].
    split; [constructor; [exact Hm|exact Hdg]|]. split.
    + cbn [le]. rewrite Hle, Z.shiftr_div_pow2 by lia. change (2 ^ 6) with 64. rewrite Z.rem_mul_r by (try apply Z.pow_nonzero; lia).
      rewrite Hpow. replace (acc1 + 64 * 2 ^ (a1 - 6) * le 256 (drop c data)) with (acc1 + (2 ^ (a1 - 6) * le 256 (drop c data)) * 64) by lia.
      rewrite Z.mod_add, Z.div_add by lia. reflexivity.
    + rewrite length_drop in Hend. destruct Hend as [(-> & Hneg & Hlt)|(Ha' & c' & -> & Hc' & Heq)]; [left; repeat split; lia|].
      right. split; [exact Ha'|]. exists (c + c')%nat. rewrite drop_drop. split; [reflexivity|]. split; lia.
Qed.

Lemma blobBits_spec : forall n acc a blob out, pending acc a -> digits 64 (blobTops n blob) ->
  exists bytes acc' a', blobBits n acc a blob out = (out ++ bytes, a') /\ digits 256 bytes /\ pending acc' a' /\
    le 256 bytes + 256 ^ Z.of_nat (length bytes) * acc' = acc + 2 ^ a * le 64 (blobTops n blob) /\
    8 * Z.of_nat (length bytes) + a' = a + 6 * Z.of_nat n.
Proof.
  induction n as [|n IH]; intros acc a blob out Hp Hd.
  { exists [], acc, a. cbn [blobBits blobTops le length]. rewrite app_nil_r. change (256 ^ Z.of_nat 0) with 1.
    repeat split; try apply Hp; try lia. constructor. }
  cbn [blobBits blobTops] in *. inversion Hd as [|? ? Ht Hd']; subst. set (t := hd 0 blob) in *. destruct Hp as [Ha Hacc].
  assert (uwrap 16 (Z.shiftl t a) = t * 2 ^ a) as ->.
  { rewrite Z.shiftl_mul_pow2 by lia. apply uwrap_id. unfold in_u. destruct Ha as [-> |[-> |[-> | ->]]]; lia. }
  rewrite lor_shift by lia. set (acc1 := acc + t * 2 ^ a). unfold spareBlobBits. cbn [le].
  assert (acc + 2 ^ a * (t + 64 * le 64 (blobTops n (drop 32 blob))) = acc1 + 2 ^ (a + 6) * le 64 (blobTops n (drop 32 blob))) as ->.
  { rewrite Z.pow_add_r by lia. change (2 ^ 6) with 64. unfold acc1. lia. }
  assert (0 <= acc1 < 2 ^ (a + 6)) as Hacc1 by (rewrite Z.pow_add_r by lia; change (2 ^ 6) with 64; unfold acc1; nia).
  destruct (Z.leb_spec 8 (a + 6)) as [Hge|Hlt].
  - assert (2 ^ (a + 6) = 256 * 2 ^ (a + 6 - 8)) as Hpow by (change 256 with (2 ^ 8); rewrite <- Z.pow_add_r by lia; f_equal; lia).
    destruct (IH (Z.shiftr acc1 8) (a + 6 - 8) (drop 32 blob) (out ++ [uwrap 8 acc1])) as (bytes & acc' & a' & -> & Hb & Hp' & Hle & Hl).
    { split; [lia|]. rewrite Z.shiftr_div_pow2 by lia. change (2 ^ 8) with 256. split; [apply Z.div_pos; lia|apply Z.div_lt_upper_bound; lia]. }
    { exact Hd'. }
    exists (uwrap 8 acc1 :: bytes), acc', a'. rewrite <- app_assoc. split; [reflexivity|].
    assert (uwrap 8 acc1 = acc1 mod 256) as -> by reflexivity. pose proof (Z.mod_pos_bound acc1 256 ltac:(lia)).
    split; [constructor; [lia|exact Hb]|]. split; [exact Hp'|]. split; [|cbn [length]; lia].
    cbn [le length]. rewrite Nat2Z.inj_succ, Z.pow_succ_r by lia. rewrite Z.shiftr_div_pow2 in Hle by lia. change (2 ^ 8) with 256 in Hle.
    rewrite Hpow. pose proof (Z.div_mod acc1 256 ltac:(lia)). lia.
  - destruct (IH acc1 (a + 6) (drop 32 blob) out) as (bytes & acc' & a' & -> & Hb & Hp' & Hle & Hl); [split; lia|exact Hd'|].
    exists bytes, acc', a'. repeat split; try assumption; try apply Hp'. lia.
Qed.

(** A blob of [4 * m] field elements holds [127 * m] bytes: what is filled into an
    empty one is read back, and the data that is left follows it. *)
Lemma blob_roundtrip m data : digits 256 data ->
  let n := (4 * m)%nat in
  exists b1 blob, fillBlobBytes n (repeat 0 (32 * n)) data = (b1, drop (31 * n) data) /\
    fillBlobBits n b1 (drop (31 * n) data) = Ok (blob, drop (127 * m) data) /\ length blob = (32 * n)%nat /\
    forall out, blobBits n 0 0 blob (out ++ blobBytes n blob) = (out ++ padded (127 * m) data, 0).
Proof.
  intros Hd n. assert (blobBytes n (repeat 0 (32 * n)) = repeat 0 (31 * n) /\ blobTops n (repeat 0 (32 * n)) = repeat 0 n) as [Hz Ht0].
  { clear. induction n as [|n [IH1 IH2]]; [split; reflexivity|]. replace (32 * S n)%nat with (32 + 32 * n)%nat by lia.
    cbn [blobBytes blobTops]. rewrite take_repeat, !drop_repeat. replace (32 + 32 * n - 32)%nat with (32 * n)%nat by lia.
    rewrite IH1, IH2, Nat.min_l by lia. replace (31 * S n)%nat with (31 + 31 * n)%nat by lia. rewrite repeat_app. split; reflexivity. }
  destruct (fillBlobBytes_spec n (repeat 0 (32 * n)) data (repeat_length _ _) Hz) as (b1 & H1 & Hl1 & Ht1 & Hb1).
  set (d1 := drop (31 * n) data) in *. assert (digits 256 d1) as Hd1 by now apply Forall_drop.
  assert (pending 0 0) as Hp by (split; lia).
  destruct (fillBlobBits_spec n 0 0 b1 d1 Hp Hd1 Hl1) as (blob & d2 & a' & H2 & Hl2 & Hb2 & Hdg & Hle & Hend); [now rewrite Ht1|].
  exists b1, blob. split; [exact H1|].
  assert (drop (127 * m) data = drop (3 * m) d1) as Hdrop by (unfold d1; rewrite drop_drop; f_equal; lia).
  split; [|split; [exact Hl2|]].
  - unfold fillBlobBits. rewrite H2, Hdrop. destruct Hend as [(-> & Hneg & Hlt)|(Ha & c & -> & Hc & Heq)].
    + rewrite (proj2 (Z.ltb_ge 0 a')) by lia. rewrite drop_ge by lia. reflexivity.
    + assert (a' = 0 /\ c = (3 * m)%nat) as [-> ->] by lia. reflexivity.
  - intros out. destruct (blobBits_spec n 0 0 blob (out ++ blobBytes n blob) Hp Hdg) as (bytes & acc' & a2 & -> & Hby & [Ha2 Hacc'] & Hv & Hlen).
    assert (a2 = 0 /\ length bytes = (3 * m)%nat) as [-> Hlb] by lia. change (2 ^ 0) with 1 in *.
    assert (bytes = padded (3 * m) d1) as ->.
    { apply (le_inj 256); [lia|exact Hby|apply padded_digits; [lia|exact Hd1]|now rewrite padded_length|].
      rewrite le_padded by (lia || exact Hd1). replace acc' with 0 in Hv by lia. rewrite Z.mul_0_r, Z.add_0_r in Hv. rewrite Hv, Hle.
      rewrite !Z.add_0_l, !Z.mul_1_l. f_equal. change 64 with (2 ^ 6). change 256 with (2 ^ 8). rewrite <- !Z.pow_mul_r by lia. f_equal. lia. }
    rewrite <- app_assoc. rewrite Hb2, Hb1. replace (127 * m)%nat with (31 * n + 3 * m)%nat by lia. now rewrite padded_split.
Qed.

(** ** All blobs *)

Lemma padded_all k (l : list Z) : (length l <= k)%nat -> padded k l = l ++ repeat 0 (k - length l).
Proof. intros H. unfold padded. rewrite firstn_app, firstn_all2, take_repeat by lia. f_equal. apply (f_equal (repeat 0)). lia. Qed.

Lemma EncodeBlobs_loop_spec m : (1 <= m)%nat -> forall fuel data blobs, (length data <= fuel)%nat -> digits 256 data ->
  exists bs, EncodeBlobs_loop fuel (4 * m) data blobs = Ok (blobs ++ bs) /\ Forall (fun b => length b = (32 * (4 * m))%nat) bs /\
    (length data <= 127 * m * length bs < length data + 127 * m)%nat /\
    forall out, DecodeBlobs_loop (4 * m) bs out = Ok (out ++ padded (127 * m * length bs) data).
Proof.
  intros Hm. induction fuel as [|fuel IH]; intros data blobs Hf Hd.
  { destruct data; [|cbn in Hf; lia]. exists []. cbn [EncodeBlobs_loop length]. rewrite Nat.mul_0_r, !app_nil_r.
    repeat split; [constructor|lia..|]. intros out. cbn. now rewrite app_nil_r. }
  destruct data as [|x data0] eqn:Hdata.
  { exists []. cbn [EncodeBlobs_loop length]. rewrite Nat.mul_0_r, !app_nil_r.
    repeat split; [constructor|lia..|]. intros out. cbn. now rewrite app_nil_r. }
  rewrite <- Hdata in *. assert (1 <= length data)%nat as Hpos by (rewrite Hdata; cbn; lia). clear Hdata x data0.
  destruct (blob_roundtrip m data Hd) as (b1 & blob & H1 & H2 & Hl & Hdec).
  destruct (IH (drop (127 * m) data) (blobs ++ [blob])) as (bs & Hbs & Hfl & Hlen & Hd'); [rewrite length_drop; lia|now apply Forall_drop|].
  exists (blob :: bs). assert (data <> []) as Hne by (destruct data; cbn in Hpos; [lia|discriminate]).
  destruct data as [|x data0] eqn:Hdata; [congruence|]. cbn [EncodeBlobs_loop]. rewrite <- Hdata in *. rewrite H1, H2. cbn [obind].
  rewrite Hbs, <- app_assoc. split; [reflexivity|]. split; [now constructor|]. rewrite length_drop in Hlen. cbn [length].
  split.
  { rewrite Nat.mul_succ_r. destruct (Nat.le_gt_cases (127 * m) (length data)); [lia|]. destruct (length bs); [lia|].
    rewrite Nat.mul_succ_r in Hlen. lia. }
  intros out. cbn [DecodeBlobs_loop]. rewrite Hdec. cbn [Z.eqb negb]. rewrite Hd', <- app_assoc. f_equal. f_equal.
  replace (127 * m * S (length bs))%nat with (127 * m + 127 * m * length bs)%nat by lia. now rewrite padded_split.
Qed.

(** What the rlp package promises: a byte string is decoded from the front of
    what follows its encoding. *)
Class BlobCodecsLaws (B : BlobCodecs) := {
  rlp_roundtrip data : Forall is_byte data ->
    exists e, rlp_Encode data = Ok e /\ Forall is_byte e /\ forall rest, rlp_Decode (e ++ rest) = Ok data
}.

Section Claims.
Context {B : BlobCodecs} {BL : BlobCodecsLaws B}.

Lemma blobs_roundtrip data : Forall is_byte data ->
  exists e blobs, rlp_Encode data = Ok e /\ EncodeBlobs data = Ok blobs /\
    Forall (fun b => Z.of_nat (length b) = 32 * BlobTxFieldElementsPerBlob) blobs /\
    Z.of_nat (length e) <= BlobEncodableData * Z.of_nat (length blobs) < Z.of_nat (length e) + BlobEncodableData /\
    DecodeBlobs blobs = Ok data.
Proof.
  intros Hd. destruct (rlp_roundtrip data Hd) as (e & He & Hb & Hdec). unfold EncodeBlobs, DecodeBlobs. rewrite He. cbn [obind].
  assert (Z.to_nat BlobTxFieldElementsPerBlob = 4 * Z.to_nat 1024)%nat as -> by (unfold BlobTxFieldElementsPerBlob; lia).
  destruct (EncodeBlobs_loop_spec (Z.to_nat 1024) ltac:(lia) (length e) e []) as (bs & -> & Hl & Hn & Hds); [lia|exact Hb|].
  exists e, bs. split; [reflexivity|]. split; [reflexivity|].
  split; [apply (list.Forall_impl _ _ _ Hl); unfold BlobTxFieldElementsPerBlob; lia|].
  split; [change BlobEncodableData with 130048; lia|]. rewrite Hds. cbn [obind app]. rewrite padded_all by lia. apply Hdec.
Qed.

(** C33: Blobs decode to what was encoded: a byte string is cut into blobs of the
    right size, as many as its encoding needs at [BlobEncodableData] bytes each
    and no more, and [DecodeBlobs] gives it back. Neither direction ends up with
    spare bits. *)
Theorem EncodeBlobs_roundtrip (data : list Z) : Forall is_byte data ->
  exists e blobs, rlp_Encode data = Ok e /\ EncodeBlobs data = Ok blobs /\
    Forall (fun b => Z.of_nat (length b) = 32 * BlobTxFieldElementsPerBlob) blobs /\
    Z.of_nat (length e) <= BlobEncodableData * Z.of_nat (length blobs) < Z.of_nat (length e) + BlobEncodableData /\
    DecodeBlobs blobs = Ok data.
Proof. apply blobs_roundtrip. Qed.

(** ** The provider *)

Lemma splitHashes_concat : forall hashes, Forall (in_u 256) hashes ->
  splitHashes (length hashes) (concat (map Hash_Bytes hashes)) = hashes.
Proof.
  induction hashes as [|h hashes IH]; intros H; [reflexivity|]. inversion H; subst. cbn [length splitHashes map concat].
  rewrite take_app_length', drop_app_length' by (symmetry; apply length_Hash_Bytes). rewrite BytesToHash_bytes by assumption.
  f_equal. now apply IH.
Qed.

Lemma length_concat_hashes hashes : length (concat (map Hash_Bytes hashes)) = (32 * length hashes)%nat.
Proof. induction hashes as [|h hashes IH]; [reflexivity|]. cbn [map concat length]. rewrite length_app, IH, length_Hash_Bytes. lia. Qed.

(** Data that was put into blobs is recovered from the hashes of the blobs. *)
Lemma blob_batch_recovered data blobs hashes header GetBlobs h : Forall is_byte data -> EncodeBlobs data = Ok blobs ->
  length header = 40%nat -> Forall (in_u 256) hashes -> GetBlobs h hashes = Ok blobs ->
  RecoverPayloadFromBlobBatch GetBlobs h (header ++ BlobHashesHeaderFlag :: concat (map Hash_Bytes hashes)) = Ok (Some data).
Proof.
  intros Hd He Hl Hr Hg. destruct (blobs_roundtrip data Hd) as (e & bs & _ & He' & _ & _ & Hdec). rewrite He in He'. injection He' as <-.
  unfold RecoverPayloadFromBlobBatch. rewrite length_app. cbn [length]. rewrite Hl.
  rewrite (proj2 (Nat.ltb_ge _ _)) by lia.
  assert (drop 41 (header ++ BlobHashesHeaderFlag :: concat (map Hash_Bytes hashes)) = concat (map Hash_Bytes hashes)) as ->.
  { change (BlobHashesHeaderFlag :: ?l) with ([BlobHashesHeaderFlag] ++ l). rewrite app_assoc. apply drop_app_length'.
    rewrite length_app, Hl. reflexivity. }
  rewrite length_concat_hashes. rewrite (Nat.mul_comm 32), Nat.Div0.mod_mul, Nat.div_mul by lia. cbn [Nat.eqb negb].
  now rewrite splitHashes_concat, Hg, Hdec.
Qed.

Lemma BlobPreimageReader_reads Resolve : forall blobs hashes,
  Forall (fun b => Z.of_nat (length b) = 32 * BlobTxFieldElementsPerBlob) blobs ->
  Forall2 (fun h b => Resolve h = Ok b) hashes blobs -> BlobPreimageReader_GetBlobs Resolve hashes = Ok blobs.
Proof.
  induction blobs as [|b blobs IH]; intros hashes Hl Hr; inversion Hr as [|h ? hs ? Hh Hhs]; subst; [reflexivity|].
  inversion Hl as [|? ? Hb Hbs]; subst. cbn [BlobPreimageReader_GetBlobs]. rewrite Hh. cbn [obind]. rewrite Hb, Z.eqb_refl.
  cbn [negb]. now rewrite (IH hs Hbs Hhs).
Qed.

End Claims.

(** ** Example *)

(** A code that marks every byte with a one and ends with a zero. *)
Fixpoint unmark (l : list Z) : list Z :=
  match l with
  | m :: x :: l => if m =? 1 then x :: unmark l else []
  | _ => []
  end.

Definition example_blob_codecs : BlobCodecs := {|
  rlp_Encode := fun b => Ok (flat_map (fun x => [1; x]) b ++ [0]);
  rlp_Decode := fun b => Ok (unmark b);
  BlobToCommitment := fun b => Ok (take 48 b);
  ComputeBlobProof := fun b c => Ok (take 48 b);
  Sum256 := fun b => be b mod 2 ^ 256
|}.

Lemma example_blob_codecs_laws : BlobCodecsLaws example_blob_codecs.
Proof.
  constructor. intros data Hd. eexists. split; [reflexivity|]. split.
  - apply Forall_app. split; [|repeat constructor; unfold is_byte; lia].
    induction Hd as [|x l Hx Hl IH]; cbn; repeat constructor; unfold is_byte in *; try lia; assumption.
  - intros rest. cbn [rlp_Decode example_blob_codecs]. f_equal. clear Hd. induction data as [|x l IH]; cbn; [now destruct rest|]. now f_equal.
Qed.

Lemma EncodeBlobs_roundtrip_witness :
  exists blobs, EncodeBlobs (B := example_blob_codecs) [1; 2; 3] = Ok blobs /\ length blobs = 1%nat /\
    DecodeBlobs (B := example_blob_codecs) blobs = Ok [1; 2; 3].
Proof.
  destruct (EncodeBlobs_roundtrip (B := example_blob_codecs) (BL := example_blob_codecs_laws) [1; 2; 3])
    as (e & blobs & He & Hb & _ & Hl & Hd).
  - repeat constructor; unfold is_byte; lia.
  - exists blobs. split; [exact Hb|]. split; [|exact Hd]. injection He as <-. change BlobEncodableData with 130048 in Hl. cbn in Hl. lia.
Defined.
