(* ===== verification/InboxFacts.v ===== *)
(** * The multiplexer of the inbox: what its messages are

    The specification of the messages of a batch has no cursor and no cache:
    the segments give a list of sub-messages, and a run delivers them in order
    with the delayed messages ([batch_messages]). What is proved: popping a
    batch delivers exactly that list and leaves the multiplexer at the next
    batch; a multiplexer that is created anew before every message delivers the
    same messages; the zero-heavy stage of the parser. *)
From Stdlib Require Import ZArith Lia String List.
From stdpp Require Import base list numbers list_numbers.
From S2P Require Import Prelude Arbmath Host Storage Readers L1Pricing IncomingMessage ArbosState Zeroheavy Inbox.
Open Scope Z_scope.

(** What a backend promises: the position within a message is a field of its
    own, which the other operations neither read nor write. *)
Class InboxBackendLaws (B : Type) {IB : InboxBackend B} := {
  Get_SetPosition b p : GetPositionWithinMessage (SetPositionWithinMessage b p) = p;
  Set_SetPosition b p q : SetPositionWithinMessage (SetPositionWithinMessage b p) q = SetPositionWithinMessage b q;
  Set_GetPosition b : SetPositionWithinMessage b (GetPositionWithinMessage b) = b;
  Peek_SetPosition b p : PeekSequencerInbox (SetPositionWithinMessage b p) = PeekSequencerInbox b;
  InboxPosition_SetPosition b p : GetSequencerInboxPosition (SetPositionWithinMessage b p) = GetSequencerInboxPosition b;
  ReadDelayed_SetPosition b p n : ReadDelayedInbox (SetPositionWithinMessage b p) n = ReadDelayedInbox b n;
  GetPosition_Advance b : GetPositionWithinMessage (AdvanceSequencerInbox b) = GetPositionWithinMessage b
}.

(** ** The messages of a batch *)

Section Spec.
Context {C : Codecs}.

(** A segment that makes a message, with the time and block reached before it. *)
Record submessage := mkSubmessage {
  sub_timestamp : Z;
  sub_blockNumber : Z;
  sub_segment : list Z
}.

(** The time and block behind a segment that makes no message, an empty one or
    an advance; [None] for one that does. *)
Definition skipped (segment : list Z) (ts bn : Z) : option (Z * Z) :=
  match segment with
  | [] => Some (ts, bn)
  | kind :: rd =>
      if (kind =? BatchSegmentKindAdvanceTimestamp) || (kind =? BatchSegmentKindAdvanceL1BlockNumber) then
        match Stream_Uint64 (NewStream rd 16) with
        | Some v => Some (if kind =? BatchSegmentKindAdvanceTimestamp then (ts +u64 v, bn) else (ts, bn +u64 v))
        | None => Some (ts, bn)
        end
      else None
  end.

Fixpoint submessages (segments : list (list Z)) (ts bn : Z) : list submessage :=
  match segments with
  | [] => []
  | segment :: segments =>
      match skipped segment ts bn with
      | Some (ts, bn) => submessages segments ts bn
      | None => mkSubmessage ts bn segment :: submessages segments ts bn
      end
  end.

Context (m : sequencerMessage) (delayed : Z -> L1IncomingMessage).

(** The message of a sub-message when [d] delayed messages were read, [None] if
    it cannot be parsed, and the delayed messages read then. *)
Definition deliver (s : submessage) (d : Z) : option MessageWithMetadata * Z :=
  let timestamp := clampToBounds (sub_timestamp s) (sm_minTimestamp m) (sm_maxTimestamp m) in
  let blockNumber := clampToBounds (sub_blockNumber s) (sm_minL1Block m) (sm_maxL1Block m) in
  let l2 data :=
    (Some (mkMessageWithMetadata
       (mkL1IncomingMessage
          (mkL1Header L1MessageType_L2Message BatchPosterAddress blockNumber timestamp None (Some 0)) data None) d), d) in
  match sub_segment s with
  | [] => (None, d)
  | kind :: data =>
      if kind =? BatchSegmentKindL2Message then l2 data
      else if kind =? BatchSegmentKindL2MessageBrotli then
        match Decompress data MaxL2MessageSize with Some data => l2 data | None => (None, d) end
      else if kind =? BatchSegmentKindDelayedMessages then
        if sm_afterDelayedMessages m <=? d
        then (Some (mkMessageWithMetadata InvalidL1Message (sm_afterDelayedMessages m)), d)
        else (Some (mkMessageWithMetadata (delayed d) (d + 1)), d + 1)
      else (None, d)
  end.

(** Nothing follows: all delayed messages were read, no segment makes a message. *)
Definition isLast (rest : list submessage) (d : Z) : bool :=
  (sm_afterDelayedMessages m <=? d) && negb (existsb isMessageSegment (map sub_segment rest)).

Definition delayed_messages (d : Z) : list MessageWithMetadata :=
  map (fun n => mkMessageWithMetadata (delayed n) (n + 1)) (seqZ d (sm_afterDelayedMessages m - d)).

Fixpoint deliver_all (subs : list submessage) (d : Z) : list MessageWithMetadata :=
  match subs with
  | [] => delayed_messages d
  | s :: rest =>
      let '(msg, d) := deliver s d in
      let last := isLast rest d in
      default (mkMessageWithMetadata InvalidL1Message (if last then sm_afterDelayedMessages m else d)) msg
      :: (if last then [] else deliver_all rest d)
  end.

(** A batch without sub-messages and with no delayed message left still makes
    one message, an invalid one. *)
Definition batch_messages (d : Z) : list MessageWithMetadata :=
  let subs := submessages (sm_segments m) 0 0 in
  if (sm_afterDelayedMessages m <=? d) && (length subs =? 0)%nat
  then [mkMessageWithMetadata InvalidL1Message (sm_afterDelayedMessages m)]
  else deliver_all subs d.

End Spec.

(** ** Seeking *)

Section Seek.
Context {C : Codecs}.

Lemma seek_cons segment segments t c :
  seekSubMessage (segment :: segments) t c =
  match skipped segment (cur_timestamp c) (cur_blockNumber c) with
  | Some (ts, bn) => seekSubMessage segments t (mkCursor (S (cur_segmentNum c)) ts bn (cur_submessageNumber c))
  | None =>
      if cur_submessageNumber c <? t
      then seekSubMessage segments t
             (mkCursor (S (cur_segmentNum c)) (cur_timestamp c) (cur_blockNumber c) (cur_submessageNumber c + 1))
      else c
  end.
Proof.
  unfold skipped. cbn [seekSubMessage]. destruct segment as [|kind rd]; [reflexivity|].
  destruct (_ || _); [|reflexivity]. destruct (Stream_Uint64 _); [|reflexivity]. now destruct (_ =? _).
Qed.

(** The cursor moves over the segments that it was given. *)
Lemma seek_num t : forall segments c,
  (cur_segmentNum c <= cur_segmentNum (seekSubMessage segments t c) <= cur_segmentNum c + length segments)%nat.
Proof.
  induction segments as [|s segments IH]; intros c; [cbn; lia|]. rewrite seek_cons. cbn [length].
  destruct (skipped _ _ _) as [[ts bn]|]; [|destruct (_ <? _); [|lia]];
    match goal with |- context [seekSubMessage segments t ?c'] => specialize (IH c') end; cbn in *; lia.
Qed.

(** Seeking a sub-message and a later one from there is seeking the later one. *)
Lemma seek_seek t t' : t <= t' -> forall segments c,
  let c' := seekSubMessage segments t c in
  seekSubMessage (drop (cur_segmentNum c' - cur_segmentNum c) segments) t' c' = seekSubMessage segments t' c.
Proof.
  intros Ht. induction segments as [|s segments IH]; intros c; [cbn [seekSubMessage]; now rewrite drop_nil|].
  cbv zeta. rewrite (seek_cons s segments t c).
  assert (forall ts bn n, let c0 := mkCursor (S (cur_segmentNum c)) ts bn n in
    let c' := seekSubMessage segments t c0 in
    seekSubMessage (drop (cur_segmentNum c' - cur_segmentNum c) (s :: segments)) t' c' = seekSubMessage segments t' c0) as Hn.
  { intros ts bn n c0 c'. pose proof (seek_num t segments c0) as Hl. fold c' in Hl. cbn in Hl.
    replace (cur_segmentNum c' - cur_segmentNum c)%nat with (S (cur_segmentNum c' - cur_segmentNum c0)) by (cbn; lia).
    cbn [drop]. apply (IH c0). }
  destruct (skipped s (cur_timestamp c) (cur_blockNumber c)) as [[ts bn]|] eqn:Hs.
  - rewrite Hn, seek_cons. now rewrite Hs.
  - destruct (Z.ltb_spec (cur_submessageNumber c) t).
    + rewrite Hn, seek_cons, Hs. destruct (Z.ltb_spec (cur_submessageNumber c) t'); [reflexivity|lia].
    + now rewrite Nat.sub_diag.
Qed.

Lemma seek_seek_zero t t' segments : t <= t' ->
  let c := seekSubMessage segments t zero_cursor in
  seekSubMessage (drop (cur_segmentNum c) segments) t' c = seekSubMessage segments t' zero_cursor.
Proof. intros Ht c. pose proof (seek_seek t t' Ht segments zero_cursor) as H. cbn in H. now rewrite Nat.sub_0_r in H. Qed.

(** The cursor of a seek stands on the sub-message of that number, or at the end. *)
Lemma seek_spec t : forall segments c, cur_submessageNumber c <= t ->
  let subs := submessages segments (cur_timestamp c) (cur_blockNumber c) in
  let c' := seekSubMessage segments t c in
  let k := Z.to_nat (t - cur_submessageNumber c) in
  match subs !! k with
  | Some s =>
      segments !! (cur_segmentNum c' - cur_segmentNum c)%nat = Some (sub_segment s) /\
      cur_timestamp c' = sub_timestamp s /\ cur_blockNumber c' = sub_blockNumber s /\
      submessages (drop (S (cur_segmentNum c' - cur_segmentNum c)) segments) (cur_timestamp c') (cur_blockNumber c') = drop (S k) subs
  | None => (cur_segmentNum c' = cur_segmentNum c + length segments)%nat
  end.
Proof.
  induction segments as [|s segments IH]; intros c Hc; [cbn [submessages length seekSubMessage]; rewrite lookup_nil; lia|]. cbv zeta.
  rewrite seek_cons. cbn [submessages length].
  assert (forall ts bn n, n <= t -> let c0 := mkCursor (S (cur_segmentNum c)) ts bn n in
    let c' := seekSubMessage segments t c0 in
    let k := Z.to_nat (t - n) in
    match submessages segments ts bn !! k with
    | Some s' => (s :: segments) !! (cur_segmentNum c' - cur_segmentNum c)%nat = Some (sub_segment s') /\
        cur_timestamp c' = sub_timestamp s' /\ cur_blockNumber c' = sub_blockNumber s' /\
        submessages (drop (S (cur_segmentNum c' - cur_segmentNum c)) (s :: segments)) (cur_timestamp c') (cur_blockNumber c') =
          drop (S k) (submessages segments ts bn)
    | None => (cur_segmentNum c' = cur_segmentNum c + S (length segments))%nat
    end) as Hn.
  { intros ts bn n Hle c0 c' k. pose proof (seek_num t segments c0) as Hl. specialize (IH c0 Hle). cbv zeta in IH.
    fold c' in Hl, IH. change (cur_segmentNum c0) with (S (cur_segmentNum c)) in *.
    change (cur_timestamp c0) with ts in IH. change (cur_blockNumber c0) with bn in IH.
    change (cur_submessageNumber c0) with n in IH. fold k in IH.
    replace (cur_segmentNum c' - cur_segmentNum c)%nat with (S (cur_segmentNum c' - S (cur_segmentNum c))) by lia.
    cbn [drop lookup list_lookup]. destruct (_ !! k); [exact IH|lia]. }
  destruct (skipped s (cur_timestamp c) (cur_blockNumber c)) as [[ts bn]|]; [exact (Hn ts bn _ Hc)|].
  destruct (Z.ltb_spec (cur_submessageNumber c) t).
  - replace (Z.to_nat (t - cur_submessageNumber c)) with (S (Z.to_nat (t - (cur_submessageNumber c + 1)))) by lia.
    cbn [lookup list_lookup drop]. exact (Hn _ _ (cur_submessageNumber c + 1) ltac:(lia)).
  - replace (t - cur_submessageNumber c) with 0 by lia. cbn. rewrite Nat.sub_diag. cbn. now rewrite drop_0.
Qed.

(** The segments that make messages are among the sub-messages. *)
Lemma existsb_submessages : forall segments ts bn,
  existsb isMessageSegment (map sub_segment (submessages segments ts bn)) = existsb isMessageSegment segments.
Proof.
  induction segments as [|s segments IH]; intros ts bn; [reflexivity|]. cbn [submessages existsb].
  destruct (skipped s ts bn) as [[ts' bn']|] eqn:Hs; [|cbn; now rewrite IH]. rewrite IH.
  assert (isMessageSegment s = false) as ->; [|reflexivity]. unfold skipped in Hs. destruct s as [|kind rd]; [reflexivity|].
  unfold isMessageSegment, BatchSegmentKindAdvanceTimestamp, BatchSegmentKindAdvanceL1BlockNumber in *.
  unfold BatchSegmentKindL2Message, BatchSegmentKindL2MessageBrotli, BatchSegmentKindDelayedMessages.
  destruct (Z.eqb_spec kind 3) as [->|]; [reflexivity|]. destruct (Z.eqb_spec kind 4) as [->|]; [reflexivity|discriminate].
Qed.

End Seek.

(** ** The cache *)

Section Pops.
Context {C : Codecs} {B : Type} {IB : InboxBackend B} {BL : InboxBackendLaws B}.
Context (daProviders : list (option DataAvailabilityProvider)) (mode : Z).

#[local] Notation Pop := (Pop daProviders mode).

(** The batch at the front of the inbox is parsed as [m], in the mode that is
    chosen at any position within it. *)
Definition front (modes : B -> Z) (b : B) (m : sequencerMessage) : Prop :=
  exists bytes h, PeekSequencerInbox b = Ok (bytes, h) /\
    forall p, parseSequencerMessage (GetSequencerInboxPosition b) h bytes daProviders
                (modes (SetPositionWithinMessage b p)) = Ok m.

Lemma front_SetPosition modes b p m : front modes b m -> front modes (SetPositionWithinMessage b p) m.
Proof.
  intros (bytes & h & Hp & H). exists bytes, h. rewrite Peek_SetPosition, InboxPosition_SetPosition.
  split; [exact Hp|]. intros q. rewrite Set_SetPosition. apply H.
Qed.

Lemma front_here modes b m : front modes b m ->
  exists bytes h, PeekSequencerInbox b = Ok (bytes, h) /\
    parseSequencerMessage (GetSequencerInboxPosition b) h bytes daProviders (modes b) = Ok m.
Proof.
  intros (bytes & h & Hp & H). exists bytes, h. split; [exact Hp|].
  specialize (H (GetPositionWithinMessage b)). now rewrite Set_GetPosition in H.
Qed.

(** What the cache holds: the batch at the front, and a cursor that a seek for
    the present position or an earlier one left there. *)
Definition mx_inv (r : inboxMultiplexer) : Prop :=
  match mx_cachedSequencerMessage r with
  | None => mx_cursor r = zero_cursor
  | Some m =>
      front (fun _ => mode) (mx_backend r) m /\
      exists t, t <= GetPositionWithinMessage (mx_backend r) /\ mx_cursor r = seekSubMessage (sm_segments m) t zero_cursor
  end.

(** The cursor is where a seek from the start of the batch would not differ. *)
Definition cursor_ok (m : sequencerMessage) (r : inboxMultiplexer) : Prop :=
  let p := GetPositionWithinMessage (mx_backend r) in
  seekSubMessage (drop (cur_segmentNum (mx_cursor r)) (sm_segments m)) p (mx_cursor r) =
  seekSubMessage (sm_segments m) p zero_cursor.

Lemma getNextMsg_cursor m r : cursor_ok m r ->
  getNextMsg m r =
    let '(o, r1) := getNextMsg m (NewInboxMultiplexer (mx_backend r) (mx_delayedMessagesRead r)) in
    (o, mkInboxMultiplexer (mx_backend r) (mx_delayedMessagesRead r1) (mx_cachedSequencerMessage r)
          (mx_cachedSequencerMessageNum r)
          (seekSubMessage (sm_segments m) (GetPositionWithinMessage (mx_backend r)) zero_cursor)).
Proof.
  unfold cursor_ok. intros Hc. unfold getNextMsg. cbn [NewInboxMultiplexer mx_backend mx_delayedMessagesRead mx_cursor
    mx_cachedSequencerMessage mx_cachedSequencerMessageNum]. cbv zeta. rewrite Hc.
  change (drop (cur_segmentNum zero_cursor) (sm_segments m)) with (sm_segments m).
  destruct (default _ _) as [|kind segment]; [reflexivity|].
  destruct (_ || _); [now destruct (if kind =? _ then _ else _)|]. destruct (kind =? _); [|reflexivity].
  destruct (_ <=? _); [reflexivity|]. now destruct (ReadDelayedInbox _ _).
Qed.

(** The message of the batch [m] at the front, the backend and the number of
    delayed messages behind it, computed without a cache. *)
Definition popAt (m : sequencerMessage) (b : B) (d : Z) : outcome MessageWithMetadata * (B * Z) :=
  let '(o, r) := getNextMsg m (NewInboxMultiplexer b d) in
  let last := IsCachedSegementLast m r in
  let b := if last then AdvanceSequencerInbox (SetPositionWithinMessage b 0)
           else SetPositionWithinMessage b (GetPositionWithinMessage b +u64 1) in
  let d := if last then sm_afterDelayedMessages m else mx_delayedMessagesRead r in
  (let? msg := o in Ok (default (mkMessageWithMetadata InvalidL1Message d) msg), (b, d)).

Definition observe (x : outcome MessageWithMetadata * inboxMultiplexer) : outcome MessageWithMetadata * (B * Z) :=
  (fst x, (mx_backend (snd x), mx_delayedMessagesRead (snd x))).

Lemma Pop_loaded m r r0 : loadSequencerMessage daProviders mode r0 = (Ok m, r) ->
  mx_cachedSequencerMessage r = Some m -> cursor_ok m r ->
  observe (Pop r0) = popAt m (mx_backend r) (mx_delayedMessagesRead r) /\
  (in_u 64 (GetPositionWithinMessage (mx_backend r) + 1) -> front (fun _ => mode) (mx_backend r) m -> mx_inv (snd (Pop r0))).
Proof.
  intros Hl Hm Hc. unfold Inbox.Pop, popAt. rewrite Hl, (getNextMsg_cursor m r Hc).
  pose proof (getNextMsg_cursor m (NewInboxMultiplexer (mx_backend r) (mx_delayedMessagesRead r)) eq_refl) as Hn.
  cbn [NewInboxMultiplexer mx_backend mx_delayedMessagesRead mx_cachedSequencerMessage mx_cachedSequencerMessageNum] in Hn.
  destruct (getNextMsg m (NewInboxMultiplexer (mx_backend r) (mx_delayedMessagesRead r))) as [o r1].
  injection Hn as Hr1. cbv zeta.
  assert (forall x, IsCachedSegementLast m (mkInboxMultiplexer (mx_backend r) (mx_delayedMessagesRead r1) (Some m) x
    (seekSubMessage (sm_segments m) (GetPositionWithinMessage (mx_backend r)) zero_cursor)) = IsCachedSegementLast m r1) as HL
    by (intros; now rewrite Hr1).
  rewrite Hm, HL. destruct (IsCachedSegementLast m r1); (split; [destruct o as [[msg|]| |]; reflexivity|]); intros Hp Hf;
    [destruct o as [[msg|]| |]; reflexivity|].
  destruct o as [[msg|]| |]; cbn [snd]; unfold mx_inv, advanceSubMsg; cbn [mx_cachedSequencerMessage mx_backend mx_cursor];
    (split; [apply front_SetPosition, Hf|]); exists (GetPositionWithinMessage (mx_backend r));
    rewrite Get_SetPosition, uwrap_id by exact Hp; (split; [lia|reflexivity]).
Qed.

(** What a pop does is what a pop of a multiplexer without a cache does. *)
Lemma Pop_fresh r : mx_inv r -> in_u 64 (GetPositionWithinMessage (mx_backend r) + 1) ->
  mx_inv (snd (Pop r)) /\ observe (Pop r) = observe (Pop (NewInboxMultiplexer (mx_backend r) (mx_delayedMessagesRead r))).
Proof.
  intros Hi Hp. destruct r as [b d [m|] num c]; cbn [mx_backend mx_delayedMessagesRead] in *.
  - destruct Hi as [Hf (t & Ht & Hc)]. cbn [mx_backend mx_cursor] in *.
    destruct (Pop_loaded m (mkInboxMultiplexer b d (Some m) num c) (mkInboxMultiplexer b d (Some m) num c) eq_refl eq_refl)
      as [Ho Hi].
    { unfold cursor_ok. cbn [mx_backend mx_cursor]. rewrite Hc. now apply seek_seek_zero. }
    split; [apply Hi; [exact Hp|exact Hf]|]. rewrite Ho. cbn [mx_backend mx_delayedMessagesRead]. symmetry.
    apply front_here in Hf as (bytes & h & Hpk & Hps).
    apply (Pop_loaded m (mkInboxMultiplexer b d (Some m) (GetSequencerInboxPosition b) zero_cursor)); try reflexivity.
    unfold loadSequencerMessage. cbn [NewInboxMultiplexer mx_cachedSequencerMessage mx_backend]. now rewrite Hpk, Hps.
  - unfold mx_inv in Hi. cbn in Hi. subst c.
    destruct (PeekSequencerInbox b) as [[bytes h]|e|s] eqn:Hpk.
    2,3: unfold Inbox.Pop, loadSequencerMessage; cbn [NewInboxMultiplexer mx_cachedSequencerMessage mx_backend];
      rewrite Hpk; split; reflexivity.
    destruct (parseSequencerMessage (GetSequencerInboxPosition b) h bytes daProviders mode) as [m|e|s] eqn:Hps.
    2,3: unfold Inbox.Pop, loadSequencerMessage; cbn [NewInboxMultiplexer mx_cachedSequencerMessage mx_backend];
      rewrite Hpk, Hps; split; reflexivity.
    assert (forall n, loadSequencerMessage daProviders mode (mkInboxMultiplexer b d None n zero_cursor) =
      (Ok m, mkInboxMultiplexer b d (Some m) (GetSequencerInboxPosition b) zero_cursor)) as Hl.
    { intros n. unfold loadSequencerMessage. cbn [mx_cachedSequencerMessage mx_backend mx_delayedMessagesRead mx_cursor].
      now rewrite Hpk, Hps. }
    destruct (Pop_loaded m _ _ (Hl num) eq_refl eq_refl) as [Ho Hi].
    split; [apply Hi; [exact Hp|exists bytes, h; auto]|]. rewrite Ho. symmetry. apply (Pop_loaded m _ _ (Hl 0) eq_refl eq_refl).
Qed.

(** A run of pops, and a run in which the multiplexer is created anew each time. *)
Fixpoint pops (n : nat) (r : inboxMultiplexer) : list (outcome MessageWithMetadata) * inboxMultiplexer :=
  match n with
  | O => ([], r)
  | S n => let '(o, r) := Pop r in let '(os, r) := pops n r in (o :: os, r)
  end.

Fixpoint fresh_pops (modes : B -> Z) (n : nat) (b : B) (d : Z) : list (outcome MessageWithMetadata) * (B * Z) :=
  match n with
  | O => ([], (b, d))
  | S n =>
      let '(o, r) := Inbox.Pop daProviders (modes b) (NewInboxMultiplexer b d) in
      let '(os, bd) := fresh_pops modes n (mx_backend r) (mx_delayedMessagesRead r) in (o :: os, bd)
  end.

Lemma Pop_position r : mx_inv r -> in_u 64 (GetPositionWithinMessage (mx_backend r) + 1) ->
  0 <= GetPositionWithinMessage (mx_backend r) ->
  0 <= GetPositionWithinMessage (mx_backend (snd (Pop r))) <= GetPositionWithinMessage (mx_backend r) + 1.
Proof.
  intros Hi Hp H0. unfold Inbox.Pop. destruct (loadSequencerMessage daProviders mode r) as [o r1] eqn:Hl.
  assert (mx_backend r1 = mx_backend r) as Hb.
  { unfold loadSequencerMessage in Hl. destruct (mx_cachedSequencerMessage r); [now injection Hl as _ <-|].
    destruct (PeekSequencerInbox _) as [[? ?]| |]; [destruct (parseSequencerMessage _ _ _ _ _)|..]; now injection Hl as _ <-. }
  destruct o as [m|e|s]; [|cbn; rewrite Hb; lia..].
  assert (mx_backend (snd (getNextMsg m r1)) = mx_backend r) as Hg.
  { unfold getNextMsg. cbv zeta. destruct (default _ _) as [|kind segment]; [exact Hb|].
    destruct (_ || _); [now destruct (if kind =? _ then _ else _)|]. destruct (kind =? _); [|exact Hb].
    destruct (_ <=? _); [exact Hb|]. now destruct (ReadDelayedInbox _ _). }
  destruct (getNextMsg m r1) as [o r2]. cbn in Hg.
  assert (0 <= GetPositionWithinMessage (mx_backend (if IsCachedSegementLast m r2 then advanceSequencerMsg r2 else advanceSubMsg r2))
    <= GetPositionWithinMessage (mx_backend r) + 1) as H.
  { destruct (IsCachedSegementLast m r2); cbn [advanceSequencerMsg advanceSubMsg mx_backend].
    - rewrite GetPosition_Advance, Get_SetPosition. lia.
    - rewrite Get_SetPosition, Hg, uwrap_id by exact Hp. lia. }
  destruct o as [[msg|]|e|s]; exact H.
Qed.

Lemma pops_fresh_pops : forall n r, mx_inv r -> 0 <= GetPositionWithinMessage (mx_backend r) ->
  GetPositionWithinMessage (mx_backend r) + Z.of_nat n < 2 ^ 64 ->
  let '(os, r') := pops n r in
  fresh_pops (fun _ => mode) n (mx_backend r) (mx_delayedMessagesRead r) = (os, (mx_backend r', mx_delayedMessagesRead r')).
Proof.
  induction n as [|n IH]; intros r Hi H0 Hp; [reflexivity|]. cbn [pops fresh_pops].
  assert (in_u 64 (GetPositionWithinMessage (mx_backend r) + 1)) as Hw by (unfold in_u; lia).
  destruct (Pop_fresh r Hi Hw) as [Hi' Ho]. pose proof (Pop_position r Hi Hw H0) as Hpos. unfold observe in Ho.
  destruct (Pop r) as [o r1]. destruct (Pop (NewInboxMultiplexer _ _)) as [o' r1']. cbn [fst snd] in *.
  injection Ho as -> <- <-. specialize (IH r1 Hi' ltac:(lia) ltac:(lia)). destruct (pops n r1) as [os r']. now rewrite IH.
Qed.

Lemma fresh_pops_app modes n1 n2 : forall b d os b1 d1 os2 bd,
  fresh_pops modes n1 b d = (os, (b1, d1)) -> fresh_pops modes n2 b1 d1 = (os2, bd) ->
  fresh_pops modes (n1 + n2) b d = (os ++ os2, bd).
Proof.
  induction n1 as [|n1 IH]; intros b d os b1 d1 os2 bd H1 H2; [now injection H1 as <- <- <-|].
  cbn [Nat.add fresh_pops] in *. destruct (Inbox.Pop _ _ _) as [o r].
  destruct (fresh_pops modes n1 _ _) as [os' bd'] eqn:Hf. injection H1 as <- ->. now rewrite (IH _ _ _ _ _ _ _ Hf H2).
Qed.

(** ** A batch from its start to its end *)

End Pops.

Section Runs.
Context {C : Codecs} {B : Type} {IB : InboxBackend B} {BL : InboxBackendLaws B}.
Context (daProviders : list (option DataAvailabilityProvider)) (modes : B -> Z).

#[local] Notation front := (front daProviders modes).
#[local] Notation fresh_pops := (fresh_pops daProviders modes).

Lemma Pop_front b d m : front b m -> observe (Pop daProviders (modes b) (NewInboxMultiplexer b d)) = popAt m b d.
Proof.
  intros (bytes & h & Hpk & Hps)%front_here.
  apply (Pop_loaded daProviders (modes b) m (mkInboxMultiplexer b d (Some m) (GetSequencerInboxPosition b) zero_cursor)); try reflexivity.
  unfold loadSequencerMessage. cbn [NewInboxMultiplexer mx_cachedSequencerMessage mx_backend]. now rewrite Hpk, Hps.
Qed.

Section Batch.
Context (m : sequencerMessage) (delayed : Z -> L1IncomingMessage).

#[local] Notation after := (sm_afterDelayedMessages m).
#[local] Notation subs := (submessages (sm_segments m) 0 0).
#[local] Notation ended b := (AdvanceSequencerInbox (SetPositionWithinMessage b 0)).

(** The state behind a message: the next batch, or the next sub-message. *)
Definition stepped (last : bool) (b : B) (d : Z) : B * Z :=
  if last then (ended b, after) else (SetPositionWithinMessage b (GetPositionWithinMessage b + 1), d).

Definition reads_delayed (b : B) (d : Z) : Prop := forall n, d <= n < after -> ReadDelayedInbox b n = Ok (delayed n).

Lemma isLast_code c d1 x y z :
  IsCachedSegementLast (B := B) m (mkInboxMultiplexer x d1 y z c) =
  isLast m (submessages (drop (S (cur_segmentNum c)) (sm_segments m)) (cur_timestamp c) (cur_blockNumber c)) d1.
Proof.
  unfold IsCachedSegementLast, isLast. cbn [mx_delayedMessagesRead mx_cursor]. rewrite existsb_submessages.
  destruct (Z.ltb_spec d1 after), (Z.leb_spec after d1); try lia; reflexivity.
Qed.

Lemma popAt_sub b d s : 0 <= GetPositionWithinMessage b -> in_u 64 (GetPositionWithinMessage b + 1) ->
  0 <= d -> after < 2 ^ 64 -> reads_delayed b d ->
  subs !! Z.to_nat (GetPositionWithinMessage b) = Some s ->
  popAt m b d =
    let '(msg, d1) := deliver m delayed s d in
    let last := isLast m (drop (S (Z.to_nat (GetPositionWithinMessage b))) subs) d1 in
    (Ok (default (mkMessageWithMetadata InvalidL1Message (if last then after else d1)) msg), stepped last b d1).
Proof.
  intros H0 Hp Hd Ha Hr Hs. pose proof (seek_spec (GetPositionWithinMessage b) (sm_segments m) zero_cursor H0) as Hk.
  cbv zeta in Hk. change (cur_timestamp zero_cursor) with 0 in Hk. change (cur_blockNumber zero_cursor) with 0 in Hk.
  change (cur_submessageNumber zero_cursor) with 0 in Hk. change (cur_segmentNum zero_cursor) with 0%nat in Hk.
  rewrite Z.sub_0_r, Hs, Nat.sub_0_r in Hk.
  unfold popAt, getNextMsg. cbn [NewInboxMultiplexer mx_backend mx_delayedMessagesRead mx_cursor mx_cachedSequencerMessage
    mx_cachedSequencerMessageNum]. cbv zeta.
  change (drop (cur_segmentNum zero_cursor) (sm_segments m)) with (sm_segments m).
  set (c := seekSubMessage (sm_segments m) (GetPositionWithinMessage b) zero_cursor) in *.
  destruct Hk as (Hseg & Hts & Hbn & Hrest). rewrite Hseg. cbn [default]. unfold deliver, stepped.
  rewrite <- Hts, <- Hbn. unfold id.
  pose proof (fun d1 => isLast_code c d1 b None 0) as HL. rewrite Hrest in HL.
  destruct (sub_segment s) as [|kind data]; [rewrite HL; now destruct (isLast _ _ _); rewrite ?uwrap_id|].
  assert ((BatchSegmentKindL2Message =? BatchSegmentKindL2MessageBrotli) = false) as Hne by reflexivity.
  destruct (Z.eqb_spec kind BatchSegmentKindL2Message) as [->|_]; cbn [orb].
  { rewrite Hne, HL. now destruct (isLast _ _ _); rewrite ?uwrap_id. }
  destruct (kind =? BatchSegmentKindL2MessageBrotli).
  { destruct (Decompress data MaxL2MessageSize); rewrite HL; now destruct (isLast _ _ _); rewrite ?uwrap_id. }
  destruct (kind =? BatchSegmentKindDelayedMessages); [|rewrite HL; now destruct (isLast _ _ _); rewrite ?uwrap_id].
  destruct (Z.leb_spec after d); [rewrite HL; now destruct (isLast _ _ _); rewrite ?uwrap_id|].
  rewrite Hr by lia. rewrite (uwrap_id 64 (d + 1)) by (unfold in_u; lia). rewrite HL.
  now destruct (isLast _ _ _); rewrite ?uwrap_id.
Qed.

(** Behind the last segment there are delayed messages up to [after]. *)
Lemma popAt_end b d : 0 <= GetPositionWithinMessage b -> in_u 64 (GetPositionWithinMessage b + 1) ->
  0 <= d -> after < 2 ^ 64 -> reads_delayed b d ->
  subs !! Z.to_nat (GetPositionWithinMessage b) = None ->
  popAt m b d =
    if after <=? d then (Ok (mkMessageWithMetadata InvalidL1Message after), (ended b, after))
    else (Ok (mkMessageWithMetadata (delayed d) (d + 1)), stepped (after <=? d + 1) b (d + 1)).
Proof.
  intros H0 Hp Hd Ha Hr Hs. pose proof (seek_spec (GetPositionWithinMessage b) (sm_segments m) zero_cursor H0) as Hk.
  cbv zeta in Hk. change (cur_timestamp zero_cursor) with 0 in Hk. change (cur_blockNumber zero_cursor) with 0 in Hk.
  change (cur_submessageNumber zero_cursor) with 0 in Hk. change (cur_segmentNum zero_cursor) with 0%nat in Hk.
  rewrite Z.sub_0_r, Hs in Hk.
  unfold popAt, getNextMsg. cbn [NewInboxMultiplexer mx_backend mx_delayedMessagesRead mx_cursor mx_cachedSequencerMessage
    mx_cachedSequencerMessageNum]. cbv zeta.
  change (drop (cur_segmentNum zero_cursor) (sm_segments m)) with (sm_segments m).
  set (c := seekSubMessage (sm_segments m) (GetPositionWithinMessage b) zero_cursor) in *.
  rewrite (lookup_ge_None_2 (sm_segments m)) by lia. cbn [default].
  change (BatchSegmentKindDelayedMessages =? BatchSegmentKindL2Message) with false.
  change (BatchSegmentKindDelayedMessages =? BatchSegmentKindL2MessageBrotli) with false.
  change (BatchSegmentKindDelayedMessages =? BatchSegmentKindDelayedMessages) with true. cbn [orb]. unfold stepped.
  pose proof (fun d1 => isLast_code c d1 b None 0) as HL. rewrite drop_ge in HL by lia.
  assert (forall d1, isLast m (submessages [] (cur_timestamp c) (cur_blockNumber c)) d1 = (after <=? d1)) as HE
    by (intros; apply andb_true_r).
  destruct (Z.leb_spec after d) as [Hle|Hgt].
  - rewrite HL, HE, (proj2 (Z.leb_le _ _) Hle). reflexivity.
  - rewrite Hr by lia. rewrite (uwrap_id 64 (d + 1)) by (unfold in_u; lia). rewrite HL, HE.
    destruct (after <=? d + 1); now rewrite ?uwrap_id.
Qed.

Lemma deliver_range s d : 0 <= d -> d <= snd (deliver m delayed s d) <= Z.max d after.
Proof.
  intros Hd. unfold deliver. cbv zeta. destruct (sub_segment s) as [|kind data]; [cbn; lia|].
  destruct (kind =? _); [cbn; lia|]. destruct (kind =? _); [destruct (Decompress _ _); cbn; lia|].
  destruct (kind =? _); [|cbn; lia]. destruct (Z.leb_spec after d); cbn; lia.
Qed.

(** The state in which a message of the batch is popped. *)
Record within (b : B) (d : Z) : Prop := {
  in_position : 0 <= GetPositionWithinMessage b;
  in_room : GetPositionWithinMessage b + Z.max 0 (Z.of_nat (length subs) - GetPositionWithinMessage b) + (after - d) + 1 < 2 ^ 64;
  in_delayed : 0 <= d <= after;
  in_after : after < 2 ^ 64;
  in_reads : reads_delayed b d;
  in_front : front b m
}.

(** The number of delayed messages that a message carries is the multiplexer's. *)
Lemma popAt_nonce b d : within b d ->
  exists msg b1 d1, popAt m b d = (Ok msg, (b1, d1)) /\ mm_DelayedMessagesRead msg = d1.
Proof.
  intros [H0 Hr [Hd Hda] Ha Hrd _]. destruct (subs !! Z.to_nat (GetPositionWithinMessage b)) as [s|] eqn:Hs.
  - rewrite (popAt_sub b d s H0 ltac:(unfold in_u; lia) Hd Ha Hrd Hs).
    pose proof (deliver_range s d Hd) as Hdr.
    assert (forall msg, fst (deliver m delayed s d) = Some msg ->
      mm_DelayedMessagesRead msg = snd (deliver m delayed s d)) as Hm.
    { intros msg. unfold deliver. cbv zeta. destruct (sub_segment s) as [|kind data]; [discriminate|].
      destruct (kind =? _); [now intros [= <-]|]. destruct (kind =? _); [destruct (Decompress _ _); [now intros [= <-]|discriminate]|].
      destruct (kind =? _); [|discriminate]. destruct (Z.leb_spec after d); intros [= <-]; cbn; lia. }
    destruct (deliver m delayed s d) as [msg d1]. cbn [fst snd] in *. cbv zeta. unfold stepped.
    destruct (isLast m _ d1) eqn:HL; do 3 eexists; (split; [reflexivity|]).
    + apply andb_prop in HL as [HL _]. apply Z.leb_le in HL. destruct msg as [msg|]; [cbn; rewrite (Hm msg eq_refl); lia|reflexivity].
    + destruct msg as [msg|]; [exact (Hm msg eq_refl)|reflexivity].
  - rewrite (popAt_end b d H0 ltac:(unfold in_u; lia) Hd Ha Hrd Hs). unfold stepped.
    destruct (Z.leb_spec after d); [do 3 eexists; split; reflexivity|].
    destruct (Z.leb_spec after (d + 1)); do 3 eexists; (split; [reflexivity|]); cbn; lia.
Qed.

(** What a run of pops is: nothing, or the message at the front and a run from
    the state behind it. *)
Class Run (run : nat -> B -> Z -> list (outcome MessageWithMetadata) * (B * Z)) := {
  run_O b d : run 0%nat b d = ([], (b, d));
  run_S n b d msg b1 d1 : within b d -> popAt m b d = (Ok msg, (b1, d1)) -> mm_DelayedMessagesRead msg = d1 ->
    run (S n) b d = let '(os, bd) := run n b1 d1 in (Ok msg :: os, bd)
}.

#[export] Instance fresh_pops_run : Run fresh_pops.
Proof.
  constructor; [reflexivity|]. intros n b d msg b1 d1 Hw Hp _. cbn [InboxFacts.fresh_pops].
  pose proof (Pop_front b d m (in_front _ _ Hw)) as Ho. rewrite Hp in Ho. unfold observe in Ho.
  destruct (Pop daProviders (modes b) (NewInboxMultiplexer b d)) as [o r]. cbn [fst snd] in Ho. injection Ho as -> <- <-. reflexivity.
Qed.

Lemma within_next b d d1 : within b d -> d <= d1 <= after ->
  (Z.to_nat (GetPositionWithinMessage b) < length subs)%nat \/ d1 = d + 1 ->
  within (SetPositionWithinMessage b (GetPositionWithinMessage b + 1)) d1.
Proof.
  intros [H0 Hr Hd Ha Hrd Hf] Hd1 Hor. constructor; rewrite ?Get_SetPosition; try lia.
  - intros n Hn. rewrite ReadDelayed_SetPosition. apply Hrd. lia.
  - apply front_SetPosition, Hf.
Qed.

Context {run : nat -> B -> Z -> list (outcome MessageWithMetadata) * (B * Z)} {HR : Run run}.

Lemma run_step n b d : within b d ->
  run (S n) b d = let '(o, (b1, d1)) := popAt m b d in let '(os, bd) := run n b1 d1 in (o :: os, bd).
Proof.
  intros Hw. destruct (popAt_nonce b d Hw) as (msg & b1 & d1 & Hp & Hn). rewrite Hp. exact (run_S n b d msg b1 d1 Hw Hp Hn).
Qed.

Lemma virtual_pops : forall k b d, within b d -> (length subs <= Z.to_nat (GetPositionWithinMessage b))%nat ->
  after - d = Z.of_nat (S k) ->
  run (S k) b d = (map Ok (delayed_messages m delayed d), (ended b, after)).
Proof.
  induction k as [|k IH]; intros b d Hw Hs Hk; rewrite (run_step _ b d Hw); pose proof Hw as [H0 Hr Hd Ha Hrd Hf];
    (rewrite popAt_end; try (assumption || lia || (unfold in_u; lia) || now apply lookup_ge_None_2));
    (destruct (Z.leb_spec after d); [lia|]); unfold delayed_messages; rewrite Hk, seqZ_cons by lia; cbn [map].
  - destruct (Z.leb_spec after (d + 1)); [|lia]. unfold stepped. now rewrite run_O.
  - destruct (Z.leb_spec after (d + 1)); [lia|]. unfold stepped. rewrite IH; [|apply (within_next b d); auto; lia|rewrite Get_SetPosition; lia|lia].
    unfold delayed_messages. rewrite Set_SetPosition. do 3 f_equal. do 2 f_equal. lia.
Qed.

Lemma deliver_pops : forall rest b d, within b d ->
  drop (Z.to_nat (GetPositionWithinMessage b)) subs = rest -> rest <> [] \/ d < after ->
  run (length (deliver_all m delayed rest d)) b d = (map Ok (deliver_all m delayed rest d), (ended b, after)).
Proof.
  induction rest as [|s rest IH]; intros b d Hw Hs Hne; cbn [deliver_all] in *; pose proof Hw as [H0 Hr Hd Ha Hrd Hf].
  - assert (d < after) as Hlt by (destruct Hne; congruence).
    assert (length (delayed_messages m delayed d) = S (Z.to_nat (after - d - 1))) as Hl.
    { unfold delayed_messages. rewrite length_map, length_seqZ. lia. }
    rewrite Hl. apply virtual_pops; auto; try lia.
    apply (f_equal length) in Hs. rewrite length_drop in Hs. cbn in Hs. lia.
  - assert (subs !! Z.to_nat (GetPositionWithinMessage b) = Some s) as Hsub.
    { rewrite <- (Nat.add_0_r (Z.to_nat _)), <- lookup_drop, Hs. reflexivity. }
    assert (drop (S (Z.to_nat (GetPositionWithinMessage b))) subs = rest) as Hrest.
    { replace (S (Z.to_nat (GetPositionWithinMessage b))) with (Z.to_nat (GetPositionWithinMessage b) + 1)%nat by lia.
      rewrite <- drop_drop, Hs. reflexivity. }
    pose proof (popAt_sub b d s H0 ltac:(unfold in_u; lia) ltac:(lia) Ha Hrd Hsub) as Hpop. rewrite Hrest in Hpop.
    pose proof (deliver_range s d ltac:(lia)) as Hdr. destruct (deliver m delayed s d) as [msg d1]. cbv zeta in *. cbn [snd] in Hdr.
    cbn [length]. rewrite (run_step _ b d Hw), Hpop. unfold stepped.
    destruct (isLast m rest d1) eqn:HL; [cbn [length]; now rewrite run_O|].
    pose proof (lookup_lt_Some _ _ _ Hsub). rewrite IH; [cbn [map]; now rewrite Set_SetPosition|apply (within_next b d); auto; lia| |].
    + rewrite Get_SetPosition. replace (Z.to_nat (GetPositionWithinMessage b + 1)) with (S (Z.to_nat (GetPositionWithinMessage b))) by lia. exact Hrest.
    + unfold isLast in HL. destruct (Z.leb_spec after d1); [|right; lia]. left. now destruct rest.
Qed.

Lemma length_submessages : forall segments ts bn, (length (submessages segments ts bn) <= length segments)%nat.
Proof.
  induction segments as [|s segments IH]; intros ts bn; [cbn; lia|]. cbn [submessages].
  destruct (skipped s ts bn) as [[ts' bn']|]; cbn [length]; [specialize (IH ts' bn')|specialize (IH ts bn)]; lia.
Qed.

(** The state at the start of the batch. *)
Record at_start (b : B) (d : Z) : Prop := {
  start_position : GetPositionWithinMessage b = 0;
  start_room : Z.of_nat (length (sm_segments m)) + after + 1 < 2 ^ 64;
  start_delayed : 0 <= d <= after;
  start_reads : reads_delayed b d;
  start_front : front b m
}.

Lemma batch_pops b d : at_start b d ->
  run (length (batch_messages m delayed d)) b d = (map Ok (batch_messages m delayed d), (ended b, after)).
Proof.
  intros [H0 Hb Hd Hr Hf]. pose proof (length_submessages (sm_segments m) 0 0) as Hl.
  assert (within b d) as Hw by (constructor; rewrite ?H0; auto; lia).
  unfold batch_messages. cbv zeta.
  destruct (Z.leb_spec after d) as [Hle|Hgt]; cbn [andb]; [destruct (Nat.eqb_spec (length subs) 0) as [Hz|Hz]|].
  - cbn [length]. rewrite (run_step _ b d Hw), popAt_end; rewrite ?H0; try (assumption || lia || (unfold in_u; lia)).
    + rewrite (proj2 (Z.leb_le _ _) Hle). now rewrite run_O.
    + apply lookup_ge_None_2. lia.
  - apply deliver_pops; rewrite ?H0; auto. left. intros Hn. now rewrite Hn in Hz.
  - apply deliver_pops; rewrite ?H0; auto.
Qed.

End Batch.
End Runs.

(** ** What the messages of a batch are *)

Section Chain.
Context {C : Codecs} (m : sequencerMessage) (delayed : Z -> L1IncomingMessage).

(** A message of the sequencer, with a time and a block within the bounds of the
    batch, or an invalid message. *)
Definition own_message (msg : L1IncomingMessage) : Prop :=
  msg = InvalidL1Message \/
  exists ts bn data,
    msg = mkL1IncomingMessage (mkL1Header L1MessageType_L2Message BatchPosterAddress bn ts None (Some 0)) data None /\
    sm_minTimestamp m <= ts <= sm_maxTimestamp m /\ sm_minL1Block m <= bn <= sm_maxL1Block m.

(** From [d] delayed messages read to [d']: every message is one of the batch's
    own, or the next delayed message. *)
Fixpoint chain (d : Z) (msgs : list MessageWithMetadata) (d' : Z) : Prop :=
  match msgs with
  | [] => d = d'
  | msg :: msgs =>
      (mm_DelayedMessagesRead msg = d /\ own_message (mm_Message msg) \/
       mm_DelayedMessagesRead msg = d + 1 /\ mm_Message msg = delayed d) /\
      chain (mm_DelayedMessagesRead msg) msgs d'
  end.

Definition bounds_ok : Prop := sm_minTimestamp m <= sm_maxTimestamp m /\ sm_minL1Block m <= sm_maxL1Block m.

Lemma clampToBounds_range v lo hi : lo <= hi -> lo <= clampToBounds v lo hi <= hi.
Proof. intros H. unfold clampToBounds. destruct (Z.ltb_spec v lo), (Z.ltb_spec hi v); lia. Qed.

Lemma chain_delayed : forall k d, sm_afterDelayedMessages m - d = Z.of_nat k ->
  chain d (delayed_messages m delayed d) (sm_afterDelayedMessages m).
Proof.
  unfold delayed_messages. induction k as [|k IH]; intros d Hk; rewrite Hk.
  - rewrite seqZ_nil by lia. change (d = sm_afterDelayedMessages m). lia.
  - rewrite seqZ_cons by lia. cbn [map chain mm_DelayedMessagesRead mm_Message]. split; [right; auto|].
    specialize (IH (d + 1) ltac:(lia)). replace (Z.pred (Z.of_nat (S k))) with (sm_afterDelayedMessages m - (d + 1)) by lia. exact IH.
Qed.

Lemma deliver_chain s d : bounds_ok -> d <= sm_afterDelayedMessages m ->
  let '(msg, d1) := deliver m delayed s d in
  d <= d1 <= sm_afterDelayedMessages m /\
  match msg with
  | Some msg => mm_DelayedMessagesRead msg = d1 /\
      (d1 = d /\ own_message (mm_Message msg) \/ d1 = d + 1 /\ mm_Message msg = delayed d)
  | None => d1 = d
  end.
Proof.
  intros [Hts Hbn] Hd. unfold deliver. cbv zeta. destruct (sub_segment s) as [|kind data]; [lia|].
  assert (forall data, own_message (mkL1IncomingMessage (mkL1Header L1MessageType_L2Message BatchPosterAddress
    (clampToBounds (sub_blockNumber s) (sm_minL1Block m) (sm_maxL1Block m))
    (clampToBounds (sub_timestamp s) (sm_minTimestamp m) (sm_maxTimestamp m)) None (Some 0)) data None)) as Hown.
  { intros l. right. do 3 eexists. split; [reflexivity|]. split; now apply clampToBounds_range. }
  destruct (kind =? _); [cbn; auto with lia|]. destruct (kind =? _); [destruct (Decompress _ _); cbn; auto with lia|].
  destruct (kind =? _); [|lia]. destruct (Z.leb_spec (sm_afterDelayedMessages m) d); cbn; [|auto with lia].
  split; [lia|]. split; [lia|]. left. split; [reflexivity|now left].
Qed.

Lemma deliver_all_chain : bounds_ok -> forall subs d, d <= sm_afterDelayedMessages m ->
  chain d (deliver_all m delayed subs d) (sm_afterDelayedMessages m).
Proof.
  intros Hb. induction subs as [|s subs IH]; intros d Hd; cbn [deliver_all].
  - apply (chain_delayed (Z.to_nat (sm_afterDelayedMessages m - d))). lia.
  - pose proof (deliver_chain s d Hb Hd) as Hc. destruct (deliver m delayed s d) as [msg d1]. destruct Hc as [Hd1 Hc].
    cbv zeta. cbn [chain]. destruct (isLast m subs d1) eqn:HL.
    + unfold isLast in HL. apply andb_prop in HL as [HL _]. apply Z.leb_le in HL.
      destruct msg as [msg|]; cbn [from_option id chain]; [|cbn; split; [left; split; [lia|now left]|reflexivity]].
      destruct Hc as [-> Hc]. split; [intuition lia|lia].
    + destruct msg as [msg|]; cbn [from_option id].
      * destruct Hc as [-> Hc]. split; [intuition|apply IH; lia].
      * subst d1. cbn. split; [left; split; [reflexivity|now left]|apply IH; lia].
Qed.

Lemma batch_messages_chain d : bounds_ok -> d <= sm_afterDelayedMessages m ->
  chain d (batch_messages m delayed d) (sm_afterDelayedMessages m).
Proof.
  intros Hb Hd. unfold batch_messages. cbv zeta. destruct (Z.leb_spec (sm_afterDelayedMessages m) d); cbn [andb];
    [|now apply deliver_all_chain]. destruct (_ =? 0)%nat; [|now apply deliver_all_chain].
  cbn. split; [left; split; [lia|now left]|reflexivity].
Qed.

Lemma length_deliver_all : forall subs d, d <= sm_afterDelayedMessages m ->
  Z.of_nat (length (deliver_all m delayed subs d)) <= Z.of_nat (length subs) + (sm_afterDelayedMessages m - d).
Proof.
  induction subs as [|s subs IH]; intros d Hd; cbn [deliver_all].
  - unfold delayed_messages. rewrite length_map, length_seqZ. lia.
  - assert (d <= snd (deliver m delayed s d) <= sm_afterDelayedMessages m) as Hr.
    { unfold deliver. cbv zeta. destruct (sub_segment s) as [|kind data]; [cbn; lia|].
      destruct (kind =? _); [cbn; lia|]. destruct (kind =? _); [destruct (Decompress _ _); cbn; lia|].
      destruct (kind =? _); [|cbn; lia]. destruct (Z.leb_spec (sm_afterDelayedMessages m) d); cbn; lia. }
    destruct (deliver m delayed s d) as [msg d1]. cbn [snd] in Hr. cbv zeta. cbn [length].
    destruct (isLast m subs d1); [cbn; lia|]. specialize (IH d1 ltac:(lia)). lia.
Qed.

Lemma length_batch_messages d : d <= sm_afterDelayedMessages m ->
  Z.of_nat (length (batch_messages m delayed d)) <= Z.of_nat (length (sm_segments m)) + (sm_afterDelayedMessages m - d) + 1.
Proof.
  intros Hd. pose proof (length_submessages (sm_segments m) 0 0). unfold batch_messages. cbv zeta.
  destruct (_ && _); [cbn [length]; lia|]. pose proof (length_deliver_all (submessages (sm_segments m) 0 0) d Hd). lia.
Qed.

End Chain.

Section Claims.
Context {C : Codecs} {B : Type} {IB : InboxBackend B} {BL : InboxBackendLaws B}.
Context (daProviders : list (option DataAvailabilityProvider)) (mode : Z).

(** C36: The cache of the multiplexer is not observable: a multiplexer that is
    kept over any number of pops returns the same messages and errors, and leaves
    the same position and number of delayed messages, as one that is thrown away
    and created anew after every pop. *)
Theorem pops_cache_transparent (n : nat) (b : B) (d : Z) :
  0 <= GetPositionWithinMessage b -> GetPositionWithinMessage b + Z.of_nat n < 2 ^ 64 ->
  let '(os, r) := pops daProviders mode n (NewInboxMultiplexer b d) in
  fresh_pops daProviders (fun _ => mode) n b d = (os, (mx_backend r, mx_delayedMessagesRead r)).
Proof. intros H0 Hn. now apply (pops_fresh_pops daProviders mode n (NewInboxMultiplexer b d)). Qed.

(** C19: From the start of a batch, the multiplexer delivers exactly the messages
    of the batch: its sub-messages in order, then the delayed messages that are
    left, and it stops at the next batch with the delayed messages of this one
    read. Every message is either the next delayed message, none skipped and none
    twice, or one of the sequencer with its time and block within the batch's
    bounds, or invalid. *)
Theorem pops_batch (m : sequencerMessage) (delayed : Z -> L1IncomingMessage) (b : B) (d : Z) :
  at_start daProviders (fun _ => mode) m delayed b d -> bounds_ok m ->
  let msgs := batch_messages m delayed d in
  (0 < length msgs)%nat /\ chain m delayed d msgs (sm_afterDelayedMessages m) /\
  let '(os, r) := pops daProviders mode (length msgs) (NewInboxMultiplexer b d) in
  os = map Ok msgs /\ mx_delayedMessagesRead r = sm_afterDelayedMessages m /\
  mx_backend r = AdvanceSequencerInbox (SetPositionWithinMessage b 0).
Proof.
  intros Hs Hb msgs. pose proof Hs as [H0 Hroom Hd _ _]. split; [|split].
  - unfold msgs, batch_messages. cbv zeta. destruct (Z.leb_spec (sm_afterDelayedMessages m) d) as [Hle|Hgt]; cbn [andb].
    + destruct (submessages _ _ _) as [|s subs]; [cbn; lia|]. cbn [length Nat.eqb deliver_all].
      destruct (deliver _ _ _ _). cbn. lia.
    + destruct (submessages _ _ _) as [|s subs]; cbn [deliver_all]; [|destruct (deliver _ _ _ _); cbn; lia].
      unfold delayed_messages. rewrite length_map, length_seqZ. lia.
  - apply batch_messages_chain; [exact Hb|lia].
  - pose proof (length_batch_messages m delayed d ltac:(lia)) as Hl. fold msgs in Hl.
    pose proof (pops_fresh_pops daProviders mode (length msgs) (NewInboxMultiplexer b d) eq_refl) as Hp.
    cbn [NewInboxMultiplexer mx_backend mx_delayedMessagesRead] in Hp. rewrite H0 in Hp. specialize (Hp ltac:(lia) ltac:(lia)).
    pose proof (batch_pops daProviders (fun _ => mode) m delayed b d Hs) as Hf. fold msgs in Hf. rewrite Hf in Hp.
    destruct (pops daProviders mode (length msgs) _) as [os r]. now injection Hp as -> -> ->.
Qed.

End Claims.

(** ** Examples *)

(** Data that is not compressed, and streams of strings behind their length. *)
#[local] Instance example_codecs : Codecs := {|
  Decompress := fun b max => if Z.of_nat (length b) <=? max then Some b else None;
  Stream := list Z;
  NewStream := fun b _ => b;
  Stream_Decode := fun s =>
    match s with
    | [] => None
    | n :: s => if (length s <? Z.to_nat n)%nat then None else Some (take (Z.to_nat n) s, drop (Z.to_nat n) s)
    end;
  Stream_Uint64 := fun s => match s with [v] => Some v | _ => None end
|}.

(** An inbox of one batch: the batches read, the position within the message. *)
Definition example_batch : list Z :=
  concat (map (be_bytes 8) [10; 20; 1; 5; 2]) ++ [0] ++ [2; 3; 15] ++ [3; 0; 7; 8] ++ [1; 2] ++ [1; 9] ++ [3; 0; 1; 1].

Definition example_delayed (n : Z) : L1IncomingMessage :=
  mkL1IncomingMessage (mkL1Header L1MessageType_EndOfBlock 1 2 3 (Some n) (Some 0)) [] None.

#[local] Instance example_inbox : InboxBackend (Z * Z) := {|
  PeekSequencerInbox := fun b => if fst b =? 0 then Ok (example_batch, 0) else Err EOF;
  GetSequencerInboxPosition := fst;
  AdvanceSequencerInbox := fun b => (fst b + 1, snd b);
  GetPositionWithinMessage := snd;
  SetPositionWithinMessage := fun b p => (fst b, p);
  ReadDelayedInbox := fun _ n => Ok (example_delayed n)
|}.

#[local] Instance example_inbox_laws : InboxBackendLaws (Z * Z).
Proof. constructor; intros; try destruct b; reflexivity. Qed.

Definition inbox_example_message : sequencerMessage := mkSequencerMessage 10 20 1 5 2 [[3; 15]; [0; 7; 8]; [2]; [9]; [0; 1; 1]].

Lemma pops_cache_transparent_witness :
  let '(os, r) := pops [] 0 5 (NewInboxMultiplexer (0, 0) 0) in
  fresh_pops [] (fun _ => 0) 5 (0, 0) 0 = (os, (mx_backend r, mx_delayedMessagesRead r)).
Proof. apply (pops_cache_transparent [] 0 5 (0, 0) 0); cbn; lia. Defined.

Lemma pops_batch_witness :
  let '(os, r) := pops [] 0 5 (NewInboxMultiplexer (0, 0) 0) in
  length os = 5%nat /\ mx_delayedMessagesRead r = 2 /\ mx_backend r = (1, 0).
Proof.
  destruct (pops_batch [] 0 inbox_example_message example_delayed (0, 0) 0) as (_ & _ & H).
  - constructor; [reflexivity|cbn; lia|cbn; lia|intros n _; reflexivity|].
    exists example_batch, 0. split; [reflexivity|]. intros p. vm_compute. reflexivity.
  - split; cbn; lia.
  - change (length (batch_messages inbox_example_message example_delayed 0)) with 5%nat in H.
    destruct (pops [] 0 5 (NewInboxMultiplexer (0, 0) 0)) as [os r]. destruct H as (-> & Hd & Hb). auto.
Defined.
