(* ===== verification/InboxBackends.v ===== *)
(** * The two backends of the multiplexer: the node's and the replay binary's

    Batches as the node finds them on the parent chain (arbnode/sequencer_inbox.go),
    the backend over a list of them (arbnode/inbox_tracker.go), and the backend
    of the replay binary over its global state (cmd/replay/main.go, wavmio). The
    node keeps one multiplexer while it reads; the replay binary creates one per
    block and knows of the past only its global state and the last block's
    nonce; it gets data of the committee and blobs from preimages. What is proved:
    both deliver the messages of the specification. *)
From Stdlib Require Import ZArith Lia String List.
From stdpp Require Import base list numbers list_numbers.
From S2P Require Import Prelude Arbmath Host Storage StorageFacts MemEnv Readers L1Pricing IncomingMessage ArbosState Zeroheavy Bls DasTree Inbox DasReader Blobs InboxFacts.
Open Scope Z_scope.

(** ** arbnode/sequencer_inbox.go *)

Inductive batchDataLocation : Type :=
| batchDataTxInput
| batchDataSeparateEvent
| batchDataNone
| batchDataBlobHashes
| batchDataInvalid.

Record TimeBounds := mkTimeBounds {
  tb_MinTimestamp : Z; tb_MaxTimestamp : Z; tb_MinBlockNumber : Z; tb_MaxBlockNumber : Z
}.

(** A log of the parent chain, by what identifies it to the client. *)
Record Log := mkLog { log_Address : Z; log_Topic0 : Z; log_BlockHash : Z; log_BlockNumber : Z; log_TxHash : Z; log_Data : list Z }.

Record SequencerInboxBatch := mkSequencerInboxBatch {
  sb_BlockHash : Z;
  sb_ParentChainBlockNumber : Z;
  sb_SequenceNumber : Z;
  sb_BeforeInboxAcc : Z;
  sb_AfterInboxAcc : Z;
  sb_AfterDelayedAcc : Z;
  sb_AfterDelayedCount : Z;
  sb_TimeBounds : TimeBounds;
  sb_rawLog : Log;
  sb_dataLocation : batchDataLocation;
  sb_bridgeAddress : Z;
  sb_serialized : option (list Z)
}.

(** The event [SequencerBatchDelivered]. *)
Record BatchDelivered := mkBatchDelivered {
  bd_BatchSequenceNumber : Z; bd_BeforeAcc : Z; bd_AfterAcc : Z; bd_DelayedAcc : Z;
  bd_AfterDelayedMessagesRead : Z; bd_TimeBounds : TimeBounds; bd_DataLocation : batchDataLocation
}.

(** The client of the parent chain and the contracts' ABI. *)
Class L1Client := {
  GetLogEmitterTxData : Log -> outcome (list Z);
  unpackBatchFromOrigin : list Z -> outcome (list Z);
  FilterBatchDataLogs : Z -> Z -> Z -> outcome (list Log);
  unpackBatchData : list Z -> outcome (list Z);
  GetLogTransactionBlobHashes : Log -> outcome (list Z);
  FilterDeliveredLogs : Z -> Z -> outcome (list Log);
  batchDeliveredID : Z;
  ParseSequencerBatchDelivered : Log -> outcome BatchDelivered
}.

Section SequencerInbox.
Context {L : L1Client}.

Definition getSequencerData (m : SequencerInboxBatch) : outcome (list Z) :=
  match sb_dataLocation m with
  | batchDataTxInput =>
      let? data := GetLogEmitterTxData (sb_rawLog m) in
      if (length data <? 4)%nat then Panic "slice bounds out of range" else unpackBatchFromOrigin (drop 4 data)
  | batchDataSeparateEvent =>
      let? logs := FilterBatchDataLogs (sb_BlockHash m) (sb_bridgeAddress m) (sb_SequenceNumber m) in
      match logs with
      | [] => Err (ErrNew "expected to find sequencer batch data")
      | [log] => unpackBatchData (log_Data log)
      | _ => Err (ErrNew "expected to find only one matching sequencer batch data")
      end
  | batchDataNone => Ok []
  | batchDataBlobHashes =>
      let? hashes := GetLogTransactionBlobHashes (sb_rawLog m) in
      match hashes with
      | [] => Err (ErrNew "blob batch transaction has no blobs")
      | _ => Ok (BlobHashesHeaderFlag :: concat (map Hash_Bytes hashes))
      end
  | batchDataInvalid => Err (ErrNew "batch has invalid data location")
  end.

Definition set_serialized (m : SequencerInboxBatch) (b : list Z) : SequencerInboxBatch :=
  mkSequencerInboxBatch (sb_BlockHash m) (sb_ParentChainBlockNumber m) (sb_SequenceNumber m) (sb_BeforeInboxAcc m)
    (sb_AfterInboxAcc m) (sb_AfterDelayedAcc m) (sb_AfterDelayedCount m) (sb_TimeBounds m) (sb_rawLog m)
    (sb_dataLocation m) (sb_bridgeAddress m) (Some b).

(** The bytes of the batch, and the batch with its cache filled. *)
Definition SequencerInboxBatch_Serialize (m : SequencerInboxBatch) : outcome (list Z) * SequencerInboxBatch :=
  match sb_serialized m with
  | Some serialized => (Ok serialized, m)
  | None =>
      let headerVals := [tb_MinTimestamp (sb_TimeBounds m); tb_MaxTimestamp (sb_TimeBounds m);
                         tb_MinBlockNumber (sb_TimeBounds m); tb_MaxBlockNumber (sb_TimeBounds m); sb_AfterDelayedCount m] in
      let fullData := concat (map (be_bytes 8) headerVals) in
      match getSequencerData m with
      | Ok data => let fullData := fullData ++ data in (Ok fullData, set_serialized m fullData)
      | Err e => (Err e, m)
      | Panic s => (Panic s, m)
      end
  end.

Fixpoint LookupBatches_loop (logs : list Log) (lastSeqNum : option Z) : outcome (list SequencerInboxBatch) :=
  match logs with
  | [] => Ok []
  | log :: logs =>
      if negb (log_Topic0 log =? batchDeliveredID) then Err (ErrNew "unexpected log selector")
      else
        let? parsedLog := ParseSequencerBatchDelivered log in
        let seqNum := bd_BatchSequenceNumber parsedLog in
        if negb (IsUint64 seqNum) then Err (ErrNew "sequencer inbox event has non-uint64 sequence number")
        else if negb (IsUint64 (bd_AfterDelayedMessagesRead parsedLog))
        then Err (ErrNew "sequencer inbox event has non-uint64 delayed messages read")
        else if match lastSeqNum with Some last => negb (seqNum =? last +u64 1) | None => false end
        then Err (ErrNew "sequencer batches out of order")
        else
          let batch := mkSequencerInboxBatch (log_BlockHash log) (log_BlockNumber log) seqNum (bd_BeforeAcc parsedLog)
            (bd_AfterAcc parsedLog) (bd_DelayedAcc parsedLog) (bd_AfterDelayedMessagesRead parsedLog)
            (bd_TimeBounds parsedLog) log (bd_DataLocation parsedLog) (log_Address log) None in
          let? messages := LookupBatches_loop logs (Some seqNum) in
          Ok (batch :: messages)
  end.

Definition LookupBatchesInRange (from to : Z) : outcome (list SequencerInboxBatch) :=
  let? logs := FilterDeliveredLogs from to in LookupBatches_loop logs None.

(** ** arbnode/inbox_tracker.go: the node's backend *)

Record multiplexerBackend := mkMultiplexerBackend {
  mb_batchSeqNum : Z;
  mb_batches : list SequencerInboxBatch;
  mb_positionWithinMessage : Z
}.

(** [GetDelayedMessage] is the tracker's. That [PeekSequencerInbox] fills the
    batch's cache is not observable ([Serialize_cached]) and is left out. *)
Definition multiplexerBackend_inbox (GetDelayedMessage : Z -> outcome L1IncomingMessage) : InboxBackend multiplexerBackend := {|
  PeekSequencerInbox := fun b =>
    match mb_batches b with
    | [] => Err (ErrNew "read past end of specified sequencer batches")
    | batch :: _ => let? bytes := fst (SequencerInboxBatch_Serialize batch) in Ok (bytes, sb_BlockHash batch)
    end;
  GetSequencerInboxPosition := mb_batchSeqNum;
  AdvanceSequencerInbox := fun b =>
    mkMultiplexerBackend (mb_batchSeqNum b +u64 1) (match mb_batches b with [] => [] | _ :: batches => batches end)
      (mb_positionWithinMessage b);
  GetPositionWithinMessage := mb_positionWithinMessage;
  SetPositionWithinMessage := fun b pos => mkMultiplexerBackend (mb_batchSeqNum b) (mb_batches b) pos;
  ReadDelayedInbox := fun b seqNum =>
    match mb_batches b with
    | [] => Err (ErrNew "attempted to read past end of sequencer batch delayed messages")
    | batch :: _ =>
        if sb_AfterDelayedCount batch <=? seqNum
        then Err (ErrNew "attempted to read past end of sequencer batch delayed messages")
        else GetDelayedMessage seqNum
    end
|}.

Lemma multiplexerBackend_laws get : InboxBackendLaws multiplexerBackend (IB := multiplexerBackend_inbox get).
Proof. constructor; intros; try destruct b; reflexivity. Qed.

Lemma Serialize_cached m bytes m' : SequencerInboxBatch_Serialize m = (Ok bytes, m') ->
  fst (SequencerInboxBatch_Serialize m') = Ok bytes /\ sb_AfterDelayedCount m' = sb_AfterDelayedCount m.
Proof.
  unfold SequencerInboxBatch_Serialize. destruct (sb_serialized m) eqn:Hs; [intros [= <- <-]; now rewrite Hs|].
  destruct (getSequencerData m); [|discriminate..]. now intros [= <- <-].
Qed.

End SequencerInbox.

(** ** cmd/replay/main.go: the backend of the replay binary *)

(** The integers of the global state, in wavmio. *)
Record GlobalState := mkGlobalState { gs_InboxPosition : Z; gs_PositionWithinMessage : Z }.

(** arbutil/preimage_type.go *)
Definition Keccak256PreimageType : Z := 0.
Definition Sha2_256PreimageType : Z := 1.
Definition EthVersionedHashPreimageType : Z := 2.

(** The inboxes and the preimages that the machine's host calls read. *)
Class Wavmio := {
  ReadInboxMessage : Z -> list Z;
  ReadDelayedInboxMessage : Z -> list Z;
  ResolveTypedPreimage : Z -> Z -> outcome (list Z)
}.

Definition WavmInbox {E : Env} {W : Wavmio} : InboxBackend GlobalState := {|
  PeekSequencerInbox := fun g => Ok (ReadInboxMessage (gs_InboxPosition g), 0);
  GetSequencerInboxPosition := gs_InboxPosition;
  AdvanceSequencerInbox := fun g => mkGlobalState (gs_InboxPosition g +u64 1) (gs_PositionWithinMessage g);
  GetPositionWithinMessage := gs_PositionWithinMessage;
  SetPositionWithinMessage := fun g pos => mkGlobalState (gs_InboxPosition g) pos;
  ReadDelayedInbox := fun g seqNum =>
    ParseIncomingL1Message (ReadDelayedInboxMessage seqNum) (Some (fun batchNum => Ok (ReadInboxMessage batchNum)))
|}.

Lemma WavmInbox_laws {E : Env} {W : Wavmio} : InboxBackendLaws GlobalState (IB := WavmInbox).
Proof. constructor; intros; try destruct b; reflexivity. Qed.

(** The providers that [AddSequencerBatches] of the node sets up. *)
Definition node_providers {E : Env} {P : BLS12381} {B : BlobCodecs} (das : option (Z -> outcome (list Z)))
    (blobReader : option (Z -> list Z -> outcome (list (list Z)))) : list (option DataAvailabilityProvider) :=
  match das with Some GetByHash => [Some (NewDAProviderDAS GetByHash)] | None => [] end ++
  match blobReader with Some GetBlobs => [Some (NewDAProviderBlobReader GetBlobs)] | None => [] end.

Section Replay.
Context {E : Env} {C : Codecs} {P : BLS12381} {B : BlobCodecs} {W : Wavmio}.

Definition replay_mode (g : GlobalState) : Z :=
  if 0 <? gs_PositionWithinMessage g then KeysetDontValidate else KeysetPanicIfInvalid.

Definition replay_providers (dasEnabled : bool) : list (option DataAvailabilityProvider) :=
  (if dasEnabled
   then [Some (NewDAProviderDAS (PreimageDASReader_GetByHash (ResolveTypedPreimage Keccak256PreimageType)))] else []) ++
  [Some (NewDAProviderBlobReader
           (fun batchBlockHash => BlobPreimageReader_GetBlobs (ResolveTypedPreimage EthVersionedHashPreimageType)))].

(** [readMessage] of the replay binary: the message, and the global state behind
    it. [nonce] is that of the last block's header, [None] before the first one. *)
Definition readMessage (dasEnabled : bool) (nonce : option Z) (g : GlobalState) : outcome MessageWithMetadata * GlobalState :=
  let delayedMessagesRead := default 0 nonce in
  let inboxMultiplexer := NewInboxMultiplexer g delayedMessagesRead in
  match Pop (IB := WavmInbox) (replay_providers dasEnabled) (replay_mode g) inboxMultiplexer with
  | (Ok message, r) => (Ok message, mx_backend r)
  | (Err _, r) => (Panic "Error reading from inbox multiplexer", mx_backend r)
  | (Panic s, r) => (Panic s, mx_backend r)
  end.

(** A chain of [n] blocks, each replayed from the global state and the nonce
    that the one before left; a block's nonce is the number of delayed messages
    read, as [ProduceBlock] fills it in. *)
Fixpoint replay (dasEnabled : bool) (n : nat) (nonce : option Z) (g : GlobalState)
    : outcome (list MessageWithMetadata) * GlobalState :=
  match n with
  | O => (Ok [], g)
  | S n =>
      match readMessage dasEnabled nonce g with
      | (Ok message, g) =>
          let '(o, g) := replay dasEnabled n (Some (mm_DelayedMessagesRead message)) g in
          (let? messages := o in Ok (message :: messages), g)
      | (Err e, g) => (Err e, g)
      | (Panic s, g) => (Panic s, g)
      end
  end.

End Replay.

(** ** The node and the replay binary *)

Section Agreement.
Context {E : Env} {EL : EnvLaws E} {C : Codecs} {P : BLS12381} {B : BlobCodecs} {W : Wavmio} {L : L1Client}.
Context (das : option (Z -> outcome (list Z))) (GetBlobs : Z -> list Z -> outcome (list (list Z))).

#[local] Notation dasEnabled := (match das with Some _ => true | None => false end).
#[local] Notation nproviders := (node_providers das (Some GetBlobs)).
#[local] Notation wproviders := (replay_providers dasEnabled).
#[local] Existing Instance WavmInbox.
#[local] Existing Instance WavmInbox_laws.

(** The run of the replay binary in the form of a run of pops. *)
Fixpoint nonce_run (n : nat) (g : GlobalState) (d : Z) : list (outcome MessageWithMetadata) * (GlobalState * Z) :=
  match n with
  | O => ([], (g, d))
  | S n =>
      match readMessage dasEnabled (Some d) g with
      | (Ok msg, g) => let '(os, gd) := nonce_run n g (mm_DelayedMessagesRead msg) in (Ok msg :: os, gd)
      | (o, g) => ([o], (g, d))
      end
  end.

#[local] Instance nonce_run_run m delayed : Run wproviders replay_mode m delayed nonce_run.
Proof.
  constructor; [reflexivity|]. intros n g d msg g1 d1 Hw Hp Hn. cbn [nonce_run]. unfold readMessage. cbn [default from_option id].
  pose proof (Pop_front wproviders replay_mode g d m (in_front _ _ _ _ _ _ Hw)) as Ho. rewrite Hp in Ho. unfold observe in Ho.
  destruct (Pop wproviders (replay_mode g) (NewInboxMultiplexer g d)) as [o r]. cbn [fst snd] in Ho. injection Ho as -> <- <-.
  now rewrite Hn.
Qed.

Lemma nonce_run_app n1 n2 : forall g d os g1 d1,
  nonce_run n1 g d = (map Ok os, (g1, d1)) -> length os = n1 ->
  nonce_run (n1 + n2) g d = let '(os2, gd) := nonce_run n2 g1 d1 in (map Ok os ++ os2, gd).
Proof.
  induction n1 as [|n1 IH]; intros g d os g1 d1 H1 Hl.
  - injection H1 as H1 <- <-. destruct os; [|discriminate]. cbn. now destruct (nonce_run n2 g d).
  - destruct os as [|msg os]; [discriminate|]. cbn [Nat.add nonce_run] in *.
    destruct (readMessage _ _ _) as [[msg'|e|s] g']; [|discriminate..].
    destruct (nonce_run n1 g' _) as [os' gd'] eqn:Hr. injection H1 as -> -> ->.
    rewrite (IH _ _ _ _ _ Hr) by (now injection Hl). now destruct (nonce_run n2 g1 d1).
Qed.

Lemma nonce_run_replay : forall n g d msgs gd, nonce_run n g d = (map Ok msgs, gd) -> length msgs = n ->
  replay dasEnabled n (Some d) g = (Ok msgs, fst gd).
Proof.
  induction n as [|n IH]; intros g d msgs gd H Hl; [injection H as H <-; now destruct msgs|].
  destruct msgs as [|msg msgs]; [discriminate|]. cbn [nonce_run replay] in *.
  destruct (readMessage _ _ _) as [[msg'|e|s] g']; [|discriminate..].
  destruct (nonce_run n g' _) as [os gd'] eqn:Hr. injection H as -> -> <-.
  now rewrite (IH _ _ _ _ Hr) by (now injection Hl).
Qed.

Context (GetDelayedMessage : Z -> outcome L1IncomingMessage) (delayed : Z -> L1IncomingMessage).

#[local] Instance node_inbox : InboxBackend multiplexerBackend := multiplexerBackend_inbox GetDelayedMessage.
#[local] Instance node_inbox_laws : InboxBackendLaws multiplexerBackend := multiplexerBackend_laws GetDelayedMessage.

(** The data that [bytes] refer to is there for both sides: of a certificate the
    node recovered the payload, and the machine knows the preimages it recorded
    doing so (or nobody can read the certificate); of blobs the machine knows
    those that the node's reader has. *)
Definition provided (blockHash : Z) (bytes : list Z) : Prop :=
  match drop 40 bytes with
  | [] => True
  | b :: _ =>
      match das with
      | Some GetByHash =>
          if IsDASMessageHeaderByte b then
            unreadable bytes \/
            exists payload log, RecoverPayloadFromDasBatch bytes GetByHash (Some []) KeysetValidate = (Ok (Some payload), Some log) /\
              (forall h v, (h, v) ∈ log -> ResolveTypedPreimage Keccak256PreimageType h = Ok v) /\
              (forall cert ksBytes, DeserializeDASCertFrom (drop 40 bytes) = Ok cert ->
                 getByHash GetByHash (cert_Version cert) (cert_KeysetHash cert) = Ok ksBytes ->
                 Z.of_nat (length ksBytes) <= BinSize) /\
              Z.of_nat (length payload) <= 2 ^ 31
          else True
      | None => True
      end /\
      (IsBlobHashesHeaderByte b = true -> forall blobs,
         GetBlobs blockHash (splitHashes (length (drop 41 bytes) / 32) (drop 41 bytes)) = Ok blobs ->
         Forall (fun blob => Z.of_nat (length blob) = 32 * BlobTxFieldElementsPerBlob) blobs /\
         Forall2 (fun h blob => ResolveTypedPreimage EthVersionedHashPreimageType h = Ok blob)
           (splitHashes (length (drop 41 bytes) / 32) (drop 41 bytes)) blobs)
  end.

Lemma blobs_agree blockHash bytes : (41 <= length bytes)%nat ->
  (forall blobs, GetBlobs blockHash (splitHashes (length (drop 41 bytes) / 32) (drop 41 bytes)) = Ok blobs ->
     Forall (fun blob => Z.of_nat (length blob) = 32 * BlobTxFieldElementsPerBlob) blobs /\
     Forall2 (fun h blob => ResolveTypedPreimage EthVersionedHashPreimageType h = Ok blob)
       (splitHashes (length (drop 41 bytes) / 32) (drop 41 bytes)) blobs) ->
  forall x, RecoverPayloadFromBlobBatch GetBlobs blockHash bytes = Ok x ->
  RecoverPayloadFromBlobBatch (fun h => BlobPreimageReader_GetBlobs (ResolveTypedPreimage EthVersionedHashPreimageType)) 0 bytes = Ok x.
Proof.
  intros Hl Hb x. unfold RecoverPayloadFromBlobBatch. rewrite (proj2 (Nat.ltb_ge _ _) Hl). destruct (negb _); [discriminate|].
  destruct (GetBlobs _ _) as [blobs| |]; [|discriminate..]. destruct (Hb blobs eq_refl) as [H1 H2].
  now rewrite (BlobPreimageReader_reads _ blobs _ H1 H2).
Qed.

(** Where the node finds a provider that answers, the replay binary finds one
    that answers the same; where it finds none, so does the replay binary. *)
Lemma provided_recover seq blockHash bytes mode b rest : Forall is_byte bytes -> provided blockHash bytes -> drop 40 bytes = b :: rest ->
  match findProvider nproviders b, findProvider wproviders b with
  | Some p, Some q => forall x, RecoverPayloadFromBatch p seq blockHash bytes KeysetValidate = Ok x ->
      RecoverPayloadFromBatch q seq 0 bytes mode = Ok x
  | None, None => True
  | _, _ => False
  end.
Proof.
  intros Hby Hp Hd. unfold provided in Hp. rewrite Hd in Hp. destruct Hp as [Hdas Hblob].
  assert (41 <= length bytes)%nat as Hl by (apply (f_equal (@length Z)) in Hd; rewrite length_drop in Hd; cbn in Hd; lia).
  assert (match findProvider [Some (NewDAProviderBlobReader GetBlobs)] b, findProvider (replay_providers false) b with
    | Some p, Some q => forall x, RecoverPayloadFromBatch p seq blockHash bytes KeysetValidate = Ok x ->
        RecoverPayloadFromBatch q seq 0 bytes mode = Ok x
    | None, None => True
    | _, _ => False
    end) as Hb.
  { cbn. destruct (IsBlobHashesHeaderByte b); [|exact I]. apply (blobs_agree blockHash bytes Hl). auto. }
  unfold node_providers. destruct das as [GetByHash|]; [|exact Hb].
  cbn [app findProvider replay_providers IsValidHeaderByte NewDAProviderDAS] in *. destruct (IsDASMessageHeaderByte b); [|exact Hb].
  unfold NewDAProviderDAS. cbn [RecoverPayloadFromBatch]. intros x Hx. destruct Hdas as [Hu|(payload & log & Hr & Ho & Hks & Hsz)].
  - rewrite das_unreadable in Hx by (assumption || lia). rewrite das_unreadable by (assumption || lia). exact Hx.
  - rewrite (das_unrecorded _ _ _ _ _ Hr) in Hx. cbn [fst] in Hx. injection Hx as <-.
    erewrite das_replayed; [reflexivity|exact Hby|exact Hr|rewrite Hd; exact Hks|exact Hsz|discriminate|exact Ho].
Qed.

(** Then both read the same batch from it. *)
Lemma provided_parse seq blockHash bytes m mode : Forall is_byte bytes -> provided blockHash bytes ->
  parseSequencerMessage seq blockHash bytes nproviders KeysetValidate = Ok m ->
  parseSequencerMessage seq 0 bytes wproviders mode = Ok m.
Proof.
  intros Hby Hp. unfold parseSequencerMessage. destruct (_ <? 40)%nat; [discriminate|]. cbv zeta.
  destruct (drop 40 bytes) as [|b rest] eqn:Hd; [auto|]. destruct (_ && _); [discriminate|].
  pose proof (provided_recover seq blockHash bytes mode b rest Hby Hp Hd) as H.
  destruct (findProvider nproviders b) as [p|], (findProvider wproviders b) as [q|]; try contradiction; [|auto].
  destruct (RecoverPayloadFromBatch p _ _ _ _) as [x| |]; [|discriminate..]. now rewrite (H x eq_refl).
Qed.

(** A batch with number [seq] that both sides see: the machine's inbox holds
    what the node found on the parent chain, with the data it refers to, and both
    have the delayed messages from [d] on that it reads. *)
Record batch_seen (seq : Z) (batch : SequencerInboxBatch) (d : Z) (m : sequencerMessage) : Prop := {
  seen_bytes : exists bytes, fst (SequencerInboxBatch_Serialize batch) = Ok bytes /\ ReadInboxMessage seq = bytes /\
    parseSequencerMessage seq (sb_BlockHash batch) bytes nproviders KeysetValidate = Ok m /\
    Forall is_byte bytes /\ provided (sb_BlockHash batch) bytes;
  seen_count : sb_AfterDelayedCount batch = sm_afterDelayedMessages m;
  seen_room : Z.of_nat (length (sm_segments m)) + sm_afterDelayedMessages m + 1 < 2 ^ 64;
  seen_range : 0 <= d <= sm_afterDelayedMessages m;
  seen_delayed : forall n, d <= n < sm_afterDelayedMessages m ->
    GetDelayedMessage n = Ok (delayed n) /\
    ParseIncomingL1Message (ReadDelayedInboxMessage n) (Some (fun k => Ok (ReadInboxMessage k))) = Ok (delayed n)
}.

(** The messages of a list of batches that both sides see. *)
Inductive batches_yield : Z -> list SequencerInboxBatch -> Z -> list MessageWithMetadata -> Z -> Prop :=
| yield_nil seq d : batches_yield seq [] d [] d
| yield_cons seq batch batches d m msgs d' :
    batch_seen seq batch d m -> seq + 1 < 2 ^ 64 -> 0 <= seq ->
    batches_yield (seq + 1) batches (sm_afterDelayedMessages m) msgs d' ->
    batches_yield seq (batch :: batches) d (batch_messages m delayed d ++ msgs) d'.

Lemma node_start seq batch batches d m : batch_seen seq batch d m ->
  at_start nproviders (fun _ => KeysetValidate) m delayed (mkMultiplexerBackend seq (batch :: batches) 0) d.
Proof.
  intros [(bytes & Hs & _ & Hp & _) Hc Hr Hd Hdel]. constructor; auto.
  - intros n Hn. cbn. rewrite Hc, (proj2 (Z.leb_gt _ _)) by lia. now apply Hdel.
  - exists bytes, (sb_BlockHash batch). cbn. rewrite Hs. auto.
Qed.

Lemma replay_start seq batch d m : batch_seen seq batch d m ->
  at_start wproviders replay_mode m delayed (mkGlobalState seq 0) d.
Proof.
  intros [(bytes & Hs & Hw & Hp & Hby & Hpr) Hc Hr Hd Hdel]. constructor; auto.
  - intros n Hn. now apply Hdel.
  - exists bytes, 0. cbn. rewrite Hw. split; [reflexivity|]. intros p.
    now apply (provided_parse _ (sb_BlockHash batch)).
Qed.

Lemma yield_runs seq batches d msgs d' : batches_yield seq batches d msgs d' ->
  fresh_pops nproviders (fun _ => KeysetValidate) (length msgs) (mkMultiplexerBackend seq batches 0) d =
    (map Ok msgs, (mkMultiplexerBackend (seq + Z.of_nat (length batches)) [] 0, d')) /\
  nonce_run (length msgs) (mkGlobalState seq 0) d =
    (map Ok msgs, (mkGlobalState (seq + Z.of_nat (length batches)) 0, d')).
Proof.
  induction 1 as [seq d|seq batch batches d m msgs d' Hb Hs H0 Hy [IH1 IH2]].
  - cbn. now rewrite Z.add_0_r.
  - pose proof (batch_pops (run := fresh_pops nproviders (fun _ => KeysetValidate)) _ _ _ _ _ _ (node_start seq batch batches d m Hb)) as N.
    pose proof (batch_pops (run := nonce_run) _ _ _ _ _ _ (replay_start seq batch d m Hb)) as R. cbn in N, R.
    rewrite uwrap_id in N, R by (unfold in_u; lia). cbn [length]. rewrite length_app, map_app.
    replace (seq + Z.of_nat (S (length batches))) with (seq + 1 + Z.of_nat (length batches)) by lia. split.
    + exact (fresh_pops_app _ _ _ _ _ _ _ _ _ _ _ N IH1).
    + rewrite (nonce_run_app _ _ _ _ _ _ _ R eq_refl), IH2. reflexivity.
Qed.

(** C1: The node and the replay binary read the same messages. For batches that
    both see, the node's multiplexer, kept over all of them, and the replay
    binary, which starts every block from its global state and the nonce of the
    block before, produce the same list of messages; both end at the batch behind
    the last one, and no message is refused. *)
Theorem replay_agrees_with_node (seq d d' : Z) (batches : list SequencerInboxBatch) (msgs : list MessageWithMetadata) :
  batches_yield seq batches d msgs d' -> Z.of_nat (length msgs) < 2 ^ 64 ->
  let '(os, r) := pops nproviders KeysetValidate (length msgs) (NewInboxMultiplexer (mkMultiplexerBackend seq batches 0) d) in
  os = map Ok msgs /\ mx_backend r = mkMultiplexerBackend (seq + Z.of_nat (length batches)) [] 0 /\
  mx_delayedMessagesRead r = d' /\
  replay dasEnabled (length msgs) (Some d) (mkGlobalState seq 0) =
    (Ok msgs, mkGlobalState (seq + Z.of_nat (length batches)) 0).
Proof.
  intros Hy Hl. destruct (yield_runs _ _ _ _ _ Hy) as [N R].
  pose proof (pops_fresh_pops nproviders KeysetValidate (length msgs)
    (NewInboxMultiplexer (mkMultiplexerBackend seq batches 0) d) eq_refl (Z.le_refl 0) Hl) as Hp.
  cbn [NewInboxMultiplexer mx_backend mx_delayedMessagesRead] in Hp. rewrite N in Hp.
  destruct (pops nproviders KeysetValidate (length msgs) _) as [os r]. injection Hp as <- <- <-.
  pose proof (nonce_run_replay _ _ _ _ _ R eq_refl). auto.
Qed.

End Agreement.

(** ** Example *)

Definition example_client : L1Client := {|
  GetLogEmitterTxData := fun log => Ok ([0; 0; 0; 0] ++ log_Data log);
  unpackBatchFromOrigin := fun b => Ok b;
  FilterBatchDataLogs := fun _ _ _ => Ok [];
  unpackBatchData := fun b => Ok b;
  GetLogTransactionBlobHashes := fun _ => Ok [];
  FilterDeliveredLogs := fun _ _ => Ok [];
  batchDeliveredID := 1;
  ParseSequencerBatchDelivered := fun _ => Err EOF
|}.

Definition example_sequencer_batch : SequencerInboxBatch :=
  mkSequencerInboxBatch 77 100 7 0 0 0 2 (mkTimeBounds 10 20 1 5) (mkLog 1 1 77 100 3 (drop 40 example_batch))
    batchDataTxInput 1 None.

Definition example_machine : Wavmio := {|
  ReadInboxMessage := fun _ => example_batch;
  ReadDelayedInboxMessage := fun n =>
    match L1IncomingMessage_Serialize (example_delayed n) with Ok b => b | _ => [] end;
  ResolveTypedPreimage := fun _ _ => Err (ErrNew "unknown preimage")
|}.

Lemma replay_agrees_with_node_witness :
  let msgs := batch_messages (C := example_codecs) inbox_example_message example_delayed 0 in
  length msgs = 5%nat /\
  replay (E := TestEnv) (C := example_codecs) (P := example_bls) (B := example_blob_codecs) (W := example_machine)
    true 5 (Some 0) (mkGlobalState 7 0) = (Ok msgs, mkGlobalState 8 0).
Proof.
  intros msgs. split; [reflexivity|].
  pose proof (replay_agrees_with_node (E := TestEnv) (C := example_codecs) (P := example_bls)
    (B := example_blob_codecs) (W := example_machine) (L := example_client)
    (Some (fun _ => Err (ErrNew "not found"))) (fun _ _ => Ok []) (fun n => Ok (example_delayed n)) example_delayed
    7 0 2 [example_sequencer_batch] (msgs ++ [])) as H.
  rewrite app_nil_r in H. change (length msgs) with 5%nat in H.
  destruct (pops _ _ 5 _) as [os r]. destruct H as (_ & _ & _ & H); [|reflexivity|exact H].
  rewrite <- (app_nil_r msgs). apply yield_cons; [|lia|lia|constructor].
  constructor; [|reflexivity|cbn; lia|cbn; lia|].
  - exists example_batch. repeat (split; [vm_compute; reflexivity|]). split; [|split; [exact I|discriminate]].
    apply list.Forall_forall. intros x Hx. assert (forallb (fun x => (0 <=? x) && (x <? 256)) example_batch = true) as Hb by reflexivity.
    rewrite forallb_forall in Hb. specialize (Hb x (proj1 (list_elem_of_In _ _) Hx)). unfold is_byte. lia.
  - intros n Hn. cbn in Hn. assert (n = 0 \/ n = 1) as [-> | ->] by lia; split; vm_compute; reflexivity.
Defined.
