(* ===== verification/BatchSegments.v ===== *)
(** * arbnode/batch_poster.go: building the data of a batch

    [batchSegments] collects the messages of a batch: advances of the time and
    the block number in front of a message as headers, the messages as segments,
    compressed as they come and once more when the batch is closed. The brotli
    writer and the rlp encoder are the class [BatchCodecs]. What is proved: the
    multiplexer reads from a posted batch exactly the messages that were added;
    and what happens to a batch that is full to the last segment. *)
From Stdlib Require Import ZArith Lia String List.
From stdpp Require Import base list numbers list_numbers.
From S2P Require Import Prelude Arbmath Host Storage Readers L1Pricing IncomingMessage ArbosState Zeroheavy Inbox InboxFacts.
Open Scope Z_scope.

(** A brotli writer with the buffer it writes to, and rlp's [EncodeToBytes] of
    byte strings and of integers. [Write] returns what it wrote and an error. *)
Class BatchCodecs := {
  Writer : Type;
  NewWriterLevel : Z -> Writer;
  Writer_Write : Writer -> list Z -> Z * option error * Writer;
  Writer_Flush : Writer -> option error * Writer;
  Writer_Close : Writer -> option error * Writer;
  Writer_Buffer : Writer -> list Z;
  DefaultCompression : Z;
  EncodeBytes : list Z -> outcome (list Z);
  EncodeUint64 : Z -> outcome (list Z)
}.

(** The enumeration starts at 1, so that 0 is none of the bounds. *)
Inductive l1BlockBound : Type :=
| l1BlockBoundUnset
| l1BlockBoundDefault
| l1BlockBoundSafe
| l1BlockBoundFinalized
| l1BlockBoundLatest
| l1BlockBoundIgnore.

(** The fields that building and posting a batch read; durations are in
    nanoseconds. *)
Record BatchPosterConfig := mkBatchPosterConfig {
  bpc_DisableDasFallbackStoreDataOnChain : bool;
  bpc_MaxSize : Z;
  bpc_Max4844BatchSize : Z;
  bpc_MaxDelay : Z;
  bpc_WaitForMaxDelay : bool;
  bpc_PollInterval : Z;
  bpc_CompressionLevel : Z;
  bpc_DASRetentionPeriod : Z;
  bpc_GasRefunderAddress : string;
  bpc_UseNoOpStorage : bool;
  bpc_ExtraBatchGas : Z;
  bpc_Post4844Blobs : bool;
  bpc_IgnoreBlobPrice : bool;
  bpc_L1BlockBound : string;
  bpc_L1BlockBoundBypass : Z;
  bpc_GasEstimateBaseFeeMultipleBips : Z;
  bpc_gasRefunder : Z;
  bpc_l1BlockBound : l1BlockBound
}.

Definition errBatchAlreadyClosed : error := ErrNew "batch segments already closed".

Section BatchSegments.
Context {W : BatchCodecs}.

(** [compressedWriter] stands for the writer and its buffer. *)
Record batchSegments := mkBatchSegments {
  bs_compressedWriter : Writer;
  bs_rawSegments : list (list Z);
  bs_timestamp : Z;
  bs_blockNum : Z;
  bs_delayedMsg : Z;
  bs_sizeLimit : Z;
  bs_recompressionLevel : Z;
  bs_newUncompressedSize : Z;
  bs_totalUncompressedSize : Z;
  bs_lastCompressedSize : Z;
  bs_trailingHeaders : nat;
  bs_isDone : bool
}.

(** The writer with the sizes that follow it. *)
Definition set_writer (s : batchSegments) (w : Writer) (new total last : Z) : batchSegments :=
  mkBatchSegments w (bs_rawSegments s) (bs_timestamp s) (bs_blockNum s) (bs_delayedMsg s) (bs_sizeLimit s)
    (bs_recompressionLevel s) new total last (bs_trailingHeaders s) (bs_isDone s).

Definition set_raw (s : batchSegments) (raw : list (list Z)) (trailing : nat) : batchSegments :=
  mkBatchSegments (bs_compressedWriter s) raw (bs_timestamp s) (bs_blockNum s) (bs_delayedMsg s) (bs_sizeLimit s)
    (bs_recompressionLevel s) (bs_newUncompressedSize s) (bs_totalUncompressedSize s) (bs_lastCompressedSize s)
    trailing (bs_isDone s).

Definition set_done (s : batchSegments) : batchSegments :=
  mkBatchSegments (bs_compressedWriter s) (bs_rawSegments s) (bs_timestamp s) (bs_blockNum s) (bs_delayedMsg s)
    (bs_sizeLimit s) (bs_recompressionLevel s) (bs_newUncompressedSize s) (bs_totalUncompressedSize s)
    (bs_lastCompressedSize s) (bs_trailingHeaders s) true.

Definition set_position (s : batchSegments) (timestamp blockNum delayedMsg : Z) : batchSegments :=
  mkBatchSegments (bs_compressedWriter s) (bs_rawSegments s) timestamp blockNum delayedMsg (bs_sizeLimit s)
    (bs_recompressionLevel s) (bs_newUncompressedSize s) (bs_totalUncompressedSize s) (bs_lastCompressedSize s)
    (bs_trailingHeaders s) (bs_isDone s).

Definition newBatchSegments (firstDelayed : Z) (config : BatchPosterConfig) (backlog : Z) (use4844 : bool)
    : outcome batchSegments :=
  let? maxSize :=
    if use4844 then Ok (bpc_Max4844BatchSize config)
    else if bpc_MaxSize config <=? 40 then Panic "Maximum batch size too small"
    else Ok (bpc_MaxSize config - 40) in
  let compressionLevel := bpc_CompressionLevel config in
  let recompressionLevel := bpc_CompressionLevel config in
  let compressionLevel := if 20 <? backlog then Z.min compressionLevel DefaultCompression else compressionLevel in
  let recompressionLevel := if 40 <? backlog then Z.min recompressionLevel DefaultCompression else recompressionLevel in
  let compressionLevel := if 60 <? backlog then Z.min compressionLevel 4 else compressionLevel in
  let recompressionLevel := if recompressionLevel <? compressionLevel then compressionLevel else recompressionLevel in
  Ok (mkBatchSegments (NewWriterLevel compressionLevel) [] 0 0 firstDelayed maxSize recompressionLevel 0 0 0 0 false).

Definition addSegmentToCompressed (s : batchSegments) (segment : list Z) : outcome unit * batchSegments :=
  match EncodeBytes segment with
  | Ok encoded =>
      let '(lenWritten, err, w) := Writer_Write (bs_compressedWriter s) encoded in
      let s := set_writer s w (bs_newUncompressedSize s + lenWritten) (bs_totalUncompressedSize s + lenWritten)
                 (bs_lastCompressedSize s) in
      (match err with None => Ok tt | Some e => Err e end, s)
  | Err e => (Err e, s)
  | Panic msg => (Panic msg, s)
  end.

Fixpoint recompress_loop (segments : list (list Z)) (s : batchSegments) : outcome unit * batchSegments :=
  match segments with
  | [] => (Ok tt, s)
  | segment :: segments =>
      let^ (u, s) := addSegmentToCompressed s segment in recompress_loop segments s
  end.

Definition recompressAll (s : batchSegments) : outcome unit * batchSegments :=
  let s := set_writer s (NewWriterLevel (bs_recompressionLevel s)) 0 0 (bs_lastCompressedSize s) in
  let^ (u, s) := recompress_loop (bs_rawSegments s) s in
  if MaxDecompressedLen <? bs_totalUncompressedSize s
  then (Err (ErrNew "batch size exceeds maximum decompressed length"), s)
  else if MaxSegmentsPerSequencerMessage <=? Z.of_nat (length (bs_rawSegments s))
  then (Err (ErrNew "number of raw segments excees maximum number"), s)
  else (Ok tt, s).

Definition testForOverflow (s : batchSegments) (isHeader : bool) : outcome bool * batchSegments :=
  if MaxDecompressedLen <? bs_totalUncompressedSize s then (Ok true, s)
  else if MaxSegmentsPerSequencerMessage <=? Z.of_nat (length (bs_rawSegments s)) then (Ok true, s)
  else if bs_lastCompressedSize s + bs_newUncompressedSize s <? bs_sizeLimit s then (Ok false, s)
  else if isHeader || (length (bs_rawSegments s) =? bs_trailingHeaders s)%nat then (Ok false, s)
  else
    match Writer_Flush (bs_compressedWriter s) with
    | (Some e, w) =>
        (Err e, set_writer s w (bs_newUncompressedSize s) (bs_totalUncompressedSize s) (bs_lastCompressedSize s))
    | (None, w) =>
        let lastCompressedSize := Z.of_nat (length (Writer_Buffer w)) in
        (Ok (bs_sizeLimit s <=? lastCompressedSize), set_writer s w 0 (bs_totalUncompressedSize s) lastCompressedSize)
    end.

(** [rawSegments[:len(rawSegments)-trailingHeaders]]; there are never more
    trailing headers than segments. *)
Definition batchSegments_close (s : batchSegments) : outcome unit * batchSegments :=
  let s := set_raw s (take (length (bs_rawSegments s) - bs_trailingHeaders s) (bs_rawSegments s)) 0 in
  let^ (u, s) := recompressAll s in
  (Ok tt, set_done s).

(** [false] if the segment did not fit and the batch was closed. *)
Definition addSegment (s : batchSegments) (segment : list Z) (isHeader : bool) : outcome bool * batchSegments :=
  if bs_isDone s then (Err errBatchAlreadyClosed, s)
  else
    let^ (u, s) := addSegmentToCompressed s segment in
    let^ (overflow, s) := testForOverflow s isHeader in
    if overflow then let^ (u, s) := batchSegments_close s in (Ok false, s)
    else
      (Ok true, set_raw s (bs_rawSegments s ++ [segment]) (if isHeader then S (bs_trailingHeaders s) else 0)).

Definition addL2Msg (s : batchSegments) (l2msg : list Z) : outcome bool * batchSegments :=
  addSegment s (BatchSegmentKindL2Message :: l2msg) false.

Definition prepareIntSegment (val segmentHeader : Z) : outcome (list Z) :=
  let? enc := EncodeUint64 val in Ok (segmentHeader :: enc).

(** [base] and [set_base] are the field that is passed by reference. *)
Definition maybeAddDiffSegment (s : batchSegments) (base : Z) (set_base : batchSegments -> Z -> batchSegments)
    (newVal segmentHeader : Z) : outcome bool * batchSegments :=
  if newVal =? base then (Ok true, s)
  else
    match prepareIntSegment (newVal -u64 base) segmentHeader with
    | Ok seg =>
        let^ (success, s) := addSegment s seg true in
        (Ok success, if success then set_base s newVal else s)
    | Err e => (Err e, s)
    | Panic msg => (Panic msg, s)
    end.

Definition addDelayedMessage (s : batchSegments) : outcome bool * batchSegments :=
  let^ (success, s) := addSegment s [BatchSegmentKindDelayedMessages] false in
  (Ok success, if success then set_position s (bs_timestamp s) (bs_blockNum s) (bs_delayedMsg s +u64 1) else s).

Definition AddMessage (s : batchSegments) (msg : MessageWithMetadata) : outcome bool * batchSegments :=
  if bs_isDone s then (Err errBatchAlreadyClosed, s)
  else if bs_delayedMsg s <? mm_DelayedMessagesRead msg then
    if negb (mm_DelayedMessagesRead msg =? bs_delayedMsg s +u64 1)
    then (Err (ErrNew "attempted to add delayed msg"), s)
    else addDelayedMessage s
  else
    let header := msg_Header (mm_Message msg) in
    let^ (success, s) :=
      maybeAddDiffSegment s (bs_timestamp s) (fun s v => set_position s v (bs_blockNum s) (bs_delayedMsg s))
        (h_Timestamp header) BatchSegmentKindAdvanceTimestamp in
    if negb success then (Ok false, s)
    else
      let^ (success, s) :=
        maybeAddDiffSegment s (bs_blockNum s) (fun s v => set_position s (bs_timestamp s) v (bs_delayedMsg s))
          (h_BlockNumber header) BatchSegmentKindAdvanceL1BlockNumber in
      if negb success then (Ok false, s) else addL2Msg s (msg_L2msg (mm_Message msg)).

(** [None] is the nil slice: there is nothing to post. *)
Definition CloseAndGetBytes (s : batchSegments) : outcome (option (list Z)) * batchSegments :=
  let^ (u, s) := if bs_isDone s then (Ok tt, s) else batchSegments_close s in
  match bs_rawSegments s with
  | [] => (Ok None, s)
  | _ =>
      match Writer_Close (bs_compressedWriter s) with
      | (Some e, w) =>
          (Err e, set_writer s w (bs_newUncompressedSize s) (bs_totalUncompressedSize s) (bs_lastCompressedSize s))
      | (None, w) =>
          (Ok (Some (BrotliMessageHeaderByte :: Writer_Buffer w)),
           set_writer s w (bs_newUncompressedSize s) (bs_totalUncompressedSize s) (bs_lastCompressedSize s))
      end
  end.

End BatchSegments.

(** What the two libraries promise. [wrote w b] says that the writer [w] is open
    and that [b] was written to it: closing it leaves in the buffer what a
    decompressor turns back into [b]. Nothing is said of a closed writer. A
    stream gives back what was encoded, one value after the other. *)
Class BatchCodecsLaws (C : Codecs) (W : BatchCodecs) := {
  wrote : Writer -> list Z -> Prop;
  wrote_new level : wrote (NewWriterLevel level) [];
  Write_ok w b b' : wrote w b -> exists w', Writer_Write w b' = (Z.of_nat (length b'), None, w') /\ wrote w' (b ++ b');
  Flush_ok w b : wrote w b -> exists w', Writer_Flush w = (None, w') /\ wrote w' b;
  Close_ok w b : wrote w b -> exists w', Writer_Close w = (None, w') /\
    forall max, Z.of_nat (length b) <= max -> Decompress (Writer_Buffer w') max = Some b;
  streams : Stream -> list Z -> Prop;
  streams_new b limit : Z.of_nat (length b) <= limit -> streams (NewStream b limit) b;
  streams_end s : streams s [] -> Stream_Decode s = None;
  EncodeBytes_ok b : exists e, EncodeBytes b = Ok e /\
    forall s rest, streams s (e ++ rest) -> exists s', Stream_Decode s = Some (b, s') /\ streams s' rest;
  EncodeUint64_ok v : in_u 64 v -> exists e, EncodeUint64 v = Ok e /\ Stream_Uint64 (NewStream e 16) = Some v
}.

Section Facts.
Context {C : Codecs} {W : BatchCodecs} {WL : BatchCodecsLaws C W}.

(** ** Compression *)

Definition enc (b : list Z) : list Z := match EncodeBytes b with Ok e => e | _ => [] end.
Definition enc_all (segments : list (list Z)) : list Z := concat (map enc segments).

Lemma enc_all_app a b : enc_all (a ++ b) = enc_all a ++ enc_all b.
Proof. unfold enc_all. now rewrite map_app, concat_app. Qed.

Lemma addSegmentToCompressed_ok s seg b : wrote (bs_compressedWriter s) b -> exists w,
  addSegmentToCompressed s seg =
    (Ok tt, set_writer s w (bs_newUncompressedSize s + Z.of_nat (length (enc seg)))
              (bs_totalUncompressedSize s + Z.of_nat (length (enc seg))) (bs_lastCompressedSize s)) /\
  wrote w (b ++ enc seg).
Proof.
  intros Hb. unfold addSegmentToCompressed, enc. destruct (EncodeBytes_ok seg) as (e & -> & _).
  destruct (Write_ok (bs_compressedWriter s) b e Hb) as (w & -> & Hw). exists w. auto.
Qed.

Lemma recompress_loop_ok : forall segments s b, wrote (bs_compressedWriter s) b -> exists w n,
  recompress_loop segments s =
    (Ok tt, set_writer s w n (bs_totalUncompressedSize s + Z.of_nat (length (enc_all segments))) (bs_lastCompressedSize s)) /\
  wrote w (b ++ enc_all segments).
Proof.
  induction segments as [|seg segments IH]; intros s b Hb.
  - exists (bs_compressedWriter s), (bs_newUncompressedSize s). cbn. rewrite Z.add_0_r, app_nil_r. now destruct s.
  - cbn [recompress_loop]. destruct (addSegmentToCompressed_ok s seg b Hb) as (w & -> & Hw).
    edestruct IH as (w' & n' & -> & Hw'); [exact Hw|]. exists w', n'. rewrite <- app_assoc in Hw'.
    split; [|exact Hw']. cbn. unfold enc_all. cbn. rewrite length_app. do 2 f_equal. lia.
Qed.

(** The reader's loop reads back what was encoded. *)
Lemma readSegments_encoded : forall segments fuel s acc, (length segments < fuel)%nat ->
  Z.of_nat (length acc + length segments) <= MaxSegmentsPerSequencerMessage ->
  streams s (enc_all segments) -> readSegments fuel s acc = acc ++ segments.
Proof.
  induction segments as [|seg segments IH]; intros [|fuel] s acc Hf Hm Hs; cbn [length] in *; try lia; cbn [readSegments].
  - now rewrite (streams_end s Hs), app_nil_r.
  - unfold enc_all in Hs. cbn [map concat] in Hs. unfold enc at 1 in Hs. destruct (EncodeBytes_ok seg) as (e & He & Hd).
    rewrite He in Hs. destruct (Hd s _ Hs) as (s' & -> & Hs').
    destruct (Z.leb_spec MaxSegmentsPerSequencerMessage (Z.of_nat (length acc))); [lia|].
    rewrite IH; [now rewrite <- app_assoc|lia|rewrite length_app; cbn; lia|exact Hs'].
Qed.

(** ** What the segments of a batch say *)

(** The time and the block behind segments. *)
Fixpoint time_after (segments : list (list Z)) (ts bn : Z) : Z * Z :=
  match segments with
  | [] => (ts, bn)
  | seg :: segments => let '(ts, bn) := default (ts, bn) (skipped seg ts bn) in time_after segments ts bn
  end.

Lemma time_after_app : forall a b ts bn,
  time_after (a ++ b) ts bn = let '(ts, bn) := time_after a ts bn in time_after b ts bn.
Proof. induction a as [|seg a IH]; intros; cbn; [reflexivity|]. destruct (default _ _). apply IH. Qed.

Lemma submessages_app : forall a b ts bn,
  submessages (a ++ b) ts bn = submessages a ts bn ++ let '(ts, bn) := time_after a ts bn in submessages b ts bn.
Proof.
  induction a as [|seg a IH]; intros; cbn; [reflexivity|].
  destruct (skipped seg ts bn) as [[ts' bn']|]; cbn; now rewrite IH.
Qed.

(** A segment that advances the time or the block. *)
Definition header_seg (seg : list Z) : Prop := forall ts bn, skipped seg ts bn <> None.

Lemma submessages_headers : forall hs ts bn, Forall header_seg hs -> submessages hs ts bn = [].
Proof.
  induction hs as [|seg hs IH]; intros ts bn Hh; [reflexivity|]. inversion Hh as [|? ? H1 H2]; subst. cbn.
  specialize (H1 ts bn). destruct (skipped seg ts bn) as [[ts' bn']|]; [now apply IH|congruence].
Qed.

Context (delayed : Z -> L1IncomingMessage).

(** The message of the sequencer at a time and a block. *)
Definition l2_message (ts bn : Z) (data : list Z) : L1IncomingMessage :=
  mkL1IncomingMessage (mkL1Header L1MessageType_L2Message BatchPosterAddress bn ts None (Some 0)) data None.

(** The message that can follow [d] delayed messages: the next delayed one, or
    one of the sequencer. *)
Definition next_message (d : Z) (msg : MessageWithMetadata) : Prop :=
  in_u 64 (mm_DelayedMessagesRead msg) /\
  (mm_DelayedMessagesRead msg = d + 1 /\ mm_Message msg = delayed d \/
   mm_DelayedMessagesRead msg = d /\
   exists ts bn data, mm_Message msg = l2_message ts bn data /\ in_u 64 ts /\ in_u 64 bn).

Definition sub_of (d : Z) (sub : submessage) (msg : MessageWithMetadata) : Prop :=
  (mm_DelayedMessagesRead msg = d + 1 /\ mm_Message msg = delayed d /\
   sub_segment sub = [BatchSegmentKindDelayedMessages]) \/
  (mm_DelayedMessagesRead msg = d /\ exists data, sub_segment sub = BatchSegmentKindL2Message :: data /\
   mm_Message msg = l2_message (sub_timestamp sub) (sub_blockNumber sub) data).

Fixpoint subs_match (d : Z) (subs : list submessage) (msgs : list MessageWithMetadata) (d' : Z) : Prop :=
  match subs, msgs with
  | [], [] => d = d'
  | sub :: subs, msg :: msgs => sub_of d sub msg /\ subs_match (mm_DelayedMessagesRead msg) subs msgs d'
  | _, _ => False
  end.

Lemma subs_match_snoc sub msg d1 : forall subs d msgs, subs_match d subs msgs d1 -> sub_of d1 sub msg ->
  subs_match d (subs ++ [sub]) (msgs ++ [msg]) (mm_DelayedMessagesRead msg).
Proof.
  induction subs as [|s subs IH]; intros d [|m msgs] H Hs; cbn in *; try easy; [now subst|].
  destruct H as [H1 H2]. auto.
Qed.

(** Reading the sub-messages gives the messages, when their times and blocks
    lie within the bounds of the batch. *)
Definition within_bounds (m : sequencerMessage) (msg : MessageWithMetadata) : Prop :=
  let h := msg_Header (mm_Message msg) in
  h_Kind h = L1MessageType_L2Message ->
  sm_minTimestamp m <= h_Timestamp h <= sm_maxTimestamp m /\ sm_minL1Block m <= h_BlockNumber h <= sm_maxL1Block m.

Lemma clampToBounds_id v lo hi : lo <= v <= hi -> clampToBounds v lo hi = v.
Proof. intros H. unfold clampToBounds. destruct (Z.ltb_spec v lo), (Z.ltb_spec hi v); lia. Qed.

Lemma subs_match_le : forall subs d msgs d', subs_match d subs msgs d' -> d <= d'.
Proof.
  induction subs as [|s subs IH]; intros d [|msg msgs] d' H; cbn in H; try easy; [lia|].
  destruct H as [Hs H]. apply IH in H. destruct Hs as [[? _]|[? _]]; lia.
Qed.

Lemma subs_match_end : forall subs subs' d msgs a b, subs_match d subs msgs a -> subs_match d subs' msgs b -> a = b.
Proof.
  induction subs as [|s subs IH]; intros [|s' subs'] d [|msg msgs] a b H H'; cbn in *; try easy; [congruence|].
  destruct H as [_ H], H' as [_ H']. eauto.
Qed.

Lemma deliver_all_match (m : sequencerMessage) : forall subs d msgs, subs_match d subs msgs (sm_afterDelayedMessages m) ->
  Forall (within_bounds m) msgs -> deliver_all m delayed subs d = msgs.
Proof.
  induction subs as [|sub subs IH]; intros d [|msg msgs] H Hb; cbn in H; try easy.
  - cbn. unfold delayed_messages. now rewrite seqZ_nil by lia.
  - destruct H as [Hs H]. inversion Hb as [|? ? Hb1 Hb2]; subst. pose proof (subs_match_le _ _ _ _ H) as Hle.
    assert (deliver m delayed sub d = (Some msg, mm_DelayedMessagesRead msg)) as Hd.
    { unfold deliver, sub_of in *. cbv zeta. destruct msg as [msg r]. cbn [mm_Message mm_DelayedMessagesRead] in *.
      destruct Hs as [(-> & -> & ->)|(-> & data & -> & ->)].
      - cbn. destruct (Z.leb_spec (sm_afterDelayedMessages m) d); [lia|reflexivity].
      - cbn. destruct (Hb1 eq_refl) as [H1 H2]. cbn in H1, H2. now rewrite !clampToBounds_id by assumption. }
    cbn [deliver_all]. rewrite Hd. cbn [from_option id].
    assert (isLast m subs (mm_DelayedMessagesRead msg) = match subs with [] => true | _ => false end) as ->.
    { unfold isLast. destruct subs as [|sub' subs'], msgs as [|msg' msgs']; cbn in H; try easy.
      - now rewrite H, Z.leb_refl.
      - destruct H as [[(_ & _ & Hk)|(_ & data & Hk & _)] _]; cbn; rewrite Hk; cbn; apply andb_false_r. }
    destruct subs as [|sub' subs'], msgs as [|msg' msgs']; try easy. f_equal. now apply IH.
Qed.

(** ** The invariant of a batch *)

Context (first : Z).

(** A batch that holds [msgs] and perhaps headers of a message that is not
    there yet; [body] is what a close keeps. *)
Record holds (s : batchSegments) (msgs : list MessageWithMetadata) (body : list (list Z)) : Prop := {
  hb_open : bs_isDone s = false;
  hb_writer : exists b, wrote (bs_compressedWriter s) b;
  hb_raw : exists hs, bs_rawSegments s = body ++ hs /\ length hs = bs_trailingHeaders s /\ Forall header_seg hs;
  hb_size : Z.of_nat (length (enc_all (bs_rawSegments s))) <= MaxDecompressedLen;
  hb_msgs : subs_match first (submessages body 0 0) msgs (bs_delayedMsg s);
  hb_empty : msgs = [] -> body = []
}.

(** With the counters that the next segment relies on. *)
Record open_batch (s : batchSegments) (msgs : list MessageWithMetadata) (body : list (list Z)) : Prop := {
  ob_holds : holds s msgs body;
  ob_total : bs_totalUncompressedSize s = Z.of_nat (length (enc_all (bs_rawSegments s)));
  ob_time : time_after (bs_rawSegments s) 0 0 = (bs_timestamp s, bs_blockNum s)
}.

Record closed_batch (s : batchSegments) (msgs : list MessageWithMetadata) : Prop := {
  cb_done : bs_isDone s = true;
  cb_written : wrote (bs_compressedWriter s) (enc_all (bs_rawSegments s));
  cb_size : Z.of_nat (length (enc_all (bs_rawSegments s))) <= MaxDecompressedLen;
  cb_count : Z.of_nat (length (bs_rawSegments s)) < MaxSegmentsPerSequencerMessage;
  cb_msgs : subs_match first (submessages (bs_rawSegments s) 0 0) msgs (bs_delayedMsg s);
  cb_empty : msgs = [] -> bs_rawSegments s = []
}.

Lemma close_spec s msgs body : holds s msgs body ->
  match batchSegments_close s with
  | (Ok _, s') => closed_batch s' msgs /\ Z.of_nat (length body) < MaxSegmentsPerSequencerMessage
  | (Err _, _) => MaxSegmentsPerSequencerMessage <= Z.of_nat (length body)
  | (Panic _, _) => False
  end.
Proof.
  intros [Ho _ (hs & Hraw & Hl & _) Hs Hm Hemp]. unfold batchSegments_close, recompressAll.
  assert (take (length (bs_rawSegments s) - bs_trailingHeaders s) (bs_rawSegments s) = body) as ->.
  { rewrite Hraw, length_app, <- Hl, Nat.add_sub. apply take_app_length. }
  cbn [set_raw bs_recompressionLevel bs_lastCompressedSize bs_rawSegments set_writer].
  edestruct recompress_loop_ok as (w & n & -> & Hw); [apply wrote_new|]. cbn [set_writer set_raw bs_totalUncompressedSize bs_rawSegments].
  rewrite Hraw, enc_all_app, length_app in Hs.
  destruct (Z.ltb_spec MaxDecompressedLen (0 + Z.of_nat (length (enc_all body)))); [lia|].
  destruct (Z.leb_spec MaxSegmentsPerSequencerMessage (Z.of_nat (length body))); [assumption|].
  split; [|assumption]. constructor; cbn; auto; lia.
Qed.

Lemma testForOverflow_spec s h b : wrote (bs_compressedWriter s) b -> exists over w n l,
  testForOverflow s h = (Ok over, set_writer s w n (bs_totalUncompressedSize s) l) /\ wrote w b /\
  (over = false -> bs_totalUncompressedSize s <= MaxDecompressedLen).
Proof.
  intros Hb.
  assert (s = set_writer s (bs_compressedWriter s) (bs_newUncompressedSize s) (bs_totalUncompressedSize s) (bs_lastCompressedSize s))
    as Hid by now destruct s.
  unfold testForOverflow. destruct (Z.ltb_spec MaxDecompressedLen (bs_totalUncompressedSize s)).
  { do 4 eexists. split; [rewrite Hid at 1; reflexivity|]. split; [exact Hb|discriminate]. }
  destruct (_ <=? _); [do 4 eexists; split; [rewrite Hid at 1; reflexivity|]; split; [exact Hb|discriminate]|].
  destruct (_ <? _); [do 4 eexists; split; [rewrite Hid at 1; reflexivity|auto]|].
  destruct (_ || _); [do 4 eexists; split; [rewrite Hid at 1; reflexivity|auto]|].
  destruct (Flush_ok (bs_compressedWriter s) b Hb) as (w & -> & Hw). do 4 eexists. split; [reflexivity|auto].
Qed.

Lemma addSegment_spec s msgs body seg h : open_batch s msgs body ->
  match addSegment s seg h with
  | (Ok true, s') => exists w n t l, s' = set_raw (set_writer s w n t l) (bs_rawSegments s ++ [seg])
        (if h then S (bs_trailingHeaders s) else 0%nat) /\ (exists b, wrote w b) /\
      t = Z.of_nat (length (enc_all (bs_rawSegments s ++ [seg]))) /\ t <= MaxDecompressedLen
  | (Ok false, s') => closed_batch s' msgs
  | (Err _, _) => MaxSegmentsPerSequencerMessage <= Z.of_nat (length body)
  | (Panic _, _) => False
  end.
Proof.
  intros [Hh Ht _]. pose proof Hh as [Ho [b Hb] Hraw Hs Hm Hemp]. unfold addSegment. rewrite Ho.
  destruct (addSegmentToCompressed_ok s seg b Hb) as (w & -> & Hw).
  edestruct testForOverflow_spec as (over & w' & n' & l' & -> & Hw' & Hover); [exact Hw|]. cbn [set_writer bs_totalUncompressedSize] in *.
  destruct over.
  - match goal with |- context [batchSegments_close ?s1] => pose proof (close_spec s1 msgs body) as Hc;
      destruct (batchSegments_close s1) as [[u|e|p] s2] end; apply Hc; constructor; eauto.
  - do 4 eexists. split; [reflexivity|]. split; [eauto|]. specialize (Hover eq_refl). rewrite enc_all_app, length_app. unfold enc_all at 2.
    cbn [map concat]. rewrite app_nil_r. lia.
Qed.

(** A header in front of a message: the time or the block moves to [v]. *)
Lemma maybeAddDiff_spec s msgs body base set_base v k : open_batch s msgs body ->
  (forall s', bs_rawSegments (set_base s' v) = bs_rawSegments s' /\ bs_trailingHeaders (set_base s' v) = bs_trailingHeaders s' /\
     bs_isDone (set_base s' v) = bs_isDone s' /\ bs_compressedWriter (set_base s' v) = bs_compressedWriter s' /\ bs_delayedMsg (set_base s' v) = bs_delayedMsg s' /\
     bs_totalUncompressedSize (set_base s' v) = bs_totalUncompressedSize s') ->
  (forall e, Stream_Uint64 (NewStream e 16) = Some (v -u64 base) -> forall s', bs_timestamp s' = bs_timestamp s -> bs_blockNum s' = bs_blockNum s ->
     skipped (k :: e) (bs_timestamp s) (bs_blockNum s) = Some (bs_timestamp (set_base s' v), bs_blockNum (set_base s' v))) ->
  (v = base -> set_base s v = s) ->
  (forall e, Stream_Uint64 (NewStream e 16) = Some (v -u64 base) -> header_seg (k :: e)) ->
  match maybeAddDiffSegment s base set_base v k with
  | (Ok true, s') => open_batch s' msgs body /\ bs_delayedMsg s' = bs_delayedMsg s /\
      (exists s1, s' = set_base s1 v /\ bs_timestamp s1 = bs_timestamp s /\ bs_blockNum s1 = bs_blockNum s)
  | (Ok false, s') => closed_batch s' msgs
  | (Err _, _) => MaxSegmentsPerSequencerMessage <= Z.of_nat (length body)
  | (Panic _, _) => False
  end.
Proof.
  intros Hob Hset Hsk Hid Hhd. unfold maybeAddDiffSegment. destruct (Z.eqb_spec v base) as [Hv|Hv].
  { split; [exact Hob|]. split; [reflexivity|]. exists s. now rewrite (Hid Hv). }
  unfold prepareIntSegment. destruct (EncodeUint64_ok (v -u64 base)) as (e & -> & He); [apply uwrap_range; lia|]. cbn [obind].
  pose proof (addSegment_spec s msgs body (k :: e) true Hob) as Ha. destruct (addSegment s (k :: e) true) as [[[]|err|p] s1]; auto.
  destruct Ha as (w & n & t & l & -> & Hw & Ht & Hle). destruct Hob as [[Ho _ (hs & Hraw & Hl & Hhs) Hs Hm Hemp] Htot Htime].
  set (s1 := set_raw _ _ _). destruct (Hset s1) as (E1 & E2 & E3 & E6 & E4 & E5). split; [|split; [exact E4|exists s1; auto]].
  constructor; [constructor|..]; rewrite ?E1, ?E2, ?E3, ?E4, ?E5, ?E6; cbn [s1 set_raw set_writer bs_isDone bs_rawSegments
    bs_trailingHeaders bs_delayedMsg bs_totalUncompressedSize]; auto; try lia.
  - exists (hs ++ [k :: e]). rewrite Hraw, <- app_assoc, length_app, Hl. split; [reflexivity|]. split; [cbn; lia|].
    apply Forall_app. split; [exact Hhs|]. constructor; [exact (Hhd e He)|constructor].
  - rewrite time_after_app, Htime. cbn [time_after]. now rewrite (Hsk e He s1 eq_refl eq_refl).
Qed.

Lemma diff_wraps v base : in_u 64 v -> base +u64 (v -u64 base) = v.
Proof.
  intros Hv. unfold uwrap. rewrite Zplus_mod_idemp_r. replace (base + (v - base)) with v by lia. now apply Z.mod_small.
Qed.

Lemma holds_add s msgs body w n t l seg msg : open_batch s msgs body -> (exists b, wrote w b) -> t <= MaxDecompressedLen ->
  t = Z.of_nat (length (enc_all (bs_rawSegments s ++ [seg]))) ->
  skipped seg (bs_timestamp s) (bs_blockNum s) = None ->
  sub_of (bs_delayedMsg s) (mkSubmessage (bs_timestamp s) (bs_blockNum s) seg) msg ->
  open_batch (set_position (set_raw (set_writer s w n t l) (bs_rawSegments s ++ [seg]) 0) (bs_timestamp s) (bs_blockNum s)
    (mm_DelayedMessagesRead msg)) (msgs ++ [msg]) (bs_rawSegments s ++ [seg]).
Proof.
  intros [[Ho _ (hs & Hraw & Hl & Hhs) Hs Hm Hemp] Htot Htime] Hw Ht Hteq Hsk Hsub. constructor; [constructor|..];
    cbn [set_position set_raw set_writer bs_isDone bs_rawSegments bs_trailingHeaders bs_delayedMsg bs_totalUncompressedSize
      bs_timestamp bs_blockNum]; auto; try lia.
  - exists []. now rewrite app_nil_r.
  - rewrite submessages_app, Htime. cbn [submessages]. rewrite Hsk.
    assert (submessages (bs_rawSegments s) 0 0 = submessages body 0 0) as ->.
    { rewrite Hraw, submessages_app. destruct (time_after body 0 0) as [ts bn]. rewrite (submessages_headers hs ts bn Hhs). apply app_nil_r. }
    now apply subs_match_snoc with (d1 := bs_delayedMsg s).
  - intros Hnil. destruct msgs; discriminate.
  - rewrite time_after_app, Htime. cbn [time_after]. now rewrite Hsk.
Qed.

Lemma set_position_same s : set_position s (bs_timestamp s) (bs_blockNum s) (bs_delayedMsg s) = s.
Proof. now destruct s. Qed.

(** The side conditions of a header of the time or of the block. *)
#[local] Ltac ts_bn :=
  first
  [ solve [intros; repeat split]
  | solve [intros ? Hv ? ? ?; unfold skipped; cbn [Z.eqb Pos.eqb orb BatchSegmentKindAdvanceTimestamp
      BatchSegmentKindAdvanceL1BlockNumber]; rewrite Hv; cbn; rewrite diff_wraps by assumption; congruence]
  | solve [intros ->; apply set_position_same]
  | solve [intros ? Hv ? ?; unfold skipped; cbn [Z.eqb Pos.eqb orb BatchSegmentKindAdvanceTimestamp
      BatchSegmentKindAdvanceL1BlockNumber]; rewrite Hv; discriminate] ].

Lemma AddMessage_spec s msgs body msg : open_batch s msgs body -> next_message (bs_delayedMsg s) msg ->
  match AddMessage s msg with
  | (Ok true, s') => bs_delayedMsg s' = mm_DelayedMessagesRead msg /\ bs_trailingHeaders s' = 0%nat /\
      exists body', open_batch s' (msgs ++ [msg]) body'
  | (Ok false, s') => closed_batch s' msgs
  | (Err _, _) => MaxSegmentsPerSequencerMessage <= Z.of_nat (length body)
  | (Panic _, _) => False
  end.
Proof.
  intros Hob [Hu Hnext]. unfold AddMessage. rewrite (hb_open _ _ _ (ob_holds _ _ _ Hob)).
  destruct Hnext as [[Hd Hmsg]|[Hd (ts & bn & data & Hmsg & Hts & Hbn)]].
  - rewrite (proj2 (Z.ltb_lt _ _)) by lia. rewrite uwrap_id, Hd, Z.eqb_refl by (rewrite <- Hd; exact Hu). cbn [negb].
    unfold addDelayedMessage. pose proof (addSegment_spec s msgs body [BatchSegmentKindDelayedMessages] false Hob) as Ha.
    destruct (addSegment _ _ _) as [[[]|e|p] s']; auto. destruct Ha as (w & n & t & l & -> & Hw & Ht & Hle).
    cbn [set_raw set_writer bs_timestamp bs_blockNum bs_delayedMsg]. rewrite uwrap_id by (rewrite <- Hd; exact Hu).
    split; [reflexivity|]. split; [reflexivity|]. eexists. rewrite <- Hd. apply holds_add with (body := body); auto. left. auto.
  - rewrite (proj2 (Z.ltb_ge _ _)) by lia. rewrite Hmsg. cbn [l2_message msg_Header h_Timestamp h_BlockNumber msg_L2msg].
    pose proof (maybeAddDiff_spec s msgs body (bs_timestamp s) (fun s v => set_position s v (bs_blockNum s) (bs_delayedMsg s))
      ts BatchSegmentKindAdvanceTimestamp Hob) as H1.
    destruct (maybeAddDiffSegment s (bs_timestamp s) _ _ _) as [[[]|e|p] s1]; cbn [negb]; try (apply H1; ts_bn).
    destruct H1 as (Hob1 & Hd1 & sa & Hs1 & Hsats & Hsabn); [ts_bn..|].
    assert (bs_timestamp s1 = ts /\ bs_blockNum s1 = bs_blockNum s) as [Ht1 Hb1] by (subst s1; auto).
    pose proof (maybeAddDiff_spec s1 msgs body (bs_blockNum s1) (fun s v => set_position s (bs_timestamp s) v (bs_delayedMsg s))
      bn BatchSegmentKindAdvanceL1BlockNumber Hob1) as H2.
    destruct (maybeAddDiffSegment s1 (bs_blockNum s1) _ _ _) as [[[]|e|p] s2]; cbn [negb]; try (apply H2; ts_bn).
    destruct H2 as (Hob2 & Hd2 & sb & Hs2 & Hsbts & Hsbbn); [ts_bn..|].
    assert (bs_timestamp s2 = ts /\ bs_blockNum s2 = bn) as [Ht2 Hb2] by (subst s2; cbn; rewrite Hsbts; auto).
    unfold addL2Msg. pose proof (addSegment_spec s2 msgs body (BatchSegmentKindL2Message :: data) false Hob2) as Ha.
    destruct (addSegment _ _ _) as [[[]|e|p] s']; auto. destruct Ha as (w & n & t & l & -> & Hw & Ht & Hle).
    cbn [set_raw set_writer bs_delayedMsg]. split; [lia|]. split; [reflexivity|]. eexists.
    match goal with |- open_batch ?s' _ _ => rewrite <- (set_position_same s') end. cbn [set_raw set_writer bs_timestamp bs_blockNum bs_delayedMsg].
    rewrite Hd2, Hd1, <- Hd. apply holds_add with (body := body); auto.
    right. split; [lia|]. exists data. split; [reflexivity|]. cbn. now rewrite Ht2, Hb2.
Qed.

(** ** Full batches *)

(** What the poster may try on a batch. *)
Inductive batch_attempt : Type :=
| Try_AddMessage (msg : MessageWithMetadata)
| Try_CloseAndGetBytes.

(** Whether the attempt failed with an error, and the batch behind it. *)
Definition attempt_fails (a : batch_attempt) (s : batchSegments) : bool * batchSegments :=
  match a with
  | Try_AddMessage msg => let '(r, s') := AddMessage s msg in (match r with Err _ => true | _ => false end, s')
  | Try_CloseAndGetBytes => let '(r, s') := CloseAndGetBytes s in (match r with Err _ => true | _ => false end, s')
  end.

(** Every one of the attempts, one after the other, fails and leaves the batch
    open with the segments that it had. *)
Fixpoint attempts_fail (attempts : list batch_attempt) (s : batchSegments) : Prop :=
  match attempts with
  | [] => True
  | a :: attempts =>
      let '(failed, s') := attempt_fails a s in
      failed = true /\ bs_isDone s' = false /\ bs_rawSegments s' = bs_rawSegments s /\ attempts_fail attempts s'
  end.

(** The batch is open, full, and ends in a message. *)
Record stuck (s : batchSegments) (raw : list (list Z)) : Prop := {
  st_open : bs_isDone s = false;
  st_raw : bs_rawSegments s = raw;
  st_trailing : bs_trailingHeaders s = 0%nat;
  st_full : MaxSegmentsPerSequencerMessage <= Z.of_nat (length raw);
  st_writer : exists b, wrote (bs_compressedWriter s) b
}.

(** An operation that fails and leaves a stuck batch stuck. *)
Definition fails_stuck {A} (raw : list (list Z)) (r : outcome A * batchSegments) : Prop :=
  exists e s', r = (Err e, s') /\ stuck s' raw.

Lemma close_stuck s raw : stuck s raw -> fails_stuck raw (batchSegments_close s).
Proof.
  intros [Ho Hraw Ht Hf _]. unfold batchSegments_close, recompressAll. rewrite Ht, Nat.sub_0_r, firstn_all, Hraw. cbn.
  match goal with |- context [recompress_loop raw ?s1] =>
    destruct (recompress_loop_ok raw s1 [] (wrote_new _)) as (w & n & -> & Hw) end. cbn.
  destruct (_ <? _); [|rewrite (proj2 (Z.leb_le _ _) Hf)];
    (eexists _, _; split; [reflexivity|]; constructor; cbn; eauto).
Qed.

Lemma addSegment_stuck s raw seg h : stuck s raw -> fails_stuck raw (addSegment s seg h).
Proof.
  intros Hst. pose proof Hst as [Ho Hraw Ht Hf [b Hb]]. unfold addSegment. rewrite Ho.
  destruct (addSegmentToCompressed_ok s seg b Hb) as (w & -> & Hw).
  match goal with |- context [testForOverflow ?s1 h] => assert (testForOverflow s1 h = (Ok true, s1)) as -> end.
  { unfold testForOverflow. cbn [set_writer bs_totalUncompressedSize bs_rawSegments]. destruct (_ <? _); [reflexivity|].
    now rewrite Hraw, (proj2 (Z.leb_le _ _) Hf). }
  match goal with |- context [batchSegments_close ?s1] => destruct (close_stuck s1 raw) as (e & s' & -> & Hs') end.
  - constructor; cbn; eauto.
  - exists e, s'. auto.
Qed.

Lemma maybeAddDiff_stuck s raw base set_base v k : stuck s raw -> v <> base ->
  fails_stuck raw (maybeAddDiffSegment s base set_base v k).
Proof.
  intros Hst Hv. unfold maybeAddDiffSegment. rewrite (proj2 (Z.eqb_neq _ _) Hv). unfold prepareIntSegment.
  destruct (EncodeUint64_ok (v -u64 base)) as (e & -> & _); [apply uwrap_range; lia|]. cbn [obind].
  destruct (addSegment_stuck s raw (k :: e) true Hst) as (e' & s' & -> & Hs'). exists e', s'. auto.
Qed.

Lemma AddMessage_stuck s raw msg : stuck s raw -> fails_stuck raw (AddMessage s msg).
Proof.
  intros Hst. unfold AddMessage. rewrite (st_open _ _ Hst). destruct (_ <? _).
  { destruct (negb _); [do 2 eexists; eauto|]. unfold addDelayedMessage.
    destruct (addSegment_stuck s raw [BatchSegmentKindDelayedMessages] false Hst) as (e & s' & -> & Hs'). exists e, s'. auto. }
  destruct (Z.eq_dec (h_Timestamp (msg_Header (mm_Message msg))) (bs_timestamp s)) as [Hv|Hv];
    [|edestruct (maybeAddDiff_stuck s raw (bs_timestamp s)) as (e & s' & -> & Hs'); [exact Hst|exact Hv|exists e, s'; auto]].
  unfold maybeAddDiffSegment at 1. rewrite (proj2 (Z.eqb_eq _ _) Hv). cbn [negb].
  destruct (Z.eq_dec (h_BlockNumber (msg_Header (mm_Message msg))) (bs_blockNum s)) as [Hv'|Hv'];
    [|edestruct (maybeAddDiff_stuck s raw (bs_blockNum s)) as (e & s' & -> & Hs'); [exact Hst|exact Hv'|exists e, s'; auto]].
  unfold maybeAddDiffSegment. rewrite (proj2 (Z.eqb_eq _ _) Hv'). cbn [negb]. now apply addSegment_stuck.
Qed.

Lemma CloseAndGetBytes_stuck s raw : stuck s raw -> fails_stuck raw (CloseAndGetBytes s).
Proof.
  intros Hst. unfold CloseAndGetBytes. rewrite (st_open _ _ Hst).
  destruct (close_stuck s raw Hst) as (e & s' & -> & Hs'). exists e, s'. auto.
Qed.

Lemma stuck_fails raw : forall attempts s, stuck s raw -> attempts_fail attempts s.
Proof.
  induction attempts as [|a attempts IH]; intros s Hst; [exact I|]. cbn [attempts_fail]. unfold attempt_fails.
  destruct a as [msg|];
    [destruct (AddMessage_stuck s raw msg Hst) as (e & s' & -> & Hs')|destruct (CloseAndGetBytes_stuck s raw Hst) as (e & s' & -> & Hs')];
    (split; [reflexivity|]; split; [exact (st_open _ _ Hs')|]; split; [now rewrite (st_raw _ _ Hs'), (st_raw _ _ Hst)|now apply IH]).
Qed.

(** ** Runs *)

(** The loop of [MaybePostSequencerBatch] that adds messages until one does not fit. *)
Fixpoint addMessages (s : batchSegments) (msgs : list MessageWithMetadata) : outcome bool * batchSegments :=
  match msgs with
  | [] => (Ok true, s)
  | msg :: msgs =>
      let^ (success, s) := AddMessage s msg in
      if negb success then (Ok false, s) else addMessages s msgs
  end.

(** Messages that follow one another, from [d] to [d'] delayed messages read. *)
Fixpoint follow (d : Z) (msgs : list MessageWithMetadata) (d' : Z) : Prop :=
  match msgs with
  | [] => d = d'
  | msg :: msgs => next_message d msg /\ follow (mm_DelayedMessagesRead msg) msgs d'
  end.

Lemma addMessages_open : forall msgs s acc body d' s', open_batch s acc body -> follow (bs_delayedMsg s) msgs d' ->
  addMessages s msgs = (Ok true, s') ->
  bs_delayedMsg s' = d' /\ (msgs <> [] -> bs_trailingHeaders s' = 0%nat) /\ exists body', open_batch s' (acc ++ msgs) body'.
Proof.
  induction msgs as [|msg msgs IH]; intros s acc body d' s' Hob Hf Hadd; cbn [addMessages follow] in *.
  - injection Hadd as <-. rewrite app_nil_r. split; [auto|]. split; [congruence|eauto].
  - destruct Hf as [Hn Hf]. pose proof (AddMessage_spec s acc body msg Hob Hn) as Ha.
    destruct (AddMessage s msg) as [[[]|e|p] s1]; cbn [negb] in *; try discriminate.
    destruct Ha as (Hd & Ht & body' & Hob'). rewrite <- Hd in Hf.
    destruct (IH s1 _ _ _ _ Hob' Hf Hadd) as (Hd' & Ht' & b & Hb). split; [exact Hd'|]. rewrite <- app_assoc in Hb.
    split; [|eauto]. intros _. destruct msgs; [now injection Hadd as <-|now apply Ht'].
Qed.

Lemma newBatchSegments_open config backlog use4844 s : newBatchSegments first config backlog use4844 = Ok s ->
  bs_delayedMsg s = first /\ open_batch s [] [].
Proof.
  unfold newBatchSegments. destruct (if use4844 then _ else _) as [maxSize|e|p]; [|discriminate..]. cbn [obind].
  intros [= <-]. split; [reflexivity|]. constructor; [constructor|..]; try reflexivity; [exists []; apply wrote_new|exists []; auto|].
  unfold MaxDecompressedLen. cbn. lia.
Qed.

Definition batch_header (minTs maxTs minBlock maxBlock after : Z) : list Z :=
  concat (map (be_bytes 8) [minTs; maxTs; minBlock; maxBlock; after]).

Lemma take_drop_middle {A} n (l1 l2 l3 : list A) : length l1 = n -> length l2 = 8%nat -> take 8 (drop n (l1 ++ l2 ++ l3)) = l2.
Proof. intros H1 H2. rewrite drop_app_length' by auto. now rewrite take_app_length' by auto. Qed.

Lemma parse_posted num h providers mode a b c d e buf :
  in_u 64 a -> in_u 64 b -> in_u 64 c -> in_u 64 d -> in_u 64 e -> findProvider providers BrotliMessageHeaderByte = None ->
  parseSequencerMessage num h (batch_header a b c d e ++ BrotliMessageHeaderByte :: buf) providers mode =
    Ok (parsePayload (mkSequencerMessage a b c d e []) (BrotliMessageHeaderByte :: buf)).
Proof.
  intros Ha Hb Hc Hd He Hp. unfold parseSequencerMessage. set (data := _ ++ _).
  assert (data = be_bytes 8 a ++ be_bytes 8 b ++ be_bytes 8 c ++ be_bytes 8 d ++ be_bytes 8 e ++ BrotliMessageHeaderByte :: buf) as Hdata.
  { unfold data, batch_header. cbn [map concat]. now rewrite app_nil_r, <- !app_assoc. }
  assert (forall n l1 v l3, data = l1 ++ be_bytes 8 v ++ l3 -> length l1 = n -> in_u 64 v -> be (take 8 (drop n data)) = v) as Hu.
  { intros n l1 v l3 -> Hl Hv. rewrite take_drop_middle by (auto using length_be_bytes). rewrite be_be_bytes. apply Z.mod_small, Hv. }
  assert (drop 40 data = BrotliMessageHeaderByte :: buf) as Hpl.
  { unfold data. apply drop_app_length'. reflexivity. }
  assert ((length data <? 40)%nat = false) as ->.
  { apply Nat.ltb_ge. rewrite <- (take_drop 40 data), Hpl, length_app. unfold data. rewrite take_app_length' by reflexivity. cbn. lia. }
  rewrite Hpl, Hp. change (IsL1AuthenticatedMessageHeaderByte BrotliMessageHeaderByte) with false.
  change (IsDASMessageHeaderByte BrotliMessageHeaderByte) with false.
  change (IsBlobHashesHeaderByte BrotliMessageHeaderByte) with false. cbn [andb negb]. do 3 f_equal.
  - apply (Hu 0%nat [] a _ Hdata); auto.
  - apply (Hu 8%nat (be_bytes 8 a) b _ Hdata); auto using length_be_bytes.
  - apply (Hu 16%nat (be_bytes 8 a ++ be_bytes 8 b) c (be_bytes 8 d ++ be_bytes 8 e ++ BrotliMessageHeaderByte :: buf)); auto.
  - apply (Hu 24%nat (be_bytes 8 a ++ be_bytes 8 b ++ be_bytes 8 c) d (be_bytes 8 e ++ BrotliMessageHeaderByte :: buf)); auto.
  - apply (Hu 32%nat (be_bytes 8 a ++ be_bytes 8 b ++ be_bytes 8 c ++ be_bytes 8 d) e (BrotliMessageHeaderByte :: buf)); auto.
Qed.

(** What is read from the data of a closed batch. *)
Lemma closed_read s msgs : closed_batch s msgs -> msgs <> [] ->
  exists buf s', CloseAndGetBytes s = (Ok (Some (BrotliMessageHeaderByte :: buf)), s') /\ bs_delayedMsg s' = bs_delayedMsg s /\
    forall m, parsePayload m (BrotliMessageHeaderByte :: buf) = set_segments m (bs_rawSegments s).
Proof.
  intros [Hdone Hw Hs Hc Hm _] Hne. unfold CloseAndGetBytes. rewrite Hdone.
  destruct (bs_rawSegments s) as [|seg raw] eqn:Hraw; [destruct msgs; [congruence|destruct Hm]|]. rewrite <- Hraw in *.
  destruct (Close_ok (bs_compressedWriter s) _ Hw) as (w & -> & Hd). do 2 eexists. split; [reflexivity|]. split; [reflexivity|].
  intros m. unfold parsePayload. change (IsZeroheavyEncodedHeaderByte BrotliMessageHeaderByte) with false.
  change (IsBrotliMessageHeaderByte BrotliMessageHeaderByte) with true. cbv iota. rewrite (Hd _ Hs).
  f_equal. apply (readSegments_encoded (bs_rawSegments s) _ _ []); [|cbn; lia|apply streams_new, Hs].
  apply Nat2Z.inj_lt. rewrite Nat2Z.inj_succ, Z2Nat.id by (unfold MaxSegmentsPerSequencerMessage; lia). lia.
Qed.

(** The bytes of a batch, behind any header with [d'] delayed messages, are read
    as [msgs], if their times and blocks lie within the bounds of the header. *)
Definition reads_as (msgs : list MessageWithMetadata) (d' : Z) (bytes : list Z) : Prop :=
  forall num h providers mode minTs maxTs minBlock maxBlock,
    findProvider providers BrotliMessageHeaderByte = None ->
    in_u 64 minTs -> in_u 64 maxTs -> in_u 64 minBlock -> in_u 64 maxBlock -> in_u 64 d' ->
    let m := mkSequencerMessage minTs maxTs minBlock maxBlock d' in
    Forall (within_bounds (m [])) msgs ->
    exists segments,
      parseSequencerMessage num h (batch_header minTs maxTs minBlock maxBlock d' ++ bytes) providers mode = Ok (m segments) /\
      batch_messages (m segments) delayed first = msgs.

Lemma closed_reads s msgs : closed_batch s msgs -> msgs <> [] ->
  exists bytes s', CloseAndGetBytes s = (Ok (Some bytes), s') /\ bs_delayedMsg s' = bs_delayedMsg s /\
    reads_as msgs (bs_delayedMsg s) bytes.
Proof.
  intros Hc Hne. destruct (closed_read s msgs Hc Hne) as (buf & s' & Hcl & Hd & Hp).
  exists (BrotliMessageHeaderByte :: buf), s'. split; [exact Hcl|]. split; [exact Hd|].
  intros num h providers mode minTs maxTs minBlock maxBlock Hprov B1 B2 B3 B4 B5 m Hb.
  exists (bs_rawSegments s). split; [now rewrite parse_posted, Hp|]. pose proof (cb_msgs _ _ Hc) as Hm.
  pose proof (deliver_all_match (m (bs_rawSegments s)) _ _ _ Hm Hb) as Hda.
  unfold batch_messages. cbv zeta. cbn [m sm_segments sm_afterDelayedMessages].
  destruct (submessages (bs_rawSegments s) 0 0) as [|sub subs]; [destruct msgs; [congruence|destruct Hm]|].
  cbn [length Nat.eqb]. now rewrite andb_false_r.
Qed.

(** Closing an open batch leaves a closed one, unless it has too many segments. *)
Lemma open_closes s msgs body : open_batch s msgs body ->
  (exists s', CloseAndGetBytes s = CloseAndGetBytes s' /\ closed_batch s' msgs /\ bs_delayedMsg s' = bs_delayedMsg s) \/
  (exists e s', CloseAndGetBytes s = (Err e, s')) /\ MaxSegmentsPerSequencerMessage <= Z.of_nat (length body).
Proof.
  intros [Hh _ _]. pose proof (close_spec s msgs body Hh) as Hc. unfold CloseAndGetBytes at 1 3. rewrite (hb_open _ _ _ Hh).
  destruct (batchSegments_close s) as [[u|e|p] s']; [left|right; eauto|destruct Hc]. destruct Hc as [Hc _].
  exists s'. split; [unfold CloseAndGetBytes; now rewrite (cb_done _ _ Hc)|]. split; [exact Hc|].
  exact (subs_match_end _ _ _ _ _ _ (cb_msgs _ _ Hc) (hb_msgs _ _ _ Hh)).
Qed.

End Facts.

Section Claims.
Context {C : Codecs} {W : BatchCodecs} {WL : BatchCodecsLaws C W}.

(** C11: What the batch poster writes, the inbox reads. Of a batch to which the
    messages [msgs] were added, and which is closed either because it is posted
    or because another message did not fit, the parser and the specification of
    the multiplexer give back exactly [msgs]: no message is lost, added or
    reordered, and each keeps its time, its block and its number of delayed
    messages, if these lie within the bounds of the batch. *)
Theorem batchSegments_roundtrip (delayed : Z -> L1IncomingMessage) (first d' : Z) (config : BatchPosterConfig) (backlog : Z)
    (use4844 : bool) (msgs : list MessageWithMetadata) (s0 s s1 : batchSegments) :
  newBatchSegments first config backlog use4844 = Ok s0 -> follow delayed first msgs d' -> msgs <> [] ->
  addMessages s0 msgs = (Ok true, s) ->
  (s1 = s /\ Z.of_nat (length (bs_rawSegments s)) < MaxSegmentsPerSequencerMessage \/
   exists msg, next_message delayed d' msg /\ AddMessage s msg = (Ok false, s1)) ->
  exists bytes s2, CloseAndGetBytes s1 = (Ok (Some bytes), s2) /\ bs_delayedMsg s2 = d' /\
    forall num h providers mode minTs maxTs minBlock maxBlock,
      findProvider providers BrotliMessageHeaderByte = None ->
      in_u 64 minTs -> in_u 64 maxTs -> in_u 64 minBlock -> in_u 64 maxBlock -> in_u 64 d' ->
      let m := mkSequencerMessage minTs maxTs minBlock maxBlock d' in
      Forall (within_bounds (m [])) msgs ->
      exists segments,
        parseSequencerMessage num h (batch_header minTs maxTs minBlock maxBlock d' ++ bytes) providers mode = Ok (m segments) /\
        batch_messages (m segments) delayed first = msgs.
Proof.
  intros Hnew Hf Hne Hadd Hs1. destruct (newBatchSegments_open delayed first _ _ _ _ Hnew) as [Hd0 Hob0].
  rewrite <- Hd0 in Hf. destruct (addMessages_open delayed first msgs s0 [] [] d' s Hob0 Hf Hadd) as (Hd & _ & body & Hob).
  cbn [app] in Hob.
  assert (exists s2, CloseAndGetBytes s1 = CloseAndGetBytes s2 /\ closed_batch delayed first s2 msgs /\ bs_delayedMsg s2 = d')
    as (s2 & -> & Hc & Hd2).
  { destruct Hs1 as [[-> Hl]|(msg & Hn & Ha)].
    - destruct (open_closes delayed first s msgs body Hob) as [(s2 & H1 & H2 & H3)|[_ Hlb]]; [exists s2; split; [exact H1|split; [exact H2|congruence]]|].
      pose proof (hb_raw _ _ _ _ _ (ob_holds _ _ _ _ _ Hob)) as (hs & Hraw & _). rewrite Hraw, length_app in Hl. lia.
    - rewrite <- Hd in Hn. pose proof (AddMessage_spec delayed first s msgs body msg Hob Hn) as Hsp. rewrite Ha in Hsp.
      exists s1. split; [reflexivity|]. split; [exact Hsp|].
      rewrite <- Hd. exact (subs_match_end _ _ _ _ _ _ _ (cb_msgs _ _ _ _ Hsp) (hb_msgs _ _ _ _ _ (ob_holds _ _ _ _ _ Hob))). }
  destruct (closed_reads delayed first s2 msgs Hc Hne) as (bytes & s3 & Hcl & Hd3 & Hr). rewrite Hd2 in *.
  exists bytes, s3. split; [exact Hcl|]. split; [exact Hd3|exact Hr].
Qed.

(** C39: A batch that was filled to the maximum number of segments can neither be
    posted nor extended nor closed: of any sequence of attempts to add a message
    or to close the batch and get its bytes, each one fails with an error and
    leaves the batch open with the same segments. The test for overflow lets the
    number of segments reach the maximum, which the inbox would read in full, but
    the test at the end of the recompression refuses it. *)
Theorem full_batch_stuck (delayed : Z -> L1IncomingMessage) (first d' : Z) (config : BatchPosterConfig) (backlog : Z)
    (use4844 : bool) (msgs : list MessageWithMetadata) (s0 s : batchSegments) :
  newBatchSegments first config backlog use4844 = Ok s0 -> follow delayed first msgs d' -> msgs <> [] ->
  addMessages s0 msgs = (Ok true, s) ->
  Z.of_nat (length (bs_rawSegments s)) = MaxSegmentsPerSequencerMessage ->
  bs_isDone s = false /\ (forall attempts, attempts_fail attempts s) /\
  readSegments (S (Z.to_nat MaxSegmentsPerSequencerMessage)) (NewStream (enc_all (bs_rawSegments s)) MaxDecompressedLen) [] =
    bs_rawSegments s.
Proof.
  intros Hnew Hf Hne Hadd Hl. destruct (newBatchSegments_open delayed first _ _ _ _ Hnew) as [Hd0 Hob0].
  rewrite <- Hd0 in Hf. destruct (addMessages_open delayed first msgs s0 [] [] d' s Hob0 Hf Hadd) as (Hd & Ht & body & Hob).
  pose proof Hob as [[Ho Hw _ Hs _ _] _ _]. split; [exact Ho|]. split.
  - intros attempts. apply stuck_fails with (raw := bs_rawSegments s). constructor; auto; lia.
  - apply (readSegments_encoded (bs_rawSegments s) _ _ []); [|cbn; lia|apply streams_new, Hs].
    apply Nat2Z.inj_lt. rewrite Nat2Z.inj_succ, Z2Nat.id by (unfold MaxSegmentsPerSequencerMessage; lia). lia.
Qed.

End Claims.

(** ** Examples *)

#[local] Existing Instance example_codecs.

(** A writer that only stores what it is given, and is closed for good. *)
#[local] Instance example_writer : BatchCodecs := {|
  Writer := list Z * bool;
  NewWriterLevel := fun _ => ([], false);
  Writer_Write := fun w b =>
    let '(l, closed) := w in if closed then (0, Some EOF, w) else (Z.of_nat (length b), None, (l ++ b, false));
  Writer_Flush := fun w => (if snd w then Some EOF else None, w);
  Writer_Close := fun w => (if snd w then Some EOF else None, (fst w, true));
  Writer_Buffer := fst;
  DefaultCompression := 6;
  EncodeBytes := fun b => Ok (Z.of_nat (length b) :: b);
  EncodeUint64 := fun v => Ok [v]
|}.

#[local] Instance example_writer_laws : BatchCodecsLaws example_codecs example_writer.
Proof.
  refine {| wrote := fun (w : Writer (BatchCodecs := example_writer)) b => w = (b, false);
            streams := fun s b => (s : list Z) = b |}; try reflexivity.
  - intros w b b' ->. cbn. eauto.
  - intros w b ->. cbn. eauto.
  - intros w b ->. eexists. split; [reflexivity|]. intros max Hm. cbn [Decompress example_codecs Writer_Buffer example_writer fst].
    rewrite (proj2 (Z.leb_le _ _) Hm). reflexivity.
  - now intros s ->.
  - intros b. eexists. split; [reflexivity|]. intros s rest ->. cbn [app Stream_Decode example_codecs]. rewrite Nat2Z.id, length_app.
    rewrite (proj2 (Nat.ltb_ge (length b + length rest) (length b))) by lia. rewrite take_app_length, drop_app_length. eauto.
  - intros v _. eauto.
Qed.

Definition example_config : BatchPosterConfig :=
  mkBatchPosterConfig false 1000000 0 3600 false 10 11 0 EmptyString false 0 false false "ignore" 0 15000 0 l1BlockBoundIgnore.

(** A delayed message and one of the sequencer. *)
Definition example_posted : list MessageWithMetadata :=
  [mkMessageWithMetadata (example_delayed 0) 1; mkMessageWithMetadata (l2_message 15 2 [7]) 1].

Lemma batchSegments_roundtrip_witness :
  exists bytes segments,
    parseSequencerMessage 0 0 (batch_header 10 20 1 5 1 ++ bytes) [] 0 = Ok (mkSequencerMessage 10 20 1 5 1 segments) /\
    batch_messages (mkSequencerMessage 10 20 1 5 1 segments) example_delayed 0 = example_posted.
Proof.
  destruct (newBatchSegments 0 example_config 0 false) as [s0| |] eqn:Hs0; [|discriminate..].
  destruct (addMessages s0 example_posted) as [o s] eqn:Hadd.
  assert (o = Ok true /\ Z.of_nat (length (bs_rawSegments s)) = 4) as [-> Hl].
  { injection Hs0 as <-. vm_compute in Hadd. injection Hadd as <- <-. auto. }
  destruct (batchSegments_roundtrip example_delayed 0 1 example_config 0 false example_posted s0 s s Hs0)
    as (bytes & s2 & _ & _ & H).
  - unfold example_posted, follow, next_message, in_u. cbn. split; [|split; [|reflexivity]].
    + split; [lia|]. left. auto.
    + split; [lia|]. right. split; [reflexivity|]. exists 15, 2, [7]. split; [reflexivity|lia].
  - discriminate.
  - exact Hadd.
  - left. split; [reflexivity|]. rewrite Hl. reflexivity.
  - exists bytes. apply (H 0 0 [] 0); try (reflexivity || (unfold in_u; lia)).
    constructor; [|constructor; [|constructor]]; unfold within_bounds; cbn; [discriminate|lia].
Defined.

(** Delayed messages one after the other, each a segment of two bytes. *)
Definition example_run (d k : Z) : list MessageWithMetadata :=
  map (fun n => mkMessageWithMetadata (example_delayed n) (n + 1)) (seqZ d k).

Lemma example_run_follows : forall k d, 0 <= d -> d + Z.of_nat k < 2 ^ 64 ->
  follow example_delayed d (example_run d (Z.of_nat k)) (d + Z.of_nat k).
Proof.
  unfold example_run. induction k as [|k IH]; intros d Hd Hk; [rewrite seqZ_nil by lia; cbn; lia|].
  rewrite seqZ_cons by lia. cbn [map follow mm_DelayedMessagesRead]. split.
  - split; cbn; [unfold in_u; lia|left; auto].
  - replace (Z.pred (Z.of_nat (S k))) with (Z.of_nat k) by lia. replace (d + Z.of_nat (S k)) with (Z.succ d + Z.of_nat k) by lia.
    apply (IH (Z.succ d)); lia.
Qed.

Lemma example_run_fits : forall k s, bs_isDone s = false -> snd (bs_compressedWriter s) = false -> 0 <= bs_delayedMsg s ->
  bs_delayedMsg s + Z.of_nat k < 2 ^ 64 -> bs_totalUncompressedSize s + 2 * Z.of_nat k <= MaxDecompressedLen ->
  Z.of_nat (length (bs_rawSegments s)) + Z.of_nat k <= MaxSegmentsPerSequencerMessage ->
  bs_lastCompressedSize s + bs_newUncompressedSize s + 2 * Z.of_nat k < bs_sizeLimit s ->
  exists s', addMessages s (example_run (bs_delayedMsg s) (Z.of_nat k)) = (Ok true, s') /\
    Z.of_nat (length (bs_rawSegments s')) = Z.of_nat (length (bs_rawSegments s)) + Z.of_nat k.
Proof.
  unfold example_run. induction k as [|k IH]; intros s Ho Hw Hd Hk Ht Hl Hz.
  - rewrite seqZ_nil by lia. exists s. split; [reflexivity|lia].
  - rewrite seqZ_cons by lia. cbn [map addMessages]. unfold AddMessage. rewrite Ho. cbn [mm_DelayedMessagesRead].
    rewrite (proj2 (Z.ltb_lt _ _)) by lia. rewrite uwrap_id, Z.eqb_refl by (unfold in_u; lia). cbn [negb].
    unfold addDelayedMessage, addSegment. rewrite Ho. unfold addSegmentToCompressed. cbn [EncodeBytes example_writer Writer_Write].
    destruct (bs_compressedWriter s) as [l c]. cbn [snd] in Hw. subst c.
    unfold testForOverflow. cbn [set_writer bs_totalUncompressedSize bs_rawSegments bs_lastCompressedSize bs_newUncompressedSize
      bs_sizeLimit length Z.of_nat].
    rewrite (proj2 (Z.ltb_ge _ _)) by lia. rewrite (proj2 (Z.leb_gt _ _)) by lia. rewrite (proj2 (Z.ltb_lt _ _)) by lia.
    cbn [negb set_raw set_writer bs_delayedMsg]. rewrite uwrap_id by (unfold in_u; lia).
    match goal with |- context [addMessages ?s1 _] => destruct (IH s1) as (s' & Hadd & Hl') end;
      cbn [set_position set_raw set_writer bs_isDone bs_delayedMsg bs_totalUncompressedSize bs_rawSegments bs_lastCompressedSize
        bs_newUncompressedSize bs_sizeLimit bs_compressedWriter snd] in *; rewrite ?length_app in *; cbn [length] in *; try lia; auto.
    exists s'. split; [|lia]. replace (Z.pred (Z.of_nat (S k))) with (Z.of_nat k) by lia. exact Hadd.
Qed.

Lemma full_batch_stuck_witness :
  exists s, Z.of_nat (length (bs_rawSegments s)) = MaxSegmentsPerSequencerMessage /\
    bs_isDone s = false /\ forall attempts, attempts_fail attempts s.
Proof.
  destruct (newBatchSegments 0 example_config 0 false) as [s0| |] eqn:Hs0; [|discriminate..].
  assert (bs_isDone s0 = false /\ snd (bs_compressedWriter s0) = false /\ bs_delayedMsg s0 = 0 /\ bs_rawSegments s0 = [] /\ bs_totalUncompressedSize s0 = 0 /\
    bs_lastCompressedSize s0 = 0 /\ bs_newUncompressedSize s0 = 0 /\ bs_sizeLimit s0 = 999960)
    as (Ho & Hw0 & Hd0 & Hr0 & Ht0 & Hl0 & Hn0 & Hz0) by (injection Hs0 as <-; repeat split).
  destruct (example_run_fits (Z.to_nat 102400) s0) as (s & Hadd & Hl);
    rewrite ?Hd0, ?Hr0, ?Ht0, ?Hl0, ?Hn0, ?Hz0, ?Z2Nat.id; unfold MaxDecompressedLen, MaxSegmentsPerSequencerMessage;
    cbn [length]; try lia; try assumption.
  rewrite Hd0 in Hadd. rewrite Hr0 in Hl. rewrite Z2Nat.id in Hadd, Hl by lia.
  exists s. destruct (full_batch_stuck example_delayed 0 102400 example_config 0 false (example_run 0 102400) s0 s Hs0)
    as (H1 & H2 & _); [| |exact Hadd|exact Hl|].
  - pose proof (example_run_follows (Z.to_nat 102400) 0) as H. rewrite Z2Nat.id in H by lia. apply H; lia.
  - unfold example_run. rewrite seqZ_cons by lia. discriminate.
  - split; [exact Hl|]. split; [exact H1|exact H2].
Defined.
