(* ===== verification/BatchPosting.v ===== *)
(** * arbnode/batch_poster.go: posting batches

    [maybePostSequencerBatch] and the poll that calls it. A poll resumes or starts
    the batch that is being built at the position that the data poster has
    reached, adds the streamer's messages to it as long as they fit and lie within
    the bounds of the parent chain, and posts it when it is full or old enough, as
    calldata, as a certificate of the committee or as blobs. What the poster asks
    others during one poll - the data poster, the streamer, the header reader, the
    committee, the clock - is the record [Poll]; what it posts is a list. What is
    proved: whatever is posted holds exactly the messages between the position of
    the batch and the next one; a batch that is full while the poster waits is lost
    at the next poll. *)
From Stdlib Require Import ZArith Lia String List.
From stdpp Require Import base list numbers list_numbers.
From S2P Require Import Prelude Arbmath Host Storage StorageFacts MemEnv Readers L1Pricing IncomingMessage ArbosState Zeroheavy Bls DasTree Inbox DasReader Blobs InboxFacts BatchSegments.
Open Scope Z_scope.

(** ** Time *)

(** Instants and durations are nanoseconds; instants count from the zero value of
    [time.Time]. *)
Definition Second : Z := 10 ^ 9.
Definition ethPosBlockTime : Z := 12 * Second.
Definition unixToInternal : Z := 62135596800.

(** [time.Unix(sec, 0)] *)
Definition time_Unix (sec : Z) : Z := i64 (sec + unixToInternal) * Second.

(** [t.Unix()] *)
Definition Time_Unix (t : Z) : Z := i64 (t / Second - unixToInternal).

(** [t.Sub(u)], which saturates *)
Definition Time_Sub (t u : Z) : Z := Z.max (- 2 ^ 63) (Z.min (2 ^ 63 - 1) (t - u)).

(** ** Interfaces *)

Record batchPosterPosition := mkBatchPosterPosition {
  pos_MessageCount : Z; pos_DelayedMessageCount : Z; pos_NextSeqNum : Z
}.

(** What go-ethereum provides: addresses in hex, the ABI of the sequencer inbox
    (the methods by whether they take blobs), the rlp encoding of positions, the
    fee of blobs and their limits. *)
Class PosterLib := {
  IsHexAddress : string -> bool;
  HexToAddress : string -> Z;
  MethodID : bool -> option (list Z);
  PackBatch : Z -> list Z -> Z -> Z -> Z -> Z -> outcome (list Z);
  PackBlobBatch : Z -> Z -> Z -> Z -> Z -> outcome (list Z);
  EncodePosition : batchPosterPosition -> outcome (list Z);
  DecodePosition : list Z -> outcome batchPosterPosition;
  CalcExcessBlobGas : Z -> Z -> Z;
  CalcBlobFee : Z -> Z;
  BlobTxBlobGasPerBlob : Z;
  MaxBlobGasPerBlock : Z
}.

(** An encoded position is decoded again. *)
Class PosterLibLaws (X : PosterLib) := {
  DecodePosition_Encode : forall pos m, in_u 64 (pos_MessageCount pos) -> in_u 64 (pos_DelayedMessageCount pos) ->
    in_u 64 (pos_NextSeqNum pos) -> EncodePosition pos = Ok m -> DecodePosition m = Ok pos
}.

(** A header of the parent chain; [None] for fields that it does not have. The
    last two are what [DeserializeHeaderExtraInformation] finds in it. *)
Record ParentHeader := mkParentHeader {
  ph_Number : Z; ph_Time : Z; ph_BaseFee : Z; ph_ExcessBlobGas : option Z; ph_BlobGasUsed : option Z;
  ph_ArbOSFormatVersion : Z; ph_L1BlockNumber : Z
}.

Definition ParentHeaderToL1BlockNumber (header : ParentHeader) : Z :=
  if 0 <? ph_ArbOSFormatVersion header then ph_L1BlockNumber header else u64 (ph_Number header).

(** [errors.Is(err, ErrBlockNumberNotSupported)] *)
Fixpoint Is_BlockNumberNotSupported (err : error) : bool :=
  match err with
  | ErrNew "block number not supported" => true
  | ErrWrap _ err => Is_BlockNumberNotSupported err
  | _ => false
  end.

Definition BatchToDasFailed : error := ErrNew "unable to batch to DAS".

Fixpoint Is_BatchToDasFailed (err : error) : bool :=
  match err with
  | ErrNew "unable to batch to DAS" => true
  | ErrWrap _ err => Is_BatchToDasFailed err
  | _ => false
  end.

Record estimateGasParams := mkEstimateGasParams {
  eg_From : Z; eg_To : Z; eg_Data : list Z; eg_MaxFeePerGas : Z; eg_AccessList : list Z; eg_BlobHashes : list Z
}.

(** The answers during one poll. Where the code asks twice, the answers are given
    by the number of the call. *)
Record Poll {E : Env} {P : BLS12381} := mkPoll {
  p_config : BatchPosterConfig;
  p_now : nat -> Z;
  p_CouldAcquireLock : outcome bool;
  p_AttemptLock : bool;
  p_GetNextNonceAndMeta : nat -> outcome (Z * list Z);
  p_GetBatchCount : outcome Z;
  p_LastHeader : nat -> outcome ParentHeader;
  p_LatestSafeBlockHeader : outcome ParentHeader;
  p_LatestFinalizedBlockHeader : outcome ParentHeader;
  p_MaxTimeVariation : option Z -> outcome (Z * Z * (Z * Z));
  p_ArbOSVersionForMessageNumber : Z -> outcome Z;
  p_GetMessageCount : outcome Z;
  p_GetMessage : Z -> outcome MessageWithMetadata;
  p_daWriter : option (list Z -> Z -> list Z -> outcome DataAvailabilityCertificate);
  p_accessList : Z -> Z -> list Z;
  p_Sender : Z;
  p_seqInboxAddr : Z;
  p_MaxMempoolTransactions : Z;
  p_NonceAt : outcome Z;
  p_HeaderByNumber : outcome ParentHeader;
  p_eth_estimateGas : estimateGasParams -> outcome Z;
  p_PostTransaction : outcome unit;
  p_WaitForTxApproval : outcome unit
}.

(** A transaction that was handed to the data poster. *)
Record postedTx := mkPostedTx {
  px_dataCreatedAt : Z; px_nonce : Z; px_meta : list Z; px_calldata : list Z; px_gasLimit : Z;
  px_kzgBlobs : list (list Z); px_accessList : list Z
}.

(** ** Configuration *)

Definition BatchPosterConfig_Validate {X : PosterLib} (c : BatchPosterConfig) : outcome BatchPosterConfig :=
  if negb (String.length (bpc_GasRefunderAddress c) =? 0)%nat && negb (IsHexAddress (bpc_GasRefunderAddress c))
  then Err (ErrNew "invalid gas refunder address")
  else
    let gasRefunder := HexToAddress (bpc_GasRefunderAddress c) in
    if bpc_MaxSize c <=? 40 then Err (ErrNew "MaxBatchSize too small")
    else
      let? bound :=
        if (bpc_L1BlockBound c =? EmptyString)%string then Ok l1BlockBoundDefault
        else if (bpc_L1BlockBound c =? "safe")%string then Ok l1BlockBoundSafe
        else if (bpc_L1BlockBound c =? "finalized")%string then Ok l1BlockBoundFinalized
        else if (bpc_L1BlockBound c =? "latest")%string then Ok l1BlockBoundLatest
        else if (bpc_L1BlockBound c =? "ignore")%string then Ok l1BlockBoundIgnore
        else Err (ErrNew "invalid L1 block bound tag") in
      Ok (mkBatchPosterConfig (bpc_DisableDasFallbackStoreDataOnChain c) (bpc_MaxSize c) (bpc_Max4844BatchSize c) (bpc_MaxDelay c)
            (bpc_WaitForMaxDelay c) (bpc_PollInterval c) (bpc_CompressionLevel c) (bpc_DASRetentionPeriod c)
            (bpc_GasRefunderAddress c) (bpc_UseNoOpStorage c) (bpc_ExtraBatchGas c) (bpc_Post4844Blobs c) (bpc_IgnoreBlobPrice c)
            (bpc_L1BlockBound c) (bpc_L1BlockBoundBypass c) (bpc_GasEstimateBaseFeeMultipleBips c) gasRefunder bound).

Section Posting.
Context {E : Env} {C : Codecs} {P : BLS12381} {B : BlobCodecs} {W : BatchCodecs} {X : PosterLib}.

Record buildingBatch := mkBuildingBatch {
  bb_segments : batchSegments;
  bb_startMsgCount : Z;
  bb_msgCount : Z;
  bb_haveUsefulMessage : bool;
  bb_use4844 : bool
}.

(** The fields that change, and all that was posted. *)
Record BatchPoster := mkBatchPoster {
  bp_building : option buildingBatch;
  bp_messagesPerBatch : MovingAverage;
  bp_non4844BatchCount : Z;
  bp_backlog : Z;
  bp_lastHitL1Bounds : Z;
  bp_batchReverted : bool;
  bp_posted : list postedTx
}.

Definition set_building (b : BatchPoster) (building : option buildingBatch) : BatchPoster :=
  mkBatchPoster building (bp_messagesPerBatch b) (bp_non4844BatchCount b) (bp_backlog b) (bp_lastHitL1Bounds b)
    (bp_batchReverted b) (bp_posted b).

Definition set_lastHit (b : BatchPoster) (t : Z) : BatchPoster :=
  mkBatchPoster (bp_building b) (bp_messagesPerBatch b) (bp_non4844BatchCount b) (bp_backlog b) t (bp_batchReverted b) (bp_posted b).

Definition set_bbSegments (bb : buildingBatch) (s : batchSegments) : buildingBatch :=
  mkBuildingBatch s (bb_startMsgCount bb) (bb_msgCount bb) (bb_haveUsefulMessage bb) (bb_use4844 bb).

(** ** Starting a batch *)

Definition usableBytesInBlob : Z := 32 * BlobTxFieldElementsPerBlob * 31 / 32.

Definition chooseBlobs (p : Poll) (b : BatchPoster) (latestHeader : ParentHeader) (messageCount : Z) : outcome bool :=
  let config := p_config p in
  match bpc_Post4844Blobs config, p_daWriter p, ph_ExcessBlobGas latestHeader, ph_BlobGasUsed latestHeader with
  | true, None, Some excess, Some used =>
      let? arbOSVersion := p_ArbOSVersionForMessageNumber p (SaturatingUSub 64 messageCount 1) in
      if 20 <=? arbOSVersion then
        if bpc_IgnoreBlobPrice config then Ok true
        else if (bp_backlog b =? 0) || (bp_non4844BatchCount b =? 0) || (16 <? bp_non4844BatchCount b) then
          let blobFeePerByte := CalcBlobFee (CalcExcessBlobGas excess used) * BlobTxBlobGasPerBlob / usableBytesInBlob in
          let calldataFeePerByte := BigMulByUint (ph_BaseFee latestHeader) 16 in
          Ok (BigLessThan blobFeePerByte calldataFeePerByte)
        else Ok false
      else Ok false
  | _, _, _, _ => Ok false
  end.

(** The batch that is being built at the position, or a new one. *)
Definition resumeBuilding (p : Poll) (b : BatchPoster) (batchPosition : batchPosterPosition) : outcome buildingBatch :=
  let fresh :=
    let? latestHeader := p_LastHeader p 0 in
    let? use4844 := chooseBlobs p b latestHeader (pos_MessageCount batchPosition) in
    let? segments := newBatchSegments (pos_DelayedMessageCount batchPosition) (p_config p) (bp_backlog b) use4844 in
    Ok (mkBuildingBatch segments (pos_MessageCount batchPosition) (pos_MessageCount batchPosition) false use4844) in
  match bp_building b with
  | None => fresh
  | Some building =>
      if negb (bb_startMsgCount building =? pos_MessageCount batchPosition) then fresh else Ok building
  end.

(** ** The bounds of the parent chain *)

Record l1Bounds := mkL1Bounds {
  l1b_maxBlockNumber : Z; l1b_maxTimestamp : Z; l1b_minBlockNumber : Z; l1b_minTimestamp : Z
}.

Definition l1BoundHeader (p : Poll) : outcome ParentHeader :=
  match bpc_l1BlockBound (p_config p) with
  | l1BlockBoundLatest => p_LastHeader p 1
  | l1BlockBoundSafe => p_LatestSafeBlockHeader p
  | l1BlockBoundDefault =>
      match p_LatestSafeBlockHeader p with
      | Err e => if Is_BlockNumberNotSupported e then p_LastHeader p 1 else Err e
      | r => r
      end
  | _ => p_LatestFinalizedBlockHeader p
  end.

Definition getL1Bounds (p : Poll) : outcome l1Bounds :=
  let config := p_config p in
  match bpc_l1BlockBound config with
  | l1BlockBoundIgnore => Ok (mkL1Bounds MaxUint64 MaxUint64 0 0)
  | _ =>
      let? l1Bound :=
        match l1BoundHeader p with Err e => Err (ErrWrap "error getting L1 bound block" e) | r => r end in
      let? (delay, future) :=
        match p_MaxTimeVariation p (Some (ph_Number l1Bound)) with
        | Err _ =>
            match p_MaxTimeVariation p None with Err e => Err (ErrWrap "error getting max time variation" e) | r => r end
        | r => r
        end in
      let '(delayBlocks, futureBlocks) := delay in
      let '(delaySeconds, futureSeconds) := future in
      let l1BoundBlockNumber := ParentHeaderToL1BlockNumber l1Bound in
      let maxBlockNumber := SaturatingUAdd 64 l1BoundBlockNumber (BigToUintSaturating futureBlocks) in
      let maxTimestamp := SaturatingUAdd 64 (ph_Time l1Bound) (BigToUintSaturating futureSeconds) in
      if 0 <? bpc_L1BlockBoundBypass config then
        let? latestHeader := p_LastHeader p 2 in
        let latestBlockNumber := ParentHeaderToL1BlockNumber latestHeader in
        let blockNumberWithPadding :=
          SaturatingUAdd 64 latestBlockNumber (u64 (Z.quot (bpc_L1BlockBoundBypass config) ethPosBlockTime)) in
        let timestampWithPadding :=
          SaturatingUAdd 64 (ph_Time latestHeader) (u64 (Z.quot (bpc_L1BlockBoundBypass config) Second)) in
        Ok (mkL1Bounds maxBlockNumber maxTimestamp
              (SaturatingUSub 64 blockNumberWithPadding (BigToUintSaturating delayBlocks))
              (SaturatingUSub 64 timestampWithPadding (BigToUintSaturating delaySeconds)))
      else Ok (mkL1Bounds maxBlockNumber maxTimestamp 0 0)
  end.

(** ** Adding messages *)

(** The loop; there are as many steps as messages. The state is the batch, which
    is gone after an error, the value of [forcePostBatch] and [lastHitL1Bounds]. *)
Fixpoint addMessagesLoop (fuel : nat) (p : Poll) (bounds : l1Bounds) (msgCount : Z) (bb : buildingBatch) (forcePostBatch : bool)
    (b : BatchPoster) : outcome (buildingBatch * bool) * BatchPoster :=
  match fuel with
  | O => (Ok (bb, forcePostBatch), b)
  | S fuel =>
      if msgCount <=? bb_msgCount bb then (Ok (bb, forcePostBatch), b)
      else
        match p_GetMessage p (bb_msgCount bb) with
        | Panic s => (Panic s, b)
        | Err _ => (Ok (bb, forcePostBatch), b)
        | Ok msg =>
            let header := msg_Header (mm_Message msg) in
            let bounds :=
              if (h_BlockNumber header <? l1b_minBlockNumber bounds) || (h_Timestamp header <? l1b_minTimestamp bounds)
              then mkL1Bounds MaxUint64 MaxUint64 (l1b_minBlockNumber bounds) (l1b_minTimestamp bounds)
              else bounds in
            if (l1b_maxBlockNumber bounds <? h_BlockNumber header) || (l1b_maxTimestamp bounds <? h_Timestamp header)
            then (Ok (bb, forcePostBatch), set_lastHit b (p_now p 1))
            else
              match AddMessage (bb_segments bb) msg with
              | (Panic s, segments) => (Panic s, set_building b (Some (set_bbSegments bb segments)))
              | (Err e, segments) => (Err (ErrWrap "error adding message to batch" e), set_building b None)
              | (Ok false, segments) =>
                  (Ok (mkBuildingBatch segments (bb_startMsgCount bb) (bb_msgCount bb) true (bb_use4844 bb),
                       if negb (bpc_WaitForMaxDelay (p_config p)) then true else forcePostBatch), b)
              | (Ok true, segments) =>
                  let haveUsefulMessage :=
                    if negb (h_Kind header =? L1MessageType_BatchPostingReport) then true else bb_haveUsefulMessage bb in
                  addMessagesLoop fuel p bounds msgCount
                    (mkBuildingBatch segments (bb_startMsgCount bb) (bb_msgCount bb +u64 1) haveUsefulMessage (bb_use4844 bb))
                    forcePostBatch b
              end
        end
  end.

(** ** Posting *)

Definition encodeAddBatch (p : Poll) (seqNum prevMsgNum newMsgNum : Z) (l2MessageData : list Z) (delayedMsg : Z) (use4844 : bool)
    : outcome (list Z * list (list Z)) :=
  match MethodID use4844 with
  | None => Err (ErrNew "failed to find add batch method")
  | Some id =>
      let gasRefunder := bpc_gasRefunder (p_config p) in
      let? (calldata, kzgBlobs) :=
        if use4844 then
          let? kzgBlobs := match EncodeBlobs l2MessageData with Err e => Err (ErrWrap "failed to encode blobs" e) | r => r end in
          let? calldata := PackBlobBatch seqNum delayedMsg gasRefunder prevMsgNum newMsgNum in
          Ok (calldata, kzgBlobs)
        else
          let? calldata := PackBatch seqNum l2MessageData delayedMsg gasRefunder prevMsgNum newMsgNum in
          Ok (calldata, []) in
      Ok (id ++ calldata, kzgBlobs)
  end.

Definition estimateGas (p : Poll) (sequencerMessage : list Z) (delayedMessages : Z) (realData : list Z) (realBlobs : list (list Z))
    (realNonce : Z) (realAccessList : list Z) : outcome Z :=
  let config := p_config p in
  let? useNormalEstimation :=
    if p_MaxMempoolTransactions p =? 1 then Ok true
    else let? latestNonce := p_NonceAt p in Ok (latestNonce =? realNonce) in
  let? latestHeader := p_HeaderByNumber p in
  let? maxFeePerGas := BigMulByBips (ph_BaseFee latestHeader) (bpc_GasEstimateBaseFeeMultipleBips config) in
  if useNormalEstimation then
    let? (commitments, realBlobHashes) :=
      match ComputeCommitmentsAndHashes realBlobs with
      | Err e => Err (ErrWrap "failed to compute real blob commitments" e)
      | r => r
      end in
    match p_eth_estimateGas p (mkEstimateGasParams (p_Sender p) (p_seqInboxAddr p) realData maxFeePerGas realAccessList realBlobHashes) with
    | Err e => Err (ErrWrap "normal gas estimation failed" e)
    | Panic s => Panic s
    | Ok gas => Ok (gas +u64 bpc_ExtraBatchGas config)
    end
  else
    let? (data, kzgBlobs) :=
      encodeAddBatch p (2 ^ 256 - 1) 0 1 sequencerMessage delayedMessages (negb (length realBlobs =? 0)%nat) in
    let? (commitments, blobHashes) :=
      match ComputeCommitmentsAndHashes kzgBlobs with
      | Err e => Err (ErrWrap "failed to compute blob commitments" e)
      | r => r
      end in
    match p_eth_estimateGas p (mkEstimateGasParams (p_Sender p) (p_seqInboxAddr p) data maxFeePerGas realAccessList blobHashes) with
    | Err e => Err (ErrWrap "error estimating gas for batch" e)
    | Panic s => Panic s
    | Ok gas => Ok (gas +u64 bpc_ExtraBatchGas config)
    end.

(** What the committee makes of the data, if there is one. *)
Definition storeData (p : Poll) (nonce : Z) (batchPositionBytes sequencerMsg : list Z) : outcome (list Z) :=
  match p_daWriter p with
  | None => Ok sequencerMsg
  | Some Store =>
      if negb (p_AttemptLock p)
      then Err (ErrNew "failed to acquire lock; either another batch poster posted a batch or this node fell behind")
      else
        let? (gotNonce, gotMeta) := p_GetNextNonceAndMeta p 1 in
        if negb (nonce =? gotNonce) || negb (bool_decide (batchPositionBytes = gotMeta))
        then Err (ErrWrap "nonce changed while creating batch" (ErrNew "storage race error"))
        else
          match Store sequencerMsg (u64 (Time_Unix (p_now p 2 + bpc_DASRetentionPeriod (p_config p)))) [] with
          | Err e =>
              if Is_BatchToDasFailed e then
                if bpc_DisableDasFallbackStoreDataOnChain (p_config p)
                then Err (ErrNew "unable to batch to DAS and fallback storing data on chain is disabled")
                else Ok sequencerMsg
              else Err e
          | Panic s => Panic s
          | Ok cert => Ok (das_Serialize cert)
          end
  end.

(** The counters after a batch was posted. *)
Definition afterPosting (p : Poll) (b : BatchPoster) (bb : buildingBatch) (batchPosition : batchPosterPosition) (msgCount : Z)
    (tx : postedTx) : outcome BatchPoster :=
  let recentlyHitL1Bounds := Time_Sub (p_now p 3) (bp_lastHitL1Bounds b) <? i64 (bpc_PollInterval (p_config p) * 3) in
  let postedMessages := bb_msgCount bb -u64 pos_MessageCount batchPosition in
  let? average := MovingAverage_Update 64 (bp_messagesPerBatch b) postedMessages in
  let non4844BatchCount := if bb_use4844 bb then 0 else bp_non4844BatchCount b + 1 in
  let unpostedMessages := msgCount -u64 bb_msgCount bb in
  let messagesPerBatch := MovingAverage_Average average in
  let messagesPerBatch := if messagesPerBatch =? 0 then 1 else messagesPerBatch in
  let? backlog := go_div unpostedMessages messagesPerBatch in
  let backlog := if recentlyHitL1Bounds then 0 else backlog in
  Ok (mkBatchPoster None average non4844BatchCount backlog (bp_lastHitL1Bounds b) (bp_batchReverted b) (bp_posted b ++ [tx])).

(** The part behind the loop over the messages, which closes the batch. *)
Definition closeAndPost (p : Poll) (b : BatchPoster) (nonce : Z) (batchPositionBytes : list Z) (batchPosition : batchPosterPosition)
    (firstMsgTime msgCount : Z) (lastPotentialMsg : MessageWithMetadata) (bb : buildingBatch) : outcome bool * BatchPoster :=
  match CloseAndGetBytes (bb_segments bb) with
  | (Err e, segments) => (Err e, set_building b (Some (set_bbSegments bb segments)))
  | (Panic s, segments) => (Panic s, set_building b (Some (set_bbSegments bb segments)))
  | (Ok None, segments) => (Ok false, set_building b None)
  | (Ok (Some sequencerMsg), segments) =>
      let bb := set_bbSegments bb segments in
      let b := set_building b (Some bb) in
      let delayedMsg := bs_delayedMsg segments in
      let built :=
        let? sequencerMsg := storeData p nonce batchPositionBytes sequencerMsg in
        let? (data, kzgBlobs) := encodeAddBatch p (pos_NextSeqNum batchPosition) (pos_MessageCount batchPosition) (bb_msgCount bb)
                                   sequencerMsg delayedMsg (bb_use4844 bb) in
        if MaxBlobGasPerBlock <? Z.of_nat (length kzgBlobs) * BlobTxBlobGasPerBlob
        then Err (ErrNew "produced blobs for batch but a block can only hold fewer")
        else
          let accessList := p_accessList p (i64 (pos_NextSeqNum batchPosition)) (i64 delayedMsg) in
          let? gasLimit := estimateGas p sequencerMsg (mm_DelayedMessagesRead lastPotentialMsg) data kzgBlobs nonce accessList in
          let? newMeta := EncodePosition (mkBatchPosterPosition (bb_msgCount bb) delayedMsg (pos_NextSeqNum batchPosition +u64 1)) in
          let? _ := p_PostTransaction p in
          afterPosting p b bb batchPosition msgCount (mkPostedTx firstMsgTime nonce newMeta data gasLimit kzgBlobs accessList) in
      match built with
      | Err e => (Err e, b)
      | Panic s => (Panic s, b)
      | Ok b =>
          if bpc_UseNoOpStorage (p_config p) then
            match p_WaitForTxApproval p with
            | Err e => (Err (ErrWrap "error waiting for tx receipt" e), b)
            | Panic s => (Panic s, b)
            | Ok _ => (Ok true, b)
            end
          else (Ok true, b)
      end
  end.

Definition maybePostSequencerBatch (p : Poll) (b : BatchPoster) : outcome bool * BatchPoster :=
  if bp_batchReverted b then (Err (ErrNew "batch was reverted, not posting any more batches"), b)
  else
    let^ (next, b) := (p_GetNextNonceAndMeta p 0, b) in
    let '(nonce, batchPositionBytes) := next in
    let^ (batchPosition, b) :=
      (match DecodePosition batchPositionBytes with Err e => Err (ErrWrap "decoding batch position" e) | r => r end, b) in
    let^ (dbBatchCount, b) := (p_GetBatchCount p, b) in
    if pos_NextSeqNum batchPosition <? dbBatchCount
    then (Err (ErrNew "attempting to post batch, but the local inbox tracker database already has batches"), b)
    else
      let^ (bb, b) := (resumeBuilding p b batchPosition, b) in
      let b := set_building b (Some bb) in
      let^ (msgCount, b) := (p_GetMessageCount p, b) in
      if msgCount <=? pos_MessageCount batchPosition then (Ok false, b)
      else
        let^ (firstMsg, b) := (p_GetMessage p (pos_MessageCount batchPosition), b) in
        let firstMsgTime := time_Unix (i64 (h_Timestamp (msg_Header (mm_Message firstMsg)))) in
        let^ (lastPotentialMsg, b) := (p_GetMessage p (msgCount -u64 1), b) in
        let forcePostBatch := bpc_MaxDelay (p_config p) <=? Time_Sub (p_now p 0) firstMsgTime in
        let^ (bounds, b) := (getL1Bounds p, b) in
        let^ (filled, b) := addMessagesLoop (Z.to_nat (msgCount - bb_msgCount bb)) p bounds msgCount bb forcePostBatch b in
        let '(bb, forcePostBatch) := filled in
        let b := set_building b (Some bb) in
        if negb forcePostBatch || negb (bb_haveUsefulMessage bb) then (Ok false, b)
        else closeAndPost p b nonce batchPositionBytes batchPosition firstMsgTime msgCount lastPotentialMsg bb.

(** One call of the function that [Start] runs again and again; whether it
    posted. The balances that it reports are not modelled. *)
Definition pollOnce (p : Poll) (b : BatchPoster) : outcome bool * BatchPoster :=
  let^ (couldLock, b) := (match p_CouldAcquireLock p with Err _ => Ok true | r => r end, b) in
  if negb couldLock then (Ok false, set_building b None)
  else
    match maybePostSequencerBatch p b with
    | (Err e, b) => (Err e, set_building b None)
    | r => r
    end.

(** The state after some polls; a panic ends the process. *)
Fixpoint pollAll (ps : list Poll) (b : BatchPoster) : BatchPoster :=
  match ps with
  | [] => b
  | p :: ps =>
      match pollOnce p b with
      | (Panic _, b) => b
      | (_, b) => pollAll ps b
      end
  end.

End Posting.

(** ** The messages of a batch *)

Section Facts.
Context {E : Env} {C : Codecs} {P : BLS12381} {B : BlobCodecs} {W : BatchCodecs} {WL : BatchCodecsLaws C W} {X : PosterLib}.

(** The streamer's messages and the delayed ones; each message either is the next
    delayed one or was built by the sequencer. *)
Variable stream : Z -> MessageWithMetadata.
Variable delayed : Z -> L1IncomingMessage.

Definition delayed_at (n : Z) : Z := if n =? 0 then 0 else mm_DelayedMessagesRead (stream (n - 1)).

Definition messages (from to : Z) : list MessageWithMetadata := map stream (seqZ from (to - from)).

Hypothesis stream_follows : forall n, 0 <= n -> next_message delayed (delayed_at n) (stream n).

Lemma messages_snoc from to : from <= to -> messages from (to + 1) = messages from to ++ [stream to].
Proof.
  intros H. unfold messages. replace (to + 1 - from) with ((to - from) + 1) by lia.
  rewrite seqZ_app by lia. rewrite map_app. repeat f_equal. replace (from + (to - from)) with to by lia. reflexivity.
Qed.

Lemma messages_nil from to : from <= to -> messages from to = [] -> from = to.
Proof.
  intros H Hn. apply (f_equal length) in Hn. unfold messages in Hn. rewrite length_map, length_seqZ in Hn. cbn in Hn. lia.
Qed.

Lemma delayed_at_S n : 0 <= n -> delayed_at (n + 1) = mm_DelayedMessagesRead (stream n).
Proof.
  intros H. unfold delayed_at. rewrite (proj2 (Z.eqb_neq _ _)) by lia. now replace (n + 1 - 1) with n by lia.
Qed.

Lemma delayed_at_u64 n : 0 <= n -> in_u 64 (delayed_at n).
Proof.
  intros H. unfold delayed_at. destruct (Z.eqb_spec n 0); [unfold in_u; lia|].
  destruct (stream_follows (n - 1)) as [Hu _]; [lia|exact Hu].
Qed.

(** What is being built holds the messages from its start. *)
Record builds (bb : buildingBatch) : Prop := {
  bd_range : 0 <= bb_startMsgCount bb <= bb_msgCount bb;
  bd_u64 : in_u 64 (bb_msgCount bb);
  bd_delayed : bs_delayedMsg (bb_segments bb) = delayed_at (bb_msgCount bb);
  bd_segments :
    let msgs := messages (bb_startMsgCount bb) (bb_msgCount bb) in
    let first := delayed_at (bb_startMsgCount bb) in
    (exists body, open_batch delayed first (bb_segments bb) msgs body) \/ closed_batch delayed first (bb_segments bb) msgs
}.

Definition building_ok (b : BatchPoster) : Prop :=
  match bp_building b with None => True | Some bb => builds bb end.

Lemma AddMessage_builds bb : builds bb -> bb_msgCount bb + 1 < 2 ^ 64 ->
  match AddMessage (bb_segments bb) (stream (bb_msgCount bb)) with
  | (Ok true, s) => forall useful,
      builds (mkBuildingBatch s (bb_startMsgCount bb) (bb_msgCount bb +u64 1) useful (bb_use4844 bb))
  | (Ok false, s) => forall useful, builds (mkBuildingBatch s (bb_startMsgCount bb) (bb_msgCount bb) useful (bb_use4844 bb))
  | (Err _, _) => True
  | (Panic _, _) => False
  end.
Proof.
  intros [Hr Hu Hd Hs] Hlt. cbv zeta in Hs. destruct Hs as [[body Hob]|Hcl].
  - assert (next_message delayed (bs_delayedMsg (bb_segments bb)) (stream (bb_msgCount bb))) as Hn
      by (rewrite Hd; apply stream_follows; lia).
    pose proof (AddMessage_spec delayed _ _ _ _ _ Hob Hn) as Hsp.
    destruct (AddMessage _ _) as [[[]|e|s'] s]; auto; intros useful.
    + destruct Hsp as (Hd' & _ & body' & Hob'). assert (uwrap 64 (bb_msgCount bb + 1) = bb_msgCount bb + 1) as Hw
        by (apply uwrap_id; unfold in_u; lia). constructor; cbn [bb_startMsgCount bb_msgCount bb_segments bb_use4844]; rewrite Hw.
      * lia.
      * unfold in_u; lia.
      * now rewrite delayed_at_S by lia.
      * left. exists body'. rewrite messages_snoc by lia. exact Hob'.
    + constructor; cbn; auto. rewrite <- Hd.
      exact (subs_match_end _ _ _ _ _ _ _ (cb_msgs _ _ _ _ Hsp) (hb_msgs _ _ _ _ _ (ob_holds _ _ _ _ _ Hob))).
  - unfold AddMessage. rewrite (cb_done _ _ _ _ Hcl). exact I.
Qed.

Lemma addMessagesLoop_builds p msgCount : in_u 64 msgCount -> (forall n msg, p_GetMessage p n = Ok msg -> msg = stream n) ->
  forall fuel bounds bb force b, builds bb ->
  match addMessagesLoop fuel p bounds msgCount bb force b with
  | (o, b') => bp_posted b' = bp_posted b /\ (bp_building b' = bp_building b \/ bp_building b' = None) /\
      match o with Ok (bb', _) => builds bb' /\ bb_startMsgCount bb' = bb_startMsgCount bb | _ => True end
  end.
Proof.
  intros Hu Hget. induction fuel as [|fuel IH]; intros bounds bb force b Hb; cbn [addMessagesLoop]; [auto|].
  destruct (Z.leb_spec msgCount (bb_msgCount bb)); [auto|]. destruct (p_GetMessage p _) as [msg|e|s] eqn:Hm; [|auto..].
  apply Hget in Hm as ->. cbv zeta. set (bounds' := if _ || _ then _ else bounds). clearbody bounds'. destruct (_ || _); [auto|].
  pose proof (AddMessage_builds bb Hb) as Ha. destruct (AddMessage _ _) as [[[]|e|s] segs]; cbn [bp_posted bp_building set_building];
    [|specialize (Ha ltac:(unfold in_u in Hu; lia)); auto|auto|destruct (Ha ltac:(unfold in_u in Hu; lia))].
  match goal with |- context [addMessagesLoop _ _ _ _ ?bb' _ _] => specialize (IH bounds' bb' force b (Ha ltac:(unfold in_u in Hu; lia) _)) end.
  exact IH.
Qed.

Lemma CloseAndGetBytes_builds bb : builds bb ->
  match CloseAndGetBytes (bb_segments bb) with
  | (Ok (Some bytes), s) => bb_startMsgCount bb < bb_msgCount bb /\ bs_delayedMsg s = delayed_at (bb_msgCount bb) /\
      reads_as delayed (delayed_at (bb_startMsgCount bb)) (messages (bb_startMsgCount bb) (bb_msgCount bb))
        (delayed_at (bb_msgCount bb)) bytes
  | (Panic _, _) => False
  | _ => True
  end.
Proof.
  intros [Hr Hu Hd Hs]. cbv zeta in Hs.
  assert ((exists s', CloseAndGetBytes (bb_segments bb) = CloseAndGetBytes s' /\ bs_delayedMsg s' = delayed_at (bb_msgCount bb) /\
    closed_batch delayed (delayed_at (bb_startMsgCount bb)) s' (messages (bb_startMsgCount bb) (bb_msgCount bb))) \/
    exists e s', CloseAndGetBytes (bb_segments bb) = (Err e, s')) as [(s' & -> & Hd' & Hc)|(e & s' & ->)]; [|..|exact I].
  { destruct Hs as [[body Hob]|Hc]; [|eauto]. rewrite <- Hd.
    destruct (open_closes _ _ _ _ _ Hob) as [(s' & H1 & H2 & H3)|[H _]]; eauto. }
  destruct (Z.eq_dec (bb_startMsgCount bb) (bb_msgCount bb)) as [He|Hne].
  - unfold CloseAndGetBytes. rewrite (cb_done _ _ _ _ Hc). rewrite (cb_empty _ _ _ _ Hc); [exact I|].
    rewrite He. unfold messages. now rewrite Z.sub_diag.
  - destruct (closed_reads _ _ _ _ Hc) as (bytes & s3 & -> & Hd3 & Hrd); [intros Hn; apply messages_nil in Hn; lia|].
    rewrite Hd' in Hd3, Hrd. split; [lia|auto].
Qed.
(** ** What is posted *)

(** The transaction carries the messages between two positions: the bytes of the
    batch, which are read as these messages, or the certificate that the committee
    gave for them, in the calldata or in blobs, and the next position. *)
Definition posted_batch (p : Poll) (from to seqNum : Z) (tx : postedTx) : Prop :=
  from < to /\
  exists bytes data use4844,
    reads_as delayed (delayed_at from) (messages from to) (delayed_at to) bytes /\
    (data = bytes \/
     exists Store timeout cert, p_daWriter p = Some Store /\ Store bytes timeout [] = Ok cert /\ data = das_Serialize cert) /\
    encodeAddBatch p seqNum from to data (delayed_at to) use4844 = Ok (px_calldata tx, px_kzgBlobs tx) /\
    EncodePosition (mkBatchPosterPosition to (delayed_at to) (seqNum +u64 1)) = Ok (px_meta tx).

(** The transactions carry all messages between two positions, one batch after the
    other, with consecutive sequence numbers. *)
Inductive tiles (ps : list Poll) : Z -> Z -> list postedTx -> Z -> Z -> Prop :=
| tiles_nil n seqNum : tiles ps n seqNum [] n seqNum
| tiles_snoc n seqNum txs from to seqNum' p tx :
    tiles ps n seqNum txs from seqNum' -> p ∈ ps -> posted_batch p from to seqNum' tx ->
    tiles ps n seqNum (txs ++ [tx]) to (seqNum' +u64 1).

Lemma storeData_data p nonce meta bytes data : storeData p nonce meta bytes = Ok data ->
  data = bytes \/
  exists Store timeout cert, p_daWriter p = Some Store /\ Store bytes timeout [] = Ok cert /\ data = das_Serialize cert.
Proof.
  unfold storeData. destruct (p_daWriter p) as [Store|]; [|intros [= ->]; auto]. destruct (negb _); [discriminate|].
  destruct (p_GetNextNonceAndMeta p 1) as [[n m]|e|s]; [|discriminate..]. cbn [obind]. destruct (_ || _); [discriminate|].
  destruct (Store _ _ _) as [cert|e|s] eqn:Hs; [intros [= <-]; right; eauto 6| |discriminate].
  destruct (Is_BatchToDasFailed e); [|discriminate]. destruct (bpc_DisableDasFallbackStoreDataOnChain _); [discriminate|intros [= ->]; auto].
Qed.

Lemma afterPosting_posts p b bb pos msgCount tx b' : afterPosting p b bb pos msgCount tx = Ok b' ->
  bp_building b' = None /\ bp_posted b' = bp_posted b ++ [tx].
Proof.
  unfold afterPosting. destruct (MovingAverage_Update _ _ _) as [a|e|s]; [|discriminate..]. cbn [obind].
  destruct (go_div _ _) as [q|e|s]; [|discriminate..]. now intros [= <-].
Qed.

(** What a step leaves: nothing more is posted, or one batch from the position. *)
Definition step_posts (p : Poll) (pos : batchPosterPosition) (b b' : BatchPoster) : Prop :=
  bp_posted b' = bp_posted b \/
  exists to tx, in_u 64 to /\ posted_batch p (pos_MessageCount pos) to (pos_NextSeqNum pos) tx /\ bp_posted b' = bp_posted b ++ [tx].

Lemma closeAndPost_posts p b nonce meta pos t msgCount last bb : builds bb -> bb_startMsgCount bb = pos_MessageCount pos ->
  match closeAndPost p b nonce meta pos t msgCount last bb with
  | (o, b') => step_posts p pos b b' /\ match o with Ok _ => bp_building b' = None | _ => True end
  end.
Proof.
  intros Hb Hst. unfold closeAndPost. pose proof (CloseAndGetBytes_builds bb Hb) as Hc.
  destruct (CloseAndGetBytes _) as [[[bytes|]|e|s] segs]; cbv zeta; [|split; [now left|auto]..].
  destruct Hc as (Hlt & Hd & Hr). rewrite Hd, Hst in *. cbn [bb_msgCount bb_use4844 set_bbSegments].
  destruct (storeData p nonce meta bytes) as [data|e|s] eqn:Hsd; [cbn [obind]|split; [now left|auto]..].
  apply storeData_data in Hsd. destruct (encodeAddBatch _ _ _ _ _ _ _) as [[cd bl]|e|s] eqn:He; [cbn [obind]|split; [now left|auto]..].
  destruct (_ <? _); [split; [now left|auto]|].
  destruct (estimateGas _ _ _ _ _ _ _) as [gas|e|s]; [cbn [obind]|split; [now left|auto]..].
  destruct (EncodePosition _) as [nm|e|s] eqn:Hnm; [cbn [obind]|split; [now left|auto]..].
  destruct (p_PostTransaction p) as [u|e|s]; [cbn [obind]|split; [now left|auto]..].
  destruct (afterPosting _ _ _ _ _ _) as [b'|e|s] eqn:Ha; [|split; [now left|auto]..].
  apply afterPosting_posts in Ha as [Hn Hp].
  assert (step_posts p pos b b') as Hstep.
  { right. exists (bb_msgCount bb). eexists. split; [apply Hb|]. split; [|exact Hp]. split; [exact Hlt|].
    exists bytes, data, (bb_use4844 bb). auto. }
  destruct (bpc_UseNoOpStorage _); [|auto]. destruct (p_WaitForTxApproval p); auto.
Qed.

Lemma resumeBuilding_builds p b pos bb : building_ok b -> in_u 64 (pos_MessageCount pos) ->
  pos_DelayedMessageCount pos = delayed_at (pos_MessageCount pos) -> resumeBuilding p b pos = Ok bb ->
  builds bb /\ bb_startMsgCount bb = pos_MessageCount pos.
Proof.
  intros Hb Hu Hd. unfold resumeBuilding.
  assert (forall r, r = (let? latestHeader := p_LastHeader p 0 in
    let? use4844 := chooseBlobs p b latestHeader (pos_MessageCount pos) in
    let? segments := newBatchSegments (pos_DelayedMessageCount pos) (p_config p) (bp_backlog b) use4844 in
    Ok (mkBuildingBatch segments (pos_MessageCount pos) (pos_MessageCount pos) false use4844)) -> r = Ok bb ->
    builds bb /\ bb_startMsgCount bb = pos_MessageCount pos) as Hfresh.
  { intros r ->. destruct (p_LastHeader p 0) as [h|e|s]; [cbn [obind]|discriminate..].
    destruct (chooseBlobs _ _ _ _) as [u|e|s]; [cbn [obind]|discriminate..].
    destruct (newBatchSegments _ _ _ _) as [sg|e|s] eqn:Hn; [cbn [obind]|discriminate..]. intros [= <-]. split; [|reflexivity].
    destruct (newBatchSegments_open delayed _ _ _ _ _ Hn) as [Hd0 Hob]. rewrite Hd in *.
    constructor; cbn; [unfold in_u in Hu; lia|exact Hu|exact Hd0|left; exists []]. unfold messages. now rewrite Z.sub_diag. }
  unfold building_ok in Hb. destruct (bp_building b) as [bb0|]; [|now apply Hfresh].
  destruct (negb _) eqn:Hne; [now apply Hfresh|]. intros [= <-]. apply negb_false_iff, Z.eqb_eq in Hne. auto.
Qed.

(** What the others answer during a poll, if the position reached is in [meta]. *)
Record consistent (p : Poll) (meta : list Z) : Prop := {
  cs_meta : forall nonce m, p_GetNextNonceAndMeta p 0 = Ok (nonce, m) -> m = meta;
  cs_count : forall n, p_GetMessageCount p = Ok n -> in_u 64 n;
  cs_message : forall n msg, p_GetMessage p n = Ok msg -> msg = stream n
}.

Lemma maybePostSequencerBatch_posts p b meta pos : consistent p meta -> DecodePosition meta = Ok pos -> building_ok b ->
  in_u 64 (pos_MessageCount pos) -> pos_DelayedMessageCount pos = delayed_at (pos_MessageCount pos) ->
  match maybePostSequencerBatch p b with
  | (o, b') => step_posts p pos b b' /\ match o with Ok _ => building_ok b' | _ => True end
  end.
Proof.
  intros [Hm Hcnt Hget] Hdec Hb Hu Hd. unfold maybePostSequencerBatch.
  destruct (bp_batchReverted b); [split; [now left|auto]|].
  destruct (p_GetNextNonceAndMeta p 0) as [[nonce m]|e|s]; [|split; [now left|auto]..].
  rewrite (Hm _ _ eq_refl), Hdec. destruct (p_GetBatchCount p) as [cnt|e|s]; [|split; [now left|auto]..].
  destruct (_ <? _); [split; [now left|auto]|].
  destruct (resumeBuilding p b pos) as [bb|e|s] eqn:Hres; [|split; [now left|auto]..].
  destruct (resumeBuilding_builds _ _ _ _ Hb Hu Hd Hres) as [Hbd Hst]. cbv zeta.
  destruct (p_GetMessageCount p) as [msgCount|e|s]; [specialize (Hcnt _ eq_refl)|split; [now left|auto]..].
  destruct (_ <=? _); [split; [now left|exact Hbd]|].
  destruct (p_GetMessage p (pos_MessageCount pos)) as [fm|e|s]; [|split; [now left|auto]..].
  destruct (p_GetMessage p (_ -u64 1)) as [lm|e|s]; [|split; [now left|auto]..].
  destruct (getL1Bounds p) as [bounds|e|s]; [|split; [now left|auto]..].
  match goal with |- context [addMessagesLoop ?f ?p ?bo ?mc ?bb ?fo ?b] =>
    pose proof (addMessagesLoop_builds p mc Hcnt Hget f bo bb fo b Hbd) as Hl;
    destruct (addMessagesLoop f p bo mc bb fo b) as [[[bb' force]|e|s] b1] end;
    destruct Hl as (Hp1 & _ & Hl); cbn [bp_posted set_building] in Hp1; [|split; [now left|auto]..].
  destruct Hl as [Hbd' Hst']. destruct (_ || _); [split; [now left|exact Hbd']|].
  rewrite Hst in Hst'. match goal with |- context [closeAndPost ?p ?b ?n ?m ?po ?t ?mc ?la ?bb] =>
    pose proof (closeAndPost_posts p b n m po t mc la bb Hbd' Hst') as Hc;
    destruct (closeAndPost p b n m po t mc la bb) as [o b2] end.
  destruct Hc as [Hs Ho]. unfold step_posts in *. cbn [bp_posted set_building] in Hs. rewrite Hp1 in Hs. split; [exact Hs|].
  destruct o; auto. unfold building_ok. now rewrite Ho.
Qed.

(** ** Polls *)

Variable meta0 : list Z.

(** The position that the data poster has reached. *)
Definition last_meta (b : BatchPoster) : list Z := default meta0 (px_meta <$> last (bp_posted b)).

Fixpoint consistent_run (ps : list Poll) (b : BatchPoster) : Prop :=
  match ps with
  | [] => True
  | p :: ps => consistent p (last_meta b) /\ consistent_run ps (snd (pollOnce p b))
  end.

Definition tiled (ps : list Poll) (n0 s0 : Z) (b : BatchPoster) : Prop :=
  exists n s, tiles ps n0 s0 (bp_posted b) n s /\ in_u 64 n /\ in_u 64 s /\
    DecodePosition (last_meta b) = Ok (mkBatchPosterPosition n (delayed_at n) s).

Context {XL : PosterLibLaws X}.

Lemma pollOnce_tiled ps p b n0 s0 : p ∈ ps -> consistent p (last_meta b) -> building_ok b -> tiled ps n0 s0 b ->
  match pollOnce p b with
  | (o, b') => tiled ps n0 s0 b' /\ match o with Panic _ => True | _ => building_ok b' end
  end.
Proof.
  intros Hin Hc Hb Ht. unfold pollOnce. pose proof Ht as (n & s & Hts & Hn & Hs & Hdec).
  pose proof (maybePostSequencerBatch_posts p b _ _ Hc Hdec Hb Hn eq_refl) as Hm.
  destruct (maybePostSequencerBatch p b) as [o b1]. destruct Hm as [Hst Ho].
  assert (tiled ps n0 s0 b1) as Ht1.
  { destruct Hst as [Hsame|(to & tx & Hto & Hpb & Hp)]; [exists n, s; unfold last_meta in *; now rewrite Hsame|].
    cbn [pos_MessageCount pos_NextSeqNum] in Hpb. exists to, (s +u64 1). unfold last_meta. rewrite Hp, last_snoc.
    split; [now apply tiles_snoc with (p := p) (from := n)|]. split; [exact Hto|]. split; [apply uwrap_range; lia|].
    destruct Hpb as (_ & ? & ? & ? & _ & _ & _ & Henc). apply DecodePosition_Encode; cbn; auto; [|apply uwrap_range; lia].
    apply delayed_at_u64. unfold in_u in Hto. lia. }
  destruct (p_CouldAcquireLock p) as [[]|e|s']; cbn [negb]; [|split; [exact Ht|exact I]| |auto]; destruct o; split; auto; exact I.
Qed.

Lemma pollAll_tiled ps n0 s0 : forall ps' b, (forall p, p ∈ ps' -> p ∈ ps) -> consistent_run ps' b -> building_ok b ->
  tiled ps n0 s0 b -> tiled ps n0 s0 (pollAll ps' b).
Proof.
  induction ps' as [|p ps' IH]; intros b Hin Hc Hb Ht; [exact Ht|]. cbn [pollAll consistent_run] in *. destruct Hc as [Hc Hcs].
  pose proof (pollOnce_tiled ps p b n0 s0 (Hin p ltac:(left)) Hc Hb Ht) as Hp.
  destruct (pollOnce p b) as [o b1]. cbn [snd] in Hcs. destruct Hp as [Ht1 Hb1].
  destruct o; [apply IH..|]; auto; intros q Hq; apply Hin; now right.
Qed.

End Facts.

Section Claims.
Context {E : Env} {C : Codecs} {P : BLS12381} {B : BlobCodecs} {W : BatchCodecs} {WL : BatchCodecsLaws C W} {X : PosterLib}.
Context {XL : PosterLibLaws X}.

(** C2: What a batch poster posts over any number of polls, if it starts at a
    position of the stream and the data poster continues at the position of the
    last transaction, are all messages of the stream from there on, each exactly
    once and in order: every transaction has the next sequence number, starts at
    the message where the previous one ended, and carries a batch that the inbox
    reads back as the messages up to its own end, as calldata, as blobs or as the
    certificate that the committee gave for it. Errors, restarts of the batch,
    full batches and the bounds of the parent chain do not change this. *)
Theorem pollAll_tiles (stream : Z -> MessageWithMetadata) (delayed : Z -> L1IncomingMessage) (meta0 : list Z) (n0 s0 : Z)
    (b : BatchPoster) (ps : list Poll) :
  (forall n, 0 <= n -> next_message delayed (delayed_at stream n) (stream n)) ->
  bp_building b = None -> bp_posted b = [] -> in_u 64 n0 -> in_u 64 s0 ->
  DecodePosition meta0 = Ok (mkBatchPosterPosition n0 (delayed_at stream n0) s0) ->
  consistent_run stream meta0 ps b ->
  exists n s, tiles stream delayed ps n0 s0 (bp_posted (pollAll ps b)) n s.
Proof.
  intros Hs Hb Hp Hn0 Hs0 Hd Hc.
  destruct (pollAll_tiled stream delayed Hs meta0 ps n0 s0 ps b) as (n & s & H & _); auto.
  - unfold building_ok. now rewrite Hb.
  - exists n0, s0. unfold last_meta. rewrite Hp. cbn. auto using tiles_nil.
  - eauto.
Qed.

End Claims.

(** ** Examples *)

#[local] Existing Instance example_codecs.
#[local] Existing Instance example_bls.
#[local] Existing Instance example_blob_codecs.
#[local] Existing Instance example_writer.
#[local] Existing Instance example_writer_laws.

#[local] Instance example_lib : PosterLib := {|
  IsHexAddress := fun _ => true;
  HexToAddress := fun _ => 0;
  MethodID := fun blobs => Some (if blobs then [1] else [2]);
  PackBatch := fun seqNum data delayedMsg refunder prev new => Ok (seqNum :: prev :: new :: data);
  PackBlobBatch := fun seqNum delayedMsg refunder prev new => Ok [seqNum; prev; new];
  EncodePosition := fun pos => Ok [pos_MessageCount pos; pos_DelayedMessageCount pos; pos_NextSeqNum pos];
  DecodePosition := fun m => match m with [a; b; c] => Ok (mkBatchPosterPosition a b c) | _ => Err (ErrNew "rlp") end;
  CalcExcessBlobGas := fun a b => 0;
  CalcBlobFee := fun a => 1;
  BlobTxBlobGasPerBlob := 131072;
  MaxBlobGasPerBlock := 786432
|}.

#[local] Instance example_lib_laws : PosterLibLaws example_lib.
Proof. constructor. intros [a b c] m _ _ _ [= <-]. reflexivity. Qed.

(** Messages of the sequencer, with sixteen bytes each. *)
Definition example_stream (n : Z) : MessageWithMetadata := mkMessageWithMetadata (l2_message 5 1 (repeat 7 16)) 0.

Lemma example_stream_follows n : 0 <= n -> next_message example_delayed (delayed_at example_stream n) (example_stream n).
Proof.
  intros _. unfold delayed_at. assert ((if n =? 0 then 0 else 0) = 0) as Hz by (destruct (n =? 0); reflexivity). cbn in *. rewrite Hz.
  split; [cbn; unfold in_u; lia|]. right. split; [reflexivity|]. exists 5, 1, (repeat 7 16). split; [reflexivity|unfold in_u; lia].
Qed.

Definition example_header : ParentHeader := mkParentHeader 100 1000 1 None None 0 0.

(** A poll at the time [now] that finds [count] messages, behind the position [meta]. *)
Definition example_poll (maxSize : Z) (wait : bool) (now count : Z) (meta : list Z) : Poll (E := TestEnv) := {|
  p_config := mkBatchPosterConfig false maxSize 0 (3600 * Second) wait 10 11 0 EmptyString false 0 false false "ignore" 0 15000 0
                l1BlockBoundIgnore;
  p_now := fun _ => time_Unix now;
  p_CouldAcquireLock := Ok true; p_AttemptLock := true;
  p_GetNextNonceAndMeta := fun _ => Ok (0, meta);
  p_GetBatchCount := Ok 0;
  p_LastHeader := fun _ => Ok example_header;
  p_LatestSafeBlockHeader := Ok example_header; p_LatestFinalizedBlockHeader := Ok example_header;
  p_MaxTimeVariation := fun _ => Ok (0, 0, (0, 0));
  p_ArbOSVersionForMessageNumber := fun _ => Ok 20;
  p_GetMessageCount := Ok count;
  p_GetMessage := fun n => if n <? count then Ok (example_stream n) else Err (ErrNew "not found");
  p_daWriter := None; p_accessList := fun _ _ => [];
  p_Sender := 1; p_seqInboxAddr := 2; p_MaxMempoolTransactions := 1; p_NonceAt := Ok 0; p_HeaderByNumber := Ok example_header;
  p_eth_estimateGas := fun _ => Ok 100000;
  p_PostTransaction := Ok tt; p_WaitForTxApproval := Ok tt
|}.

Definition example_poster : BatchPoster := mkBatchPoster None (mkMovingAverage [] 20 0 0) 0 0 0 false [].

Lemma example_poll_consistent maxSize wait now count meta : in_u 64 count ->
  consistent example_stream (example_poll maxSize wait now count meta) meta.
Proof.
  intros Hc. constructor; cbn; [intros ? ? [= _ <-]; reflexivity|intros ? [= <-]; exact Hc|].
  intros n msg. destruct (n <? count); [intros [= <-]; reflexivity|discriminate].
Qed.

(** Two messages that are waited for, then posted, then two more. *)
Definition example_polls : list (Poll (E := TestEnv)) :=
  [example_poll 1000 false 10 2 [0; 0; 3]; example_poll 1000 false 5000 2 [0; 0; 3]; example_poll 1000 false 9000 4 [2; 0; 4]].

Lemma pollAll_tiles_witness :
  map px_meta (bp_posted (pollAll example_polls example_poster)) = [[2; 0; 4]; [4; 0; 5]] /\
  exists n s, tiles example_stream example_delayed example_polls 0 3 (bp_posted (pollAll example_polls example_poster)) n s.
Proof.
  split; [vm_compute; reflexivity|].
  apply (pollAll_tiles example_stream example_delayed [0; 0; 3] 0 3 example_poster example_polls); try reflexivity;
    try (unfold in_u; lia); [exact example_stream_follows|].
  cbn [consistent_run example_polls]. repeat split_and; try exact I.
  - exact (example_poll_consistent 1000 false 10 2 [0; 0; 3] ltac:(unfold in_u; lia)).
  - match goal with |- consistent _ _ ?m => assert (m = [0; 0; 3]) as -> by (vm_compute; reflexivity) end.
    exact (example_poll_consistent 1000 false 5000 2 [0; 0; 3] ltac:(unfold in_u; lia)).
  - match goal with |- consistent _ _ ?m => assert (m = [2; 0; 4]) as -> by (vm_compute; reflexivity) end.
    exact (example_poll_consistent 1000 false 9000 4 [2; 0; 4] ltac:(unfold in_u; lia)).
Defined.

(** A batch of at most ninety bytes, with room for two of five messages, in a
    poster that waits for the maximum delay: the first poll closes the full batch
    and keeps it, and the second one fails to extend it and drops it. *)
Definition example_full : BatchPoster := snd (pollOnce (example_poll 90 true 10 5 [0; 0; 3]) example_poster).

Example full_batch_dropped :
  fst (pollOnce (example_poll 90 true 10 5 [0; 0; 3]) example_poster) = Ok false /\
  option_map (fun bb => bs_isDone (bb_segments bb)) (bp_building example_full) = Some true /\
  pollOnce (example_poll 90 true 20 5 [0; 0; 3]) example_full =
    (Err (ErrWrap "error adding message to batch" errBatchAlreadyClosed), set_building example_full None).
Proof. vm_compute. auto. Qed.
