(* ===== verification/TxProcessor.v ===== *)
(** * arbos/tx_processor.go: the hooks around a transaction

    go-ethereum calls a [TxProcessor] before it buys gas for a transaction
    ([StartTxHook]), before it runs it ([GasChargingHook]) and after
    ([EndTxHook]). The start ends deposits, internal transactions and submissions
    of retryables at once and pays out the escrow of a redeem; the charging hook
    buys the gas for the calldata; the end distributes the fees and settles a
    redeem. What the hooks read of go-ethereum beside the database is the class
    [TxHost]. What is proved about them is in TxProcessorFacts.v. *)
From Stdlib Require Import ZArith Lia String List.
From stdpp Require Import base list numbers gmap.
From S2P Require Import Prelude Arbmath Host Storage Blockhash L2Pricing Transfer L1Pricing Retryables StylusParams Programs ArbosState InternalTx ParseL2.
Open Scope Z_scope.

Definition GasEstimationL1PricePadding : Z := 11000.

(** params.TxGas *)
Definition TxGas : Z := 21000.

(** The log [RedeemScheduled] of the precompile ArbRetryableTx. *)
Record RedeemScheduled := mkRedeemScheduled {
  ev_TicketId : Z; ev_RetryTxHash : Z; ev_SequenceNum : Z; ev_DonatedGas : Z; ev_GasDonor : Z;
  ev_MaxRefund : Z; ev_SubmissionFeeRefund : Z
}.

(** Addresses and hashes of go-ethereum, and the coding of the events of
    ArbRetryableTx, which the precompile finds by reflection. *)
Class TxHost := {
  ArbosAddress : Z;
  ArbRetryableTxAddress : Z;
  RetryTx_Hash : ArbitrumRetryTx -> Z;
  RedeemScheduledEventID : Z;
  PackTicketCreated : Z -> outcome EthLog;
  PackRedeemScheduled : RedeemScheduled -> outcome EthLog;
  ParseRedeemScheduledLog : EthLog -> outcome RedeemScheduled
}.

(** [underlyingTx.GetInner()] *)
Inductive TxInner : Type :=
| InnerDeposit
| InnerInternal (tx : ArbitrumInternalTx)
| InnerSubmitRetryable (tx : ArbitrumSubmitRetryableTx)
| InnerRetry (tx : ArbitrumRetryTx)
| InnerOther.

(** The fields of the block's and of the transaction's context that are read. *)
Record TxContext := mkTxContext {
  tc_evm : EVM; tc_block : BlockContext; tc_BaseFee : Z; tc_Coinbase : Z; tc_ChainID : Z; tc_GasPrice : Z
}.

(** [vm.Contract] *)
Record VmContract := mkVmContract { vc_Address : Z; vc_IsDelegateOrCallcode : bool }.

Record StartTxResult := mkStartTxResult {
  sr_endTxNow : bool; sr_gasUsed : Z; sr_err : option error; sr_returnData : list Z
}.

(** What is subtracted from the pool, and what is left in it. *)
Definition takeFunds (pool take : Z) : outcome (Z * Z) :=
  if take <? 0 then Panic "Attempted to take a negative amount of funds"
  else if BigLessThan pool take then Ok (pool, 0)
  else Ok (take, pool - take).

Section TxProcessor.
Context {E : Env} {T : TxEnv} {H : TxHost} {ABI : InternalTxAbi}.

(** A transaction with the units that are cached in it. *)
Record Tx := mkTx {
  tx_Raw : L1Pricing.Transaction; tx_CalldataUnits : Z; tx_Inner : TxInner; tx_Hash : Z; tx_ChainId : Z
}.

(** [core.Message] *)
Record CoreMessage := mkCoreMessage {
  cm_Tx : option Tx; cm_From : Z; cm_To : option Z; cm_Nonce : Z; cm_Value : Z; cm_GasLimit : Z; cm_GasPrice : Z;
  cm_GasFeeCap : Z; cm_GasTipCap : Z; cm_Data : list Z; cm_AccessList : list (Z * list Z);
  cm_TxRunMode : MessageRunMode; cm_SkipL1Charging : bool
}.

Definition isCommitMode (mode : MessageRunMode) : bool := match mode with MessageCommitMode => true | _ => false end.
Definition isGasEstimationMode (mode : MessageRunMode) : bool :=
  match mode with MessageGasEstimationMode => true | _ => false end.
Definition isEthcallMode (mode : MessageRunMode) : bool := match mode with MessageEthcallMode => true | _ => false end.

(** The fields that the pricer of L1 calldata reads. *)
Definition pricerMessage (m : CoreMessage) : Message :=
  mkMessage _ (match cm_Tx m with Some tx => Some (tx_Raw tx, tx_CalldataUnits tx) | None => None end)
    (isGasEstimationMode (cm_TxRunMode m)) (cm_Nonce m) (cm_GasTipCap m) (cm_GasFeeCap m) (cm_GasLimit m) (cm_To m)
    (cm_Value m) (cm_Data m) (cm_AccessList m).

Record TxProcessor := mkTxProcessor {
  tp_msg : CoreMessage;
  tp_state : ArbosState;
  tp_PosterFee : Z;
  tp_posterGas : Z;
  tp_computeHoldGas : Z;
  tp_delayedInbox : bool;
  tp_Contracts : list VmContract;
  tp_Programs : gmap Z Z;
  tp_TopTxType : option Z;
  tp_CurrentRetryable : option Z;
  tp_CurrentRefundTo : option Z;
  tp_cachedL1BlockNumber : option Z;
  tp_cachedL1BlockHashes : gmap Z Z
}.
Definition tp_set_state (p : TxProcessor) (state : ArbosState) : TxProcessor :=
  mkTxProcessor (tp_msg p) state
    (tp_PosterFee p) (tp_posterGas p) (tp_computeHoldGas p) (tp_delayedInbox p) (tp_Contracts p) (tp_Programs p) (tp_TopTxType p)
    (tp_CurrentRetryable p) (tp_CurrentRefundTo p) (tp_cachedL1BlockNumber p) (tp_cachedL1BlockHashes p).
Definition tp_set_msg (p : TxProcessor) (msg : CoreMessage) : TxProcessor :=
  mkTxProcessor msg (tp_state p)
    (tp_PosterFee p) (tp_posterGas p) (tp_computeHoldGas p) (tp_delayedInbox p) (tp_Contracts p) (tp_Programs p) (tp_TopTxType p)
    (tp_CurrentRetryable p) (tp_CurrentRefundTo p) (tp_cachedL1BlockNumber p) (tp_cachedL1BlockHashes p).
Definition tp_set_poster (p : TxProcessor) (fee gas : Z) : TxProcessor :=
  mkTxProcessor (tp_msg p) (tp_state p)
    fee gas (tp_computeHoldGas p) (tp_delayedInbox p) (tp_Contracts p) (tp_Programs p) (tp_TopTxType p)
    (tp_CurrentRetryable p) (tp_CurrentRefundTo p) (tp_cachedL1BlockNumber p) (tp_cachedL1BlockHashes p).
Definition tp_set_hold (p : TxProcessor) (gas : Z) : TxProcessor :=
  mkTxProcessor (tp_msg p) (tp_state p)
    (tp_PosterFee p) (tp_posterGas p) gas (tp_delayedInbox p) (tp_Contracts p) (tp_Programs p) (tp_TopTxType p)
    (tp_CurrentRetryable p) (tp_CurrentRefundTo p) (tp_cachedL1BlockNumber p) (tp_cachedL1BlockHashes p).
Definition tp_set_contracts (p : TxProcessor) (contracts : list VmContract) (programs : gmap Z Z) : TxProcessor :=
  mkTxProcessor (tp_msg p) (tp_state p) (tp_PosterFee p) (tp_posterGas p) (tp_computeHoldGas p)
    (tp_delayedInbox p) contracts programs (tp_TopTxType p) (tp_CurrentRetryable p) (tp_CurrentRefundTo p)
    (tp_cachedL1BlockNumber p) (tp_cachedL1BlockHashes p).
Definition tp_set_topType (p : TxProcessor) (tipe : Z) : TxProcessor :=
  mkTxProcessor (tp_msg p) (tp_state p)
    (tp_PosterFee p) (tp_posterGas p) (tp_computeHoldGas p) (tp_delayedInbox p) (tp_Contracts p) (tp_Programs p) (Some tipe) (tp_CurrentRetryable p) (tp_CurrentRefundTo p) (tp_cachedL1BlockNumber p)
    (tp_cachedL1BlockHashes p).
Definition tp_set_current (p : TxProcessor) (ticketId refundTo : Z) : TxProcessor :=
  mkTxProcessor (tp_msg p)
    (tp_state p) (tp_PosterFee p) (tp_posterGas p) (tp_computeHoldGas p) (tp_delayedInbox p) (tp_Contracts p)
    (tp_Programs p) (tp_TopTxType p) (Some ticketId) (Some refundTo) (tp_cachedL1BlockNumber p)
    (tp_cachedL1BlockHashes p).
Definition tp_set_cachedNumber (p : TxProcessor) (number : Z) : TxProcessor :=
  mkTxProcessor (tp_msg p)
    (tp_state p) (tp_PosterFee p) (tp_posterGas p) (tp_computeHoldGas p) (tp_delayedInbox p) (tp_Contracts p)
    (tp_Programs p) (tp_TopTxType p) (tp_CurrentRetryable p) (tp_CurrentRefundTo p) (Some number)
    (tp_cachedL1BlockHashes p).
Definition tp_set_cachedHash (p : TxProcessor) (number hash : Z) : TxProcessor :=
  mkTxProcessor (tp_msg p)
    (tp_state p) (tp_PosterFee p) (tp_posterGas p) (tp_computeHoldGas p) (tp_delayedInbox p) (tp_Contracts p)
    (tp_Programs p) (tp_TopTxType p) (tp_CurrentRetryable p) (tp_CurrentRefundTo p) (tp_cachedL1BlockNumber p)
    (<[number := hash]> (tp_cachedL1BlockHashes p)).

(** ** Opening *)

(** The burner that the code makes for the state is that of the computation. *)
Definition OpenSystemArbosStateOrPanic : M ArbosState :=
  let* r := attempt OpenArbosState in
  match r with Ok state => ret state | Err _ => panic "OpenSystemArbosState" | Panic s => panic s end.

Definition NewTxProcessor (ctx : TxContext) (msg : CoreMessage) : M TxProcessor :=
  let* state := OpenSystemArbosStateOrPanic in
  ret (mkTxProcessor msg state 0 0 0 (negb (tc_Coinbase ctx =? BatchPosterAddress)) [] ∅ None None None None ∅).

Definition PushContract (p : TxProcessor) (contract : VmContract) : TxProcessor :=
  let contracts := tp_Contracts p ++ [contract] in
  if negb (vc_IsDelegateOrCallcode contract)
  then tp_set_contracts p contracts
         (<[vc_Address contract := default 0 (tp_Programs p !! vc_Address contract) +u64 1]> (tp_Programs p))
  else tp_set_contracts p contracts (tp_Programs p).

Definition PopContract (p : TxProcessor) : outcome TxProcessor :=
  match last (tp_Contracts p) with
  | None => Panic "index out of range"
  | Some popped =>
      let contracts := removelast (tp_Contracts p) in
      Ok (if negb (vc_IsDelegateOrCallcode popped)
          then tp_set_contracts p contracts
                 (<[vc_Address popped := default 0 (tp_Programs p !! vc_Address popped) -u64 1]> (tp_Programs p))
          else tp_set_contracts p contracts (tp_Programs p))
  end.

(** ** The start of a transaction *)

(** The tracer fakes a call to the recipient of the message, so the depth grows
    by one and the state is opened again. *)
Definition startTracer (p : TxProcessor) (evm : EVM) : M (TxProcessor * EVM) :=
  if evm_tracer evm then
    match cm_To (tp_msg p) with
    | None => panic "nil pointer dereference"
    | Some _ =>
        let* state := OpenSystemArbosStateOrPanic in
        ret (tp_set_state p state, mkEVM true (evm_depth evm + 1))
    end
  else ret (p, evm).

(** The function that [startTracer] returns. *)
Definition endTracer (p : TxProcessor) (evm : EVM) : M TxProcessor :=
  if evm_tracer evm then
    let* state := OpenSystemArbosStateOrPanic in
    ret (tp_set_state p state)
  else ret p.

(** A minimum base fee that could not be read is a nil [big.Int]. *)
Definition minBaseFeeWei (state : ArbosState) : M Z :=
  let* r := attempt (MinBaseFeeWei (as_l2PricingState state)) in
  restrict (match r with Err e => Some e | _ => None end) ;;;
  match r with Ok fee => ret fee | _ => panic "nil pointer dereference" end.

Definition duringEvm (evm : EVM) (from to amount : Z) : M (outcome unit) :=
  attempt (TransferBalance (Some from) (Some to) amount evm TracingDuringEVM "during evm execution").

(** [retryTx, err := m(); state.Restrict(err)]; nil beside an error is dereferenced. *)
Definition restricted_tx (m : M ArbitrumRetryTx) : M ArbitrumRetryTx :=
  let* r := attempt m in
  restrict (match r with Err e => Some e | _ => None end) ;;;
  match r with Ok tx => ret tx | _ => panic "nil pointer dereference" end.

(** An event is added to the logs; the errors are logged. *)
Definition emit (packed : outcome EthLog) : M unit :=
  match packed with
  | Ok log => db_write (fun d => AddLog d log)
  | Err _ => ret tt
  | Panic s => panic s
  end.

Definition EmitTicketCreatedEvent (ticketId : Z) : M unit := emit (PackTicketCreated ticketId).
Definition EmitReedeemScheduledEvent (event : RedeemScheduled) : M unit := emit (PackRedeemScheduled event).

(** The part of a submission that pays for the gas of the first redeem and
    schedules it. [networkCost] and [gascost] are one [big.Int], so that what the
    infrastructure takes is missing in both. *)
Definition scheduleRedeem (p : TxProcessor) (ctx : TxContext) (evm : EVM) (utx : Tx) (tx : ArbitrumSubmitRetryableTx)
    (retryable : Retryable) (networkFeeAccount effectiveBaseFee availableRefund withheldSubmissionFee submissionFee : Z)
    : M StartTxResult :=
  let state := tp_state p in
  let ticketId := tx_Hash utx in
  let usergas := cm_GasLimit (tp_msg p) in
  let done gasUsed := ret (mkStartTxResult true gasUsed None (Hash_Bytes ticketId)) in
  let gascost := BigMulByUint effectiveBaseFee usergas in
  let* infra :=
    if 11 <=? as_arbosVersion state then
      let* infraFeeAccount := restricted_value 0 (InfraFeeAccount state) in
      if negb (infraFeeAccount =? 0) then
        let* minBaseFee := minBaseFeeWei state in
        let infraFee := BigMin minBaseFee effectiveBaseFee in
        let infraCost := BigMulByUint infraFee usergas in
        let* (infraCost, gascost) := lift (takeFunds gascost infraCost) in
        let* r := duringEvm evm (srt_From tx) infraFeeAccount infraCost in
        ret (match r with Ok _ => Some gascost | _ => None end)
      else ret (Some gascost)
    else ret (Some gascost) in
  match infra with
  | None => done 0
  | Some gascost =>
      let networkCost := gascost in
      let* paid :=
        if 0 <? networkCost then
          let* r := duringEvm evm (srt_From tx) networkFeeAccount networkCost in
          ret (match r with Ok _ => true | _ => false end)
        else ret true in
      if negb paid then done 0
      else
        let* (withheldGasFunds, availableRefund) := lift (takeFunds availableRefund gascost) in
        let gasPriceRefund := BigMulByUint (BigSub (srt_GasFeeCap tx) effectiveBaseFee) (srt_Gas tx) in
        let gasPriceRefund := if gasPriceRefund <? 0 then 0 else gasPriceRefund in
        let* (gasPriceRefund, availableRefund) := lift (takeFunds availableRefund gasPriceRefund) in
        let* _ := duringEvm evm (srt_From tx) (srt_FeeRefundAddr tx) gasPriceRefund in
        let availableRefund := availableRefund + withheldGasFunds in
        let availableRefund := availableRefund + withheldSubmissionFee in
        let* retryTxInner :=
          restricted_tx (MakeTx retryable (tx_ChainId utx) 0 effectiveBaseFee usergas ticketId (srt_FeeRefundAddr tx)
                           availableRefund submissionFee) in
        restricted (IncrementNumTries retryable) ;;;
        EmitReedeemScheduledEvent
          (mkRedeemScheduled ticketId (RetryTx_Hash retryTxInner) (art_Nonce retryTxInner) usergas
             (srt_FeeRefundAddr tx) availableRefund submissionFee) ;;;
        done usergas
  end.

(** The part of a submission that creates the ticket and schedules its first
    redeem if its gas can be paid. *)
Definition submitTicket (p : TxProcessor) (ctx : TxContext) (evm : EVM) (utx : Tx) (tx : ArbitrumSubmitRetryableTx)
    (networkFeeAccount availableRefund withheldSubmissionFee submissionFee : Z) : M StartTxResult :=
  let state := tp_state p in
  let ticketId := tx_Hash utx in
  let from := srt_From tx in
  let timeout := bc_Time (tc_block ctx) +u64 RetryableLifetimeSeconds in
  let* retryable :=
    restricted_value (newRetryable ticketId (OpenSubStorage (rs_retryables (as_retryableState state)) (Hash_Bytes ticketId)))
      (CreateRetryable (as_retryableState state) ticketId timeout from (srt_RetryTo tx) (srt_RetryValue tx)
         (srt_Beneficiary tx) (srt_RetryData tx)) in
  EmitTicketCreatedEvent ticketId ;;;
  let* balance := db_read (fun d => GetBalance d from) in
  let usergas := cm_GasLimit (tp_msg p) in
  let effectiveBaseFee :=
    if negb (isCommitMode (cm_TxRunMode (tp_msg p))) && (cm_GasFeeCap (tp_msg p) =? 0) then 0 else tc_BaseFee ctx in
  let maxGasCost := BigMulByUint (srt_GasFeeCap tx) usergas in
  let maxFeePerGasTooLow := BigLessThan (srt_GasFeeCap tx) effectiveBaseFee in
  if BigLessThan balance maxGasCost || (usergas <? TxGas) || maxFeePerGasTooLow then
    let* (gasCostRefund, availableRefund) := lift (takeFunds availableRefund maxGasCost) in
    let* _ := duringEvm evm from (srt_FeeRefundAddr tx) gasCostRefund in
    ret (mkStartTxResult true 0 None (Hash_Bytes ticketId))
  else
    scheduleRedeem p ctx evm utx tx retryable networkFeeAccount effectiveBaseFee availableRefund
      withheldSubmissionFee submissionFee.

(** [types.ArbitrumSubmitRetryableTx]: mint the deposit, collect the submission
    fee, move the call value into escrow, create the ticket, and schedule its
    first redeem if its gas can be paid. *)
Definition submitRetryable (p : TxProcessor) (ctx : TxContext) (evm : EVM) (utx : Tx) (tx : ArbitrumSubmitRetryableTx)
    : M StartTxResult :=
  let state := tp_state p in
  let ends err := ret (mkStartTxResult true 0 (Some err) []) in
  let ticketId := tx_Hash utx in
  let escrow := RetryableEscrowAddress ticketId in
  let* networkFeeAccount := value_or 0 (NetworkFeeAccount state) in
  let from := srt_From tx in
  let transfer := duringEvm evm in
  let* (_, availableRefund) := lift (takeFunds (srt_DepositValue tx) (srt_RetryValue tx)) in
  MintBalance (Some from) (srt_DepositValue tx) evm TracingDuringEVM "deposit" ;;;
  let* balanceAfterMint := db_read (fun d => GetBalance d from) in
  if balanceAfterMint <? srt_MaxSubmissionFee tx then ends (ErrNew "insufficient funds for max submission fee")
  else
    match srt_L1BaseFee tx with
    | None => panic "nil pointer dereference"
    | Some l1BaseFee =>
        let submissionFee := RetryableSubmissionFee (Z.of_nat (length (srt_RetryData tx))) l1BaseFee in
        if BigLessThan (srt_MaxSubmissionFee tx) submissionFee
        then ends (ErrNew "max submission fee is less than the actual submission fee")
        else
          let* r := transfer from networkFeeAccount submissionFee in
          match r with
          | Err err => ends err
          | Panic s => panic s
          | Ok _ =>
              let* (withheldSubmissionFee, availableRefund) := lift (takeFunds availableRefund submissionFee) in
              let* (submissionFeeRefund, availableRefund) :=
                lift (takeFunds availableRefund (BigSub (srt_MaxSubmissionFee tx) submissionFee)) in
              let* _ := transfer from (srt_FeeRefundAddr tx) submissionFeeRefund in
              let* r := transfer from escrow (srt_RetryValue tx) in
              match r with
              | Err callValueErr =>
                  let* _ := transfer networkFeeAccount from submissionFee in
                  let* _ := transfer from (srt_FeeRefundAddr tx) withheldSubmissionFee in
                  ends callValueErr
              | Panic s => panic s
              | Ok _ =>
                  submitTicket p ctx evm utx tx networkFeeAccount availableRefund withheldSubmissionFee submissionFee
              end
          end
    end.

(** [core.Transfer] of go-ethereum moves the value. *)
Definition core_Transfer (from to amount : Z) (d : DB) : DB := AddBalance (SubBalance d from amount) to amount.

(** [types.ArbitrumRetryTx]: the call value leaves the escrow, and the gas that the
    redeemer paid for is credited. *)
Definition startRetryTx (p : TxProcessor) (ctx : TxContext) (tx : ArbitrumRetryTx) : M (StartTxResult * TxProcessor) :=
  let escrow := RetryableEscrowAddress (art_TicketId tx) in
  let* r := attempt (TransferBalance (Some escrow) (Some (art_From tx)) (art_Value tx) (tc_evm ctx) TracingBeforeEVM "escrow") in
  match r with
  | Err err => ret (mkStartTxResult true 0 (Some err) [], p)
  | Panic s => panic s
  | Ok _ =>
      let prepaid := BigMulByUint (tc_BaseFee ctx) (art_Gas tx) in
      MintBalance (Some (art_From tx)) prepaid (tc_evm ctx) TracingBeforeEVM "prepaid" ;;;
      ret (mkStartTxResult false 0 None [], tp_set_current p (art_TicketId tx) (art_RefundTo tx))
  end.

Definition StartTxHook (p : TxProcessor) (ctx : TxContext) : M (StartTxResult * TxProcessor) :=
  let evm := tc_evm ctx in
  let msg := tp_msg p in
  match cm_Tx msg with
  | None => ret (mkStartTxResult false 0 None [], p)
  | Some utx =>
      let p := tp_set_topType p (tx_Type (tx_Raw utx)) in
      match tx_Inner utx with
      | InnerDeposit =>
          match cm_To msg with
          | None => ret (mkStartTxResult true 0 (Some (ErrNew "eth deposit has no To address")) [], p)
          | Some to =>
              MintBalance (Some (cm_From msg)) (cm_Value msg) evm TracingBeforeEVM "deposit" ;;;
              let* (p, evm) := startTracer p evm in
              db_write (core_Transfer (cm_From msg) to (cm_Value msg)) ;;;
              let* p := endTracer p evm in
              ret (mkStartTxResult true 0 None [], p)
          end
      | InnerInternal tx =>
          let* (p, evm) := startTracer p evm in
          if negb (cm_From msg =? ArbosAddress) then
            let* p := endTracer p evm in
            ret (mkStartTxResult false 0 (Some (ErrNew "internal tx not from arbAddress")) [], p)
          else
            let* (state, err) := ApplyInternalTxUpdate tx (tp_state p) (tc_block ctx) evm in
            let* p := endTracer (tp_set_state p state) evm in
            ret (mkStartTxResult true 0 err [], p)
      | InnerSubmitRetryable tx =>
          let* (p, evm) := startTracer p evm in
          let* r := submitRetryable p ctx evm utx tx in
          let* p := endTracer p evm in
          ret (r, p)
      | InnerRetry tx => startRetryTx p ctx tx
      | InnerOther => ret (mkStartTxResult false 0 None [], p)
      end
  end.

(** ** Charging for calldata *)

Definition GetPosterGas (state : ArbosState) (baseFee : Z) (runMode : MessageRunMode) (posterCost : Z) : M Z :=
  let* (baseFee, posterCost) :=
    if isGasEstimationMode runMode then
      let* minGasPrice := attempt (MinBaseFeeWei (as_l2PricingState state)) in
      match minGasPrice with
      | Ok minGasPrice =>
          let* adjustedPrice := lift (BigMulByFrac baseFee 7 8) in
          let adjustedPrice := if BigLessThan adjustedPrice minGasPrice then minGasPrice else adjustedPrice in
          let* posterCost := lift (BigMulByBips posterCost GasEstimationL1PricePadding) in
          ret (adjustedPrice, posterCost)
      | _ => panic "nil pointer dereference"
      end
    else ret (baseFee, posterCost) in
  let* gas := lift (BigDiv posterCost baseFee) in
  ret (BigToUintSaturating gas).

Definition chargeL1 (msg : CoreMessage) : CoreMessage :=
  mkCoreMessage (cm_Tx msg) (cm_From msg) (cm_To msg) (cm_Nonce msg) (cm_Value msg) (cm_GasLimit msg) (cm_GasPrice msg)
    (cm_GasFeeCap msg) (cm_GasTipCap msg) (cm_Data msg) (cm_AccessList msg) (cm_TxRunMode msg) false.

(** The recipient of the tip, the error, the gas that remains, the processor. *)
Definition GasChargingHook (p : TxProcessor) (ctx : TxContext) (gasRemaining : Z)
    : M (Z * option error * Z * TxProcessor) :=
  let state := tp_state p in
  let* tipReceipient := value_or 0 (NetworkFeeAccount state) in
  let basefee := tc_BaseFee ctx in
  let runMode := cm_TxRunMode (tp_msg p) in
  let poster := if isCommitMode runMode then tc_Coinbase ctx else BatchPosterAddress in
  let p := if isCommitMode runMode then tp_set_msg p (chargeL1 (tp_msg p)) else p in
  let* charged :=
    if (0 <? basefee) && negb (cm_SkipL1Charging (tp_msg p)) then
      let* level := attempt (BrotliCompressionLevel state) in
      match level with
      | Err e => ret (Err (ErrWrap "failed to get brotli compression level" e))
      | Panic s => panic s
      | Ok level =>
          let* (posterCost, calldataUnits) := PosterDataCost (as_l1PricingState state) (pricerMessage (tp_msg p)) poster level in
          (if 0 <? calldataUnits then restricted (AddToUnitsSinceUpdate (as_l1PricingState state) calldataUnits) else ret tt) ;;;
          let* posterGas := GetPosterGas state basefee runMode posterCost in
          ret (Ok (tp_set_poster p (BigMulByUint basefee posterGas) posterGas, posterGas))
      end
    else ret (Ok (p, 0)) in
  match charged with
  | Err e => ret (0, Some e, gasRemaining, p)
  | Panic s => panic s
  | Ok (p, gasNeededToStartEVM) =>
      if gasRemaining <? gasNeededToStartEVM then ret (tipReceipient, Some (ErrNew "intrinsic gas too low"), gasRemaining, p)
      else
        let gasRemaining := gasRemaining -u64 gasNeededToStartEVM in
        if negb (isEthcallMode runMode) then
          let* gasAvailable := value_or 0 (PerBlockGasLimit (as_l2PricingState state)) in
          if gasAvailable <? gasRemaining
          then ret (tipReceipient, None, gasAvailable, tp_set_hold p (gasRemaining -u64 gasAvailable))
          else ret (tipReceipient, None, gasRemaining, p)
        else ret (tipReceipient, None, gasRemaining, p)
  end.

Definition RunMode (p : TxProcessor) : MessageRunMode := cm_TxRunMode (tp_msg p).
Definition NonrefundableGas (p : TxProcessor) : Z := tp_posterGas p.
Definition ForceRefundGas (p : TxProcessor) : Z := tp_computeHoldGas p.

(** ** The end of a transaction *)

(** The closure [refund] of [EndTxHook]: to the refund address as far as the
    deposit reaches, the rest to the sender. What is left of the deposit. *)
Definition refund (evm : EVM) (inner : ArbitrumRetryTx) (maxRefund refundFrom amount : Z) : M Z :=
  let* (toRefundAddr, maxRefund) := lift (takeFunds maxRefund amount) in
  ignore (TransferBalance (Some refundFrom) (Some (art_RefundTo inner)) toRefundAddr evm TracingAfterEVM "refund") ;;;
  ignore (TransferBalance (Some refundFrom) (Some (art_From inner)) (BigSub amount toRefundAddr) evm TracingAfterEVM "refund") ;;;
  ret maxRefund.

(** The end of a redeem. *)
Definition endRetryTx (p : TxProcessor) (ctx : TxContext) (inner : ArbitrumRetryTx) (networkFeeAccount gasLeft gasUsed : Z)
    (success : bool) : M unit :=
  let evm := tc_evm ctx in
  let state := tp_state p in
  let effectiveBaseFee :=
    if isCommitMode (cm_TxRunMode (tp_msg p)) && negb (art_GasFeeCap inner =? tc_BaseFee ctx)
    then tc_BaseFee ctx else art_GasFeeCap inner in
  let gasRefund := BigMulByUint effectiveBaseFee gasLeft in
  ignore (BurnBalance (Some (art_From inner)) gasRefund evm TracingAfterEVM "undoRefund") ;;;
  let maxRefund := art_MaxRefund inner in
  let* maxRefund :=
    if success then refund evm inner maxRefund networkFeeAccount (art_SubmissionFeeRefund inner)
    else
      let* (_, maxRefund) := lift (takeFunds maxRefund (art_SubmissionFeeRefund inner)) in
      ret maxRefund in
  let* (_, maxRefund) := lift (takeFunds maxRefund (BigMulByUint effectiveBaseFee gasUsed)) in
  let networkRefund := gasRefund in
  let* (networkRefund, maxRefund) :=
    if 11 <=? as_arbosVersion state then
      let* infraFeeAccount := restricted_value 0 (InfraFeeAccount state) in
      if negb (infraFeeAccount =? 0) then
        let* minBaseFee := minBaseFeeWei state in
        let infraFee := BigMin minBaseFee effectiveBaseFee in
        let infraRefund := BigMulByUint infraFee gasLeft in
        let* (infraRefund, networkRefund) := lift (takeFunds networkRefund infraRefund) in
        let* maxRefund := refund evm inner maxRefund infraFeeAccount infraRefund in
        ret (networkRefund, maxRefund)
      else ret (networkRefund, maxRefund)
    else ret (networkRefund, maxRefund) in
  let* _ := refund evm inner maxRefund networkFeeAccount networkRefund in
  (if success then
     let* state := OpenSystemArbosStateOrPanic in
     ignore (DeleteRetryable (as_retryableState state) (art_TicketId inner) evm TracingAfterEVM)
   else
     let escrow := RetryableEscrowAddress (art_TicketId inner) in
     let* r := attempt (TransferBalance (Some (art_From inner)) (Some escrow) (art_Value inner) evm TracingAfterEVM "escrow") in
     match r with Ok _ => ret tt | _ => panic "failed to return the callvalue to escrow" end) ;;;
  restricted (AddToGasPool (as_l2PricingState state) (i64 (- SaturatingCast 64 64 gasUsed))).

(** The end of any other transaction. *)
Definition endTx (p : TxProcessor) (ctx : TxContext) (networkFeeAccount gasUsed : Z) : M TxProcessor :=
  let evm := tc_evm ctx in
  let state := tp_state p in
  let basefee := tc_BaseFee ctx in
  let totalCost := BigMul basefee (UintToBig gasUsed) in
  let computeCost := BigSub totalCost (tp_PosterFee p) in
  let '(p, computeCost) :=
    if computeCost <? 0 then (tp_set_poster p 0 (tp_posterGas p), totalCost) else (p, computeCost) in
  let* computeCost :=
    if 4 <? as_arbosVersion state then
      let* infraFeeAccount := restricted_value 0 (InfraFeeAccount state) in
      if negb (infraFeeAccount =? 0) then
        let* minBaseFee := minBaseFeeWei state in
        let infraFee := BigMin minBaseFee basefee in
        let computeGas := SaturatingUSub 64 gasUsed (tp_posterGas p) in
        let infraComputeCost := BigMulByUint infraFee computeGas in
        MintBalance (Some infraFeeAccount) infraComputeCost evm TracingAfterEVM "feeCollection" ;;;
        ret (BigSub computeCost infraComputeCost)
      else ret computeCost
    else ret computeCost in
  (if 0 <? computeCost
   then MintBalance (Some networkFeeAccount) computeCost evm TracingAfterEVM "feeCollection" else ret tt) ;;;
  let posterFeeDestination := if as_arbosVersion state <? 2 then tc_Coinbase ctx else L1PricerFundsPoolAddress in
  MintBalance (Some posterFeeDestination) (tp_PosterFee p) evm TracingAfterEVM "feeCollection" ;;;
  (if 10 <=? as_arbosVersion state
   then ignore (AddToL1FeesAvailable (as_l1PricingState state) (tp_PosterFee p)) else ret tt) ;;;
  (if 0 <? cm_GasPrice (tp_msg p) then
     let computeGas := if tp_posterGas p <? gasUsed then gasUsed -u64 tp_posterGas p else gasUsed in
     restricted (AddToGasPool (as_l2PricingState state) (i64 (- SaturatingCast 64 64 computeGas)))
   else ret tt) ;;;
  ret p.

Definition EndTxHook (p : TxProcessor) (ctx : TxContext) (gasLeft : Z) (success : bool) : M TxProcessor :=
  let msg := tp_msg p in
  let* networkFeeAccount := value_or 0 (NetworkFeeAccount (tp_state p)) in
  if cm_GasLimit msg <? gasLeft then panic "Tx somehow refunds gas after computation"
  else
    let gasUsed := cm_GasLimit msg -u64 gasLeft in
    match cm_Tx msg with
    | Some utx =>
        if tx_Type (tx_Raw utx) =? ArbitrumRetryTxType then
          match tx_Inner utx with
          | InnerRetry inner => endRetryTx p ctx inner networkFeeAccount gasLeft gasUsed success ;;; ret p
          | _ => panic "nil pointer dereference"
          end
        else endTx p ctx networkFeeAccount gasUsed
    | None => endTx p ctx networkFeeAccount gasUsed
    end.

(** ** The redeems that the logs schedule *)

Fixpoint scheduledTxes (p : TxProcessor) (ctx : TxContext) (effectiveBaseFee : Z) (logs : list EthLog) : M (list ArbitrumRetryTx) :=
  match logs with
  | [] => ret []
  | log :: logs =>
      let skip := scheduledTxes p ctx effectiveBaseFee logs in
      if negb (log_Address log =? ArbRetryableTxAddress) then skip
      else
        match log_Topics log with
        | [] => panic "index out of range"
        | topic :: _ =>
            if negb (topic =? RedeemScheduledEventID) then skip
            else
              match ParseRedeemScheduledLog log with
              | Err _ => skip
              | Panic s => panic s
              | Ok event =>
                  let* r := attempt (OpenRetryable (as_retryableState (tp_state p)) (ev_TicketId event) (bc_Time (tc_block ctx))) in
                  match r with
                  | Ok (Some retryable) =>
                      let* redeem := attempt (MakeTx retryable (tc_ChainID ctx) (ev_SequenceNum event) effectiveBaseFee
                                       (ev_DonatedGas event) (ev_TicketId event) (ev_GasDonor event) (ev_MaxRefund event)
                                       (ev_SubmissionFeeRefund event)) in
                      match redeem with
                      | Ok redeem =>
                          let* scheduled := skip in
                          ret (redeem :: scheduled)
                      | _ => panic "nil pointer dereference"
                      end
                  | _ => skip
                  end
              end
        end
  end.

Definition ScheduledTxes (p : TxProcessor) (ctx : TxContext) : M (list ArbitrumRetryTx) :=
  let msg := tp_msg p in
  let effectiveBaseFee :=
    if negb (isCommitMode (cm_TxRunMode msg)) && (cm_GasFeeCap msg =? 0) then 0 else tc_BaseFee ctx in
  let* logs := db_read GetCurrentTxLogs in
  scheduledTxes p ctx effectiveBaseFee logs.

(** ** What the EVM asks *)

Definition TxProcessor_L1BlockNumber (p : TxProcessor) : M (Z * TxProcessor) :=
  match tp_cachedL1BlockNumber p with
  | Some blockNum => ret (blockNum, p)
  | None =>
      let* state := OpenArbosState in
      let* blockNum := L1BlockNumber (as_blockhashes state) in
      ret (blockNum, tp_set_cachedNumber p blockNum)
  end.

Definition TxProcessor_L1BlockHash (p : TxProcessor) (l1BlockNumber : Z) : M (Z * TxProcessor) :=
  match tp_cachedL1BlockHashes p !! l1BlockNumber with
  | Some hash => ret (hash, p)
  | None =>
      let* state := OpenArbosState in
      let* hash := BlockHash (as_blockhashes state) l1BlockNumber in
      ret (hash, tp_set_cachedHash p l1BlockNumber hash)
  end.

Definition DropTip (p : TxProcessor) : bool :=
  negb (as_arbosVersion (tp_state p) =? 9) || tp_delayedInbox p.

Definition GetPaidGasPrice (p : TxProcessor) (ctx : TxContext) : Z :=
  if negb (as_arbosVersion (tp_state p) =? 9) then
    if negb (isCommitMode (cm_TxRunMode (tp_msg p))) && (Z.sgn (cm_GasFeeCap (tp_msg p)) =? 0) then 0 else tc_BaseFee ctx
  else tc_GasPrice ctx.

Definition GasPriceOp (p : TxProcessor) (ctx : TxContext) : Z :=
  if 3 <=? as_arbosVersion (tp_state p) then GetPaidGasPrice p ctx else tc_GasPrice ctx.

Definition MsgIsNonMutating (p : TxProcessor) : bool :=
  isGasEstimationMode (cm_TxRunMode (tp_msg p)) || isEthcallMode (cm_TxRunMode (tp_msg p)).

(** The number of the L1 block is read again if it is asked for later. *)
Definition ExecuteWASM {SE : StylusEnv E} (p : TxProcessor) (contract : Contract) (ec : EvmContext) (tracing : bool)
    (input : list Z) (gas : Z) : M (list Z * option error * Z) :=
  let acting := ct_Address contract in
  let reentrant := 1 <? default 0 (tp_Programs p !! acting) in
  CallProgram (as_programs (tp_state p)) contract ec
    (let* (number, _) := TxProcessor_L1BlockNumber p in ret number) tracing input reentrant gas.
End TxProcessor.
