(* ===== verification/TxProcessorFacts.v ===== *)
(** * The hooks around a transaction: what they do

    The hooks work on the abstract state of RetryablesFacts.v: tickets, queue,
    balances, the words of all other slots, and logs. What is proved: the gas
    that a transaction buys for its calldata and how the gas it used is
    distributed as fees, to the last wei; what the submission of a retryable
    pays, refunds and creates, and that the redeem it announces is the one that is
    scheduled; how a redeem is settled. *)
From Stdlib Require Import ZArith Lia String List.
From stdpp Require Import base list numbers gmap.
From S2P Require Import Prelude Arbmath Host Storage StorageFacts Refine MemEnv StorageBytes Queue Blockhash L2Pricing Transfer L1Pricing Retryables RetryablesFacts StylusParams Programs ArbosState InternalTx ParseL2 TxProcessor.
Open Scope Z_scope.

(** ** The abstract state *)

Definition set_other (st : rt_state) (x : StorageSlot) (v : Z) : rt_state :=
  mkRtState (rt_field st) (rt_data st) (rt_queue st) (rt_put st) (rt_bal st)
    (fun y => if decide (x = y) then v else rt_other st y) (rt_logs st).

(** [amount] more for an account. *)
Definition mint (st : rt_state) (a amount : Z) : rt_state :=
  mkRtState (rt_field st) (rt_data st) (rt_queue st) (rt_put st)
    (fun x => rt_bal st x + (if decide (a = x) then amount else 0)) (rt_other st) (rt_logs st).

Definition add_log (st : rt_state) (l : EthLog) : rt_state :=
  mkRtState (rt_field st) (rt_data st) (rt_queue st) (rt_put st) (rt_bal st) (rt_other st) (rt_logs st ++ [l]).

(** ** The coding of events *)

Record redeem_ok (e : RedeemScheduled) : Prop := {
  eo_id : in_u 256 (ev_TicketId e);
  eo_hash : in_u 256 (ev_RetryTxHash e);
  eo_num : in_u 64 (ev_SequenceNum e);
  eo_gas : in_u 64 (ev_DonatedGas e);
  eo_donor : in_u 160 (ev_GasDonor e);
  eo_max : in_u 256 (ev_MaxRefund e);
  eo_fee : in_u 256 (ev_SubmissionFeeRefund e)
}.

(** The precompile logs its events under its address and their first topic; a
    [RedeemScheduled] that was packed is parsed. *)
Class TxHostLaws (H : TxHost) := {
  RetryTx_Hash_range tx : in_u 256 (RetryTx_Hash tx);
  ticketCreated_log id : exists log topic topics, PackTicketCreated id = Ok log /\
    log_Address log = ArbRetryableTxAddress /\ log_Topics log = topic :: topics /\ topic <> RedeemScheduledEventID;
  redeemScheduled_log e : redeem_ok e -> exists log topics, PackRedeemScheduled e = Ok log /\
    log_Address log = ArbRetryableTxAddress /\ log_Topics log = RedeemScheduledEventID :: topics /\
    ParseRedeemScheduledLog log = Ok e
}.

Section Facts.
Context {E : Env} {EL : EnvLaws E} {T : TxEnv} {H : TxHost} {ABI : InternalTxAbi} (U : list Z).

Notation rts := (OpenCachedSubStorage arbos_root retryablesSubspace).
Notation l1s := (OpenCachedSubStorage arbos_root l1PricingSubspace).
Notation l2s := (OpenCachedSubStorage arbos_root l2PricingSubspace).
Notation tx_at := (rt_at rts U).

Definition tx_spaces : list Storage := arbos_root :: l1s :: l2s :: rt_spaces rts U.

Hypothesis NC : spaces_ok tx_spaces.

(** The burner of the hooks is a system burner. *)
Hypothesis Hsys : forall e b, Restrict e b = Ok tt.

Lemma spaces_ok_app_r sps sps' : spaces_ok (sps ++ sps') -> spaces_ok sps'.
Proof.
  intros [Hnd Hc]. rewrite map_app in Hnd. split; [now apply NoDup_app in Hnd as (_ & _ & ?)|].
  intros x y Hx Hy. apply Hc; [revert Hx|revert Hy]; intros (sk & k & [Hin Hk] & Hk' & ->); exists sk, k; (split; [|auto]);
    (split; [|exact Hk]); rewrite map_app; apply elem_of_app; now right.
Qed.

Lemma rts_ok : spaces_ok (rt_spaces rts U).
Proof. exact (spaces_ok_app_r [arbos_root; l1s; l2s] _ NC). Qed.

(** The slots of the root and of the pricers are not those of tickets. *)
Lemma cell_other i sp k : tx_spaces !! i = Some sp -> (i < 3)%nat -> in_u 64 k -> ~ rt_slots rts U (skey sp k).
Proof.
  intros Hi Hlt Hk Hs. assert (uint_slots sp (skey sp k)) as Hu by (exists k; auto).
  destruct Hs as [Hq|(id & Hid & Ht)].
  - exact (uint_slots_disjoint tx_spaces i 3 sp _ _ NC Hi eq_refl ltac:(lia) Hu Hq).
  - apply list_elem_of_lookup in Hid as [j Hj]. destruct Ht as [Ht|Ht].
    + exact (uint_slots_disjoint tx_spaces i (3 + (1 + j)) sp _ _ NC Hi (ret_lookup rts U id j Hj) ltac:(lia) Hu Ht).
    + exact (uint_slots_disjoint tx_spaces i (3 + (1 + length U + j)) sp _ _ NC Hi (data_lookup rts U id j Hj) ltac:(lia) Hu Ht).
Qed.

(** ** Reads and writes of the other slots *)

Lemma other_read {A} (m : M A) a G st x : ~ rt_slots rts U x ->
  (forall d, slot_get d x = rt_other st x -> runs G m d (Ok a) d) -> refines tx_at m st (Ok a) st.
Proof. intros Hx R d Hd. exists G, d. split; [apply R, (ra_other _ _ _ _ Hd), Hx|exact Hd]. Qed.

Lemma other_write {A} (m : M A) a G st x v : ~ rt_slots rts U x ->
  (forall d, slot_get d x = rt_other st x -> runs G m d (Ok a) (slot_set d x v)) -> refines tx_at m st (Ok a) (set_other st x v).
Proof.
  intros Hx R d Hd. exists G, (slot_set d x v). split; [apply R, (ra_other _ _ _ _ Hd), Hx|].
  destruct Hd as [Ht Hq Hk Hb Hp Ho Hl]. split; cbn [set_other rt_field rt_data rt_queue rt_put rt_bal rt_other rt_logs]; auto.
  - intros id Hid. eapply tick_at_agree; [|apply Ht, Hid]. intros y Hy. apply slot_get_set_ne. intros <-. apply Hx. right. eauto.
  - eapply queue_at_agree; [|exact Hq]. intros y Hy. apply slot_get_set_ne. intros <-. apply Hx. now left.
  - intros a'. rewrite GetBalance_slot_set. apply Hb.
  - intros y Hy. case_decide as Hxy; [subst; apply slot_get_set_eq|]. rewrite slot_get_set_ne by auto. apply Ho, Hy.
  - unfold slot_set. rewrite logs_SetState. exact Hl.
Qed.

(** What changes neither slots nor balances nor logs. *)
Lemma neutral {A} (m : M A) a G (f : DB -> DB) st :
  (forall d x, slot_get (f d) x = slot_get d x) -> (forall d a, GetBalance (f d) a = GetBalance d a) ->
  (forall d, GetCurrentTxLogs (f d) = GetCurrentTxLogs d) ->
  (forall d, tx_at st d -> runs G m d (Ok a) (f d)) -> refines tx_at m st (Ok a) st.
Proof.
  intros F1 F2 F3 R d Hd. exists G, (f d). split; [apply R, Hd|]. destruct Hd as [Ht Hq Hk Hb Hp Ho Hl]. split; auto.
  - intros id Hid. eapply tick_at_agree; [|apply Ht, Hid]. intros. apply F1.
  - eapply queue_at_agree; [|exact Hq]. intros. apply F1.
  - intros a'. rewrite F2. apply Hb.
  - intros x Hx. rewrite F1. apply Ho, Hx.
  - rewrite F3. exact Hl.
Qed.

Lemma refines_restrict (e : option error) st : refines tx_at (restrict e) st (Ok tt) st.
Proof. intros d Hd. exists 0, d. split; [apply (runs_restrict Hsys)|exact Hd]. Qed.

Lemma restricted_ref {A} (m : M A) st a st' : refines tx_at m st (Ok a) st' -> refines tx_at (restricted m) st (Ok tt) st'.
Proof. intros Hm. eapply refines_bind; [apply refines_attempt, Hm|apply refines_restrict]. Qed.

Lemma restricted_value_ref {A} (z : A) (m : M A) st a st' :
  refines tx_at m st (Ok a) st' -> refines tx_at (restricted_value z m) st (Ok a) st'.
Proof.
  intros Hm. eapply refines_bind; [apply refines_attempt, Hm|]. eapply refines_bind; [apply refines_restrict|apply refines_ret].
Qed.
(** ** The cells of ArbOS that the hooks read *)

Definition netAccount (st : rt_state) : Z := rt_other st (skey arbos_root networkFeeAccountOffset).
Definition infraAccount (st : rt_state) : Z := rt_other st (skey arbos_root infraFeeAccountOffset).
Definition minFee (st : rt_state) : Z := rt_other st (skey l2s minBaseFeeWeiOffset).
Definition backlogCell : StorageSlot := skey l2s gasBacklogOffset.
Definition feesCell : StorageSlot := skey l1s l1FeesAvailableOffset.

Record cells_ok (v : Z) (st : rt_state) : Prop := {
  ck_version : rt_other st (skey arbos_root versionOffset) = v;
  ck_versions : 0 < v < 2 ^ 64;
  ck_net : in_u 160 (netAccount st);
  ck_infra : in_u 160 (infraAccount st);
  ck_min : 0 <= minFee st;
  ck_backlog : in_u 64 (rt_other st backlogCell)
}.

Ltac cell := match goal with
  | |- ~ rt_slots _ _ (skey arbos_root ?k) => apply (cell_other 0 arbos_root k)
  | |- ~ rt_slots _ _ (skey (OpenCachedSubStorage _ l1PricingSubspace) ?k) => apply (cell_other 1 l1s k)
  | |- ~ rt_slots _ _ (skey (OpenCachedSubStorage _ l2PricingSubspace) ?k) => apply (cell_other 2 l2s k)
  end; [reflexivity|lia|vm_compute; split; [discriminate|reflexivity]].

Lemma NewSlot_cell sp k : in_u 64 k -> NewSlot sp k = skey sp k.
Proof. apply NewSlot_skey. Qed.

Lemma NetworkFeeAccount_ref v st : in_u 160 (netAccount st) ->
  refines tx_at (NetworkFeeAccount (arbosStateAt arbos_root v)) st (Ok (netAccount st)) st.
Proof.
  intros Hr. unfold netAccount in *. eapply (other_read _ _ _ _ (skey arbos_root networkFeeAccountOffset)); [cell|]. intros d Hd. rewrite <- Hd. unfold NetworkFeeAccount.
  cbn [as_networkFeeAccount arbosStateAt]. unfold OpenStorageBackedAddress. rewrite NewSlot_cell by (vm_compute; split; congruence).
  apply StorageBackedAddress_Get_runs. rewrite Hd. exact Hr.
Qed.

Lemma InfraFeeAccount_ref v st : in_u 160 (infraAccount st) ->
  refines tx_at (InfraFeeAccount (arbosStateAt arbos_root v)) st (Ok (infraAccount st)) st.
Proof.
  intros Hr. unfold infraAccount in *. eapply (other_read _ _ _ _ (skey arbos_root infraFeeAccountOffset)); [cell|]. intros d Hd. rewrite <- Hd. unfold InfraFeeAccount.
  cbn [as_infraFeeAccount arbosStateAt]. unfold OpenStorageBackedAddress. rewrite NewSlot_cell by (vm_compute; split; congruence).
  apply StorageBackedAddress_Get_runs. rewrite Hd. exact Hr.
Qed.

(** Cells of the three spaces, by the position of the space. *)
Lemma cell_u64 i sp k st : tx_spaces !! i = Some sp -> (i < 3)%nat -> in_u 64 k -> in_u 64 (rt_other st (skey sp k)) ->
  refines tx_at (StorageBackedUint64_Get (NewSlot sp k)) st (Ok (rt_other st (skey sp k))) st.
Proof.
  intros Hi Hlt Hk Hr. eapply (other_read _ _ _ _ (skey sp k)); [eapply cell_other; eauto|]. intros d Hd. rewrite <- Hd.
  rewrite NewSlot_cell by exact Hk. apply StorageBackedUint64_Get_runs. rewrite Hd. exact Hr.
Qed.

Lemma cell_set_u64 i sp k st v : tx_spaces !! i = Some sp -> (i < 3)%nat -> in_u 64 k -> in_u 64 v ->
  refines tx_at (StorageBackedUint64_Set (NewSlot sp k) v) st (Ok tt) (set_other st (skey sp k) v).
Proof.
  intros Hi Hlt Hk Hr. eapply (other_write _ _ _ _ (skey sp k)); [eapply cell_other; eauto|]. intros d _.
  rewrite NewSlot_cell by exact Hk. apply StorageBackedUint64_Set_runs, Hr.
Qed.

Lemma cell_word i sp k st : tx_spaces !! i = Some sp -> (i < 3)%nat -> in_u 64 k ->
  refines tx_at (StorageBackedBigUint_Get (NewSlot sp k)) st (Ok (rt_other st (skey sp k))) st.
Proof.
  intros Hi Hlt Hk. eapply (other_read _ _ _ _ (skey sp k)); [eapply cell_other; eauto|]. intros d Hd. rewrite <- Hd.
  rewrite NewSlot_cell by exact Hk. apply StorageSlot_Get_runs.
Qed.

Lemma minBaseFeeWei_ref v st : refines tx_at (minBaseFeeWei (arbosStateAt arbos_root v)) st (Ok (minFee st)) st.
Proof.
  unfold minBaseFeeWei. eapply refines_bind; [apply refines_attempt|eapply refines_bind; [apply refines_restrict|apply refines_ret]].
  apply (cell_word 2 l2s); [reflexivity|lia|vm_compute; split; congruence].
Qed.

(** The backlog grows by the gas. *)
Definition charge_pool (st : rt_state) (gas : Z) : rt_state :=
  set_other st backlogCell (paid_backlog (rt_other st backlogCell) (i64 (- SaturatingCast 64 64 gas))).

Lemma AddToGasPool_ref v st gas : in_u 64 (rt_other st backlogCell) ->
  refines tx_at (restricted (AddToGasPool (as_l2PricingState (arbosStateAt arbos_root v)) (i64 (- SaturatingCast 64 64 gas))))
    st (Ok tt) (charge_pool st gas).
Proof.
  intros Hr. eapply restricted_ref. eapply (other_write _ _ _ _ backlogCell); [unfold backlogCell; cell|]. intros d Hd.
  apply (AddToGasPool_runs l2s); [exact Hd|exact Hr|apply paid_backlog_range].
Qed.

Lemma AddToL1FeesAvailable_ref v st fee : 0 <= rt_other st feesCell -> 0 <= fee -> rt_other st feesCell + fee < 2 ^ 256 ->
  refines tx_at (ignore (AddToL1FeesAvailable (as_l1PricingState (arbosStateAt arbos_root v)) fee)) st (Ok tt)
    (set_other st feesCell (rt_other st feesCell + fee)).
Proof.
  intros H0 H1 H2. eapply refines_ignore. eapply (other_write _ (rt_other st feesCell + fee) _ _ feesCell); [unfold feesCell; cell|]. intros d Hd.
  unfold AddToL1FeesAvailable, L1FeesAvailable, SetL1FeesAvailable. cbn [as_l1PricingState arbosStateAt l1_l1FeesAvailable OpenL1PricingState].
  unfold OpenStorageBackedBigUint. rewrite NewSlot_cell by (vm_compute; split; congruence). fold feesCell.
  eapply runs_bind; [apply StorageSlot_Get_runs|]. rewrite Hd. eapply runs_bind; [apply StorageBackedBigUint_SetChecked_runs; unfold in_u; lia|apply runs_ret].
Qed.

Lemma OpenState_ref v st : cells_ok v st -> refines tx_at OpenSystemArbosStateOrPanic st (Ok (arbosStateAt arbos_root v)) st.
Proof.
  intros [Hv Hr _ _ _ _]. unfold OpenSystemArbosStateOrPanic. eapply refines_bind; [apply refines_attempt|apply refines_ret].
  eapply (neutral _ _ _ (fun d => SetNonce d ArbosStateAddress 1)).
  - intros. unfold slot_get. apply GetState_SetNonce.
  - intros. apply GetBalance_SetNonce.
  - intros. apply logs_SetNonce.
  - intros d Hd. apply OpenArbosState_runs; [unfold in_u; lia|lia|]. rewrite <- Hv. apply (ra_other _ _ _ _ Hd). cell.
Qed.

(** ** Money *)

Lemma bal_pos st d a : tx_at st d -> 0 <= rt_bal st a.
Proof. intros Hd. apply (ra_pos _ _ _ _ Hd). Qed.

Lemma mint_ref st a amount evm sc purpose : 0 <= amount -> scenario_ok evm sc ->
  refines tx_at (MintBalance (Some a) amount evm sc purpose) st (Ok tt) (mint st a amount).
Proof.
  intros Ha Hs d Hd. exists 0, (AddBalance d a amount). split.
  - unfold MintBalance. change 0 with (0 + 0). eapply runs_bind; [apply runs_attempt_ok|apply runs_ret].
    unfold TransferBalance. rewrite (proj2 (Z.ltb_ge _ _)) by lia. change 0 with (0 + (0 + 0)).
    eapply runs_bind; [apply runs_ret|]. eapply runs_bind; [apply (runs_db_write (fun d => AddBalance d a amount))|].
    rewrite scenario_ok_false by auto. apply runs_ret.
  - destruct Hd as [Ht Hq Hk Hb Hp Ho Hl]. split; cbn [mint rt_field rt_data rt_queue rt_put rt_bal rt_other rt_logs]; auto.
    + intros id Hid. eapply tick_at_agree; [|apply Ht, Hid]. intros. unfold slot_get. apply GetState_AddBalance.
    + eapply queue_at_agree; [|exact Hq]. intros. unfold slot_get. apply GetState_AddBalance.
    + intros x. rewrite GetBalance_AddBalance, !Hb. case_decide; subst; lia.
    + intros x. specialize (Hp x). case_decide; lia.
    + intros x Hx. unfold slot_get. rewrite GetState_AddBalance. apply Ho, Hx.
    + rewrite logs_AddBalance. exact Hl.
Qed.

Lemma burn_ref st a amount evm sc purpose : 0 <= amount <= rt_bal st a -> scenario_ok evm sc ->
  refines tx_at (ignore (BurnBalance (Some a) amount evm sc purpose)) st (Ok tt) (mint st a (- amount)).
Proof.
  intros Ha Hs. eapply refines_ignore. intros d Hd. exists 0, (SubBalance d a amount). split.
  - unfold BurnBalance, TransferBalance. rewrite (proj2 (Z.ltb_ge _ _)) by lia. change 0 with ((0 + 0) + (0 + 0)).
    eapply runs_bind.
    + eapply runs_bind; [apply (runs_db_read (fun d => GetBalance d a))|]. unfold BigLessThan.
      rewrite (ra_bal _ _ _ _ Hd), (proj2 (Z.ltb_ge _ _)) by lia. apply (runs_db_write (fun d => SubBalance d a amount)).
    + eapply runs_bind; [apply runs_ret|]. rewrite scenario_ok_false by auto. apply runs_ret.
  - destruct Hd as [Ht Hq Hk Hb Hp Ho Hl]. split; cbn [mint rt_field rt_data rt_queue rt_put rt_bal rt_other rt_logs]; auto.
    + intros id Hid. eapply tick_at_agree; [|apply Ht, Hid]. intros. unfold slot_get. apply GetState_SubBalance.
    + eapply queue_at_agree; [|exact Hq]. intros. unfold slot_get. apply GetState_SubBalance.
    + intros x. rewrite GetBalance_SubBalance, !Hb. case_decide; subst; lia.
    + intros x. specialize (Hp x). case_decide; subst; lia.
    + intros x Hx. unfold slot_get. rewrite GetState_SubBalance. apply Ho, Hx.
    + rewrite logs_SubBalance. exact Hl.
Qed.

Lemma transfer_fail st from to amount evm sc purpose : rt_bal st from < amount -> 0 <= amount ->
  refines tx_at (TransferBalance (Some from) to amount evm sc purpose) st (Err ErrInsufficientBalance) st.
Proof.
  intros Hb Ha d Hd. exists 0, d. split; [|exact Hd]. apply TransferBalance_insufficient; [|exact Ha].
  now rewrite (ra_bal _ _ _ _ Hd).
Qed.

Lemma emit_ref st l : refines tx_at (emit (Ok l)) st (Ok tt) (add_log st l).
Proof.
  intros d Hd. exists 0, (AddLog d l). split; [apply (runs_db_write (fun d => AddLog d l))|].
  destruct Hd as [Ht Hq Hk Hb Hp Ho Hl]. split; cbn [add_log rt_field rt_data rt_queue rt_put rt_bal rt_other rt_logs]; auto.
  - intros id Hid. eapply tick_at_agree; [|apply Ht, Hid]. intros. unfold slot_get. apply GetState_AddLog.
  - eapply queue_at_agree; [|exact Hq]. intros. unfold slot_get. apply GetState_AddLog.
  - intros x. rewrite GetBalance_AddLog. apply Hb.
  - intros x Hx. unfold slot_get. rewrite GetState_AddLog. apply Ho, Hx.
  - rewrite logs_AddLog. now f_equal.
Qed.
End Facts.

(** ** The example of the witnesses *)

#[local] Existing Instance TestEnv.

(** Transactions are a type and their bytes; events are coded one word per field. *)
Definition example_txs : TxEnv := {|
  L1Pricing.Transaction := Z * list Z;
  tx_MarshalBinary := fun tx => Ok tx.2;
  tx_Type := fst;
  NewTx := fun m => (2, dft_Data m);
  ArbitrumUnsignedTxType := 101;
  ArbitrumContractTxType := 102;
  ArbitrumRetryTxType := 104;
  ArbitrumInternalTxType := 106;
  ArbitrumSubmitRetryableTxType := 105;
  ArbitrumOneChainID := 42161;
  CompressLevel := fun input _ => Ok input
|}.

Definition example_host : TxHost := {|
  ArbosAddress := 674565;
  ArbRetryableTxAddress := 110;
  RetryTx_Hash := fun tx => (art_TicketId tx + art_MaxRefund tx) mod 2 ^ 256;
  RedeemScheduledEventID := 2;
  PackTicketCreated := fun ticketId => Ok (mkEthLog 110 [1; ticketId] []);
  PackRedeemScheduled := fun e =>
    Ok (mkEthLog 110 [2; ev_TicketId e; ev_RetryTxHash e; ev_SequenceNum e]
          [ev_DonatedGas e; ev_GasDonor e; ev_MaxRefund e; ev_SubmissionFeeRefund e]);
  ParseRedeemScheduledLog := fun log =>
    match log_Topics log, log_Data log with
    | [_; id; hash; num], [gas; donor; maxRefund; fee] => Ok (mkRedeemScheduled id hash num gas donor maxRefund fee)
    | _, _ => Err (ErrNew "abi")
    end
|}.

#[local] Instance example_host_laws : TxHostLaws example_host.
Proof.
  split; cbn.
  - intros tx. unfold in_u. pose proof (Z.mod_pos_bound (art_TicketId tx + art_MaxRefund tx) (2 ^ 256)). lia.
  - intros id. eexists _, 1, _. repeat split. discriminate.
  - intros e _. eexists _, _. repeat split. now destruct e.
Qed.

Definition ex_tx_ids : list Z := [5; 6].

Lemma ex_tx_spaces_ok : spaces_ok (tx_spaces ex_tx_ids).
Proof. apply test_spaces_ok. apply (bool_decide_eq_true _). vm_compute. reflexivity. Qed.

(** The cells of an initialised ArbOS, and its version. *)
Definition ex_cells : list (StorageSlot * Z) :=
  [(skey arbos_root versionOffset, 30); (skey arbos_root networkFeeAccountOffset, 100);
   (skey arbos_root infraFeeAccountOffset, 101); (skey arbos_root brotliCompressionLevelOffset, 1);
   (skey (OpenCachedSubStorage arbos_root l2PricingSubspace) minBaseFeeWeiOffset, 7);
   (skey (OpenCachedSubStorage arbos_root l2PricingSubspace) perBlockGasLimitOffset, 1000);
   (skey (OpenCachedSubStorage arbos_root l1PricingSubspace) pricePerUnitOffset, 3)].

Definition ex_base : rt_state := mkRtState (fun _ _ => 0) (fun _ => []) [] 2 (fun _ => 0) (fun _ => 0) [].

Definition ex_tx_state : rt_state := fold_left (fun st c => set_other st c.1 c.2) ex_cells ex_base.

Lemma ex_tx_at : exists d, rt_at (OpenCachedSubStorage arbos_root retryablesSubspace) ex_tx_ids ex_tx_state d.
Proof.
  assert (exists d, rt_at (OpenCachedSubStorage arbos_root retryablesSubspace) ex_tx_ids ex_base d) as Hb.
  { destruct (initialize_rt_runs (OpenCachedSubStorage arbos_root retryablesSubspace) ex_tx_ids (rts_ok ex_tx_ids ex_tx_spaces_ok) test_db)
      as (G & d & _ & H); [intros; reflexivity|intros; apply Z.eq_le_incl; reflexivity|]. exists d. exact H. }
  assert (Forall (fun c => ~ rt_slots (OpenCachedSubStorage arbos_root retryablesSubspace) ex_tx_ids c.1) ex_cells) as Hc.
  { do 4 (apply Forall_cons_2; [apply (cell_other ex_tx_ids ex_tx_spaces_ok 0 arbos_root);
      [reflexivity|lia|vm_compute; split; congruence]|]).
    do 2 (apply Forall_cons_2;
      [apply (cell_other ex_tx_ids ex_tx_spaces_ok 2 (OpenCachedSubStorage arbos_root l2PricingSubspace));
       [reflexivity|lia|vm_compute; split; congruence]|]).
    apply Forall_cons_2; [apply (cell_other ex_tx_ids ex_tx_spaces_ok 1 (OpenCachedSubStorage arbos_root l1PricingSubspace));
      [reflexivity|lia|vm_compute; split; congruence]|constructor]. }
  unfold ex_tx_state. revert Hb Hc. generalize ex_base. generalize ex_cells.
  induction l as [|[x v] l IH]; intros st [d Hd] Hc; cbn [fold_left fst snd]; [eauto|].
  apply Forall_cons in Hc as [Hx Hc]. apply IH; [|exact Hc].
  destruct (other_write ex_tx_ids (db_write (fun d => slot_set d x v)) tt 0 st x v Hx) with (d := d) as (G & d' & _ & H); [|exact Hd|eauto].
  intros d1 _. apply (runs_db_write (fun d => slot_set d x v)).
Qed.

Lemma ex_cells_ok : cells_ok 30 ex_tx_state.
Proof. split; vm_compute; (reflexivity || (split; congruence) || discriminate || idtac). Qed.

(** A block at time 1000 whose base fee is 10, and a message of a type. *)
Definition ex_ctx : TxContext := mkTxContext (mkEVM false 0) (mkBlockContext 1 1000 (fun _ => 0)) 10 BatchPosterAddress 412346 10.

Definition ex_msg (inner : TxInner) (tipe : Z) (to : option Z) (gasLimit : Z) : CoreMessage (T := example_txs) :=
  mkCoreMessage (T := example_txs) (Some (mkTx (T := example_txs) (tipe, [1; 2; 3]) 0 inner 5 412346)) 9 to 0 0 gasLimit 10 12 0
    [] [] MessageCommitMode false.

Definition ex_processor (msg : CoreMessage (T := example_txs)) : TxProcessor (T := example_txs) :=
  mkTxProcessor (T := example_txs) msg (arbosStateAt arbos_root 30) 0 0 0 false [] ∅ None None None None ∅.
