(* ===== verification/TxFees.v ===== *)
(** * The fees of a transaction

    What [GasChargingHook] and [EndTxHook] of arbos/tx_processor.go do to a
    transaction that is not a redeem: the gas it buys for its calldata, the gas
    that is left for its execution, and who is paid for the gas it used. *)
From Stdlib Require Import ZArith Lia String List.
From stdpp Require Import base list numbers gmap.
From S2P Require Import Prelude Arbmath Host Storage StorageFacts Refine MemEnv StorageBytes Queue Blockhash L2Pricing Transfer L1Pricing Retryables RetryablesFacts StylusParams Programs ArbosState InternalTx ParseL2 TxProcessor TxProcessorFacts.
Open Scope Z_scope.

Section Shares.
Context {E : Env} {T : TxEnv} (st : rt_state) (basefee posterGas gasUsed : Z).

(** The gas that is not paid for calldata. *)
Definition computeGas : Z := Z.max 0 (gasUsed - posterGas).

Definition infra_share : Z :=
  if infraAccount st =? 0 then 0 else Z.min (minFee st) basefee * computeGas.

(** The poster gets nothing if the transaction did not even burn the gas of its calldata. *)
Definition poster_share : Z := if gasUsed <? posterGas then 0 else basefee * posterGas.

Definition network_share : Z := (if gasUsed <? posterGas then basefee * gasUsed else basefee * computeGas) - infra_share.

Lemma shares_total : infra_share + network_share + poster_share = basefee * gasUsed.
Proof. unfold network_share, poster_share, computeGas. destruct (Z.ltb_spec gasUsed posterGas); [lia|]. rewrite Z.max_r by lia. lia. Qed.

Lemma shares_pos : 0 <= basefee -> 0 <= posterGas -> 0 <= gasUsed -> 0 <= minFee st ->
  0 <= infra_share /\ 0 <= network_share /\ 0 <= poster_share.
Proof.
  unfold network_share, infra_share, poster_share, computeGas. intros.
  destruct (Z.ltb_spec gasUsed posterGas), (_ =? 0);
    rewrite ?(Z.max_l 0 (gasUsed - posterGas)), ?(Z.max_r 0 (gasUsed - posterGas)) by lia; repeat split; nia.
Qed.

(** The state after the fees are collected. *)
Definition collected (gasPrice : Z) : rt_state :=
  let st' := mint (mint (mint st (infraAccount st) infra_share) (netAccount st) network_share)
               L1PricerFundsPoolAddress poster_share in
  let st' := set_other st' feesCell (rt_other st feesCell + poster_share) in
  if 0 <? gasPrice then charge_pool st' (if posterGas <? gasUsed then gasUsed - posterGas else gasUsed) else st'.
End Shares.

Section Fees.
Context {E : Env} {EL : EnvLaws E} {T : TxEnv} {H : TxHost} {ABI : InternalTxAbi} (U : list Z).
Notation tx_at := (rt_at (OpenCachedSubStorage arbos_root retryablesSubspace) U).
Hypothesis NC : spaces_ok (tx_spaces U).
Hypothesis Hsys : forall e b, Restrict e b = Ok tt.

(** The fee of the poster is the price of the gas that was bought for it. *)
Definition poster_inv (p : TxProcessor) (ctx : TxContext) : Prop :=
  tp_PosterFee p = tc_BaseFee ctx * tp_posterGas p /\ in_u 64 (tp_posterGas p).

Lemma refines_ext {A} (m : M A) st r st1 st2 : refines tx_at m st r st1 ->
  (forall d, tx_at st1 d -> tx_at st2 d) -> refines tx_at m st r st2.
Proof. intros Hm He d Hd. destruct (Hm d Hd) as (G & d' & R & Hd'). exists G, d'. auto. Qed.

Lemma mint_zero st a d : tx_at st d -> tx_at (mint st a 0) d.
Proof. apply rt_at_ext; try reflexivity. intros x. cbn [mint rt_bal]. case_decide; lia. Qed.

(** The share of the infrastructure account. *)
Lemma infra_ref v st basefee posterGas gasUsed cost evm : cells_ok v st -> 4 < v -> 0 <= basefee ->
  in_u 64 posterGas -> in_u 64 gasUsed -> scenario_ok evm TracingAfterEVM ->
  refines tx_at
    (if 4 <? v then
       let* infraFeeAccount := restricted_value 0 (InfraFeeAccount (arbosStateAt arbos_root v)) in
       if negb (infraFeeAccount =? 0) then
         let* minBaseFee := minBaseFeeWei (arbosStateAt arbos_root v) in
         let infraFee := BigMin minBaseFee basefee in
         let computeGas := SaturatingUSub 64 gasUsed posterGas in
         let infraComputeCost := BigMulByUint infraFee computeGas in
         MintBalance (Some infraFeeAccount) infraComputeCost evm TracingAfterEVM "feeCollection" ;;;
         ret (BigSub cost infraComputeCost)
       else ret cost
     else ret cost) st
    (Ok (cost - infra_share st basefee posterGas gasUsed)) (mint st (infraAccount st) (infra_share st basefee posterGas gasUsed)).
Proof.
  intros [_ _ _ Hi Hm _] Hv Hb Hp Hg Hs. rewrite (proj2 (Z.ltb_lt 4 v)) by lia.
  eapply refines_bind; [apply (restricted_value_ref U Hsys), (InfraFeeAccount_ref U NC), Hi|]. cbv beta. unfold infra_share.
  destruct (Z.eqb_spec (infraAccount st) 0) as [Hz|Hz]; cbn [negb].
  - rewrite Z.sub_0_r. eapply refines_ext; [apply refines_ret|apply mint_zero].
  - eapply refines_bind; [apply (minBaseFeeWei_ref U NC Hsys)|]. cbv beta zeta.
    rewrite SaturatingUSub_max by (lia || assumption). unfold BigMulByUint, BigMul, BigSub, computeGas.
    rewrite BigMin_min.
    eapply refines_bind; [apply mint_ref; [nia|exact Hs]|apply refines_ret].
Qed.

Lemma backlog_fees : feesCell <> backlogCell.
Proof.
  unfold feesCell, backlogCell. apply (spaces_slot_ne (tx_spaces U) 1 2 _ _ _ _ NC eq_refl eq_refl).
  - vm_compute; split; congruence.
  - vm_compute; split; congruence.
  - left. discriminate.
Qed.

(** A mint that is left out for the amount zero. *)
Lemma mint_if_ref st a amount evm : 0 <= amount -> scenario_ok evm TracingAfterEVM ->
  refines tx_at (if 0 <? amount then MintBalance (Some a) amount evm TracingAfterEVM "feeCollection" else ret tt) st (Ok tt)
    (mint st a amount).
Proof.
  intros Ha Hs. destruct (Z.ltb_spec 0 amount); [now apply mint_ref|]. replace amount with 0 by lia.
  eapply refines_ext; [apply refines_ret|apply mint_zero].
Qed.

(** The cost without the fee of the poster, which is dropped if it cannot be paid. *)
Lemma endTx_split p ctx gasUsed : poster_inv p ctx -> 0 <= tc_BaseFee ctx -> in_u 64 gasUsed ->
  (if BigSub (BigMul (tc_BaseFee ctx) (UintToBig gasUsed)) (tp_PosterFee p) <? 0
   then (tp_set_poster p 0 (tp_posterGas p), BigMul (tc_BaseFee ctx) (UintToBig gasUsed))
   else (p, BigSub (BigMul (tc_BaseFee ctx) (UintToBig gasUsed)) (tp_PosterFee p)))
  = (tp_set_poster p (poster_share (tc_BaseFee ctx) (tp_posterGas p) gasUsed) (tp_posterGas p),
     if gasUsed <? tp_posterGas p then tc_BaseFee ctx * gasUsed else tc_BaseFee ctx * computeGas (tp_posterGas p) gasUsed).
Proof.
  intros [Hf Hpg] Hb Hg. unfold BigSub, BigMul, UintToBig, poster_share, computeGas. rewrite Hf.
  assert (p = tp_set_poster p (tc_BaseFee ctx * tp_posterGas p) (tp_posterGas p)) as Hp by (rewrite <- Hf; now destruct p).
  destruct (Z.ltb_spec gasUsed (tp_posterGas p)) as [Hlt|Hle].
  - destruct (Z.ltb_spec (tc_BaseFee ctx * gasUsed - tc_BaseFee ctx * tp_posterGas p) 0); [reflexivity|].
    assert (tc_BaseFee ctx = 0) as Hz by nia. f_equal; [|rewrite Hz; lia]. rewrite Hz, Z.mul_0_l in Hp. exact Hp.
  - rewrite (proj2 (Z.ltb_ge _ _)) by nia. f_equal; [exact Hp|]. rewrite Z.max_r by lia. lia.
Qed.

Lemma endTx_ref v st p ctx gasUsed : cells_ok v st -> 10 <= v -> tp_state p = arbosStateAt arbos_root v ->
  poster_inv p ctx -> 0 <= tc_BaseFee ctx -> in_u 64 gasUsed -> scenario_ok (tc_evm ctx) TracingAfterEVM ->
  0 <= rt_other st feesCell -> rt_other st feesCell + tp_PosterFee p < 2 ^ 256 ->
  refines tx_at (endTx p ctx (netAccount st) gasUsed) st
    (Ok (tp_set_poster p (poster_share (tc_BaseFee ctx) (tp_posterGas p) gasUsed) (tp_posterGas p)))
    (collected st (tc_BaseFee ctx) (tp_posterGas p) gasUsed (cm_GasPrice (tp_msg p))).
Proof.
  intros Hc Hv Hp Hinv Hb Hg Hs H0 Hmax. pose proof Hinv as [Hf Hpg].
  destruct (shares_pos st (tc_BaseFee ctx) (tp_posterGas p) gasUsed) as (_ & Hn & Hps); [lia|uint|uint|apply Hc|].
  assert (poster_share (tc_BaseFee ctx) (tp_posterGas p) gasUsed <= tp_PosterFee p) as Hle.
  { unfold poster_share. rewrite Hf. destruct (_ <? _); uint || nia. }
  unfold endTx. rewrite Hp, (endTx_split p ctx gasUsed Hinv Hb Hg).
  cbn [as_arbosVersion arbosStateAt tp_set_poster tp_posterGas tp_PosterFee tp_msg].
  eapply refines_bind; [apply (infra_ref v); auto; lia|]. cbv beta.
  change (_ - infra_share st (tc_BaseFee ctx) (tp_posterGas p) gasUsed)
    with (network_share st (tc_BaseFee ctx) (tp_posterGas p) gasUsed).
  eapply refines_bind; [apply mint_if_ref; auto|]. rewrite (proj2 (Z.ltb_ge v 2)) by lia.
  eapply refines_bind; [apply mint_ref; auto|]. rewrite (proj2 (Z.leb_le 10 v)) by lia.
  eapply refines_bind; [apply (AddToL1FeesAvailable_ref U NC); cbn [mint rt_other]; lia|]. unfold collected.
  destruct (0 <? cm_GasPrice (tp_msg p)); [|eapply refines_bind; apply refines_ret].
  eapply refines_bind; [|apply refines_ret]. cbv zeta.
  replace (if tp_posterGas p <? gasUsed then gasUsed -u64 tp_posterGas p else gasUsed)
    with (if tp_posterGas p <? gasUsed then gasUsed - tp_posterGas p else gasUsed).
  2: { destruct (Z.ltb_spec (tp_posterGas p) gasUsed); [|reflexivity]. rewrite uwrap_id; uint. }
  apply (AddToGasPool_ref U NC Hsys). cbn [set_other mint rt_other]. rewrite decide_False by apply backlog_fees. apply Hc.
Qed.

(** ** Charging *)

Definition pricePerUnit (st : rt_state) : Z := rt_other st (skey (OpenCachedSubStorage arbos_root l1PricingSubspace) pricePerUnitOffset).
Definition unitsCell : StorageSlot := skey (OpenCachedSubStorage arbos_root l1PricingSubspace) unitsSinceOffset.
Definition blockGasLimit (st : rt_state) : Z := rt_other st (skey (OpenCachedSubStorage arbos_root l2PricingSubspace) perBlockGasLimitOffset).
Definition brotliLevel (st : rt_state) : Z := rt_other st (skey arbos_root brotliCompressionLevelOffset).

(** The units of calldata that a transaction pays for: none unless the sequencer posted it. *)
Definition poster_units (tx : Tx) (poster level : Z) : outcome Z :=
  if negb (poster =? BatchPosterAddress) then Ok 0
  else if tx_CalldataUnits tx =? 0 then getPosterUnitsWithoutCache (tx_Raw tx) poster level
  else Ok (tx_CalldataUnits tx).

(** The gas that is worth them, rounded down. *)
Definition bought (st : rt_state) (basefee units : Z) : Z := Z.min (2 ^ 64 - 1) (pricePerUnit st * units / basefee).

Definition with_units (st : rt_state) (units : Z) : rt_state :=
  if 0 <? units then set_other st unitsCell (rt_other st unitsCell +u64 units) else st.

Record charge_ok (v : Z) (st : rt_state) : Prop := {
  ch_cells : cells_ok v st;
  ch_level : in_u 64 (brotliLevel st);
  ch_price : 0 <= pricePerUnit st;
  ch_units : in_u 64 (rt_other st unitsCell);
  ch_limit : in_u 64 (blockGasLimit st)
}.

Ltac tx_cell L i sp k := apply (L i sp k); [reflexivity|lia|vm_compute; split; congruence|..].

Lemma PosterDataCost_ref v st m tx poster level units : charge_ok v st -> msg_Tx m = Some (tx_Raw tx, tx_CalldataUnits tx) ->
  poster_units tx poster level = Ok units ->
  refines tx_at (PosterDataCost (as_l1PricingState (arbosStateAt arbos_root v)) m poster level) st
    (Ok (pricePerUnit st * units, units)) st.
Proof.
  intros Hc Hm Hu. unfold PosterDataCost, GetPosterInfo. rewrite Hm. unfold poster_units in Hu.
  destruct (poster =? BatchPosterAddress); cbn [negb] in *.
  - eapply (refines_bind _ _ _ _ (pricePerUnit st * units, units, units)); [|apply refines_ret].
    eapply (refines_bind _ _ _ _ units).
    + destruct (_ =? 0); [rewrite Hu|injection Hu as ->]; [apply refines_lift|apply refines_ret].
    + eapply refines_bind; [eapply refines_value_or|apply refines_ret].
      tx_cell (cell_word U NC) 1%nat (OpenCachedSubStorage arbos_root l1PricingSubspace) pricePerUnitOffset.
  - injection Hu as <-. rewrite Z.mul_0_r. eapply refines_bind; [apply refines_ret|]. apply refines_ret.
Qed.

Lemma with_units_ref v st units : charge_ok v st ->
  refines tx_at (if 0 <? units then restricted (AddToUnitsSinceUpdate (as_l1PricingState (arbosStateAt arbos_root v)) units)
                 else ret tt) st (Ok tt) (with_units st units).
Proof.
  intros Hc. unfold with_units. destruct (0 <? units); [|apply refines_ret]. eapply (restricted_ref U Hsys).
  unfold AddToUnitsSinceUpdate. eapply refines_bind.
  - tx_cell (cell_u64 U NC) 1%nat (OpenCachedSubStorage arbos_root l1PricingSubspace) unitsSinceOffset. exact (ch_units _ _ Hc).
  - tx_cell (cell_set_u64 U NC) 1%nat (OpenCachedSubStorage arbos_root l1PricingSubspace) unitsSinceOffset. apply u64_range.
Qed.

Lemma BigToUintSaturating_min v : 0 <= v -> BigToUintSaturating v = Z.min (2 ^ 64 - 1) v.
Proof.
  intros Hv. unfold BigToUintSaturating. rewrite (proj2 (Z.ltb_ge _ 0)) by lia.
  destruct (IsUint64_spec v) as [Hi|Hi]; cbn [negb]; [rewrite uwrap_id by exact Hi|change MaxUint64 with (2 ^ 64 - 1)];
    unfold in_u in Hi; lia.
Qed.

Lemma GetPosterGas_ref state basefee cost st : 0 < basefee -> 0 <= cost ->
  refines tx_at (GetPosterGas state basefee MessageCommitMode cost) st (Ok (Z.min (2 ^ 64 - 1) (cost / basefee))) st.
Proof.
  intros Hb Hc. unfold GetPosterGas. cbn [isGasEstimationMode]. eapply refines_bind; [apply refines_ret|]. cbv beta iota.
  assert (BigDiv cost basefee = Ok (cost / basefee)) as ->.
  { apply big_div_pos, Hb. }
  rewrite <- BigToUintSaturating_min by (apply Z.div_pos; lia). eapply refines_bind; [apply refines_lift|apply refines_ret].
Qed.

(** What the hook returns and leaves behind, from the gas that is bought. *)
Definition charged (st : rt_state) (p : TxProcessor) (ctx : TxContext) (units gasRemaining : Z) : Z * option error * Z * TxProcessor :=
  let gas := bought st (tc_BaseFee ctx) units in
  let p := tp_set_poster (tp_set_msg p (chargeL1 (tp_msg p))) (tc_BaseFee ctx * gas) gas in
  if gasRemaining <? gas then (netAccount st, Some (ErrNew "intrinsic gas too low"), gasRemaining, p)
  else
    let left := Z.min (gasRemaining - gas) (blockGasLimit st) in
    (netAccount st, None, left, tp_set_hold p (gasRemaining - gas - left)).

Lemma GasChargingHook_ref v st p ctx tx units gasRemaining : charge_ok v st -> tp_state p = arbosStateAt arbos_root v ->
  0 < tc_BaseFee ctx -> cm_TxRunMode (tp_msg p) = MessageCommitMode -> cm_Tx (tp_msg p) = Some tx ->
  tp_computeHoldGas p = 0 -> poster_units tx (tc_Coinbase ctx) (brotliLevel st) = Ok units -> in_u 64 units ->
  in_u 64 gasRemaining ->
  refines tx_at (GasChargingHook p ctx gasRemaining) st (Ok (charged st p ctx units gasRemaining)) (with_units st units).
Proof.
  intros Hc Hp Hb Hm Ht Hh Hu Hur Hg. unfold GasChargingHook. rewrite Hp, Hm.
  eapply refines_bind; [apply refines_value_or, (NetworkFeeAccount_ref U NC), (ch_cells _ _ Hc)|]. cbv beta. cbn [isCommitMode].
  rewrite (proj2 (Z.ltb_lt 0 _) Hb). cbn [tp_set_msg tp_msg chargeL1 cm_SkipL1Charging negb andb].
  set (p' := tp_set_msg p (chargeL1 (tp_msg p))). unfold charged. fold p'. set (gas := bought st (tc_BaseFee ctx) units).
  eapply (refines_bind _ _ _ _ (Ok (tp_set_poster p' (tc_BaseFee ctx * gas) gas, gas))).
  { eapply refines_bind; [apply refines_attempt; tx_cell (cell_u64 U NC) 0%nat arbos_root brotliCompressionLevelOffset; exact (ch_level _ _ Hc)|]. cbv beta iota.
    eapply refines_bind; [apply (PosterDataCost_ref v st _ tx _ _ units Hc); [|exact Hu]|].
    { unfold pricerMessage. cbn [msg_Tx chargeL1 cm_Tx]. rewrite Ht. reflexivity. }
    cbv beta iota. eapply refines_bind; [apply with_units_ref, Hc|].
    eapply refines_bind; [apply GetPosterGas_ref; [exact Hb|]|].
    { pose proof (ch_price _ _ Hc). unfold in_u in Hur. nia. }
    apply refines_ret. }
  cbv beta iota. destruct (Z.ltb_spec gasRemaining gas) as [Hlt|Hle]; [apply refines_ret|].
  assert (0 <= gas) as Hg0.
  { unfold gas, bought. pose proof (ch_price _ _ Hc). unfold in_u in Hur. assert (0 <= pricePerUnit st * units) by nia.
    pose proof (Z.div_pos _ _ H1 Hb). lia. }
  rewrite uwrap_id by (unfold in_u in *; lia). cbn [isEthcallMode negb].
  assert (rt_other (with_units st units) (skey (OpenCachedSubStorage arbos_root l2PricingSubspace) perBlockGasLimitOffset) = blockGasLimit st) as Hlim.
  { unfold with_units. destruct (0 <? units); [|reflexivity]. cbn [set_other rt_other]. apply decide_False.
    unfold unitsCell. apply (spaces_slot_ne (tx_spaces U) 1 2 _ _ _ _ NC eq_refl eq_refl);
      [vm_compute; split; congruence|vm_compute; split; congruence|left; discriminate]. }
  eapply refines_bind.
  { apply refines_value_or.
    tx_cell (cell_u64 U NC) 2%nat (OpenCachedSubStorage arbos_root l2PricingSubspace) perBlockGasLimitOffset.
    rewrite Hlim. exact (ch_limit _ _ Hc). }
  cbv beta. rewrite Hlim. pose proof (ch_limit _ _ Hc) as Hl. destruct (Z.ltb_spec (blockGasLimit st) (gasRemaining - gas)).
  - rewrite Z.min_r, uwrap_id by (unfold in_u in *; lia). apply refines_ret.
  - rewrite Z.min_l, Z.sub_diag by lia.
    replace (tp_set_hold _ 0) with (tp_set_poster p' (tc_BaseFee ctx * gas) gas); [apply refines_ret|].
    unfold p'. destruct p. simpl in Hh. subst. reflexivity.
Qed.

Lemma EndTxHook_ref v st p ctx gasLeft success : cells_ok v st -> 10 <= v -> tp_state p = arbosStateAt arbos_root v ->
  poster_inv p ctx -> 0 <= tc_BaseFee ctx ->
  (forall tx, cm_Tx (tp_msg p) = Some tx -> tx_Type (tx_Raw tx) <> ArbitrumRetryTxType) ->
  0 <= gasLeft <= cm_GasLimit (tp_msg p) -> cm_GasLimit (tp_msg p) < 2 ^ 64 -> scenario_ok (tc_evm ctx) TracingAfterEVM ->
  0 <= rt_other st feesCell -> rt_other st feesCell + tp_PosterFee p < 2 ^ 256 ->
  let gasUsed := cm_GasLimit (tp_msg p) - gasLeft in
  refines tx_at (EndTxHook p ctx gasLeft success) st
    (Ok (tp_set_poster p (poster_share (tc_BaseFee ctx) (tp_posterGas p) gasUsed) (tp_posterGas p)))
    (collected st (tc_BaseFee ctx) (tp_posterGas p) gasUsed (cm_GasPrice (tp_msg p))).
Proof.
  intros Hc Hv Hp Hinv Hb Ht Hl Hmax Hs H0 H1 gasUsed. unfold EndTxHook.
  eapply refines_bind; [apply refines_value_or; rewrite Hp; apply (NetworkFeeAccount_ref U NC), Hc|]. cbv beta.
  rewrite (proj2 (Z.ltb_ge _ _)), uwrap_id by uint.
  pose proof (endTx_ref v st p ctx gasUsed Hc Hv Hp Hinv Hb ltac:(unfold gasUsed; uint) Hs H0 H1) as He.
  destruct (cm_Tx (tp_msg p)) as [tx|]; [|exact He]. rewrite (proj2 (Z.eqb_neq _ _) (Ht tx eq_refl)). exact He.
Qed.
End Fees.

(** C9: a transaction that is executed pays for its calldata first: the hook
    before its execution buys the gas that is worth the units of calldata at the
    current price, rounded down, and fails, leaving the gas as it is, exactly if
    there is less; otherwise the gas is split into what was bought, what the
    execution may use, at most the limit per block, and what is held back. The
    units count towards the next settlement of the price, and nothing else changes. *)
Theorem GasChargingHook_charges {E : Env} {EL : EnvLaws E} {T : TxEnv} {H : TxHost} {ABI : InternalTxAbi} (U : list Z)
    v st d p ctx tx units gasRemaining :
  spaces_ok (tx_spaces U) -> (forall e b, Restrict e b = Ok tt) ->
  rt_at (OpenCachedSubStorage arbos_root retryablesSubspace) U st d ->
  charge_ok v st -> tp_state p = arbosStateAt arbos_root v -> tp_computeHoldGas p = 0 ->
  cm_TxRunMode (tp_msg p) = MessageCommitMode -> cm_Tx (tp_msg p) = Some tx -> 0 < tc_BaseFee ctx ->
  poster_units tx (tc_Coinbase ctx) (brotliLevel st) = Ok units -> in_u 64 units -> in_u 64 gasRemaining ->
  exists G d' err gasLeft p',
    runs G (GasChargingHook p ctx gasRemaining) d (Ok (netAccount st, err, gasLeft, p')) d' /\
    rt_at (OpenCachedSubStorage arbos_root retryablesSubspace) U (with_units st units) d' /\
    poster_inv p' ctx /\ tp_PosterFee p' <= pricePerUnit st * units /\
    (tp_posterGas p' < 2 ^ 64 - 1 -> pricePerUnit st * units < tp_PosterFee p' + tc_BaseFee ctx) /\
    (err = None <-> tp_posterGas p' <= gasRemaining) /\
    match err with
    | Some _ => gasLeft = gasRemaining
    | None => tp_posterGas p' + gasLeft + tp_computeHoldGas p' = gasRemaining /\ 0 <= tp_computeHoldGas p' /\
              gasLeft <= blockGasLimit st /\ (0 < tp_computeHoldGas p' -> gasLeft = blockGasLimit st)
    end.
Proof.
  intros NC Hsys Hd Hc Hp Hh Hm Ht Hb Hu Hur Hg.
  destruct (GasChargingHook_ref U NC Hsys v st p ctx tx units gasRemaining Hc Hp Hb Hm Ht Hh Hu Hur Hg d Hd) as (G & d' & R & Hd').
  unfold charged in R. set (gas := bought st (tc_BaseFee ctx) units) in *.
  pose proof (ch_price _ _ Hc) as Hpr. pose proof (ch_limit _ _ Hc) as Hlim. unfold in_u in *.
  assert (0 <= pricePerUnit st * units / tc_BaseFee ctx) as Hq by (apply Z.div_pos; nia).
  pose proof (Z.mul_div_le (pricePerUnit st * units) (tc_BaseFee ctx) Hb) as Hlo.
  pose proof (Z.mul_succ_div_gt (pricePerUnit st * units) (tc_BaseFee ctx) Hb) as Hhi.
  assert (0 <= gas <= pricePerUnit st * units / tc_BaseFee ctx /\ gas < 2 ^ 64 /\
          (gas < 2 ^ 64 - 1 -> gas = pricePerUnit st * units / tc_BaseFee ctx)) as (Hgas & Hgas64 & Hexact).
  { unfold gas, bought. lia. }
  destruct (Z.ltb_spec gasRemaining gas); eexists G, d', _, _, _; (split; [exact R|]); (split; [exact Hd'|]);
    cbn [tp_set_hold tp_set_poster tp_set_msg tp_PosterFee tp_posterGas tp_computeHoldGas];
    (split; [split; [reflexivity|unfold in_u; cbn [tp_set_hold tp_set_poster tp_posterGas]; lia]|]);
    (split; [nia|]); (split; [intros He; rewrite (Hexact He); lia|]).
  - split; [split; [discriminate|lia]|reflexivity].
  - split; [split; [lia|reflexivity]|lia].
Qed.

Lemma ex_charge_ok : charge_ok (E := TestEnv) 30 ex_tx_state.
Proof. split; [exact ex_cells_ok|..]; vm_compute; (split; congruence) || discriminate. Qed.

Lemma GasChargingHook_charges_witness :
  exists d G d' gasLeft p',
    runs G (GasChargingHook (E := TestEnv) (T := example_txs) (ex_processor (ex_msg InnerOther 2 (Some 8) 500)) ex_ctx 500)
      d (Ok (100, None, gasLeft, p')) d' /\ tp_PosterFee p' = 140 /\ gasLeft = 486.
Proof.
  destruct ex_tx_at as [d Hd].
  destruct (GasChargingHook_charges (E := TestEnv) (T := example_txs) (H := example_host) (ABI := example_abi) ex_tx_ids 30 ex_tx_state d
    (ex_processor (ex_msg InnerOther 2 (Some 8) 500)) ex_ctx _ 48 500 ex_tx_spaces_ok (fun _ _ => eq_refl) Hd ex_charge_ok
    eq_refl eq_refl eq_refl eq_refl eq_refl eq_refl ltac:(vm_compute; split; congruence) ltac:(vm_compute; split; congruence))
    as (G & d' & err & gasLeft & p' & R & _ & [Hf Hg] & H1 & H2 & H3 & H4).
  change (pricePerUnit ex_tx_state) with 3 in *. change (netAccount ex_tx_state) with 100 in R.
  change (blockGasLimit ex_tx_state) with 1000 in H4. cbn [tc_BaseFee ex_ctx] in *. unfold in_u in Hg.
  assert (err = None) as -> by (apply H3; lia).
  exists d, G, d', gasLeft, p'. split; [exact R|]. lia.
Defined.

(** C6: from version 10 of ArbOS on, at the end of a transaction that is not a
    redeem every wei it paid for its gas is distributed: the infrastructure, if it
    has an account, gets the minimal base fee, at most the base fee, for the gas of
    the execution; the pool of the batch posters gets the price of the gas that was
    bought for calldata, or nothing if the transaction used less gas than that; and
    the network gets the rest, which is never negative. The funds available to posters
    grow by what the pool got. If the gas price of the message is positive, the
    backlog grows by the gas of the execution, or by all the gas that was used if
    that does not exceed the gas for calldata; otherwise it stays. Nothing else
    changes. *)
Theorem EndTxHook_collects {E : Env} {EL : EnvLaws E} {T : TxEnv} {H : TxHost} {ABI : InternalTxAbi} (U : list Z)
    v st d p ctx gasLeft success :
  spaces_ok (tx_spaces U) -> (forall e b, Restrict e b = Ok tt) ->
  rt_at (OpenCachedSubStorage arbos_root retryablesSubspace) U st d ->
  cells_ok v st -> 10 <= v -> tp_state p = arbosStateAt arbos_root v -> poster_inv p ctx -> 0 <= tc_BaseFee ctx ->
  (forall tx, cm_Tx (tp_msg p) = Some tx -> tx_Type (tx_Raw tx) <> ArbitrumRetryTxType) ->
  0 <= gasLeft <= cm_GasLimit (tp_msg p) -> cm_GasLimit (tp_msg p) < 2 ^ 64 -> scenario_ok (tc_evm ctx) TracingAfterEVM ->
  0 <= rt_other st feesCell -> rt_other st feesCell + tp_PosterFee p < 2 ^ 256 ->
  let gasUsed := cm_GasLimit (tp_msg p) - gasLeft in
  exists G d' p' infra network poster,
    runs G (EndTxHook p ctx gasLeft success) d (Ok p') d' /\
    infra + network + poster = tc_BaseFee ctx * gasUsed /\ 0 <= network /\
    infra = (if infraAccount st =? 0 then 0
             else Z.min (minFee st) (tc_BaseFee ctx) * Z.max 0 (gasUsed - tp_posterGas p)) /\
    poster = (if gasUsed <? tp_posterGas p then 0 else tp_PosterFee p) /\
    (let st' := mint (mint (mint st (infraAccount st) infra) (netAccount st) network) L1PricerFundsPoolAddress poster in
     let st' := set_other st' feesCell (rt_other st feesCell + poster) in
     rt_at (OpenCachedSubStorage arbos_root retryablesSubspace) U
       (if 0 <? cm_GasPrice (tp_msg p)
        then charge_pool st' (if tp_posterGas p <? gasUsed then gasUsed - tp_posterGas p else gasUsed) else st') d').
Proof.
  intros NC Hsys Hd Hc Hv Hp Hinv Hb Ht Hl Hmax Hs H0 H1 gasUsed.
  destruct (EndTxHook_ref U NC Hsys v st p ctx gasLeft success Hc Hv Hp Hinv Hb Ht Hl Hmax Hs H0 H1 d Hd) as (G & d' & R & Hd').
  destruct Hinv as [Hf Hpg]. pose proof (shares_total st (tc_BaseFee ctx) (tp_posterGas p) gasUsed) as Htot.
  destruct (shares_pos st (tc_BaseFee ctx) (tp_posterGas p) gasUsed) as (_ & Hn & _); [lia|uint|unfold gasUsed; lia|apply Hc|].
  exists G, d'. eexists. exists (infra_share st (tc_BaseFee ctx) (tp_posterGas p) gasUsed).
  exists (network_share st (tc_BaseFee ctx) (tp_posterGas p) gasUsed), (poster_share (tc_BaseFee ctx) (tp_posterGas p) gasUsed).
  split; [exact R|]. split; [exact Htot|]. split; [exact Hn|]. split; [reflexivity|]. split; [|exact Hd'].
  unfold poster_share. now rewrite Hf.
Qed.

Lemma EndTxHook_collects_witness :
  exists d G d' p' infra network,
    runs G (EndTxHook (E := TestEnv) (T := example_txs)
              (tp_set_poster (ex_processor (ex_msg InnerOther 2 (Some 8) 500)) 140 14) ex_ctx 100 true) d (Ok p') d' /\
    infra = 7 * 386 /\ infra + network + 140 = 4000.
Proof.
  destruct ex_tx_at as [d Hd].
  destruct (EndTxHook_collects (E := TestEnv) (T := example_txs) (H := example_host) (ABI := example_abi) ex_tx_ids 30 ex_tx_state d
    (tp_set_poster (ex_processor (ex_msg InnerOther 2 (Some 8) 500)) 140 14) ex_ctx 100 true ex_tx_spaces_ok (fun _ _ => eq_refl) Hd
    ex_cells_ok ltac:(lia) eq_refl ltac:(vm_compute; split; [|split]; congruence) ltac:(vm_compute; discriminate)
    ltac:(intros tx [= <-]; discriminate) ltac:(vm_compute; split; discriminate) eq_refl (or_introl eq_refl)
    ltac:(vm_compute; discriminate) eq_refl)
    as (G & d' & p' & infra & network & poster & R & Ht & _ & Hi & Hp & _).
  exists d, G, d', p', infra, network. split; [exact R|]. split; [rewrite Hi; reflexivity|].
  assert (poster = 140) as <- by (rewrite Hp; reflexivity). rewrite Ht. reflexivity.
Defined.
