(* ===== verification/TxRetryables.v ===== *)
(** * Retryables in the hooks of a transaction

    The submission of a retryable ([StartTxHook] on an ArbitrumSubmitRetryableTx)
    on the abstract state: what the sender pays and is refunded in each of the four
    ways it can end, the ticket it leaves, and the redeem it announces; that this
    redeem is the one [ScheduledTxes] schedules; and how [EndTxHook] settles a
    redeem. *)
From Stdlib Require Import ZArith Lia String List.
From stdpp Require Import base list numbers gmap.
From S2P Require Import Prelude Arbmath Host Storage StorageFacts Refine MemEnv StorageBytes Queue Blockhash L2Pricing Transfer L1Pricing Retryables RetryablesFacts StylusParams Programs ArbosState InternalTx ParseL2 TxProcessor TxProcessorFacts.
Open Scope Z_scope.

(** ** Transfers in sequence *)

Definition moves (st : rt_state) (l : list (Z * Z * Z)) : rt_state :=
  fold_left (fun st m => move_balance st m.1.1 m.1.2 m.2) l st.

(** What a list of accounts holds. *)
Definition held (st : rt_state) (accounts : list Z) : Z := foldr (fun a n => rt_bal st a + n) 0 accounts.

Lemma held_add accounts a amount (f g : Z -> Z) : NoDup accounts -> a ∈ accounts ->
  (forall x, g x = f x + (if decide (a = x) then amount else 0)) ->
  foldr (fun x n => g x + n) 0 accounts = foldr (fun x n => f x + n) 0 accounts + amount.
Proof.
  induction 1 as [|x l Hx Hl IH]; intros Ha Hg; [inversion Ha|]. cbn [foldr]. rewrite Hg. case_decide as Hax.
  - subst. enough (foldr (fun y n => g y + n) 0 l = foldr (fun y n => f y + n) 0 l) by lia. clear -Hg Hx.
    induction l as [|y l IH]; [reflexivity|]. apply not_elem_of_cons in Hx as [Hy Hx]. cbn [foldr].
    rewrite (IH Hx), Hg, decide_False by auto. lia.
  - apply elem_of_cons in Ha as [Ha|Ha]; [congruence|]. rewrite (IH Ha Hg). lia.
Qed.

Lemma held_mint st accounts a amount : NoDup accounts -> a ∈ accounts ->
  held (mint st a amount) accounts = held st accounts + amount.
Proof. intros Hn Ha. apply (held_add accounts a); auto. Qed.

Lemma held_move st accounts from to amount : NoDup accounts -> from ∈ accounts -> to ∈ accounts ->
  held (move_balance st from to amount) accounts = held st accounts.
Proof.
  intros Hn Hf Ht. unfold held.
  rewrite (held_add accounts to amount (fun x => rt_bal st x + (if decide (from = x) then - amount else 0))); auto.
  - rewrite (held_add accounts from (- amount) (rt_bal st)); auto. lia.
  - intros x. cbn [move_balance rt_bal]. case_decide; lia.
Qed.

Lemma held_moves l : forall st accounts, NoDup accounts -> Forall (fun m => m.1.1 ∈ accounts /\ m.1.2 ∈ accounts) l ->
  held (moves st l) accounts = held st accounts.
Proof.
  induction l as [|m l IH]; intros st accounts Hn Hl; [reflexivity|]. apply Forall_cons in Hl as [[Hf Ht] Hl].
  cbn [moves fold_left]. unfold moves in IH. rewrite IH by auto. now apply held_move.
Qed.

(** The sender of a transfer loses at most the amount, and nobody else loses. *)
Lemma move_from st from to amount : 0 <= amount -> rt_bal st from - amount <= rt_bal (move_balance st from to amount) from.
Proof. intros. cbn [move_balance rt_bal]. rewrite (decide_True (P := from = from)) by auto. case_decide; lia. Qed.

Lemma move_other st from to amount a : 0 <= amount -> a <> from -> rt_bal st a <= rt_bal (move_balance st from to amount) a.
Proof. intros. cbn [move_balance rt_bal]. rewrite (decide_False (P := from = a)) by auto. case_decide; lia. Qed.

Lemma takeFunds_ok pool take : 0 <= take -> takeFunds pool take = Ok (Z.min pool take, pool - Z.min pool take).
Proof.
  intros Ht. unfold takeFunds, BigLessThan. rewrite (proj2 (Z.ltb_ge take 0)) by lia.
  destruct (Z.ltb_spec pool take); f_equal; f_equal; lia.
Qed.

(** ** The amounts of a submission *)

Section Amounts.
Context {E : Env} {T : TxEnv} {H : TxHost}
  (st : rt_state) (v : Z) (p : TxProcessor) (ctx : TxContext) (utx : Tx) (tx : ArbitrumSubmitRetryableTx).

Definition sub_fee : Z := RetryableSubmissionFee (Z.of_nat (length (srt_RetryData tx))) (default 0 (srt_L1BaseFee tx)).

(** What is left of the deposit beside the call value: all that the refund
    address may get back. *)
Definition sub_pool : Z := Z.max 0 (srt_DepositValue tx - srt_RetryValue tx).
Definition sub_withheld : Z := Z.min sub_pool sub_fee.
Definition sub_refund : Z := Z.min (sub_pool - sub_withheld) (srt_MaxSubmissionFee tx - sub_fee).
Definition sub_left : Z := sub_pool - sub_withheld - sub_refund.

Definition sub_gas : Z := cm_GasLimit (tp_msg p).
Definition sub_gasFee : Z :=
  if negb (isCommitMode (cm_TxRunMode (tp_msg p))) && (cm_GasFeeCap (tp_msg p) =? 0) then 0 else tc_BaseFee ctx.
Definition sub_maxGasCost : Z := srt_GasFeeCap tx * sub_gas.

(** The refund if no redeem is scheduled. *)
Definition sub_gasRefund : Z := Z.min sub_left sub_maxGasCost.

(** The shares of the accounts in the cost of the gas of the redeem. *)
Definition sub_infra : Z :=
  if (11 <=? v) && negb (infraAccount st =? 0) then Z.min (minFee st) sub_gasFee * sub_gas else 0.
Definition sub_network : Z := sub_gasFee * sub_gas - sub_infra.
Definition sub_priceRefund : Z :=
  Z.min (sub_left - Z.min sub_left sub_network) (Z.max 0 ((srt_GasFeeCap tx - sub_gasFee) * srt_Gas tx)).

(** The most that the redeem may refund to the refund address. *)
Definition sub_maxRefund : Z := sub_pool - sub_refund - sub_priceRefund.

(** The states on the way. *)
Definition sub_minted : rt_state := mint st (srt_From tx) (srt_DepositValue tx).
Definition sub_paid : rt_state :=
  moves sub_minted [(srt_From tx, netAccount st, sub_fee); (srt_From tx, srt_FeeRefundAddr tx, sub_refund)].
Definition sub_returned : rt_state :=
  moves sub_paid [(netAccount st, srt_From tx, sub_fee); (srt_From tx, srt_FeeRefundAddr tx, sub_withheld)].
Definition sub_escrowed : rt_state := move_balance sub_paid (srt_From tx) (RetryableEscrowAddress (tx_Hash utx)) (srt_RetryValue tx).
Definition sub_created (ticketCreated : EthLog) : rt_state :=
  add_log (create_spec sub_escrowed (tx_Hash utx) (bc_Time (tc_block ctx) +u64 RetryableLifetimeSeconds) (srt_From tx)
             (srt_RetryTo tx) (srt_RetryValue tx) (srt_Beneficiary tx) (srt_RetryData tx)) ticketCreated.
Definition sub_gasPaid (st1 : rt_state) : rt_state :=
  moves st1 [(srt_From tx, infraAccount st, sub_infra); (srt_From tx, netAccount st, sub_network);
             (srt_From tx, srt_FeeRefundAddr tx, sub_priceRefund)].

(** The redeem that is announced, and the announcement. *)
Definition sub_redeem : ArbitrumRetryTx :=
  mkArbitrumRetryTx (tx_ChainId utx) 0 (srt_From tx) sub_gasFee sub_gas (srt_RetryTo tx) (srt_RetryValue tx)
    (srt_RetryData tx) (tx_Hash utx) (srt_FeeRefundAddr tx) sub_maxRefund sub_fee.
Definition sub_event : RedeemScheduled :=
  mkRedeemScheduled (tx_Hash utx) (RetryTx_Hash sub_redeem) 0 sub_gas (srt_FeeRefundAddr tx) sub_maxRefund sub_fee.

(** The redeem cannot be paid for. *)
Definition sub_noRedeem (balance : Z) : bool :=
  (balance <? sub_maxGasCost) || (sub_gas <? TxGas) || (srt_GasFeeCap tx <? sub_gasFee).

(** The four ways in which a submission ends. *)
Inductive submission (ticketCreated redeemScheduled : EthLog) : StartTxResult -> rt_state -> Prop :=
| sub_unfunded msg : rt_bal sub_minted (srt_From tx) < srt_MaxSubmissionFee tx \/ srt_MaxSubmissionFee tx < sub_fee ->
    submission ticketCreated redeemScheduled (mkStartTxResult true 0 (Some (ErrNew msg)) []) sub_minted
| sub_noCallvalue : sub_fee <= srt_MaxSubmissionFee tx <= rt_bal sub_minted (srt_From tx) ->
    rt_bal sub_paid (srt_From tx) < srt_RetryValue tx ->
    submission ticketCreated redeemScheduled (mkStartTxResult true 0 (Some ErrInsufficientBalance) []) sub_returned
| sub_unscheduled : sub_fee <= srt_MaxSubmissionFee tx <= rt_bal sub_minted (srt_From tx) ->
    srt_RetryValue tx <= rt_bal sub_paid (srt_From tx) ->
    sub_noRedeem (rt_bal sub_escrowed (srt_From tx)) = true ->
    submission ticketCreated redeemScheduled (mkStartTxResult true 0 None (Hash_Bytes (tx_Hash utx)))
      (move_balance (sub_created ticketCreated) (srt_From tx) (srt_FeeRefundAddr tx) sub_gasRefund)
| sub_scheduled : sub_fee <= srt_MaxSubmissionFee tx <= rt_bal sub_minted (srt_From tx) ->
    srt_RetryValue tx <= rt_bal sub_paid (srt_From tx) ->
    sub_noRedeem (rt_bal sub_escrowed (srt_From tx)) = false ->
    submission ticketCreated redeemScheduled (mkStartTxResult true sub_gas None (Hash_Bytes (tx_Hash utx)))
      (add_log (set_field (sub_gasPaid (sub_created ticketCreated)) (tx_Hash utx) numTriesOffset 1) redeemScheduled).
End Amounts.

Section Submit.
Context {E : Env} {EL : EnvLaws E} {T : TxEnv} {H : TxHost} {ABI : InternalTxAbi} (U : list Z).
Notation rts := (OpenCachedSubStorage arbos_root retryablesSubspace).
Notation tx_at := (rt_at rts U).
Hypothesis NC : spaces_ok (tx_spaces U).
Hypothesis Hsys : forall e b, Restrict e b = Ok tt.

Lemma pay_ok st evm from to amount : 0 <= amount <= rt_bal st from ->
  refines tx_at (duringEvm evm from to amount) st (Ok (Ok tt)) (move_balance st from to amount).
Proof. intros Ha. apply refines_attempt, (rt_transfer rts U); [exact Ha|right; right; reflexivity]. Qed.

Lemma pay_err st evm from to amount : 0 <= amount -> rt_bal st from < amount ->
  refines tx_at (duringEvm evm from to amount) st (Ok (Err ErrInsufficientBalance)) st.
Proof. intros H0 Ha. apply refines_attempt_err, (transfer_fail U); lia. Qed.

Lemma move_zero st from to d : tx_at st d -> tx_at (move_balance st from to 0) d.
Proof. apply rt_at_ext; try reflexivity. intros a. cbn [move_balance rt_bal]. repeat case_decide; lia. Qed.

Lemma refines_to {A} (m : M A) st r st1 st2 : refines tx_at m st r st1 ->
  (forall d, tx_at st1 d -> tx_at st2 d) -> refines tx_at m st r st2.
Proof. intros Hm He d Hd. destruct (Hm d Hd) as (G & d' & R & Hd'). exists G, d'. auto. Qed.

Context (st : rt_state) (v : Z) (p : TxProcessor) (ctx : TxContext) (utx : Tx) (tx : ArbitrumSubmitRetryableTx).

(** A submission as the inbox makes it. *)
Record sub_ok : Prop := {
  so_cells : cells_ok v st;
  so_id : tx_Hash utx ∈ U;
  so_deposit : in_u 256 (srt_DepositValue tx);
  so_value : in_u 256 (srt_RetryValue tx);
  so_max : in_u 256 (srt_MaxSubmissionFee tx);
  so_hash : in_u 256 (tx_Hash utx);
  so_refundTo : in_u 160 (srt_FeeRefundAddr tx);
  so_cap : 0 <= srt_GasFeeCap tx;
  so_base : 0 <= tc_BaseFee ctx;
  so_gas : srt_Gas tx = sub_gas p;
  so_gas64 : in_u 64 (sub_gas p);
  so_l1 : exists fee, srt_L1BaseFee tx = Some fee /\ 0 <= fee;
  so_from : in_u 160 (srt_From tx);
  so_to a : srt_RetryTo tx = Some a -> in_u 160 a;
  so_ben : in_u 160 (srt_Beneficiary tx);
  so_data : Forall is_byte (srt_RetryData tx);
  so_len : in_u 64 (Z.of_nat (length (srt_RetryData tx)));
  so_put : rt_put st < 2 ^ 64 - 1
}.

Hypothesis OK : sub_ok.

Lemma sub_fee_pos : 0 <= sub_fee tx.
Proof.
  destruct (so_l1 OK) as (fee & Hl & Hfee). unfold sub_fee. rewrite Hl. cbn [default]. unfold RetryableSubmissionFee, BigMulByUint.
  apply Z.mul_nonneg_nonneg; [exact Hfee|apply u64_range].
Qed.

Lemma sub_gasFee_pos : 0 <= sub_gasFee p ctx.
Proof. unfold sub_gasFee. destruct (_ && _); [lia|apply OK]. Qed.

(** The gas of a redeem costs what the two accounts get. *)
Lemma sub_infra_bounds : 0 <= sub_infra st v p ctx <= sub_gasFee p ctx * sub_gas p.
Proof.
  pose proof sub_gasFee_pos. pose proof (ck_min _ _ (so_cells OK)). destruct (so_gas64 OK) as [Hg _].
  unfold sub_infra. destruct (_ && _); nia.
Qed.

(** The infrastructure account is paid. *)
Lemma infra_pay_ref st1 evm : tp_state p = arbosStateAt arbos_root v -> rt_other st1 = rt_other st ->
  sub_gasFee p ctx * sub_gas p <= rt_bal st1 (srt_From tx) ->
  refines tx_at
    (if 11 <=? as_arbosVersion (tp_state p) then
       let* infraFeeAccount := restricted_value 0 (InfraFeeAccount (tp_state p)) in
       if negb (infraFeeAccount =? 0) then
         let* minBaseFee := minBaseFeeWei (tp_state p) in
         let infraFee := BigMin minBaseFee (sub_gasFee p ctx) in
         let infraCost := BigMulByUint infraFee (sub_gas p) in
         let* (infraCost, gascost) := lift (takeFunds (BigMulByUint (sub_gasFee p ctx) (sub_gas p)) infraCost) in
         let* r := duringEvm evm (srt_From tx) infraFeeAccount infraCost in
         ret (match r with Ok _ => Some gascost | _ => None end)
       else ret (Some (BigMulByUint (sub_gasFee p ctx) (sub_gas p)))
     else ret (Some (BigMulByUint (sub_gasFee p ctx) (sub_gas p)))) st1
    (Ok (Some (sub_network st v p ctx))) (move_balance st1 (srt_From tx) (infraAccount st) (sub_infra st v p ctx)).
Proof.
  intros Hp Ho Hb. pose proof sub_infra_bounds as Hi. rewrite Hp. cbn [as_arbosVersion arbosStateAt].
  unfold sub_network, sub_infra in *. destruct (11 <=? v); cbn [andb] in *.
  2: { rewrite Z.sub_0_r. eapply refines_to; [apply refines_ret|apply move_zero]. }
  assert (infraAccount st1 = infraAccount st /\ minFee st1 = minFee st) as [Ei Em] by (unfold infraAccount, minFee; now rewrite Ho).
  pose proof (ck_infra _ _ (so_cells OK)) as Hr. rewrite <- Ei in Hr.
  eapply refines_bind; [apply (restricted_value_ref U Hsys), (InfraFeeAccount_ref U NC), Hr|]. rewrite Ei.
  destruct (infraAccount st =? 0); cbn [negb] in *.
  { rewrite Z.sub_0_r. eapply refines_to; [apply refines_ret|apply move_zero]. }
  eapply refines_bind; [apply (minBaseFeeWei_ref U NC Hsys)|]. rewrite Em. cbv beta zeta. unfold BigMulByUint.
  rewrite BigMin_min.
  rewrite takeFunds_ok by lia. eapply refines_bind; [apply refines_lift|]. cbv beta iota. rewrite Z.min_r by lia.
  eapply refines_bind; [apply pay_ok; lia|apply refines_ret].
Qed.

Lemma network_pay_ref st1 evm : sub_network st v p ctx <= rt_bal st1 (srt_From tx) ->
  refines tx_at
    (if 0 <? sub_network st v p ctx then
       let* r := duringEvm evm (srt_From tx) (netAccount st) (sub_network st v p ctx) in
       ret (match r with Ok _ => true | _ => false end)
     else ret true) st1 (Ok true) (move_balance st1 (srt_From tx) (netAccount st) (sub_network st v p ctx)).
Proof.
  intros Hb. pose proof sub_infra_bounds as Hi. destruct (Z.ltb_spec 0 (sub_network st v p ctx)).
  - eapply refines_bind; [apply pay_ok; lia|apply refines_ret].
  - assert (sub_network st v p ctx = 0) as -> by (unfold sub_network in *; lia).
    eapply refines_to; [apply refines_ret|apply move_zero].
Qed.

(** What is left of the pool at each point is not negative. *)
Lemma sub_bounds : sub_fee tx <= srt_MaxSubmissionFee tx ->
  0 <= sub_refund tx /\ 0 <= sub_left tx /\ 0 <= sub_withheld tx <= sub_fee tx /\
  sub_withheld tx + sub_refund tx + sub_left tx = sub_pool tx /\
  0 <= sub_priceRefund st v p ctx tx <= sub_left tx.
Proof.
  intros Hm. pose proof sub_fee_pos. pose proof sub_infra_bounds.
  unfold sub_priceRefund, sub_left, sub_refund, sub_withheld, sub_pool, sub_network in *. lia.
Qed.

Lemma add_log_ticket st1 l : rt_field (add_log st1 l) = rt_field st1 /\ rt_data (add_log st1 l) = rt_data st1.
Proof. split; reflexivity. Qed.

(** The ticket as it is created. *)
Lemma sub_created_fields l : let st1 := sub_created st ctx utx tx l in let id := tx_Hash utx in
  rt_field st1 id 0 = 0 /\ rt_field st1 id 1 = srt_From tx /\ word_to (rt_field st1 id 2) = srt_RetryTo tx /\
  rt_field st1 id 3 = srt_RetryValue tx /\ rt_data st1 id = srt_RetryData tx /\
  rt_field st1 id 5 = bc_Time (tc_block ctx) +u64 RetryableLifetimeSeconds.
Proof.
  intros st1 id. unfold st1, sub_created.
  match goal with |- context [add_log ?s l] => set (st2 := s); destruct (add_log_ticket st2 l) as [-> ->] end.
  destruct (create_fields (sub_escrowed st utx tx) id (bc_Time (tc_block ctx) +u64 RetryableLifetimeSeconds)
    (srt_From tx) (srt_RetryTo tx) (srt_RetryValue tx) (srt_Beneficiary tx) (srt_RetryData tx)) as (E5 & E1 & E2 & E3 & Ed & _ & E0).
  fold id. fold id in st2. fold st2 in E5, E1, E2, E3, Ed, E0. clearbody st2. rewrite E2. pose proof (word_to_word _ (so_to OK)). auto 10.
Qed.

(** A state with the ticket, from which the gas of the redeem can be paid. *)
Record sub_ready (st1 : rt_state) : Prop := {
  sy_other : rt_other st1 = rt_other st;
  sy_tries : rt_field st1 (tx_Hash utx) 0 = 0;
  sy_from : rt_field st1 (tx_Hash utx) 1 = srt_From tx;
  sy_to : word_to (rt_field st1 (tx_Hash utx) 2) = srt_RetryTo tx;
  sy_value : rt_field st1 (tx_Hash utx) 3 = srt_RetryValue tx;
  sy_data : rt_data st1 (tx_Hash utx) = srt_RetryData tx;
  sy_bal : sub_maxGasCost p tx <= rt_bal st1 (srt_From tx);
  sy_cap : sub_gasFee p ctx <= srt_GasFeeCap tx
}.

Lemma moves_ticket l st1 : rt_field (moves st1 l) = rt_field st1 /\ rt_data (moves st1 l) = rt_data st1.
Proof. revert st1. induction l as [|m l IH]; intros st1; [split; reflexivity|]. apply (IH (move_balance st1 m.1.1 m.1.2 m.2)). Qed.

(** The sender can pay the shares and the refund. *)
Lemma gas_balances st1 : sub_ready st1 -> sub_fee tx <= srt_MaxSubmissionFee tx ->
  let st2 := move_balance st1 (srt_From tx) (infraAccount st) (sub_infra st v p ctx) in
  let st3 := move_balance st2 (srt_From tx) (netAccount st) (sub_network st v p ctx) in
  sub_gasFee p ctx * sub_gas p <= rt_bal st1 (srt_From tx) /\
  sub_network st v p ctx <= rt_bal st2 (srt_From tx) /\ 0 <= sub_network st v p ctx /\
  sub_priceRefund st v p ctx tx <= rt_bal st3 (srt_From tx) /\
  0 <= (srt_GasFeeCap tx - sub_gasFee p ctx) * srt_Gas tx.
Proof.
  intros Hy Hfee st2 st3. pose proof sub_infra_bounds as Hi. pose proof sub_gasFee_pos as Hgf.
  pose proof (so_gas64 OK) as [Hg0 _]. pose proof (sy_bal _ Hy) as Hb. pose proof (sy_cap _ Hy) as Hcap. rewrite (so_gas OK).
  assert (0 <= (srt_GasFeeCap tx - sub_gasFee p ctx) * sub_gas p) as Hdiff by nia.
  assert (sub_priceRefund st v p ctx tx <= (srt_GasFeeCap tx - sub_gasFee p ctx) * sub_gas p) as Hle.
  { unfold sub_priceRefund. rewrite (so_gas OK). lia. }
  pose proof (move_from st1 (srt_From tx) (infraAccount st) (sub_infra st v p ctx)) as Hm. fold st2 in Hm.
  pose proof (move_from st2 (srt_From tx) (netAccount st) (sub_network st v p ctx)) as Hn. fold st3 in Hn.
  unfold sub_maxGasCost, sub_network in *. lia.
Qed.

Lemma scheduleRedeem_ref st1 evm log : tp_state p = arbosStateAt arbos_root v -> sub_ready st1 ->
  sub_fee tx <= srt_MaxSubmissionFee tx -> PackRedeemScheduled (sub_event st v p ctx utx tx) = Ok log ->
  refines tx_at
    (scheduleRedeem p ctx evm utx tx (newRetryable (tx_Hash utx) (ret_space rts (tx_Hash utx))) (netAccount st)
       (sub_gasFee p ctx) (sub_left tx) (sub_withheld tx) (sub_fee tx)) st1
    (Ok (mkStartTxResult true (sub_gas p) None (Hash_Bytes (tx_Hash utx))))
    (add_log (set_field (sub_gasPaid st v p ctx tx st1) (tx_Hash utx) numTriesOffset 1) log).
Proof.
  intros Hp Hy Hfee Hlog. destruct (sub_bounds Hfee) as (_ & _ & _ & Hsum & Hpr).
  destruct (gas_balances st1 Hy Hfee) as (Hb1 & Hb2 & Hn & Hb3 & Hdiff).
  destruct (moves_ticket [(srt_From tx, infraAccount st, sub_infra st v p ctx); (srt_From tx, netAccount st, sub_network st v p ctx);
             (srt_From tx, srt_FeeRefundAddr tx, sub_priceRefund st v p ctx tx)] st1) as [Ef Ed].
  fold (sub_gasPaid st v p ctx tx st1) in Ef, Ed. set (st4 := sub_gasPaid st v p ctx tx st1) in *.
  unfold scheduleRedeem. fold (sub_gas p).
  eapply refines_bind; [apply infra_pay_ref; [exact Hp|apply Hy|exact Hb1]|]. cbv beta iota.
  eapply refines_bind; [apply network_pay_ref, Hb2|]. cbn [negb].
  rewrite takeFunds_ok by exact Hn. eapply refines_bind; [apply refines_lift|]. cbv beta iota. unfold BigMulByUint, BigSub.
  rewrite (proj2 (Z.ltb_ge _ _) Hdiff), takeFunds_ok by exact Hdiff. eapply refines_bind; [apply refines_lift|]. cbv beta iota.
  replace (Z.min _ (_ * srt_Gas tx)) with (sub_priceRefund st v p ctx tx) by (unfold sub_priceRefund; lia).
  eapply refines_bind; [apply pay_ok; split; [apply Hpr|exact Hb3]|]. cbv beta.
  match goal with |- refines _ _ ?s _ _ => change s with st4 end.
  replace (sub_left tx - _ - _ + _ + _) with (sub_maxRefund st v p ctx tx) by (unfold sub_maxRefund; lia).
  eapply refines_bind; [eapply refines_bind; [apply refines_attempt, (MakeTx_ref rts U), (so_id OK)|];
    eapply refines_bind; [apply (refines_restrict U Hsys)|apply refines_ret]|].
  rewrite Ef, Ed, (sy_from _ Hy), (sy_to _ Hy), (sy_value _ Hy), (sy_data _ Hy). fold (sub_redeem st v p ctx utx tx).
  eapply refines_bind; [eapply (restricted_ref U Hsys), (field_increment rts U (rts_ok U NC)); [apply (so_id OK)|auto|]|].
  { rewrite Ef. unfold numTriesOffset. rewrite (sy_tries _ Hy). reflexivity. }
  rewrite Ef. unfold numTriesOffset. rewrite (sy_tries _ Hy). unfold EmitReedeemScheduledEvent.
  change (art_Nonce (sub_redeem st v p ctx utx tx)) with 0. fold (sub_event st v p ctx utx tx). rewrite Hlog.
  eapply refines_bind; [apply (emit_ref U)|apply refines_ret].
Qed.

Hypothesis POS : forall a, 0 <= rt_bal st a.

(** The transfers that the code calls impossible to fail do not fail. *)
Lemma sub_paid_balances : sub_fee tx <= srt_MaxSubmissionFee tx <= rt_bal (sub_minted st tx) (srt_From tx) ->
  let st1 := move_balance (sub_minted st tx) (srt_From tx) (netAccount st) (sub_fee tx) in
  let st2 := move_balance (sub_paid st tx) (netAccount st) (srt_From tx) (sub_fee tx) in
  sub_refund tx <= rt_bal st1 (srt_From tx) /\ sub_fee tx <= rt_bal (sub_paid st tx) (netAccount st) /\
  sub_withheld tx <= rt_bal st2 (srt_From tx) /\
  srt_DepositValue tx - sub_fee tx - sub_refund tx <= rt_bal (sub_paid st tx) (srt_From tx).
Proof.
  intros [Hmax Hbal]. destruct (sub_bounds Hmax) as (Hr & Hl & Hw & Hsum & _). pose proof sub_fee_pos.
  pose proof (POS (srt_From tx)). pose proof (POS (netAccount st)). destruct (so_deposit OK) as [Hd _]. destruct (so_value OK) as [Hv _].
  assert (sub_refund tx <= srt_MaxSubmissionFee tx - sub_fee tx) by (unfold sub_refund; lia).
  assert (sub_pool tx <= srt_DepositValue tx) by (unfold sub_pool; lia).
  revert Hbal. unfold sub_paid, moves, sub_minted. cbn [fold_left fst snd move_balance mint rt_bal]. intros Hbal.
  generalize dependent (netAccount st). generalize dependent (srt_From tx). generalize dependent (srt_FeeRefundAddr tx). intros.
  repeat split; repeat case_decide; subst; try congruence; lia.
Qed.

Lemma sub_escrowed_balance : sub_fee tx <= srt_MaxSubmissionFee tx <= rt_bal (sub_minted st tx) (srt_From tx) ->
  srt_RetryValue tx <= rt_bal (sub_paid st tx) (srt_From tx) ->
  sub_left tx <= rt_bal (sub_escrowed st utx tx) (srt_From tx).
Proof.
  intros Hm Hv. destruct (sub_paid_balances Hm) as (_ & _ & _ & Hp). destruct (so_value OK) as [Hv0 _].
  pose proof (move_from (sub_paid st tx) (srt_From tx) (RetryableEscrowAddress (tx_Hash utx)) (srt_RetryValue tx) Hv0) as He.
  fold (sub_escrowed st utx tx) in He. destruct (sub_bounds (proj1 Hm)) as (Hr & _). pose proof sub_fee_pos.
  unfold sub_left, sub_refund, sub_withheld, sub_pool in *. lia.
Qed.

Lemma sub_event_ok : TxHostLaws H -> sub_fee tx <= srt_MaxSubmissionFee tx -> redeem_ok (sub_event st v p ctx utx tx).
Proof.
  intros HL Hm. destruct (sub_bounds Hm) as (Hr & Hl & Hw & Hsum & Hpr). pose proof sub_fee_pos.
  pose proof (so_deposit OK). pose proof (so_value OK). pose proof (so_max OK). pose proof (so_gas64 OK).
  split; cbn [sub_event ev_TicketId ev_RetryTxHash ev_SequenceNum ev_DonatedGas ev_GasDonor ev_MaxRefund ev_SubmissionFeeRefund].
  - apply OK.
  - apply RetryTx_Hash_range.
  - uint.
  - assumption.
  - apply OK.
  - unfold sub_maxRefund. assert (sub_pool tx <= srt_DepositValue tx) by (unfold sub_pool; uint). uint.
  - uint.
Qed.

Lemma create_balance st1 id timeout from to value ben data l :
  rt_bal (add_log (create_spec st1 id timeout from to value ben data) l) = rt_bal st1 /\
  rt_other (add_log (create_spec st1 id timeout from to value ben data) l) = rt_other st1 /\
  rt_logs (add_log (create_spec st1 id timeout from to value ben data) l) = rt_logs st1 ++ [l].
Proof. repeat split; reflexivity. Qed.

Lemma sub_created_same l : rt_bal (sub_created st ctx utx tx l) = rt_bal (sub_escrowed st utx tx) /\
  rt_other (sub_created st ctx utx tx l) = rt_other st /\ rt_logs (sub_created st ctx utx tx l) = rt_logs st ++ [l].
Proof.
  change (rt_other st) with (rt_other (sub_escrowed st utx tx)). change (rt_logs st) with (rt_logs (sub_escrowed st utx tx)).
  apply create_balance.
Qed.

Lemma sub_created_ready log : sub_noRedeem p ctx tx (rt_bal (sub_escrowed st utx tx) (srt_From tx)) = false ->
  sub_ready (sub_created st ctx utx tx log).
Proof.
  intros Hn. unfold sub_noRedeem in Hn. apply orb_false_iff in Hn as [Hn Hcap]. apply orb_false_iff in Hn as [Hn _].
  apply Z.ltb_ge in Hn, Hcap. destruct (sub_created_fields log) as (E0 & E1 & E2 & E3 & Ed & _).
  destruct (sub_created_same log) as (Eb & Eo & _). refine (Build_sub_ready _ Eo E0 E1 E2 E3 Ed _ Hcap). rewrite Eb. exact Hn.
Qed.

Lemma take_ref st1 pool take : 0 <= take ->
  refines tx_at (lift (takeFunds pool take)) st1 (Ok (Z.min pool take, pool - Z.min pool take)) st1.
Proof. intros Ht. rewrite takeFunds_ok by exact Ht. apply refines_lift. Qed.

(** From the call value in escrow on. *)
Lemma submitTicket_ref evm ticketCreated redeemScheduled : tp_state p = arbosStateAt arbos_root v ->
  PackTicketCreated (tx_Hash utx) = Ok ticketCreated ->
  PackRedeemScheduled (sub_event st v p ctx utx tx) = Ok redeemScheduled ->
  sub_fee tx <= srt_MaxSubmissionFee tx <= rt_bal (sub_minted st tx) (srt_From tx) ->
  srt_RetryValue tx <= rt_bal (sub_paid st tx) (srt_From tx) ->
  wp tx_at (submitTicket p ctx evm utx tx (netAccount st) (sub_left tx) (sub_withheld tx) (sub_fee tx)) (sub_escrowed st utx tx)
    (fun r st' => exists res, r = Ok res /\ submission st v p ctx utx tx ticketCreated redeemScheduled res st').
Proof.
  intros Hp Hl1 Hl2 Hm Hv. unfold submitTicket. eapply wp_seq.
  { apply (restricted_value_ref U Hsys). rewrite Hp. apply (CreateRetryable_ref rts U (rts_ok U NC));
      [apply (so_id OK)|apply u64_range|apply (so_from OK)|apply (so_to OK)|apply (so_value OK)|apply (so_ben OK)
      |apply (so_data OK)|apply (so_len OK)|apply (so_put OK)]. }
  unfold EmitTicketCreatedEvent. rewrite Hl1. eapply wp_seq; [apply (emit_ref U)|].
  fold (sub_created st ctx utx tx ticketCreated). destruct (sub_created_same ticketCreated) as (Eb & _).
  eapply wp_seq; [apply (rt_balance rts U)|]. cbv beta zeta. rewrite Eb.
  change (_ || _) with (sub_noRedeem p ctx tx (rt_bal (sub_escrowed st utx tx) (srt_From tx))).
  pose proof (sub_escrowed_balance Hm Hv) as Hesc. destruct (sub_bounds (proj1 Hm)) as (_ & Hle & _).
  assert (0 <= sub_maxGasCost p tx) as Hmax by (pose proof (so_cap OK); destruct (so_gas64 OK); unfold sub_maxGasCost; nia).
  destruct (sub_noRedeem p ctx tx (rt_bal (sub_escrowed st utx tx) (srt_From tx))) eqn:Hn.
  - eapply wp_seq; [apply take_ref, Hmax|]. cbv beta iota. change (Z.min (sub_left tx) _) with (sub_gasRefund p tx).
    eapply wp_seq; [apply pay_ok; rewrite Eb; unfold sub_gasRefund; lia|].
    apply wp_ret. eexists. split; [reflexivity|]. now apply sub_unscheduled.
  - eapply wp_refines; [apply (scheduleRedeem_ref _ evm redeemScheduled Hp); [now apply sub_created_ready|apply Hm|exact Hl2]|].
    eexists. split; [reflexivity|]. now apply sub_scheduled.
Qed.

Lemma submitRetryable_ref evm ticketCreated redeemScheduled : tp_state p = arbosStateAt arbos_root v ->
  PackTicketCreated (tx_Hash utx) = Ok ticketCreated ->
  (sub_fee tx <= srt_MaxSubmissionFee tx -> PackRedeemScheduled (sub_event st v p ctx utx tx) = Ok redeemScheduled) ->
  wp tx_at (submitRetryable p ctx evm utx tx) st (fun r st' => exists res, r = Ok res /\
    submission st v p ctx utx tx ticketCreated redeemScheduled res st').
Proof.
  intros Hp Hl1 Hl2. destruct (so_l1 OK) as (l1 & El1 & _). destruct (so_deposit OK) as [Hd0 _]. destruct (so_value OK) as [Hv0 _].
  unfold submitRetryable.
  eapply wp_seq; [apply refines_value_or; rewrite Hp; apply (NetworkFeeAccount_ref U NC), (so_cells OK)|].
  eapply wp_seq; [apply take_ref, Hv0|]. cbv beta iota.
  replace (srt_DepositValue tx - _) with (sub_pool tx) by (unfold sub_pool; lia).
  eapply wp_seq; [apply (mint_ref U); [exact Hd0|right; right; reflexivity]|].
  eapply wp_seq; [apply (rt_balance rts U)|]. cbv beta. fold (sub_minted st tx).
  destruct (Z.ltb_spec (rt_bal (sub_minted st tx) (srt_From tx)) (srt_MaxSubmissionFee tx)) as [Hlt|Hbal].
  { apply wp_ret. eexists. split; [reflexivity|]. constructor. now left. }
  rewrite El1. assert (RetryableSubmissionFee (Z.of_nat (length (srt_RetryData tx))) l1 = sub_fee tx) as ->
    by (unfold sub_fee; now rewrite El1).
  unfold BigLessThan at 1. destruct (Z.ltb_spec (srt_MaxSubmissionFee tx) (sub_fee tx)) as [Hlt|Hfee].
  { apply wp_ret. eexists. split; [reflexivity|]. constructor. now right. }
  assert (sub_fee tx <= srt_MaxSubmissionFee tx <= rt_bal (sub_minted st tx) (srt_From tx)) as Hm by lia. pose proof sub_fee_pos as Hf0.
  destruct (sub_paid_balances Hm) as (Hb1 & Hb2 & Hb3 & _). destruct (sub_bounds Hfee) as (Hr & Hle & Hw & Hsum & _).
  eapply wp_seq; [apply pay_ok; lia|]. cbv beta iota.
  eapply wp_seq; [apply take_ref, Hf0|]. cbv beta iota. fold (sub_withheld tx).
  eapply wp_seq; [apply take_ref; unfold BigSub; lia|]. cbv beta iota. unfold BigSub. fold (sub_refund tx) (sub_left tx).
  eapply wp_seq; [apply pay_ok; lia|]. cbv beta.
  match goal with |- wp _ _ ?s _ => change s with (sub_paid st tx) end.
  destruct (Z.lt_ge_cases (rt_bal (sub_paid st tx) (srt_From tx)) (srt_RetryValue tx)) as [Hv|Hv].
  { eapply wp_seq; [apply pay_err; [exact Hv0|exact Hv]|]. cbv beta iota.
    eapply wp_seq; [apply pay_ok; lia|]. eapply wp_seq; [apply pay_ok; lia|].
    apply wp_ret. eexists. split; [reflexivity|]. now apply sub_noCallvalue. }
  eapply wp_seq; [apply pay_ok; lia|]. cbv beta iota. fold (sub_escrowed st utx tx).
  now apply submitTicket_ref; auto.
Qed.
End Submit.

Section Start.
Context {E : Env} {EL : EnvLaws E} {T : TxEnv} {H : TxHost} {ABI : InternalTxAbi} (U : list Z).
Notation rts := (OpenCachedSubStorage arbos_root retryablesSubspace).
Notation tx_at := (rt_at rts U).
Hypothesis NC : spaces_ok (tx_spaces U).
Hypothesis Hsys : forall e b, Restrict e b = Ok tt.

Lemma startTracer_ref v st p evm : cells_ok v st -> tp_state p = arbosStateAt arbos_root v ->
  (evm_tracer evm = true -> cm_To (tp_msg p) <> None) ->
  exists evm', refines tx_at (startTracer p evm) st (Ok (p, evm')) st.
Proof.
  intros Hc Hp Ht. unfold startTracer. destruct (evm_tracer evm); [|exists evm; apply refines_ret].
  destruct (cm_To (tp_msg p)); [|destruct (Ht eq_refl eq_refl)].
  eexists. eapply refines_bind; [apply (OpenState_ref U NC v st Hc)|].
  replace p with (tp_set_state p (arbosStateAt arbos_root v)) at 2 by (rewrite <- Hp; now destruct p). apply refines_ret.
Qed.

Lemma endTracer_ref v st p evm : cells_ok v st -> tp_state p = arbosStateAt arbos_root v ->
  refines tx_at (endTracer p evm) st (Ok p) st.
Proof.
  intros Hc Hp. unfold endTracer. destruct (evm_tracer evm); [|apply refines_ret].
  eapply refines_bind; [apply (OpenState_ref U NC v st Hc)|].
  replace p with (tp_set_state p (arbosStateAt arbos_root v)) at 2 by (rewrite <- Hp; now destruct p). apply refines_ret.
Qed.

(** A submission changes none of the cells that it reads. *)
Lemma submission_other st v p ctx utx tx l1 l2 res st' : submission st v p ctx utx tx l1 l2 res st' -> rt_other st' = rt_other st.
Proof. destruct 1; reflexivity. Qed.

Lemma cells_ok_other v st st' : rt_other st' = rt_other st -> cells_ok v st -> cells_ok v st'.
Proof. intros Ho [H1 H2 H3 H4 H5 H6]. split; unfold netAccount, infraAccount, minFee in *; rewrite ?Ho; auto. Qed.

Lemma StartTxHook_submit_ref st v p ctx utx tx l1 l2 : (forall a, 0 <= rt_bal st a) ->
  cm_Tx (tp_msg p) = Some utx -> tx_Inner utx = InnerSubmitRetryable tx -> tp_state p = arbosStateAt arbos_root v ->
  (evm_tracer (tc_evm ctx) = true -> cm_To (tp_msg p) <> None) ->
  let p' := tp_set_topType p (tx_Type (tx_Raw utx)) in
  sub_ok U st v p' ctx utx tx -> PackTicketCreated (tx_Hash utx) = Ok l1 ->
  (sub_fee tx <= srt_MaxSubmissionFee tx -> PackRedeemScheduled (sub_event st v p' ctx utx tx) = Ok l2) ->
  wp tx_at (StartTxHook p ctx) st (fun r st' => exists res, r = Ok (res, p') /\ submission st v p' ctx utx tx l1 l2 res st').
Proof.
  intros Hpos Ht Hi Hp Htr p' OK Hl1 Hl2. unfold StartTxHook. rewrite Ht, Hi. fold p'. assert (tp_state p' = arbosStateAt arbos_root v) as Hp' by exact Hp.
  destruct (startTracer_ref v st p' (tc_evm ctx) (so_cells _ _ _ _ _ _ _ OK) Hp' Htr) as [evm' Hs].
  eapply wp_seq; [exact Hs|]. cbv beta iota. apply wp_bind.
  eapply wp_conseq; [apply (submitRetryable_ref U NC Hsys st v p' ctx utx tx OK Hpos evm' l1 l2 Hp' Hl1 Hl2)|].
  intros r st' (res & -> & Hsub). cbv beta iota.
  eapply wp_seq; [apply (endTracer_ref v); [|exact Hp']|apply wp_ret; eauto].
  eapply cells_ok_other; [eapply submission_other, Hsub|apply OK].
Qed.
End Start.

(** The accounts of a submission. *)
Definition sub_accounts {E : Env} (st : rt_state) (utx : Z) (tx : ArbitrumSubmitRetryableTx) : list Z :=
  [srt_From tx; srt_FeeRefundAddr tx; netAccount st; infraAccount st; RetryableEscrowAddress utx].

Lemma held_create {E : Env} st id timeout from to value ben data l accounts :
  held (add_log (create_spec st id timeout from to value ben data) l) accounts = held st accounts.
Proof. reflexivity. Qed.

Lemma held_marked st id k x l accounts : held (add_log (set_field st id k x) l) accounts = held st accounts.
Proof. reflexivity. Qed.

(** Accounts are compared by name. *)
Ltac by_name := cbn [fst snd]; match goal with
  | Hx : ?a ∈ ?l |- ?b ∈ ?l => constr_eq a b; exact Hx
  | Hx : NoDup ?l |- NoDup ?l => exact Hx
  end.

Ltac in_accounts := first [by_name | repeat (apply Forall_cons_2; [split; by_name|]); apply Forall_nil_2].

Lemma submission_conserves {E : Env} {T : TxEnv} {H : TxHost} st v p ctx utx tx l1 l2 res st' accounts :
  submission st v p ctx utx tx l1 l2 res st' -> NoDup accounts -> sub_accounts st (tx_Hash utx) tx ⊆ accounts ->
  held st' accounts = held st accounts + srt_DepositValue tx.
Proof.
  intros Hs Hn Hin. unfold sub_accounts in Hin.
  assert (Forall (fun a => a ∈ accounts) [srt_From tx; srt_FeeRefundAddr tx; netAccount st; infraAccount st; RetryableEscrowAddress (tx_Hash utx)])
    as Ha by (apply Forall_forall; intros a Ha; apply Hin, Ha).
  repeat (apply Forall_cons in Ha as [? Ha]).
  assert (held (sub_paid st tx) accounts = held st accounts + srt_DepositValue tx) as Hp.
  { unfold sub_paid. rewrite held_moves by in_accounts. apply held_mint; in_accounts. }
  destruct Hs; unfold sub_returned, sub_gasPaid, sub_created, sub_escrowed.
  - apply held_mint; in_accounts.
  - rewrite held_moves by in_accounts. exact Hp.
  - rewrite held_move, held_create, held_move by in_accounts. exact Hp.
  - rewrite held_marked, held_moves, held_create, held_move by in_accounts. exact Hp.
Qed.

(** ** The redeems that are scheduled *)

Section Scheduled.
Context {E : Env} {EL : EnvLaws E} {T : TxEnv} {H : TxHost} {HL : TxHostLaws H} {ABI : InternalTxAbi} (U : list Z).
Notation rts := (OpenCachedSubStorage arbos_root retryablesSubspace).
Notation tx_at := (rt_at rts U).
Hypothesis NC : spaces_ok (tx_spaces U).

Lemma scheduledTxes_created p ctx fee id log logs : PackTicketCreated id = Ok log ->
  scheduledTxes p ctx fee (log :: logs) = scheduledTxes p ctx fee logs.
Proof.
  intros Hl. destruct (ticketCreated_log id) as (log' & topic & topics & Hl' & Ha & Ht & Hne).
  assert (log' = log) as -> by congruence. cbn [scheduledTxes]. rewrite Ha, Z.eqb_refl, Ht. cbn [negb].
  rewrite (proj2 (Z.eqb_neq _ _) Hne). reflexivity.
Qed.

(** An announcement becomes the transaction it announces, if the ticket is open. *)
Lemma scheduledTxes_announced p ctx fee st e log v : redeem_ok e -> PackRedeemScheduled e = Ok log ->
  tp_state p = arbosStateAt arbos_root v -> ev_TicketId e ∈ U -> rt_open st (ev_TicketId e) (bc_Time (tc_block ctx)) = true ->
  refines tx_at (scheduledTxes p ctx fee [log]) st
    (Ok [mkArbitrumRetryTx (tc_ChainID ctx) (ev_SequenceNum e) (rt_field st (ev_TicketId e) 1) fee (ev_DonatedGas e)
           (word_to (rt_field st (ev_TicketId e) 2)) (rt_field st (ev_TicketId e) 3) (rt_data st (ev_TicketId e)) (ev_TicketId e)
           (ev_GasDonor e) (ev_MaxRefund e) (ev_SubmissionFeeRefund e)]) st.
Proof.
  intros He Hl Hp Hid Hopen. destruct (redeemScheduled_log e He) as (log' & topics & Hl' & Ha & Ht & Hparse).
  assert (log' = log) as -> by congruence. cbn [scheduledTxes]. rewrite Ha, Z.eqb_refl, Ht. cbn [negb].
  rewrite Z.eqb_refl. cbn [negb]. rewrite Hparse, Hp.
  eapply refines_bind; [apply refines_attempt, (OpenRetryable_ref rts U), Hid|]. cbv beta. rewrite Hopen.
  eapply refines_bind; [apply refines_attempt, (MakeTx_ref rts U), Hid|]. cbv beta iota.
  eapply refines_bind; apply refines_ret.
Qed.

Lemma logs_ref st : refines tx_at (db_read GetCurrentTxLogs) st (Ok (rt_logs st)) st.
Proof. intros d Hd. exists 0, d. split; [|exact Hd]. rewrite <- (ra_logs _ _ _ _ Hd). apply (runs_db_read GetCurrentTxLogs). Qed.

Lemma set_field_other st id k k' x : k <> k' -> rt_field (set_field st id k x) id k' = rt_field st id k'.
Proof. intros Hk. cbn [set_field rt_field]. rewrite (proj2 (Z.eqb_neq k' k)) by auto. now rewrite andb_false_r. Qed.

Lemma marked_fields st1 l l2 id : let st' := add_log (set_field (moves st1 l) id numTriesOffset 1) l2 in
  rt_logs st' = rt_logs st1 ++ [l2] /\ (forall k, 0 <> k -> rt_field st' id k = rt_field st1 id k) /\ rt_data st' = rt_data st1.
Proof.
  assert (rt_logs (moves st1 l) = rt_logs st1) as El.
  { revert st1. induction l as [|m l IH]; intros st1; [reflexivity|]. apply (IH (move_balance st1 m.1.1 m.1.2 m.2)). }
  destruct (moves_ticket l st1) as [Ef Ed]. generalize dependent (moves st1 l). intros st2 El Ef Ed st'. split; [|split].
  - cbn [st' add_log set_field rt_logs]. now rewrite El.
  - intros k Hk. change (rt_field st' id k) with (rt_field (set_field st2 id 0 1) id k). now rewrite set_field_other, Ef.
  - exact Ed.
Qed.

(** The ticket and the logs of a submission whose redeem is announced. *)
Lemma scheduled_ticket st v p ctx utx tx l1 l2 : sub_ok U st v p ctx utx tx -> rt_logs st = [] ->
  let st' := add_log (set_field (sub_gasPaid st v p ctx tx (sub_created st ctx utx tx l1)) (tx_Hash utx) numTriesOffset 1) l2 in
  let id := tx_Hash utx in
  rt_logs st' = [l1; l2] /\ rt_field st' id 1 = srt_From tx /\ word_to (rt_field st' id 2) = srt_RetryTo tx /\
  rt_field st' id 3 = srt_RetryValue tx /\ rt_data st' id = srt_RetryData tx /\
  rt_field st' id 5 = bc_Time (tc_block ctx) +u64 RetryableLifetimeSeconds.
Proof.
  intros OK Hlogs st' id. destruct (sub_created_fields U st v p ctx utx tx OK l1) as (_ & E1 & E2 & E3 & Ed & E5).
  destruct (sub_created_same st ctx utx tx l1) as (_ & _ & El). rewrite Hlogs in El.
  unfold st', sub_gasPaid. remember (sub_created st ctx utx tx l1) as st1 eqn:Hst1. clear Hst1.
  destruct (marked_fields st1 [(srt_From tx, infraAccount st, sub_infra st v p ctx); (srt_From tx, netAccount st, sub_network st v p ctx);
    (srt_From tx, srt_FeeRefundAddr tx, sub_priceRefund st v p ctx tx)] l2 (tx_Hash utx)) as (-> & Ef & ->).
  unfold id. rewrite (Ef 1), (Ef 2), (Ef 3), (Ef 5), El by discriminate. split; [reflexivity|]. auto 10.
Qed.

Lemma move_logs st from to amount : rt_logs (move_balance st from to amount) = rt_logs st.
Proof. reflexivity. Qed.

Lemma sub_gas_used p ctx tx balance : sub_noRedeem p ctx tx balance = false -> (sub_gas p =? 0) = false.
Proof.
  unfold sub_noRedeem. intros Hn. apply orb_false_iff in Hn as [Hn _]. apply orb_false_iff in Hn as [_ Hn].
  apply Z.ltb_ge in Hn. unfold TxGas in Hn. apply Z.eqb_neq. lia.
Qed.

(** A state with the ticket and the two logs schedules the redeem. *)
Lemma announced_scheduled st v p ctx utx tx l1 l2 st5 : sub_ok U st v p ctx utx tx ->
  tp_state p = arbosStateAt arbos_root v -> tc_ChainID ctx = tx_ChainId utx ->
  0 <= bc_Time (tc_block ctx) -> bc_Time (tc_block ctx) + RetryableLifetimeSeconds < 2 ^ 64 ->
  PackTicketCreated (tx_Hash utx) = Ok l1 -> PackRedeemScheduled (sub_event st v p ctx utx tx) = Ok l2 ->
  sub_fee tx <= srt_MaxSubmissionFee tx ->
  (rt_logs st5 = [l1; l2] /\ rt_field st5 (tx_Hash utx) 1 = srt_From tx /\ word_to (rt_field st5 (tx_Hash utx) 2) = srt_RetryTo tx /\
   rt_field st5 (tx_Hash utx) 3 = srt_RetryValue tx /\ rt_data st5 (tx_Hash utx) = srt_RetryData tx /\
   rt_field st5 (tx_Hash utx) 5 = bc_Time (tc_block ctx) +u64 RetryableLifetimeSeconds) ->
  refines tx_at (scheduledTxes p ctx (sub_gasFee p ctx) (rt_logs st5)) st5 (Ok [sub_redeem st v p ctx utx tx]) st5.
Proof.
  intros OK Hp Hchain Ht0 Ht Hl1 Hl2 Hm (-> & E1 & E2 & E3 & Ed & E5).
  rewrite (scheduledTxes_created p ctx _ _ _ _ Hl1).
  pose proof (scheduledTxes_announced p ctx (sub_gasFee p ctx) st5 _ l2 v (sub_event_ok U st v p ctx utx tx OK HL Hm)
    Hl2 Hp (so_id _ _ _ _ _ _ _ OK)) as Hs.
  cbn [sub_event ev_TicketId ev_SequenceNum ev_DonatedGas ev_GasDonor ev_MaxRefund ev_SubmissionFeeRefund] in Hs.
  rewrite E1, E2, E3, Ed, Hchain in Hs. apply Hs. unfold rt_open, timeoutOffset. rewrite E5.
  unfold RetryableLifetimeSeconds in *. rewrite uwrap_id by (unfold in_u; lia).
  rewrite (proj2 (Z.eqb_neq _ _)), (proj2 (Z.ltb_ge _ _)) by lia. reflexivity.
Qed.

Lemma submission_scheduled st v p ctx utx tx l1 l2 res st' : sub_ok U st v p ctx utx tx -> rt_logs st = [] ->
  tp_state p = arbosStateAt arbos_root v -> tc_ChainID ctx = tx_ChainId utx ->
  0 <= bc_Time (tc_block ctx) -> bc_Time (tc_block ctx) + RetryableLifetimeSeconds < 2 ^ 64 ->
  PackTicketCreated (tx_Hash utx) = Ok l1 ->
  (sub_fee tx <= srt_MaxSubmissionFee tx -> PackRedeemScheduled (sub_event st v p ctx utx tx) = Ok l2) ->
  submission st v p ctx utx tx l1 l2 res st' ->
  refines tx_at (ScheduledTxes p ctx) st' (Ok (if sr_gasUsed res =? 0 then [] else [sub_redeem st v p ctx utx tx])) st'.
Proof.
  intros OK Hlogs Hp Hchain Ht0 Ht Hl1 Hl2 Hsub. unfold ScheduledTxes. fold (sub_gasFee p ctx).
  eapply refines_bind; [apply logs_ref|]. cbv beta.
  destruct Hsub as [msg Hx|Hm Hx|Hm Hv Hn|Hm Hv Hn]; cbn [sr_gasUsed Z.eqb].
  - change (rt_logs (sub_minted st tx)) with (rt_logs st). rewrite Hlogs. apply refines_ret.
  - change (rt_logs (sub_returned st tx)) with (rt_logs st). rewrite Hlogs. apply refines_ret.
  - assert (rt_logs (move_balance (sub_created st ctx utx tx l1) (srt_From tx) (srt_FeeRefundAddr tx) (sub_gasRefund p tx)) = [l1]) as ->.
    { destruct (sub_created_same st ctx utx tx l1) as (_ & _ & El). now rewrite move_logs, El, Hlogs. }
    rewrite (scheduledTxes_created p ctx _ _ _ _ Hl1). apply refines_ret.
  - rewrite (sub_gas_used p ctx tx _ Hn).
    apply (announced_scheduled st v p ctx utx tx l1 l2 _ OK Hp Hchain Ht0 Ht Hl1 (Hl2 (proj1 Hm)) (proj1 Hm)).
    apply (scheduled_ticket st v p ctx utx tx l1 l2 OK Hlogs).
Qed.
End Scheduled.

(** The logs of a submission. *)
Lemma sub_logs {E : Env} {T : TxEnv} {H : TxHost} {HL : TxHostLaws H} U st v p ctx utx tx : sub_ok U st v p ctx utx tx ->
  exists l1 l2 topics, PackTicketCreated (tx_Hash utx) = Ok l1 /\
    (sub_fee tx <= srt_MaxSubmissionFee tx -> PackRedeemScheduled (sub_event st v p ctx utx tx) = Ok l2 /\
       log_Address l2 = ArbRetryableTxAddress /\ log_Topics l2 = RedeemScheduledEventID :: topics /\
       ParseRedeemScheduledLog l2 = Ok (sub_event st v p ctx utx tx)).
Proof.
  intros OK. destruct (ticketCreated_log (tx_Hash utx)) as (l1 & _ & _ & Hl1 & _).
  destruct (Z.le_gt_cases (sub_fee tx) (srt_MaxSubmissionFee tx)) as [Hle|Hgt]; [|exists l1, l1, []; split; [exact Hl1|lia]].
  destruct (redeemScheduled_log _ (sub_event_ok U st v p ctx utx tx OK HL Hle)) as (l2 & topics & Hl2).
  exists l1, l2, topics. auto.
Qed.

(** ** Properties *)

(** C5: the submission of a retryable ends the transaction in one of four ways:
    with an error because the submission fee is not covered; with an error because
    the call value is not, in which case the fee is given back and no ticket
    is made; with a ticket whose first redeem is not paid for; or with a ticket
    whose first redeem is paid for and announced. The transfers that the code
    considers impossible to fail do not. In each case the accounts together gain
    exactly the deposit, and the refund address is paid, or promised for the redeem, no
    more than the deposit exceeds the call value. *)
Theorem StartTxHook_submits {E : Env} {EL : EnvLaws E} {T : TxEnv} {H : TxHost} {HL : TxHostLaws H} {ABI : InternalTxAbi}
    (U : list Z) v st d p ctx utx tx :
  spaces_ok (tx_spaces U) -> (forall e b, Restrict e b = Ok tt) ->
  rt_at (OpenCachedSubStorage arbos_root retryablesSubspace) U st d ->
  cm_Tx (tp_msg p) = Some utx -> tx_Inner utx = InnerSubmitRetryable tx -> tp_state p = arbosStateAt arbos_root v ->
  (evm_tracer (tc_evm ctx) = true -> cm_To (tp_msg p) <> None) ->
  let p' := tp_set_topType p (tx_Type (tx_Raw utx)) in
  sub_ok U st v p' ctx utx tx ->
  exists G d' res st' ticketCreated redeemScheduled,
    runs G (StartTxHook p ctx) d (Ok (res, p')) d' /\
    rt_at (OpenCachedSubStorage arbos_root retryablesSubspace) U st' d' /\
    submission st v p' ctx utx tx ticketCreated redeemScheduled res st' /\
    (forall accounts, NoDup accounts -> sub_accounts st (tx_Hash utx) tx ⊆ accounts ->
       held st' accounts = held st accounts + srt_DepositValue tx) /\
    (sub_fee tx <= srt_MaxSubmissionFee tx ->
       0 <= sub_refund tx /\ sub_refund tx + sub_withheld tx <= sub_pool tx /\ sub_refund tx + sub_gasRefund p' tx <= sub_pool tx /\
       0 <= sub_priceRefund st v p' ctx tx /\ 0 <= sub_maxRefund st v p' ctx tx).
Proof.
  intros NC Hsys Hd Ht Hi Hp Htr p' OK.
  destruct (sub_logs U st v p' ctx utx tx OK) as (l1 & l2 & topics & Hl1 & Hl2).
  destruct (StartTxHook_submit_ref U NC Hsys st v p ctx utx tx l1 l2 (ra_pos _ _ _ _ Hd) Ht Hi Hp Htr OK Hl1 (fun h => proj1 (Hl2 h)))
    as (r & st' & R & res & -> & Hsub).
  destruct (R d Hd) as (G & d' & Hrun & Hd'). exists G, d', res, st', l1, l2. split; [exact Hrun|]. split; [exact Hd'|].
  split; [exact Hsub|]. split; [intros; eapply submission_conserves; eauto|].
  intros Hfee. destruct (sub_bounds U st v p' ctx utx tx OK Hfee) as (Hr & Hl & Hw & Hsum & Hpr).
  unfold sub_gasRefund, sub_maxRefund. lia.
Qed.

(** A submission that pays for its redeem. *)
Definition ex_submit : ArbitrumSubmitRetryableTx :=
  mkArbitrumSubmitRetryableTx 412346 0 9 (Some 1) 300000 12 21000 (Some 8) 1000 11 2000 77 [1; 2].

Definition ex_submitter : TxProcessor (T := example_txs) := ex_processor (ex_msg (InnerSubmitRetryable ex_submit) 105 (Some 110) 21000).

Definition ex_utx : Tx (T := example_txs) := mkTx (T := example_txs) (105, [1; 2; 3]) 0 (InnerSubmitRetryable ex_submit) 5 412346.

Lemma ex_sub_ok : sub_ok (E := TestEnv) (T := example_txs) ex_tx_ids ex_tx_state 30
  (tp_set_topType ex_submitter 105) ex_ctx ex_utx ex_submit.
Proof.
  split; [exact ex_cells_ok|left|..]; cbn [ex_utx ex_submit tx_Hash srt_DepositValue srt_RetryValue srt_MaxSubmissionFee
    srt_FeeRefundAddr srt_GasFeeCap srt_Gas srt_L1BaseFee srt_From srt_RetryTo srt_Beneficiary srt_RetryData length];
    try (unfold in_u; lia).
  - cbn. lia.
  - reflexivity.
  - vm_compute. split; congruence.
  - exists 1. split; [reflexivity|lia].
  - intros a [= <-]. unfold in_u. lia.
  - repeat (apply Forall_cons_2; [unfold is_byte; lia|]). apply Forall_nil_2.
  - reflexivity.
Qed.

Lemma StartTxHook_submits_witness :
  exists d G d' st',
    runs G (StartTxHook (E := TestEnv) (T := example_txs) (H := example_host) (ABI := example_abi) ex_submitter ex_ctx) d
      (Ok (mkStartTxResult true 21000 None (Hash_Bytes 5), tp_set_topType ex_submitter 105)) d' /\
    held st' [9; 77; 100; 101; RetryableEscrowAddress (E := TestEnv) 5] = 300000.
Proof.
  destruct ex_tx_at as [d Hd].
  destruct (StartTxHook_submits (E := TestEnv) (T := example_txs) (H := example_host) (HL := example_host_laws) (ABI := example_abi)
    ex_tx_ids 30 ex_tx_state d ex_submitter ex_ctx ex_utx ex_submit ex_tx_spaces_ok (fun _ _ => eq_refl) Hd eq_refl eq_refl eq_refl
    ltac:(discriminate) ex_sub_ok) as (G & d' & res & st' & l1 & l2 & R & _ & Hsub & Hheld & _).
  exists d, G, d', st'.
  assert (res = mkStartTxResult true 21000 None (Hash_Bytes 5)) as ->.
  { destruct Hsub as [msg [Hx|Hx]|_ Hx|_ _ Hx|_ _ _]; [exfalso; revert Hx; vm_compute; discriminate..|reflexivity]. }
  split; [exact R|]. rewrite Hheld.
  - vm_compute. reflexivity.
  - apply (bool_decide_eq_true _). vm_compute. reflexivity.
  - intros a. vm_compute. auto.
Defined.

(** C8: the redeem that a submission announces is the one that is scheduled after
    it: if the submission paid for the gas of a redeem, the transactions that are
    scheduled from its logs are exactly the one whose hash its event carries, with
    the sender, destination, value and calldata of the ticket; otherwise none is. *)
Theorem ScheduledTxes_submission {E : Env} {EL : EnvLaws E} {T : TxEnv} {H : TxHost} {HL : TxHostLaws H} {ABI : InternalTxAbi}
    (U : list Z) v st d p ctx utx tx :
  spaces_ok (tx_spaces U) -> (forall e b, Restrict e b = Ok tt) ->
  rt_at (OpenCachedSubStorage arbos_root retryablesSubspace) U st d -> rt_logs st = [] ->
  cm_Tx (tp_msg p) = Some utx -> tx_Inner utx = InnerSubmitRetryable tx -> tp_state p = arbosStateAt arbos_root v ->
  (evm_tracer (tc_evm ctx) = true -> cm_To (tp_msg p) <> None) ->
  tc_ChainID ctx = tx_ChainId utx -> 0 <= bc_Time (tc_block ctx) -> bc_Time (tc_block ctx) + RetryableLifetimeSeconds < 2 ^ 64 ->
  let p' := tp_set_topType p (tx_Type (tx_Raw utx)) in
  sub_ok U st v p' ctx utx tx ->
  exists G d' res redeems,
    runs G (let* (res, p) := StartTxHook p ctx in
            let* redeems := ScheduledTxes p ctx in
            ret (res, redeems)) d (Ok (res, redeems)) d' /\
    (sr_gasUsed res = 0 /\ redeems = [] \/
     sr_gasUsed res = cm_GasLimit (tp_msg p) /\
     exists redeem topics log event, redeems = [redeem] /\
       last (GetCurrentTxLogs d') = Some log /\ log_Address log = ArbRetryableTxAddress /\
       log_Topics log = RedeemScheduledEventID :: topics /\ ParseRedeemScheduledLog log = Ok event /\
       ev_TicketId event = tx_Hash utx /\ ev_RetryTxHash event = RetryTx_Hash redeem /\
       art_TicketId redeem = tx_Hash utx /\ art_From redeem = srt_From tx /\ art_To redeem = srt_RetryTo tx /\
       art_Value redeem = srt_RetryValue tx /\ art_Data redeem = srt_RetryData tx /\ art_Gas redeem = sr_gasUsed res).
Proof.
  intros NC Hsys Hd Hlogs Ht Hi Hp Htr Hch Ht0 Htm p' OK.
  destruct (sub_logs U st v p' ctx utx tx OK) as (l1 & l2 & topics & Hl1 & Hl2).
  destruct (StartTxHook_submit_ref U NC Hsys st v p ctx utx tx l1 l2 (ra_pos _ _ _ _ Hd) Ht Hi Hp Htr OK Hl1 (fun h => proj1 (Hl2 h)))
    as (r & st' & R & res & -> & Hsub). fold p' in R.
  pose proof (submission_scheduled U st v p' ctx utx tx l1 l2 res st' OK Hlogs Hp Hch Ht0 Htm Hl1 (fun h => proj1 (Hl2 h)) Hsub) as Rs.
  destruct (R d Hd) as (G1 & d1 & R1 & Hd1). destruct (Rs d1 Hd1) as (G2 & d2 & R2 & Hd2).
  exists (G1 + (G2 + 0)), d2, res. eexists. split.
  { eapply runs_bind; [exact R1|]. cbv beta iota. eapply runs_bind; [exact R2|apply runs_ret]. }
  pose proof (ra_logs _ _ _ _ Hd2) as El. destruct Hsub as [msg Hx|Hm Hx|Hm Hv Hn|Hm Hv Hn]; try (left; split; reflexivity).
  right. cbn [sr_gasUsed]. split; [reflexivity|].
  destruct (scheduled_ticket U st v p' ctx utx tx l1 l2 OK Hlogs) as (Elogs & _). fold p' in El. rewrite Elogs in El.
  destruct (Hl2 (proj1 Hm)) as (_ & Ha & Htop & Hparse).
  exists (sub_redeem st v p' ctx utx tx), topics, l2, (sub_event st v p' ctx utx tx). rewrite El.
  pose proof (sub_gas_used p' ctx tx _ Hn) as Hg. fold p'. rewrite Hg. split; [reflexivity|]. split; [reflexivity|].
  split; [exact Ha|]. split; [exact Htop|]. split; [exact Hparse|]. repeat split.
Qed.

Lemma ScheduledTxes_submission_witness :
  exists d G d' res redeems,
    runs G (let* (res, p) := StartTxHook (E := TestEnv) (T := example_txs) (H := example_host) (ABI := example_abi) ex_submitter ex_ctx in
            let* redeems := ScheduledTxes (E := TestEnv) (T := example_txs) (H := example_host) p ex_ctx in
            ret (res, redeems)) d (Ok (res, redeems)) d'.
Proof.
  destruct ex_tx_at as [d Hd].
  destruct (ScheduledTxes_submission (E := TestEnv) (T := example_txs) (H := example_host) (HL := example_host_laws) (ABI := example_abi)
    ex_tx_ids 30 ex_tx_state d ex_submitter ex_ctx ex_utx ex_submit ex_tx_spaces_ok (fun _ _ => eq_refl) Hd eq_refl eq_refl eq_refl eq_refl
    ltac:(discriminate) eq_refl ltac:(cbn; lia) ltac:(vm_compute; reflexivity) ex_sub_ok) as (G & d' & res & redeems & R & _).
  exists d, G, d', res, redeems. exact R.
Defined.
