(* ===== verification/TxRedeem.v ===== *)
(** * The end of a redeem

    [EndTxHook] of arbos/tx_processor.go on an ArbitrumRetryTx: the gas that go-ethereum
    gave back to the sender is taken again and refunded by the fee accounts, as
    far as the deposit of the submission reaches to the refund address; a fee account
    that lacks the funds gives nothing. The ticket is deleted, or its call value
    returned to escrow. *)
From Stdlib Require Import ZArith Lia String List.
From stdpp Require Import base list numbers gmap.
From S2P Require Import Prelude Arbmath Host Storage StorageFacts Refine MemEnv StorageBytes Queue Blockhash L2Pricing Transfer L1Pricing Retryables RetryablesFacts StylusParams Programs ArbosState InternalTx ParseL2 TxProcessor TxProcessorFacts TxRetryables.
Open Scope Z_scope.

Section Amounts.
Context {E : Env} {T : TxEnv}
  (st : rt_state) (v : Z) (p : TxProcessor) (ctx : TxContext) (inner : ArbitrumRetryTx) (gasLeft gasUsed : Z) (success : bool).

Definition rd_fee : Z :=
  if isCommitMode (cm_TxRunMode (tp_msg p)) && negb (art_GasFeeCap inner =? tc_BaseFee ctx)
  then tc_BaseFee ctx else art_GasFeeCap inner.
Definition rd_gasRefund : Z := rd_fee * gasLeft.

(** The part of the infrastructure account in the refund, and the rest. *)
Definition rd_infra : Z :=
  if (11 <=? v) && negb (infraAccount st =? 0) then Z.min (minFee st) rd_fee * gasLeft else 0.
Definition rd_network : Z := rd_gasRefund - rd_infra.

(** What is left of the deposit after the submission fee, and after the gas. *)
Definition rd_left : Z := art_MaxRefund inner - Z.min (art_MaxRefund inner) (art_SubmissionFeeRefund inner).
Definition rd_left' : Z := rd_left - Z.min rd_left (rd_fee * gasUsed).

(** What the refund address is due. *)
Definition rd_due : Z :=
  (if success then Z.min (art_MaxRefund inner) (art_SubmissionFeeRefund inner) else 0) +
  Z.min rd_gasRefund (Z.max 0 (Z.max 0 (art_MaxRefund inner - art_SubmissionFeeRefund inner) - rd_fee * gasUsed)).

(** A transfer that is given up, with a log, if the account lacks the funds. *)
Definition try_move (s : rt_state) (from to amount : Z) : rt_state :=
  if rt_bal s from <? amount then s else move_balance s from to amount.

(** A refund: to the refund address as far as the deposit reaches, the rest to the sender. *)
Definition refund_spec (s : rt_state) (account maxRefund amount : Z) : rt_state :=
  try_move (try_move s account (art_RefundTo inner) (Z.min maxRefund amount)) account (art_From inner) (amount - Z.min maxRefund amount).

Definition rd_burnt : rt_state :=
  if rt_bal st (art_From inner) <? rd_gasRefund then st else mint st (art_From inner) (- rd_gasRefund).
Definition rd_fees : rt_state :=
  if success then refund_spec rd_burnt (netAccount st) (art_MaxRefund inner) (art_SubmissionFeeRefund inner) else rd_burnt.
Definition rd_infraPaid : rt_state := refund_spec rd_fees (infraAccount st) rd_left' rd_infra.
Definition rd_refunded : rt_state :=
  refund_spec rd_infraPaid (netAccount st) (rd_left' - Z.min rd_left' rd_infra) rd_network.
Definition rd_settled : rt_state :=
  if success then delete_spec rd_refunded (art_TicketId inner)
  else move_balance rd_refunded (art_From inner) (RetryableEscrowAddress (art_TicketId inner)) (art_Value inner).
End Amounts.

Lemma try_move_same st from to amount :
  let st' := try_move st from to amount in
  rt_field st' = rt_field st /\ rt_other st' = rt_other st.
Proof. unfold try_move. destruct (_ <? _); split; reflexivity. Qed.

Lemma refund_spec_same inner st account maxRefund amount :
  let st' := refund_spec inner st account maxRefund amount in
  rt_field st' = rt_field st /\ rt_other st' = rt_other st.
Proof.
  intros st'. unfold st', refund_spec. destruct (try_move_same (try_move st account (art_RefundTo inner) (Z.min maxRefund amount)) account
    (art_From inner) (amount - Z.min maxRefund amount)) as [-> ->]. apply try_move_same.
Qed.

Lemma try_move_bal st from to amount a : 0 <= amount ->
  rt_bal st a - (if decide (from = a) then amount else 0) <= rt_bal (try_move st from to amount) a.
Proof. intros Ha. unfold try_move. destruct (_ <? _); [case_decide; lia|]. cbn [move_balance rt_bal]. repeat case_decide; lia. Qed.

Lemma refund_spec_bal inner st account maxRefund amount a : 0 <= maxRefund -> 0 <= amount ->
  rt_bal st a - (if decide (account = a) then amount else 0) <= rt_bal (refund_spec inner st account maxRefund amount) a.
Proof.
  intros Hm Ha. pose proof (try_move_bal st account (art_RefundTo inner) (Z.min maxRefund amount) a ltac:(lia)).
  pose proof (try_move_bal (try_move st account (art_RefundTo inner) (Z.min maxRefund amount)) account (art_From inner)
    (amount - Z.min maxRefund amount) a ltac:(lia)).
  unfold refund_spec. case_decide; lia.
Qed.

Section Redeem.
Context {E : Env} {EL : EnvLaws E} {T : TxEnv} {H : TxHost} {ABI : InternalTxAbi} (U : list Z).
Notation rts := (OpenCachedSubStorage arbos_root retryablesSubspace).
Notation tx_at := (rt_at rts U).
Hypothesis NC : spaces_ok (tx_spaces U).
Hypothesis Hsys : forall e b, Restrict e b = Ok tt.

Lemma try_move_ref st1 from to amount evm purpose : 0 <= amount -> scenario_ok evm TracingAfterEVM ->
  refines tx_at (ignore (TransferBalance (Some from) (Some to) amount evm TracingAfterEVM purpose)) st1 (Ok tt) (try_move st1 from to amount).
Proof.
  intros Ha Hs. unfold try_move. destruct (Z.ltb_spec (rt_bal st1 from) amount).
  - unfold ignore. eapply refines_bind; [apply refines_attempt_err, (transfer_fail U); lia|apply refines_ret].
  - eapply refines_ignore, (rt_transfer rts U); [lia|exact Hs].
Qed.

Lemma refund_ref evm inner st1 account maxRefund amount : 0 <= maxRefund -> 0 <= amount -> scenario_ok evm TracingAfterEVM ->
  refines tx_at (refund evm inner maxRefund account amount) st1 (Ok (maxRefund - Z.min maxRefund amount))
    (refund_spec inner st1 account maxRefund amount).
Proof.
  intros Hm Ha Hs. unfold refund. eapply refines_bind; [apply (take_ref U); lia|]. cbv beta iota. unfold BigSub.
  eapply refines_bind; [apply try_move_ref; [lia|exact Hs]|].
  eapply refines_bind; [apply try_move_ref; [lia|exact Hs]|apply refines_ret].
Qed.

Context (st : rt_state) (v : Z) (p : TxProcessor) (ctx : TxContext) (inner : ArbitrumRetryTx) (gasLeft gasUsed : Z) (success : bool).

(** A redeem with amounts that are not negative, of one of the tickets. *)
Record rd_ok : Prop := {
  rk_cells : cells_ok v st;
  rk_id : art_TicketId inner ∈ U;
  rk_max : 0 <= art_MaxRefund inner;
  rk_sub : 0 <= art_SubmissionFeeRefund inner;
  rk_value : 0 <= art_Value inner;
  rk_cap : 0 <= art_GasFeeCap inner;
  rk_base : 0 <= tc_BaseFee ctx;
  rk_left : in_u 64 gasLeft;
  rk_used : in_u 64 gasUsed
}.

(** The sender still has what go-ethereum gave back, and the fee accounts, which
    are others, hold what they refund. *)
Record rd_funded : Prop := {
  rk_net : art_From inner <> netAccount st;
  rk_infra : art_From inner <> infraAccount st;
  rk_netFunds : art_SubmissionFeeRefund inner + rd_gasRefund p ctx inner gasLeft <= rt_bal st (netAccount st);
  rk_infraFunds : infraAccount st <> 0 -> art_SubmissionFeeRefund inner + rd_gasRefund p ctx inner gasLeft <= rt_bal st (infraAccount st);
  rk_from : rd_gasRefund p ctx inner gasLeft + (if success then 0 else art_Value inner) <= rt_bal st (art_From inner)
}.

Hypothesis OK : rd_ok.

Lemma rd_fee_pos : 0 <= rd_fee p ctx inner.
Proof. unfold rd_fee. destruct (_ && _); apply OK. Qed.

Lemma rd_bounds : 0 <= rd_gasRefund p ctx inner gasLeft /\ 0 <= rd_infra st v p ctx inner gasLeft <= rd_gasRefund p ctx inner gasLeft /\
  0 <= rd_fee p ctx inner * gasUsed /\ 0 <= rd_left inner /\ 0 <= rd_left' p ctx inner gasUsed /\
  (infraAccount st = 0 -> rd_infra st v p ctx inner gasLeft = 0).
Proof.
  pose proof rd_fee_pos. pose proof (ck_min _ _ (rk_cells OK)). destruct (rk_left OK) as [Hl _]. destruct (rk_used OK) as [Hu _].
  pose proof (rk_max OK). assert (0 <= rd_fee p ctx inner * gasUsed) by nia.
  assert (0 <= rd_left inner) by (unfold rd_left; lia). unfold rd_left', rd_infra, rd_gasRefund.
  destruct (Z.eqb_spec (infraAccount st) 0), (11 <=? v); cbn [andb negb]; repeat split; try nia; lia.
Qed.

(** The balances at the points where the accounts pay. *)
Lemma rd_balances : rd_funded ->
  let s1 := rd_burnt st p ctx inner gasLeft in
  let s2 := rd_fees st p ctx inner gasLeft success in
  let s3 := rd_infraPaid st v p ctx inner gasLeft gasUsed success in
  let s4 := rd_refunded st v p ctx inner gasLeft gasUsed success in
  art_SubmissionFeeRefund inner <= rt_bal s1 (netAccount st) /\
  rd_infra st v p ctx inner gasLeft <= Z.max 0 (rt_bal s2 (infraAccount st)) /\
  rd_network st v p ctx inner gasLeft <= rt_bal s3 (netAccount st) /\
  (success = false -> art_Value inner <= rt_bal s4 (art_From inner)).
Proof.
  intros FU. destruct rd_bounds as (Hg & Hi & Hu & Hl & Hl' & H0). pose proof (rk_sub OK) as Hsub. pose proof (rk_net FU) as Hn. pose proof (rk_infra FU) as Hin.
  intros s1 s2 s3 s4. pose proof (rk_netFunds FU) as Hnf. pose proof (rk_infraFunds FU) as Hif. pose proof (rk_from FU) as Hf. pose proof (rk_max OK) as Hm.
  assert (forall a, rt_bal s1 a = rt_bal st a - (if decide (art_From inner = a) then rd_gasRefund p ctx inner gasLeft else 0)) as B1.
  { intros a. unfold s1, rd_burnt. rewrite (proj2 (Z.ltb_ge _ _)) by (pose proof (rk_value OK); destruct success; lia).
    cbn [mint rt_bal]. case_decide; lia. }
  assert (forall a, rt_bal s1 a - (if decide (netAccount st = a) then art_SubmissionFeeRefund inner else 0) <= rt_bal s2 a) as B2.
  { intros a. unfold s2, rd_fees. destruct success; [now apply refund_spec_bal|]. fold s1. case_decide; lia. }
  assert (forall a, rt_bal s2 a - (if decide (infraAccount st = a) then rd_infra st v p ctx inner gasLeft else 0) <= rt_bal s3 a) as B3.
  { intros a. apply refund_spec_bal; [exact Hl'|apply Hi]. }
  assert (forall a, rt_bal s3 a - (if decide (netAccount st = a) then rd_network st v p ctx inner gasLeft else 0) <= rt_bal s4 a) as B4.
  { intros a. apply refund_spec_bal; unfold rd_network; lia. }
  assert (rd_network st v p ctx inner gasLeft = rd_gasRefund p ctx inner gasLeft - rd_infra st v p ctx inner gasLeft) as En by reflexivity.
  pose proof (B1 (netAccount st)). pose proof (B1 (infraAccount st)). pose proof (B1 (art_From inner)).
  pose proof (B2 (netAccount st)). pose proof (B2 (infraAccount st)). pose proof (B2 (art_From inner)).
  pose proof (B3 (netAccount st)). pose proof (B3 (art_From inner)). pose proof (B4 (art_From inner)).
  clear B1 B2 B3 B4 Hm Hl Hl' Hu. clearbody s1 s2 s3 s4.
  assert (rd_infra st v p ctx inner gasLeft = 0 \/
    art_SubmissionFeeRefund inner + rd_gasRefund p ctx inner gasLeft <= rt_bal st (infraAccount st)) as Hinf.
  { destruct (Z.eq_dec (infraAccount st) 0) as [He|He]; [left; exact (H0 He)|right; exact (Hif He)]. }
  clear Hif H0 OK FU NC.
  destruct (decide (infraAccount st = netAccount st)) as [Ha|Ha]; [rewrite Ha in *|];
    repeat (case_decide; [try congruence|try congruence]); (split; [lia|]); (split; [lia|]); (split; [lia|]); intros ->; lia.
Qed.

Lemma try_move_zero st1 from to d : tx_at st1 d -> tx_at (try_move st1 from to 0) d.
Proof. intros Hd. unfold try_move. destruct (_ <? 0); [exact Hd|apply move_zero, Hd]. Qed.

Lemma refund_zero st1 account maxRefund d : 0 <= maxRefund -> tx_at st1 d -> tx_at (refund_spec inner st1 account maxRefund 0) d.
Proof. intros Hm Hd. unfold refund_spec. rewrite Z.min_r, Z.sub_diag by lia. apply try_move_zero, try_move_zero, Hd. Qed.

Lemma infra_refund_ref st2 evm : tp_state p = arbosStateAt arbos_root v -> rt_other st2 = rt_other st ->
  scenario_ok evm TracingAfterEVM ->
  let left := rd_left' p ctx inner gasUsed in
  refines tx_at
    (if 11 <=? as_arbosVersion (tp_state p) then
       let* infraFeeAccount := restricted_value 0 (InfraFeeAccount (tp_state p)) in
       if negb (infraFeeAccount =? 0) then
         let* minBaseFee := minBaseFeeWei (tp_state p) in
         let infraFee := BigMin minBaseFee (rd_fee p ctx inner) in
         let infraRefund := BigMulByUint infraFee gasLeft in
         let* (infraRefund, networkRefund) := lift (takeFunds (BigMulByUint (rd_fee p ctx inner) gasLeft) infraRefund) in
         let* maxRefund := refund evm inner left infraFeeAccount infraRefund in
         ret (networkRefund, maxRefund)
       else ret (BigMulByUint (rd_fee p ctx inner) gasLeft, left)
     else ret (BigMulByUint (rd_fee p ctx inner) gasLeft, left)) st2
    (Ok (rd_network st v p ctx inner gasLeft, left - Z.min left (rd_infra st v p ctx inner gasLeft)))
    (refund_spec inner st2 (infraAccount st) left (rd_infra st v p ctx inner gasLeft)).
Proof.
  intros Hp Ho Hs left. destruct rd_bounds as (Hg & Hi & _ & _ & Hl' & _). fold left in Hl'. rewrite Hp. cbn [as_arbosVersion arbosStateAt].
  assert (forall st2, refines tx_at (ret (BigMulByUint (rd_fee p ctx inner) gasLeft, left)) st2
            (Ok (rd_gasRefund p ctx inner gasLeft - 0, left - Z.min left 0)) (refund_spec inner st2 (infraAccount st) left 0)) as Hz.
  { intros s. rewrite (Z.min_r left 0), !Z.sub_0_r by lia. eapply (refines_to U); [apply refines_ret|]. intros d. now apply refund_zero. }
  unfold rd_network, rd_infra in *. destruct (11 <=? v); cbn [andb] in *; [|apply Hz].
  assert (infraAccount st2 = infraAccount st /\ minFee st2 = minFee st) as [Ei Em] by (unfold infraAccount, minFee; now rewrite Ho).
  pose proof (ck_infra _ _ (rk_cells OK)) as Hr. rewrite <- Ei in Hr.
  eapply refines_bind; [apply (restricted_value_ref U Hsys), (InfraFeeAccount_ref U NC), Hr|]. rewrite Ei.
  destruct (infraAccount st =? 0); cbn [negb] in *; [apply Hz|].
  eapply refines_bind; [apply (minBaseFeeWei_ref U NC Hsys)|]. rewrite Em. cbv beta zeta. unfold BigMulByUint.
  rewrite BigMin_min.
  eapply refines_bind; [apply (take_ref U); lia|]. cbv beta iota. fold (rd_gasRefund p ctx inner gasLeft). rewrite Z.min_r by lia.
  eapply refines_bind; [apply refund_ref; [exact Hl'|lia|exact Hs]|apply refines_ret].
Qed.

(** The end of [endRetryTx], from the ticket on. *)
Definition rd_tail : M unit :=
  (if success then
     let* state := OpenSystemArbosStateOrPanic in
     ignore (DeleteRetryable (as_retryableState state) (art_TicketId inner) (tc_evm ctx) TracingAfterEVM)
   else
     let escrow := RetryableEscrowAddress (art_TicketId inner) in
     let* r := attempt (TransferBalance (Some (art_From inner)) (Some escrow) (art_Value inner) (tc_evm ctx) TracingAfterEVM "escrow") in
     match r with Ok _ => ret tt | _ => panic "failed to return the callvalue to escrow" end) ;;;
  restricted (AddToGasPool (as_l2PricingState (tp_state p)) (i64 (- SaturatingCast 64 64 gasUsed))).

Lemma delete_other st4 id : rt_other (delete_spec st4 id) = rt_other st4.
Proof. unfold delete_spec. destruct (_ =? 0); reflexivity. Qed.

Hypothesis Hp : tp_state p = arbosStateAt arbos_root v.
Hypothesis Hs : scenario_ok (tc_evm ctx) TracingAfterEVM.

(** The ticket is deleted, or gets its call value back. *)
Lemma rd_tail_ref st4 : rt_other st4 = rt_other st -> (success = false -> art_Value inner <= rt_bal st4 (art_From inner)) ->
  refines tx_at rd_tail st4 (Ok tt)
    (charge_pool (if success then delete_spec st4 (art_TicketId inner)
                  else move_balance st4 (art_From inner) (RetryableEscrowAddress (art_TicketId inner)) (art_Value inner)) gasUsed).
Proof.
  intros Ho Hb. pose proof (rk_value OK). unfold rd_tail.
  eapply (refines_bind _ _ _ _ tt (if success then delete_spec st4 (art_TicketId inner) else
    move_balance st4 (art_From inner) (RetryableEscrowAddress (art_TicketId inner)) (art_Value inner))).
  - destruct success.
    + eapply refines_bind; [apply (OpenState_ref U NC v); eapply cells_ok_other; [exact Ho|apply OK]|].
      eapply refines_ignore, (DeleteRetryable_ref rts U (rts_ok U NC)); [apply OK|exact Hs].
    + eapply refines_bind; [apply refines_attempt, (rt_transfer rts U); [pose proof (Hb eq_refl); lia|exact Hs]|apply refines_ret].
  - rewrite Hp. apply (AddToGasPool_ref U NC Hsys). replace (rt_other _) with (rt_other st); [apply (ck_backlog _ _ (rk_cells OK))|].
    destruct success; [rewrite delete_other|]; now rewrite <- Ho.
Qed.

Lemma rd_tail_panic st4 : success = false -> rt_bal st4 (art_From inner) < art_Value inner ->
  refines tx_at rd_tail st4 (Panic "failed to return the callvalue to escrow") st4.
Proof.
  intros Hf Hb. unfold rd_tail. rewrite Hf. apply refines_bind_panic. eapply refines_bind; [apply refines_attempt_err, (transfer_fail U); [exact Hb|apply OK]|].
  apply refines_panic.
Qed.

Lemma undoRefund_ref : refines tx_at
  (ignore (BurnBalance (Some (art_From inner)) (rd_gasRefund p ctx inner gasLeft) (tc_evm ctx) TracingAfterEVM "undoRefund")) st (Ok tt)
  (rd_burnt st p ctx inner gasLeft).
Proof.
  destruct rd_bounds as (Hg & _). unfold rd_burnt. destruct (Z.ltb_spec (rt_bal st (art_From inner)) (rd_gasRefund p ctx inner gasLeft)).
  - unfold ignore, BurnBalance. eapply refines_bind; [apply refines_attempt_err, (transfer_fail U); lia|apply refines_ret].
  - apply (burn_ref U); [lia|exact Hs].
Qed.

Lemma rd_refunded_same : rt_field (rd_refunded st v p ctx inner gasLeft gasUsed success) = rt_field st /\
  rt_other (rd_refunded st v p ctx inner gasLeft gasUsed success) = rt_other st.
Proof.
  unfold rd_refunded, rd_infraPaid. rewrite !(fun s a b c => proj1 (refund_spec_same inner s a b c)), !(fun s a b c => proj2 (refund_spec_same inner s a b c)).
  unfold rd_fees. destruct success;
    [rewrite (proj1 (refund_spec_same inner _ _ _ _)), (proj2 (refund_spec_same inner _ _ _ _))|]; unfold rd_burnt; now destruct (_ <? _).
Qed.

Lemma rd_fees_other : rt_other (rd_fees st p ctx inner gasLeft success) = rt_other st.
Proof.
  unfold rd_fees. destruct success; [rewrite (proj2 (refund_spec_same inner _ _ _ _))|]; unfold rd_burnt; now destruct (_ <? _).
Qed.

(** Up to the ticket. *)
Lemma endRetryTx_until r st' : refines tx_at rd_tail (rd_refunded st v p ctx inner gasLeft gasUsed success) r st' ->
  refines tx_at (endRetryTx p ctx inner (netAccount st) gasLeft gasUsed success) st r st'.
Proof.
  intros Ht. destruct rd_bounds as (Hg & Hi & Hu & Hl & Hl' & _). pose proof (rk_sub OK) as Hsub. pose proof (rk_max OK) as Hm.
  unfold endRetryTx. fold (rd_fee p ctx inner). cbv zeta. change (BigMulByUint (rd_fee p ctx inner) gasLeft) with (rd_gasRefund p ctx inner gasLeft).
  eapply refines_bind; [apply undoRefund_ref|].
  eapply (refines_bind _ _ _ _ (rd_left inner) (rd_fees st p ctx inner gasLeft success)).
  { unfold rd_fees, rd_left. destruct success; [apply refund_ref; [exact Hm|exact Hsub|exact Hs]|].
    eapply refines_bind; [apply (take_ref U), Hsub|apply refines_ret]. }
  eapply refines_bind; [apply (take_ref U), Hu|]. cbv beta iota. fold (rd_left' p ctx inner gasUsed).
  eapply refines_bind; [apply (infra_refund_ref _ (tc_evm ctx) Hp rd_fees_other Hs)|]. cbv beta iota.
  fold (rd_infraPaid st v p ctx inner gasLeft gasUsed success).
  eapply refines_bind; [apply refund_ref; [lia|unfold rd_network; lia|exact Hs]|]. cbv beta.
  fold (rd_refunded st v p ctx inner gasLeft gasUsed success). exact Ht.
Qed.

(** The outcome: the call value of a ticket whose redeem failed may be gone only
    if the sender is drained by its own refunds. *)
Definition rd_outcome : outcome TxProcessor :=
  if success || (art_Value inner <=? rt_bal (rd_refunded st v p ctx inner gasLeft gasUsed success) (art_From inner))
  then Ok p else Panic "failed to return the callvalue to escrow".

Definition rd_after : rt_state :=
  match rd_outcome with
  | Ok _ => charge_pool (rd_settled st v p ctx inner gasLeft gasUsed success) gasUsed
  | _ => rd_refunded st v p ctx inner gasLeft gasUsed success
  end.

Lemma EndTxHook_redeem_ref utx :
  cm_Tx (tp_msg p) = Some utx -> tx_Type (tx_Raw utx) = ArbitrumRetryTxType -> tx_Inner utx = InnerRetry inner ->
  0 <= gasLeft <= cm_GasLimit (tp_msg p) -> cm_GasLimit (tp_msg p) < 2 ^ 64 -> gasUsed = cm_GasLimit (tp_msg p) - gasLeft ->
  refines tx_at (EndTxHook p ctx gasLeft success) st rd_outcome rd_after.
Proof.
  intros Ht Hty Hin Hl Hmax Hu. unfold EndTxHook. rewrite Ht, Hty, Hin, Z.eqb_refl.
  eapply refines_bind; [apply refines_value_or; rewrite Hp; apply (NetworkFeeAccount_ref U NC), (rk_cells OK)|]. cbv beta.
  rewrite (proj2 (Z.ltb_ge _ _)), uwrap_id by uint. rewrite <- Hu. unfold rd_after, rd_outcome.
  pose proof (proj2 rd_refunded_same) as Ho.
  destruct (success || (art_Value inner <=? rt_bal (rd_refunded st v p ctx inner gasLeft gasUsed success) (art_From inner))) eqn:Hv.
  - eapply refines_bind; [|apply refines_ret]. apply endRetryTx_until, rd_tail_ref; [exact Ho|].
    intros Hf. rewrite Hf in Hv at 1. apply Z.leb_le, Hv.
  - apply orb_false_iff in Hv as [Hf Hv]. apply Z.leb_gt in Hv.
    apply refines_bind_panic, endRetryTx_until, rd_tail_panic; assumption.
Qed.
End Redeem.

(** The accounts that a redeem pays. *)
Definition rd_accounts {E : Env} (st : rt_state) (inner : ArbitrumRetryTx) : list Z :=
  [art_From inner; art_RefundTo inner; netAccount st; infraAccount st; RetryableEscrowAddress (art_TicketId inner);
   rt_field st (art_TicketId inner) beneficiaryOffset].

Lemma held_charge {E : Env} st gas accounts : held (charge_pool st gas) accounts = held st accounts.
Proof. reflexivity. Qed.

Lemma held_delete {E : Env} st id accounts : NoDup accounts -> RetryableEscrowAddress id ∈ accounts ->
  rt_field st id beneficiaryOffset ∈ accounts -> held (delete_spec st id) accounts = held st accounts.
Proof.
  intros Hn He Hb. unfold delete_spec. destruct (_ =? 0); [reflexivity|].
  transitivity (held (move_balance st (RetryableEscrowAddress id) (rt_field st id beneficiaryOffset)
    (rt_bal st (RetryableEscrowAddress id))) accounts); [reflexivity|]. now apply held_move.
Qed.

Lemma held_try_move st from to amount accounts : NoDup accounts -> from ∈ accounts -> to ∈ accounts ->
  held (try_move st from to amount) accounts = held st accounts.
Proof. intros. unfold try_move. destruct (_ <? _); [reflexivity|now apply held_move]. Qed.

Lemma held_refund inner st account maxRefund amount accounts :
  NoDup accounts -> account ∈ accounts -> art_RefundTo inner ∈ accounts -> art_From inner ∈ accounts ->
  held (refund_spec inner st account maxRefund amount) accounts = held st accounts.
Proof. intros. unfold refund_spec. now rewrite !held_try_move. Qed.

Lemma rd_conserves {E : Env} {T : TxEnv} st v p ctx inner gasLeft gasUsed success accounts :
  NoDup accounts -> rd_accounts st inner ⊆ accounts ->
  held (rd_settled st v p ctx inner gasLeft gasUsed success) accounts =
    held st accounts - (if rt_bal st (art_From inner) <? rd_gasRefund p ctx inner gasLeft then 0 else rd_gasRefund p ctx inner gasLeft).
Proof.
  intros Hn Hin.
  assert (Forall (fun a => a ∈ accounts) (rd_accounts st inner)) as Ha by (apply Forall_forall; intros a Ha; apply Hin, Ha).
  unfold rd_accounts in Ha. repeat (apply Forall_cons in Ha as [? Ha]).
  set (burnt := if _ <? _ then 0 else _).
  assert (held (rd_burnt st p ctx inner gasLeft) accounts = held st accounts - burnt) as Hb.
  { unfold rd_burnt, burnt. destruct (_ <? _); [lia|]. rewrite held_mint by in_accounts. lia. }
  assert (held (rd_refunded st v p ctx inner gasLeft gasUsed success) accounts = held st accounts - burnt) as Hr.
  { unfold rd_refunded, rd_infraPaid. rewrite !held_refund by in_accounts. unfold rd_fees.
    destruct success; [rewrite held_refund by in_accounts|]; exact Hb. }
  unfold rd_settled. destruct success; [|rewrite held_move by in_accounts; exact Hr].
  rewrite held_delete; [exact Hr|in_accounts..|]. rewrite (proj1 (rd_refunded_same _ _ _ _ _ _ _ _)). in_accounts.
Qed.

(** What a refund address that is not otherwise involved gets of a refund: all
    of its part, or nothing. *)
Lemma refund_spec_to inner st account maxRefund amount :
  art_RefundTo inner <> account -> art_RefundTo inner <> art_From inner -> 0 <= maxRefund -> 0 <= amount ->
  let got := rt_bal (refund_spec inner st account maxRefund amount) (art_RefundTo inner) - rt_bal st (art_RefundTo inner) in
  0 <= got <= Z.min maxRefund amount /\ (amount <= Z.max 0 (rt_bal st account) -> got = Z.min maxRefund amount).
Proof.
  intros Ha Hf Hm H0 got. unfold got, refund_spec, try_move.
  destruct (Z.ltb_spec (rt_bal st account) (Z.min maxRefund amount));
    destruct (_ <? _); cbn [move_balance rt_bal]; repeat (case_decide; [try congruence|try congruence]); split; lia.
Qed.

(** The parts of a refund that the refund address gets. *)
Lemma refund_parts (success : bool) b0 b1 b2 b3 b4 x1 x2 x3 :
  0 <= b1 - b0 <= x1 -> b2 = (if success then b1 else b0) -> 0 <= b3 - b2 <= x2 -> 0 <= b4 - b3 <= x3 ->
  0 <= b4 - b0 <= (if success then x1 else 0) + (x2 + x3) /\
  ((success = true -> b1 - b0 = x1) -> b3 - b2 = x2 -> b4 - b3 = x3 -> b4 - b0 = (if success then x1 else 0) + (x2 + x3)).
Proof. destruct success; intros H1 H2 H3 H4; (split; [lia|]); intros H5 H6 H7; [specialize (H5 eq_refl)|]; lia. Qed.

Lemma split_refund left infra refund : 0 <= left -> 0 <= infra <= refund ->
  Z.min refund left = Z.min left infra + Z.min (left - Z.min left infra) (refund - infra).
Proof. lia. Qed.

Section Refunded.
Context {E : Env} {T : TxEnv} (U : list Z).
Context (st : rt_state) (v : Z) (p : TxProcessor) (ctx : TxContext) (inner : ArbitrumRetryTx) (gasLeft gasUsed : Z) (success : bool).
Hypothesis OK : rd_ok U st v ctx inner gasLeft gasUsed.

Lemma settled_to :
  art_RefundTo inner ∉ [art_From inner; netAccount st; infraAccount st; RetryableEscrowAddress (art_TicketId inner);
                         rt_field st (art_TicketId inner) beneficiaryOffset] ->
  let got := rt_bal (rd_settled st v p ctx inner gasLeft gasUsed success) (art_RefundTo inner) - rt_bal st (art_RefundTo inner) in
  0 <= got <= rd_due p ctx inner gasLeft gasUsed success /\
  (rd_funded st p ctx inner gasLeft success -> got = rd_due p ctx inner gasLeft gasUsed success).
Proof.
  intros Hn got. rewrite !not_elem_of_cons in Hn. destruct Hn as (Hf & Hne & Hi & He & Hb & _).
  destruct (rd_bounds U st v p ctx inner gasLeft gasUsed OK) as (Hg & Hin & Hu & Hl & Hl' & _).
  pose proof (rk_max _ _ _ _ _ _ _ OK) as Hm. pose proof (rk_sub _ _ _ _ _ _ _ OK) as Hsub.
  pose proof (rd_balances U st v p ctx inner gasLeft gasUsed success OK) as Hbal.
  assert (rt_bal (rd_settled st v p ctx inner gasLeft gasUsed success) (art_RefundTo inner) =
    rt_bal (rd_refunded st v p ctx inner gasLeft gasUsed success) (art_RefundTo inner)) as Hset.
  { unfold rd_settled. destruct success.
    - unfold delete_spec. destruct (_ =? 0); [reflexivity|]. cbn [rt_erase set_field set_data move_balance rt_bal].
      rewrite (proj1 (rd_refunded_same _ _ _ _ _ _ _ _)), !decide_False by auto. lia.
    - cbn [move_balance rt_bal]. rewrite !decide_False by auto. lia. }
  assert (rd_network st v p ctx inner gasLeft = rd_gasRefund p ctx inner gasLeft - rd_infra st v p ctx inner gasLeft) as En by reflexivity.
  assert (rd_left' p ctx inner gasUsed =
    Z.max 0 (Z.max 0 (art_MaxRefund inner - art_SubmissionFeeRefund inner) - rd_fee p ctx inner * gasUsed)) as El
    by (unfold rd_left', rd_left in *; lia).
  assert (rt_bal (rd_burnt st p ctx inner gasLeft) (art_RefundTo inner) = rt_bal st (art_RefundTo inner)) as H1.
  { unfold rd_burnt. destruct (_ <? _); [reflexivity|]. cbn [mint rt_bal]. rewrite decide_False by auto. lia. }
  pose proof (refund_spec_to inner (rd_burnt st p ctx inner gasLeft) (netAccount st) (art_MaxRefund inner) (art_SubmissionFeeRefund inner) Hne Hf Hm Hsub) as [B2 C2].
  pose proof (refund_spec_to inner (rd_fees st p ctx inner gasLeft success) (infraAccount st) (rd_left' p ctx inner gasUsed)
    (rd_infra st v p ctx inner gasLeft) Hi Hf Hl' (proj1 Hin)) as [B3 C3].
  assert (0 <= rd_left' p ctx inner gasUsed - Z.min (rd_left' p ctx inner gasUsed) (rd_infra st v p ctx inner gasLeft)) as L4 by lia.
  assert (0 <= rd_network st v p ctx inner gasLeft) as N4 by lia.
  pose proof (refund_spec_to inner (rd_infraPaid st v p ctx inner gasLeft gasUsed success) (netAccount st)
    (rd_left' p ctx inner gasUsed - Z.min (rd_left' p ctx inner gasUsed) (rd_infra st v p ctx inner gasLeft))
    (rd_network st v p ctx inner gasLeft) Hne Hf L4 N4) as [B4 C4].
  fold (rd_infraPaid st v p ctx inner gasLeft gasUsed success) in B3, C3. fold (rd_refunded st v p ctx inner gasLeft gasUsed success) in B4, C4.
  assert (Hfees : rt_bal (rd_fees st p ctx inner gasLeft success) (art_RefundTo inner) =
    if success then rt_bal (refund_spec inner (rd_burnt st p ctx inner gasLeft) (netAccount st) (art_MaxRefund inner) (art_SubmissionFeeRefund inner)) (art_RefundTo inner)
    else rt_bal (rd_burnt st p ctx inner gasLeft) (art_RefundTo inner)) by (unfold rd_fees; destruct success; reflexivity).
  unfold got, rd_due. rewrite Hset, <- El, <- H1. clear got Hset.
  rewrite (split_refund _ _ _ Hl' Hin). destruct (refund_parts success _ _ _ _ _ _ _ _ B2 Hfees B3 B4) as [P1 P2].
  split; [exact P1|]. intros FU. destruct (Hbal FU) as (A1 & A2 & A3 & _).
  apply P2; [intros _; apply C2, (Z.le_trans _ _ _ A1 (Z.le_max_r _ _))|exact (C3 A2)|apply C4, (Z.le_trans _ _ _ A3 (Z.le_max_r _ _))].
Qed.
End Refunded.

(** ** Properties *)

(** C7: a redeem is settled at its end: the gas that is left is taken from the
    sender, and the fee accounts refund it, together with the submission fee if the
    redeem succeeded, to the refund address as far as the deposit of the submission
    reaches after the submission fee and the gas that was used, and for the rest to
    the sender. A transfer for which the account lacks the funds is left out, and
    the others still happen: [rd_settled] is the exact state. So a refund address that
    has no other part in the redeem never gets more than it is due, and it gets
    all of it if the fee accounts, other than the sender, hold what they refund and
    the sender the gas that go-ethereum gave back. No money but the gas taken from
    the sender appears or disappears. After a success the ticket is gone; after a
    failure it is as it was, and its call value is back in escrow, where the hook
    panics exactly if the sender lacks it. The gas that was used counts towards the
    backlog. *)
Theorem EndTxHook_settles_redeem {E : Env} {EL : EnvLaws E} {T : TxEnv} {H : TxHost} {ABI : InternalTxAbi} (U : list Z)
    v st d p ctx utx inner gasLeft success :
  spaces_ok (tx_spaces U) -> (forall e b, Restrict e b = Ok tt) ->
  rt_at (OpenCachedSubStorage arbos_root retryablesSubspace) U st d -> tp_state p = arbosStateAt arbos_root v ->
  cm_Tx (tp_msg p) = Some utx -> tx_Type (tx_Raw utx) = ArbitrumRetryTxType -> tx_Inner utx = InnerRetry inner ->
  0 <= gasLeft <= cm_GasLimit (tp_msg p) -> cm_GasLimit (tp_msg p) < 2 ^ 64 -> scenario_ok (tc_evm ctx) TracingAfterEVM ->
  let gasUsed := cm_GasLimit (tp_msg p) - gasLeft in
  rd_ok U st v ctx inner gasLeft gasUsed ->
  let refunded := rd_refunded st v p ctx inner gasLeft gasUsed success in
  let due := rd_due p ctx inner gasLeft gasUsed success in
  exists G d',
    if success || (art_Value inner <=? rt_bal refunded (art_From inner)) then
      exists st',
        runs G (EndTxHook p ctx gasLeft success) d (Ok p) d' /\
        rt_at (OpenCachedSubStorage arbos_root retryablesSubspace) U (charge_pool st' gasUsed) d' /\
        st' = rd_settled st v p ctx inner gasLeft gasUsed success /\
        (art_RefundTo inner ∉ [art_From inner; netAccount st; infraAccount st; RetryableEscrowAddress (art_TicketId inner);
                                rt_field st (art_TicketId inner) beneficiaryOffset] ->
         rt_bal st (art_RefundTo inner) <= rt_bal st' (art_RefundTo inner) <= rt_bal st (art_RefundTo inner) + due /\
         (rd_funded st p ctx inner gasLeft success -> rt_bal st' (art_RefundTo inner) = rt_bal st (art_RefundTo inner) + due)) /\
        (forall accounts, NoDup accounts -> rd_accounts st inner ⊆ accounts ->
           held st' accounts = held st accounts -
             (if rt_bal st (art_From inner) <? rd_gasRefund p ctx inner gasLeft then 0 else rd_gasRefund p ctx inner gasLeft)) /\
        (if success then rt_field st' (art_TicketId inner) timeoutOffset = 0 else rt_field st' = rt_field st)
    else
      runs G (EndTxHook p ctx gasLeft success) d (Panic "failed to return the callvalue to escrow") d' /\
      rt_at (OpenCachedSubStorage arbos_root retryablesSubspace) U refunded d'.
Proof.
  intros NC Hsys Hd Hp Ht Hty Hin Hl Hmax Hs gasUsed OK refunded due.
  destruct (EndTxHook_redeem_ref U NC Hsys st v p ctx inner gasLeft gasUsed success OK Hp Hs utx Ht Hty Hin Hl Hmax eq_refl d Hd)
    as (G & d' & R & Hd').
  exists G, d'. unfold rd_after, rd_outcome in *. fold refunded in R, Hd'. destruct (success || _); [|split; assumption].
  eexists. split; [exact R|]. split; [exact Hd'|]. split; [reflexivity|].
  split; [intros Hto; pose proof (settled_to U st v p ctx inner gasLeft gasUsed success OK Hto) as [Hb Hf];
    fold due in Hb, Hf; split; [lia|intros FU; specialize (Hf FU); lia]|].
  split; [intros; now apply rd_conserves|].
  unfold rd_settled. fold refunded. destruct success.
  - unfold delete_spec. destruct (Z.eqb_spec (rt_field refunded (art_TicketId inner) timeoutOffset) 0); [assumption|]. rt_simp. now rewrite Z.eqb_refl.
  - cbn [move_balance rt_field]. apply rd_refunded_same.
Qed.

#[local] Existing Instance TestEnv.

(** A ticket, and balances of the fee accounts and of the sender. *)
Definition ex_funded : rt_state := mint (mint (mint ex_tx_state 100 1000000) 101 1000000) 9 1000000.
Definition ex_redeem_state : rt_state := create_spec ex_funded 5 5000 9 (Some 8) 1000 11 [1; 2].

Definition ex_redeem : ArbitrumRetryTx := mkArbitrumRetryTx 412346 0 9 10 21000 (Some 8) 1000 [1; 2] 5 77 200000 1412.

Definition ex_redeemer : TxProcessor (T := example_txs) := ex_processor (ex_msg (InnerRetry ex_redeem) 104 (Some 8) 21000).

Lemma ex_funded_at : exists d, rt_at (OpenCachedSubStorage arbos_root retryablesSubspace) ex_tx_ids ex_funded d.
Proof.
  assert (forall st a, (exists d, rt_at (OpenCachedSubStorage arbos_root retryablesSubspace) ex_tx_ids st d) ->
    exists d, rt_at (OpenCachedSubStorage arbos_root retryablesSubspace) ex_tx_ids (mint st a 1000000) d) as Hm.
  { intros st a [d Hd].
    destruct (mint_ref ex_tx_ids st a 1000000 (mkEVM false 0) TracingAfterEVM EmptyString ltac:(lia) (or_introl eq_refl) d Hd)
      as (G & d' & _ & Hd'). eauto. }
  apply Hm, Hm, Hm, ex_tx_at.
Qed.

Lemma ex_redeem_at : exists d, rt_at (OpenCachedSubStorage arbos_root retryablesSubspace) ex_tx_ids ex_redeem_state d.
Proof.
  destruct ex_funded_at as [d Hd].
  destruct (CreateRetryable_ref (OpenCachedSubStorage arbos_root retryablesSubspace) ex_tx_ids (rts_ok ex_tx_ids ex_tx_spaces_ok)
    ex_funded 5 5000 9 (Some 8) 1000 11 [1; 2]) with (d := d) as (G & d' & _ & Hd'); try (unfold in_u; cbn; lia); eauto.
  - left.
  - intros a [= <-]. unfold in_u. lia.
  - repeat (apply Forall_cons_2; [unfold is_byte; lia|]). apply Forall_nil_2.
Qed.

Lemma ex_rd_ok : rd_ok ex_tx_ids ex_redeem_state 30 ex_ctx ex_redeem 6000 15000.
Proof.
  split; [eapply cells_ok_other; [|exact ex_cells_ok]; reflexivity|left|..];
    vm_compute; (discriminate || (split; congruence) || congruence).
Qed.

Lemma ex_rd_funded : rd_funded (T := example_txs) ex_redeem_state ex_redeemer ex_ctx ex_redeem 6000 true.
Proof. split; vm_compute; (discriminate || (split; congruence) || congruence). Qed.

Lemma ex_refund_apart :
  art_RefundTo ex_redeem ∉ [art_From ex_redeem; netAccount ex_redeem_state; infraAccount ex_redeem_state;
    RetryableEscrowAddress (art_TicketId ex_redeem); rt_field ex_redeem_state (art_TicketId ex_redeem) beneficiaryOffset].
Proof. rewrite !not_elem_of_cons. vm_compute. repeat split; try discriminate. apply not_elem_of_nil. Qed.

Lemma ex_due : rt_bal ex_redeem_state 77 + rd_due (T := example_txs) ex_redeemer ex_ctx ex_redeem 6000 15000 true = 1412 + 48588.
Proof. vm_compute. reflexivity. Qed.

Lemma EndTxHook_settles_redeem_witness :
  exists d G d' st',
    runs G (EndTxHook (T := example_txs) ex_redeemer ex_ctx 6000 true) d (Ok ex_redeemer) d' /\
    rt_bal st' 77 = 1412 + 48588 /\ rt_field st' 5 timeoutOffset = 0.
Proof.
  destruct ex_redeem_at as [d Hd].
  destruct (EndTxHook_settles_redeem (T := example_txs) (H := example_host) (ABI := example_abi)
    ex_tx_ids 30 ex_redeem_state d ex_redeemer ex_ctx _ ex_redeem 6000 true ex_tx_spaces_ok (fun _ _ => eq_refl) Hd eq_refl eq_refl eq_refl
    eq_refl ltac:(cbn; lia) eq_refl (or_introl eq_refl) ex_rd_ok)
    as (G & d' & st' & R & _ & Hst & Hto & _ & Hf).
  exists d, G, d', st'. split; [exact R|]. split; [|exact Hf].
  exact (eq_trans (proj2 (Hto ex_refund_apart) ex_rd_funded) ex_due).
Defined.
