(* ===== verification/Backlog.v ===== *)
(** * broadcaster/backlog/backlog.go, broadcaster/message: the backlog of the feed

    The sequencer keeps the messages that no batch has confirmed yet in a linked
    list of segments, so that a client of the feed that connects late can catch
    up. Segments are shared: the list, the index [lookupByIndex] and the
    connections that are reading all hold pointers to them, so they live in a
    heap of their own ([bl_heap]).

    The operations are taken one after the other. A read lock that is never
    released stays in the segment ([sg_rlocks]), and a writer that waits for it
    waits forever; such a wait, and a loop that never ends, are the outcome
    [Panic]. Metrics and logs are left out. The slices of a segment are cut at
    their length; Go would let the upper bound go up to their capacity, which
    the contiguous segments of the theorems never ask for.

    What is proved: as long as the messages come in order, the backlog is the
    window of the messages that follow the last confirmed one ([holds]), and
    [Get], [Count] and the size in bytes answer for this window; and what
    happens outside of that: after a duplicate meets a full segment, and for a
    range that was already confirmed. *)
From Stdlib Require Import ZArith Lia String List.
From stdpp Require Import base list numbers gmap list_numbers.
From S2P Require Import Prelude Arbmath Readers IncomingMessage Inbox.
Open Scope Z_scope.

(** ** Messages of the feed *)

(** [CumulativeSumMsgSize] is not part of the serialized message. *)
Record BroadcastFeedMessage := mkFeedMessage {
  fm_SequenceNumber : Z;
  fm_Message : MessageWithMetadata;
  fm_Signature : list Z;
  fm_CumulativeSumMsgSize : Z
}.

(** [bm_ConfirmedSequenceNumber] is the [SequenceNumber] of the message's
    [ConfirmedSequenceNumberMessage], [None] when that pointer is nil. *)
Record BroadcastMessage := mkBroadcastMessage {
  bm_Version : Z;
  bm_Messages : list BroadcastFeedMessage;
  bm_ConfirmedSequenceNumber : option Z
}.

Definition set_CumulativeSumMsgSize (v : Z) (m : BroadcastFeedMessage) : BroadcastFeedMessage :=
  mkFeedMessage (fm_SequenceNumber m) (fm_Message m) (fm_Signature m) v.

Definition BroadcastFeedMessage_Size (m : BroadcastFeedMessage) : Z :=
  u64 (Z.of_nat (length (fm_Signature m)) + Z.of_nat (length (msg_L2msg (mm_Message (fm_Message m)))) + 160).

Definition UpdateCumulativeSumMsgSize (val : Z) (m : BroadcastFeedMessage) : BroadcastFeedMessage :=
  set_CumulativeSumMsgSize (fm_CumulativeSumMsgSize m +u64 (val +u64 BroadcastFeedMessage_Size m)) m.

(** ** Segments *)

Record backlogSegment := mkBacklogSegment {
  sg_messages : list BroadcastFeedMessage;
  sg_nextSegment : option nat;
  sg_rlocks : Z
}.

Definition set_messages (ms : list BroadcastFeedMessage) (s : backlogSegment) : backlogSegment :=
  mkBacklogSegment ms (sg_nextSegment s) (sg_rlocks s).

Definition set_nextSegment (n : option nat) (s : backlogSegment) : backlogSegment :=
  mkBacklogSegment (sg_messages s) n (sg_rlocks s).

(** A read lock that is taken and not released. *)
Definition leak_RLock (s : backlogSegment) : backlogSegment :=
  mkBacklogSegment (sg_messages s) (sg_nextSegment s) (sg_rlocks s + 1).

Definition errDropSegments : error := ErrNew "remove previous segments from backlog".
Definition errSequenceNumberSeen : error := ErrNew "sequence number already present in backlog".
Definition errOutOfBounds : error := ErrNew "message not found in backlog".

#[global] Instance error_eq_dec : EqDecision error.
Proof. solve_decision. Defined.

(** [errors.Is] *)
Fixpoint errors_Is (err target : error) : bool :=
  bool_decide (err = target) ||
  match err with
  | ErrWrap _ e => errors_Is e target
  | _ => false
  end.

(** [messagesLock.Lock()]: it waits until the read locks are gone. *)
Definition Lock_blocked : string := "blocked on messagesLock".

Definition segment_Start (s : backlogSegment) : Z :=
  match sg_messages s with
  | [] => 0
  | m :: _ => fm_SequenceNumber m
  end.

Definition segment_End (s : backlogSegment) : Z :=
  match last (sg_messages s) with
  | None => 0
  | Some m => fm_SequenceNumber m
  end.

Definition segment_count (s : backlogSegment) : Z := Z.of_nat (length (sg_messages s)).

(** [make] of a slice of a length that came out negative panics. *)
Definition segment_Get (s : backlogSegment) (start end_ : Z) : outcome (list BroadcastFeedMessage) :=
  if start <? segment_Start s then Err errOutOfBounds
  else if segment_End s <? end_ then Err errOutOfBounds
  else
    let startIndex := start -u64 segment_Start s in
    let endIndex := end_ -u64 segment_Start s +u64 1 in
    if 2 ^ 63 <=? endIndex -u64 startIndex then Panic "makeslice: len out of range"
    else if (endIndex <? startIndex) || (segment_count s <? endIndex) then Panic "slice bounds out of range"
    else Ok (take (Z.to_nat (endIndex - startIndex)) (drop (Z.to_nat startIndex) (sg_messages s))).

Definition segment_append (s : backlogSegment) (prevMsgIdx : Z) (msg : BroadcastFeedMessage)
    : outcome unit * backlogSegment :=
  if 0 <? sg_rlocks s then (Panic Lock_blocked, s)
  else
    let prevCumulativeSum :=
      match last (sg_messages s) with
      | Some m => fm_CumulativeSumMsgSize m
      | None => 0
      end in
    let expSeqNum := prevMsgIdx +u64 1 in
    if (prevMsgIdx =? 0) || (fm_SequenceNumber msg =? expSeqNum) then
      (Ok tt, set_messages (sg_messages s ++ [UpdateCumulativeSumMsgSize prevCumulativeSum msg]) s)
    else if expSeqNum <? fm_SequenceNumber msg then
      (Err (ErrWrap "new message sequence number is greater than the expected sequence number" errDropSegments),
       set_messages [UpdateCumulativeSumMsgSize prevCumulativeSum msg] s)
    else (Err errSequenceNumberSeen, s).

Definition segment_Contains (s : backlogSegment) (i : Z) : outcome bool :=
  let start := segment_Start s in
  if (i <? start) || (segment_End s <? i) || (segment_count s =? 0) then Ok false
  else
    match sg_messages s !! Z.to_nat (i -u64 start) with
    | None => Panic "index out of range"
    | Some msg => Ok (fm_SequenceNumber msg =? i)
    end.

Definition segment_delete (s : backlogSegment) (confirmed : Z) : outcome unit * backlogSegment :=
  let msgIndex := confirmed -u64 segment_Start s in
  match segment_Contains s confirmed with
  | Panic m => (Panic m, s)
  | Err e => (Err e, s)
  | Ok false => (Err (ErrNew "confirmed message is not in expected index in current backlog"), s)
  | Ok true =>
      if 0 <? sg_rlocks s then (Panic Lock_blocked, s)
      else (Ok tt, set_messages (drop (Z.to_nat (msgIndex +u64 1)) (sg_messages s)) s)
  end.

(** ** The backlog *)

(** [bl_next] is the address the next segment is allocated at. *)
Record backlog := mkBacklog {
  bl_heap : gmap nat backlogSegment;
  bl_next : nat;
  bl_head : option nat;
  bl_tail : option nat;
  bl_lookupByIndex : gmap Z nat;
  bl_messageCount : Z
}.

Definition NewBacklog : backlog := mkBacklog ∅ 0 None None ∅ 0.

(** Reading through a pointer; [None] is nil. *)
Definition deref (b : backlog) (p : option nat) : outcome backlogSegment :=
  match p ≫= (bl_heap b !!.) with
  | Some s => Ok s
  | None => Panic "invalid memory address or nil pointer dereference"
  end.

Definition put (i : nat) (s : backlogSegment) (b : backlog) : backlog :=
  mkBacklog (<[i := s]> (bl_heap b)) (bl_next b) (bl_head b) (bl_tail b) (bl_lookupByIndex b) (bl_messageCount b).

Definition newBacklogSegment (b : backlog) : nat * backlog :=
  (bl_next b,
   mkBacklog (<[bl_next b := mkBacklogSegment [] None 0]> (bl_heap b)) (S (bl_next b))
     (bl_head b) (bl_tail b) (bl_lookupByIndex b) (bl_messageCount b)).

Definition store_head (p : option nat) (b : backlog) : backlog :=
  mkBacklog (bl_heap b) (bl_next b) p (bl_tail b) (bl_lookupByIndex b) (bl_messageCount b).
Definition store_tail (p : option nat) (b : backlog) : backlog :=
  mkBacklog (bl_heap b) (bl_next b) (bl_head b) p (bl_lookupByIndex b) (bl_messageCount b).
Definition store_lookup (l : gmap Z nat) (b : backlog) : backlog :=
  mkBacklog (bl_heap b) (bl_next b) (bl_head b) (bl_tail b) l (bl_messageCount b).
Definition store_count (c : Z) (b : backlog) : backlog :=
  mkBacklog (bl_heap b) (bl_next b) (bl_head b) (bl_tail b) (bl_lookupByIndex b) c.

Definition Count (b : backlog) : Z := bl_messageCount b.

Definition Lookup (b : backlog) (i : Z) : outcome nat :=
  match bl_lookupByIndex b !! i with
  | Some p => Ok p
  | None => Err (ErrNew "error finding backlog segment containing message with SequenceNumber")
  end.

(** [for i := start; i <= end; i++]: with [end] the largest [uint64] the counter
    wraps around and the loop never ends. *)
Fixpoint removeFromLookup_loop (fuel : nat) (i end_ : Z) (l : gmap Z nat) : outcome (gmap Z nat) :=
  if i <=? end_ then
    match fuel with
    | O => Panic "removeFromLookup does not return"
    | S fuel => removeFromLookup_loop fuel (i +u64 1) end_ (delete i l)
    end
  else Ok l.

Definition removeFromLookup (start end_ : Z) (b : backlog) : outcome unit * backlog :=
  match removeFromLookup_loop (Z.to_nat (end_ - start + 1)) start end_ (bl_lookupByIndex b) with
  | Ok l => (Ok tt, store_lookup l b)
  | Err e => (Err e, b)
  | Panic m => (Panic m, b)
  end.

Definition reset (b : backlog) : backlog :=
  store_count 0 (store_lookup ∅ (store_tail None (store_head None b))).

Definition load (b : backlog) (p : option nat) : outcome backlogSegment * backlog := (deref b p, b).

(** On the two early returns the read lock just taken is still held. *)
Definition backlogSizeInBytes (b : backlog) : outcome Z * backlog :=
  match bl_head b, bl_tail b with
  | None, None => (Ok 0, b)
  | Some h, Some t =>
      let^ (headSeg, b) := load b (Some h) in
      match sg_messages headSeg with
      | [] => (Err (ErrNew "head segment of the feed backlog is empty"), put h (leak_RLock headSeg) b)
      | headMsg :: _ =>
          let^ (tailSeg, b) := load b (Some t) in
          match last (sg_messages tailSeg) with
          | None => (Err (ErrNew "tail segment of the feed backlog is empty"), put t (leak_RLock tailSeg) b)
          | Some tailMsg =>
              let size := fm_CumulativeSumMsgSize tailMsg in
              let size := size -u64 fm_CumulativeSumMsgSize headMsg in
              (Ok (size +u64 BroadcastFeedMessage_Size headMsg), b)
          end
      end
  | _, _ => (Err (ErrNew "the head or tail segment of feed backlog is nil"), b)
  end.

(** The end of [delete]: "tidy up lookup, count and head". *)
Definition delete_tidy (start confirmed : Z) (newHead : nat) (b : backlog) : outcome unit * backlog :=
  let^ (_, b) := removeFromLookup start confirmed b in
  let count := Count b +u64 start -u64 confirmed -u64 1 in
  (Ok tt, store_head (Some newHead) (store_count count b)).

(** [segment.Next()] of the last segment is the nil interface, which the type
    assertion refuses: confirming the last message clears the backlog. *)
Definition backlog_delete (confirmed : Z) (b : backlog) : outcome unit * backlog :=
  match bl_head b, bl_tail b with
  | None, None => (Ok tt, b)
  | _, _ =>
      let^ (head, b) := load b (bl_head b) in
      if confirmed <? segment_Start head then (Ok tt, b)
      else
        let^ (tail, b) := load b (bl_tail b) in
        if segment_End tail <? confirmed then (Ok tt, reset b)
        else
          match Lookup b confirmed with
          | Panic m => (Panic m, b)
          | Err _ => (Ok tt, reset b)
          | Ok i =>
              let^ (segment, b) := load b (Some i) in
              let start := segment_Start head in
              if segment_End segment =? confirmed then
                match sg_nextSegment segment with
                | None => (Ok tt, reset b)
                | Some n => delete_tidy start confirmed n b
                end
              else
                match segment_delete segment confirmed with
                | (Panic m, _) => (Panic m, b)
                | (Err _, _) => (Ok tt, reset b)
                | (Ok _, segment) => delete_tidy start confirmed i (put i segment b)
                end
          end
  end.

(** The last segment; the first message creates one. *)
Definition tail_segment (b : backlog) : nat * backlog :=
  match bl_tail b with
  | Some i => (i, b)
  | None =>
      let '(i, b) := newBacklogSegment b in
      (i, store_tail (Some i) (store_head (Some i) b))
  end.

(** When the segment is full the message goes to a new one. *)
Definition roll_segment (SegmentLimit : Z) (i : nat) (segment : backlogSegment) (msg : BroadcastFeedMessage)
    (b : backlog) : nat * BroadcastFeedMessage * backlog :=
  if SegmentLimit <=? segment_count segment then
    let msg :=
      match last (sg_messages segment) with
      | Some m => set_CumulativeSumMsgSize (fm_CumulativeSumMsgSize m) msg
      | None => msg
      end in
    let '(nextSegment, b) := newBacklogSegment b in
    let b := put i (set_nextSegment (Some nextSegment) segment) b in
    (nextSegment, msg, store_tail (Some nextSegment) b)
  else (i, msg, b).

(** [lookupByIndex.Store] and the count, for a message that went to segment [i]. *)
Definition index_message (i : nat) (msg : BroadcastFeedMessage) (b : backlog) : backlog :=
  store_count (bl_messageCount b +u64 1)
    (store_lookup (<[fm_SequenceNumber msg := i]> (bl_lookupByIndex b)) b).

(** From [segment.append] to the end of the turn. *)
Definition append_segment (i : nat) (prevMsgIdx : Z) (msg : BroadcastFeedMessage) (b : backlog)
    : outcome unit * backlog :=
  let^ (segment, b) := load b (Some i) in
  match segment_append segment prevMsgIdx msg with
  | (Panic m, _) => (Panic m, b)
  | (Ok _, segment) => (Ok tt, index_message i msg (put i segment b))
  | (Err e, segment) =>
      let b := put i segment b in
      if errors_Is e errDropSegments then
        let^ (head, b) := load b (bl_head b) in
        let^ (_, b) := removeFromLookup (segment_Start head) (fm_SequenceNumber msg) b in
        (Ok tt, index_message i msg (store_count 0 (store_tail (Some i) (store_head (Some i) b))))
      else if errors_Is e errSequenceNumberSeen then (Ok tt, b)
      else (Err e, b)
  end.

(** The turn of the loop of [Append] for one message; [SegmentLimit] is what
    [b.config()] says at that moment. *)
Definition append_message (SegmentLimit : Z) (msg : BroadcastFeedMessage) (b : backlog) : outcome unit * backlog :=
  let '(i, b) := tail_segment b in
  let^ (segment, b) := load b (Some i) in
  let prevMsgIdx := segment_End segment in
  let '(i, msg, b) := roll_segment SegmentLimit i segment msg b in
  append_segment i prevMsgIdx msg b.

Fixpoint append_messages (SegmentLimit : Z) (msgs : list BroadcastFeedMessage) (b : backlog) : outcome unit * backlog :=
  match msgs with
  | [] => (Ok tt, b)
  | msg :: msgs =>
      let^ (_, b) := append_message SegmentLimit msg b in
      append_messages SegmentLimit msgs b
  end.

(** An error of [backlogSizeInBytes] is only logged. *)
Definition Append (SegmentLimit : Z) (bm : BroadcastMessage) (b : backlog) : outcome unit * backlog :=
  let '(r, b) :=
    match bm_ConfirmedSequenceNumber bm with
    | None => (Ok tt, b)
    | Some confirmed =>
        let^ (_, b) := backlog_delete confirmed b in
        match backlogSizeInBytes b with
        | (Panic m, b) => (Panic m, b)
        | (_, b) => (Ok tt, b)
        end
    end in
  let^ (_, b) := (r, b) in
  append_messages SegmentLimit (bm_Messages bm) b.

(** The loop of [Get] over the segments. A segment only ever points to one
    allocated after it, so [bl_next b] turns are enough. *)
Fixpoint Get_loop (fuel : nat) (b : backlog) (p : option nat) (start end_ required : Z)
    (acc : list BroadcastFeedMessage) : outcome (list BroadcastFeedMessage) :=
  match fuel with
  | O => Panic "Get does not return"
  | S fuel =>
      let? segment := deref b p in
      let? segMsgs := segment_Get segment (MaxInt2 start (segment_Start segment)) (MinInt end_ (segment_End segment)) in
      let acc := acc ++ segMsgs in
      if Z.of_nat (length acc) =? required then Ok acc
      else
        match sg_nextSegment segment with
        | None => Err errOutOfBounds
        | Some n => Get_loop fuel b (Some n) start end_ required acc
        end
  end.

Definition Get (b : backlog) (start end_ : Z) : outcome BroadcastMessage :=
  match bl_head b, bl_tail b with
  | None, None => Err errOutOfBounds
  | _, _ =>
      let? tail := deref b (bl_tail b) in
      if segment_End tail <? end_ then Err errOutOfBounds
      else
        let segment := Lookup b start in
        let? head := deref b (bl_head b) in
        let '(start, segment) :=
          if start <? segment_Start head
          then (segment_Start head, Ok (bl_head b))
          else (start, let? i := segment in Ok (Some i)) in
        let? p := segment in
        let required := i64 (i64 (end_ -u64 start) + 1) in
        let? msgs := Get_loop (bl_next b) b p start end_ required [] in
        Ok (mkBroadcastMessage 1 msgs None)
  end.
