(* ===== verification/BacklogFacts.v ===== *)
(** * What the backlog of the feed answers

    [holds b w]: the segments of the backlog [b], read along the list, are the
    window [w] of messages with consecutive sequence numbers. Appending messages
    that come in order and confirming are the two operations [feed_message] and
    [feed_confirm] on the window; [Get], [Count] and [backlogSizeInBytes] are
    functions of it. *)
From Stdlib Require Import ZArith Lia String List.
From stdpp Require Import base list numbers gmap list_numbers.
From S2P Require Import Prelude Arbmath Readers IncomingMessage Inbox Backlog.
Open Scope Z_scope.

Local Notation message := BroadcastFeedMessage.
Local Notation seqno := fm_SequenceNumber.
Local Notation cumulative := fm_CumulativeSumMsgSize.
Local Notation size := BroadcastFeedMessage_Size.

(** ** The abstract backlog: a window of messages *)

(** A message without the bookkeeping of the backlog. *)
Definition erase (m : message) : message := set_CumulativeSumMsgSize 0 m.

Definition last_seqno (w : list message) : Z :=
  match last w with
  | Some m => seqno m
  | None => 0
  end.

Definition first_seqno (w : list message) : Z :=
  match w with
  | m :: _ => seqno m
  | [] => 0
  end.

(** The next message extends the window, one further ahead starts a new window,
    and one that is not ahead is dropped. *)
Definition feed_message (w : list message) (m : message) : list message :=
  match w with
  | [] => [m]
  | _ =>
      if seqno m =? last_seqno w + 1 then w ++ [m]
      else if last_seqno w + 1 <? seqno m then [m]
      else w
  end.

Definition feed_confirm (c : option Z) (w : list message) : list message :=
  match c with
  | None => w
  | Some c => filter (fun m => c < seqno m) w
  end.

Definition between (a e : Z) (w : list message) : list message :=
  filter (fun m => a <= seqno m /\ seqno m <= e) w.

(** The messages the window tolerates. Message 0 is only followed by message 1;
    a duplicate must not meet a full segment. *)
Definition in_order (SegmentLimit : Z) (w : list message) (m : message) : Prop :=
  0 <= seqno m < 2 ^ 63 - 1 /\ cumulative m = 0 /\
  (w = [] \/ last_seqno w = 0 /\ seqno m = 1 \/
   last_seqno w <> 0 /\ (last_seqno w < seqno m \/ Z.of_nat (length w) < SegmentLimit)).

Fixpoint all_in_order (SegmentLimit : Z) (w : list message) (ms : list message) : Prop :=
  match ms with
  | [] => True
  | m :: ms => in_order SegmentLimit w m /\ all_in_order SegmentLimit (feed_message w m) ms
  end.

(** ** The invariant *)

(** Consecutive sequence numbers from [f] on. *)
Fixpoint run (f : Z) (w : list message) : Prop :=
  match w with
  | [] => True
  | m :: w => seqno m = f /\ run (f + 1) w
  end.

(** Each message carries the sum [c] of what came before it and its own size. *)
Fixpoint sums (c : Z) (w : list message) : Prop :=
  match w with
  | [] => True
  | m :: w => cumulative m = c +u64 size m /\ sums (cumulative m) w
  end.

(** A segment with its address. *)
Local Notation seg := (nat * list message)%type.

Definition first_id (segs : list seg) (nxt : option nat) : option nat :=
  match segs with
  | [] => nxt
  | (i, _) :: _ => Some i
  end.

(** The segments of the list, linked in the heap; [nxt] follows the last one. *)
Fixpoint chain (h : gmap nat backlogSegment) (segs : list seg) (nxt : option nat) : Prop :=
  match segs with
  | [] => True
  | (i, ms) :: rest =>
      h !! i = Some (mkBacklogSegment ms (first_id rest nxt) 0) /\ ms <> [] /\ chain h rest nxt
  end.

Definition stored (segs : list seg) : list message := concat segs.*2.

Record holds_segs (b : backlog) (f : Z) (segs : list seg) : Prop := {
  hs_chain : chain (bl_heap b) segs None;
  hs_nodup : NoDup segs.*1;
  hs_heap i s : bl_heap b !! i = Some s -> (i < bl_next b)%nat;
  hs_head : bl_head b = first_id segs None;
  hs_tail : bl_tail b = fst <$> last segs;
  hs_index i ms m : (i, ms) ∈ segs -> m ∈ ms -> bl_lookupByIndex b !! seqno m = Some i;
  hs_known k i : bl_lookupByIndex b !! k = Some i -> segs <> [] /\ k < f + Z.of_nat (length (stored segs));
  hs_count : bl_messageCount b = Z.of_nat (length (stored segs));
  hs_run : run f (stored segs);
  hs_from : 0 <= f;
  hs_to : f + Z.of_nat (length (stored segs)) < 2 ^ 63;
  hs_sum : exists c, sums c (stored segs)
}.

(** The segments after messages were appended: what is linked stays, and only the
    last segment grows. *)
Definition extends (segs segs' : list seg) : Prop :=
  exists l1 t ms more l2, segs = l1 ++ [(t, ms)] /\ segs' = l1 ++ (t, ms ++ more) :: l2.

(** The backlog [b] holds the window [w]. *)
Definition holds (b : backlog) (w : list message) : Prop :=
  exists f segs, holds_segs b f segs /\ erase <$> stored segs = w.

(** ** Runs of messages *)

Lemma run_app f w1 w2 : run f (w1 ++ w2) <-> run f w1 /\ run (f + Z.of_nat (length w1)) w2.
Proof.
  revert f. induction w1 as [|m w1 IH]; intros f; cbn [app run length].
  - rewrite Z.add_0_r. tauto.
  - rewrite IH, Nat2Z.inj_succ. replace (f + 1 + Z.of_nat (length w1)) with (f + Z.succ (Z.of_nat (length w1))) by lia. tauto.
Qed.

Lemma run_lookup f w k m : run f w -> w !! k = Some m -> seqno m = f + Z.of_nat k.
Proof.
  revert f k. induction w as [|m' w IH]; intros f k; [done|]. intros [Hm Hw] Hk.
  destruct k as [|k]; cbn in Hk.
  - injection Hk as <-. lia.
  - apply (IH (f + 1)) in Hk; [lia|done].
Qed.

Lemma run_last f w : run f w -> w <> [] -> last_seqno w = f + Z.of_nat (length w) - 1.
Proof.
  intros Hw Hne. unfold last_seqno. destruct (last w) as [m|] eqn:E.
  - rewrite last_lookup in E. apply (run_lookup f) in E; [|done]. destruct w; [done|]. cbn in *. lia.
  - apply last_None in E. done.
Qed.

Lemma run_bounds f w m : run f w -> m ∈ w -> f <= seqno m < f + Z.of_nat (length w).
Proof.
  intros Hw [k Hk]%list_elem_of_lookup. rewrite (run_lookup f w k m) by done.
  apply lookup_lt_Some in Hk. lia.
Qed.

Lemma run_above f w a : run f w -> a < f -> filter (fun m => a < seqno m) w = w.
Proof.
  revert f. induction w as [|m w IH]; intros f; [done|]. intros [Hm Hw] Ha.
  rewrite filter_cons_True by lia. f_equal. apply (IH (f + 1)); [done|lia].
Qed.

Lemma run_confirm f w c :
  run f w -> f - 1 <= c -> filter (fun m => c < seqno m) w = drop (Z.to_nat (c - f + 1)) w.
Proof.
  revert f. induction w as [|m w IH]; intros f; [by rewrite drop_nil|]. intros [Hm Hw] Hc.
  destruct (Z.eq_dec c (f - 1)) as [->|].
  - replace (Z.to_nat (f - 1 - f + 1)) with 0%nat by lia. apply (run_above f); [by split|lia].
  - rewrite filter_cons_False by lia. rewrite (IH (f + 1)) by (done || lia).
    replace (Z.to_nat (c - f + 1)) with (S (Z.to_nat (c - (f + 1) + 1))) by lia. done.
Qed.

Lemma run_before f w a e : run f w -> e < f -> between a e w = [].
Proof.
  unfold between. revert f. induction w as [|m w IH]; intros f; [done|]. intros [Hm Hw] He.
  rewrite filter_cons_False by lia. apply (IH (f + 1)); [done|lia].
Qed.

Lemma run_upto f w a e :
  run f w -> a <= f -> f - 1 <= e -> between a e w = take (Z.to_nat (e - f + 1)) w.
Proof.
  revert f. induction w as [|m w IH]; intros f; [by rewrite take_nil|]. intros [Hm Hw] Ha He.
  destruct (Z.eq_dec e (f - 1)) as [->|].
  - replace (Z.to_nat (f - 1 - f + 1)) with 0%nat by lia. apply (run_before f); [by split|lia].
  - unfold between in *. rewrite filter_cons_True by lia. rewrite (IH (f + 1)) by (done || lia).
    replace (Z.to_nat (e - f + 1)) with (S (Z.to_nat (e - (f + 1) + 1))) by lia. done.
Qed.

Lemma run_between f w a e :
  run f w -> f <= a -> a - 1 <= e ->
  between a e w = take (Z.to_nat (e - a + 1)) (drop (Z.to_nat (a - f)) w).
Proof.
  revert f. induction w as [|m w IH]; intros f; [by rewrite drop_nil, take_nil|]. intros [Hm Hw] Ha He.
  destruct (Z.eq_dec a f) as [->|].
  - rewrite Z.sub_diag. apply run_upto; [by split|lia..].
  - unfold between in *. rewrite filter_cons_False by lia. rewrite (IH (f + 1)) by (done || lia).
    replace (Z.to_nat (a - f)) with (S (Z.to_nat (a - (f + 1)))) by lia. done.
Qed.

Lemma between_ext a e a' e' w :
  (forall m, m ∈ w -> (a <= seqno m /\ seqno m <= e) <-> (a' <= seqno m /\ seqno m <= e')) ->
  between a e w = between a' e' w.
Proof.
  unfold between. induction w as [|m w IH]; intros H; [done|].
  pose proof (H m ltac:(left)) as Hm. specialize (IH (fun m' Hm' => H m' ltac:(by right))).
  destruct (decide (a <= seqno m /\ seqno m <= e)) as [Hd|Hd].
  - rewrite !filter_cons_True by tauto. by rewrite IH.
  - rewrite !filter_cons_False by tauto. done.
Qed.

Lemma between_after a e w : (forall m, m ∈ w -> seqno m < a) -> between a e w = [].
Proof.
  unfold between. induction w as [|m w IH]; intros H; [done|]. pose proof (H m ltac:(left)).
  rewrite filter_cons_False by lia. apply IH. intros m' Hm'. apply H. by right.
Qed.

(** A range clipped to the run. *)
Lemma between_clip f w a e :
  run f w -> between (Z.max a f) (Z.min e (f + Z.of_nat (length w) - 1)) w = between a e w.
Proof. intros Hr. apply between_ext. intros m Hm. pose proof (run_bounds _ _ _ Hr Hm). lia. Qed.

Lemma between_length f w a e :
  run f w -> a < f + Z.of_nat (length w) -> Z.max a f - 1 <= e ->
  Z.of_nat (length (between a e w)) = Z.min e (f + Z.of_nat (length w) - 1) - Z.max a f + 1.
Proof.
  intros Hr Ha He. rewrite <- (between_clip f) by done. destruct w as [|m w]; [cbn in *; lia|].
  cbn [length] in *. rewrite (run_between f) by (done || lia). rewrite length_take, length_drop. cbn [length]. lia.
Qed.

(** The bookkeeping of the backlog changes no sequence number and no size. *)
Lemma erase_between a e w : between a e (erase <$> w) = erase <$> between a e w.
Proof.
  unfold between. induction w as [|m w IH]; [done|]. rewrite fmap_cons.
  destruct (decide (a <= seqno m /\ seqno m <= e)) as [H|H].
  - rewrite !filter_cons_True by done. rewrite IH. done.
  - rewrite !filter_cons_False by done. done.
Qed.

Lemma erase_confirm c w : feed_confirm c (erase <$> w) = erase <$> feed_confirm c w.
Proof.
  destruct c as [c|]; [|done]. cbn. induction w as [|m w IH]; [done|]. rewrite fmap_cons.
  destruct (decide (c < seqno m)) as [H|H].
  - rewrite !filter_cons_True by done. rewrite IH. done.
  - rewrite !filter_cons_False by done. done.
Qed.

Lemma erase_last w : last_seqno (erase <$> w) = last_seqno w.
Proof. unfold last_seqno. rewrite fmap_last. by destruct (last w). Qed.

Lemma erase_run f w : run f w -> run f (erase <$> w).
Proof. revert f. induction w as [|m w IH]; intros f; [done|]. intros [Hm Hw]. split; [done|]. by apply IH. Qed.

(** ** Sums of sizes *)

Definition total_size (w : list message) : Z := foldr (fun m n => size m + n) 0 w.

Lemma sums_app c w1 w2 :
  sums c (w1 ++ w2) <-> sums c w1 /\ sums (match last w1 with Some m => cumulative m | None => c end) w2.
Proof.
  revert c. induction w1 as [|m w1 IH]; intros c; cbn [app sums]; [tauto|].
  rewrite IH, last_cons. destruct (last w1); tauto.
Qed.

Lemma sums_drop c w n : sums c w -> exists c', sums c' (drop n w).
Proof.
  intros H. rewrite <- (take_drop n w) in H. apply sums_app in H as [_ H]. eauto.
Qed.

Lemma sums_total c w m :
  sums c w -> last w = Some m -> cumulative m = u64 (c + total_size w).
Proof.
  revert c. induction w as [|m' w IH]; intros c; [done|]. intros [Hm Hw] Hl.
  change (total_size (m' :: w)) with (size m' + total_size w).
  rewrite last_cons in Hl. destruct (last w) eqn:E.
  - injection Hl as ->. rewrite (IH _ Hw eq_refl), Hm. unfold uwrap.
    rewrite Z.add_mod_idemp_l by lia. f_equal. lia.
  - injection Hl as ->. apply last_None in E as ->. rewrite Hm. cbn. do 2 f_equal. lia.
Qed.

(** ** Segments *)

Lemma chain_app h l1 l2 nxt : chain h (l1 ++ l2) nxt <-> chain h l1 (first_id l2 nxt) /\ chain h l2 nxt.
Proof.
  induction l1 as [|[i ms] l1 IH]; cbn [app chain]; [tauto|].
  rewrite IH. destruct l1 as [|[j ms'] l1]; cbn [app first_id]; tauto.
Qed.

Lemma chain_insert h segs nxt i s : i ∉ segs.*1 -> chain h segs nxt -> chain (<[i := s]> h) segs nxt.
Proof.
  induction segs as [|[j ms] segs IH]; [done|]. intros [Hi Hn]%not_elem_of_cons (H1 & H2 & H3).
  split_and!; [|done|by apply IH]. by rewrite lookup_insert_ne.
Qed.

Lemma chain_ids h segs nxt i : chain h segs nxt -> i ∈ segs.*1 -> is_Some (h !! i).
Proof.
  induction segs as [|[j ms] segs IH]; [by intros _ ?%elem_of_nil|].
  intros (H1 & H2 & H3) [->|H]%elem_of_cons; eauto.
Qed.

Lemma chain_nonempty h segs nxt i ms : chain h segs nxt -> (i, ms) ∈ segs -> ms <> [].
Proof.
  induction segs as [|[j ms'] segs IH]; [by intros _ ?%elem_of_nil|].
  intros (H1 & H2 & H3) [[= -> ->]|H]%elem_of_cons; eauto.
Qed.

Lemma stored_app l1 l2 : stored (l1 ++ l2) = stored l1 ++ stored l2.
Proof. unfold stored. by rewrite fmap_app, concat_app. Qed.

Lemma stored_cons i ms l : stored ((i, ms) :: l) = ms ++ stored l.
Proof. done. Qed.

Lemma stored_one i ms : stored [(i, ms)] = ms.
Proof. unfold stored. cbn. by rewrite app_nil_r. Qed.

(** The segment that holds a message of the window. *)
Lemma stored_segment segs m : m ∈ stored segs -> exists l1 i ms l2, segs = l1 ++ (i, ms) :: l2 /\ m ∈ ms.
Proof.
  induction segs as [|[i ms] segs IH]; [by intros ?%elem_of_nil|].
  rewrite stored_cons. intros [H|H]%elem_of_app; [by exists [], i, ms, segs|].
  destruct (IH H) as (l1 & j & ms' & l2 & -> & Hm). by exists ((i, ms) :: l1), j, ms', l2.
Qed.

Lemma segment_run f ms n k :
  run f ms -> ms <> [] ->
  segment_Start (mkBacklogSegment ms n k) = f /\
  segment_End (mkBacklogSegment ms n k) = f + Z.of_nat (length ms) - 1.
Proof.
  intros Hr Hne. split.
  - destruct ms; [done|]. by destruct Hr.
  - by apply (run_last f).
Qed.

Lemma u64_sub a b : 0 <= b <= a -> a < 2 ^ 64 -> a -u64 b = a - b.
Proof. intros. apply uwrap_id. unfold in_u. lia. Qed.

Lemma u64_add a b : 0 <= a -> 0 <= b -> a + b < 2 ^ 64 -> a +u64 b = a + b.
Proof. intros. apply uwrap_id. unfold in_u. lia. Qed.

Lemma u64_sub_add a b : 0 <= b <= a + 1 -> a < 2 ^ 64 - 1 -> a -u64 b +u64 1 = a - b + 1.
Proof.
  intros H1 H2. unfold uwrap. rewrite Z.add_mod_idemp_l by lia. apply Z.mod_small. lia.
Qed.

(** A range of the segment, which may be the empty one in front of it. *)
Lemma segment_Get_run f ms n k a e :
  run f ms -> ms <> [] -> 0 <= f -> f + Z.of_nat (length ms) < 2 ^ 63 ->
  f <= a -> a - 1 <= e < f + Z.of_nat (length ms) ->
  segment_Get (mkBacklogSegment ms n k) a e = Ok (between a e ms).
Proof.
  intros Hr Hne H0 H63 Ha He. destruct (segment_run f ms n k Hr Hne) as [Hs Hl].
  unfold segment_Get. rewrite Hs, Hl. unfold segment_count. cbn [sg_messages].
  rewrite (u64_sub a f), (u64_sub_add e f), u64_sub by lia.
  zbool; try lia; cbn [orb]. rewrite (run_between f) by (done || lia). do 3 f_equal; lia.
Qed.

Lemma between_app a e w1 w2 : between a e (w1 ++ w2) = between a e w1 ++ between a e w2.
Proof. apply filter_app. Qed.

Lemma MaxInt2_max a b : MaxInt2 a b = Z.max a b.
Proof. unfold MaxInt2, MaxInt_loop. cbn. destruct (Z.ltb_spec a b); lia. Qed.

Lemma MinInt_min a b : MinInt a b = Z.min a b.
Proof. unfold MinInt. destruct (Z.ltb_spec b a); lia. Qed.

(** ** Reading *)

Lemma deref_chain b i ms l nxt :
  chain (bl_heap b) ((i, ms) :: l) nxt -> deref b (Some i) = Ok (mkBacklogSegment ms (first_id l nxt) 0).
Proof. intros (H & _ & _). unfold deref. cbn. by rewrite H. Qed.

Lemma Get_loop_run b segs i ms fuel f start e acc required :
  chain (bl_heap b) ((i, ms) :: segs) None -> run f (ms ++ stored segs) -> 0 <= f ->
  f + Z.of_nat (length (ms ++ stored segs)) < 2 ^ 63 ->
  (length segs < fuel)%nat ->
  start < f + Z.of_nat (length ms) -> Z.max start f - 1 <= e < f + Z.of_nat (length (ms ++ stored segs)) ->
  required = Z.of_nat (length acc) + (e - Z.max start f + 1) ->
  Get_loop fuel b (Some i) start e required acc = Ok (acc ++ between start e (ms ++ stored segs)).
Proof.
  revert i ms fuel f acc. induction segs as [|[j ms'] segs IH];
    intros i ms fuel f acc Hch Hrun Hf Hto Hfuel Hs He Hreq.
  all: destruct fuel as [|fuel]; [cbn in Hfuel; lia|].
  all: pose proof Hch as (_ & Hne & Hch'); apply run_app in Hrun as [Hr1 Hr2].
  all: destruct (segment_run f ms None 0 Hr1 Hne) as [Hst Hen]; rewrite length_app in *.
  all: cbn [Get_loop]; rewrite (deref_chain _ _ _ _ _ Hch); cbn [obind].
  all: rewrite MaxInt2_max, MinInt_min.
  all: change (segment_Start _) with (segment_Start (mkBacklogSegment ms None 0)); rewrite Hst.
  all: change (segment_End _) with (segment_End (mkBacklogSegment ms None 0)); rewrite Hen.
  all: rewrite (segment_Get_run f) by (done || lia); cbn [obind].
  all: rewrite (between_clip f) by done.
  all: assert (Hlen : Z.of_nat (length (between start e ms)) =
                      Z.min e (f + Z.of_nat (length ms) - 1) - Z.max start f + 1)
    by (apply between_length; (done || lia)).
  all: rewrite length_app; cbn [sg_nextSegment first_id].
  - cbn [stored fmap list_fmap concat length] in *. rewrite app_nil_r.
    rewrite (proj2 (Z.eqb_eq _ _)) by lia. done.
  - rewrite between_app. destruct (Z.eqb_spec (Z.of_nat (length acc + length (between start e ms))) required) as [Hq|Hq].
    + rewrite (run_before _ (stored _) start e Hr2) by lia. by rewrite app_nil_r.
    + pose proof Hch' as (_ & Hne' & _). rewrite stored_cons in *.
      assert (0 < length ms')%nat by (destruct ms'; [done|cbn; lia]).
      rewrite !length_app in *. cbn [length] in Hfuel.
      rewrite (IH j ms' fuel (f + Z.of_nat (length ms))); rewrite ?length_app; try done; try lia.
      by rewrite <- app_assoc.
Qed.

Section Reading.
Context (b : backlog) (f : Z) (segs : list seg) (Hb : holds_segs b f segs).

Lemma holds_run_at l1 i ms l2 :
  segs = l1 ++ (i, ms) :: l2 ->
  chain (bl_heap b) ((i, ms) :: l2) None /\ ms <> [] /\
  run (f + Z.of_nat (length (stored l1))) (ms ++ stored l2) /\
  f + Z.of_nat (length (stored l1)) + Z.of_nat (length (ms ++ stored l2)) < 2 ^ 63.
Proof using Hb.
  destruct Hb as [Hch _ _ _ _ _ _ _ Hrun _ Hto _]. intros ->.
  apply chain_app in Hch as [_ Hch]. rewrite stored_app, stored_cons in Hrun, Hto.
  apply run_app in Hrun as [_ Hrun]. rewrite length_app in Hto. pose proof Hch as (_ & Hne & _).
  split_and!; [done..|lia].
Qed.

Lemma holds_head : segs <> [] -> exists i ms rest,
  segs = (i, ms) :: rest /\ bl_head b = Some i /\ deref b (Some i) = Ok (mkBacklogSegment ms (first_id rest None) 0) /\
  segment_Start (mkBacklogSegment ms (first_id rest None) 0) = f.
Proof using Hb.
  intros Hne. assert (exists i ms rest, segs = (i, ms) :: rest) as (i & ms & rest & E)
    by (clear Hb; destruct segs as [|[i ms] rest]; [done|eauto]).
  exists i, ms, rest.
  destruct (holds_run_at [] i ms rest E) as (Hch & Hms & Hr & _).
  split_and!; [done|by rewrite (hs_head _ _ _ Hb), E|by apply deref_chain with (nxt := None)|].
  apply run_app in Hr as [Hr _]. apply segment_run; [|done]. by rewrite Z.add_0_r in Hr.
Qed.

Lemma holds_tail : segs <> [] -> exists l1 t ms,
  segs = l1 ++ [(t, ms)] /\ bl_tail b = Some t /\ deref b (Some t) = Ok (mkBacklogSegment ms None 0) /\
  ms <> [] /\ run (f + Z.of_nat (length (stored l1))) ms /\
  segment_End (mkBacklogSegment ms None 0) = f + Z.of_nat (length (stored segs)) - 1.
Proof using Hb.
  intros Hne. destruct (exists_last Hne) as (l1 & [t ms] & E). exists l1, t, ms.
  destruct (holds_run_at l1 t ms [] E) as (Hch & Hms & Hr & _).
  cbn [stored fmap list_fmap concat] in Hr. rewrite app_nil_r in Hr.
  split_and!; [done| |exact (deref_chain _ _ _ [] None Hch)|done..|].
  - rewrite (hs_tail _ _ _ Hb), E, last_snoc. done.
  - rewrite (proj2 (segment_run _ ms None 0 Hr Hms)), E, stored_app, stored_one, length_app. lia.
Qed.

Lemma holds_fuel : (length segs <= bl_next b)%nat.
Proof using Hb.
  rewrite <- (length_fmap fst), <- (length_seq (bl_next b) 0).
  apply submseteq_length, NoDup_submseteq; [by apply (hs_nodup _ _ _ Hb)|].
  intros i Hi. apply elem_of_seq. split; [lia|].
  destruct (chain_ids _ _ _ _ (hs_chain _ _ _ Hb) Hi) as [s Hs]. apply (hs_heap _ _ _ Hb) in Hs. lia.
Qed.

(** The segment of a sequence number of the window. *)
Lemma holds_lookup k :
  f <= k < f + Z.of_nat (length (stored segs)) ->
  exists l1 i ms l2, segs = l1 ++ (i, ms) :: l2 /\ Lookup b k = Ok i /\
    f + Z.of_nat (length (stored l1)) <= k < f + Z.of_nat (length (stored l1)) + Z.of_nat (length ms).
Proof using Hb.
  intros Hk. destruct (lookup_lt_is_Some_2 (stored segs) (Z.to_nat (k - f))) as [m Hm]; [lia|].
  assert (Hq : seqno m = k) by (rewrite (run_lookup _ _ _ _ (hs_run _ _ _ Hb) Hm); lia).
  destruct (stored_segment segs m) as (l1 & i & ms & l2 & E & Hin); [by apply list_elem_of_lookup_2 in Hm|].
  exists l1, i, ms, l2. destruct (holds_run_at l1 i ms l2 E) as (_ & _ & Hr & _).
  apply run_app in Hr as [Hr _]. pose proof (run_bounds _ _ _ Hr Hin). split_and!; [done| |lia..].
  unfold Lookup. rewrite <- Hq, (hs_index _ _ _ Hb i ms m); [done| |done].
  rewrite E. apply elem_of_app. right. left.
Qed.

(** [Get] up to the reading of the segments. *)
Lemma Get_start start e : segs <> [] -> start <= e < f + Z.of_nat (length (stored segs)) ->
  exists l1 i ms l2, segs = l1 ++ (i, ms) :: l2 /\
    f + Z.of_nat (length (stored l1)) <= Z.max start f < f + Z.of_nat (length (stored l1)) + Z.of_nat (length ms) /\
    Get b start e =
      let? msgs := Get_loop (bl_next b) b (Some i) (Z.max start f) e (i64 (i64 (e -u64 Z.max start f) + 1)) [] in
      Ok (mkBroadcastMessage 1 msgs None).
Proof using Hb.
  intros Hne He.
  destruct (holds_head Hne) as (h & hms & rest & Eh & Hh & Hdh & Hsh).
  destruct (holds_tail Hne) as (l0 & t & tms & _ & Ht & Hdt & _ & _ & Het).
  assert (Hget : Get b start e =
    let '(start, segment) :=
      if start <? f then (f, Ok (Some h)) else (start, let? i := Lookup b start in Ok (Some i)) in
    let? p := segment in
    let? msgs := Get_loop (bl_next b) b p start e (i64 (i64 (e -u64 start) + 1)) [] in
    Ok (mkBroadcastMessage 1 msgs None)).
  { unfold Get. rewrite Hh, Ht, Hdt, Hdh. cbn [obind]. rewrite Het, Hsh.
    destruct (Z.ltb_spec (f + Z.of_nat (length (stored segs)) - 1) e); [lia|done]. }
  destruct (Z.ltb_spec start f) as [Hlt|Hge].
  - destruct (holds_run_at [] h hms rest Eh) as (_ & Hms & _).
    exists [], h, hms, rest. rewrite Z.max_r by lia. split_and!; [done| | |exact Hget]; cbn [stored concat fmap list_fmap length].
    + lia.
    + destruct hms; [done|cbn [length]; lia].
  - destruct (holds_lookup start) as (l1 & i & ms & l2 & E & Hl & Hk); [lia|].
    exists l1, i, ms, l2. rewrite Z.max_l by lia. rewrite Hl in Hget. cbn [obind] in Hget. split_and!; (done || lia).
Qed.

Lemma Get_within start e : segs <> [] -> 0 <= start <= e -> f - 1 <= e < f + Z.of_nat (length (stored segs)) ->
  Get b start e = Ok (mkBroadcastMessage 1 (between start e (stored segs)) None).
Proof using Hb.
  intros Hne Hs He. destruct (Get_start start e Hne) as (l1 & i & ms & l2 & E & Hr & ->); [lia|].
  destruct (holds_run_at l1 i ms l2 E) as (Hch & _ & Hrun & Hto).
  pose proof (hs_from _ _ _ Hb). pose proof holds_fuel as Hfuel. pose proof (hs_to _ _ _ Hb).
  rewrite E, length_app in Hfuel. cbn [length] in Hfuel.
  rewrite E, stored_app, stored_cons, length_app in He.
  assert (Z.max start f - 1 <= e) as Hm by lia.
  assert (i64 (i64 (e -u64 Z.max start f) + 1) = e - Z.max start f + 1) as ->.
  { destruct (Z.eq_dec e (Z.max start f - 1)) as [->|].
    - replace (Z.max start f - 1 - Z.max start f) with (-1) by lia. vm_compute. done.
    - rewrite u64_sub by lia. rewrite (swrap_id 64 (e - _)), swrap_id; unfold in_s; change (2 ^ (64 - 1)) with (2 ^ 63); lia. }
  rewrite (Get_loop_run b l2 i ms (bl_next b) (f + Z.of_nat (length (stored l1))));
    [|done|done|lia|lia|lia|lia|lia|cbn [length]; lia].
  cbn [obind app]. do 2 f_equal. rewrite E, stored_app, stored_cons, (between_app start).
  pose proof (hs_run _ _ _ Hb) as Hall. rewrite E, stored_app in Hall. apply run_app in Hall as [Hr1 _].
  rewrite (between_after start e (stored l1)).
  - apply between_ext. intros m Hin. pose proof (run_bounds _ _ _ Hrun Hin). lia.
  - intros m Hin. pose proof (run_bounds _ _ _ Hr1 Hin). lia.
Qed.

(** A range that ends before the window, and not just before it, is cut to one
    that starts after its end. *)
Lemma Get_confirmed start e : segs <> [] -> 0 <= start <= e -> e < f - 1 ->
  Get b start e = Panic "makeslice: len out of range".
Proof using Hb.
  intros Hne Hs He. destruct (Get_start start e Hne) as (l1 & i & ms & l2 & E & Hr & ->); [lia|].
  destruct (holds_run_at l1 i ms l2 E) as (Hch & Hms & Hrun & Hto).
  pose proof holds_fuel as Hfuel. pose proof (hs_from _ _ _ Hb).
  rewrite E, length_app in Hfuel. cbn [length] in Hfuel.
  destruct (bl_next b) as [|fuel]; [lia|]. cbn [Get_loop]. rewrite (deref_chain _ _ _ _ _ Hch). cbn [obind].
  apply run_app in Hrun as [Hrun _]. rewrite length_app in Hto.
  destruct (segment_run _ ms (first_id l2 None) 0 Hrun Hms) as [Hst Hen].
  rewrite MaxInt2_max, MinInt_min, Hst, Hen. unfold segment_Get. rewrite Hst, Hen.
  replace (Z.max (Z.max start f) (f + Z.of_nat (length (stored l1)))) with f by lia.
  replace (Z.min e (f + Z.of_nat (length (stored l1)) + Z.of_nat (length ms) - 1)) with e by lia.
  replace (f + Z.of_nat (length (stored l1))) with f by lia.
  rewrite Z.ltb_irrefl, (proj2 (Z.ltb_ge _ _)) by lia.
  rewrite Z.sub_diag. change (u64 0) with 0. rewrite Z.sub_0_r.
  assert (u64 (e -u64 f +u64 1) = e - f + 1 + 2 ^ 64) as ->.
  { unfold uwrap. rewrite Z.mod_mod, Z.add_mod_idemp_l by lia. symmetry. apply (Z.mod_unique_pos _ _ (-1)); lia. }
  rewrite (proj2 (Z.leb_le _ _)) by lia. done.
Qed.

Lemma Get_beyond start e : segs <> [] -> f + Z.of_nat (length (stored segs)) <= e ->
  Get b start e = Err errOutOfBounds.
Proof using Hb.
  intros Hne He. destruct (holds_tail Hne) as (l0 & t & tms & _ & Ht & Hdt & _ & _ & Het).
  unfold Get. rewrite Ht, Hdt. cbn [obind]. rewrite Het, (proj2 (Z.ltb_lt _ _)) by lia. by destruct (bl_head b).
Qed.

Lemma backlogSizeInBytes_sum : backlogSizeInBytes b = (Ok (u64 (total_size (stored segs))), b).
Proof using Hb.
  destruct (decide (segs = [])) as [->|Hne].
  - unfold backlogSizeInBytes. rewrite (hs_head _ _ _ Hb), (hs_tail _ _ _ Hb). done.
  - destruct (holds_head Hne) as (i & ms & rest & Eh & Hh & Hdh & _).
    destruct (holds_tail Hne) as (l0 & t & tms & Et & Ht & Hdt & Htms & _ & _).
    destruct (hs_sum _ _ _ Hb) as [c Hc]. unfold backlogSizeInBytes, load. rewrite Hh, Ht, Hdh, Hdt. cbn [sg_messages].
    destruct (holds_run_at [] i ms rest Eh) as (_ & Hms & _). destruct ms as [|m ms]; [done|].
    destruct (last tms) as [tm|] eqn:El; [|by apply last_None in El].
    assert (last (stored segs) = Some tm) as Hl.
    { by rewrite Et, stored_app, stored_one, last_app, El. }
    rewrite (sums_total _ _ _ Hc Hl). rewrite Eh, stored_cons in *. destruct Hc as [-> _].
    do 2 f_equal. unfold uwrap. rewrite <- Zminus_mod, Z.add_mod_idemp_l by lia. f_equal. lia.
Qed.
End Reading.

(** ** Appending *)

Lemma removeFromLookup_loop_spec fuel i e l :
  0 <= i -> e < 2 ^ 64 - 1 -> e - i + 1 <= Z.of_nat fuel ->
  exists l', removeFromLookup_loop fuel i e l = Ok l' /\
    forall k, l' !! k = if decide (i <= k /\ k <= e) then None else l !! k.
Proof.
  revert i l. induction fuel as [|fuel IH]; intros i l Hi He Hf; cbn [removeFromLookup_loop].
  - rewrite (proj2 (Z.leb_gt _ _)) by lia. exists l. split; [done|]. intros k. rewrite decide_False by lia. done.
  - destruct (Z.leb_spec i e).
    + rewrite u64_add by lia. destruct (IH (i + 1) (delete i l)) as (l' & -> & Hl'); [lia..|].
      exists l'. split; [done|]. intros k. rewrite Hl'. destruct (Z.eq_dec k i) as [->|].
      * rewrite decide_False, decide_True by lia. apply lookup_delete_eq.
      * rewrite lookup_delete_ne by done. destruct (decide (i + 1 <= k /\ k <= e)).
        -- rewrite decide_True by lia. done.
        -- rewrite decide_False by lia. done.
    + exists l. split; [done|]. intros k. rewrite decide_False by lia. done.
Qed.

Lemma removeFromLookup_spec s e b :
  0 <= s -> e < 2 ^ 64 - 1 ->
  exists l, removeFromLookup s e b = (Ok tt, store_lookup l b) /\
    forall k, l !! k = if decide (s <= k /\ k <= e) then None else bl_lookupByIndex b !! k.
Proof.
  intros Hs He. unfold removeFromLookup.
  destruct (removeFromLookup_loop_spec (Z.to_nat (e - s + 1)) s e (bl_lookupByIndex b)) as (l & -> & Hl); [lia..|].
  eauto.
Qed.

(** A backlog of one message. *)
Lemma holds_one b i m :
  bl_heap b !! i = Some (mkBacklogSegment [m] None 0) ->
  (forall j s, bl_heap b !! j = Some s -> (j < bl_next b)%nat) ->
  bl_head b = Some i -> bl_tail b = Some i -> bl_lookupByIndex b !! seqno m = Some i ->
  (forall k j, bl_lookupByIndex b !! k = Some j -> k <= seqno m) ->
  bl_messageCount b = 1 -> 0 <= seqno m < 2 ^ 63 - 1 -> in_u 64 (cumulative m) ->
  holds_segs b (seqno m) [(i, [m])].
Proof.
  intros Hh Hheap Hhd Htl Hl Hlk Hc Hm Hcum. split; cbn [chain stored first_id last fmap option_fmap option_map list_fmap concat length app run fst snd]; try done; try lia.
  - apply NoDup_singleton.
  - intros j ms m' H1 H2. apply list_elem_of_singleton in H1 as [= -> ->].
    apply list_elem_of_singleton in H2 as ->. done.
  - intros k j Hk. split; [done|]. apply Hlk in Hk. lia.
  - exists (cumulative m -u64 size m). split; [|done]. unfold uwrap. rewrite Z.add_mod_idemp_l by lia.
    rewrite Z.sub_add, Z.mod_small by done. done.
Qed.

Lemma Update_sum c m : cumulative m = 0 -> cumulative (UpdateCumulativeSumMsgSize c m) = c +u64 size m.
Proof. intros H. cbn. rewrite H, Z.add_0_l. unfold uwrap. by rewrite Z.mod_mod. Qed.

Lemma set_Update_sum c m : cumulative (UpdateCumulativeSumMsgSize 0 (set_CumulativeSumMsgSize c m)) = c +u64 size m.
Proof. cbn. unfold uwrap. rewrite Z.add_0_l, Z.add_mod_idemp_r by done. done. Qed.

Lemma erase_id m : cumulative m = 0 -> erase m = m.
Proof. destruct m; cbn. intros ->. done. Qed.

Lemma erase_set_Update c c' m : cumulative m = 0 -> erase (UpdateCumulativeSumMsgSize c (set_CumulativeSumMsgSize c' m)) = m.
Proof. destruct m. cbn. by intros ->. Qed.

Lemma erase_Update c m : cumulative m = 0 -> erase (UpdateCumulativeSumMsgSize c m) = m.
Proof. destruct m. cbn. by intros ->. Qed.

Lemma deref_lookup b i s : deref b (Some i) = Ok s <-> bl_heap b !! i = Some s.
Proof. unfold deref. cbn. destruct (bl_heap b !! i); split; congruence. Qed.

Lemma put_id b i s : bl_heap b !! i = Some s -> put i s b = b.
Proof. destruct b as [h n hd tl l c]. unfold put. cbn. intros H. by rewrite insert_id. Qed.

(** The three ways a message is appended to the segment [i]. *)
Section Appending.
Context (b : backlog) (i : nat) (s : backlogSegment) (prev : Z) (m : message).
Hypothesis Hs : bl_heap b !! i = Some s.
Hypothesis Hfree : sg_rlocks s = 0.
Hypothesis Hprev : 0 <= prev < 2 ^ 63.

Definition prev_sum : Z := match last (sg_messages s) with Some m => cumulative m | None => 0 end.

Lemma append_segment_next :
  prev = 0 \/ seqno m = prev + 1 ->
  append_segment i prev m b =
    (Ok tt, index_message i m (put i (set_messages (sg_messages s ++ [UpdateCumulativeSumMsgSize prev_sum m]) s) b)).
Proof using Hs Hfree Hprev.
  intros Hn. unfold append_segment, load. rewrite (proj2 (deref_lookup b i s) Hs). unfold segment_append.
  rewrite Hfree, u64_add by lia. change (0 <? 0) with false. cbv zeta.
  assert ((prev =? 0) || (seqno m =? prev + 1) = true) as ->; [|done].
  apply orb_true_iff. rewrite !Z.eqb_eq. tauto.
Qed.

Lemma append_segment_seen :
  prev <> 0 -> seqno m <= prev -> append_segment i prev m b = (Ok tt, b).
Proof using Hs Hfree Hprev.
  intros Hn Hm. unfold append_segment, load. rewrite (proj2 (deref_lookup b i s) Hs). unfold segment_append.
  rewrite Hfree, u64_add by lia. change (0 <? 0) with false. cbv zeta.
  rewrite (proj2 (Z.eqb_neq prev 0)), (proj2 (Z.eqb_neq _ (prev + 1))), (proj2 (Z.ltb_ge (prev + 1) _)) by lia.
  cbn [orb]. change (errors_Is errSequenceNumberSeen errDropSegments) with false.
  change (errors_Is errSequenceNumberSeen errSequenceNumberSeen) with true. cbv iota.
  f_equal. by apply put_id.
Qed.

Lemma append_segment_ahead (h : nat) (hs : backlogSegment) (m' := UpdateCumulativeSumMsgSize prev_sum m) :
  prev <> 0 -> prev + 1 < seqno m -> seqno m < 2 ^ 63 ->
  bl_head b = Some h -> bl_heap b !! h = Some hs -> 0 <= segment_Start hs ->
  exists l, append_segment i prev m b =
      (Ok tt, index_message i m (store_count 0 (store_tail (Some i) (store_head (Some i)
        (store_lookup l (put i (set_messages [m'] s) b)))))) /\
    forall k j, l !! k = Some j -> bl_lookupByIndex b !! k = Some j.
Proof using Hs Hfree Hprev.
  intros Hn Hm Hm63 Hh Hhs H0. unfold append_segment, load. rewrite (proj2 (deref_lookup b i s) Hs). unfold segment_append.
  rewrite Hfree, u64_add by lia. change (0 <? 0) with false. cbv zeta.
  rewrite (proj2 (Z.eqb_neq prev 0)), (proj2 (Z.eqb_neq _ (prev + 1))), (proj2 (Z.ltb_lt (prev + 1) _)) by lia.
  cbn [orb]. match goal with |- context [errors_Is ?e errDropSegments] => change (errors_Is e errDropSegments) with true end.
  cbv iota. fold prev_sum. fold m'.
  assert (exists hs', deref (put i (set_messages [m'] s) b) (bl_head (put i (set_messages [m'] s) b)) = Ok hs' /\
            0 <= segment_Start hs') as (hs' & -> & H0').
  { cbn [put bl_head]. rewrite Hh. destruct (decide (h = i)) as [->|].
    - exists (set_messages [m'] s). split; [apply deref_lookup, lookup_insert_eq|]. cbn. lia.
    - exists hs. split; [|done]. apply deref_lookup. cbn. by rewrite lookup_insert_ne. }
  destruct (removeFromLookup_spec (segment_Start hs') (seqno m) (put i (set_messages [m'] s) b)) as (l & -> & Hl); [lia..|].
  exists l. split; [done|]. intros k j. rewrite Hl. destruct (decide _); done.
Qed.
End Appending.

Lemma append_message_empty limit m b f :
  holds_segs b f [] -> 0 < limit -> 0 <= seqno m < 2 ^ 63 - 1 -> cumulative m = 0 ->
  exists b' m', append_message limit m b = (Ok tt, b') /\
    holds_segs b' (seqno m) [(bl_next b, [m'])] /\ erase m' = m.
Proof.
  intros Hb Hl Hs Hc. unfold append_message, tail_segment. rewrite (hs_tail _ _ _ Hb).
  cbn [last fmap option_fmap option_map newBacklogSegment]. set (b1 := store_tail _ _).
  assert (Hn : bl_heap b1 !! bl_next b = Some (mkBacklogSegment [] None 0)) by (cbn; apply lookup_insert_eq).
  unfold load. rewrite (proj2 (deref_lookup _ _ _) Hn). unfold roll_segment, segment_count. cbn [sg_messages length].
  rewrite (proj2 (Z.leb_gt _ _)) by lia.
  rewrite (append_segment_next b1 _ _ _ m Hn) by (done || lia || by left). cbn [sg_messages app].
  set (m' := UpdateCumulativeSumMsgSize _ m). eexists _, m'. split; [done|].
  split; [|exact (erase_id m Hc)].
  change (seqno m) with (seqno m'). apply holds_one; try done.
  - cbn. apply lookup_insert_eq.
  - intros j s Hj. cbn in Hj |- *. destruct (decide (j = bl_next b)); [lia|].
    rewrite !lookup_insert_ne in Hj by done. apply (hs_heap _ _ _ Hb) in Hj. lia.
  - cbn. apply lookup_insert_eq.
  - intros k j Hk. cbn in Hk. destruct (decide (k = seqno m)) as [->|]; [done|].
    rewrite lookup_insert_ne in Hk by done. by apply (hs_known _ _ _ Hb) in Hk as [? _].
  - cbn. rewrite (hs_count _ _ _ Hb). done.
  - apply u64_range.
Qed.

(** One more message at the end of the window. *)
Lemma holds_extend b b' f segs segs' i m' :
  holds_segs b f segs -> stored segs <> [] ->
  stored segs' = stored segs ++ [m'] -> seqno m' = f + Z.of_nat (length (stored segs)) -> seqno m' < 2 ^ 63 - 1 ->
  (forall tm, last (stored segs) = Some tm -> cumulative m' = cumulative tm +u64 size m') ->
  chain (bl_heap b') segs' None -> NoDup segs'.*1 ->
  (forall j s, bl_heap b' !! j = Some s -> (j < bl_next b')%nat) ->
  bl_head b' = first_id segs' None -> bl_tail b' = fst <$> last segs' ->
  bl_lookupByIndex b' = <[seqno m' := i]> (bl_lookupByIndex b) ->
  bl_messageCount b' = bl_messageCount b +u64 1 ->
  (forall j ms m, (j, ms) ∈ segs' -> m ∈ ms -> m = m' /\ j = i \/ exists ms0, (j, ms0) ∈ segs /\ m ∈ ms0) ->
  holds_segs b' f segs'.
Proof.
  intros Hb Hw Hst Hq H63 Hcum Hch Hnd Hheap Hhd Htl Hlk Hcnt Hmem.
  pose proof (hs_from _ _ _ Hb). pose proof (hs_to _ _ _ Hb).
  assert (Hlen : Z.of_nat (length (stored segs')) = Z.of_nat (length (stored segs)) + 1)
    by (rewrite Hst, length_app; cbn; lia).
  split; try done; try lia.
  - intros j ms m Hj Hm. rewrite Hlk. destruct (Hmem j ms m Hj Hm) as [[-> ->]|(ms0 & Hj0 & Hm0)]; [apply lookup_insert_eq|].
    pose proof (hs_index _ _ _ Hb _ _ _ Hj0 Hm0) as Hk. pose proof (hs_known _ _ _ Hb _ _ Hk) as [_ Hlt].
    rewrite lookup_insert_ne by lia. done.
  - intros k j. rewrite Hlk. destruct (decide (k = seqno m')) as [->|].
    + intros _. split; [|lia]. intros ->. by destruct (stored segs).
    + rewrite lookup_insert_ne by done. intros Hk%(hs_known _ _ _ Hb). split; [|lia].
      intros ->. by destruct (stored segs).
  - rewrite Hcnt, (hs_count _ _ _ Hb), u64_add by lia. lia.
  - rewrite Hst. apply run_app. split; [apply (hs_run _ _ _ Hb)|by split].
  - destruct (hs_sum _ _ _ Hb) as [c Hc]. exists c. rewrite Hst. apply sums_app. split; [done|].
    destruct (last (stored segs)) as [tm|] eqn:E; [|by apply last_None in E]. split; [by apply Hcum|done].
Qed.

(** Appending to a backlog that is not empty; [l1 ++ [(t, ms)]] are its segments. *)
Section AppendMessage.
Context (limit : Z) (m : message) (b : backlog) (f : Z) (segs l1 : list seg) (t : nat) (ms : list message).
Hypothesis Hb : holds_segs b f segs.
Hypothesis Hsegs : segs = l1 ++ [(t, ms)].
Hypothesis Hne : ms <> [].
Hypothesis Hm : 0 <= seqno m < 2 ^ 63 - 1.
Hypothesis Hcum : cumulative m = 0.

Definition prev_id : Z := f + Z.of_nat (length (stored segs)) - 1.

(** The backlog after a new segment was linked to its end. *)
Definition rolled : backlog :=
  store_tail (Some (bl_next b))
    (put t (mkBacklogSegment ms (Some (bl_next b)) 0) (snd (newBacklogSegment b))).

Lemma tail_heap : bl_heap b !! t = Some (mkBacklogSegment ms None 0).
Proof using Hb Hsegs.
  destruct (holds_run_at b f segs Hb l1 t ms [] Hsegs) as (Hch & _). by destruct Hch.
Qed.

Lemma tail_fresh : t <> bl_next b.
Proof using Hb Hsegs. pose proof (hs_heap _ _ _ Hb _ _ tail_heap). lia. Qed.

Lemma last_stored : last (stored segs) = last ms.
Proof using Hsegs Hne.
  rewrite Hsegs, stored_app, stored_one, last_app. destruct (last ms) eqn:E; [done|]. by apply last_None in E.
Qed.

Lemma append_message_at :
  append_message limit m b =
    if limit <=? Z.of_nat (length ms)
    then append_segment (bl_next b) prev_id
           (match last ms with Some tm => set_CumulativeSumMsgSize (cumulative tm) m | None => m end) rolled
    else append_segment t prev_id m b.
Proof using Hb Hsegs Hne.
  assert (segs <> []) as Hn by (rewrite Hsegs; by destruct l1).
  destruct (holds_tail b f segs Hb Hn) as (l0 & t' & ms' & E & Ht & Hd & _ & _ & Hen).
  rewrite Hsegs in E. apply app_inj_tail in E as [_ [= <- <-]].
  unfold append_message, tail_segment. rewrite Ht. unfold load. rewrite Hd, Hen.
  unfold roll_segment, segment_count. cbn [sg_messages]. destruct (limit <=? Z.of_nat (length ms)); done.
Qed.

Lemma prev_id_range : 0 <= prev_id < 2 ^ 63.
Proof using Hb Hsegs Hne.
  pose proof (hs_from _ _ _ Hb). pose proof (hs_to _ _ _ Hb). unfold prev_id.
  assert (0 < length (stored segs))%nat; [|lia].
  rewrite Hsegs, stored_app, stored_one, length_app. destruct ms; [done|cbn; lia].
Qed.

Lemma ids_split : (t ∉ l1.*1) /\ NoDup l1.*1 /\ bl_next b ∉ segs.*1.
Proof using Hb Hsegs.
  pose proof (hs_nodup _ _ _ Hb) as Hnd. rewrite Hsegs, fmap_app in Hnd.
  apply NoDup_app in Hnd as (H1 & H2 & _).
  split_and!; [|done|].
  - intros Hin. apply (H2 t Hin). by left.
  - intros [s Hs]%(chain_ids _ _ _ _ (hs_chain _ _ _ Hb)). apply (hs_heap _ _ _ Hb) in Hs. lia.
Qed.

(** The segments before the last one are not touched. *)
Lemma front_chain h nxt : 
  chain (bl_heap b) l1 (Some t) -> (forall i, i ∈ l1.*1 -> h !! i = bl_heap b !! i) ->
  h !! t = Some (mkBacklogSegment ms nxt 0) -> chain h segs nxt.
Proof using Hsegs Hne.
  intros Hch Hh Ht. rewrite Hsegs. apply chain_app. split; [|by cbn].
  cbn [first_id]. clear Hsegs. induction l1 as [|[i ms'] l IH]; [done|].
  destruct Hch as (H1 & H2 & H3). split_and!; [|done|].
  - rewrite Hh by left. done.
  - apply IH; [done|]. intros j Hj. apply Hh. by right.
Qed.

Lemma front : chain (bl_heap b) l1 (Some t).
Proof using Hb Hsegs. pose proof (hs_chain _ _ _ Hb) as H. rewrite Hsegs in H. by apply chain_app in H as [H _]. Qed.

Lemma rolled_heap j s : bl_heap rolled !! j = Some s -> (j < S (bl_next b))%nat.
Proof using Hb Hsegs.
  cbn. pose proof (hs_heap _ _ _ Hb _ _ tail_heap). destruct (decide (j = t)) as [->|]; [lia|].
  destruct (decide (j = bl_next b)) as [->|]; [lia|].
  rewrite !lookup_insert_ne by done. intros Hj%(hs_heap _ _ _ Hb). lia.
Qed.

Lemma rolled_chain s : chain (<[bl_next b := s]> (bl_heap rolled)) segs (Some (bl_next b)).
Proof using Hb Hsegs Hne.
  destruct ids_split as (Hid & _ & Hnew). apply front_chain; [apply front| |]; cbn.
  - intros i Hi. assert (i <> t) by congruence. assert (i <> bl_next b).
    { intros ->. apply Hnew. rewrite Hsegs, fmap_app. apply elem_of_app. by left. }
    by rewrite !lookup_insert_ne.
  - rewrite lookup_insert_ne by (apply not_eq_sym, tail_fresh). by rewrite lookup_insert_eq.
Qed.

Lemma stored_nonempty : stored segs <> [].
Proof using Hsegs Hne. rewrite Hsegs, stored_app, stored_one. intros [_ ?]%app_eq_nil. done. Qed.

(** The next message, when the last segment has room. *)
Lemma append_message_room :
  seqno m = prev_id + 1 -> Z.of_nat (length ms) < limit ->
  exists b' segs' m', append_message limit m b = (Ok tt, b') /\ holds_segs b' f segs' /\
    stored segs' = stored segs ++ [m'] /\ erase m' = m /\ extends segs segs'.
Proof using Hb Hsegs Hne Hm Hcum.
  intros Hq Hroom. rewrite append_message_at, (proj2 (Z.leb_gt _ _)) by lia. pose proof prev_id_range.
  destruct ids_split as (Hid & _ & _).
  rewrite (append_segment_next b t (mkBacklogSegment ms None 0) prev_id m tail_heap) by (done || by right).
  set (m' := UpdateCumulativeSumMsgSize _ m). cbn [sg_messages set_messages sg_nextSegment sg_rlocks].
  eexists _, (l1 ++ [(t, ms ++ [m'])]), m'. split; [reflexivity|].
  assert (Hst : stored (l1 ++ [(t, ms ++ [m'])]) = stored segs ++ [m'])
    by (by rewrite Hsegs, !stored_app, !stored_one, app_assoc).
  split_and!; [|done|by apply erase_Update|by exists l1, t, ms, [m'], []].
  apply (holds_extend b _ f segs _ t m'); try done.
  - apply stored_nonempty.
  - cbn. unfold prev_id in Hq. lia.
  - cbn. lia.
  - intros tm Htm. rewrite last_stored in Htm. unfold m', prev_sum. cbn [sg_messages]. rewrite Htm.
    etransitivity; [by apply Update_sum|done].
  - apply chain_app. cbn. split; [by apply chain_insert, front|].
    split_and!; [by rewrite lookup_insert_eq|by destruct ms|done].
  - rewrite fmap_app. pose proof (hs_nodup _ _ _ Hb) as Hall. by rewrite Hsegs, fmap_app in Hall.
  - intros j s Hj. cbn in Hj |- *. destruct (decide (j = t)) as [->|]; [exact (hs_heap _ _ _ Hb _ _ tail_heap)|].
    rewrite !lookup_insert_ne in Hj by done. by apply (hs_heap _ _ _ Hb) in Hj.
  - cbn. rewrite (hs_head _ _ _ Hb), Hsegs. by destruct l1 as [|[]].
  - cbn. by rewrite (hs_tail _ _ _ Hb), Hsegs, !last_snoc.
  - rewrite Hsegs. intros j ms' m1 [Hj|Hj]%elem_of_app Hm1.
    + right. exists ms'. split; [|done]. apply elem_of_app. by left.
    + apply list_elem_of_singleton in Hj as [= -> ->]. apply elem_of_app in Hm1 as [Hm1|Hm1].
      * right. exists ms. split; [|done]. apply elem_of_app. right. by left.
      * apply list_elem_of_singleton in Hm1 as ->. by left.
Qed.

(** The next message, when the last segment is full. *)
Lemma append_message_full :
  seqno m = prev_id + 1 -> limit <= Z.of_nat (length ms) ->
  exists b' segs' m', append_message limit m b = (Ok tt, b') /\ holds_segs b' f segs' /\
    stored segs' = stored segs ++ [m'] /\ erase m' = m /\ extends segs segs'.
Proof using Hb Hsegs Hne Hm Hcum.
  intros Hq Hfull. rewrite append_message_at, (proj2 (Z.leb_le _ _)) by lia. pose proof prev_id_range.
  destruct ids_split as (_ & _ & Hnew). destruct (last ms) as [tm|] eqn:Elast; [|by apply last_None in Elast].
  set (m1 := set_CumulativeSumMsgSize _ m).
  rewrite (append_segment_next rolled (bl_next b) (mkBacklogSegment [] None 0) prev_id m1);
    [|cbn; rewrite lookup_insert_ne, lookup_insert_eq by apply tail_fresh; done|done|done|by right].
  eexists _, (segs ++ [(bl_next b, [UpdateCumulativeSumMsgSize 0 m1])]), (UpdateCumulativeSumMsgSize 0 m1).
  split; [reflexivity|]. split_and!; [|by rewrite stored_app, stored_one|by apply erase_set_Update|].
  2: { exists l1, t, ms, [], [(bl_next b, [UpdateCumulativeSumMsgSize 0 m1])]. by rewrite app_nil_r, Hsegs, <- app_assoc. }
  apply (holds_extend b _ f segs _ (bl_next b) (UpdateCumulativeSumMsgSize 0 m1)); try done.
  - apply stored_nonempty.
  - by rewrite stored_app, stored_one.
  - cbn. unfold prev_id in Hq. lia.
  - cbn. lia.
  - intros tm' Htm. rewrite last_stored, Elast in Htm. injection Htm as <-.
    etransitivity; [apply set_Update_sum|done].
  - apply chain_app. split; [apply rolled_chain|by cbn; rewrite lookup_insert_eq].
  - rewrite fmap_app. apply NoDup_app. split_and!; [by apply (hs_nodup _ _ _ Hb)| |apply NoDup_singleton].
    intros i Hi ->%list_elem_of_singleton. done.
  - intros j s Hj. cbn in Hj |- *. destruct (decide (j = bl_next b)) as [->|]; [lia|].
    rewrite lookup_insert_ne in Hj by done. by apply rolled_heap in Hj.
  - cbn. rewrite (hs_head _ _ _ Hb). destruct segs as [|[]]; [by destruct l1|done].
  - by rewrite last_snoc.
  - intros j ms' m' [Hj|Hj]%elem_of_app Hm'; [right; eauto|].
    apply list_elem_of_singleton in Hj as [= -> ->]. apply list_elem_of_singleton in Hm' as ->. by left.
Qed.

Lemma append_message_next :
  seqno m = prev_id + 1 ->
  exists b' segs' m', append_message limit m b = (Ok tt, b') /\ holds_segs b' f segs' /\
    stored segs' = stored segs ++ [m'] /\ erase m' = m /\ extends segs segs'.
Proof using Hb Hsegs Hne Hm Hcum.
  intros Hq. destruct (Z_lt_le_dec (Z.of_nat (length ms)) limit); [by apply append_message_room|by apply append_message_full].
Qed.

Lemma append_message_seen :
  prev_id <> 0 -> seqno m <= prev_id -> Z.of_nat (length ms) < limit -> append_message limit m b = (Ok tt, b).
Proof using Hb Hsegs Hne.
  intros Hn Hle Hfull. rewrite append_message_at, (proj2 (Z.leb_gt _ _)) by lia.
  apply (append_segment_seen b t (mkBacklogSegment ms None 0) prev_id m tail_heap); [done|apply prev_id_range|done..].
Qed.

(** The state after [append_segment_ahead]. *)
Lemma restarted b1 i m1 h l :
  bl_heap b1 = <[i := mkBacklogSegment [m1] None 0]> h ->
  (forall j s, h !! j = Some s -> (j < bl_next b1)%nat) -> (i < bl_next b1)%nat ->
  (forall k j, l !! k = Some j -> bl_lookupByIndex b !! k = Some j) ->
  prev_id + 1 < seqno m -> seqno m1 = seqno m -> in_u 64 (cumulative m1) ->
  bl_head b1 = Some i -> bl_tail b1 = Some i ->
  bl_lookupByIndex b1 = <[seqno m := i]> l -> bl_messageCount b1 = 0 +u64 1 ->
  holds_segs b1 (seqno m) [(i, [m1])].
Proof using Hb Hm.
  intros Hh Hheap Hi Hl Hq Hs Hc Hhd Htl Hlk Hcnt. rewrite <- Hs in *. apply holds_one; try done.
  - by rewrite Hh, lookup_insert_eq.
  - intros j s. rewrite Hh. destruct (decide (j = i)) as [->|]; [done|]. rewrite lookup_insert_ne by done. apply Hheap.
  - by rewrite Hlk, lookup_insert_eq.
  - intros k j. rewrite Hlk. destruct (decide (k = seqno m1)) as [->|]; [done|].
    rewrite lookup_insert_ne by done. intros Hk%Hl%(hs_known _ _ _ Hb). unfold prev_id in Hq. lia.
Qed.

Lemma append_message_ahead :
  prev_id <> 0 -> prev_id + 1 < seqno m ->
  exists b' i m', append_message limit m b = (Ok tt, b') /\ holds_segs b' (seqno m) [(i, [m'])] /\ erase m' = m.
Proof using Hb Hsegs Hne Hm Hcum.
  intros Hn Hq. rewrite append_message_at. pose proof prev_id_range. pose proof (hs_from _ _ _ Hb).
  assert (segs <> []) as Hns by (rewrite Hsegs; by destruct l1).
  destruct (holds_head b f segs Hb Hns) as (h & hms & rest & Eh & Hh & Hdh%deref_lookup & Hsh).
  destruct (last ms) as [tm|] eqn:Elast; [|by apply last_None in Elast].
  destruct (Z.leb_spec limit (Z.of_nat (length ms))) as [Hfull|Hfull].
  - set (m1 := set_CumulativeSumMsgSize _ m).
    destruct (append_segment_ahead rolled (bl_next b) (mkBacklogSegment [] None 0) prev_id m1) with (h := h)
      (hs := mkBacklogSegment hms (if decide (h = t) then Some (bl_next b) else first_id rest None) 0)
      as (l & -> & Hl); try done; try (cbn; lia).
    + cbn. rewrite lookup_insert_ne, lookup_insert_eq by apply tail_fresh. done.
    + cbn. pose proof (hs_heap _ _ _ Hb _ _ Hdh). destruct (decide (h = t)) as [->|].
      * rewrite lookup_insert_eq. rewrite tail_heap in Hdh. by injection Hdh as <- _.
      * by rewrite !lookup_insert_ne by lia.
    + change (0 <= segment_Start (mkBacklogSegment hms (first_id rest None) 0)). lia.
    + eexists _, (bl_next b), _. split; [reflexivity|].
      split; [|by apply erase_set_Update].
      eapply restarted; try done.
      * apply rolled_heap.
      * cbn. lia.
      * apply u64_range.
  - destruct (append_segment_ahead b t (mkBacklogSegment ms None 0) prev_id m tail_heap) with (h := h)
      (hs := mkBacklogSegment hms (first_id rest None) 0) as (l & -> & Hl); try done; try lia.
    eexists _, t, _. split; [reflexivity|]. split; [|by apply erase_Update].
    eapply restarted; try done.
    + apply (hs_heap _ _ _ Hb).
    + apply (hs_heap _ _ _ Hb _ _ tail_heap).
    + apply u64_range.
Qed.
End AppendMessage.

Lemma holds_nil_segs b f segs : holds_segs b f segs -> stored segs = [] -> segs = [].
Proof.
  intros Hb Hst. destruct segs as [|[i ms] segs]; [done|]. exfalso.
  destruct (hs_chain _ _ _ Hb) as (_ & Hne & _). rewrite stored_cons in Hst. by apply app_eq_nil in Hst as [? _].
Qed.

Lemma append_message_holds limit m b w :
  holds b w -> 0 < limit -> in_order limit w m ->
  exists b', append_message limit m b = (Ok tt, b') /\ holds b' (feed_message w m).
Proof.
  intros (f & segs & Hb & Hw) Hl (Hm & Hcum & Hio). destruct (decide (segs = [])) as [->|Hne].
  - cbn in Hw. subst w. destruct (append_message_empty limit m b f Hb Hl Hm Hcum) as (b' & m' & Ha & Hb' & He).
    exists b'. split; [done|]. eexists _, _. split; [done|]. rewrite stored_one. cbn. by rewrite He.
  - destruct (holds_tail b f segs Hb Hne) as (l1 & t & ms & Hsegs & _ & _ & Hms & _ & _).
    assert (Hst := stored_nonempty segs l1 t ms Hsegs Hms).
    assert (Hwne : w <> []) by (intros ->; by apply fmap_nil_inv in Hw).
    assert (Hlast : last_seqno w = prev_id f segs).
    { rewrite <- Hw, erase_last. by rewrite (run_last f) by (done || apply (hs_run _ _ _ Hb)). }
    assert (Hfeed : feed_message w m = if seqno m =? last_seqno w + 1 then w ++ [m] else if last_seqno w + 1 <? seqno m then [m] else w)
      by (by destruct w).
    pose proof (prev_id_range b f segs l1 t ms Hb Hsegs Hms). rewrite Hfeed, Hlast. rewrite Hlast in Hio.
    destruct Hio as [?|Hio]; [done|].
    destruct (Z.eqb_spec (seqno m) (prev_id f segs + 1)) as [Hq|Hq]; [|destruct (Z.ltb_spec (prev_id f segs + 1) (seqno m)) as [Hlt|Hge]].
    + assert (exists b' segs' m', append_message limit m b = (Ok tt, b') /\ holds_segs b' f segs' /\
        stored segs' = stored segs ++ [m'] /\ erase m' = m /\ extends segs segs') as (b' & segs' & m' & Ha & Hb' & Hs' & He & _)
        by (by apply (append_message_next limit m b f segs l1 t ms)).
      exists b'. split; [done|]. exists f, segs'. split; [done|]. by rewrite Hs', fmap_app, Hw, <- He.
    + destruct (append_message_ahead limit m b f segs l1 t ms) as (b' & i & m' & Ha & Hb' & He); try done; [lia|].
      exists b'. split; [done|]. eexists _, _. split; [done|]. rewrite stored_one. cbn. by rewrite He.
    + exists b. split; [|by exists f, segs]. apply (append_message_seen limit m b f segs l1 t ms); try done; [lia..|].
      assert (length ms <= length w)%nat; [|lia].
      rewrite <- Hw, length_fmap, Hsegs, stored_app, stored_one, length_app. lia.
Qed.

Lemma append_messages_holds limit ms b w :
  holds b w -> 0 < limit -> all_in_order limit w ms ->
  exists b', append_messages limit ms b = (Ok tt, b') /\ holds b' (fold_left feed_message ms w).
Proof.
  revert b w. induction ms as [|m ms IH]; intros b w Hb Hl; cbn [append_messages all_in_order fold_left]; [eauto|].
  intros [Hm Hms]. destruct (append_message_holds limit m b w Hb Hl Hm) as (b' & -> & Hb'). by apply IH.
Qed.

(** ** Confirming *)

Lemma reset_holds b f segs : holds_segs b f segs -> holds_segs (reset b) 0 [].
Proof.
  intros Hb. split; try done; cbn.
  - apply NoDup_nil_2.
  - apply (hs_heap _ _ _ Hb).
  - intros i ms m ?%elem_of_nil. done.
  - by exists 0.
Qed.

(** The window after the messages up to [c] are gone. *)
Lemma holds_drop b b' f segs segs' c :
  holds_segs b f segs -> f <= c < f + Z.of_nat (length (stored segs)) - 1 ->
  stored segs' = drop (Z.to_nat (c - f + 1)) (stored segs) ->
  chain (bl_heap b') segs' None -> NoDup segs'.*1 ->
  (forall j s, bl_heap b' !! j = Some s -> (j < bl_next b')%nat) ->
  bl_head b' = first_id segs' None -> bl_tail b' = fst <$> last segs' ->
  (forall k, bl_lookupByIndex b' !! k = if decide (f <= k /\ k <= c) then None else bl_lookupByIndex b !! k) ->
  bl_messageCount b' = bl_messageCount b +u64 f -u64 c -u64 1 ->
  (forall j ms m, (j, ms) ∈ segs' -> m ∈ ms -> exists ms0, (j, ms0) ∈ segs /\ m ∈ ms0) ->
  holds_segs b' (c + 1) segs'.
Proof.
  intros Hb Hc Hst Hch Hnd Hheap Hhd Htl Hlk Hcnt Hmem.
  pose proof (hs_from _ _ _ Hb). pose proof (hs_to _ _ _ Hb).
  assert (Hlen : Z.of_nat (length (stored segs')) = f + Z.of_nat (length (stored segs)) - c - 1)
    by (rewrite Hst, length_drop; lia).
  assert (Hrun : run (c + 1) (stored segs')).
  { pose proof (hs_run _ _ _ Hb) as Hr. rewrite <- (take_drop (Z.to_nat (c - f + 1)) (stored segs)), <- Hst in Hr.
    apply run_app in Hr as [_ Hr]. rewrite length_take in Hr. by replace (c + 1) with
      (f + Z.of_nat (Z.to_nat (c - f + 1) `min` length (stored segs))) by lia. }
  split; try done; try lia.
  - intros j ms m Hj Hm. rewrite Hlk. destruct (Hmem j ms m Hj Hm) as (ms0 & Hj0 & Hm0).
    rewrite decide_False; [by apply (hs_index _ _ _ Hb) with ms0|]. intros [_ Hle].
    assert (m ∈ stored segs') as Hin.
    { apply list_elem_of_In, in_concat. exists ms. split; apply list_elem_of_In; [|done].
      by apply (list_elem_of_fmap_2 snd) in Hj. }
    apply (run_bounds _ _ _ Hrun) in Hin. lia.
  - intros k j. rewrite Hlk. destruct (decide _); [done|]. intros Hk%(hs_known _ _ _ Hb). split; [|lia].
    intros ->. cbn in Hlen. lia.
  - rewrite Hcnt, (hs_count _ _ _ Hb), u64_add, !u64_sub by (rewrite ?u64_sub by lia; lia). lia.
  - destruct (hs_sum _ _ _ Hb) as [s Hs]. rewrite Hst. by apply (sums_drop s).
Qed.

Lemma delete_tidy_spec f c n b :
  0 <= f -> c < 2 ^ 64 - 1 ->
  exists l, delete_tidy f c n b =
      (Ok tt, store_head (Some n) (store_count (bl_messageCount b +u64 f -u64 c -u64 1) (store_lookup l b))) /\
    forall k, l !! k = if decide (f <= k /\ k <= c) then None else bl_lookupByIndex b !! k.
Proof.
  intros Hf Hc. unfold delete_tidy. destruct (removeFromLookup_spec f c b Hf Hc) as (l & -> & Hl). by exists l.
Qed.

Section Confirming.
Context (b : backlog) (f c : Z) (segs l1 : list seg) (i : nat) (ms : list message) (l2 : list seg).
Hypothesis Hb : holds_segs b f segs.
Hypothesis Hsegs : segs = l1 ++ (i, ms) :: l2.
Hypothesis Hc : f + Z.of_nat (length (stored l1)) <= c < f + Z.of_nat (length (stored l1)) + Z.of_nat (length ms).

Lemma confirm_heap : bl_heap b !! i = Some (mkBacklogSegment ms (first_id l2 None) 0).
Proof using Hb Hsegs. destruct (holds_run_at b f segs Hb l1 i ms l2 Hsegs) as (Hch & _). by destruct Hch. Qed.

Lemma confirm_length : Z.of_nat (length (stored segs)) =
  Z.of_nat (length (stored l1)) + Z.of_nat (length ms) + Z.of_nat (length (stored l2)).
Proof using Hsegs. rewrite Hsegs, stored_app, stored_cons, !length_app. lia. Qed.

(** The confirmed message is the last one of a segment that has a successor. *)
Lemma confirm_segment_end n :
  c = f + Z.of_nat (length (stored l1)) + Z.of_nat (length ms) - 1 -> first_id l2 None = Some n ->
  exists b', delete_tidy f c n b = (Ok tt, b') /\ holds_segs b' (c + 1) l2 /\
    stored l2 = drop (Z.to_nat (c - f + 1)) (stored segs).
Proof using Hb Hsegs Hc.
  intros Hce Hn. pose proof (hs_from _ _ _ Hb). pose proof (hs_to _ _ _ Hb). pose proof confirm_length as Hlen.
  destruct (delete_tidy_spec f c n b) as (l & -> & Hl); [lia..|]. eexists. split; [done|].
  assert (Hch := hs_chain _ _ _ Hb). rewrite Hsegs in Hch. apply chain_app in Hch as [_ (_ & _ & Hch)].
  assert (0 < length (stored l2))%nat.
  { destruct l2 as [|[j [|m ms']] l']; [done| |rewrite stored_cons; cbn; lia]. by destruct Hch as (_ & ? & _). }
  assert (Hst : stored l2 = drop (Z.to_nat (c - f + 1)) (stored segs)).
  { rewrite Hsegs, stored_app, stored_cons, app_assoc, drop_app_length'; [done|]. rewrite length_app. lia. }
  split; [|done]. apply (holds_drop b _ f segs l2 c); try done; try lia.
  - pose proof (hs_nodup _ _ _ Hb) as Hnd. rewrite Hsegs, fmap_app in Hnd.
    apply NoDup_app in Hnd as (_ & _ & Hnd). by apply NoDup_cons in Hnd as [_ Hnd].
  - apply (hs_heap _ _ _ Hb).
  - cbn. rewrite (hs_tail _ _ _ Hb), Hsegs, last_app. destruct l2 as [|x l']; [done|].
    rewrite last_cons. by destruct (last (x :: l')) eqn:E; [|apply last_None in E].
  - rewrite Hsegs. intros j ms' m Hj Hm. exists ms'. split; [|done]. apply elem_of_app. right. by right.
Qed.

(** The confirmed message is inside a segment. *)
Lemma confirm_segment_inside (k := Z.to_nat (c - (f + Z.of_nat (length (stored l1))) + 1)) :
  c < f + Z.of_nat (length (stored l1)) + Z.of_nat (length ms) - 1 ->
  exists b', delete_tidy f c i (put i (mkBacklogSegment (drop k ms) (first_id l2 None) 0) b) = (Ok tt, b') /\
    holds_segs b' (c + 1) ((i, drop k ms) :: l2) /\
    stored ((i, drop k ms) :: l2) = drop (Z.to_nat (c - f + 1)) (stored segs).
Proof using Hb Hsegs Hc.
  intros Hce. pose proof (hs_from _ _ _ Hb). pose proof (hs_to _ _ _ Hb). pose proof confirm_length as Hlen.
  destruct (delete_tidy_spec f c i (put i (mkBacklogSegment (drop k ms) (first_id l2 None) 0) b)) as (l & -> & Hl); [lia..|].
  eexists. split; [done|].
  assert (Hch := hs_chain _ _ _ Hb). rewrite Hsegs in Hch. apply chain_app in Hch as [_ (_ & _ & Hch)].
  assert (Hnd := hs_nodup _ _ _ Hb). rewrite Hsegs, fmap_app in Hnd. apply NoDup_app in Hnd as (_ & _ & Hnd).
  assert (Hst : stored ((i, drop k ms) :: l2) = drop (Z.to_nat (c - f + 1)) (stored segs)).
  { rewrite Hsegs, stored_app, !stored_cons, drop_app_ge, drop_app_le by lia.
    do 2 f_equal. lia. }
  split; [|done]. apply (holds_drop b _ f segs _ c); try done; try lia.
  - split_and!; [apply lookup_insert_eq| |].
    + intros E%(f_equal length). rewrite length_drop in E. cbn in E. lia.
    + apply chain_insert; [|done]. by apply NoDup_cons in Hnd as [? _].
  - intros j s Hj. cbn in Hj |- *. destruct (decide (j = i)) as [->|]; [exact (hs_heap _ _ _ Hb _ _ confirm_heap)|].
    rewrite lookup_insert_ne in Hj by done. by apply (hs_heap _ _ _ Hb) in Hj.
  - cbn. rewrite (hs_tail _ _ _ Hb), Hsegs, last_app, !last_cons. by destruct (last l2).
  - rewrite Hsegs. intros j ms' m [Hj|Hj]%elem_of_cons Hm.
    + injection Hj as -> ->. exists ms. split; [apply elem_of_app; right; by left|]. by eapply subseteq_drop.
    + exists ms'. split; [|done]. apply elem_of_app. right. by right.
Qed.

Lemma confirm_segment_delete (k := Z.to_nat (c - (f + Z.of_nat (length (stored l1))) + 1)) :
  segment_delete (mkBacklogSegment ms (first_id l2 None) 0) c =
    (Ok tt, mkBacklogSegment (drop k ms) (first_id l2 None) 0).
Proof using Hb Hsegs Hc.
  destruct (holds_run_at b f segs Hb l1 i ms l2 Hsegs) as (_ & Hne & Hr & Hto). apply run_app in Hr as [Hr _].
  pose proof (hs_from _ _ _ Hb). rewrite length_app in Hto.
  destruct (segment_run _ ms (first_id l2 None) 0 Hr Hne) as [Hst Hen].
  unfold segment_delete, segment_Contains. rewrite Hst, Hen. unfold segment_count. cbn [sg_messages sg_rlocks].
  rewrite (proj2 (Z.ltb_ge c _)), (proj2 (Z.ltb_ge _ c)), (proj2 (Z.eqb_neq _ 0)) by lia. cbn [orb].
  rewrite u64_sub by lia. destruct (lookup_lt_is_Some_2 ms (Z.to_nat (c - (f + Z.of_nat (length (stored l1)))))) as [m Hm]; [lia|].
  rewrite Hm, (proj2 (Z.eqb_eq _ _)) by (rewrite (run_lookup _ _ _ _ Hr Hm); lia).
  rewrite u64_add by lia. done.
Qed.
End Confirming.

Lemma backlog_delete_holds b w c :
  holds b w -> 0 <= c ->
  exists b', backlog_delete c b = (Ok tt, b') /\ holds b' (feed_confirm (Some c) w).
Proof.
  intros (f & segs & Hb & Hw) Hc. rewrite <- Hw, erase_confirm. destruct (decide (segs = [])) as [->|Hne].
  { exists b. split; [|by exists f, []]. unfold backlog_delete. by rewrite (hs_head _ _ _ Hb), (hs_tail _ _ _ Hb). }
  destruct (holds_head b f segs Hb Hne) as (h & hms & rest & _ & Hh & Hdh & Hsh).
  destruct (holds_tail b f segs Hb Hne) as (l0 & t & tms & _ & Ht & Hdt & _ & _ & Het).
  pose proof (hs_run _ _ _ Hb) as Hrun. unfold backlog_delete, load. rewrite Hh, Ht, Hdh, Hsh. cbn [feed_confirm].
  destruct (Z.ltb_spec c f) as [Hlt|Hge].
  { exists b. split; [done|]. exists f, segs. by rewrite (run_above f). }
  rewrite Hdt, Het, (run_confirm f) by (done || lia). cbv beta iota.
  destruct (Z.ltb_spec (f + Z.of_nat (length (stored segs)) - 1) c) as [Hlt|Hle].
  { exists (reset b). split; [done|]. exists 0, []. split; [by apply (reset_holds b f segs)|].
    by rewrite drop_ge by lia. }
  destruct (holds_lookup b f segs Hb c) as (l1 & i & ms & l2 & Hsegs & -> & Hk); [lia|].
  rewrite (proj2 (deref_lookup b i _) (confirm_heap b f segs l1 i ms l2 Hb Hsegs)).
  destruct (holds_run_at b f segs Hb l1 i ms l2 Hsegs) as (_ & Hms & Hr & _). apply run_app in Hr as [Hr _].
  rewrite (proj2 (segment_run _ ms (first_id l2 None) 0 Hr Hms)). cbv beta iota.
  destruct (Z.eqb_spec (f + Z.of_nat (length (stored l1)) + Z.of_nat (length ms) - 1) c) as [Hq|Hq].
  - cbn [sg_nextSegment]. destruct (first_id l2 None) as [n|] eqn:En.
    + destruct (confirm_segment_end b f c segs l1 i ms l2 Hb Hsegs Hk n) as (b' & -> & Hb' & Hst); [done..|].
      exists b'. split; [done|]. exists (c + 1), l2. by rewrite Hst.
    + exists (reset b). split; [done|]. exists 0, []. split; [by apply (reset_holds b f segs)|].
      destruct l2 as [|[]]; [|done]. rewrite drop_ge; [done|].
      rewrite (Nat2Z.inj_le), (confirm_length segs l1 i ms [] Hsegs). cbn. lia.
  - rewrite (confirm_segment_delete b f c segs l1 i ms l2 Hb Hsegs Hk).
    destruct (confirm_segment_inside b f c segs l1 i ms l2 Hb Hsegs Hk) as (b' & -> & Hb' & Hst); [lia|].
    exists b'. split; [done|]. eexists _, _. split; [done|]. by rewrite Hst.
Qed.

(** ** The backlog as a whole *)

(** What a broadcast does to the window. *)
Definition feed_broadcast (w : list message) (bm : BroadcastMessage) : list message :=
  fold_left feed_message (bm_Messages bm) (feed_confirm (bm_ConfirmedSequenceNumber bm) w).

Definition broadcast_in_order (SegmentLimit : Z) (w : list message) (bm : BroadcastMessage) : Prop :=
  match bm_ConfirmedSequenceNumber bm with Some c => 0 <= c | None => True end /\
  all_in_order SegmentLimit (feed_confirm (bm_ConfirmedSequenceNumber bm) w) (bm_Messages bm).

Fixpoint broadcasts_in_order (SegmentLimit : Z) (w : list message) (bms : list BroadcastMessage) : Prop :=
  match bms with
  | [] => True
  | bm :: bms => broadcast_in_order SegmentLimit w bm /\ broadcasts_in_order SegmentLimit (feed_broadcast w bm) bms
  end.

Fixpoint Append_all (SegmentLimit : Z) (bms : list BroadcastMessage) (b : backlog) : outcome unit * backlog :=
  match bms with
  | [] => (Ok tt, b)
  | bm :: bms =>
      let^ (_, b) := Append SegmentLimit bm b in
      Append_all SegmentLimit bms b
  end.

(** What [Get] answers for a window. *)
Definition window_answer (w : list message) (start e : Z) (r : outcome BroadcastMessage) : Prop :=
  match w with
  | [] => r = Err errOutOfBounds
  | m :: _ =>
      if last_seqno w <? e then r = Err errOutOfBounds
      else if e <? seqno m - 1 then r = Panic "makeslice: len out of range"
      else exists msgs, r = Ok (mkBroadcastMessage 1 msgs None) /\ erase <$> msgs = between start e w
  end.

Lemma NewBacklog_holds : holds NewBacklog [].
Proof.
  exists 0, []. split; [|done]. split; try done; cbn.
  - apply NoDup_nil_2.
  - intros i ms m ?%elem_of_nil. done.
  - by exists 0.
Qed.

Lemma total_size_erase w : total_size (erase <$> w) = total_size w.
Proof. induction w as [|m w IH]; [done|]. exact (f_equal (Z.add (size m)) IH). Qed.

Lemma holds_size b w : holds b w -> backlogSizeInBytes b = (Ok (u64 (total_size w)), b).
Proof.
  intros (f & segs & Hb & <-). by rewrite (backlogSizeInBytes_sum b f segs Hb), total_size_erase.
Qed.

Lemma Append_holds limit bm b w :
  holds b w -> 0 < limit -> broadcast_in_order limit w bm ->
  exists b', Append limit bm b = (Ok tt, b') /\ holds b' (feed_broadcast w bm).
Proof.
  intros Hb Hl [Hc Hms]. unfold Append, feed_broadcast. destruct (bm_ConfirmedSequenceNumber bm) as [c|].
  - destruct (backlog_delete_holds b w c Hb Hc) as (b1 & -> & Hb1).
    rewrite (holds_size _ _ Hb1). by apply append_messages_holds.
  - by apply append_messages_holds.
Qed.

Lemma Append_all_holds limit bms b w :
  holds b w -> 0 < limit -> broadcasts_in_order limit w bms ->
  exists b', Append_all limit bms b = (Ok tt, b') /\ holds b' (fold_left feed_broadcast bms w).
Proof.
  revert b w. induction bms as [|bm bms IH]; intros b w Hb Hl; cbn [Append_all broadcasts_in_order fold_left]; [eauto|].
  intros [Hbm Hbms]. destruct (Append_holds limit bm b w Hb Hl Hbm) as (b' & -> & Hb'). by apply IH.
Qed.

Lemma Get_answers b w start e : holds b w -> 0 <= start <= e -> window_answer w start e (Get b start e).
Proof.
  intros (f & segs & Hb & <-) Hs. destruct (decide (segs = [])) as [->|Hne].
  { cbn. unfold Get. by rewrite (hs_head _ _ _ Hb), (hs_tail _ _ _ Hb). }
  assert (Hst : stored segs <> []) by (intros E; by apply (holds_nil_segs b f) in E).
  pose proof (run_last f _ (hs_run _ _ _ Hb) Hst) as Hlast. rewrite <- erase_last in Hlast.
  destruct (stored segs) as [|m w] eqn:E; [done|]. rewrite <- E in *. unfold window_answer. rewrite Hlast.
  replace (erase <$> stored segs) with (erase m :: (erase <$> w)) by (by rewrite E).
  assert (seqno m = f) as Hf by (pose proof (hs_run _ _ _ Hb) as Hr; rewrite E in Hr; by destruct Hr).
  change (seqno (erase m)) with (seqno m). rewrite Hf.
  destruct (Z.ltb_spec (f + Z.of_nat (length (stored segs)) - 1) e); [by apply (Get_beyond b f segs); [..|lia]|].
  destruct (Z.ltb_spec e (f - 1)); [by apply (Get_confirmed b f segs); [..|lia]|].
  exists (between start e (stored segs)). split; [by apply (Get_within b f segs); [..|lia]|].
  by rewrite <- erase_between, E.
Qed.

Lemma holds_count b w : holds b w -> Count b = Z.of_nat (length w).
Proof. intros (f & segs & Hb & <-). rewrite length_fmap. apply (hs_count _ _ _ Hb). Qed.

(** C15: whatever broadcasts came before, the backlog returns from each of them and
    is the window of the messages after the last confirmed one: a message that
    follows extends it, one behind a gap starts it anew, one that was seen leaves
    it. The count and the size in bytes are those of the window, and a range of
    sequence numbers is answered with exactly the messages of the window in the
    range, with an error when the window does not reach its end, and with a panic
    when the whole range and the number after it were already confirmed. Left out
    are a repeated message when the window is as long as a segment, and behind
    message 0 any message but 1. *)
Theorem Backlog_refines_window limit bms (w := fold_left feed_broadcast bms []) :
  0 < limit -> broadcasts_in_order limit [] bms ->
  exists b, Append_all limit bms NewBacklog = (Ok tt, b) /\
    Count b = Z.of_nat (length w) /\ backlogSizeInBytes b = (Ok (u64 (total_size w)), b) /\
    forall start e, 0 <= start <= e -> window_answer w start e (Get b start e).
Proof.
  intros Hl Hbms. destruct (Append_all_holds limit bms NewBacklog [] NewBacklog_holds Hl Hbms) as (b & Ha & Hb).
  exists b. split_and!; [done|by apply holds_count|by apply holds_size|]. intros. by apply Get_answers.
Qed.

(** A duplicate that meets a full last segment leaves an empty segment at the
    end of the list. From then on the backlog, which still counts its messages,
    answers no range, and the next confirmation throws all of it away. *)
Theorem duplicate_hides_backlog limit m b w t s :
  holds b w -> bl_tail b = Some t -> bl_heap b !! t = Some s -> limit <= segment_count s ->
  last_seqno w <> 0 -> seqno m <= last_seqno w ->
  exists b', append_message limit m b = (Ok tt, b') /\ Count b' = Count b /\
    (forall start e, 0 < e -> Get b' start e = Err errOutOfBounds) /\
    (forall c, 0 < c -> first_seqno w <= c -> exists b'', backlog_delete c b' = (Ok tt, b'') /\ Count b'' = 0).
Proof.
  intros (f & segs & Hb & <-) Ht Hs Hfull Hnz Hdup.
  assert (segs <> []) as Hne by (intros ->; by rewrite (hs_tail _ _ _ Hb) in Ht).
  destruct (holds_tail b f segs Hb Hne) as (l1 & t' & ms & Hsegs & Ht' & Hd%deref_lookup & Hms & _ & _).
  replace t' with t in * by congruence. replace s with (mkBacklogSegment ms None 0) in * by congruence.
  destruct (holds_head b f segs Hb Hne) as (h & hms & rest & _ & Hh & Hdh%deref_lookup & Hsh).
  rewrite erase_last, (run_last f _ (hs_run _ _ _ Hb)) in Hnz, Hdup by (by apply (stored_nonempty segs l1 t ms)).
  assert (Hfst : f = first_seqno (erase <$> stored segs)).
  { pose proof (stored_nonempty segs l1 t ms Hsegs Hms). pose proof (hs_run _ _ _ Hb) as Hr.
    destruct (stored segs); [done|]. exact (eq_sym (proj1 Hr)). }
  set (b' := rolled b t ms). pose proof (tail_fresh b f segs l1 t ms Hb Hsegs) as Htn.
  assert (Hnew : bl_heap b' !! bl_next b = Some (mkBacklogSegment [] None 0))
    by (cbn; by rewrite lookup_insert_ne, lookup_insert_eq by done).
  exists b'. split_and!; [|done|..].
  - rewrite (append_message_at limit m b f segs l1 t ms Hb Hsegs Hms), (proj2 (Z.leb_le _ _)) by done.
    eapply (append_segment_seen b'); [exact Hnew|done|by apply (prev_id_range b f segs l1 t ms)|done|].
    unfold prev_id. by destruct (last ms).
  - intros start e He. unfold Get. cbn [b' rolled store_tail bl_tail].
    rewrite (proj2 (deref_lookup b' _ _) Hnew). cbn [obind segment_End sg_messages last].
    rewrite (proj2 (Z.ltb_lt 0 e)) by done. by destruct (bl_head _).
  - intros c Hc Hsc. unfold backlog_delete, load. exists (reset b'). split; [|done].
    assert (exists hs, deref b' (Some h) = Ok hs /\ segment_Start hs <= c) as (hs & Hdh' & Hle).
    { rewrite <- Hfst in Hsc. destruct (decide (h = t)) as [->|].
      - exists (mkBacklogSegment ms (Some (bl_next b)) 0). split; [apply deref_lookup; cbn; by rewrite lookup_insert_eq|].
        replace ms with hms by congruence. change (segment_Start (mkBacklogSegment hms (first_id rest None) 0) <= c). lia.
      - eexists. split; [|by rewrite Hsh]. apply deref_lookup. pose proof (hs_heap _ _ _ Hb _ _ Hdh). cbn.
        by rewrite !lookup_insert_ne by lia. }
    replace (bl_head b') with (Some h) by done. rewrite Hdh'.
    rewrite (proj2 (Z.ltb_ge c _)) by lia. change (bl_tail b') with (Some (bl_next b)).
    rewrite (proj2 (deref_lookup b' _ _) Hnew). change (segment_End (mkBacklogSegment [] None 0)) with 0.
    by rewrite (proj2 (Z.ltb_lt 0 c)).
Qed.

(** ** Examples *)

Definition example_message (n : Z) : message :=
  mkFeedMessage n (mkMessageWithMetadata InvalidL1Message 0) [] 0.

Definition example_feed : list BroadcastMessage :=
  [mkBroadcastMessage 1 [example_message 1] None; mkBroadcastMessage 1 [example_message 2] None;
   mkBroadcastMessage 1 [example_message 3] None; mkBroadcastMessage 1 [] (Some 1);
   mkBroadcastMessage 1 [example_message 4; example_message 5] None].

Lemma Backlog_refines_window_witness :
  exists b, Append_all 2 example_feed NewBacklog = (Ok tt, b) /\ Count b = 4 /\
    backlogSizeInBytes b = (Ok 640, b) /\
    forall start e, 0 <= start <= e ->
      window_answer (fold_left feed_broadcast example_feed []) start e (Get b start e).
Proof.
  apply (Backlog_refines_window 2 example_feed); [done|].
  repeat split; try (by left); try (vm_compute; done).
  all: right; right; split; [by vm_compute|left; by vm_compute].
Defined.

(** Two messages to a segment: message 2 comes twice. *)
Definition example_full : backlog :=
  Eval vm_compute in snd (Append_all 2 (take 2 example_feed) NewBacklog).

Lemma example_full_holds : holds example_full [example_message 1; example_message 2].
Proof.
  destruct (Append_all_holds 2 (take 2 example_feed) NewBacklog [] NewBacklog_holds) as (b & Ha & Hb); [done| |].
  - repeat split; try (by left); try (vm_compute; done). right; right; split; [by vm_compute|left; by vm_compute].
  - replace example_full with (snd (Append_all 2 (take 2 example_feed) NewBacklog)) by (vm_compute; reflexivity).
    rewrite Ha. exact Hb.
Defined.

Lemma duplicate_hides_backlog_witness :
  exists b', append_message 2 (example_message 2) example_full = (Ok tt, b') /\ Count b' = 2 /\
    (forall start e, 0 < e -> Get b' start e = Err errOutOfBounds) /\
    (forall c, 0 < c -> 1 <= c -> exists b'', backlog_delete c b' = (Ok tt, b'') /\ Count b'' = 0).
Proof.
  eapply (duplicate_hides_backlog 2 (example_message 2) example_full [example_message 1; example_message 2] 0%nat); try (vm_compute; reflexivity || discriminate).
  exact example_full_holds.
Defined.

(** The same with messages 0 and 1: confirming message 0 leaves the lock of the
    empty segment taken, and the next message waits for it forever. *)
Example Append_blocks :
  fst (Append_all 2
    [mkBroadcastMessage 1 [example_message 0] None; mkBroadcastMessage 1 [example_message 1] None;
     mkBroadcastMessage 1 [example_message 1] None; mkBroadcastMessage 1 [] (Some 0);
     mkBroadcastMessage 1 [example_message 2] None] NewBacklog) = Panic Lock_blocked.
Proof. vm_compute. reflexivity. Qed.

(** After message 0 any sequence number is taken for the next one, message 0
    itself included. *)
Example message_0_repeated :
  match Append_all 2 [mkBroadcastMessage 1 [example_message 0; example_message 0; example_message 7] None] NewBacklog with
  | (r, b) => (r, Count b)
  end = (Ok tt, 3).
Proof. vm_compute. reflexivity. Qed.
