(* ===== verification/ConnectionLimiter.v ===== *)
(** * wsbroadcastserver/connectionlimiter.go: limits on the connections of a client

    Counts of open connections per address, and for IPv6 also per /48 and per
    /64 network. What is proved: under a fixed configuration the counts are
    exactly the numbers of open connections and never exceed the limits, so the
    two branches of [updateUsage] that report a bug are never taken. *)
From Stdlib Require Import ZArith Lia String List.
From stdpp Require Import base list numbers gmap.
From S2P Require Import Prelude.
Open Scope Z_scope.

Record ConnectionLimiterConfig := mkLimiterConfig {
  cl_Enable : bool;
  cl_PerIpLimit : Z;
  cl_PerIpv6Cidr48Limit : Z;
  cl_PerIpv6Cidr64Limit : Z;
  cl_ReconnectCooldownPeriod : Z
}.

(** ** net.IP

    The bytes of the address, 4 or 16 of them; the empty list is nil. *)

Definition IP_To4 (ip : list Z) : option (list Z) :=
  if (length ip =? 4)%nat then Some ip
  else if (length ip =? 16)%nat && bool_decide (take 12 ip = replicate 10 0 ++ [255; 255]) then Some (drop 12 ip)
  else None.

Definition IP_byte (ip : list Z) (k : nat) : Z := default 0 (ip !! k).

Definition IP_IsPrivate (ip : list Z) : bool :=
  match IP_To4 ip with
  | Some ip4 =>
      (IP_byte ip4 0 =? 10) ||
      (IP_byte ip4 0 =? 172) && (Z.land (IP_byte ip4 1) 240 =? 16) ||
      (IP_byte ip4 0 =? 192) && (IP_byte ip4 1 =? 168)
  | None => (length ip =? 16)%nat && (Z.land (IP_byte ip 0) 254 =? 252)
  end.

Definition IP_IsLoopback (ip : list Z) : bool :=
  match IP_To4 ip with
  | Some ip4 => IP_byte ip4 0 =? 127
  | None => bool_decide (ip = replicate 15 0 ++ [1])
  end.

(** [ip.Mask(net.CIDRMask(ones, 128))] with a whole number of bytes, for an
    address that is not an IPv4 one: nil when the length is not that of the mask. *)
Definition IP_Mask128 (ones : nat) (ip : list Z) : option (list Z) :=
  if (length ip =? 16)%nat then Some (take (ones / 8) ip ++ replicate (16 - ones / 8) 0) else None.

Definition isIpv6 (ip : list Z) : bool := match IP_To4 ip with None => true | Some _ => false end.

(** ** The limiter *)

(** The map [ipConnectionCounts]; the keys are byte strings. *)
Notation ConnectionLimiter := (gmap (list Z) Z).

Definition NewConnectionLimiter : ConnectionLimiter := ∅.

Definition getIpStringsAndLimits (config : ConnectionLimiterConfig) (ip : list Z) : list (list Z * Z) :=
  if bool_decide (ip = []) || IP_IsPrivate ip || IP_IsLoopback ip then []
  else
    let result := [(ip, cl_PerIpLimit config)] in
    if isIpv6 ip then
      let result :=
        match IP_Mask128 48 ip with
        | None => result
        | Some ipv6Slash48 => result ++ [(ipv6Slash48 ++ bytes_of_string "/48", cl_PerIpv6Cidr48Limit config)]
        end in
      match IP_Mask128 64 ip with
      | None => result
      | Some ipv6Slash64 => result ++ [(ipv6Slash64 ++ bytes_of_string "/64", cl_PerIpv6Cidr64Limit config)]
      end
    else result.

Definition ipConnectionCount (l : ConnectionLimiter) (k : list Z) : Z := default 0 (l !! k).

Definition isAllowedImpl (config : ConnectionLimiterConfig) (ip : list Z) (l : ConnectionLimiter) : bool :=
  forallb (fun item => negb (snd item <=? ipConnectionCount l (fst item))) (getIpStringsAndLimits config ip).

Definition updateUsage_item (updateAmount : Z) (l : ConnectionLimiter) (item : list Z * Z) : ConnectionLimiter :=
  let '(ipString, limit) := item in
  let count := i64 (ipConnectionCount l ipString + updateAmount) in
  <[ipString := if count <? 0 then 0 else if limit <? count then limit else count]> l.

Definition updateUsage (config : ConnectionLimiterConfig) (ip : list Z) (increment : bool) (l : ConnectionLimiter)
    : ConnectionLimiter :=
  if bool_decide (ip = []) then l
  else
    let updateAmount := if increment then 1 else -1 in
    fold_left (updateUsage_item updateAmount) (getIpStringsAndLimits config ip) l.

Definition Limiter_Register (config : ConnectionLimiterConfig) (ip : list Z) (l : ConnectionLimiter) : bool * ConnectionLimiter :=
  if isAllowedImpl config ip l then (true, updateUsage config ip true l) else (false, l).

(** With a cooldown period the update runs that much later, from a goroutine of
    its own; this is the update. *)
Definition Limiter_Release (config : ConnectionLimiterConfig) (ip : list Z) (l : ConnectionLimiter) : ConnectionLimiter :=
  updateUsage config ip false l.

(** ** What the counts are *)

Section Limiter.
Context (config : ConnectionLimiterConfig).

Local Notation keys ip := (getIpStringsAndLimits config ip).*1.

(** The number of the open connections [conns] that count towards [k]. *)
Definition connections (conns : list (list Z)) (k : list Z) : Z :=
  Z.of_nat (length (filter (fun ip => k ∈ keys ip) conns)).

(** The limit of a key is that of its kind, whatever address it comes from. *)
Definition counts_exact (l : ConnectionLimiter) (conns : list (list Z)) : Prop :=
  forall k, ipConnectionCount l k = connections conns k.

Definition within_limits (conns : list (list Z)) : Prop :=
  forall ip k limit, ip ∈ conns -> (k, limit) ∈ getIpStringsAndLimits config ip -> connections conns k <= limit.

Definition valid_ip (ip : list Z) : Prop := (length ip = 0 \/ length ip = 4 \/ length ip = 16)%nat.

(** The states of the limiter, with the connections that are open: a release is
    the release of an open connection. *)
Inductive limiter_run : ConnectionLimiter -> list (list Z) -> Prop :=
| run_new : limiter_run NewConnectionLimiter []
| run_register ip l conns l' :
    limiter_run l conns -> valid_ip ip -> Limiter_Register config ip l = (true, l') -> limiter_run l' (ip :: conns)
| run_refused ip l conns l' :
    limiter_run l conns -> valid_ip ip -> Limiter_Register config ip l = (false, l') -> limiter_run l' conns
| run_release ip l conns conns' :
    limiter_run l conns -> Permutation conns (ip :: conns') -> limiter_run (Limiter_Release config ip l) conns'.

Lemma keys_NoDup ip : NoDup (keys ip).
Proof.
  unfold getIpStringsAndLimits. destruct (_ || _ || _); [apply NoDup_nil_2|].
  destruct (isIpv6 ip); [|apply NoDup_singleton].
  unfold IP_Mask128. destruct (length ip =? 16)%nat eqn:E; [|apply NoDup_singleton].
  apply Nat.eqb_eq in E. cbn [app fmap list_fmap fst].
  assert (Hlen : forall n, (n <= 16)%nat -> length (take n ip ++ replicate (16 - n) 0) = 16%nat)
    by (intros n Hn; rewrite length_app, length_take, length_replicate; lia).
  assert (ip <> (take (48 / 8) ip ++ replicate (16 - 48 / 8) 0) ++ bytes_of_string "/48")
    by (intros H%(f_equal length); rewrite length_app, Hlen in H; [cbn in H; lia|cbn; lia]).
  assert (ip <> (take (64 / 8) ip ++ replicate (16 - 64 / 8) 0) ++ bytes_of_string "/64")
    by (intros H'%(f_equal length); rewrite length_app, Hlen in H'; [cbn in H'; lia|cbn; lia]).
  assert ((take (48 / 8) ip ++ replicate (16 - 48 / 8) 0) ++ bytes_of_string "/48" <>
          (take (64 / 8) ip ++ replicate (16 - 64 / 8) 0) ++ bytes_of_string "/64").
  { intros [_ H']%app_inj_2; [vm_compute in H'; done|done]. }
  repeat (apply NoDup_cons; split; [rewrite ?not_elem_of_cons; split_and?; try done; apply not_elem_of_nil|]).
  apply NoDup_nil_2.
Qed.

(** A key says what kind of limit it has. *)
Lemma key_kind ip k limit :
  valid_ip ip -> (k, limit) ∈ getIpStringsAndLimits config ip ->
  limit = if (length k =? 19)%nat then
            if bool_decide (drop 16 k = bytes_of_string "/48") then cl_PerIpv6Cidr48Limit config
            else cl_PerIpv6Cidr64Limit config
          else cl_PerIpLimit config.
Proof.
  unfold getIpStringsAndLimits. intros Hv. destruct (_ || _ || _); [by intros ?%elem_of_nil|].
  assert (Hmask : forall n s, (n <= 16)%nat -> length ip = 16%nat -> length (bytes_of_string s) = 3%nat ->
    length ((take n ip ++ replicate (16 - n) 0) ++ bytes_of_string s) = 19%nat /\
    drop 16 ((take n ip ++ replicate (16 - n) 0) ++ bytes_of_string s) = bytes_of_string s).
  { intros n s Hn H16 Hs. assert (length (take n ip ++ replicate (16 - n) 0) = 16%nat) as Hl
      by (rewrite length_app, length_take, length_replicate; lia).
    split; [rewrite length_app; lia|]. by rewrite drop_app_length'. }
  assert (Hip : (length ip =? 19)%nat = false) by (apply Nat.eqb_neq; unfold valid_ip in Hv; lia).
  destruct (isIpv6 ip); cbn zeta.
  - unfold IP_Mask128. destruct (length ip =? 16)%nat eqn:E.
    + apply Nat.eqb_eq in E. rewrite !elem_of_app, !list_elem_of_singleton, !pair_equal_spec.
      intros [[[-> ->]|[-> ->]]|[-> ->]].
      * by rewrite Hip.
      * destruct (Hmask (48 / 8)%nat "/48"%string) as [-> ->]; [cbn; lia|done..].
      * destruct (Hmask (64 / 8)%nat "/64"%string) as [-> ->]; [cbn; lia|done..].
    + intros [= -> ->]%list_elem_of_singleton. by rewrite Hip.
  - intros [= -> ->]%list_elem_of_singleton. by rewrite Hip.
Qed.

Lemma key_limit ip ip' k limit limit' :
  valid_ip ip -> valid_ip ip' -> (k, limit) ∈ getIpStringsAndLimits config ip ->
  (k, limit') ∈ getIpStringsAndLimits config ip' -> limit = limit'.
Proof. intros Hv Hv' H1%key_kind H2%key_kind; congruence. Qed.

Lemma connections_cons ip conns k :
  connections (ip :: conns) k = (if bool_decide (k ∈ keys ip) then 1 else 0) + connections conns k.
Proof.
  unfold connections. case_bool_decide.
  - rewrite filter_cons_True by done. cbn [length]. lia.
  - by rewrite filter_cons_False.
Qed.

Lemma connections_perm conns conns' k : Permutation conns conns' -> connections conns k = connections conns' k.
Proof. intros H. unfold connections. by rewrite H. Qed.

Lemma ipConnectionCount_insert l k k' v :
  ipConnectionCount (<[k' := v]> l) k = if decide (k = k') then v else ipConnectionCount l k.
Proof.
  unfold ipConnectionCount. destruct (decide (k = k')) as [->|]; [by rewrite lookup_insert_eq|by rewrite lookup_insert_ne].
Qed.

(** The counts after an update that stays within [0] and the limits. *)
Lemma updateUsage_counts (amount : Z) items l k :
  NoDup items.*1 ->
  (forall k limit, (k, limit) ∈ items ->
    0 <= ipConnectionCount l k + amount <= limit /\ ipConnectionCount l k + amount < 2 ^ 63) ->
  ipConnectionCount (fold_left (updateUsage_item amount) items l) k =
    ipConnectionCount l k + if bool_decide (k ∈ items.*1) then amount else 0.
Proof.
  revert l. induction items as [|[k' limit] items IH]; intros l; cbn [fold_left fmap list_fmap fst].
  { intros _ _. rewrite bool_decide_false by apply not_elem_of_nil. lia. }
  intros [Hk' Hnd]%NoDup_cons Hbound.
  destruct (Hbound k' limit) as [Hb H63]; [left|].
  assert (Hnew : updateUsage_item amount l (k', limit) = <[k' := ipConnectionCount l k' + amount]> l).
  { unfold updateUsage_item. rewrite swrap_id by (unfold in_s; change (2 ^ (64 - 1)) with (2 ^ 63); lia).
    f_equal. zbool; lia. }
  rewrite Hnew, IH; [|done|].
  - rewrite ipConnectionCount_insert. destruct (decide (k = k')) as [->|Hne].
    + rewrite bool_decide_false, bool_decide_true by (done || left). lia.
    + by rewrite (bool_decide_ext (k ∈ k' :: items.*1) (k ∈ items.*1)) by (rewrite elem_of_cons; tauto).
  - intros k0 limit0 Hin. rewrite ipConnectionCount_insert.
    rewrite decide_False by (intros ->; apply Hk'; by apply (list_elem_of_fmap_2 fst) in Hin).
    apply Hbound. by right.
Qed.

Lemma isAllowedImpl_spec ip l :
  isAllowedImpl config ip l = true <->
  forall k limit, (k, limit) ∈ getIpStringsAndLimits config ip -> ipConnectionCount l k < limit.
Proof.
  unfold isAllowedImpl. rewrite forallb_forall. split.
  - intros H k limit Hin%list_elem_of_In. specialize (H _ Hin). cbn in H.
    apply negb_true_iff, Z.leb_gt in H. done.
  - intros H [k limit] Hin%list_elem_of_In. apply negb_true_iff, Z.leb_gt. by apply H.
Qed.

(** The limits are Go integers. *)
Hypothesis Hlimits : cl_PerIpLimit config < 2 ^ 63 /\ cl_PerIpv6Cidr48Limit config < 2 ^ 63 /\
  cl_PerIpv6Cidr64Limit config < 2 ^ 63.

Lemma limit_range ip k limit : valid_ip ip -> (k, limit) ∈ getIpStringsAndLimits config ip -> limit < 2 ^ 63.
Proof using Hlimits. intros Hv ->%key_kind; [|done]. repeat case_match; lia. Qed.

Lemma updateUsage_nonempty ip incr l :
  updateUsage config ip incr l =
  fold_left (updateUsage_item (if incr then 1 else -1)) (getIpStringsAndLimits config ip) l.
Proof. unfold updateUsage. case_bool_decide as H; [|done]. by rewrite H. Qed.

Definition limiter_ok (l : ConnectionLimiter) (conns : list (list Z)) : Prop :=
  counts_exact l conns /\ within_limits conns /\ Forall valid_ip conns.

Lemma register_ok ip l conns l' :
  limiter_ok l conns -> valid_ip ip -> Limiter_Register config ip l = (true, l') -> limiter_ok l' (ip :: conns).
Proof using Hlimits.
  intros (Hex & Hlim & Hval) Hv. unfold Limiter_Register.
  destruct (isAllowedImpl config ip l) eqn:Ha; [|done]. intros [= <-].
  pose proof (proj1 (isAllowedImpl_spec ip l) Ha) as Hlt. rewrite updateUsage_nonempty.
  assert (Hc : forall k, ipConnectionCount (fold_left (updateUsage_item 1) (getIpStringsAndLimits config ip) l) k =
                        connections (ip :: conns) k).
  { intros k. rewrite connections_cons, <- Hex, updateUsage_counts; [lia|apply keys_NoDup|].
    intros k' limit Hin. pose proof (Hlt _ _ Hin). pose proof (limit_range _ _ _ Hv Hin).
    rewrite Hex in *. unfold connections in *. lia. }
  split_and!; [done| |by constructor]. intros ip' k limit Hip Hin.
  rewrite connections_cons. case_bool_decide as Hk.
  - apply list_elem_of_fmap in Hk as ([k0 limit0] & -> & Hin0). cbn [fst] in *.
    assert (valid_ip ip') as Hv' by (apply elem_of_cons in Hip as [->|Hip]; [done|by eapply Forall_forall in Hval]).
    rewrite (key_limit ip' ip k0 limit limit0) by done. pose proof (Hlt _ _ Hin0). rewrite Hex in *. lia.
  - apply elem_of_cons in Hip as [->|Hip]; [exfalso; apply Hk; by apply (list_elem_of_fmap_2 fst) in Hin|].
    rewrite Z.add_0_l. by eapply Hlim.
Qed.

Lemma release_ok ip l conns conns' :
  limiter_ok l conns -> Permutation conns (ip :: conns') -> limiter_ok (Limiter_Release config ip l) conns'.
Proof using Hlimits.
  intros (Hex & Hlim & Hval) Hp. assert (Hin : ip ∈ conns) by (rewrite Hp; left).
  assert (Hv : valid_ip ip) by (by eapply Forall_forall in Hval).
  split_and!.
  - intros k. unfold Limiter_Release. rewrite updateUsage_nonempty, updateUsage_counts; [|apply keys_NoDup|].
    + rewrite Hex, (connections_perm _ _ _ Hp), connections_cons. case_bool_decide; lia.
    + intros k' limit Hk. pose proof (Hlim ip k' limit Hin Hk). pose proof (limit_range _ _ _ Hv Hk).
      rewrite Hex, (connections_perm _ _ _ Hp), connections_cons in *.
      rewrite bool_decide_true in * by (by apply (list_elem_of_fmap_2 fst) in Hk).
      unfold connections in *. lia.
  - intros ip' k limit Hip Hk. specialize (Hlim ip' k limit ltac:(rewrite Hp; by right) Hk).
    rewrite (connections_perm _ _ _ Hp), connections_cons in Hlim. case_bool_decide; lia.
  - rewrite Hp in Hval. by apply Forall_cons in Hval as [_ ?].
Qed.

Lemma limiter_run_ok l conns : limiter_run l conns -> limiter_ok l conns.
Proof using Hlimits.
  induction 1 as [|ip l conns l' _ IH Hv Hr|ip l conns l' _ IH Hv Hr|ip l conns conns' _ IH Hp].
  - split_and!; [done| |constructor]. by intros ip k limit ?%elem_of_nil.
  - by eapply register_ok.
  - unfold Limiter_Register in Hr. destruct (isAllowedImpl config ip l); [done|]. by injection Hr as <-.
  - by eapply release_ok.
Qed.
End Limiter.

(** The counts of the limiter are the numbers of open connections, no address
    and no network has more connections than its limit, and a connection is
    refused exactly when one of its limits is reached. *)
Theorem ConnectionLimiter_counts config l conns :
  cl_PerIpLimit config < 2 ^ 63 /\ cl_PerIpv6Cidr48Limit config < 2 ^ 63 /\ cl_PerIpv6Cidr64Limit config < 2 ^ 63 ->
  limiter_run config l conns ->
  (forall k, ipConnectionCount l k = connections config conns k) /\
  (forall ip k limit, ip ∈ conns -> (k, limit) ∈ getIpStringsAndLimits config ip -> connections config conns k <= limit) /\
  forall ip, fst (Limiter_Register config ip l) = true <->
    forall k limit, (k, limit) ∈ getIpStringsAndLimits config ip -> connections config conns k < limit.
Proof.
  intros Hlimits Hrun. destruct (limiter_run_ok config Hlimits l conns Hrun) as (Hex & Hlim & _).
  split_and!; [done..|]. intros ip. unfold Limiter_Register.
  assert (Hspec := isAllowedImpl_spec config ip l).
  destruct (isAllowedImpl config ip l); cbn [fst]; split; try done.
  - intros _ k limit Hin. rewrite <- Hex. by apply Hspec.
  - intros H. apply Hspec. intros k limit Hin. rewrite Hex. by apply H.
Qed.

Definition example_limits : ConnectionLimiterConfig := mkLimiterConfig true 1 2 2 0.
Definition example_ip (n : Z) : list Z := [32; 1; 13; 184; 0; 0; 0; 0; 0; 0; 0; 0; 0; 0; 0; n].

Definition example_limiter1 : ConnectionLimiter :=
  snd (Limiter_Register example_limits (example_ip 1) NewConnectionLimiter).
Definition example_limiter2 : ConnectionLimiter :=
  snd (Limiter_Register example_limits (example_ip 2) example_limiter1).

Lemma register_true config ip l :
  fst (Limiter_Register config ip l) = true ->
  Limiter_Register config ip l = (true, snd (Limiter_Register config ip l)).
Proof. intros H. rewrite <- H. apply surjective_pairing. Qed.

Lemma example_run : limiter_run example_limits example_limiter2 [example_ip 2; example_ip 1].
Proof.
  apply run_register with (l := example_limiter1).
  - apply run_register with (l := NewConnectionLimiter); [apply run_new|right; by right|].
    apply register_true. vm_compute. reflexivity.
  - right; by right.
  - apply register_true. vm_compute. reflexivity.
Qed.

(** Two addresses of one /64 network: the network is full. *)
Lemma ConnectionLimiter_counts_witness :
  ((forall k, ipConnectionCount example_limiter2 k = connections example_limits [example_ip 2; example_ip 1] k) /\
   (forall ip k limit, ip ∈ [example_ip 2; example_ip 1] -> (k, limit) ∈ getIpStringsAndLimits example_limits ip ->
      connections example_limits [example_ip 2; example_ip 1] k <= limit) /\
   forall ip, fst (Limiter_Register example_limits ip example_limiter2) = true <->
     forall k limit, (k, limit) ∈ getIpStringsAndLimits example_limits ip ->
       connections example_limits [example_ip 2; example_ip 1] k < limit) /\
  fst (Limiter_Register example_limits (example_ip 3) example_limiter2) = false.
Proof.
  split; [|vm_compute; reflexivity].
  apply (ConnectionLimiter_counts example_limits); [repeat split|exact example_run].
Defined.
