(* ===== verification/FeedClients.v ===== *)
(** * wsbroadcastserver/clientconnection.go, clientmanager.go, broadcaster/broadcaster.go: the clients of the feed

    A client that connects is first sent the backlog, then registered with the
    client manager, and from then on sent what the manager puts in its queue; on
    the first message from the queue the connection catches up with what was
    broadcast in between.

    The thread of a connection runs beside the one that appends to the backlog.
    A computation of the thread takes a schedule: [bs k] is the backlog at its
    [k]-th reading. Serialization (json, flate and websocket frames) and the
    network connection are the class [FeedIO]; the bytes that were written to
    the network are [cc_written].

    What is proved: when messages are only appended while it runs, a connection
    sends the messages from the requested one on, without a gap and in order;
    and the ways this breaks. *)
From Stdlib Require Import ZArith Lia String List.
From stdpp Require Import base list numbers gmap list_numbers.
From S2P Require Import Prelude Arbmath Readers IncomingMessage Inbox Backlog BacklogFacts ConnectionLimiter.
Open Scope Z_scope.

(** [serializeMessage bm enableNonCompressedOutput enableCompressedOutput] and
    [conn.Write], which may depend on what was written before. *)
Class FeedIO := {
  serializeMessage : BroadcastMessage -> bool -> bool -> outcome (list Z * list Z);
  conn_Write : list (list Z) -> list Z -> option error
}.

(** ** Client connections *)

(** An element of the [out] channel. *)
Record message := mkMessage {
  msg_data : list Z;
  msg_sequenceNumber : option Z
}.

(** [cc_running]: the thread of the connection has not returned.
    [cc_removed]: the connection asked the manager to remove it. *)
Record ClientConnection := mkClientConnection {
  cc_clientIp : list Z;
  cc_requestedSeqNum : Z;
  cc_LastSentSeqNum : Z;
  cc_backlogSent : bool;
  cc_compression : bool;
  cc_out : list message;
  cc_maxSendQueue : Z;
  cc_written : list (list Z);
  cc_running : bool;
  cc_removed : bool
}.

Definition NewClientConnection (requestedSeqNum : Z) (connectingIP : list Z) (compression : bool) (maxSendQueue : Z) : ClientConnection :=
  mkClientConnection connectingIP requestedSeqNum 0 false compression [] maxSendQueue [] true false.

Definition set_LastSentSeqNum (n : Z) (cc : ClientConnection) : ClientConnection :=
  mkClientConnection (cc_clientIp cc) (cc_requestedSeqNum cc) n (cc_backlogSent cc) (cc_compression cc) (cc_out cc)
    (cc_maxSendQueue cc) (cc_written cc) (cc_running cc) (cc_removed cc).
Definition set_backlogSent (cc : ClientConnection) : ClientConnection :=
  mkClientConnection (cc_clientIp cc) (cc_requestedSeqNum cc) (cc_LastSentSeqNum cc) true (cc_compression cc) (cc_out cc)
    (cc_maxSendQueue cc) (cc_written cc) (cc_running cc) (cc_removed cc).
Definition set_out (q : list message) (cc : ClientConnection) : ClientConnection :=
  mkClientConnection (cc_clientIp cc) (cc_requestedSeqNum cc) (cc_LastSentSeqNum cc) (cc_backlogSent cc) (cc_compression cc) q
    (cc_maxSendQueue cc) (cc_written cc) (cc_running cc) (cc_removed cc).
Definition set_written (w : list (list Z)) (cc : ClientConnection) : ClientConnection :=
  mkClientConnection (cc_clientIp cc) (cc_requestedSeqNum cc) (cc_LastSentSeqNum cc) (cc_backlogSent cc) (cc_compression cc) (cc_out cc)
    (cc_maxSendQueue cc) w (cc_running cc) (cc_removed cc).
(** The thread returns, after [Remove] or without it. *)
Definition thread_return (remove : bool) (cc : ClientConnection) : ClientConnection :=
  mkClientConnection (cc_clientIp cc) (cc_requestedSeqNum cc) (cc_LastSentSeqNum cc) (cc_backlogSent cc) (cc_compression cc) (cc_out cc)
    (cc_maxSendQueue cc) (cc_written cc) false (remove || cc_removed cc).

Section Connection.
Context `{FeedIO}.

Definition writeRaw (p : list Z) (cc : ClientConnection) : outcome unit * ClientConnection :=
  match conn_Write (cc_written cc) p with
  | Some e => (Err e, cc)
  | None => (Ok tt, set_written (cc_written cc ++ [p]) cc)
  end.

Definition writeBroadcastMessage (bm : BroadcastMessage) (cc : ClientConnection) : outcome unit * ClientConnection :=
  match serializeMessage bm (negb (cc_compression cc)) (cc_compression cc) with
  | Err e => (Err e, cc)
  | Panic m => (Panic m, cc)
  | Ok (notCompressed, compressed) =>
      writeRaw (if cc_compression cc then compressed else notCompressed) cc
  end.

(** The messages of the first segment from the requested one on. The segment's
    messages, whether it contains the requested one and its start are three
    readings. *)
Definition requested_messages (requested : Z) (isFirstSegment : bool) (p : nat) (b1 b2 b3 : backlog)
    : outcome (list BroadcastFeedMessage) :=
  let? s1 := deref b1 (Some p) in
  let msgs := sg_messages s1 in
  if isFirstSegment then
    let? s2 := deref b2 (Some p) in
    let? contains := segment_Contains s2 requested in
    if contains then
      let? s3 := deref b3 (Some p) in
      let requestedIdx := i64 (i64 requested - i64 (segment_Start s3)) in
      if requestedIdx <=? Z.of_nat (length msgs) then
        if requestedIdx <? 0 then Panic "slice bounds out of range"
        else Ok (drop (Z.to_nat requestedIdx) msgs)
      else Ok msgs
    else Ok msgs
  else Ok msgs.

(** The loop of [writeBacklog], four readings of the backlog to a turn; the
    context is not cancelled. The fuel bounds the number of segments. *)
Fixpoint writeBacklog_loop (fuel : nat) (bs : nat -> backlog) (segment : option nat) (isFirstSegment : bool)
    (cc : ClientConnection) : outcome unit * ClientConnection :=
  match segment with
  | None => (Ok tt, cc)
  | Some prevSegment =>
      match fuel with
      | O => (Panic "writeBacklog does not return", cc)
      | S fuel =>
          let^ (prev, cc) := (deref (bs 0%nat) (Some prevSegment), cc) in
          let segment := sg_nextSegment prev in
          let^ (msgs, cc) :=
            (requested_messages (cc_requestedSeqNum cc) isFirstSegment prevSegment (bs 1%nat) (bs 2%nat) (bs 3%nat), cc) in
          match last msgs with
          | None => (Ok tt, cc)
          | Some lastMsg =>
              let bm := mkBroadcastMessage 1 msgs None in
              let^ (_, cc) := writeBroadcastMessage bm cc in
              let cc := set_LastSentSeqNum (fm_SequenceNumber lastMsg) cc in
              writeBacklog_loop fuel (fun k => bs (4 + k)%nat) segment false cc
          end
      end
  end.

Definition writeBacklog (fuel : nat) (bs : nat -> backlog) (segment : option nat) (cc : ClientConnection)
    : outcome unit * ClientConnection :=
  writeBacklog_loop fuel bs segment true cc.

(** The segment the connection starts to send from. *)
Definition start_segment (requested : Z) (bs : nat -> backlog) : outcome (option nat) :=
  match bl_head (bs 0%nat) with
  | None => Ok None
  | Some h =>
      let? s := deref (bs 1%nat) (Some h) in
      if segment_Start s <? requested then
        match Lookup (bs 2%nat) requested with
        | Ok s => Ok (Some s)
        | Err _ => Ok (Some h)
        | Panic m => Panic m
        end
      else Ok (Some h)
  end.

(** The thread of [Start] up to [Register], without a delay. *)
Definition Start_backlog (fuel : nat) (bs : nat -> backlog) (cc : ClientConnection) : outcome unit * ClientConnection :=
  let^ (segment, cc) := (start_segment (cc_requestedSeqNum cc) bs, cc) in
  match writeBacklog fuel (fun k => bs (3 + k)%nat) segment cc with
  | (Err _, cc) => (Ok tt, thread_return true cc)
  | r => r
  end.

(** A turn of the loop of [Start]: one message from the [out] channel, with the
    backlog [b]. *)
Definition Start_receive (b : backlog) (msg : message) (cc : ClientConnection) : outcome unit * ClientConnection :=
  let expSeqNum := cc_LastSentSeqNum cc +u64 1 in
  let write (cc : ClientConnection) :=
    match writeRaw (msg_data msg) (set_backlogSent cc) with
    | (Err _, cc) => (Ok tt, thread_return true cc)
    | r => r
    end in
  match msg_sequenceNumber msg with
  | None => write cc
  | Some n =>
      if n <=? cc_LastSentSeqNum cc then (Ok tt, cc)
      else if negb (cc_backlogSent cc) && (expSeqNum <? n) then
        match Get b expSeqNum (n -u64 1) with
        | Panic m => (Panic m, cc)
        | Err _ => (Ok tt, thread_return false cc)
        | Ok bm =>
            match writeBroadcastMessage bm cc with
            | (Panic m, cc) => (Panic m, cc)
            | (Err _, cc) => (Ok tt, thread_return true cc)
            | (Ok _, cc) => write cc
            end
        end
      else write cc
  end.

(** ** The client manager *)

Record BroadcasterConfig := mkBroadcasterConfig {
  bc_ClientTimeout : Z;
  bc_EnableCompression : bool;
  bc_RequireCompression : bool;
  bc_ConnectionLimits : ConnectionLimiterConfig;
  bc_SegmentLimit : Z
}.

(** [cm_conns] are the connections, which their threads share with the manager;
    the keys of [clientPtrMap] are pointers to them. *)
Record ClientManager := mkClientManager {
  cm_conns : gmap nat ClientConnection;
  cm_clientPtrMap : gset nat;
  cm_clientCount : Z;
  cm_backlog : backlog;
  cm_limiter : ConnectionLimiter
}.

Definition set_conns (c : gmap nat ClientConnection) (cm : ClientManager) : ClientManager :=
  mkClientManager c (cm_clientPtrMap cm) (cm_clientCount cm) (cm_backlog cm) (cm_limiter cm).
Definition set_clients (m : gset nat) (n : Z) (cm : ClientManager) : ClientManager :=
  mkClientManager (cm_conns cm) m n (cm_backlog cm) (cm_limiter cm).
Definition set_backlog (b : backlog) (cm : ClientManager) : ClientManager :=
  mkClientManager (cm_conns cm) (cm_clientPtrMap cm) (cm_clientCount cm) b (cm_limiter cm).
Definition set_limiter (l : ConnectionLimiter) (cm : ClientManager) : ClientManager :=
  mkClientManager (cm_conns cm) (cm_clientPtrMap cm) (cm_clientCount cm) (cm_backlog cm) l.

Definition client_ip (id : nat) (cm : ClientManager) : list Z :=
  match cm_conns cm !! id with Some cc => cc_clientIp cc | None => [] end.

(** The result is whether the connection was accepted. *)
Definition registerClient (config : BroadcasterConfig) (id : nat) (cm : ClientManager) : bool * ClientManager :=
  let '(accepted, cm) :=
    if cl_Enable (bc_ConnectionLimits config) then
      let '(ok, l) := Limiter_Register (bc_ConnectionLimits config) (client_ip id cm) (cm_limiter cm) in
      (ok, set_limiter l cm)
    else (true, cm) in
  if accepted
  then (true, set_clients ({[id]} ∪ cm_clientPtrMap cm) (swrap 32 (cm_clientCount cm + 1)) cm)
  else (false, cm).

(** [StopOnly] and the closing of the connection end its thread. *)
Definition removeClientImpl (id : nat) (cm : ClientManager) : ClientManager :=
  set_clients (cm_clientPtrMap cm) (swrap 32 (cm_clientCount cm - 1))
    (set_conns (alter (thread_return false) id (cm_conns cm)) cm).

Definition removeClient (config : BroadcasterConfig) (id : nat) (cm : ClientManager) : ClientManager :=
  if bool_decide (id ∈ cm_clientPtrMap cm) then
    let cm := removeClientImpl id cm in
    let cm :=
      if cl_Enable (bc_ConnectionLimits config)
      then set_limiter (Limiter_Release (bc_ConnectionLimits config) (client_ip id cm) (cm_limiter cm)) cm
      else cm in
    set_clients (cm_clientPtrMap cm ∖ {[id]}) (cm_clientCount cm) cm
  else cm.

(** At the end of the manager's thread. *)
Definition removeAll (cm : ClientManager) : ClientManager :=
  fold_left (fun cm id => removeClientImpl id cm) (elements (cm_clientPtrMap cm)) cm.

(** A send on the [out] channel that does not block. *)
Definition try_send (m : message) (cc : ClientConnection) : option ClientConnection :=
  if Z.of_nat (length (cc_out cc)) <? cc_maxSendQueue cc then Some (set_out (cc_out cc ++ [m]) cc) else None.

(** The data for a client; [None] when it does not fit the configuration. *)
Definition client_data (config : BroadcasterConfig) (notCompressed compressed : list Z) (cc : ClientConnection)
    : option (list Z) :=
  if cc_compression cc
  then if bc_EnableCompression config then Some compressed else None
  else if negb (bc_RequireCompression config) then Some notCompressed else None.

Fixpoint doBroadcast_loop (config : BroadcasterConfig) (bm : BroadcastMessage) (notCompressed compressed : list Z)
    (ids : list nat) (clientDeleteList : list nat) (cm : ClientManager) : outcome (list nat) * ClientManager :=
  match ids with
  | [] => (Ok clientDeleteList, cm)
  | id :: ids =>
      let next := doBroadcast_loop config bm notCompressed compressed ids in
      match cm_conns cm !! id with
      | None => (Panic "invalid memory address or nil pointer dereference", cm)
      | Some cc =>
          match client_data config notCompressed compressed cc with
          | None => next (clientDeleteList ++ [id]) cm
          | Some data =>
              let send (seqNum : option Z) :=
                match try_send (mkMessage data seqNum) cc with
                | Some cc => next clientDeleteList (set_conns (<[id := cc]> (cm_conns cm)) cm)
                | None => next (clientDeleteList ++ [id]) cm
                end in
              match bm_Messages bm with
              | [] => send None
              | [m] => send (Some (fm_SequenceNumber m))
              | _ => (Err (ErrNew "doBroadcast was sent several BroadcastFeedMessages, it can only parse 1 BroadcastFeedMessage at a time"), cm)
              end
          end
      end
  end.

Definition doBroadcast (config : BroadcasterConfig) (bm : BroadcastMessage) (cm : ClientManager)
    : outcome (list nat) * ClientManager :=
  match Append (bc_SegmentLimit config) bm (cm_backlog cm) with
  | (Err e, b) => (Err e, set_backlog b cm)
  | (Panic m, b) => (Panic m, set_backlog b cm)
  | (Ok _, b) =>
      let cm := set_backlog b cm in
      match serializeMessage bm (negb (bc_RequireCompression config)) (bc_EnableCompression config) with
      | Err e => (Err e, cm)
      | Panic m => (Panic m, cm)
      | Ok (notCompressed, compressed) =>
          doBroadcast_loop config bm notCompressed compressed (elements (cm_clientPtrMap cm)) [] cm
      end
  end.

(** One [doBroadcast] to a message; [threads k] is what the threads of the
    connections do before the [k]-th of them. An error is logged, and each call
    overwrites the list of the clients to remove. *)
Fixpoint broadcast_each (config : BroadcasterConfig) (threads : nat -> gmap nat ClientConnection -> gmap nat ClientConnection)
    (version : Z) (confirmed : option Z) (msgs : list BroadcastFeedMessage) (clientDeleteList : list nat) (cm : ClientManager)
    : outcome (list nat) * ClientManager :=
  match msgs with
  | [] => (Ok clientDeleteList, cm)
  | msg :: msgs =>
      let cm := set_conns (threads 0%nat (cm_conns cm)) cm in
      match doBroadcast config (mkBroadcastMessage version [msg] confirmed) cm with
      | (Panic m, cm) => (Panic m, cm)
      | (Err _, cm) => broadcast_each config (fun k => threads (S k)) version None msgs [] cm
      | (Ok l, cm) => broadcast_each config (fun k => threads (S k)) version None msgs l cm
      end
  end.

Inductive event :=
| ClientCreate (id : nat)
| ClientRemove (id : nat)
| Broadcast (threads : nat -> gmap nat ClientConnection -> gmap nat ClientConnection) (bm : BroadcastMessage)
| PingTimer (since_heard : nat -> Z) (Ping : nat -> option error).

(** The clients to remove: those not heard of for long, and those that the ping
    does not reach. *)
Definition verifyClients (config : BroadcasterConfig) (since_heard : nat -> Z) (Ping : nat -> option error)
    (cm : ClientManager) : list nat :=
  filter (fun id => bc_ClientTimeout config < since_heard id \/ is_Some (Ping id)) (elements (cm_clientPtrMap cm)).

(** A turn of the loop of the manager's thread. *)
Definition ClientManager_step (config : BroadcasterConfig) (ev : event) (cm : ClientManager) : outcome unit * ClientManager :=
  let '(r, cm) :=
    match ev with
    | ClientCreate id =>
        let '(accepted, cm) := registerClient config id cm in
        (Ok [], if accepted then cm else removeClientImpl id cm)
    | ClientRemove id => (Ok [], removeClient config id cm)
    | Broadcast threads bm =>
        match bm_Messages bm with
        | [] =>
            match doBroadcast config bm cm with
            | (Err _, cm) => (Ok [], cm)
            | r => r
            end
        | msgs => broadcast_each config threads (bm_Version bm) (bm_ConfirmedSequenceNumber bm) msgs [] cm
        end
    | PingTimer since_heard Ping => (Ok (verifyClients config since_heard Ping cm), cm)
    end in
  let^ (clientDeleteList, cm) := (r, cm) in
  (Ok tt, fold_left (fun cm id => removeClient config id cm) clientDeleteList cm).
End Connection.

(** ** The broadcaster *)

(** The hash of a message under its sequence number and the chain's id, and the
    signer of the feed, if there is one. *)
Class FeedSigner := {
  message_Hash : MessageWithMetadata -> Z -> Z -> outcome (list Z);
  dataSigner : option (list Z -> outcome (list Z))
}.

Section Broadcaster.
Context `{FeedSigner} (chainId : Z).

Definition NewBroadcastFeedMessage (msg : MessageWithMetadata) (sequenceNumber : Z) : outcome BroadcastFeedMessage :=
  let? messageSignature :=
    match dataSigner with
    | None => Ok []
    | Some sign =>
        let? hash := message_Hash msg sequenceNumber chainId in
        sign hash
    end in
  Ok (mkFeedMessage sequenceNumber msg messageSignature 0).

(** The broadcasts that the operations of the broadcaster hand to the manager;
    a panic is recovered and turned into an error. *)
Definition BroadcastFeedMessages (messages : list BroadcastFeedMessage) : BroadcastMessage :=
  mkBroadcastMessage 1 messages None.

Fixpoint BroadcastMessages_loop (messages : list MessageWithMetadata) (seq i : Z) : outcome (list BroadcastFeedMessage) :=
  match messages with
  | [] => Ok []
  | msg :: messages =>
      let? bfm := NewBroadcastFeedMessage msg (seq +u64 i) in
      let? rest := BroadcastMessages_loop messages seq (i + 1) in
      Ok (bfm :: rest)
  end.

Definition recover {A} (what : string) (r : outcome A) : outcome A :=
  match r with
  | Panic _ => Err (ErrNew what)
  | r => r
  end.

Definition BroadcastMessages (messages : list MessageWithMetadata) (seq : Z) : outcome BroadcastMessage :=
  recover "panic in BroadcastMessages"
    (let? feedMessages := BroadcastMessages_loop messages seq 0 in
     Ok (BroadcastFeedMessages feedMessages)).

Definition BroadcastSingle (msg : MessageWithMetadata) (seq : Z) : outcome BroadcastMessage :=
  recover "panic in BroadcastSingle"
    (let? bfm := NewBroadcastFeedMessage msg seq in
     Ok (BroadcastFeedMessages [bfm])).

Definition Confirm (seq : Z) : BroadcastMessage := mkBroadcastMessage 1 [] (Some seq).

(** What the sequencer broadcasts is in order when it starts where the window
    ends. *)
Lemma BroadcastMessages_run messages seq i feedMessages :
  0 <= seq + i -> seq + i + Z.of_nat (length messages) < 2 ^ 63 ->
  BroadcastMessages_loop messages seq i = Ok feedMessages ->
  run (seq + i) feedMessages /\ Forall (fun m => fm_CumulativeSumMsgSize m = 0) feedMessages.
Proof.
  revert i feedMessages. induction messages as [|msg messages IH]; intros i feedMessages Hi Hlen; cbn [BroadcastMessages_loop].
  - intros [= <-]. by split.
  - unfold NewBroadcastFeedMessage. destruct (match dataSigner with Some _ => _ | None => _ end) as [sig| |]; cbn [obind]; [|done..].
    destruct (BroadcastMessages_loop messages seq (i + 1)) as [rest| |] eqn:E; cbn [obind]; [|done..].
    intros [= <-]. cbn [length] in Hlen. apply IH in E as [Hr Hz]; [|lia..].
    split; [|by constructor]. split; [cbn; apply uwrap_id; unfold in_u; lia|]. by rewrite <- Z.add_assoc.
Qed.
End Broadcaster.

(** ** The number of clients *)

Section Manager.
Context `{FeedIO} (config : BroadcasterConfig).

Definition refused (ev : event) (cm : ClientManager) : Z :=
  match ev with
  | ClientCreate id => if fst (registerClient config id cm) then 0 else 1
  | _ => 0
  end.

Definition fresh (ev : event) (cm : ClientManager) : Prop :=
  match ev with
  | ClientCreate id => id ∉ cm_clientPtrMap cm
  | _ => True
  end.

(** The states of the manager, with the number of refused connections; the
    threads of the connections may change these at any time. *)
Inductive manager_run : ClientManager -> Z -> Prop :=
| manager_new b : manager_run (mkClientManager ∅ ∅ 0 b NewConnectionLimiter) 0
| manager_threads cm n conns : manager_run cm n -> manager_run (set_conns conns cm) n
| manager_step ev cm n cm' :
    manager_run cm n -> fresh ev cm -> ClientManager_step config ev cm = (Ok tt, cm') ->
    manager_run cm' (n + refused ev cm).

Definition clients (cm : ClientManager) : Z := Z.of_nat (size (cm_clientPtrMap cm)).

(** The difference of the count and the number of clients, modulo the width. *)
Definition count_off (cm : ClientManager) (n : Z) : Prop :=
  exists k, cm_clientCount cm = clients cm - n + k * 2 ^ 32.

Lemma swrap_off n : exists k, swrap 32 n = n + k * 2 ^ 32.
Proof. apply swrap_eqm. lia. Qed.

Lemma doBroadcast_loop_map bm nc c ids l cm r cm' :
  doBroadcast_loop config bm nc c ids l cm = (r, cm') ->
  cm_clientPtrMap cm' = cm_clientPtrMap cm /\ cm_clientCount cm' = cm_clientCount cm.
Proof.
  revert l cm. induction ids as [|id ids IH]; intros l cm; cbn [doBroadcast_loop]; [by intros [= _ <-]|].
  destruct (cm_conns cm !! id) as [cc|]; [|by intros [= _ <-]].
  destruct (client_data config nc c cc); [|apply IH].
  destruct (bm_Messages bm) as [|m []]; [..|by intros [= _ <-]].
  all: destruct (try_send _ cc); [|apply IH].
  all: intros Hr%IH; done.
Qed.

Lemma doBroadcast_map bm cm r cm' :
  doBroadcast config bm cm = (r, cm') ->
  cm_clientPtrMap cm' = cm_clientPtrMap cm /\ cm_clientCount cm' = cm_clientCount cm.
Proof.
  unfold doBroadcast. destruct (Append _ _ _) as [[] b]; [|by intros [= _ <-]..].
  destruct (serializeMessage _ _ _) as [[nc c]| |]; [|by intros [= _ <-]..].
  intros Hr%doBroadcast_loop_map. done.
Qed.

Lemma broadcast_each_map threads v conf msgs l cm r cm' :
  broadcast_each config threads v conf msgs l cm = (r, cm') ->
  cm_clientPtrMap cm' = cm_clientPtrMap cm /\ cm_clientCount cm' = cm_clientCount cm.
Proof.
  revert threads conf l cm. induction msgs as [|m msgs IH]; intros threads conf l cm; cbn [broadcast_each]; [by intros [= _ <-]|].
  destruct (doBroadcast _ _ _) as [[] cm1] eqn:E; apply doBroadcast_map in E as [E1 E2].
  - intros [-> ->]%IH. done.
  - intros [-> ->]%IH. done.
  - by intros [= _ <-].
Qed.

Lemma removeClient_off id cm n : count_off cm n -> count_off (removeClient config id cm) n.
Proof.
  intros [k Hk]. unfold removeClient. case_bool_decide as Hin; [|by exists k].
  destruct (swrap_off (cm_clientCount cm - 1)) as [k' Hk'].
  assert (Hs : clients cm = Z.of_nat (size (cm_clientPtrMap cm ∖ {[id]})) + 1).
  { unfold clients. rewrite size_difference, size_singleton by set_solver.
    assert (size (cm_clientPtrMap cm) <> 0)%nat; [|lia]. intros E%size_empty_inv. set_solver. }
  exists (k + k'). destruct (cl_Enable _); unfold clients at 1; cbn [set_clients set_limiter removeClientImpl set_conns cm_clientPtrMap cm_clientCount].
  all: rewrite Hk', Hk, Hs; lia.
Qed.

Lemma removeClients_off ids cm n :
  count_off cm n -> count_off (fold_left (fun cm id => removeClient config id cm) ids cm) n.
Proof. revert cm. induction ids as [|id ids IH]; intros cm Hc; [done|]. by apply IH, removeClient_off. Qed.

Lemma count_off_same cm cm' n :
  cm_clientPtrMap cm' = cm_clientPtrMap cm /\ cm_clientCount cm' = cm_clientCount cm ->
  count_off cm n -> count_off cm' n.
Proof. unfold count_off, clients. by intros [-> ->]. Qed.

Lemma registerClient_off id cm n :
  id ∉ cm_clientPtrMap cm -> count_off cm n ->
  match registerClient config id cm with
  | (true, cm') => count_off cm' n
  | (false, cm') => count_off (removeClientImpl id cm') (n + 1)
  end.
Proof.
  intros Hid [k Hk]. unfold registerClient.
  destruct (swrap_off (cm_clientCount cm + 1)) as [k1 Hk1]. destruct (swrap_off (cm_clientCount cm - 1)) as [k2 Hk2].
  assert (Hs : size ({[id]} ∪ cm_clientPtrMap cm) = S (size (cm_clientPtrMap cm)))
    by (rewrite size_union, size_singleton by set_solver; done).
  destruct (cl_Enable _); [destruct (Limiter_Register _ _ _) as [[] l]|].
  all: cbn [set_limiter set_clients cm_clientPtrMap cm_clientCount removeClientImpl set_conns].
  - exists (k + k1). unfold clients in *. cbn. rewrite Hk1, Hk, Hs. lia.
  - exists (k + k2). unfold clients in *. cbn. rewrite Hk2, Hk. lia.
  - exists (k + k1). unfold clients in *. cbn. rewrite Hk1, Hk, Hs. lia.
Qed.

Lemma ClientManager_step_off ev cm cm' n :
  count_off cm n -> fresh ev cm -> ClientManager_step config ev cm = (Ok tt, cm') -> count_off cm' (n + refused ev cm).
Proof.
  intros Hc Hf. unfold ClientManager_step. destruct ev as [id|id|threads bm|since ping]; cbn [refused fresh] in *.
  - pose proof (registerClient_off id cm n Hf Hc) as Hr. destruct (registerClient config id cm) as [[] cm1]; cbn.
    + intros [= <-]. by rewrite Z.add_0_r.
    + by intros [= <-].
  - rewrite Z.add_0_r. intros [= <-]. by apply removeClient_off.
  - rewrite Z.add_0_r. destruct (bm_Messages bm) as [|m msgs].
    + destruct (doBroadcast config bm cm) as [[l|e|p] cm1] eqn:E; apply doBroadcast_map in E; intros [= <-].
      * by apply removeClients_off, (count_off_same cm).
      * by apply (count_off_same cm).
    + destruct (broadcast_each _ _ _ _ _ _ _) as [[l|e|p] cm1] eqn:E; apply broadcast_each_map in E; intros [= <-].
      by apply removeClients_off, (count_off_same cm).
  - rewrite Z.add_0_r. intros [= <-]. by apply removeClients_off.
Qed.

(** The number of clients the manager reports is too low by one for every
    connection that was refused because of the connection limits. *)
Theorem ClientManager_count cm n :
  manager_run cm n -> exists k, cm_clientCount cm = Z.of_nat (size (cm_clientPtrMap cm)) - n + k * 2 ^ 32.
Proof.
  intros Hr. fold (clients cm). fold (count_off cm n).
  induction Hr as [b|cm n conns _ IH|ev cm n cm' _ IH Hf Hs].
  - by exists 0.
  - by apply (count_off_same cm).
  - by apply (ClientManager_step_off ev cm cm' n).
Qed.
End Manager.
