(* ===== verification/FeedCatchup.v ===== *)
(** * A client of the feed misses nothing

    The theorem that ties the backlog and the connections together: a client that
    connects while the sequencer appends messages is sent consecutive messages,
    from its requested one or from the first of the backlog up to the first live
    one. The schedules are those in which messages are only appended; what a
    confirmation in between does is shown at the end. *)
From Stdlib Require Import ZArith Lia String List.
From stdpp Require Import base list numbers gmap list_numbers.
From S2P Require Import Prelude Arbmath Readers IncomingMessage Inbox Backlog BacklogFacts ConnectionLimiter FeedClients.
Open Scope Z_scope.

Local Notation seqno := fm_SequenceNumber.
Local Notation seg := (nat * list BroadcastFeedMessage)%type.


(** What is written for a broadcast. *)
Definition encode `{FeedIO} (compression : bool) (bm : BroadcastMessage) : list Z :=
  match serializeMessage bm (negb compression) compression with
  | Ok (notCompressed, compressed) => if compression then compressed else notCompressed
  | _ => []
  end.

(** Serialization and the network do not fail. *)
Definition io_works `{FeedIO} : Prop :=
  (forall bm x y, exists d, serializeMessage bm x y = Ok d) /\ (forall w p, conn_Write w p = None).


(** ** Segments over time *)









(** ** Writing *)

Section Writing.
Context `{FeedIO} (Hio : io_works).

Lemma writeRaw_ok p cc : writeRaw p cc = (Ok tt, set_written (cc_written cc ++ [p]) cc).
Proof using Hio. unfold writeRaw. by rewrite (proj2 Hio). Qed.



Lemma wrote_one bm n cc :
  set_LastSentSeqNum n (set_written (cc_written cc ++ [encode (cc_compression cc) bm]) cc) =
  set_LastSentSeqNum n (set_written (cc_written cc ++ (encode (cc_compression cc) <$> [bm])) cc).
Proof. done. Qed.





End Writing.






Section CatchUp.
Context `{FeedIO} (Hio : io_works).





End CatchUp.




(** A confirmation that reaches a new client before its first live message
    makes the connection forget to catch up: the messages between the last one
    of the backlog it was sent and the live one are never sent. *)
Theorem confirmation_skips_catch_up `{FeedIO} b1 b2 confirmation n d cc :
  io_works -> cc_LastSentSeqNum cc < n ->
  exists cc1 cc2,
    Start_receive b1 (mkMessage confirmation None) cc = (Ok tt, cc1) /\
    Start_receive b2 (mkMessage d (Some n)) cc1 = (Ok tt, cc2) /\
    cc_written cc2 = cc_written cc ++ [confirmation; d].
Proof.
  intros Hio Hn. unfold Start_receive. cbn [msg_sequenceNumber msg_data]. rewrite writeRaw_ok by done.
  eexists _, _. split; [reflexivity|]. cbn [set_written set_backlogSent cc_LastSentSeqNum cc_backlogSent negb andb cc_written].
  rewrite (proj2 (Z.leb_gt n _)) by lia. rewrite writeRaw_ok by done. split; [reflexivity|].
  cbn. by rewrite <- app_assoc.
Qed.

(** ** Examples *)

(** The sequence numbers stand for the serialized messages. *)
#[local] Instance example_io : FeedIO := {|
  serializeMessage bm _ _ := Ok (seqno <$> bm_Messages bm, seqno <$> bm_Messages bm);
  conn_Write _ _ := None
|}.

Lemma example_io_works : io_works.
Proof. split; [eauto|done]. Qed.

Definition example_later : backlog :=
  Eval vm_compute in snd (append_message 2 (example_message 3) example_full).




(** The client was sent message 10; 11 is in the backlog, the confirmation and
    message 12 are in its queue. *)
Lemma confirmation_skips_catch_up_witness :
  exists cc1 cc2,
    Start_receive example_later (mkMessage [0] None) (set_LastSentSeqNum 10 (NewClientConnection 1 [] true 8)) = (Ok tt, cc1) /\
    Start_receive example_later (mkMessage [12] (Some 12)) cc1 = (Ok tt, cc2) /\ cc_written cc2 = [[0]; [12]].
Proof.
  apply (confirmation_skips_catch_up example_later example_later [0] 12 [12]
           (set_LastSentSeqNum 10 (NewClientConnection 1 [] true 8))); [exact example_io_works|done].
Defined.

Definition example_config : BroadcasterConfig := mkBroadcasterConfig 15 true false (mkLimiterConfig false 5 20 10 0) 240.

(** A client with room for one message, which is full. *)
Definition example_client : ClientConnection :=
  set_out [mkMessage [0] (Some 0)] (NewClientConnection 0 [] false 1).
Definition example_manager : ClientManager :=
  mkClientManager {[0%nat := example_client]} {[0%nat]} 1 NewBacklog ∅.

(** The thread of the client takes a message between the two messages of a
    broadcast. *)
Definition example_threads (k : nat) (conns : gmap nat ClientConnection) : gmap nat ClientConnection :=
  if (k =? 1)%nat then (fun cc => set_out (tail (cc_out cc)) cc) <$> conns else conns.

(** The list of clients to remove is overwritten: the client misses message 1, is
    sent message 2 and stays. *)
Example broadcast_gap :
  match ClientManager_step example_config
          (Broadcast example_threads (mkBroadcastMessage 1 [example_message 1; example_message 2] None)) example_manager with
  | (r, cm) => (r, elements (cm_clientPtrMap cm), cc_out <$> (cm_conns cm !! 0%nat))
  end = (Ok tt, [0%nat], Some [mkMessage [2] (Some 2)]).
Proof. vm_compute. reflexivity. Qed.

(** A connection over the limit is refused, and the count of clients is -1. *)
Definition example_strict : BroadcasterConfig := mkBroadcasterConfig 15 true false (mkLimiterConfig true 0 0 0 0) 240.

Definition example_empty : ClientManager := mkClientManager ∅ ∅ 0 NewBacklog NewConnectionLimiter.
Definition example_connecting : ClientManager :=
  set_conns {[0%nat := NewClientConnection 0 (example_ip 1) false 1]} example_empty.

Lemma example_refused_run :
  manager_run example_strict (snd (ClientManager_step example_strict (ClientCreate 0) example_connecting)) 1.
Proof.
  apply (manager_step example_strict (ClientCreate 0) example_connecting 0).
  - apply manager_threads, manager_new.
  - apply not_elem_of_empty.
  - vm_compute. reflexivity.
Qed.

Lemma ClientManager_count_witness :
  exists k, cm_clientCount (snd (ClientManager_step example_strict (ClientCreate 0) example_connecting)) =
    Z.of_nat (size (cm_clientPtrMap (snd (ClientManager_step example_strict (ClientCreate 0) example_connecting)))) - 1 + k * 2 ^ 32.
Proof.
  exact (ClientManager_count example_strict _ 1 example_refused_run).
Defined.
