(* ===== verification/BlockProcessor.v ===== *)
(** * arbos/block_processor.go: the production of a block

    A block is made of the transactions of a message: the transaction that starts
    the block, then the message's transactions in turn, each followed by the
    redeems that it scheduled. What go-ethereum does is the class [BlockHost]:
    the signer, the execution of a transaction (with the hooks of tx_processor.go
    in it) in the context of its hash and index, headers and their extra
    information, the database beside the storage that [Env] has. ArbOS is read
    with a system burner ([read]).

    What is proved about it is in BlockFacts.v and SequencedBlock.v. *)
From Stdlib Require Import ZArith Lia String List.
From stdpp Require Import base list numbers.
From S2P Require Import Prelude Arbmath Host Storage Blockhash MerkleAccumulator L2Pricing L1Pricing Retryables IncomingMessage ArbosState InternalTx ParseL2 TxProcessor.
Open Scope Z_scope.

Definition ErrGasLimitReached : error := ErrNew "gas limit reached".
Definition ErrIntrinsicGas : error := ErrNew "intrinsic gas too low".
Definition ArbosVersion_FixRedeemGas : Z := 11.

(** The fields of [types.Header] that are written; [bh_Nonce] has 8 bytes. *)
Record BlockHeader := mkBlockHeader {
  bh_ParentHash : Z;
  bh_Coinbase : Z;
  bh_Root : Z;
  bh_Difficulty : Z;
  bh_Number : Z;
  bh_GasLimit : Z;
  bh_GasUsed : Z;
  bh_Time : Z;
  bh_Extra : list Z;
  bh_MixDigest : Z;
  bh_Nonce : list Z;
  bh_BaseFee : Z
}.

Definition set_GasUsed (gas : Z) (h : BlockHeader) : BlockHeader :=
  mkBlockHeader (bh_ParentHash h) (bh_Coinbase h) (bh_Root h) (bh_Difficulty h) (bh_Number h) (bh_GasLimit h) gas
    (bh_Time h) (bh_Extra h) (bh_MixDigest h) (bh_Nonce h) (bh_BaseFee h).
Definition set_Nonce (nonce : list Z) (h : BlockHeader) : BlockHeader :=
  mkBlockHeader (bh_ParentHash h) (bh_Coinbase h) (bh_Root h) (bh_Difficulty h) (bh_Number h) (bh_GasLimit h) (bh_GasUsed h)
    (bh_Time h) (bh_Extra h) (bh_MixDigest h) nonce (bh_BaseFee h).
Definition set_Root (root : Z) (h : BlockHeader) : BlockHeader :=
  mkBlockHeader (bh_ParentHash h) (bh_Coinbase h) root (bh_Difficulty h) (bh_Number h) (bh_GasLimit h) (bh_GasUsed h)
    (bh_Time h) (bh_Extra h) (bh_MixDigest h) (bh_Nonce h) (bh_BaseFee h).
Definition set_ExtraInfo (extra : list Z) (mixDigest : Z) (h : BlockHeader) : BlockHeader :=
  mkBlockHeader (bh_ParentHash h) (bh_Coinbase h) (bh_Root h) (bh_Difficulty h) (bh_Number h) (bh_GasLimit h) (bh_GasUsed h)
    (bh_Time h) extra mixDigest (bh_Nonce h) (bh_BaseFee h).

(** [types.HeaderInfo] *)
Record HeaderInfo := mkHeaderInfo { hi_SendRoot : Z; hi_SendCount : Z; hi_L1BlockNumber : Z; hi_ArbOSFormatVersion : Z }.

Record L1Info := mkL1Info { li_poster : Z; li_l1BlockNumber : Z; li_l1Timestamp : Z }.

(** The fields of [types.Receipt] that are read. *)
Record Receipt := mkReceipt { rc_Logs : list EthLog; rc_GasUsedForL1 : Z }.

(** [params.ChainConfig] *)
Record BlockConfig := mkBlockConfig { bcfg_Chain : ChainConfig; bcfg_DebugMode : bool }.

Section Types.
Context {E : Env} {G : GethTxs}.

(** A transaction of a block: one of a message, or a redeem. *)
Inductive BlockTx : Type :=
| BT_Message (tx : ParseL2.Transaction)
| BT_Retry (tx : ArbitrumRetryTx).

(** [tx.Type() == types.ArbitrumInternalTxType] *)
Definition is_internal (tx : BlockTx) : bool :=
  match tx with
  | BT_Message (Tx_Internal _) => true
  | _ => false
  end.

(** The fields of [core.ExecutionResult] that are read. *)
Record ExecutionResult := mkExecutionResult { er_Err : option error; er_ScheduledTxes : list BlockTx }.
End Types.

Class BlockHost {E : Env} {T : TxEnv} {G : GethTxs} := {
  (* the transactions *)
  Sender : Z -> Z -> BlockTx -> outcome Z;                (* types.MakeSigner(number, time).Sender *)
  BlockTx_Gas : BlockTx -> Z;
  BlockTx_Hash : BlockTx -> Z;
  BlockTx_Raw : BlockTx -> L1Pricing.Transaction;
  BlockTx_CalldataUnits : BlockTx -> Z;
  ConditionalOptions : Type;
  (* the header *)
  Header_Hash : BlockHeader -> Z;
  DeserializeHeaderExtraInformation : BlockHeader -> HeaderInfo;
  HeaderInfo_extra : HeaderInfo -> list Z * Z;            (* what UpdateHeaderWithInfo writes *)
  (* the database *)
  SystemBurner_new : BurnerT;
  GetRefund : DB -> Z;
  GetUnexpectedBalanceDelta : DB -> Z;
  RevertToSnapshot : DB -> DB -> DB;
  IntermediateRoot : DB -> Z * DB;
  (* core.ApplyTransactionWithResultFilter: the outcome, the new value of
     header.GasUsed and the database *)
  ApplyTransaction : BlockHeader -> Z -> Z -> BlockTx -> (ExecutionResult -> option error) -> DB ->
    outcome (Receipt * ExecutionResult) * Z * DB;
  (* the events of ArbSys *)
  ArbSysAddress : Z;
  L2ToL1TransactionEventID : Z;
  L2ToL1TxEventID : Z;
  ParseL2ToL1TransactionLog : EthLog -> outcome Z;        (* the callvalue *)
  ParseL2ToL1TxLog : EthLog -> outcome Z
}.

Section Block.
Context {E : Env} {T : TxEnv} {G : GethTxs} {ABI : InternalTxAbi} {B : BlockHost}.

(** A read of ArbOS. *)
Definition read {A} (m : M A) (d : DB) : outcome A := fst (m (mkWorld d SystemBurner_new)).

(** [x, _ := m()] *)
Definition read_or {A} (zero : A) (m : M A) (d : DB) : outcome A := read (value_or zero m) d.

Definition UpdateHeaderWithInfo (info : HeaderInfo) (h : BlockHeader) : BlockHeader :=
  let '(extra, mixDigest) := HeaderInfo_extra info in set_ExtraInfo extra mixDigest h.

Definition createNewHeader (prevHeader : option BlockHeader) (l1info : option L1Info) (state : ArbosState) (d : DB)
    : outcome BlockHeader :=
  let? baseFee := read (restricted_value 0 (BaseFeeWei (as_l2PricingState state))) d in
  let timestamp := match l1info with Some info => li_l1Timestamp info | None => 0 end in
  let coinbase := match l1info with Some info => li_poster info | None => 0 end in
  let extra := replicate 32 0 in
  let header lastBlockHash blockNumber timestamp extra mixDigest :=
    mkBlockHeader lastBlockHash coinbase 0 1 blockNumber GethBlockGasLimit 0 timestamp extra mixDigest (replicate 8 0) baseFee in
  match prevHeader with
  | None => Ok (header 0 0 timestamp extra 0)
  | Some prev =>
      Ok (header (Header_Hash prev) (bh_Number prev + 1)
            (if timestamp <? bh_Time prev then bh_Time prev else timestamp)
            (take 32 (bh_Extra prev) ++ drop (length (bh_Extra prev)) extra)
            (bh_MixDigest prev))
  end.

(** The filters may read the database. *)
Record SequencingHooks := mkSequencingHooks {
  sh_TxErrors : list (option error);
  sh_DiscardInvalidTxsEarly : bool;
  sh_PreTxFilter : BlockHeader -> DB -> ArbosState -> BlockTx -> option ConditionalOptions -> Z -> L1Info -> outcome unit;
  sh_PostTxFilter : BlockHeader -> ArbosState -> BlockTx -> Z -> Z -> ExecutionResult -> option error;
  sh_ConditionalOptionsForTx : list (option ConditionalOptions)
}.

Definition NoopSequencingHooks : SequencingHooks :=
  mkSequencingHooks [] false (fun _ _ _ _ _ _ _ => Ok tt) (fun _ _ _ _ _ _ => None) [].

Definition add_TxError (e : option error) (h : SequencingHooks) : SequencingHooks :=
  mkSequencingHooks (sh_TxErrors h ++ [e]) (sh_DiscardInvalidTxsEarly h) (sh_PreTxFilter h) (sh_PostTxFilter h)
    (sh_ConditionalOptionsForTx h).
Definition set_Options (l : list (option ConditionalOptions)) (h : SequencingHooks) : SequencingHooks :=
  mkSequencingHooks (sh_TxErrors h) (sh_DiscardInvalidTxsEarly h) (sh_PreTxFilter h) (sh_PostTxFilter h) l.

(** arbos/extra_transaction_checks.go *)
Definition extraPreTxFilter (tx : BlockTx) : outcome unit := Ok tt.
Definition extraPostTxFilter (tx : BlockTx) (result : ExecutionResult) : outcome unit := Ok tt.

(** The variables of the loop of [ProduceBlockAdvanced]. *)
Record BlockState := mkBlockState {
  bs_state : ArbosState;
  bs_header : BlockHeader;
  bs_blockGasLeft : Z;
  bs_txes : list BlockTx;
  bs_redeems : list BlockTx;
  bs_complete : list BlockTx;
  bs_receipts : list Receipt;
  bs_expectedBalanceDelta : Z;
  bs_userTxsProcessed : Z;
  bs_hooks : SequencingHooks;
  bs_statedb : DB
}.

(** ** One transaction *)

(** The next transaction: the first redeem, or else the first transaction. The
    result is [None] for a redeem whose retryable is gone. *)
Definition nextTx (b : BlockState) : outcome (option (BlockTx * option ConditionalOptions * bool) * BlockState) :=
  let '(mkBlockState state header blockGasLeft txes redeems complete receipts delta processed hooks statedb) := b in
  match redeems with
  | tx :: redeems =>
      let b := mkBlockState state header blockGasLeft txes redeems complete receipts delta processed hooks statedb in
      match tx with
      | BT_Retry retry =>
          let? retryable := read_or None (OpenRetryable (as_retryableState state) (art_TicketId retry) (bh_Time header)) statedb in
          match retryable with
          | None => Ok (None, b)
          | Some _ => Ok (Some (tx, None, false), b)
          end
      | _ => Err (ErrNew "retryable tx is somehow not a retryable")
      end
  | [] =>
      match txes with
      | [] => Panic "index out of range"
      | tx :: txes =>
          if is_internal tx then
            Ok (Some (tx, None, false),
                mkBlockState state header blockGasLeft txes redeems complete receipts delta processed hooks statedb)
          else
            let '(options, hooks) :=
              match sh_ConditionalOptionsForTx hooks with
              | [] => (None, hooks)
              | o :: rest => (o, set_Options rest hooks)
              end in
            Ok (Some (tx, options, true),
                mkBlockState state header blockGasLeft txes redeems complete receipts delta processed hooks statedb)
      end
  end.

(** The gas for the calldata of a transaction. *)
Definition txDataGas (tx : BlockTx) (poster : Z) (state : ArbosState) (header : BlockHeader) (d : DB) : outcome Z :=
  let? dataGas :=
    if 0 <? Z.sgn (bh_BaseFee header) then
      let? brotliCompressionLevel :=
        match read (BrotliCompressionLevel state) d with
        | Err e => Err (ErrWrap "failed to get brotli compression level" e)
        | r => r
        end in
      let? (posterCost, _, _) :=
        read (GetPosterInfo (as_l1PricingState state) (BlockTx_Raw tx) (BlockTx_CalldataUnits tx) poster brotliCompressionLevel) d in
      let? posterCostInL2Gas := big_div posterCost (bh_BaseFee header) in
      Ok (if IsUint64 posterCostInL2Gas then posterCostInL2Gas else MaxUint64)
    else Ok 0 in
  Ok (if BlockTx_Gas tx <? dataGas then BlockTx_Gas tx else dataGas).

(** The function literal that applies a transaction. Beside its result it has
    effects on [header.GasUsed] and on the database. *)
Definition applyTx (b : BlockState) (hooks : SequencingHooks) (l1Info : L1Info) (tx : BlockTx)
    (options : option ConditionalOptions) (isUserTx : bool)
    : outcome (Receipt * ExecutionResult * Z) * Z * DB :=
  let header := bs_header b in
  let state := bs_state b in
  let d := bs_statedb b in
  let checked :=
    if (bs_blockGasLeft b <? TxGas) && isUserTx then Err ErrGasLimitReached
    else
      let? sender := Sender (bh_Number header) (bh_Time header) tx in
      let? _ := sh_PreTxFilter hooks header d state tx options sender l1Info in
      let? _ := extraPreTxFilter tx in
      let? dataGas := txDataGas tx (li_poster l1Info) state header d in
      let computeGas := BlockTx_Gas tx -u64 dataGas in
      let? computeGas :=
        if computeGas <? TxGas then
          if sh_DiscardInvalidTxsEarly hooks then Err ErrIntrinsicGas else Ok TxGas
        else Ok computeGas in
      if (bs_blockGasLeft b <? computeGas) && isUserTx && (0 <? bs_userTxsProcessed b) then Err ErrGasLimitReached
      else Ok (sender, dataGas) in
  match checked with
  | Err e => (Err e, bh_GasUsed header, d)
  | Panic m => (Panic m, bh_GasUsed header, d)
  | Ok (sender, dataGas) =>
      match ApplyTransaction header (BlockTx_Hash tx) (Z.of_nat (length (bs_receipts b))) tx
              (fun result => sh_PostTxFilter hooks header state tx sender dataGas result) d with
      | (Err e, gasUsed, d') => (Err e, gasUsed, RevertToSnapshot d d')
      | (Panic m, gasUsed, d') => (Panic m, gasUsed, d')
      | (Ok (receipt, result), gasUsed, d') =>
          match extraPostTxFilter tx result with
          | Err e => (Err e, gasUsed, RevertToSnapshot d d')
          | Panic m => (Panic m, gasUsed, d')
          | Ok _ => (Ok (receipt, result, dataGas), gasUsed, d')
          end
      end
  end.

(** The callvalue that a log of ArbSys withdraws; an event that cannot be parsed
    is logged. *)
Definition logWithdrawal (txLog : EthLog) : outcome Z :=
  if log_Address txLog =? ArbSysAddress then
    let parsed r := match r with Ok callvalue => Ok callvalue | Err _ => Ok 0 | Panic m => Panic m end in
    match log_Topics txLog with
    | [] => Panic "index out of range"
    | topic :: _ =>
        if topic =? L2ToL1TransactionEventID then parsed (ParseL2ToL1TransactionLog txLog)
        else if topic =? L2ToL1TxEventID then parsed (ParseL2ToL1TxLog txLog)
        else Ok 0
    end
  else Ok 0.

Fixpoint logsWithdrawals (logs : list EthLog) : outcome Z :=
  match logs with
  | [] => Ok 0
  | txLog :: logs =>
      let? v := logWithdrawal txLog in
      let? rest := logsWithdrawals logs in
      Ok (v + rest)
  end.

(** The ether that a transaction adds to the system. *)
Definition txDeposit (tx : BlockTx) : Z :=
  match tx with
  | BT_Message (Tx_Deposit tx) => dtx_Value tx
  | BT_Message (Tx_SubmitRetryable tx) => srt_DepositValue tx
  | _ => 0
  end.

(** Without the gas that redeems were given. *)
Definition withoutScheduledGas (txGasUsed : Z) (scheduled : list BlockTx) : Z :=
  fold_left
    (fun gas tx => match tx with BT_Retry inner => SaturatingUSub 64 gas (art_Gas inner) | _ => gas end)
    scheduled txGasUsed.

(** A transaction that was applied, from the check of an internal transaction to
    the end of the turn. *)
Definition acceptTx (b : BlockState) (preTxHeaderGasUsed : Z) (tx : BlockTx) (isUserTx : bool) (receipt : Receipt)
    (result : ExecutionResult) (dataGas : Z) : outcome BlockState :=
  let '(mkBlockState state header blockGasLeft txes redeems complete receipts delta processed hooks statedb) := b in
  match (if is_internal tx then er_Err result else None) with
  | Some e => Err (ErrWrap "failed to apply internal transaction" e)
  | None =>
      if bh_GasUsed header <? preTxHeaderGasUsed then Err (ErrNew "ApplyTransaction() used negative gas")
      else
        let txGasUsed := bh_GasUsed header -u64 preTxHeaderGasUsed in
        let arbosVer := hi_ArbOSFormatVersion (DeserializeHeaderExtraInformation header) in
        let txGasUsed :=
          if ArbosVersion_FixRedeemGas <=? arbosVer then withoutScheduledGas txGasUsed (er_ScheduledTxes result)
          else txGasUsed in
        let delta := delta + txDeposit tx in
        let computeUsed := txGasUsed -u64 dataGas in
        let computeUsed :=
          if txGasUsed <? dataGas then TxGas
          else if computeUsed <? TxGas then TxGas
          else computeUsed in
        if BlockTx_Gas tx <? txGasUsed then Err (ErrNew "ApplyTransaction() used more gas than it should have")
        else
          let? withdrawn := logsWithdrawals (rc_Logs receipt) in
          Ok (mkBlockState state header (SaturatingUSub 64 blockGasLeft computeUsed) txes
                (redeems ++ er_ScheduledTxes result) (complete ++ [tx]) (receipts ++ [receipt]) (delta - withdrawn)
                (if isUserTx then processed + 1 else processed) hooks statedb)
  end.

(** A transaction that was not applied. *)
Definition rejectTx (b : BlockState) (discardInvalidTxsEarly isUserTx : bool) : BlockState :=
  let '(mkBlockState state header blockGasLeft txes redeems complete receipts delta processed hooks statedb) := b in
  if discardInvalidTxsEarly then b
  else
    mkBlockState state header (SaturatingUSub 64 blockGasLeft TxGas) txes redeems complete receipts delta
      (if isUserTx then processed + 1 else processed) hooks statedb.

Definition set_applied (gasUsed : Z) (d : DB) (b : BlockState) : BlockState :=
  mkBlockState (bs_state b) (set_GasUsed gasUsed (bs_header b)) (bs_blockGasLeft b) (bs_txes b) (bs_redeems b) (bs_complete b)
    (bs_receipts b) (bs_expectedBalanceDelta b) (bs_userTxsProcessed b) (bs_hooks b) d.
Definition set_arbos (state : ArbosState) (header : BlockHeader) (b : BlockState) : BlockState :=
  mkBlockState state header (bs_blockGasLeft b) (bs_txes b) (bs_redeems b) (bs_complete b) (bs_receipts b)
    (bs_expectedBalanceDelta b) (bs_userTxsProcessed b) (bs_hooks b) (bs_statedb b).
Definition log_TxError (isUserTx : bool) (e : option error) (b : BlockState) : BlockState :=
  mkBlockState (bs_state b) (bs_header b) (bs_blockGasLeft b) (bs_txes b) (bs_redeems b) (bs_complete b) (bs_receipts b)
    (bs_expectedBalanceDelta b) (bs_userTxsProcessed b) (if isUserTx then add_TxError e (bs_hooks b) else bs_hooks b) (bs_statedb b).

(** After an internal transaction: ArbOS may have upgraded itself. The error of
    the refresh overwrites the error of the transaction, so that the result of a
    transaction that failed is read through a nil pointer. *)
Definition refreshState (b : BlockState) : outcome BlockState :=
  let? state := read OpenArbosState (bs_statedb b) in
  let header := bs_header b in
  let info := DeserializeHeaderExtraInformation header in
  let info := mkHeaderInfo (hi_SendRoot info) (hi_SendCount info) (hi_L1BlockNumber info) (as_arbosVersion state) in
  Ok (set_arbos state (UpdateHeaderWithInfo info header) b).

(** A turn of the loop. *)
Definition processTx (l1Info : L1Info) (b : BlockState) : outcome BlockState :=
  let? (next, b) := nextTx b in
  match next with
  | None => Ok b
  | Some (tx, options, isUserTx) =>
      if negb (GetRefund (bs_statedb b) =? 0) then Err (ErrNew "at beginning of tx statedb has non-zero refund")
      else
        let hooks := if isUserTx then bs_hooks b else NoopSequencingHooks in
        let preTxHeaderGasUsed := bh_GasUsed (bs_header b) in
        let '(r, gasUsed, d) := applyTx b hooks l1Info tx options isUserTx in
        let b := set_applied gasUsed d b in
        match r with
        | Panic m => Panic m
        | Ok (receipt, result, dataGas) =>
            let? b := if is_internal tx then refreshState b else Ok b in
            let b := log_TxError isUserTx None b in
            acceptTx b preTxHeaderGasUsed tx isUserTx receipt result dataGas
        | Err e =>
            if is_internal tx then
              let? _ := refreshState b in
              Panic "invalid memory address or nil pointer dereference"
            else
              let b := log_TxError isUserTx (Some e) b in
              Ok (rejectTx b (sh_DiscardInvalidTxsEarly hooks) isUserTx)
        end
  end.

(** ** The block *)

Fixpoint processTxes (fuel : nat) (l1Info : L1Info) (b : BlockState) : outcome BlockState :=
  match bs_txes b, bs_redeems b with
  | [], [] => Ok b
  | _, _ =>
      match fuel with
      | O => Panic "ProduceBlockAdvanced does not return"
      | S fuel =>
          let? b := processTx l1Info b in
          processTxes fuel l1Info b
      end
  end.

Definition FinalizeBlock (header : BlockHeader) (d : DB) (chainConfig : ChainConfig) : outcome (BlockHeader * DB) :=
  if u64 (bh_Number header) <? cc_GenesisBlockNum chainConfig then Panic "cannot finalize blocks before genesis"
  else
    let? info :=
      if u64 (bh_Number header) =? cc_GenesisBlockNum chainConfig then
        Ok (mkHeaderInfo 0 0 0 (cc_InitialArbOSVersion chainConfig))
      else
        let? state :=
          match read OpenArbosState d with
          | Err e => Panic "while opening arbos state"
          | r => r
          end in
        let acc := SendMerkleAccumulator state in
        let? sendRoot := read_or 0 (let* (root, _) := MerkleAccumulator_Root acc in ret root) d in
        let? sendCount := read_or 0 (MerkleAccumulator_Size acc) d in
        let? nextL1BlockNumber := read_or 0 (L1BlockNumber (as_blockhashes state)) d in
        Ok (mkHeaderInfo sendRoot sendCount nextL1BlockNumber (as_arbosVersion state)) in
    let header := UpdateHeaderWithInfo info header in
    let '(root, d) := IntermediateRoot d in
    Ok (set_Root root header, d).

(** [types.NewBlock] keeps the header (with the roots of the transactions and the
    receipts, which are not modelled) and the transactions. *)
Record Block := mkBlock { blk_header : BlockHeader; blk_transactions : list BlockTx }.

(** The number of turns that [processTxes] is given. A redeem has at least
    [TxGas], which is spent before it can schedule another, so a transaction
    leads to at most [BlockTx_Gas tx / TxGas] redeems. *)
Definition turns (txes : list BlockTx) : nat :=
  foldr (fun tx n => S (Z.to_nat (BlockTx_Gas tx / TxGas)) + n)%nat 0%nat txes.

Definition ProduceBlockAdvanced (l1Header : L1IncomingMessageHeader) (txes : list BlockTx) (delayedMessagesRead : Z)
    (lastBlockHeader : option BlockHeader) (statedb : DB) (chainConfig : BlockConfig) (sequencingHooks : SequencingHooks)
    : outcome (Block * list Receipt * SequencingHooks * DB) :=
  let? state := read OpenArbosState statedb in
  if negb (GetUnexpectedBalanceDelta statedb =? 0)
  then Err (ErrNew "ProduceBlock called with dirty StateDB (non-zero unexpected balance delta)")
  else
    let l1Info := mkL1Info (h_Poster l1Header) (h_BlockNumber l1Header) (h_Timestamp l1Header) in
    let? header := createNewHeader lastBlockHeader (Some l1Info) state statedb in
    let? blockGasLeft := read_or 0 (PerBlockGasLimit (as_l2PricingState state)) statedb in
    let? last :=
      match lastBlockHeader with
      | None => Panic "invalid memory address or nil pointer dereference"
      | Some last => Ok last
      end in
    let? startTx :=
      InternalTxStartBlock (cc_ChainID (bcfg_Chain chainConfig)) (h_L1BaseFee l1Header) (li_l1BlockNumber l1Info)
        (mkHeader (bh_Number header) (bh_Time header)) (mkHeader (bh_Number last) (bh_Time last)) in
    let txes := BT_Message (Tx_Internal startTx) :: txes in
    let? b :=
      processTxes (turns txes) l1Info
        (mkBlockState state header blockGasLeft txes [] [] [] 0 0 sequencingHooks statedb) in
    let header := set_Nonce (be_bytes 8 delayedMessagesRead) (bs_header b) in
    let? (header, d) := FinalizeBlock header (bs_statedb b) (bcfg_Chain chainConfig) in
    if negb (length (bs_complete b) =? length (bs_receipts b))%nat then Err (ErrNew "block has a different number of txes and receipts")
    else
      let balanceDelta := GetUnexpectedBalanceDelta d in
      if negb (balanceDelta =? bs_expectedBalanceDelta b) &&
         ((bs_expectedBalanceDelta b <? balanceDelta) || bcfg_DebugMode chainConfig)
      then Err (ErrNew "unexpected total balance delta")
      else Ok (mkBlock header (bs_complete b), bs_receipts b, bs_hooks b, d).

(** The closure that [ProduceBlock] passes to the parser: the data, and what it
    leaves in [batchFetchErr]. *)
Definition fetchBatch (batchFetcher : Z -> list Z + error) (batchNum batchHash : Z) : list Z * option error :=
  match batchFetcher batchNum with
  | inr e => ([], Some e)
  | inl data =>
      if negb (keccak256 data =? batchHash)
      then ([], Some (ErrNew "expecting batch hash but got data with another hash"))
      else (data, None)
  end.

(** [batchFetchErr] after the parser has run: it calls the closure once, for a
    batch posting report that does not come with its gas. *)
Definition batchFetchErr (batchFetcher : Z -> list Z + error) (msg : L1IncomingMessage) : option error :=
  if (Z.of_nat (length (msg_L2msg msg)) <=? MaxL2MessageSize) && (h_Kind (msg_Header msg) =? L1MessageType_BatchPostingReport) then
    match ParseBatchPostingReportMessageFields (msg_L2msg msg), msg_BatchGasCost msg with
    | Ok report, None => snd (fetchBatch batchFetcher (rep_batchNum report) (rep_dataHash report))
    | _, _ => None
    end
  else None.

Definition ProduceBlock (msg : L1IncomingMessage) (delayedMessagesRead : Z) (lastBlockHeader : option BlockHeader)
    (statedb : DB) (chainConfig : BlockConfig) (batchFetcher : Z -> list Z + error)
    : outcome (Block * list Receipt * SequencingHooks * DB) :=
  let txes :=
    ParseL2Transactions msg (cc_ChainID (bcfg_Chain chainConfig))
      (Some (fun batchNum batchHash => fst (fetchBatch batchFetcher batchNum batchHash))) in
  match batchFetchErr batchFetcher msg with
  | Some e => Err e
  | None =>
      let? txes :=
        match txes with
        | Ok txes => Ok txes
        | Err _ => Ok []
        | Panic m => Panic m
        end in
      ProduceBlockAdvanced (msg_Header msg) (BT_Message <$> txes) delayedMessagesRead lastBlockHeader statedb chainConfig
        NoopSequencingHooks
  end.
End Block.
