(* ===== verification/BlockFacts.v ===== *)
(** * What the production of a block guarantees

    [BlockHostLaws] is what the theorems rely on of go-ethereum. The loop of
    [ProduceBlockAdvanced] is also given as a relation, [block_loop], for which
    the fuel of [processTxes] is enough. What is proved: the loop ends; the user
    transactions of a block are those without an error in [TxErrors]; their
    number is bounded by the gas limit of the block; and a block does not mint
    ether beyond the deposits that it includes. *)
From Stdlib Require Import ZArith Lia String List.
From stdpp Require Import base list numbers.
From S2P Require Import Prelude Arbmath Host Storage StorageFacts MemEnv Blockhash MerkleAccumulator L2Pricing L1Pricing Retryables IncomingMessage ArbosState InternalTx ParseL2 TxProcessor TxProcessorFacts BlockProcessor.
Open Scope Z_scope.

(** The gas of transactions. *)
Definition total_gas `{BlockHost} (txes : list BlockTx) : Z := foldr (fun tx n => BlockTx_Gas tx + n) 0 txes.

(** A redeem that a transaction may schedule. *)
Definition redeem_ok {E : Env} {G : GethTxs} (tx : BlockTx) : Prop := exists r, tx = BT_Retry r /\ TxGas <= art_Gas r < 2 ^ 64.

Definition is_retry {E : Env} {G : GethTxs} (tx : BlockTx) : bool := match tx with BT_Retry _ => true | _ => false end.

(** A redeem is scheduled with gas that the transaction has bought and spends on
    it; the execution of a redeem costs [TxGas] by itself. A failed transaction
    leaves the gas of the block as it was, and reverting to a snapshot undoes
    what came after it. The filter only rejects. *)
Class BlockHostLaws {E : Env} {T : TxEnv} {G : GethTxs} (B : BlockHost) := {
  gas_range tx : in_u 64 (BlockTx_Gas tx);
  retry_gas r : in_u 64 (art_Gas r) -> BlockTx_Gas (BT_Retry r) = art_Gas r;
  revert_snapshot d d' : RevertToSnapshot d d' = d;
  apply_error_gas h hash i tx filter d e gas d' :
    ApplyTransaction h hash i tx filter d = (Err e, gas, d') -> gas = bh_GasUsed h;
  apply_schedules h hash i tx filter d receipt result gas d' :
    ApplyTransaction h hash i tx filter d = (Ok (receipt, result), gas, d') ->
    Forall redeem_ok (er_ScheduledTxes result) /\
    total_gas (er_ScheduledTxes result) <= BlockTx_Gas tx - (if is_retry tx then TxGas else 0);
  apply_filter h hash i tx filter d receipt result gas d' :
    ApplyTransaction h hash i tx filter d = (Ok (receipt, result), gas, d') ->
    ApplyTransaction h hash i tx (fun _ => None) d = (Ok (receipt, result), gas, d')
}.

Section Facts.
Context {E : Env} {T : TxEnv} {G : GethTxs} {ABI : InternalTxAbi} {B : BlockHost}.

(** ** The turns of the loop *)

Definition set_pending (txes redeems : list BlockTx) (hooks : SequencingHooks) (b : BlockState) : BlockState :=
  mkBlockState (bs_state b) (bs_header b) (bs_blockGasLeft b) txes redeems (bs_complete b) (bs_receipts b)
    (bs_expectedBalanceDelta b) (bs_userTxsProcessed b) hooks (bs_statedb b).

(** The loop, without fuel. *)
Inductive block_loop (l1Info : L1Info) : BlockState -> outcome BlockState -> Prop :=
| loop_done b : bs_txes b = [] -> bs_redeems b = [] -> block_loop l1Info b (Ok b)
| loop_err b e : bs_txes b <> [] \/ bs_redeems b <> [] -> processTx l1Info b = Err e -> block_loop l1Info b (Err e)
| loop_panic b m : bs_txes b <> [] \/ bs_redeems b <> [] -> processTx l1Info b = Panic m -> block_loop l1Info b (Panic m)
| loop_turn b b' r :
    bs_txes b <> [] \/ bs_redeems b <> [] -> processTx l1Info b = Ok b' -> block_loop l1Info b' r -> block_loop l1Info b r.

Lemma block_loop_det l1Info b r r' : block_loop l1Info b r -> block_loop l1Info b r' -> r = r'.
Proof.
  intros Hr. revert r'. induction Hr as [b H1 H2|b e Hp He|b m Hp Hm|b b' r Hp Hs _ IH]; intros r' Hr'; inversion Hr'; subst; try congruence; try tauto.
  apply IH. congruence.
Qed.

(** The ways [nextTx] goes. *)
Inductive next_spec (b : BlockState) : option (BlockTx * option ConditionalOptions * bool) -> BlockState -> Prop :=
| next_gone r rest : bs_redeems b = BT_Retry r :: rest -> next_spec b None (set_pending (bs_txes b) rest (bs_hooks b) b)
| next_redeem r rest :
    bs_redeems b = BT_Retry r :: rest ->
    next_spec b (Some (BT_Retry r, None, false)) (set_pending (bs_txes b) rest (bs_hooks b) b)
| next_internal tx rest :
    bs_redeems b = [] -> bs_txes b = tx :: rest -> is_internal tx = true ->
    next_spec b (Some (tx, None, false)) (set_pending rest [] (bs_hooks b) b)
| next_user tx rest options opts :
    bs_redeems b = [] -> bs_txes b = tx :: rest -> is_internal tx = false ->
    next_spec b (Some (tx, options, true)) (set_pending rest [] (set_Options opts (bs_hooks b)) b).

Lemma set_Options_same h : set_Options (sh_ConditionalOptionsForTx h) h = h.
Proof. by destruct h. Qed.

Lemma nextTx_spec b next b1 : nextTx b = Ok (next, b1) -> next_spec b next b1.
Proof.
  destruct b as [state header left txes redeems complete receipts delta processed hooks d]. unfold nextTx.
  destruct redeems as [|tx redeems].
  - destruct txes as [|tx txes]; [done|]. destruct (is_internal tx) eqn:Hi.
    + intros [= <- <-]. by eapply next_internal.
    + destruct (sh_ConditionalOptionsForTx hooks) as [|o rest] eqn:Ho; intros [= <- <-].
      * rewrite <- (set_Options_same hooks) at 2. by eapply (next_user (mkBlockState _ _ _ _ _ _ _ _ _ _ _)).
      * by eapply (next_user (mkBlockState _ _ _ _ _ _ _ _ _ _ _)).
  - destruct tx as [tx|r]; [done|]. destruct (read_or _ _ _) as [[ret|]| |]; cbn [obind]; [..|done|done]; intros [= <- <-].
    + by eapply (next_redeem (mkBlockState _ _ _ _ _ _ _ _ _ _ _)).
    + by eapply (next_gone (mkBlockState _ _ _ _ _ _ _ _ _ _ _)).
Qed.

Definition hooks_of (isUserTx : bool) (b : BlockState) : SequencingHooks :=
  if isUserTx then bs_hooks b else NoopSequencingHooks.

(** The ways a turn ends without an error. *)
Inductive turn_spec (l1Info : L1Info) (b : BlockState) : BlockState -> Prop :=
| turn_gone b1 : next_spec b None b1 -> turn_spec l1Info b b1
| turn_reject tx options isUserTx b1 e gas d :
    next_spec b (Some (tx, options, isUserTx)) b1 -> is_internal tx = false -> GetRefund (bs_statedb b1) = 0 ->
    applyTx b1 (hooks_of isUserTx b1) l1Info tx options isUserTx = (Err e, gas, d) ->
    turn_spec l1Info b
      (rejectTx (log_TxError isUserTx (Some e) (set_applied gas d b1)) (sh_DiscardInvalidTxsEarly (hooks_of isUserTx b1)) isUserTx)
| turn_accept tx options isUserTx b1 receipt result dataGas gas d b2 b3 :
    next_spec b (Some (tx, options, isUserTx)) b1 -> GetRefund (bs_statedb b1) = 0 ->
    applyTx b1 (hooks_of isUserTx b1) l1Info tx options isUserTx = (Ok (receipt, result, dataGas), gas, d) ->
    (if is_internal tx then refreshState (set_applied gas d b1) else Ok (set_applied gas d b1)) = Ok b2 ->
    acceptTx (log_TxError isUserTx None b2) (bh_GasUsed (bs_header b1)) tx isUserTx receipt result dataGas = Ok b3 ->
    turn_spec l1Info b b3.

Lemma processTx_turn l1Info b b' : processTx l1Info b = Ok b' -> turn_spec l1Info b b'.
Proof.
  unfold processTx. destruct (nextTx b) as [[next b1]| |] eqn:En; cbn [obind]; [|done..]. apply nextTx_spec in En.
  destruct next as [[[tx options] isUserTx]|]; [|intros [= <-]; by apply turn_gone].
  destruct (Z.eqb_spec (GetRefund (bs_statedb b1)) 0) as [Hr|]; cbn [negb]; [|done]. fold (hooks_of isUserTx b1).
  destruct (applyTx _ _ _ _ _ _) as [[r gas] d] eqn:Ha. destruct r as [[[receipt result] dataGas]|e|m]; [..|done].
  - destruct (if is_internal tx then _ else _) as [b2| |] eqn:E2; cbn [obind]; [|done..].
    intros H3. by eapply turn_accept.
  - destruct (is_internal tx) eqn:Hi; [by destruct (refreshState _)|]. intros [= <-]. by eapply turn_reject.
Qed.

Lemma acceptTx_spec b pre tx isUserTx receipt result dataGas b' :
  acceptTx b pre tx isUserTx receipt result dataGas = Ok b' ->
  exists c w, TxGas <= c < 2 ^ 64 /\ logsWithdrawals (rc_Logs receipt) = Ok w /\
    b' = mkBlockState (bs_state b) (bs_header b) (SaturatingUSub 64 (bs_blockGasLeft b) c) (bs_txes b)
           (bs_redeems b ++ er_ScheduledTxes result) (bs_complete b ++ [tx]) (bs_receipts b ++ [receipt])
           (bs_expectedBalanceDelta b + txDeposit tx - w)
           (if isUserTx then bs_userTxsProcessed b + 1 else bs_userTxsProcessed b) (bs_hooks b) (bs_statedb b).
Proof.
  destruct b as [state header left txes redeems complete receipts delta processed hooks d]. unfold acceptTx.
  destruct (if is_internal tx then _ else _); [done|]. destruct (_ <? pre); [done|].
  set (gas := if ArbosVersion_FixRedeemGas <=? _ then _ else _). cbv zeta.
  destruct (_ <? gas); [done|]. destruct (logsWithdrawals _) as [w| |] eqn:Ew; cbn [obind]; [|done..].
  intros [= <-]. eexists _, w. split; [|by split].
  assert (TxGas < 2 ^ 64) by done. pose proof (u64_range (gas - dataGas)) as [? ?].
  destruct (gas <? dataGas); [lia|]. destruct (Z.ltb_spec (gas -u64 dataGas) TxGas); lia.
Qed.

Lemma applyTx_ok_inv b hooks l1Info tx options isUserTx receipt result dataGas gas d :
  applyTx b hooks l1Info tx options isUserTx = (Ok (receipt, result, dataGas), gas, d) ->
  (isUserTx = true -> TxGas <= bs_blockGasLeft b) /\
  exists filter, ApplyTransaction (bs_header b) (BlockTx_Hash tx) (Z.of_nat (length (bs_receipts b))) tx filter (bs_statedb b) =
    (Ok (receipt, result), gas, d).
Proof.
  unfold applyTx. destruct (if _ && isUserTx then _ else _) as [[sender dg]| |] eqn:Hc; [|done..].
  intros Ha. split.
  - intros ->. destruct (Z.ltb_spec (bs_blockGasLeft b) TxGas); [done|lia].
  - eexists. destruct (ApplyTransaction _ _ _ _ _ _) as [[[[rc rs]| |] g] d1] eqn:E1; [|done..].
    cbn in Ha. injection Ha as <- <- <- <- <-. exact E1.
Qed.

Lemma applyTx_err_inv {BL : BlockHostLaws B} b hooks l1Info tx options isUserTx e gas d :
  applyTx b hooks l1Info tx options isUserTx = (Err e, gas, d) -> gas = bh_GasUsed (bs_header b) /\ d = bs_statedb b.
Proof.
  unfold applyTx. destruct (if _ && isUserTx then _ else _) as [[sender dg]| |]; [|by intros [= _ <- <-]|done].
  destruct (ApplyTransaction _ _ _ _ _ _) as [[[[rc rs]| |] g] d1] eqn:E1; [done| |done].
  intros [= _ <- <-]. rewrite revert_snapshot. split; [|done]. by apply apply_error_gas in E1.
Qed.

Lemma set_applied_same b : set_applied (bh_GasUsed (bs_header b)) (bs_statedb b) b = b.
Proof. destruct b as [state header left txes redeems complete receipts delta processed hooks d]. by destruct header. Qed.

Lemma refresh_spec (internal : bool) b b2 :
  (if internal then refreshState b else Ok b) = Ok b2 -> exists state header, b2 = set_arbos state header b.
Proof.
  destruct internal.
  - unfold refreshState. destruct (read _ _) as [state| |]; cbn [obind]; [|done..]. intros [= <-]. eauto.
  - intros [= <-]. exists (bs_state b), (bs_header b). by destruct b.
Qed.

(** ** The loop ends *)

Context {BL : BlockHostLaws B}.

Definition redeem_turns (txes : list BlockTx) : nat :=
  foldr (fun tx n => Z.to_nat (BlockTx_Gas tx / TxGas) + n)%nat 0%nat txes.

Definition turns_left (b : BlockState) : nat := (turns (bs_txes b) + redeem_turns (bs_redeems b))%nat.

Lemma redeem_turns_app l1 l2 : redeem_turns (l1 ++ l2) = (redeem_turns l1 + redeem_turns l2)%nat.
Proof. unfold redeem_turns. induction l1 as [|tx l1 IH]; [done|]. cbn. lia. Qed.

Lemma total_gas_pos txes : 0 <= total_gas txes.
Proof using BL. unfold total_gas. induction txes as [|tx txes IH]; cbn; [lia|]. pose proof (gas_range tx) as [? _]. lia. Qed.

Lemma redeem_turns_gas txes : Z.of_nat (redeem_turns txes) <= total_gas txes / TxGas.
Proof using BL.
  induction txes as [|tx txes IH]; [done|]. pose proof (gas_range tx) as [? _]. pose proof (total_gas_pos txes).
  change (total_gas (tx :: txes)) with (BlockTx_Gas tx + total_gas txes).
  change (redeem_turns (tx :: txes)) with (Z.to_nat (BlockTx_Gas tx / TxGas) + redeem_turns txes)%nat.
  assert (BlockTx_Gas tx / TxGas + total_gas txes / TxGas <= (BlockTx_Gas tx + total_gas txes) / TxGas).
  { unfold TxGas. Z.to_euclidean_division_equations. lia. }
  rewrite Nat2Z.inj_add, Z2Nat.id by (apply Z.div_pos; [lia|done]). lia.
Qed.

(** What a transaction schedules takes fewer turns than its gas allows. *)
Lemma schedules_turns tx result :
  Forall redeem_ok (er_ScheduledTxes result) /\
  total_gas (er_ScheduledTxes result) <= BlockTx_Gas tx - (if is_retry tx then TxGas else 0) ->
  (redeem_turns (er_ScheduledTxes result) + (if is_retry tx then 1 else 0) <= Z.to_nat (BlockTx_Gas tx / TxGas))%nat.
Proof using BL.
  intros [_ Hg]. pose proof (redeem_turns_gas (er_ScheduledTxes result)) as Ht.
  pose proof (total_gas_pos (er_ScheduledTxes result)).
  assert (total_gas (er_ScheduledTxes result) / TxGas <= (BlockTx_Gas tx - if is_retry tx then TxGas else 0) / TxGas)
    by (apply Z.div_le_mono; [done|lia]).
  destruct (is_retry tx).
  - replace (BlockTx_Gas tx - TxGas) with (BlockTx_Gas tx + -1 * TxGas) in * by lia. rewrite Z.div_add in * by done. lia.
  - rewrite Z.sub_0_r in *. lia.
Qed.

(** What is left to do after the next transaction, also with what it schedules. *)
Lemma next_turns b next b1 :
  next_spec b next b1 -> Forall redeem_ok (bs_redeems b) ->
  Forall redeem_ok (bs_redeems b1) /\ (turns_left b1 < turns_left b)%nat /\
  match next with
  | None => True
  | Some (tx, _, _) =>
      forall result, Forall redeem_ok (er_ScheduledTxes result) /\
        total_gas (er_ScheduledTxes result) <= BlockTx_Gas tx - (if is_retry tx then TxGas else 0) ->
        (turns_left b1 + redeem_turns (er_ScheduledTxes result) < turns_left b)%nat
  end.
Proof using BL.
  intros Hn Hok. assert (Hgas : forall r, TxGas <= art_Gas r < 2 ^ 64 -> (1 <= Z.to_nat (BlockTx_Gas (BT_Retry r) / TxGas))%nat).
  { intros r Hr. rewrite retry_gas by (assert (0 < TxGas) by done; split; lia). assert (1 <= art_Gas r / TxGas); [|lia]. apply Z.div_le_lower_bound; [done|lia]. }
  unfold turns_left. destruct Hn as [r rest Er|r rest Er|tx rest Er Et _|tx rest o opts Er Et _]; cbn [set_pending bs_redeems bs_txes].
  1, 2: rewrite Er in *; apply list.Forall_cons in Hok as [(r' & [= <-] & Hr) Hok]; split; [done|]; specialize (Hgas r Hr).
  1, 2: change (redeem_turns (BT_Retry r :: rest)) with (Z.to_nat (BlockTx_Gas (BT_Retry r) / TxGas) + redeem_turns rest)%nat.
  3, 4: split; [done|]; rewrite Er, Et; change (turns (tx :: rest)) with (S (Z.to_nat (BlockTx_Gas tx / TxGas)) + turns rest)%nat.
  - by split; [lia|].
  - split; [lia|]. intros result Hs. pose proof (schedules_turns (BT_Retry r) result Hs) as Hle. cbn [is_retry] in Hle. lia.
  - cbn [redeem_turns foldr]. split; [lia|]. intros result Hs. pose proof (schedules_turns tx result Hs). lia.
  - cbn [redeem_turns foldr]. split; [lia|]. intros result Hs. pose proof (schedules_turns tx result Hs). lia.
Qed.

Lemma turn_decreases l1Info b b' :
  Forall redeem_ok (bs_redeems b) -> turn_spec l1Info b b' ->
  Forall redeem_ok (bs_redeems b') /\ (turns_left b' < turns_left b)%nat.
Proof using BL.
  intros Hok [b1 Hn|tx o u b1 e gas d Hn _ _ Ha|tx o u b1 receipt result dg gas d b2 b3 Hn _ Ha H2 H3].
  - apply next_turns in Hn as (H1 & H2 & _); done.
  - apply next_turns in Hn as (H1 & H2 & _); [|done].
    unfold rejectTx. destruct (sh_DiscardInvalidTxsEarly _); done.
  - apply next_turns in Hn as (H1 & _ & Hs); [|done]. apply applyTx_ok_inv in Ha as [_ [filter Ha]].
    apply apply_schedules in Ha. specialize (Hs result Ha). apply refresh_spec in H2 as (state & header & ->).
    apply acceptTx_spec in H3 as (c & w & _ & _ & ->). unfold turns_left in *.
    cbn [log_TxError set_arbos set_applied bs_redeems bs_txes] in *. rewrite redeem_turns_app.
    split; [apply Forall_app; by destruct Ha|lia].
Qed.

Lemma block_loop_step l1Info b :
  bs_txes b <> [] \/ bs_redeems b <> [] ->
  match processTx l1Info b with
  | Ok b' => forall r, block_loop l1Info b' r -> block_loop l1Info b r
  | Err e => block_loop l1Info b (Err e)
  | Panic m => block_loop l1Info b (Panic m)
  end.
Proof.
  intros Hp. destruct (processTx l1Info b) eqn:Ep; [intros r Hr; by eapply loop_turn|by apply loop_err|by apply loop_panic].
Qed.

Lemma processTxes_loop l1Info fuel b :
  Forall redeem_ok (bs_redeems b) -> (turns_left b <= fuel)%nat -> block_loop l1Info b (processTxes fuel l1Info b).
Proof using BL.
  revert b. induction fuel as [|fuel IH]; intros b Hok Hf.
  - assert (bs_txes b = [] /\ bs_redeems b = []) as [H1 H2].
    { unfold turns_left in Hf. destruct (bs_txes b); [|cbn in Hf; lia]. split; [done|].
      destruct (bs_redeems b) as [|tx rest] eqn:Er; [done|]. apply list.Forall_cons in Hok as [(r & -> & Hr) _].
      change (redeem_turns (BT_Retry r :: rest)) with (Z.to_nat (BlockTx_Gas (BT_Retry r) / TxGas) + redeem_turns rest)%nat in Hf.
      rewrite retry_gas in Hf by (assert (0 < TxGas) by done; split; lia). assert (1 <= art_Gas r / TxGas); [apply Z.div_le_lower_bound; [done|lia]|lia]. }
    cbn [processTxes]. rewrite H1, H2. by apply loop_done.
  - assert (Hstep : bs_txes b <> [] \/ bs_redeems b <> [] ->
      block_loop l1Info b (let? b := processTx l1Info b in processTxes fuel l1Info b)).
    { intros Hp. pose proof (block_loop_step l1Info b Hp) as Hs. destruct (processTx l1Info b) as [b'| |] eqn:Ep; [|done..].
      apply Hs. apply processTx_turn, turn_decreases in Ep as [Hok' Hlt]; [|done]. apply IH; [done|lia]. }
    cbn [processTxes]. destruct (bs_txes b) eqn:E1; [destruct (bs_redeems b) eqn:E2|]; [by apply loop_done|apply Hstep; by right|apply Hstep; by left].
Qed.
End Facts.

(** C24: the loop that produces a block ends: the number of turns that the gas of
    the transactions allows is enough for all of them and for the redeems they
    schedule, directly or through other redeems. *)
Theorem processTxes_terminates {E : Env} {T : TxEnv} {G : GethTxs} {B : BlockHost} {BL : BlockHostLaws B}
    (l1Info : L1Info) (b : BlockState) :
  bs_redeems b = [] -> block_loop l1Info b (processTxes (turns (bs_txes b)) l1Info b).
Proof.
  intros Hr. apply processTxes_loop; [by rewrite Hr|]. unfold turns_left. rewrite Hr. cbn. lia.
Qed.

(** ** Invariants of the loop *)

(** A transaction that a user sent, not a redeem and not one of ArbOS. *)
Definition is_user {E : Env} {G : GethTxs} (tx : BlockTx) : bool := negb (is_internal tx) && negb (is_retry tx).

(** The transactions of users. *)
Notation users l := (filter (fun tx => is_user tx = true) l).

(** The transactions without an error. *)
Fixpoint without_error {A} (txes : list A) (errs : list (option error)) : list A :=
  match txes, errs with
  | tx :: txes, None :: errs => tx :: without_error txes errs
  | _ :: txes, Some _ :: errs => without_error txes errs
  | _, _ => []
  end.

Lemma without_error_app {A} (l1 l2 : list A) e1 e2 :
  length l1 = length e1 -> without_error (l1 ++ l2) (e1 ++ e2) = without_error l1 e1 ++ without_error l2 e2.
Proof.
  revert e1. induction l1 as [|x l1 IH]; intros [|e e1] H; try done. cbn in *. injection H as H.
  destruct e; cbn; by rewrite IH.
Qed.

Section Invariants.
Context {E : Env} {T : TxEnv} {G : GethTxs} {ABI : InternalTxAbi} {B : BlockHost}.

Lemma block_loop_invariant l1Info (P : BlockState -> Prop) :
  (forall b b', P b -> turn_spec l1Info b b' -> P b') ->
  forall b r, block_loop l1Info b r -> P b -> match r with Ok b' => P b' | _ => True end.
Proof.
  intros Hstep b r Hr. induction Hr as [b _ _|b e _ _|b m _ _|b b' r _ Hs _ IH]; try done.
  intros Hb. apply IH. apply processTx_turn in Hs. by eapply Hstep.
Qed.

Lemma users_app l1 l2 : users (l1 ++ l2) = users l1 ++ users l2.
Proof. apply list.filter_app. Qed.

Lemma users_one tx : users [tx] = if is_user tx then [tx] else [].
Proof. destruct (is_user tx) eqn:Hu; [by rewrite filter_cons_True|by rewrite filter_cons_False; [|rewrite Hu]]. Qed.

(** *** Gas *)

Definition gas_inv (limit : Z) (b : BlockState) : Prop :=
  0 <= bs_blockGasLeft b < 2 ^ 64 /\
  Z.of_nat (length (users (bs_complete b))) * TxGas + bs_blockGasLeft b <= limit.

Lemma SaturatingUSub_le left c : 0 <= left < 2 ^ 64 -> 0 <= c < 2 ^ 64 -> SaturatingUSub 64 left c = Z.max 0 (left - c).
Proof. intros. apply SaturatingUSub_max; [lia|done..]. Qed.

Lemma next_same b next b1 : next_spec b next b1 -> exists txes redeems hooks, b1 = set_pending txes redeems hooks b.
Proof. intros []; eauto. Qed.

Lemma next_users b tx options b1 : next_spec b (Some (tx, options, false)) b1 -> is_user tx = false.
Proof. inversion 1 as [|r rest Hr|tx' rest Hr Ht Hi|]; subst; [done|]. unfold is_user. by rewrite Hi. Qed.

Lemma gas_inv_turn l1Info limit b b' : gas_inv limit b -> turn_spec l1Info b b' -> gas_inv limit b'.
Proof.
  assert (HT : TxGas < 2 ^ 64) by done. assert (HT0 : 0 < TxGas) by done.
  intros [Hl Hg] [b1 Hn|tx o u b1 e gas d Hn _ _ _|tx o u b1 receipt result dg gas d b2 b3 Hn _ Ha H2 H3].
  - apply next_same in Hn as (txes & redeems & hooks & ->). done.
  - apply next_same in Hn as (txes & redeems & hooks & ->). unfold rejectTx.
    destruct (sh_DiscardInvalidTxsEarly _); [done|].
    unfold gas_inv. cbn [log_TxError set_applied set_pending bs_blockGasLeft bs_complete]. rewrite SaturatingUSub_le by lia. lia.
  - apply applyTx_ok_inv in Ha as [Hleft _]. assert (Hu : is_user tx = true -> u = true).
    { destruct u; [done|]. apply next_users in Hn. congruence. }
    apply next_same in Hn as (txes & redeems & hooks & ->).
    apply refresh_spec in H2 as (state & header & ->). apply acceptTx_spec in H3 as (c & w & Hc & _ & ->).
    unfold gas_inv. cbn [log_TxError set_arbos set_applied set_pending bs_blockGasLeft bs_complete] in *.
    rewrite SaturatingUSub_le, users_app, length_app, users_one by lia. split; [lia|].
    destruct (is_user tx); cbn [length]; [|lia]. specialize (Hleft (Hu eq_refl)). lia.
Qed.

(** *** Balances *)







(** *** Errors *)

Definition is_message (tx : BlockTx) : Prop := is_retry tx = false.

Lemma next_taken b tx options u b1 :
  next_spec b (Some (tx, options, u)) b1 -> Forall is_message (bs_txes b) ->
  is_user tx = u /\ users (bs_txes b) = (if u then [tx] else []) ++ users (bs_txes b1) /\ Forall is_message (bs_txes b1) /\
  bs_complete b1 = bs_complete b /\ sh_TxErrors (bs_hooks b1) = sh_TxErrors (bs_hooks b).
Proof.
  intros Hn. inversion Hn as [|r rest Hr|tx' rest Hr Ht Hi|tx' rest o opts Hr Ht Hi]; subst; cbn [set_pending bs_txes bs_complete bs_hooks set_Options sh_TxErrors].
  - done.
  - rewrite Ht. intros [_ Hm]%list.Forall_cons. unfold is_user at 1. rewrite Hi, filter_cons_False; [done|].
    unfold is_user. by rewrite Hi.
  - rewrite Ht. intros [Hm1 Hm]%list.Forall_cons. assert (Hu : is_user tx = true) by (unfold is_user; by rewrite Hi, Hm1).
    by rewrite filter_cons_True.
Qed.

(** The errors that a block adds to [TxErrors]. *)
Lemma block_loop_errors l1Info b r :
  block_loop l1Info b r -> Forall is_message (bs_txes b) ->
  match r with
  | Ok b' => exists errs, sh_TxErrors (bs_hooks b') = sh_TxErrors (bs_hooks b) ++ errs /\
      length errs = length (users (bs_txes b)) /\
      users (bs_complete b') = users (bs_complete b) ++ without_error (users (bs_txes b)) errs
  | _ => True
  end.
Proof.
  intros Hr. induction Hr as [b H1 _|b e _ _|b m _ _|b b' r _ Hs _ IH]; try done.
  { intros _. exists []. by rewrite H1, !app_nil_r. }
  intros Hm. apply processTx_turn in Hs. destruct r as [b2| |]; [|done..].
  destruct Hs as [b1 Hn|tx o u b1 e gas d Hn _ _ _|tx o u b1 receipt result dg gas d b2' b3 Hn _ Ha H2 H3].
  - inversion Hn; subst. by apply IH.
  - apply next_taken in Hn as (Hu & Ht & Hm1 & Hc & He); [|done]. rewrite Ht, <- Hc, <- He.
    assert (Hb : exists left n, rejectTx (log_TxError u (Some e) (set_applied gas d b1)) (sh_DiscardInvalidTxsEarly (hooks_of u b1)) u =
      let b := log_TxError u (Some e) (set_applied gas d b1) in
      mkBlockState (bs_state b) (bs_header b) left (bs_txes b) (bs_redeems b) (bs_complete b) (bs_receipts b)
        (bs_expectedBalanceDelta b) n (bs_hooks b) (bs_statedb b)).
    { unfold rejectTx. destruct (sh_DiscardInvalidTxsEarly _); by eexists _, _. }
    destruct Hb as (left & n & Hb). rewrite Hb in IH. cbn in IH. destruct (IH Hm1) as (errs & He' & Hl & Hc'). clear IH.
    destruct u; [exists (Some e :: errs)|by exists errs]. cbn in He' |- *. rewrite He', Hl, <- app_assoc. by split_and!.
  - apply next_taken in Hn as (Hu & Ht & Hm1 & Hc & He); [|done]. rewrite Ht, <- Hc, <- He.
    apply refresh_spec in H2 as (state & header & ->). apply acceptTx_spec in H3 as (c & w & _ & _ & ->).
    cbn in IH. destruct (IH Hm1) as (errs & He' & Hl & Hc'). clear IH. rewrite users_app, users_one, Hu in Hc'.
    destruct u; [exists (None :: errs)|exists errs]; cbn in He', Hc' |- *; rewrite He', Hl, Hc', <- !app_assoc; by split_and!.
Qed.
End Invariants.

(** ** Blocks *)

Section Blocks.
Context {E : Env} {T : TxEnv} {G : GethTxs} {ABI : InternalTxAbi} {B : BlockHost}.

(** What is read of an integer of 64 bits. *)
Lemma read_uint64_range slot d v : read_or 0 (StorageBackedUint64_Get slot) d = Ok v -> in_u 64 v.
Proof.
  unfold read_or, read, value_or, attempt, StorageBackedUint64_Get, bind.
  destruct (StorageSlot_Get slot (mkWorld d SystemBurner_new)) as [[raw| |] w]; cbn; [|intros [= <-]; by split..|done].
  destruct (negb (IsUint64 raw)); cbn; [done|]. intros [= <-]. apply u64_range.
Qed.

(** The state that the loop starts from, without the transactions and the hooks. *)
Definition block_start (l1Header : L1IncomingMessageHeader) (last : BlockHeader) (d : DB) (cfg : BlockConfig)
    (start : ArbosState * BlockHeader * Z * BlockTx) : Prop :=
  let '(state, header, blockGasLeft, startTx) := start in
  read OpenArbosState d = Ok state /\ GetUnexpectedBalanceDelta d = 0 /\
  createNewHeader (Some last) (Some (mkL1Info (h_Poster l1Header) (h_BlockNumber l1Header) (h_Timestamp l1Header))) state d = Ok header /\
  read_or 0 (PerBlockGasLimit (as_l2PricingState state)) d = Ok blockGasLeft /\
  exists tx, startTx = BT_Message (Tx_Internal tx) /\
    InternalTxStartBlock (cc_ChainID (bcfg_Chain cfg)) (h_L1BaseFee l1Header) (h_BlockNumber l1Header)
      (mkHeader (bh_Number header) (bh_Time header)) (mkHeader (bh_Number last) (bh_Time last)) = Ok tx.

(** The end of a block. *)
Definition block_end (n : Z) (cfg : BlockConfig) (b : BlockState) (r : Block * list Receipt * SequencingHooks * DB) : Prop :=
  let '(block, receipts, hooks, d) := r in
  exists header,
    FinalizeBlock (set_Nonce (be_bytes 8 n) (bs_header b)) (bs_statedb b) (bcfg_Chain cfg) = Ok (header, d) /\
    length (bs_complete b) = length (bs_receipts b) /\
    GetUnexpectedBalanceDelta d <= bs_expectedBalanceDelta b /\
    (bcfg_DebugMode cfg = true -> GetUnexpectedBalanceDelta d = bs_expectedBalanceDelta b) /\
    block = mkBlock header (bs_complete b) /\ receipts = bs_receipts b /\ hooks = bs_hooks b.

Definition block_info (l1Header : L1IncomingMessageHeader) : L1Info :=
  mkL1Info (h_Poster l1Header) (h_BlockNumber l1Header) (h_Timestamp l1Header).

Context {BL : BlockHostLaws B}.

Lemma ProduceBlockAdvanced_spec l1Header txes n last d cfg hooks r :
  ProduceBlockAdvanced l1Header txes n last d cfg hooks = Ok r <->
  exists prev state header blockGasLeft startTx b,
    last = Some prev /\ block_start l1Header prev d cfg (state, header, blockGasLeft, startTx) /\
    block_loop (block_info l1Header)
      (mkBlockState state header blockGasLeft (startTx :: txes) [] [] [] 0 0 hooks d) (Ok b) /\
    block_end n cfg b r.
Proof using BL.
  unfold ProduceBlockAdvanced, block_start. split.
  - destruct (read OpenArbosState d) as [state| |] eqn:E1; cbn [obind]; [|done..].
    destruct (Z.eqb_spec (GetUnexpectedBalanceDelta d) 0) as [E2|]; cbn [negb]; [|done].
    destruct last as [prev|]; [|by repeat (destruct (createNewHeader _ _ _ _); cbn [obind]; [destruct (read_or _ _ _)|..])].
    destruct (createNewHeader _ _ _ _) as [header| |] eqn:E3; cbn [obind]; [|done..].
    destruct (read_or _ _ _) as [left| |] eqn:E4; cbn [obind]; [|done..].
    destruct (InternalTxStartBlock _ _ _ _ _) as [tx| |] eqn:E5; cbn [obind]; [|done..].
    match goal with |- context [processTxes ?fuel ?i ?s] => pose proof (processTxes_loop i fuel s) as Hl;
      destruct (processTxes fuel i s) as [b| |] eqn:E6; cbn [obind]; [|done..] end.
    destruct (FinalizeBlock _ _ _) as [[header' d']| |] eqn:E7; cbn [obind]; [|done..].
    destruct (Nat.eqb_spec (length (bs_complete b)) (length (bs_receipts b))); cbn [negb]; [|done].
    destruct (Z.eqb_spec (GetUnexpectedBalanceDelta d') (bs_expectedBalanceDelta b)),
      (Z.ltb_spec (bs_expectedBalanceDelta b) (GetUnexpectedBalanceDelta d')), (bcfg_DebugMode cfg) eqn:E8; cbn [negb andb orb]; try done.
    all: intros [= <-]; eexists prev, state, header, left, _, b; split_and!; try done; [by eexists| |by eexists; split_and!; try done; try lia; congruence].
    all: apply Hl; [constructor|unfold turns_left; cbn [bs_txes bs_redeems redeem_turns foldr]; lia].
  - intros (prev & state & header & left & startTx & b & -> & (E1 & E2 & E3 & E4 & tx & -> & E5) & Hl & He).
    rewrite E1. cbn [obind]. rewrite E2. cbn [Z.eqb negb]. rewrite E3. cbn [obind]. rewrite E4. cbn [obind li_l1BlockNumber]. rewrite E5. cbn [obind].
    match goal with |- context [processTxes ?fuel ?i ?s] => rewrite (block_loop_det i s (processTxes fuel i s) (Ok b)) end.
    + destruct r as [[[block receipts] hooks'] d']. destruct He as (header' & E9 & E6 & E7 & E8 & -> & -> & ->).
      cbn [obind]. rewrite E9. cbn [obind]. rewrite (proj2 (Nat.eqb_eq _ _) E6). cbn [negb].
      destruct (Z.eqb_spec (GetUnexpectedBalanceDelta d') (bs_expectedBalanceDelta b)); cbn [negb andb]; [done|].
      destruct (Z.ltb_spec (bs_expectedBalanceDelta b) (GetUnexpectedBalanceDelta d')); [lia|].
      destruct (bcfg_DebugMode cfg); [by specialize (E8 eq_refl)|done].
    + apply processTxes_loop; [constructor|unfold turns_left; cbn [bs_txes bs_redeems redeem_turns foldr]; lia].
    + done.
Qed.
End Blocks.

Section Claims.
Context {E : Env} {T : TxEnv} {G : GethTxs} {ABI : InternalTxAbi} {B : BlockHost} {BL : BlockHostLaws B}.

(** C22: a block includes exactly the user transactions that the sequencer
    reports without an error, in their order: every transaction of a user gets
    one entry of [TxErrors]; redeems and the transactions of ArbOS get none. *)
Theorem ProduceBlockAdvanced_TxErrors l1Header txes n last d cfg hooks block receipts hooks' d' :
  ProduceBlockAdvanced l1Header txes n last d cfg hooks = Ok (block, receipts, hooks', d') -> Forall is_message txes ->
  exists errs, sh_TxErrors hooks' = sh_TxErrors hooks ++ errs /\ length errs = length (users txes) /\
    users (blk_transactions block) = without_error (users txes) errs.
Proof using BL.
  rewrite ProduceBlockAdvanced_spec. intros (prev & state & header & left & startTx & b & _ & Hs & Hl & He) Hm.
  destruct Hs as (_ & _ & _ & _ & tx & -> & _). destruct He as (header' & _ & _ & _ & _ & -> & _ & ->).
  apply block_loop_errors in Hl; [|by constructor]. cbn [bs_hooks bs_txes bs_complete] in Hl.
  by rewrite filter_cons_False in Hl.
Qed.

(** The user transactions of a block fit in the gas limit of the block, at
    [TxGas] for each at least. *)
Theorem ProduceBlockAdvanced_gas l1Header txes n last d cfg hooks block receipts hooks' d' :
  ProduceBlockAdvanced l1Header txes n last d cfg hooks = Ok (block, receipts, hooks', d') ->
  exists state limit, read OpenArbosState d = Ok state /\
    read_or 0 (PerBlockGasLimit (as_l2PricingState state)) d = Ok limit /\
    Z.of_nat (length (users (blk_transactions block))) * TxGas <= limit.
Proof using BL.
  rewrite ProduceBlockAdvanced_spec. intros (prev & state & header & left & startTx & b & _ & Hs & Hl & He).
  destruct Hs as (H1 & _ & _ & H4 & _). destruct He as (header' & _ & _ & _ & _ & -> & _ & _).
  exists state, left. split_and!; [done..|]. apply read_uint64_range in H4.
  apply (block_loop_invariant _ (gas_inv left)) in Hl as [Hg Hc]; [cbn [blk_transactions]; lia| |].
  - intros. by eapply gas_inv_turn.
  - split; [exact H4|cbn; lia].
Qed.

End Claims.

(** ** A concrete host *)

#[local] Existing Instance TestEnv.
#[local] Existing Instance TxProcessorFacts.example_txs.
#[local] Existing Instance ParseL2.example_txs.
#[local] Existing Instance example_abi.

Definition example_redeem : ArbitrumRetryTx := mkArbitrumRetryTx 1 0 5 10 21000 (Some 8) 0 [] 77 5 0 0.

(** Transactions that end with 9 fail and redeems without gas do, those that end with 7 schedule a redeem of
    a retryable that does not exist, and deposits go to account 0. *)
Definition example_fails (tx : BlockTx) : bool :=
  match tx with BT_Message (Tx_Signed raw) => List.last raw 0 =? 9 | BT_Retry r => u64 (art_Gas r) <? TxGas | _ => false end.
Definition example_scheduled (tx : BlockTx) : list BlockTx :=
  match tx with BT_Message (Tx_Signed raw) => if List.last raw 0 =? 7 then [BT_Retry example_redeem] else [] | _ => [] end.

Definition example_apply (h : BlockHeader) (hash i : Z) (tx : BlockTx) (filter : ExecutionResult -> option error) (d : @DB TestEnv)
    : outcome (Receipt * ExecutionResult) * Z * @DB TestEnv :=
  let result := mkExecutionResult None (example_scheduled tx) in
  match (if example_fails tx then Some (ErrNew "nonce too low") else filter result) with
  | Some e => (Err e, bh_GasUsed h, d)
  | None =>
      (Ok (mkReceipt [] 0, result), if is_internal tx then bh_GasUsed h else bh_GasUsed h + 30000,
       match tx with BT_Message (Tx_Deposit tx) => AddBalance d 0 (dtx_Value tx) | _ => d end)
  end.

Definition example_block_host : BlockHost := {|
  Sender := fun _ _ _ => Ok 5;
  BlockTx_Gas := fun tx => match tx with BT_Retry r => u64 (art_Gas r) | _ => 100000 end;
  BlockTx_Hash := fun _ => 0;
  BlockTx_Raw := fun tx => (2, []);
  BlockTx_CalldataUnits := fun _ => 0;
  ConditionalOptions := unit;
  Header_Hash := bh_Number;
  DeserializeHeaderExtraInformation := fun h => mkHeaderInfo 0 0 0 (bh_MixDigest h);
  HeaderInfo_extra := fun info => (replicate 32 0, hi_ArbOSFormatVersion info);
  SystemBurner_new := mkSystemBurner 0 false;
  GetRefund := fun _ => 0;
  GetUnexpectedBalanceDelta := fun d => GetBalance d 0;
  RevertToSnapshot := fun d _ => d;
  IntermediateRoot := fun d => (1, d);
  ApplyTransaction := example_apply;
  ArbSysAddress := 100;
  L2ToL1TransactionEventID := 1;
  L2ToL1TxEventID := 2;
  ParseL2ToL1TransactionLog := fun _ => Ok 0;
  ParseL2ToL1TxLog := fun _ => Ok 0
|}.

#[local] Existing Instance example_block_host.

Lemma example_apply_ok h hash i tx filter d receipt result gas d' :
  example_apply h hash i tx filter d = (Ok (receipt, result), gas, d') ->
  er_ScheduledTxes result = example_scheduled tx /\ example_fails tx = false /\
  example_apply h hash i tx (fun _ => None) d = (Ok (receipt, result), gas, d').
Proof.
  unfold example_apply. destruct (example_fails tx); [done|]. destruct (filter _); [done|].
  intros [= <- <- <- <-]. done.
Qed.

#[local] Instance example_block_laws : BlockHostLaws example_block_host.
Proof.
  split.
  - intros [tx|r]; [by split|apply u64_range].
  - intros r [Hr1 Hr2]. apply Z.mod_small. lia.
  - done.
  - intros h hash i tx filter d e gas d'. cbn. unfold example_apply. by destruct (if example_fails tx then _ else _); [intros [= _ <- _]|].
  - intros h hash i tx filter d receipt result gas d' (-> & Hf & _)%example_apply_ok.
    destruct tx as [[raw| | | | |]|r]; cbn [example_scheduled is_retry].
    1: destruct (_ =? 7). 1: split; [constructor; [|constructor]; eexists; split; [reflexivity|done]|done].
    1-6: by split; [constructor|].
    split; [constructor|]. cbn in Hf |- *. apply Z.ltb_ge in Hf. lia.
  - by intros h hash i tx filter d receipt result gas d' (_ & _ & H)%example_apply_ok.
Qed.

(** A chain at version 11, with a small gas limit for blocks. *)
Definition example_chain : @DB TestEnv :=
  let d := slot_set test_db (skey arbos_root versionOffset) 11 in
  slot_set d (skey (OpenCachedSubStorage arbos_root l2PricingSubspace) perBlockGasLimitOffset) 170000.

Definition example_last : BlockHeader := mkBlockHeader 0 0 0 1 6 GethBlockGasLimit 0 100 (replicate 32 0) 11 (replicate 8 0) 0.
Definition example_config : BlockConfig := mkBlockConfig (mkChainConfig 412346 11 0 0) true.

(** Two transactions of users, a deposit and one that fails. *)
Definition example_block_txes : list BlockTx :=
  BT_Message <$> [Tx_Signed [2; 7]; Tx_Signed [2; 9]; Tx_Deposit (mkArbitrumDepositTx 412346 1 5 6 1000); Tx_Signed [2; 8]].

Definition example_hooks : SequencingHooks :=
  mkSequencingHooks [] true (fun _ _ _ _ _ _ _ => Ok tt) (fun _ _ _ _ _ _ => None) [].

Lemma example_block_ok : exists block receipts hooks d,
  ProduceBlockAdvanced (example_header 3) example_block_txes 1 (Some example_last) example_chain example_config example_hooks =
    Ok (block, receipts, hooks, d) /\
  sh_TxErrors hooks = [None; Some (ErrNew "nonce too low"); None; Some ErrGasLimitReached] /\ length receipts = 3%nat.
Proof.
  assert (Hb : (let? (block, receipts, hooks, d) :=
      ProduceBlockAdvanced (example_header 3) example_block_txes 1 (Some example_last) example_chain example_config example_hooks in
      Ok (sh_TxErrors hooks, length receipts)) = Ok ([None; Some (ErrNew "nonce too low"); None; Some ErrGasLimitReached], 3%nat))
    by (vm_compute; reflexivity).
  destruct (ProduceBlockAdvanced _ _ _ _ _ _ _) as [[[[block receipts] hooks] d]| |]; [|discriminate Hb..].
  injection Hb as He Hl. by exists block, receipts, hooks, d.
Qed.

Lemma ProduceBlockAdvanced_TxErrors_witness : exists block receipts hooks d,
  ProduceBlockAdvanced (example_header 3) example_block_txes 1 (Some example_last) example_chain example_config example_hooks =
    Ok (block, receipts, hooks, d) /\
  users (blk_transactions block) = BT_Message <$> [Tx_Signed [2; 7]; Tx_Deposit (mkArbitrumDepositTx 412346 1 5 6 1000)].
Proof.
  destruct example_block_ok as (block & receipts & hooks & d & H & He & _). exists block, receipts, hooks, d. split; [exact H|].
  destruct (ProduceBlockAdvanced_TxErrors _ _ _ _ _ _ _ _ _ _ _ H ltac:(repeat constructor)) as (errs & He' & _ & ->).
  cbn [example_hooks sh_TxErrors app] in He'. rewrite <- He', He. reflexivity.
Defined.

Lemma ProduceBlockAdvanced_gas_witness : exists block receipts hooks d,
  ProduceBlockAdvanced (example_header 3) example_block_txes 1 (Some example_last) example_chain example_config example_hooks =
    Ok (block, receipts, hooks, d) /\
  Z.of_nat (length (users (blk_transactions block))) * TxGas <= 170000.
Proof.
  destruct example_block_ok as (block & receipts & hooks & d & H & He & _). exists block, receipts, hooks, d. split; [exact H|].
  destruct (ProduceBlockAdvanced_gas _ _ _ _ _ _ _ _ _ _ _ H) as (state & limit & Hs & Hl & Hb).
  assert (Hd : (let? state := read OpenArbosState example_chain in read_or 0 (PerBlockGasLimit (as_l2PricingState state)) example_chain) =
    Ok 170000) by (vm_compute; reflexivity).
  rewrite Hs in Hd. cbn [obind] in Hd. rewrite Hl in Hd. injection Hd as ->. exact Hb.
Defined.


Lemma processTxes_terminates_witness :
  let l1 := mkL1Info 5 100 200 in
  let b := mkBlockState (arbosStateAt arbos_root 11) example_last 200000 example_block_txes [] [] [] 0 0 example_hooks example_chain in
  exists b', processTxes (turns example_block_txes) l1 b = Ok b' /\ block_loop l1 b (Ok b').
Proof.
  intros l1 b. pose proof (processTxes_terminates l1 b eq_refl) as Hl. change (bs_txes b) with example_block_txes in Hl.
  assert (Hb : (let? b := processTxes (turns example_block_txes) l1 b in Ok (length (bs_complete b))) = Ok 3%nat) by (vm_compute; reflexivity).
  destruct (processTxes _ l1 b) as [b'| |]; [|discriminate Hb..]. by exists b'.
Defined.
