(* ===== verification/SequencedBlock.v ===== *)
(** * The block of the sequencer is the block of every node

    The sequencer produces a block from the transactions that it received, with
    hooks that discard invalid transactions early, and publishes the message that
    [messageFromTxes] makes of those without an error. A node that parses the
    message produces a block with no hooks. The two blocks are the same: the loop
    of the replay takes the turns of the sequencer's loop without those of the
    transactions that failed, which left nothing behind. *)
From Stdlib Require Import ZArith Lia String List.
From stdpp Require Import base list numbers.
From S2P Require Import Prelude Arbmath Host Storage MemEnv L1Pricing Retryables IncomingMessage ArbosState InternalTx ParseL2 TxProcessor TxProcessorFacts BlockProcessor BlockFacts.
Open Scope Z_scope.

Section Replay.
Context {E : Env} {T : TxEnv} {G : GethTxs} {ABI : InternalTxAbi} {B : BlockHost}.

(** No hooks, with a log of errors. *)
Definition noop_hooks (errs : list (option error)) : SequencingHooks :=
  mkSequencingHooks errs false (fun _ _ _ _ _ _ _ => Ok tt) (fun _ _ _ _ _ _ => None) [].

(** What is left of the transactions in the message: those of ArbOS stay. *)
Fixpoint kept (txes : list BlockTx) (errs : list (option error)) : list BlockTx :=
  match txes with
  | [] => []
  | tx :: txes =>
      if is_internal tx then tx :: kept txes errs
      else
        match errs with
        | None :: errs => tx :: kept txes errs
        | Some _ :: errs => kept txes errs
        | [] => []
        end
  end.

(** ** The turns of the replay *)

(** A turn after [nextTx]. *)
Definition turn (l1Info : L1Info) (b : BlockState) (tx : BlockTx) (options : option ConditionalOptions) (isUserTx : bool)
    : outcome BlockState :=
  if negb (GetRefund (bs_statedb b) =? 0) then Err (ErrNew "at beginning of tx statedb has non-zero refund")
  else
    let '(r, gasUsed, d) := applyTx b (hooks_of isUserTx b) l1Info tx options isUserTx in
    match r with
    | Panic m => Panic m
    | Ok (receipt, result, dataGas) =>
        let? b' := if is_internal tx then refreshState (set_applied gasUsed d b) else Ok (set_applied gasUsed d b) in
        acceptTx (log_TxError isUserTx None b') (bh_GasUsed (bs_header b)) tx isUserTx receipt result dataGas
    | Err e =>
        if is_internal tx then
          let? _ := refreshState (set_applied gasUsed d b) in
          Panic "invalid memory address or nil pointer dereference"
        else
          Ok (rejectTx (log_TxError isUserTx (Some e) (set_applied gasUsed d b)) (sh_DiscardInvalidTxsEarly (hooks_of isUserTx b)) isUserTx)
    end.

Lemma processTx_eq l1Info b :
  processTx l1Info b =
    let? (next, b) := nextTx b in
    match next with None => Ok b | Some (tx, options, isUserTx) => turn l1Info b tx options isUserTx end.
Proof.
  unfold processTx, turn. destruct (nextTx b) as [[[[[tx o] u]|] b1]| |]; cbn [obind]; [|done..].
  fold (hooks_of u b1). destruct (negb _); [done|]. by destruct (applyTx _ _ _ _ _ _) as [[[[[]]| |] gas] d].
Qed.

Lemma acceptTx_pending b pre tx u u' receipt result dataGas txes h b2 :
  acceptTx b pre tx u receipt result dataGas = Ok b2 -> u = u' ->
  acceptTx (set_pending txes (bs_redeems b) h b) pre tx u' receipt result dataGas =
    Ok (set_pending txes (bs_redeems b2) h b2).
Proof.
  destruct b as [state header left txs redeems complete receipts delta processed hooks d]. intros Ha <-. revert Ha.
  unfold acceptTx, set_pending. cbn [bs_state bs_header bs_blockGasLeft bs_txes bs_redeems bs_complete bs_receipts
    bs_expectedBalanceDelta bs_userTxsProcessed bs_hooks bs_statedb].
  destruct (if is_internal tx then _ else _); [done|]. destruct (_ <? pre); [done|]. cbv zeta.
  destruct (_ <? _) in |- *; [done|]. destruct (logsWithdrawals _) as [w| |]; cbn [obind]; [|done..].
  by intros [= <-].
Qed.

Lemma refreshState_pending b txes h b2 :
  refreshState b = Ok b2 ->
  refreshState (set_pending txes (bs_redeems b) h b) = Ok (set_pending txes (bs_redeems b2) h b2).
Proof.
  unfold refreshState. cbn [set_pending bs_statedb bs_header]. destruct (read _ _) as [state| |]; cbn [obind]; [|done..].
  by intros [= <-].
Qed.

(** A turn that is not of a user reads and writes no hooks. *)
Lemma turn_system l1Info b tx b2 txes h :
  turn l1Info b tx None false = Ok b2 ->
  turn l1Info (set_pending txes (bs_redeems b) h b) tx None false = Ok (set_pending txes (bs_redeems b2) h b2).
Proof.
  unfold turn. change (bs_statedb (set_pending txes (bs_redeems b) h b)) with (bs_statedb b).
  destruct (negb _); [done|].
  change (applyTx (set_pending txes (bs_redeems b) h b) (hooks_of false (set_pending txes (bs_redeems b) h b)) l1Info tx None false)
    with (applyTx b (hooks_of false b) l1Info tx None false).
  destruct (applyTx _ _ _ _ _ _) as [[[[[receipt result] dataGas]|e|m] gas] d]; [| |done].
  - change (set_applied gas d (set_pending txes (bs_redeems b) h b))
      with (set_pending txes (bs_redeems (set_applied gas d b)) h (set_applied gas d b)).
    destruct (is_internal tx).
    + destruct (refreshState (set_applied gas d b)) as [b1| |] eqn:Hr; [|done..]. apply (refreshState_pending _ txes h) in Hr as ->.
      cbn [obind]. intros Ha. by apply (acceptTx_pending _ _ _ _ _ _ _ _ txes h) with (1 := Ha).
    + cbn [obind]. intros Ha. by apply (acceptTx_pending _ _ _ _ _ _ _ _ txes h) with (1 := Ha).
  - destruct (is_internal tx); [by destruct (refreshState (set_applied gas d b))|]. by intros [= <-].
Qed.

Context {BL : BlockHostLaws B}.

(** A transaction that passes the filters of the sequencer passes without them,
    with the same result. *)
Lemma applyTx_noop b hooks l1Info tx options r gas d errs :
  applyTx b hooks l1Info tx options true = (Ok r, gas, d) -> sh_DiscardInvalidTxsEarly hooks = true ->
  applyTx b (noop_hooks errs) l1Info tx None true = (Ok r, gas, d).
Proof using BL.
  unfold applyTx, extraPreTxFilter, extraPostTxFilter. cbn [noop_hooks sh_PreTxFilter sh_PostTxFilter sh_DiscardInvalidTxsEarly].
  intros Ha Hd. rewrite Hd in Ha. destruct ((_ <? TxGas) && true); [done|].
  destruct (Sender _ _ _) as [sender| |]; [|done..]. cbn [obind] in *.
  destruct (sh_PreTxFilter _ _ _ _ _ _ _ _) as [[]| |]; [|done..]. cbn [obind] in *.
  destruct (txDataGas _ _ _ _ _) as [dataGas| |]; [|done..]. cbn [obind] in *.
  destruct (_ <? TxGas); [done|]. cbn [obind] in *. destruct (_ && true && _); [done|].
  destruct (ApplyTransaction _ _ _ _ _ _) as [[[[receipt result]| |] gas'] d'] eqn:E1; [|done..].
  by rewrite (apply_filter _ _ _ _ _ _ _ _ _ _ E1).
Qed.

(** A turn of a user: the transaction is accepted, also in the replay, or it
    leaves an error and nothing else. *)
Lemma turn_user l1Info b tx options b2 :
  turn l1Info b tx options true = Ok b2 -> is_internal tx = false -> sh_DiscardInvalidTxsEarly (bs_hooks b) = true ->
  (exists e, b2 = set_pending (bs_txes b) (bs_redeems b) (add_TxError (Some e) (bs_hooks b)) b) \/
  (bs_hooks b2 = add_TxError None (bs_hooks b) /\ bs_txes b2 = bs_txes b /\
   forall txes errs, turn l1Info (set_pending txes (bs_redeems b) (noop_hooks errs) b) tx None true =
     Ok (set_pending txes (bs_redeems b2) (noop_hooks (errs ++ [None])) b2)).
Proof using BL.
  unfold turn, hooks_of. intros Ht Hi Hd. rewrite Hi, Hd in Ht.
  destruct (negb (GetRefund (bs_statedb b) =? 0)) eqn:Hr; [done|].
  destruct (applyTx b (bs_hooks b) l1Info tx options true) as [[[[[receipt result] dataGas]|e|m] gas] d] eqn:Ha; [| |done].
  - right. cbn [obind] in Ht. pose proof (acceptTx_spec _ _ _ _ _ _ _ _ Ht) as (c & w & _ & _ & Hb2). split_and!; [by subst b2..|].
    intros txes errs. change (bs_statedb (set_pending txes (bs_redeems b) (noop_hooks errs) b)) with (bs_statedb b). rewrite Hr.
    change (applyTx (set_pending txes (bs_redeems b) (noop_hooks errs) b)) with (applyTx b). cbn [set_pending bs_hooks].
    rewrite (applyTx_noop _ _ _ _ _ _ _ _ errs Ha Hd), Hi. cbn [obind].
    apply (acceptTx_pending _ _ _ _ true _ _ _ txes (noop_hooks (errs ++ [None]))) in Ht; [|done]. exact Ht.
  - left. exists e. injection Ht as <-. apply applyTx_err_inv in Ha as [-> ->]. rewrite set_applied_same. by destruct b.
Qed.

(** ** The loop of the replay *)

Lemma set_pending_twice txes redeems h txes' redeems' h' b :
  set_pending txes redeems h (set_pending txes' redeems' h' b) = set_pending txes redeems h b.
Proof. done. Qed.

Lemma set_pending_same b : set_pending (bs_txes b) (bs_redeems b) (bs_hooks b) b = b.
Proof. by destruct b. Qed.

Lemma turn_system_same l1Info b tx b2 :
  turn l1Info b tx None false = Ok b2 -> bs_txes b2 = bs_txes b /\ bs_hooks b2 = bs_hooks b.
Proof.
  intros Ht. pose proof (turn_system _ _ _ _ (bs_txes b) (bs_hooks b) Ht) as Ht'. rewrite set_pending_same, Ht in Ht'.
  injection Ht' as Ht'. rewrite Ht'. done.
Qed.

(** A turn that is not of a user, with the transactions that it takes. *)
Lemma system_turn l1Info b b2 :
  processTx l1Info b = Ok b2 -> bs_redeems b <> [] \/ Exists (fun tx => is_internal tx = true) (take 1 (bs_txes b)) ->
  exists taken, bs_txes b = taken ++ bs_txes b2 /\ Forall (fun tx => is_internal tx = true) taken /\ bs_hooks b2 = bs_hooks b /\
    (taken <> [] \/ bs_redeems b <> []) /\ forall txes h, processTx l1Info (set_pending (taken ++ txes) (bs_redeems b) h b) = Ok (set_pending txes (bs_redeems b2) h b2).
Proof.
  destruct b as [state header left txs redeems complete receipts delta processed hooks d]. rewrite processTx_eq.
  cbn [bs_redeems bs_txes bs_hooks]. destruct redeems as [|r redeems].
  - destruct txs as [|tx txs]; [done|]. intros Hp [|Hs]; [done|]. cbn [take] in Hs. inversion Hs as [? ? Hi|? ? Hi]; [subst|inversion Hi].
    cbn [nextTx] in Hp. rewrite Hi in Hp. cbn [obind] in Hp.
    exists [tx]. destruct (turn_system_same _ _ _ _ Hp) as [Ht Hh]. cbn [bs_txes bs_hooks] in Ht, Hh.
    split_and!; [by rewrite Ht|by constructor|done|by left|]. intros txes h. rewrite processTx_eq. cbn [set_pending app nextTx]. rewrite Hi. cbn [obind].
    exact (turn_system _ _ _ _ txes h Hp).
  - intros Hp _. destruct r as [tx|r]; [done|]. exists []. cbn [nextTx] in Hp.
    destruct (read_or _ _ _) as [ret| |] eqn:Hr; cbn [obind] in Hp; [|done..]. destruct ret as [ret|]; cbn [obind] in Hp.
    + destruct (turn_system_same _ _ _ _ Hp) as [Ht Hh]. cbn [bs_txes bs_hooks] in Ht, Hh. split_and!; [by rewrite Ht|constructor|done|by right|].
      intros txes h. rewrite processTx_eq. cbn [set_pending app nextTx]. cbn. rewrite Hr. cbn [obind].
      exact (turn_system _ _ _ _ txes h Hp).
    + injection Hp as <-. split_and!; [done|constructor|done|by right|].
      intros txes h. rewrite processTx_eq. cbn [set_pending app nextTx]. cbn. by rewrite Hr.
Qed.

Lemma kept_internal taken txes errs : Forall (fun tx => is_internal tx = true) taken -> kept (taken ++ txes) errs = taken ++ kept txes errs.
Proof. induction 1 as [|tx taken Hi _ IH]; [done|]. cbn. by rewrite Hi, IH. Qed.

(** What the turn of a user takes. *)
Lemma user_next l1Info b tx rest b2 :
  processTx l1Info b = Ok b2 -> bs_redeems b = [] -> bs_txes b = tx :: rest -> is_internal tx = false ->
  exists options opts, turn l1Info (set_pending rest [] (set_Options opts (bs_hooks b)) b) tx options true = Ok b2.
Proof.
  intros Hp Hr Ht Hi. rewrite processTx_eq in Hp. destruct (nextTx b) as [[next b1]| |] eqn:Hn; [|done..]. cbn [obind] in Hp.
  apply nextTx_spec in Hn. destruct Hn as [r rest' Hr'|r rest' Hr'|tx' rest' _ Ht' Hi'|tx' rest' options opts _ Ht' Hi']; [congruence..|].
  rewrite Ht in Ht'. injection Ht' as <- <-. by exists options, opts.
Qed.

(** The transactions in the order of the loop, as the replay has them. *)
Definition replayed (l1Info : L1Info) (b b' : BlockState) : Prop :=
  exists errs, sh_TxErrors (bs_hooks b') = sh_TxErrors (bs_hooks b) ++ errs /\
    forall e0, exists e1, block_loop l1Info (set_pending (kept (bs_txes b) errs) (bs_redeems b) (noop_hooks e0) b)
      (Ok (set_pending [] [] (noop_hooks e1) b')).

Lemma kept_cons tx txes errs e : is_internal tx = false ->
  kept (tx :: txes) (e :: errs) = match e with None => tx :: kept txes errs | Some _ => kept txes errs end.
Proof. intros Hi. cbn. rewrite Hi. by destruct e. Qed.

Lemma user_replayed l1Info b b1 b2 tx rest :
  processTx l1Info b = Ok b1 -> bs_redeems b = [] -> bs_txes b = tx :: rest -> is_internal tx = false ->
  sh_DiscardInvalidTxsEarly (bs_hooks b) = true ->
  sh_DiscardInvalidTxsEarly (bs_hooks b1) = true /\ (replayed l1Info b1 b2 -> replayed l1Info b b2).
Proof using BL.
  intros Hp Hr Ht Hi Hd. destruct (user_next _ _ _ _ _ Hp Hr Ht Hi) as (options & opts & Hu).
  destruct (turn_user _ _ _ _ _ Hu Hi Hd) as [[e ->]|(Hh & Ht1 & Hn)].
  - split; [done|]. intros (errs & He & Hl). exists (Some e :: errs). split; [cbn in He; by rewrite He, <- app_assoc|].
    rewrite Ht, kept_cons, Hr by done. exact Hl.
  - split; [by rewrite Hh|]. intros (errs & He & Hl). exists (None :: errs).
    rewrite Hh in He. split; [cbn in He; by rewrite He, <- app_assoc|]. intros e0. destruct (Hl (e0 ++ [None])) as [e1 Hl1].
    exists e1. rewrite Ht, kept_cons, Hr by done. eapply loop_turn; [by left| |exact Hl1].
    rewrite processTx_eq. cbn [set_pending nextTx]. rewrite Hi. cbn [noop_hooks sh_ConditionalOptionsForTx obind].
    rewrite Ht1. exact (Hn _ _).
Qed.

Lemma system_replayed l1Info b b1 b2 :
  processTx l1Info b = Ok b1 -> bs_redeems b <> [] \/ Exists (fun tx => is_internal tx = true) (take 1 (bs_txes b)) ->
  bs_hooks b1 = bs_hooks b /\ (replayed l1Info b1 b2 -> replayed l1Info b b2).
Proof.
  intros Hp Hs. destruct (system_turn _ _ _ Hp Hs) as (taken & Ht & Hi & Hh & Hne & Hr). split; [done|].
  intros (errs & He & Hl). exists errs. split; [by rewrite He, Hh|]. intros e0. destruct (Hl e0) as [e1 Hl1]. exists e1.
  rewrite Ht, kept_internal by done. eapply loop_turn; [|apply Hr|exact Hl1].
  cbn [set_pending bs_txes bs_redeems]. destruct Hne as [Hne|]; [left; by destruct taken|by right].
Qed.

Lemma block_loop_replayed l1Info b r : block_loop l1Info b r -> sh_DiscardInvalidTxsEarly (bs_hooks b) = true ->
  match r with Ok b' => replayed l1Info b b' | _ => True end.
Proof using BL.
  intros Hr. induction Hr as [b H1 H2|b e _ _|b m _ _|b b1 r Hne Hs _ IH]; try done; intros Hd.
  - exists []. split; [by rewrite app_nil_r|]. intros e0. exists e0. rewrite H1, H2. by apply loop_done.
  - destruct r as [b2| |]; [|done..].
    destruct (bs_redeems b) eqn:Er, (bs_txes b) as [|tx rest] eqn:Et; [tauto| |..].
    1: destruct (is_internal tx) eqn:Hi.
    2: destruct (user_replayed _ _ _ b2 _ _ Hs Er Et Hi Hd) as [Hd1 Hrep]; by apply Hrep, IH.
    all: destruct (system_replayed _ _ _ b2 Hs) as [Hh Hrep]; [|apply Hrep, IH; by rewrite Hh].
    1: right; rewrite Et; cbn [take]; by constructor.
    all: left; by rewrite Er.
Qed.

Lemma kept_signed txes errs :
  kept ((fun tx => BT_Message (Tx_Signed tx)) <$> txes) errs = BT_Message <$> map Tx_Signed (included txes errs).
Proof.
  revert errs. induction txes as [|tx txes IH]; intros [|[e|] errs]; try done; [apply IH|]. cbn. f_equal. apply IH.
Qed.

Lemma users_signed (txes : list GethTx) : users ((fun tx => BT_Message (Tx_Signed tx)) <$> txes) = (fun tx => BT_Message (Tx_Signed tx)) <$> txes.
Proof. induction txes as [|tx txes IH]; [done|]. rewrite fmap_cons, filter_cons_True by done. by rewrite IH. Qed.
End Replay.

(** C3: the block that the sequencer produces from the transactions of users is
    the block of every node. The message is made of the transactions and the
    errors that the production of the block left; parsed and executed without the
    filters and the early discards of the sequencer, it gives the same header,
    transactions, receipts and state. This is for hooks that discard invalid
    transactions early, included transactions whose encodings decode to them, and
    a message that is not larger than the limit of the parser. *)
Theorem sequenced_block_replays {E : Env} {T : TxEnv} {G : GethTxs} {ABI : InternalTxAbi} {B : BlockHost} {BL : BlockHostLaws B}
    header txes n last d cfg hooks block receipts hooks' d' fetcher :
  ProduceBlockAdvanced header ((fun tx => BT_Message (Tx_Signed tx)) <$> txes) n last d cfg hooks = Ok (block, receipts, hooks', d') ->
  sh_TxErrors hooks = [] -> sh_DiscardInvalidTxsEarly hooks = true ->
  h_Kind header = L1MessageType_L2Message -> Forall tx_ok (included txes (sh_TxErrors hooks')) ->
  exists msg, messageFromTxes header txes (sh_TxErrors hooks') = Ok msg /\ msg_Header msg = header /\
    (Z.of_nat (length (msg_L2msg msg)) <= MaxL2MessageSize ->
     exists errs, ProduceBlock msg n last d cfg fetcher = Ok (block, receipts, noop_hooks errs, d')).
Proof.
  rewrite ProduceBlockAdvanced_spec. intros (prev & state & hdr & left & startTx & b & -> & Hstart & Hl & Hend) He Hd Hk Hok.
  pose proof Hstart as (_ & _ & _ & _ & tx & -> & _). pose proof Hend as (hdr' & _ & _ & _ & _ & _ & _ & ->).
  pose proof (block_loop_replayed _ _ _ Hl Hd) as (errs & He1 & Hrep).
  pose proof (block_loop_errors _ _ _ Hl) as (errs' & He2 & Hlen & _); [constructor; [done|apply Forall_fmap, list.Forall_true; done]|].
  cbn [bs_hooks bs_txes bs_redeems] in *. rewrite He in He1, He2. cbn [app] in He1, He2. rewrite He1 in He2, Hok. subst errs'.
  rewrite filter_cons_False, users_signed, length_fmap in Hlen by done. rewrite He1.
  destruct (messageFromTxes_parsed header txes errs (cc_ChainID (bcfg_Chain cfg))
    (Some (fun batchNum batchHash => fst (fetchBatch fetcher batchNum batchHash))) Hk Hlen Hok) as (msg & Hm & Hh & Hparse).
  exists msg. split_and!; [done..|]. intros Hsize. destruct (Hrep []) as [e1 Hl1]. exists e1.
  unfold ProduceBlock. rewrite (Hparse Hsize). unfold batchFetchErr. rewrite Hh, Hk.
  change (L1MessageType_L2Message =? L1MessageType_BatchPostingReport) with false. rewrite andb_false_r. cbn [obind].
  rewrite ProduceBlockAdvanced_spec. eexists prev, state, hdr, left, _, _. split_and!; [done|exact Hstart| |].
  - change (kept (BT_Message (Tx_Internal tx) :: ?l) errs) with (BT_Message (Tx_Internal tx) :: kept l errs) in Hl1.
    rewrite kept_signed in Hl1. exact Hl1.
  - destruct Hend as (hdr2 & H1 & H2 & H3 & H4 & H5 & H6 & _). exists hdr2. by split_and!.
Qed.

(** ** Example *)

#[local] Existing Instance TestEnv.
#[local] Existing Instance TxProcessorFacts.example_txs.
#[local] Existing Instance ParseL2.example_txs.
#[local] Existing Instance example_abi.
#[local] Existing Instance example_block_host.
#[local] Existing Instance example_block_laws.

(** The second transaction fails; the third schedules a redeem. *)
Definition example_raw : list (@GethTx ParseL2.example_txs) := [[2; 8]; [2; 9]; [2; 7]].

Lemma example_sequenced : exists block receipts hooks d,
  ProduceBlockAdvanced (example_header 3) ((fun tx => BT_Message (Tx_Signed tx)) <$> example_raw) 1 (Some example_last) example_chain
    example_config example_hooks = Ok (block, receipts, hooks, d) /\
  sh_TxErrors hooks = [None; Some (ErrNew "nonce too low"); None].
Proof.
  assert (Hb : (let? (block, receipts, hooks, d) :=
      ProduceBlockAdvanced (example_header 3) ((fun tx => BT_Message (Tx_Signed tx)) <$> example_raw) 1 (Some example_last) example_chain
        example_config example_hooks in
      Ok (sh_TxErrors hooks)) = Ok [None; Some (ErrNew "nonce too low"); None])
    by (vm_compute; reflexivity).
  destruct (ProduceBlockAdvanced _ _ _ _ _ _ _) as [[[[block receipts] hooks] d]| |]; [|discriminate Hb..].
  injection Hb as He. by exists block, receipts, hooks, d.
Qed.

Lemma sequenced_block_replays_witness : exists block receipts hooks d msg errs,
  ProduceBlockAdvanced (example_header 3) ((fun tx => BT_Message (Tx_Signed tx)) <$> example_raw) 1 (Some example_last) example_chain
    example_config example_hooks = Ok (block, receipts, hooks, d) /\
  messageFromTxes (example_header 3) example_raw [None; Some (ErrNew "nonce too low"); None] = Ok msg /\
  ProduceBlock msg 1 (Some example_last) example_chain example_config (fun _ => inl []) = Ok (block, receipts, noop_hooks errs, d).
Proof.
  destruct example_sequenced as (block & receipts & hooks & d & Hb & He).
  destruct (sequenced_block_replays (example_header 3) example_raw 1 (Some example_last) example_chain example_config example_hooks
    block receipts hooks d (fun _ => inl []) Hb) as (msg & Hm & _ & Hr); [reflexivity..| |].
  - rewrite He. constructor; [|constructor; [|constructor]]; eexists; (split; [reflexivity|]); (split; [reflexivity|]);
      (split; [apply example_bytes; reflexivity|vm_compute; intuition congruence]).
  - rewrite He in Hm. destruct Hr as [errs Hr]; [|exists block, receipts, hooks, d, msg, errs; split; [exact Hb|]; split; [exact Hm|exact Hr]].
    vm_compute in Hm. injection Hm as <-. vm_compute. discriminate.
Defined.
