(* ===== verification/BlockRecorder.v ===== *)
(** * execution/gethexec/block_recorder.go: recording blocks for validation

    The recorder keeps references on the states of headers in a recording
    database: on the most advanced header it computed, on a header known to be
    valid and a candidate for it, and on a queue of headers that were prepared.
    The database and the block chain are go-ethereum's, the classes [RecordingDB]
    and [BlockChain]. Message numbers and block numbers differ by the number of
    the genesis block. The locks of the three parts only order the operations,
    which are given here one after the other; logs are left out.

    What is proved: the references in the database are exactly those that the
    recorder holds, whatever it does until it is shut down, so that none is leaked
    and none is given back twice. *)
From Stdlib Require Import ZArith Lia String List.
From stdpp Require Import base list numbers.
From S2P Require Import Prelude Arbmath Host Storage MemEnv L2Pricing L1Pricing IncomingMessage ArbosState InternalTx ParseL2 TxProcessor TxProcessorFacts Inbox BlockProcessor BlockFacts.
Open Scope Z_scope.

Class BlockChain {E : Env} {T : TxEnv} {G : GethTxs} {B : BlockHost} := {
  BC : Type;
  bc_Config : BlockConfig;
  GetHeaderByNumber : BC -> Z -> option BlockHeader;
  GetCanonicalHash : BC -> Z -> Z
}.

(** The calls that get a state return an error, or [None] and keep a reference. *)
Class RecordingDB {E : Env} := {
  RDB : Type;
  Preimages : Type;
  PrepareRecording : RDB -> option BlockHeader -> outcome DB * RDB;
  StateFor : RDB -> BlockHeader -> option error * RDB;
  GetOrRecreateState : RDB -> BlockHeader -> option error * RDB;
  Dereference : RDB -> option BlockHeader -> RDB;
  PreimagesFromRecording : RDB -> DB -> outcome Preimages;
  WriteStateToDatabase : RDB -> BlockHeader -> option error;
  DB_UserWasms : DB -> list Z
}.

Section Types.
Context {E : Env} {R : RecordingDB}.

Record BlockRecorder := mkBlockRecorder {
  br_recordingDatabase : RDB;
  br_lastHdr : option BlockHeader;
  br_validHdrCandidate : option BlockHeader;
  br_validHdr : option BlockHeader;
  br_preparedQueue : list BlockHeader
}.

Record BatchInfo := mkBatchInfo { bi_Number : Z; bi_BlockHash : Z; bi_Data : list Z }.

Record RecordResult := mkRecordResult {
  rr_Pos : Z;
  rr_BlockHash : Z;
  rr_Preimages : Preimages;
  rr_BatchInfo : list BatchInfo;
  rr_UserWasms : list Z
}.
End Types.

Section Recorder.
Context {E : Env} {T : TxEnv} {G : GethTxs} {ABI : InternalTxAbi} {B : BlockHost} {CH : BlockChain} {R : RecordingDB}.

Definition GetGenesisBlockNumber : Z := cc_GenesisBlockNum (bcfg_Chain bc_Config).

Definition MessageIndexToBlockNumber (messageNum : Z) : Z := messageNum +u64 GetGenesisBlockNumber.

Definition set_rdb (rdb : RDB) (r : BlockRecorder) : BlockRecorder :=
  mkBlockRecorder rdb (br_lastHdr r) (br_validHdrCandidate r) (br_validHdr r) (br_preparedQueue r).

Definition updateLastHdr (hdr : option BlockHeader) (r : BlockRecorder) : BlockRecorder :=
  let '(mkBlockRecorder rdb lastHdr candidate valid queue) := r in
  match hdr with
  | None => r
  | Some h =>
      if match lastHdr with Some l => bh_Number h <=? bh_Number l | None => false end then r
      else
        match StateFor rdb h with
        | (None, rdb) => mkBlockRecorder (Dereference rdb lastHdr) hdr candidate valid queue
        | (Some _, rdb) => mkBlockRecorder rdb lastHdr candidate valid queue
        end
  end.

Definition updateValidCandidateHdr (hdr : option BlockHeader) (r : BlockRecorder) : BlockRecorder :=
  let '(mkBlockRecorder rdb lastHdr candidate valid queue) := r in
  match hdr with
  | None => r
  | Some h =>
      if match candidate with Some c => bh_Number c <=? bh_Number h | None => false end then r
      else if match valid with Some v => bh_Number h <=? bh_Number v | None => false end then r
      else
        match StateFor rdb h with
        | (None, rdb) =>
            let rdb := match candidate with Some _ => Dereference rdb candidate | None => rdb end in
            mkBlockRecorder rdb lastHdr hdr valid queue
        | (Some _, rdb) => mkBlockRecorder rdb lastHdr candidate valid queue
        end
  end.

Definition MarkValid (bc : BC) (pos resultHash : Z) (r : BlockRecorder) : BlockRecorder :=
  let '(mkBlockRecorder rdb lastHdr candidate valid queue) := r in
  match candidate with
  | None => r
  | Some c =>
      let validNum := MessageIndexToBlockNumber pos in
      if validNum <? u64 (bh_Number c) then r
      else if negb (GetCanonicalHash bc validNum =? resultHash) then r
      else if negb (GetCanonicalHash bc (u64 (bh_Number c)) =? Header_Hash c) then
        mkBlockRecorder (Dereference rdb candidate) lastHdr None valid queue
      else mkBlockRecorder (Dereference rdb valid) lastHdr None candidate queue
  end.

Definition dereferenceAll (refs : list BlockHeader) (rdb : RDB) : RDB :=
  fold_left (fun rdb ref => Dereference rdb (Some ref)) refs rdb.

Definition preparedAddTrim (newRefs : list BlockHeader) (size : nat) (r : BlockRecorder) : BlockRecorder :=
  let queue := br_preparedQueue r ++ newRefs in
  let '(oldRefs, queue) :=
    if (size <? length queue)%nat then (take (length queue - size) queue, drop (length queue - size) queue) else ([], queue) in
  mkBlockRecorder (dereferenceAll oldRefs (br_recordingDatabase r)) (br_lastHdr r) (br_validHdrCandidate r) (br_validHdr r) queue.

Definition preparedTrimBeyond (hdr : BlockHeader) (r : BlockRecorder) : BlockRecorder :=
  let beyond h := bh_Number hdr <? bh_Number h in
  let oldRefs := List.filter beyond (br_preparedQueue r) in
  let validRefs := List.filter (fun h => negb (beyond h)) (br_preparedQueue r) in
  mkBlockRecorder (dereferenceAll oldRefs (br_recordingDatabase r)) (br_lastHdr r) (br_validHdrCandidate r) (br_validHdr r) validRefs.

(** The loop of [PrepareForRecord], over the numbers that are left. *)
Fixpoint prepare_loop (bc : BC) (fuel : nat) (hdrNum : Z) (references : list BlockHeader) (r : BlockRecorder)
    : list BlockHeader * BlockRecorder :=
  match fuel with
  | O => (references, r)
  | S fuel =>
      match GetHeaderByNumber bc hdrNum with
      | None => (references, r)
      | Some header =>
          match GetOrRecreateState (br_recordingDatabase r) header with
          | (None, rdb) =>
              let r := updateValidCandidateHdr (Some header) (set_rdb rdb r) in
              let r := updateLastHdr (Some header) r in
              prepare_loop bc fuel (hdrNum +u64 1) (references ++ [header]) r
          | (Some _, rdb) => (references, set_rdb rdb r)
          end
      end
  end.

(** The loop ends after [lastHdrNum - hdrNum + 1] headers; it would not end if
    [lastHdrNum] were the last integer of 64 bits. *)
Definition PrepareForRecord (bc : BC) (start end_ : Z) (r : BlockRecorder) : outcome unit * BlockRecorder :=
  if end_ <? start then (Err (ErrNew "illegal range start > end"), r)
  else
    let numOfBlocks := (end_ +u64 1) -u64 start in
    let hdrNum := MessageIndexToBlockNumber start in
    let '(hdrNum, numOfBlocks) := if 0 <? start then (hdrNum -u64 1, numOfBlocks) else (hdrNum, numOfBlocks -u64 1) in
    let lastHdrNum := hdrNum +u64 numOfBlocks in
    let '(references, r) := prepare_loop bc (Z.to_nat (lastHdrNum - hdrNum + 1)) hdrNum [] r in
    (Ok tt, preparedAddTrim references 1000 r).

Definition Recorder_ReorgTo (hdr : BlockHeader) (r : BlockRecorder) : BlockRecorder :=
  let beyond h := match h with Some h => bh_Number hdr <? bh_Number h | None => false end in
  let '(mkBlockRecorder rdb lastHdr candidate valid queue) := r in
  let '(rdb, valid) := if beyond valid then (Dereference rdb valid, None) else (rdb, valid) in
  let '(rdb, candidate) := if beyond candidate then (Dereference rdb candidate, None) else (rdb, candidate) in
  let '(rdb, lastHdr) := if beyond lastHdr then (Dereference rdb lastHdr, None) else (rdb, lastHdr) in
  preparedTrimBeyond hdr (mkBlockRecorder rdb lastHdr candidate valid queue).

(** The reference is given back but the header is kept. *)
Definition WriteValidStateToDb (r : BlockRecorder) : option error * BlockRecorder :=
  match br_validHdr r with
  | None => (None, r)
  | Some valid =>
      (WriteStateToDatabase (br_recordingDatabase r) valid, set_rdb (Dereference (br_recordingDatabase r) (Some valid)) r)
  end.

(** The checks of the chain id and the genesis in the state that is recorded. *)
Definition check_recorded (recordingdb : DB) : outcome unit :=
  let? state :=
    match read OpenArbosState recordingdb with Err e => Err (ErrWrap "error opening initial ArbOS state" e) | o => o end in
  let? chainId :=
    match read (ChainId state) recordingdb with Err e => Err (ErrWrap "error getting chain ID from initial ArbOS state" e) | o => o end in
  if negb (chainId =? cc_ChainID (bcfg_Chain bc_Config)) then Err (ErrNew "unexpected chain ID in ArbOS state")
  else
    let? genesisNum :=
      match read (GenesisBlockNum state) recordingdb with
      | Err e => Err (ErrWrap "error getting genesis block number from initial ArbOS state" e) | o => o end in
    let? _ :=
      match read (ChainConfig_ state) recordingdb with
      | Err e => Err (ErrWrap "error getting chain config from initial ArbOS state" e) | o => o end in
    if negb (genesisNum =? GetGenesisBlockNumber) then Err (ErrNew "unexpected genesis block number in ArbOS state") else Ok tt.

(** The closure that fetches batches, and what it adds to [readBatchInfo]: the
    parser calls it once at most, for the batch of a batch posting report. *)
Definition recorded_fetcher (fetchBatch : Z -> list Z * Z + error) (batchNum : Z) : list Z + error :=
  match fetchBatch batchNum with inl (data, _) => inl data | inr e => inr e end.

Definition readBatchInfo (fetchBatch : Z -> list Z * Z + error) (msg : L1IncomingMessage) : list BatchInfo :=
  if (Z.of_nat (length (msg_L2msg msg)) <=? MaxL2MessageSize) && (h_Kind (msg_Header msg) =? L1MessageType_BatchPostingReport) then
    match ParseBatchPostingReportMessageFields (msg_L2msg msg) with
    | Ok report =>
        match fetchBatch (rep_batchNum report) with
        | inl (data, blockHash) => [mkBatchInfo (rep_batchNum report) blockHash data]
        | inr _ => []
        end
    | _ => []
    end
  else [].

(** The block of a message on the state before it; the cached cost of the batch
    is dropped. *)
Definition record_block (fetchBatch : Z -> list Z * Z + error) (msg : MessageWithMetadata) (prevHeader : option BlockHeader)
    (recordingdb : DB) : outcome (Z * list BatchInfo * DB) :=
  let message := mkL1IncomingMessage (msg_Header (mm_Message msg)) (msg_L2msg (mm_Message msg)) None in
  let? (block, _, _, recordingdb) :=
    ProduceBlock message (mm_DelayedMessagesRead msg) prevHeader recordingdb bc_Config (recorded_fetcher fetchBatch) in
  Ok (Header_Hash (blk_header block), readBatchInfo fetchBatch message, recordingdb).

(** What is done after [PrepareRecording], before the reference is given back. *)
Definition record_prepared (bc : BC) (fetchBatch : Z -> list Z * Z + error) (pos : Z) (msg : option MessageWithMetadata)
    (prevHeader : option BlockHeader) (recordingdb : DB) (r : BlockRecorder) : outcome RecordResult * BlockRecorder :=
  let recorded :=
    let? _ := match prevHeader with Some _ => check_recorded recordingdb | None => Ok tt end in
    let? (blockHash, batchInfo, recordingdb) :=
      match msg with
      | Some msg => record_block fetchBatch msg prevHeader recordingdb
      | None => Ok (0, [], recordingdb)
      end in
    let? preimages := PreimagesFromRecording (br_recordingDatabase r) recordingdb in
    if negb (GetCanonicalHash bc (MessageIndexToBlockNumber pos) =? blockHash)
    then Err (ErrNew "Blockhash doesn't match when recording")
    else Ok (mkRecordResult pos blockHash preimages batchInfo (DB_UserWasms recordingdb)) in
  match recorded with
  | Ok result => (Ok result, updateValidCandidateHdr prevHeader (updateLastHdr prevHeader r))
  | Err e => (Err e, r)
  | Panic m => (Panic m, r)
  end.

Definition RecordBlockCreation (bc : BC) (fetchBatch : Z -> list Z * Z + error) (pos : Z) (msg : option MessageWithMetadata)
    (r : BlockRecorder) : outcome RecordResult * BlockRecorder :=
  let blockNum := MessageIndexToBlockNumber pos in
  let prevHeader :=
    if negb (pos =? 0) then
      match GetHeaderByNumber bc (blockNum -u64 1) with
      | None => Err (ErrNew "prevHeader not found")
      | Some h => Ok (Some h)
      end
    else Ok None in
  match prevHeader with
  | Err e => (Err e, r)
  | Panic m => (Panic m, r)
  | Ok prevHeader =>
      match PrepareRecording (br_recordingDatabase r) prevHeader with
      | (Ok recordingdb, rdb) =>
          let '(result, r) := record_prepared bc fetchBatch pos msg prevHeader recordingdb (set_rdb rdb r) in
          (result, set_rdb (Dereference (br_recordingDatabase r) prevHeader) r)
      | (Err e, rdb) => (Err e, set_rdb rdb r)
      | (Panic m, rdb) => (Panic m, set_rdb rdb r)
      end
  end.
End Recorder.

(** ** References *)

(** The references on the state of a root that a header stands for. *)
Definition held (h : option BlockHeader) (root : Z) : Z :=
  match h with Some h => if bh_Root h =? root then 1 else 0 | None => 0 end.

Definition held_all (hs : list BlockHeader) (root : Z) : Z := foldr (fun h n => held (Some h) root + n) 0 hs.

Lemma held_all_app l1 l2 root : held_all (l1 ++ l2) root = held_all l1 root + held_all l2 root.
Proof. unfold held_all. induction l1 as [|h l1 IH]; [done|]. cbn [app foldr]. lia. Qed.

(** A call that gets a state adds a reference on it, unless it fails;
    [Dereference] gives one back, and none for a nil header. *)
Class RecordingDBLaws {E : Env} (R : RecordingDB) := {
  refs : RDB -> Z -> Z;
  prepare_refs rdb h root :
    refs (PrepareRecording rdb h).2 root = refs rdb root + match (PrepareRecording rdb h).1 with Ok _ => held h root | _ => 0 end;
  state_refs rdb h root :
    refs (StateFor rdb h).2 root = refs rdb root + match (StateFor rdb h).1 with None => held (Some h) root | Some _ => 0 end;
  recreate_refs rdb h root :
    refs (GetOrRecreateState rdb h).2 root =
      refs rdb root + match (GetOrRecreateState rdb h).1 with None => held (Some h) root | Some _ => 0 end;
  dereference_refs rdb h root : refs (Dereference rdb h) root = refs rdb root - held h root
}.

Section References.
Context {E : Env} {T : TxEnv} {G : GethTxs} {ABI : InternalTxAbi} {B : BlockHost} {CH : BlockChain} {R : RecordingDB} {RL : RecordingDBLaws R}.

(** What the recorder holds. *)
Definition owned (r : BlockRecorder) (root : Z) : Z :=
  held (br_lastHdr r) root + held (br_validHdrCandidate r) root + held (br_validHdr r) root + held_all (br_preparedQueue r) root.

(** The references beyond those that the recorder holds. *)
Definition excess (r : BlockRecorder) (root : Z) : Z := refs (br_recordingDatabase r) root - owned r root.

Ltac recorder := unfold excess, owned; cbn [br_recordingDatabase br_lastHdr br_validHdrCandidate br_validHdr br_preparedQueue set_rdb].

Lemma updateLastHdr_excess hdr r root : excess (updateLastHdr hdr r) root = excess r root.
Proof using RL.
  destruct r as [rdb lst candidate valid queue], hdr as [h|]; [|done]. unfold updateLastHdr.
  destruct (match lst with Some l => _ | None => _ end); [done|]. pose proof (state_refs rdb h root) as Hs.
  destruct (StateFor rdb h) as [[e|] rdb']; cbn [fst snd] in Hs; recorder; rewrite ?dereference_refs; lia.
Qed.

Lemma updateValidCandidateHdr_excess hdr r root : excess (updateValidCandidateHdr hdr r) root = excess r root.
Proof using RL.
  destruct r as [rdb lst candidate valid queue], hdr as [h|]; [|done]. unfold updateValidCandidateHdr.
  destruct (match candidate with Some l => _ | None => _ end); [done|]. destruct (match valid with Some l => _ | None => _ end); [done|].
  pose proof (state_refs rdb h root) as Hs.
  destruct (StateFor rdb h) as [[e|] rdb']; cbn [fst snd] in Hs; destruct candidate as [c|]; recorder; rewrite ?dereference_refs; cbn [held] in *; lia.
Qed.

Lemma MarkValid_excess bc pos hash r root : excess (MarkValid bc pos hash r) root = excess r root.
Proof using RL.
  destruct r as [rdb lst [c|] valid queue]; [|done]. unfold MarkValid. destruct (_ <? _); [done|]. destruct (negb _); [done|].
  destruct (negb _); recorder; rewrite dereference_refs; cbn [held]; lia.
Qed.

Lemma dereferenceAll_refs hs rdb root : refs (dereferenceAll hs rdb) root = refs rdb root - held_all hs root.
Proof using RL.
  unfold dereferenceAll. revert rdb. induction hs as [|h hs IH]; intros rdb; cbn [fold_left held_all foldr]; [lia|].
  rewrite IH, dereference_refs. unfold held_all. lia.
Qed.

Lemma preparedAddTrim_excess new size r root : excess (preparedAddTrim new size r) root = excess r root - held_all new root.
Proof using RL.
  unfold preparedAddTrim. set (queue := br_preparedQueue r ++ new).
  assert (Hq : held_all queue root = held_all (br_preparedQueue r) root + held_all new root) by apply held_all_app.
  destruct (_ <? _)%nat; recorder; rewrite dereferenceAll_refs; [|cbn [held_all foldr]; lia].
  pose proof (held_all_app (take (length queue - size) queue) (drop (length queue - size) queue) root) as Hs.
  rewrite take_drop in Hs. lia.
Qed.

Lemma preparedTrimBeyond_excess hdr r root : excess (preparedTrimBeyond hdr r) root = excess r root.
Proof using RL.
  unfold preparedTrimBeyond. recorder. rewrite dereferenceAll_refs.
  assert (Hf : forall (f : BlockHeader -> bool) l,
    held_all l root = held_all (List.filter f l) root + held_all (List.filter (fun h => negb (f h)) l) root); [|rewrite (Hf (fun h => bh_Number hdr <? bh_Number h) (br_preparedQueue r)); lia].
  intros f l. unfold held_all. induction l as [|h l IH]; [done|]. cbn [List.filter foldr]. destruct (f h); cbn [negb foldr]; lia.
Qed.

Lemma Recorder_ReorgTo_excess hdr r root : excess (Recorder_ReorgTo hdr r) root = excess r root.
Proof using RL.
  destruct r as [rdb lst candidate valid queue]. unfold Recorder_ReorgTo.
  destruct (match valid with Some _ => _ | None => _ end), (match candidate with Some _ => _ | None => _ end),
    (match lst with Some _ => _ | None => _ end); rewrite preparedTrimBeyond_excess; recorder;
    rewrite ?dereference_refs; cbn [held]; lia.
Qed.

Lemma prepare_loop_excess bc fuel n hs r root :
  excess (prepare_loop bc fuel n hs r).2 root - held_all (prepare_loop bc fuel n hs r).1 root = excess r root - held_all hs root.
Proof using RL.
  revert n hs r. induction fuel as [|fuel IH]; intros n hs r; [done|]. cbn [prepare_loop].
  destruct (GetHeaderByNumber bc n) as [h|]; [|done]. pose proof (recreate_refs (br_recordingDatabase r) h root) as Hs.
  destruct (GetOrRecreateState _ h) as [[e|] rdb']; cbn [fst snd] in *.
  - recorder. lia.
  - rewrite IH, updateLastHdr_excess, updateValidCandidateHdr_excess, held_all_app. recorder. cbn [held_all foldr] in *. lia.
Qed.

Lemma PrepareForRecord_excess bc start end_ r root : excess (PrepareForRecord bc start end_ r).2 root = excess r root.
Proof using RL.
  unfold PrepareForRecord. destruct (_ <? _); [done|]. destruct (if 0 <? start then _ else _) as [n k].
  pose proof (prepare_loop_excess bc (Z.to_nat (n +u64 k - n + 1)) n [] r root) as Hp.
  destruct (prepare_loop _ _ _ _ _) as [hs r']. cbn [fst snd] in *. rewrite preparedAddTrim_excess. cbn [held_all foldr] in Hp. lia.
Qed.

Lemma RecordBlockCreation_excess bc fetch pos msg r root : excess (RecordBlockCreation bc fetch pos msg r).2 root = excess r root.
Proof using RL.
  unfold RecordBlockCreation. destruct (if negb (pos =? 0) then _ else _) as [prev| |]; [|done..].
  pose proof (prepare_refs (br_recordingDatabase r) prev root) as Hs.
  destruct (PrepareRecording _ prev) as [[recordingdb| |] rdb']; cbn [fst snd] in *; [|recorder; lia..].
  assert (Hr : excess (record_prepared bc fetch pos msg prev recordingdb (set_rdb rdb' r)).2 root = excess r root + held prev root).
  { unfold record_prepared. destruct (obind _ _); cbn [snd]; rewrite ?updateValidCandidateHdr_excess, ?updateLastHdr_excess; recorder; lia. }
  destruct (record_prepared _ _ _ _ _ _ _) as [result r']. cbn [snd] in *. revert Hr. recorder. rewrite dereference_refs. lia.
Qed.
End References.

(** ** Operations in any order *)

Section Claims.
Context {E : Env} {T : TxEnv} {G : GethTxs} {ABI : InternalTxAbi} {B : BlockHost} {CH : BlockChain} {R : RecordingDB}.

Inductive recorder_op :=
| Op_RecordBlockCreation (bc : BC) (fetchBatch : Z -> list Z * Z + error) (pos : Z) (msg : option MessageWithMetadata)
| Op_PrepareForRecord (bc : BC) (start end_ : Z)
| Op_MarkValid (bc : BC) (pos resultHash : Z)
| Op_ReorgTo (hdr : BlockHeader)
| Op_TrimAllPrepared.

Definition recorder_run (op : recorder_op) (r : BlockRecorder) : BlockRecorder :=
  match op with
  | Op_RecordBlockCreation bc fetchBatch pos msg => (RecordBlockCreation bc fetchBatch pos msg r).2
  | Op_PrepareForRecord bc start end_ => (PrepareForRecord bc start end_ r).2
  | Op_MarkValid bc pos resultHash => MarkValid bc pos resultHash r
  | Op_ReorgTo hdr => Recorder_ReorgTo hdr r
  | Op_TrimAllPrepared => preparedAddTrim [] 0 r
  end.

Definition recorder_runs (ops : list recorder_op) (r : BlockRecorder) : BlockRecorder := fold_left (fun r op => recorder_run op r) ops r.
End Claims.

(** C25: whatever the recorder is asked to do, and whatever of it fails, the
    references in the recording database are those that the recorder holds: on
    the last header, the valid header and its candidate, and the headers that
    were prepared. No reference is leaked, and none is given back twice. At the
    shutdown, when the valid state is written to the database, the reference on
    the valid header is given back, too, although the header is kept. *)
Theorem BlockRecorder_references {E : Env} {T : TxEnv} {G : GethTxs} {ABI : InternalTxAbi} {B : BlockHost} {CH : BlockChain}
    {R : RecordingDB} {RL : RecordingDBLaws R} (ops : list recorder_op) (r : BlockRecorder) :
  (forall root, refs (br_recordingDatabase r) root = owned r root) ->
  forall root (r' := recorder_runs ops r),
    refs (br_recordingDatabase r') root = owned r' root /\
    refs (br_recordingDatabase (WriteValidStateToDb r').2) root = owned r' root - held (br_validHdr r') root.
Proof.
  intros Hr root r'. assert (refs (br_recordingDatabase r') root = owned r' root) as Hr'.
  2: { split; [done|]. unfold WriteValidStateToDb. destruct (br_validHdr r') as [v|] eqn:Ev; cbn [snd set_rdb br_recordingDatabase];
    rewrite ?dereference_refs, Hr'; cbn [held]; lia. }
  subst r'. assert (He : excess (recorder_runs ops r) root = excess r root).
  { clear Hr. unfold recorder_runs. revert r. induction ops as [|op ops IH]; intros r; [done|]. cbn [fold_left]. rewrite IH.
    destruct op; cbn [recorder_run].
    - apply RecordBlockCreation_excess.
    - apply PrepareForRecord_excess.
    - apply MarkValid_excess.
    - apply Recorder_ReorgTo_excess.
    - rewrite preparedAddTrim_excess. cbn. lia. }
  unfold excess in He. specialize (Hr root). lia.
Qed.

(** ** Example *)

#[local] Existing Instance TestEnv.
#[local] Existing Instance TxProcessorFacts.example_txs.
#[local] Existing Instance ParseL2.example_txs.
#[local] Existing Instance example_abi.
#[local] Existing Instance example_block_host.

Definition example_block_header (n : Z) : BlockHeader :=
  mkBlockHeader (n - 1) 0 n 1 n GethBlockGasLimit 0 100 (replicate 32 0) 11 (replicate 8 0) 0.

(** A chain of headers with the numbers from 1 to the length of the chain. *)
#[local] Instance example_block_chain : BlockChain := {|
  BC := Z;
  bc_Config := BlockFacts.example_config;
  GetHeaderByNumber := fun n i => if (0 <? i) && (i <=? n) then Some (example_block_header i) else None;
  GetCanonicalHash := fun n i => i
|}.

(** A database that counts the references; the state of number 7 is missing. *)
#[local] Instance example_recording : RecordingDB := {|
  RDB := Z -> Z;
  Preimages := unit;
  PrepareRecording := fun rdb h => (Ok example_chain, fun root => rdb root + held h root);
  StateFor := fun rdb h => if bh_Root h =? 7 then (Some (ErrNew "missing"), rdb) else (None, fun root => rdb root + held (Some h) root);
  GetOrRecreateState := fun rdb h =>
    if bh_Root h =? 7 then (Some (ErrNew "missing"), rdb) else (None, fun root => rdb root + held (Some h) root);
  Dereference := fun rdb h root => rdb root - held h root;
  PreimagesFromRecording := fun _ _ => Ok tt;
  WriteStateToDatabase := fun _ _ => None;
  DB_UserWasms := fun _ => []
|}.

#[local] Instance example_recording_laws : RecordingDBLaws example_recording.
Proof.
  refine {| refs := fun (rdb : @RDB _ example_recording) root => rdb root |}; [done| | |done];
    (intros rdb h root; cbn; destruct (bh_Root h =? 7); cbn; lia).
Defined.

Definition example_ops : list recorder_op :=
  [Op_PrepareForRecord (8 : Z) 3 9; Op_RecordBlockCreation (8 : Z) (fun _ => inr (ErrNew "not found")) 5 None; Op_MarkValid (8 : Z) 4 4;
   Op_PrepareForRecord (8 : Z) 5 6; Op_ReorgTo (example_block_header 5)].

Definition example_recorder : BlockRecorder := @mkBlockRecorder _ example_recording (fun _ => 0) None None None [].

(** The blocks 2 to 6 are prepared, the recording fails, block 2 is valid, 4 to
    6 are prepared again, and then the blocks after 5 are removed. *)
Lemma BlockRecorder_references_witness :
  let r := recorder_runs example_ops example_recorder in
  map bh_Number (br_preparedQueue r) = [2; 3; 4; 5; 4; 5] /\ (bh_Number <$> br_validHdr r) = Some 2 /\
  forall root, refs (br_recordingDatabase r) root = owned r root /\
    refs (br_recordingDatabase (WriteValidStateToDb r).2) root = owned r root - held (br_validHdr r) root.
Proof.
  intros r. split; [vm_compute; reflexivity|]. split; [vm_compute; reflexivity|].
  exact (BlockRecorder_references example_ops example_recorder (fun root => eq_refl)).
Defined.
